(* ===== verification/_CoqProject ===== *)
-Q . S2P
Prelude.v
RowPairs.v
Utf8.v
Proto.v
OutQueue.v
FrameClock.v
ProcStat.v
Cell.v
Width.v
VtParser.v
VtAttrs.v
Profile.v
VtModes.v
Scrollback.v
Screen.v
ScreenCells.v
ScreenProps.v
Emulator.v
Surface.v
Differ.v
Frames.v
Desktop.v
Theme.v
Tile.v
Window.v
Decor.v
SysInfo.v
StdString.v
TextBuffer.v
Input.v
InputParser.v
InputEncode.v
Shortcuts.v
UpdateState.v
UpdateService.v
Modal.v
Catalog.v
Menu.v
Help.v
SnapAssist.v
Panel.v
Drawn.v
Config.v
Host.v
Clock.v
Session.v
SessionRender.v
SessionDemo.v
SessionSteps.v
SessionProps.v
SessionHistory.v
SessionGestures.v
SessionFrame.v
Daemon.v
DaemonLife.v
DaemonLoop.v
Syscalls.v
Dir.v
FileJob.v
FileJobTrace.v
FileJobEnds.v
FileJobReach.v
TreeDisk.v
FileJobFlaws.v
Editor.v
EditorProps.v
Files.v
FilesView.v
FilesProps.v
FilesFlaws.v
GuestEnv.v
Pty.v
PtyLedger.v
Terminal.v
TerminalProps.v
TerminalTalk.v
Client.v
ClientProps.v
ClientTerminal.v
