(* ===== verification/Prelude.v ===== *)
(** * termos (sshos): a text-mode desktop, modelled and verified

    termos is a desktop for terminals, in C++, that lives behind ssh: a daemon keeps a
    session of windows -- terminals, an editor, a file manager, a monitor --, composes
    them on a surface of cells and sends to one client at a time the bytes that bring
    the terminal of the user up to date.  Bytes typed come back the same way.  The path
    of the source files given below starts at [src/src] in the repository; the headings
    of the files of the development leave the first [src] out.

    ** How the program is put together, and where its parts are

    - _Text and bytes._  [common/utf8] (file [Utf8]), [render/width] ([Width]); the
      search of [std::string] and the cutting into lines ([StdString]).
    - _Between the client and the daemon._  The messages and their incremental decoder,
      [common/proto] ([Proto]); the queue of what could not be sent, [common/outqueue]
      ([OutQueue]); the pace of frames, [common/frameclock] ([FrameClock]).
    - _The emulator of a terminal window._  The escape-sequence parser [vt/parser]
      ([VtParser]), SGR [vt/attrs] ([VtAttrs]), modes, charsets and replies ([VtModes]),
      the history of lines [vt/scrollback] ([Scrollback]), the grid [vt/screen]
      ([Screen]; its contents and promises in [ScreenCells], [ScreenProps]; [RowPairs]
      is the algebra of wide characters in a row), and the sink of [apps/terminal.cpp]
      that ties them ([Emulator]).
    - _Drawing._  Cells, styles, rectangles ([Cell]), surfaces and clipped views
      [render/surface] ([Surface]), reduction of colours and emission of styles
      [render/profile] ([Profile]), the differ [render/diff] ([Differ]), palettes and
      gauges ([Theme]).  [Frames] reads the bytes of the differ with the emulator of this
      same program; [Desktop] and [Drawn] carry it from frames to whatever is drawn with
      the primitives.
    - _Windows._  [wm/window], [wm/layout], [wm/manager] ([Window]), [wm/tile] ([Tile]),
      [wm/decor], [wm/hittest] ([Decor]).
    - _Input._  Events ([Input]), the parser of what the client's terminal sends
      [input/parser] ([InputParser]), keys to the bytes of a guest [input/encode]
      ([InputEncode]), the leader key [input/shortcuts] ([Shortcuts]).
    - _The shell of the desktop._  [shell/menu], [app/catalog], [shell/panel],
      [shell/help], [shell/modal], [shell/snapassist], [shell/sysinfo] with
      [apps/monitor/procstat], [shell/clock], [shell/update_state],
      [shell/update_service]: the files of the same names ([ProcStat], [SysInfo], ...).
    - _Applications._  What an application asks of the desktop and offers it,
      [app/app.hpp] and [daemon/host] ([Host]: the class [Application], with its laws).
      The editor: its lines [apps/editor/buffer] ([TextBuffer]), itself ([Editor],
      [EditorProps]).  The file manager: a directory [apps/files/dir] ([Dir]), the work
      on trees [apps/files/job] ([FileJob], [FileJobTrace], [FileJobReach],
      [FileJobEnds], [FileJobFlaws]), the application ([Files], [FilesView],
      [FilesProps], [FilesFlaws]).  The terminal, [apps/terminal]: its tabs, its bar, its
      fields and its pastes ([Terminal], on [Emulator]), what it keeps ([TerminalProps])
      and what its guests are told ([TerminalTalk]); a pseudo-terminal and its process
      [pty/pty] ([Pty], and what it holds, [PtyLedger]), the environment of a guest
      [pty/env] ([GuestEnv]).  What they all ask of the system is in [Syscalls];
      [TreeDisk] is a small disk to run them on.
    - _The session_, [daemon/session]: its state and reactions ([Session]), a frame
      ([SessionRender]), both as steps of a smaller machine ([SessionSteps],
      [SessionProps]), over whole histories ([SessionHistory]), its gestures and
      questions ([SessionGestures]), what a frame shows ([SessionFrame]); [SessionDemo]
      has sessions to evaluate.  Settings are [daemon/config] ([Config]).
    - _The client_, [client/client], [client/tty_guard], [client/restart]: joining the
      daemon, the relay, the terminal taken and given back, the budget of restarts
      ([Client], on [Syscalls] and [Proto]); what it carries ([ClientProps]), what it
      leaves on the terminal ([ClientTerminal], which reads it with [Emulator]).
    - _The daemon_, [daemon/daemon], [daemon/reap]: its loop ([Daemon]), what its client
      sees over its whole life ([DaemonLife]), who disturbs whom, when it ends and when
      it sleeps ([DaemonLoop]).

    The parts meet as in the program.  The daemon ([Daemon]) gives what it reads to the
    decoder ([Proto]), the bytes typed to the input parser, its events to the session,
    and what the session has composed to the differ and the queue.  The session calls
    applications through the class [Application] only, and every theorem about it holds
    of any instance; an application acts on the desktop by the calls of [Host] only.
    The window manager sees of an application its least size (class [App] of
    [Window]).  The editor, the file manager and the terminal ask the system through the
    class [System] of [Syscalls] only.

    ** How the code is represented

    Handlers are functions from a state (a record with the fields of the class) to a
    state.  Integers are [Z], with [to_u8], [to_u32], [to_u64] and the like where the
    source narrows or wraps; sizes and indices of containers are [nat].  Bytes are the
    [Z] of a list.  A view, a host or a queue that the source passes by reference is
    passed and returned.  What the system answers is universally quantified, in one of
    three forms: lists of answers (the sends of [OutQueue], the turns of [Daemon]), a
    record of answers given to one event ([env] of [Session], [world] of
    [UpdateService], [answers] of [Config]), or a function of everything asked before
    (the class [System]: nothing is supposed of it but what a theorem says).  A [System]
    call recorded is the last one of a series that signals interrupt; a [write] that
    succeeds takes a byte at least when it is given one; [readdir] is one request with
    the whole list.  Loops are structural recursions, or take a fuel that is the length
    of what they consume -- theorems say it is enough ([reading_loops_end], the
    refinements of parsers against the whole stream) --; the reads of a whole file by
    the editor, and the reads of a guest by the terminal, are bounded by the parameter
    [blocks], of any value, since a file may have no end and a guest may never be quiet;
    the loops of the client, without end in the code, take [turns] turns at most, of any
    value; the slices of a work take as many turns as their budget has bytes, and a write
    as many as it has bytes.

    ** What is shown

    - _The client sees the desktop_: [client_sees_the_desktop], over any life of the
      daemon; below it what is drawn against the emulator ([drawn_desktop_is_shown],
      [idle_desktop_is_silent]), styles ([sgr_transition_correct]), the protocol cut
      anywhere ([receive_refines_parse]), the queue within its bounds
      ([outqueue_bounded]).  The client itself carries every byte typed and every frame
      once and in order ([client_is_a_relay]), and gives the terminal back, sane
      ([terminal_is_given_back]).
    - _The session keeps its promises_: identifiers, focus and modes consistent over any
      history ([session_consistent], [wm_invariant]), no window closed that refuses
      ([unsaved_window_survives]), nothing behind a question ([nothing_behind_modal]), a
      gesture that can be taken back ([gesture_taken_back]); what epoll watches is of
      windows still there (also [session_consistent], with [Host.epoll]); and who has not
      greeted changes nothing, who greets takes the place ([only_a_greeting_evicts]).
    - _A terminal and its guests_: tabs, pages, descriptors and processes accounted for
      through any history ([terminal_keeps_its_tabs], whose pages rest on
      [Emulator.guest_cannot_break_window]); a guest is told what is its own and nothing
      else ([guests_hear_their_own]), changes nothing outside its tab
      ([guest_is_alone_in_its_tab]), is given a paste whole and sealed
      ([a_paste_is_one_paste]) and an environment that is known ([guest_environment]);
      below, [guest_cannot_break_window], [parser_safe], [wide_chars_whole],
      [scrollback_refines_list].
    - _What is typed arrives_: [chunks_refine_stream], [keys_roundtrip],
      [utf8_roundtrip].
    - _Windows and drawing_: [tile_partition], [Window.resize_reversible],
      [view_confined], the bar drawn as it is clicked ([clicked_is_drawn]) and with every
      window once ([bar_accounts_for_windows]).
    - _Files are not lost_: the application of files changes on the disk what it was
      asked to ([nothing_changes_unasked]); the work removes nothing it has not copied
      ([work_is_careful]), stays in its trees and follows no link
      ([work_stays_in_its_trees]), ends ([work_ends]); the editor loses nothing when it closes
      ([closing_loses_nothing]) and its text is that of its edits
      ([edits_refine_splices]).
    - _Updates_: [update_always_wakes], [entry_never_stuck].
    - _Where the program does not do what it means to_: [escaped_question_stays_armed];
      and the lemmas [DaemonLoop.detached_check_is_slept_through],
      [DaemonLoop.oversized_frame_never_leaves], [FileJobFlaws.move_in_place_deletes],
      [Config.full_disk_erases_settings] and the examples of [FileJobFlaws],
      [FilesFlaws] and [EditorProps].

    ** Not modelled

    - An instance of the class [Application] for the applications of the program: the
      session is proved for any.  The terminal without a host, and its accesses for the
      tests.
    - The child between [fork] and [execve]: another program, which follows the launch
      it is given; the accounts of [PtyLedger] are those of the daemon.
    - The delivery of signals to the client (that a resize came, that a signal is fatal:
      what the system answers), and [client/launch], which starts the daemon.
    - [daemon/daemonize], [daemon/journal], [common/net], [common/fd],
      [common/paths], [common/platform], [common/oom], [main.cpp]: sequences of system
      calls with no state of the program; what they answer is the environment.
    - Allocation failure, exceptions, and the undefined behaviour of [int] overflow on
      counts that no run reaches (elements of a work, frames). *)

From stdpp Require Export relations base decidable list numbers option.
From Stdlib Require Export ZArith Lia.
From Stdlib Require Ascii String.
Export String.StringSyntax.


#[global] Open Scope Z_scope.

(** ** Bytes and byte strings

    A [char] or [uint8_t] is a [Z] in [0, 256); a [std::string] or
    [std::string_view] is the list of its bytes. *)

Abbreviation bytes := (list Z).

Definition byte_ok (b : Z) : Prop := 0 <= b < 256.
Definition bytes_ok (s : bytes) : Prop := Forall byte_ok s.

#[export] Instance byte_ok_dec b : Decision (byte_ok b) := _.
#[export] Instance bytes_ok_dec s : Decision (bytes_ok s) := _.

(** The bytes of an ASCII or UTF-8 literal of the source. *)
Definition str (s : String.string) : bytes :=
  (fun a => Z.of_N (Ascii.N_of_ascii a)) <$> String.list_ascii_of_string s.
Arguments str s%_string_scope.

(** [s.size()] as an integer. *)
Definition zlen {A} (l : list A) : Z := Z.of_nat (length l).


(** Machine-width truncation: [static_cast<uintN_t>]. *)
Definition to_u8 (v : Z) : Z := v mod 256.
Definition to_u16 (v : Z) : Z := v mod 65536.
Definition to_u32 (v : Z) : Z := v mod 4294967296.

(** [static_cast<unsigned char>(s[i])]: reading past the end is undefined in C++; the
    code's guards are shown to exclude it, and the model returns 0 there. *)
Definition byte_at (s : bytes) (i : nat) : Z := to_u8 (default 0 (s !! i)).

Lemma to_u8_id b : byte_ok b -> to_u8 b = b.
Proof. intros Hb. unfold to_u8. apply Z.mod_small, Hb. Qed.

(** What is read is a byte; and the one written, if it was one. *)
Lemma byte_at_ok s i : byte_ok (byte_at s i).
Proof. apply Z.mod_pos_bound. done. Qed.

Lemma byte_at_lookup s i b : s !! i = Some b -> byte_ok b -> byte_at s i = b.
Proof. intros Hi Hb. unfold byte_at. rewrite Hi. by apply to_u8_id. Qed.

(** ** Automation *)

Create HintDb termos.
Create Rewrite HintDb termos.

(** Split on the boolean tests of the goal or the context, turning each into
    the linear fact it stands for. *)
Ltac zbool :=
  repeat match goal with
  | H : (_ && _)%bool = true |- _ => apply andb_true_iff in H as [? ?]
  | H : (_ || _)%bool = false |- _ => apply orb_false_iff in H as [? ?]
  | H : negb _ = true |- _ => apply negb_true_iff in H
  | H : negb _ = false |- _ => apply negb_false_iff in H
  | H : (_ =? _) = true |- _ => apply Z.eqb_eq in H
  | H : (_ =? _) = false |- _ => apply Z.eqb_neq in H
  | H : (_ <? _) = true |- _ => apply Z.ltb_lt in H
  | H : (_ <? _) = false |- _ => apply Z.ltb_ge in H
  | H : (_ <=? _) = true |- _ => apply Z.leb_le in H
  | H : (_ <=? _) = false |- _ => apply Z.leb_gt in H
  end.

(** Case analysis on every [if] of the goal. *)
Ltac zcases :=
  repeat (match goal with
  | |- context [if ?b then _ else _] =>
      lazymatch type of b with bool => destruct b eqn:?; zbool end
  end; try lia).

(** A boolean test decided by arithmetic. *)
Ltac ztest :=
  lazymatch goal with
  | |- (_ <? _)%Z = true => apply Z.ltb_lt
  | |- (_ <? _)%Z = false => apply Z.ltb_ge
  | |- (_ <=? _)%Z = true => apply Z.leb_le
  | |- (_ <=? _)%Z = false => apply Z.leb_gt
  | |- (_ =? _)%Z = true => apply Z.eqb_eq
  | |- (_ =? _)%Z = false => apply Z.eqb_neq
  | |- (_ <? _)%nat = true => apply Nat.ltb_lt
  | |- (_ <? _)%nat = false => apply Nat.ltb_ge
  | |- (_ <=? _)%nat = true => apply Nat.leb_le
  | |- (_ <=? _)%nat = false => apply Nat.leb_gt
  | |- (_ =? _)%nat = true => apply Nat.eqb_eq
  | |- (_ =? _)%nat = false => apply Nat.eqb_neq
  | |- _ => idtac
  end.

Ltac zrw_true b :=
  replace b with true by (symmetry; ztest; first [lia | Z.div_mod_to_equations; lia]).
Ltac zrw_false b :=
  replace b with false by (symmetry; ztest; first [lia | Z.div_mod_to_equations; lia]).

(** ** Exhaustive reasoning on bytes *)

Definition all_bytes : list Z := Z.of_nat <$> seq 0 256.

Lemma elem_of_all_bytes b : byte_ok b -> b ∈ all_bytes.
Proof.
  intros Hb. apply list_elem_of_fmap. exists (Z.to_nat b).
  unfold byte_ok in Hb. split; [lia|]. apply elem_of_seq; lia.
Qed.

Lemma byte_check (P : Z -> bool) b :
  forallb P all_bytes = true -> byte_ok b -> P b = true.
Proof.
  intros H Hb. rewrite forallb_forall in H. apply H.
  by apply list_elem_of_In, elem_of_all_bytes.
Qed.

(** ** Bit operations as arithmetic *)

Lemma shiftr_div a n : 0 <= n -> Z.shiftr a n = a / 2 ^ n.
Proof. apply Z.shiftr_div_pow2. Qed.

Lemma land_mask a n : 0 <= n -> Z.land a (2 ^ n - 1) = a mod 2 ^ n.
Proof. intros. rewrite <- Z.land_ones by lia. by rewrite Z.ones_equiv, Z.sub_1_r. Qed.

(** Bits that do not overlap add up. *)
Lemma lor_disjoint a b n :
  0 <= n -> 0 <= b < 2 ^ n -> Z.lor (a * 2 ^ n) b = a * 2 ^ n + b.
Proof.
  intros Hn Hb.
  rewrite <- Z.shiftl_mul_pow2 by lia.
  rewrite <- Z.add_lor_land.
  assert (Z.land (Z.shiftl a n) b = 0) as ->; [|lia].
  apply Z.bits_inj'. intros k Hk. rewrite Z.land_spec, Z.bits_0.
  destruct (decide (k < n)).
  - by rewrite Z.shiftl_spec_low.
  - assert (Z.testbit b k = false) as ->; [|apply andb_false_r].
    rewrite <- (Z.mod_small b (2 ^ n)) by lia.
    apply Z.mod_pow2_bits_high. lia.
Qed.

(** ** Lists *)

Section Lists.
Context {A : Type}.
Implicit Types l : list A.

Lemma zlen_nonneg l : 0 <= zlen l.
Proof. unfold zlen. lia. Qed.

Lemma zlen_app l1 l2 : zlen (l1 ++ l2) = zlen l1 + zlen l2.
Proof. unfold zlen. rewrite length_app. lia. Qed.

Lemma zlen_nil : zlen (@nil A) = 0.
Proof. done. Qed.

Lemma zlen_cons x l : zlen (x :: l) = 1 + zlen l.
Proof. unfold zlen. cbn [length]. lia. Qed.

Lemma zlen_drop l n : zlen (drop n l) = Z.max 0 (zlen l - Z.of_nat n).
Proof. unfold zlen. rewrite length_drop. lia. Qed.
End Lists.

#[export] Hint Rewrite @zlen_app @zlen_nil @zlen_cons @zlen_drop : termos.

(** ** Decimal numbers: [std::to_string] *)

Fixpoint dec_digits (fuel : nat) (n : Z) (acc : bytes) : bytes :=
  match fuel with
  | O => acc
  | S fuel =>
      let acc := (48 + n mod 10) :: acc in
      if n <? 10 then acc else dec_digits fuel (n / 10) acc
  end.

(** Twenty digits hold every 64-bit integer. *)
Definition to_string (n : Z) : bytes :=
  if n <? 0 then 45 :: dec_digits 20 (- n) [] else dec_digits 20 n [].

Lemma dec_digits_S fuel n acc :
  dec_digits (S fuel) n acc
  = if n <? 10 then (48 + n mod 10) :: acc else dec_digits fuel (n / 10) ((48 + n mod 10) :: acc).
Proof. done. Qed.

Lemma dec_digits_acc fuel n acc : dec_digits fuel n acc = dec_digits fuel n [] ++ acc.
Proof.
  revert n acc. induction fuel as [|fuel IH]; intros n acc; [done|]. cbn.
  destruct (n <? 10); [done|]. rewrite (IH _ (_ :: acc)), (IH _ [_]). by rewrite <- app_assoc.
Qed.

Lemma dec_digits_fuel f1 f2 n :
  0 <= n < 10 ^ Z.of_nat f1 -> 0 <= n < 10 ^ Z.of_nat f2 -> (0 < f1)%nat -> (0 < f2)%nat ->
  dec_digits f1 n [] = dec_digits f2 n [].
Proof.
  revert f2 n. induction f1 as [|f1 IH]; intros f2 n H1 H2 L1 L2; [lia|].
  destruct f2 as [|f2]; [lia|]. cbn [dec_digits]. destruct (Z.ltb_spec n 10); [done|].
  rewrite !(dec_digits_acc _ _ [_]). f_equal.
  rewrite Nat2Z.inj_succ, Z.pow_succ_r in H1, H2 by lia.
  destruct f1 as [|f1]; [cbn in H1; lia|]. destruct f2 as [|f2]; [cbn in H2; lia|].
  apply IH; [| |lia|lia]; Z.div_mod_to_equations; lia.
Qed.

Definition kDecMax : Z := 100000000000000000000.
Lemma kDecMax_pos : 10 < kDecMax. Proof. by vm_compute. Qed.
Opaque kDecMax.

(** The induction the decimal form supports. *)
Lemma to_string_step n :
  0 <= n < kDecMax ->
  to_string n = if n <? 10 then [48 + n] else to_string (n / 10) ++ [48 + n mod 10].
Proof.
  intros Hn. unfold to_string. zrw_false (n <? 0).
  assert (0 <= n / 10 <= n) as Hd by (Z.div_mod_to_equations; lia).
  zrw_false (n / 10 <? 0). rewrite (dec_digits_S 19 n).
  destruct (Z.ltb_spec n 10).
  - by rewrite Z.mod_small by lia.
  - rewrite dec_digits_acc. apply (f_equal (fun l => l ++ [48 + n mod 10])).
    apply (dec_digits_fuel 19 20); [..|lia|lia].
    + change (Z.of_nat 19) with 19. change (kDecMax) with (10 * 10 ^ 19) in Hn.
      Z.div_mod_to_equations; lia.
    + change (10 ^ Z.of_nat 20) with kDecMax. Z.div_mod_to_equations; lia.
Qed.

Lemma to_string_ind (P : Z -> Prop) :
  (forall n, 0 <= n < 10 -> P n) ->
  (forall n, 10 <= n < kDecMax -> P (n / 10) -> P n) ->
  forall n, 0 <= n < kDecMax -> P n.
Proof.
  intros H0 H1 n Hn. assert (0 <= n) as Hp by lia. revert Hn.
  apply (Zlt_0_ind (fun n => 0 <= n < kDecMax -> P n)); [|done]. clear n Hp. intros n IH _ Hn. destruct (Z.ltb_spec n 10); [apply H0; lia|].
  pose proof kDecMax_pos. apply H1; [lia|]. apply IH; Z.div_mod_to_equations; lia.
Qed.

Lemma to_string_digits n :
  0 <= n < kDecMax -> Forall (fun b => 48 <= b <= 57) (to_string n) /\ to_string n <> [].
Proof.
  apply (to_string_ind (fun n => Forall (fun b => 48 <= b <= 57) (to_string n) /\ to_string n <> [])).
  - intros m Hm. pose proof kDecMax_pos. rewrite to_string_step by lia. zrw_true (m <? 10).
    split; [|done]. constructor; [lia|constructor].
  - intros m Hm [IH Hne]. rewrite to_string_step by lia. zrw_false (m <? 10).
    split; [|by intros [? _]%app_eq_nil]. apply Forall_app. split; [done|].
    constructor; [|constructor]. Z.div_mod_to_equations; lia.
Qed.
