(* ===== verification/RowPairs.v ===== *)
(** * Rows of widths

    A row of cells seen as the function of its widths: 2 on the head of a wide
    character, 0 on its tail, 1 elsewhere and outside.  What the grid of the
    terminal and the surface of the desktop both keep. *)

From S2P Require Import Prelude.

(** A wide head is followed by its tail and a tail follows its head; outside the
    row everything is narrow, so this also says that no half hangs over. *)
Definition row_pairs (f : Z -> Z) : Prop :=
  forall x, (f x = 2 <-> f (x + 1) = 0) /\ (f x = 0 \/ f x = 1 \/ f x = 2).

(** Erasing a set of columns that no pair straddles. *)
Lemma row_pairs_ext f g : (forall x, f x = g x) -> row_pairs g -> row_pairs f.
Proof. intros H Hg x. rewrite !H. apply Hg. Qed.

Lemma row_pairs_erase f (E : Z -> bool) f' :
  row_pairs f -> (forall x, f x = 2 -> E x = E (x + 1)) ->
  (forall x, f' x = if E x then 1 else f x) -> row_pairs f'.
Proof.
  intros Hf HE Hf' x. rewrite !Hf'. destruct (Hf x) as [H2 H3]. specialize (HE x).
  split; [|destruct (E x); auto].
  destruct (Z.eq_dec (f x) 2) as [Ex|Ex].
  - rewrite <- HE by done. destruct (E x); [split; lia|done].
  - assert (f (x + 1) <> 0) by tauto. destruct (E x), (E (x + 1)); split; lia.
Qed.

(** Writing a character over narrow cells. *)
Lemma row_pairs_write f f' p w :
  row_pairs f -> (w = 1 \/ w = 2) -> f p = 1 -> (w = 2 -> f (p + 1) = 1) ->
  (forall x, f' x = if x =? p then w else if (w =? 2) && (x =? p + 1) then 0 else f x) ->
  row_pairs f'.
Proof.
  intros Hf Hw Hp Hp1 Hf' x. rewrite !Hf'. destruct (Hf x) as [H2 H3].
  destruct (Z.eqb_spec x p) as [->|Hx].
  - destruct (Z.eqb_spec (p + 1) p); [lia|]. rewrite Z.eqb_refl, andb_true_r.
    destruct Hw as [-> | ->]; cbn [Z.eqb Pos.eqb]; [|split; [done|auto]].
    split; [|auto]. assert (f (p + 1) <> 0) by (intros E; apply H2 in E; lia). split; lia.
  - destruct (Z.eqb_spec (x + 1) p) as [<-|Hx1].
    + assert (f x <> 2) by (intros E; apply H2 in E; lia).
      destruct (Z.eqb_spec x (x + 1 + 1)); [lia|]. rewrite andb_false_r.
      split; [lia|done].
    + destruct (Z.eqb_spec x (p + 1)) as [->|Hx2].
      * destruct (Z.eqb_spec (p + 1 + 1) (p + 1)); [lia|]. rewrite andb_false_r, andb_true_r.
        destruct Hw as [-> | ->]; cbn [Z.eqb Pos.eqb]; [done|].
        split; [|auto]. assert (f (p + 1 + 1) <> 0).
        { intros E. apply H2 in E. rewrite Hp1 in E by done. lia. }
        split; lia.
      * destruct (Z.eqb_spec (x + 1) (p + 1)); [lia|]. by rewrite !andb_false_r.
Qed.

(** The row [insert_chars] leaves, as a function of the row it found: [k] columns
    blanked at [c], the rest moved right within [n] columns, and a head left
    without its tail in the last column blanked. *)
Definition shifted_row (f : Z -> Z) (c k n x : Z) : Z :=
  if bool_decide (c <= x < c + k) then 1
  else if bool_decide (c + k <= x < n) then f (x - k) else f x.

Definition cut_row (g : Z -> Z) (n x : Z) : Z :=
  if bool_decide (x = n - 1 /\ g x = 2) then 1 else g x.

Lemma row_pairs_cut g n :
  (forall x, x <> n - 1 -> (g x = 2 <-> g (x + 1) = 0)) ->
  (forall x, g x = 0 \/ g x = 1 \/ g x = 2) -> g n <> 0 -> row_pairs (cut_row g n).
Proof.
  intros Hg Hr Hn x. unfold cut_row. specialize (Hr x).
  destruct (Z.eq_dec x (n - 1)) as [->|Hx].
  - rewrite (bool_decide_false (n - 1 + 1 = n - 1 /\ _)) by lia.
    replace (n - 1 + 1) with n by lia. case_bool_decide; lia.
  - rewrite (bool_decide_false (x = n - 1 /\ _)) by lia. specialize (Hg x Hx).
    case_bool_decide as H; [|tauto]. destruct H as [_ H]. split; [|tauto].
    rewrite Hg, H. lia.
Qed.

Lemma row_pairs_shift f c k n :
  row_pairs f -> f c = 1 -> (forall x, n <= x -> f x = 1) -> 0 <= c -> 1 <= k <= n - c ->
  row_pairs (cut_row (shifted_row f c k n) n).
Proof.
  intros Hf Hc Hout H0 Hk. apply row_pairs_cut.
  - intros x Hx. unfold shifted_row.
    destruct (Hf x) as [H1 _], (Hf (x - k)) as [H2 _].
    replace (x + 1 - k) with (x - k + 1) by lia.
    assert (x + 1 = c \/ x + 1 < c \/ c <= x < c + k - 1 \/ x = c + k - 1
            \/ c + k <= x < n - 1 \/ n <= x) as Hz by lia.
    destruct Hz as [E|[E|[E|[E|[E|E]]]]].
    + rewrite !(bool_decide_false (c <= x < c + k)), !(bool_decide_false (c + k <= x < n)),
        (bool_decide_true (c <= x + 1 < c + k)) by lia. rewrite E in H1. lia.
    + by rewrite !(bool_decide_false (c <= x < c + k)), !(bool_decide_false (c + k <= x < n)),
        !(bool_decide_false (c <= x + 1 < c + k)), !(bool_decide_false (c + k <= x + 1 < n)) by lia.
    + by rewrite !(bool_decide_true (c <= x < c + k)), !(bool_decide_true (c <= x + 1 < c + k)) by lia.
    + rewrite !(bool_decide_true (c <= x < c + k)), !(bool_decide_false (c <= x + 1 < c + k)) by lia.
      replace (x - k + 1) with c by lia.
      case_bool_decide as H3; [lia|]. rewrite (Hout (x + 1)) by lia. lia.
    + by rewrite !(bool_decide_false (c <= x < c + k)), !(bool_decide_true (c + k <= x < n)),
        !(bool_decide_false (c <= x + 1 < c + k)), !(bool_decide_true (c + k <= x + 1 < n)) by lia.
    + by rewrite !(bool_decide_false (c <= x < c + k)), !(bool_decide_false (c + k <= x < n)),
        !(bool_decide_false (c <= x + 1 < c + k)), !(bool_decide_false (c + k <= x + 1 < n)) by lia.
  - intros x. unfold shifted_row. pose proof (proj2 (Hf x)). pose proof (proj2 (Hf (x - k))).
    repeat case_bool_decide; tauto.
  - unfold shifted_row. rewrite !bool_decide_false, Hout by lia. lia.
Qed.
