(* ===== verification/Utf8.v ===== *)
(** * The UTF-8 codec: [src/common/utf8.cpp]

    [utf8_decode] is the only decoder shared by the renderer and the keyboard
    parser; [encode_utf8] is its other half; [fold_to_ascii] serves the clients
    that do not announce UTF-8.  The file shows that the two halves agree on
    what a Unicode scalar value is: encoding is decoded back, and whatever is
    decoded on arbitrary bytes is a scalar whose bytes are its own encoding --
    so overlong forms, surrogates and out-of-range values never come out. *)

From S2P Require Import Prelude.

(** ** The Unicode scalar values *)

Definition replacement : Z := 65533.

Definition is_surrogate (cp : Z) : bool := (0xD800 <=? cp) && (cp <=? 0xDFFF).

Definition scalar (cp : Z) : Prop :=
  0 <= cp <= 0x10FFFF /\ is_surrogate cp = false.

#[export] Instance scalar_dec cp : Decision (scalar cp) := _.

(** ** Decoding *)

(** The lead byte: how many continuation bytes it announces and the payload
    bits it carries; [None] for an isolated continuation or an illegal byte. *)
Definition utf8_lead (b0 : Z) : option (nat * Z) :=
  if Z.land b0 0xE0 =? 0xC0 then Some (1%nat, Z.land b0 0x1F)
  else if Z.land b0 0xF0 =? 0xE0 then Some (2%nat, Z.land b0 0x0F)
  else if Z.land b0 0xF8 =? 0xF0 then Some (3%nat, Z.land b0 0x07)
  else None.

(** The loop [for (k = 1; k <= need; ++k)]: [inl k] is its early return on a
    byte that is not a continuation. *)
Fixpoint utf8_tail (s : bytes) (pos k todo : nat) (cp : Z) : nat + Z :=
  match todo with
  | O => inr cp
  | S todo =>
      let bk := byte_at s (pos + k) in
      if negb (Z.land bk 0xC0 =? 0x80) then inl k
      else utf8_tail s pos (S k) todo (Z.lor (Z.shiftl cp 6) (Z.land bk 0x3F))
  end.

Definition utf8_overlong (need : nat) (cp : Z) : bool :=
  ((need =? 1)%nat && (cp <? 0x80)) || ((need =? 2)%nat && (cp <? 0x800))
  || ((need =? 3)%nat && (cp <? 0x10000)).

(** [utf8_decode(s, pos, out)]: the number of bytes consumed, and [out]. *)
Definition utf8_decode (s : bytes) (pos : nat) : nat * Z :=
  if (length s <=? pos)%nat then (1%nat, replacement)
  else
    let b0 := byte_at s pos in
    if b0 <? 0x80 then (1%nat, b0)
    else
      match utf8_lead b0 with
      | None => (1%nat, replacement)
      | Some (need, cp) =>
          if ((length s + 0 <=? pos + need) && (length s - 1 <? pos + need))%nat
          then ((length s - pos)%nat, replacement)
          else
            match utf8_tail s pos 1 need cp with
            | inl k => (k, replacement)
            | inr cp =>
                ((need + 1)%nat,
                 if is_surrogate cp || (0x10FFFF <? cp) || utf8_overlong need cp
                 then 0xFFFD else cp)
            end
      end.

(** ** Encoding *)

Definition encode_utf8 (cp : Z) : bytes :=
  let cp := if is_surrogate cp || (0x10FFFF <? cp) then 0xFFFD else cp in
  if cp <? 0x80 then [to_u8 cp]
  else if cp <? 0x800 then
    [to_u8 (Z.lor 0xC0 (Z.shiftr cp 6)); to_u8 (Z.lor 0x80 (Z.land cp 0x3F))]
  else if cp <? 0x10000 then
    [to_u8 (Z.lor 0xE0 (Z.shiftr cp 12));
     to_u8 (Z.lor 0x80 (Z.land (Z.shiftr cp 6) 0x3F));
     to_u8 (Z.lor 0x80 (Z.land cp 0x3F))]
  else
    [to_u8 (Z.lor 0xF0 (Z.shiftr cp 18));
     to_u8 (Z.lor 0x80 (Z.land (Z.shiftr cp 12) 0x3F));
     to_u8 (Z.lor 0x80 (Z.land (Z.shiftr cp 6) 0x3F));
     to_u8 (Z.lor 0x80 (Z.land cp 0x3F))].

(** ** Folding to ASCII *)

(** [kFolds]: the code point and what it becomes, in the order of the table. *)
Definition kFolds : list (Z * bytes) :=
  [
    (224, str "a"); (226, str "a"); (228, str "a"); (225, str "a");
    (227, str "a"); (229, str "a"); (231, str "c"); (232, str "e");
    (233, str "e"); (234, str "e"); (235, str "e"); (236, str "i");
    (237, str "i"); (238, str "i"); (239, str "i"); (241, str "n");
    (242, str "o"); (243, str "o"); (244, str "o"); (246, str "o");
    (245, str "o"); (249, str "u"); (250, str "u"); (251, str "u");
    (252, str "u"); (253, str "y"); (255, str "y"); (230, str "ae");
    (339, str "oe"); (223, str "ss"); (192, str "A"); (194, str "A");
    (196, str "A"); (193, str "A"); (195, str "A"); (197, str "A");
    (199, str "C"); (200, str "E"); (201, str "E"); (202, str "E");
    (203, str "E"); (204, str "I"); (205, str "I"); (206, str "I");
    (207, str "I"); (209, str "N"); (210, str "O"); (211, str "O");
    (212, str "O"); (214, str "O"); (213, str "O"); (217, str "U");
    (218, str "U"); (219, str "U"); (220, str "U"); (221, str "Y");
    (198, str "AE"); (338, str "OE"); (8217, str "'"); (8216, str "'");
    (8220, [34]); (8221, [34]); (8211, str "-"); (8212, str "-");
    (8230, str "..."); (171, [34]); (187, [34])
  ].

Definition fold_lookup (cp : Z) : option bytes :=
  snd <$> List.find (fun f => fst f =? cp) kFolds.

Definition fold_char (cp : Z) : bytes :=
  if cp <? 0x80 then [to_u8 cp] else default (str "?") (fold_lookup cp).

(** The [while (i < s.size())] loop; [fuel] bounds its iterations, each of
    which consumes at least one byte. *)
Fixpoint fold_from (fuel : nat) (s : bytes) (i : nat) : bytes :=
  match fuel with
  | O => []
  | S fuel =>
      if (length s <=? i)%nat then []
      else let '(used, cp) := utf8_decode s i in
           fold_char cp ++ fold_from fuel s (i + used)
  end.

Definition fold_to_ascii (s : bytes) : bytes := fold_from (length s) s 0.

(** ** Arithmetic reading of the bit operations *)

Lemma cont_byte_test b :
  byte_ok b -> (Z.land b 0xC0 =? 0x80) = (128 <=? b) && (b <? 192).
Proof.
  intros Hb. apply eqb_prop.
  apply (byte_check (fun b => eqb (Z.land b 0xC0 =? 0x80) ((128 <=? b) && (b <? 192)))); done.
Qed.

Lemma lead_arith b :
  byte_ok b ->
  utf8_lead b =
    if (192 <=? b) && (b <? 224) then Some (1%nat, b - 192)
    else if (224 <=? b) && (b <? 240) then Some (2%nat, b - 224)
    else if (240 <=? b) && (b <? 248) then Some (3%nat, b - 240)
    else None.
Proof.
  intros Hb.
  assert (forallb (fun b => bool_decide (utf8_lead b =
    if (192 <=? b) && (b <? 224) then Some (1%nat, b - 192)
    else if (224 <=? b) && (b <? 240) then Some (2%nat, b - 224)
    else if (240 <=? b) && (b <? 248) then Some (3%nat, b - 240)
    else None)) all_bytes = true) as H by (vm_compute; reflexivity).
  apply (byte_check _ b H) in Hb. by apply bool_decide_eq_true in Hb.
Qed.

Lemma lor_hi k x n :
  0 <= n -> 0 <= x < 2 ^ n -> Z.lor (k * 2 ^ n) x = k * 2 ^ n + x.
Proof. apply lor_disjoint. Qed.

Lemma tail_acc cp b :
  byte_ok b -> 128 <= b < 192 ->
  Z.lor (Z.shiftl cp 6) (Z.land b 0x3F) = cp * 64 + (b - 128).
Proof.
  intros Hb ?. change 0x3F with (2 ^ 6 - 1). rewrite land_mask by lia.
  rewrite Z.shiftl_mul_pow2 by lia. rewrite lor_disjoint by (lia || apply Z.mod_pos_bound; lia).
  change (2 ^ 6) with 64. Z.div_mod_to_equations. lia.
Qed.

Lemma enc_cont x : to_u8 (Z.lor 0x80 (Z.land x 0x3F)) = 128 + x mod 64.
Proof.
  change 0x3F with (2 ^ 6 - 1). rewrite land_mask by lia.
  change 0x80 with (2 * 2 ^ 6). rewrite lor_disjoint by (lia || apply Z.mod_pos_bound; lia).
  change (2 ^ 6) with 64. unfold to_u8. Z.div_mod_to_equations. lia.
Qed.

(** [encode_utf8] on a scalar value, in arithmetic. *)
Definition encode_arith (cp : Z) : bytes :=
  if cp <? 0x80 then [cp]
  else if cp <? 0x800 then [192 + cp / 64; 128 + cp mod 64]
  else if cp <? 0x10000 then
    [224 + cp / 4096; 128 + (cp / 64) mod 64; 128 + cp mod 64]
  else
    [240 + cp / 262144; 128 + (cp / 4096) mod 64; 128 + (cp / 64) mod 64;
     128 + cp mod 64].

Lemma encode_utf8_arith cp : scalar cp -> encode_utf8 cp = encode_arith cp.
Proof.
  intros [Hr Hs]. unfold encode_utf8, encode_arith. rewrite Hs.
  zrw_false (0x10FFFF <? cp). cbn [orb]. rewrite !enc_cont, !Z.shiftr_div_pow2 by lia.
  change (2 ^ 6) with 64; change (2 ^ 12) with 4096; change (2 ^ 18) with 262144.
  change 0xC0 with (6 * 2 ^ 5); change 0xE0 with (14 * 2 ^ 4);
    change 0xF0 with (30 * 2 ^ 3).
  destruct (Z.ltb_spec cp 0x80); [unfold to_u8; rewrite Z.mod_small by lia; done|].
  destruct (Z.ltb_spec cp 0x800); [|destruct (Z.ltb_spec cp 0x10000)];
    (rewrite lor_disjoint by (lia || (change (2 ^ 5) with 32; change (2 ^ 4) with 16;
       change (2 ^ 3) with 8; Z.div_mod_to_equations; lia)));
    unfold to_u8; f_equal; Z.div_mod_to_equations; lia.
Qed.

Lemma encode_utf8_bytes_ok cp : bytes_ok (encode_utf8 cp).
Proof.
  unfold encode_utf8, bytes_ok. cbv zeta.
  assert (forall x, byte_ok (to_u8 x)) as H
    by (intros x; unfold byte_ok, to_u8; apply Z.mod_pos_bound; lia).
  repeat case_match; repeat constructor; apply H.
Qed.

(** ** Decoding depends on the suffix only *)

Lemma utf8_tail_drop s pos k n cp :
  utf8_tail (drop pos s) 0 k n cp = utf8_tail s pos k n cp.
Proof.
  revert k cp. induction n as [|n IH]; intros k cp; [done|]. cbn [utf8_tail].
  unfold byte_at. rewrite lookup_drop. cbn [Nat.add].
  case_match; [done|]. apply IH.
Qed.

Lemma utf8_decode_drop s pos :
  (pos < length s)%nat -> utf8_decode s pos = utf8_decode (drop pos s) 0.
Proof.
  intros Hp. unfold utf8_decode. rewrite length_drop.
  replace (byte_at (drop pos s) 0) with (byte_at s pos)
    by (unfold byte_at; rewrite lookup_drop; by rewrite Nat.add_0_r).
  rewrite (proj2 (Nat.leb_gt _ _) Hp).
  replace (length s - pos <=? 0)%nat with false by (symmetry; apply Nat.leb_gt; lia).
  case_match; [done|]. case_match; [|done]. case_match.
  setoid_rewrite utf8_tail_drop.
  match goal with |- (if ?a then _ else _) = (if ?b then _ else _) =>
    assert (a = b) as -> by (apply eq_true_iff_eq;
      rewrite !andb_true_iff, !Nat.leb_le, !Nat.ltb_lt; lia) end.
  case_match; [f_equal; lia|done].
Qed.

(** The truncation test of the source is the plain bound. *)
Lemma utf8_truncated_iff (len pos need : nat) :
  (pos < len)%nat ->
  ((len + 0 <=? pos + need) && (len - 1 <? pos + need))%nat = (len <=? pos + need)%nat.
Proof.
  intros. apply eq_true_iff_eq. rewrite andb_true_iff, !Nat.leb_le, Nat.ltb_lt. lia.
Qed.

(** ** Encoding is decoded back *)

Lemma byte_at_cons x s i : byte_at (x :: s) (S i) = byte_at s i.
Proof. done. Qed.

Lemma utf8_tail_cont s pos k n cp b :
  byte_at s (pos + k) = b -> 128 <= b < 192 ->
  utf8_tail s pos k (S n) cp = utf8_tail s pos (S k) n (cp * 64 + (b - 128)).
Proof.
  intros Hb Hr. cbn [utf8_tail]. rewrite Hb.
  assert (byte_ok b) by (unfold byte_ok; lia).
  rewrite cont_byte_test by done. zrw_true (128 <=? b). zrw_true (b <? 192).
  cbn [andb negb]. by rewrite tail_acc.
Qed.

(** What a complete multi-byte form decodes to. *)
Definition utf8_finish (need : nat) (cp : Z) : Z :=
  if is_surrogate cp || (0x10FFFF <? cp) || utf8_overlong need cp then 0xFFFD else cp.

Lemma utf8_decode_multi s b0 need cp0 :
  byte_at s 0 = b0 -> 128 <= b0 -> utf8_lead b0 = Some (need, cp0) ->
  (need < length s)%nat ->
  utf8_decode s 0 =
    match utf8_tail s 0 1 need cp0 with
    | inl k => (k, replacement)
    | inr cp => ((need + 1)%nat, utf8_finish need cp)
    end.
Proof.
  intros Hb Hge Hl Hn. unfold utf8_decode, utf8_finish. rewrite Hb, Hl.
  replace (length s <=? 0)%nat with false by (symmetry; apply Nat.leb_gt; lia).
  zrw_false (b0 <? 0x80). rewrite utf8_truncated_iff by lia.
  replace (length s <=? 0 + need)%nat with false by (symmetry; apply Nat.leb_gt; lia).
  done.
Qed.

Ltac arith64 := unfold byte_ok; Z.div_mod_to_equations; lia.

Ltac tail_at b := rewrite (utf8_tail_cont _ _ _ _ _ b) by (first [by apply byte_at_lookup; [done|arith64]|arith64]).

Lemma utf8_decode_encode_0 cp post :
  scalar cp ->
  utf8_decode (encode_utf8 cp ++ post) 0 = (length (encode_utf8 cp), cp).
Proof.
  intros Hs. rewrite encode_utf8_arith by done. destruct Hs as [Hr Hs].
  unfold encode_arith.
  destruct (Z.ltb_spec cp 0x80) as [|H1];
    [|destruct (Z.ltb_spec cp 0x800) as [|H2]; [|destruct (Z.ltb_spec cp 0x10000) as [|H3]]];
    cbn [app].
  - unfold utf8_decode. rewrite (byte_at_lookup _ _ cp) by (done || arith64). cbn. zrw_true (cp <? 128). done.
  - erewrite (utf8_decode_multi _ (192 + cp / 64)); [|by apply byte_at_lookup; [done|arith64]|arith64|rewrite lead_arith by arith64;
      zrw_true ((192 <=? 192 + cp / 64) && (192 + cp / 64 <? 224)); done|cbn; lia].
    tail_at (128 + cp mod 64). cbn [utf8_tail].
    replace (_ * 64 + _) with cp by arith64.
    unfold utf8_finish, utf8_overlong. rewrite Hs.
    zrw_false (0x10FFFF <? cp). zrw_false (cp <? 128). done.
  - erewrite (utf8_decode_multi _ (224 + cp / 4096)); [|by apply byte_at_lookup; [done|arith64]|arith64|rewrite lead_arith by arith64;
      zrw_false ((192 <=? 224 + cp / 4096) && (224 + cp / 4096 <? 224));
      zrw_true ((224 <=? 224 + cp / 4096) && (224 + cp / 4096 <? 240)); done|cbn; lia].
    tail_at (128 + (cp / 64) mod 64). tail_at (128 + cp mod 64). cbn [utf8_tail].
    replace (_ * 64 + _) with cp by arith64.
    unfold utf8_finish, utf8_overlong. rewrite Hs.
    zrw_false (0x10FFFF <? cp). zrw_false (cp <? 2048). done.
  - erewrite (utf8_decode_multi _ (240 + cp / 262144)); [|by apply byte_at_lookup; [done|arith64]|arith64|rewrite lead_arith by arith64;
      zrw_false ((192 <=? 240 + cp / 262144) && (240 + cp / 262144 <? 224));
      zrw_false ((224 <=? 240 + cp / 262144) && (240 + cp / 262144 <? 240));
      zrw_true ((240 <=? 240 + cp / 262144) && (240 + cp / 262144 <? 248)); done|cbn; lia].
    tail_at (128 + (cp / 4096) mod 64). tail_at (128 + (cp / 64) mod 64).
    tail_at (128 + cp mod 64). cbn [utf8_tail].
    replace (_ * 64 + _) with cp by arith64.
    unfold utf8_finish, utf8_overlong. rewrite Hs.
    zrw_false (0x10FFFF <? cp). zrw_false (cp <? 65536). done.
Qed.

Lemma encode_utf8_nonempty cp : (1 <= length (encode_utf8 cp) <= 4)%nat.
Proof. unfold encode_utf8. cbv zeta. repeat case_match; cbn; lia. Qed.

Lemma utf8_decode_encode_at pre cp post :
  scalar cp ->
  utf8_decode (pre ++ encode_utf8 cp ++ post) (length pre)
  = (length (encode_utf8 cp), cp).
Proof.
  intros. rewrite utf8_decode_drop.
  - rewrite drop_app_length. by apply utf8_decode_encode_0.
  - rewrite !length_app. pose proof (encode_utf8_nonempty cp). lia.
Qed.

(** ** Whatever is decoded is canonical *)

Lemma utf8_tail_inl s pos k n cp k' :
  utf8_tail s pos k n cp = inl k' -> (k <= k' < k + n)%nat.
Proof.
  revert k cp. induction n as [|n IH]; intros k cp; cbn [utf8_tail]; [done|].
  case_match; [intros [= ->]; lia|]. intros H'%IH. lia.
Qed.

Lemma utf8_tail_inr s pos k n cp cp' :
  utf8_tail s pos k (S n) cp = inr cp' ->
  128 <= byte_at s (pos + k) < 192 /\
  utf8_tail s pos (S k) n (cp * 64 + (byte_at s (pos + k) - 128)) = inr cp'.
Proof.
  pose proof (byte_at_ok s (pos + k)) as Hb. cbn [utf8_tail].
  rewrite cont_byte_test by done. case_match eqn:E; [done|]. intros H'. zbool.
  rewrite tail_acc in H' by (done || lia). split; [lia|done].
Qed.

Lemma utf8_finish_scalar need cp :
  utf8_finish need cp <> replacement -> 0 <= cp ->
  scalar cp /\ utf8_overlong need cp = false /\ utf8_finish need cp = cp.
Proof.
  unfold utf8_finish. intros H Hcp. case_match eqn:E; [done|].
  apply orb_false_iff in E as [[? ?]%orb_false_iff ?]. zbool.
  split; [|done]. unfold scalar. split; [lia|done].
Qed.

Lemma replacement_scalar : scalar replacement.
Proof. by vm_compute. Qed.

Lemma canonical_2 a b :
  192 <= a < 224 -> 128 <= b < 192 ->
  let cp := (a - 192) * 64 + (b - 128) in
  0x80 <= cp -> scalar cp -> encode_utf8 cp = [a; b].
Proof.
  intros Ha Hb cp Hge Hs. rewrite encode_utf8_arith by done. unfold encode_arith.
  zrw_false (cp <? 0x80). zrw_true (cp <? 0x800). subst cp.
  f_equal; [|f_equal]; arith64.
Qed.

Lemma canonical_3 a b c :
  224 <= a < 240 -> 128 <= b < 192 -> 128 <= c < 192 ->
  let cp := ((a - 224) * 64 + (b - 128)) * 64 + (c - 128) in
  0x800 <= cp -> scalar cp -> encode_utf8 cp = [a; b; c].
Proof.
  intros Ha Hb Hc cp Hge Hs. rewrite encode_utf8_arith by done. unfold encode_arith.
  zrw_false (cp <? 0x80). zrw_false (cp <? 0x800). zrw_true (cp <? 0x10000). subst cp.
  f_equal; [|f_equal; [|f_equal]]; arith64.
Qed.

Lemma canonical_4 a b c d :
  240 <= a < 248 -> 128 <= b < 192 -> 128 <= c < 192 -> 128 <= d < 192 ->
  let cp := (((a - 240) * 64 + (b - 128)) * 64 + (c - 128)) * 64 + (d - 128) in
  0x10000 <= cp -> scalar cp -> encode_utf8 cp = [a; b; c; d].
Proof.
  intros Ha Hb Hc Hd cp Hge Hs. rewrite encode_utf8_arith by done. unfold encode_arith.
  zrw_false (cp <? 0x80). zrw_false (cp <? 0x800). zrw_false (cp <? 0x10000). subst cp.
  f_equal; [|f_equal; [|f_equal; [|f_equal]]]; arith64.
Qed.

Lemma byte_at_take s n :
  bytes_ok s -> (n <= length s)%nat -> take n s = byte_at s <$> seq 0 n.
Proof.
  intros Hs Hn. apply list_eq. intros i. rewrite list_lookup_fmap.
  destruct (decide (i < n)%nat).
  - rewrite lookup_take_lt by done. rewrite lookup_seq_lt by done. cbn.
    destruct (s !! i) as [b|] eqn:E; [|apply lookup_ge_None in E; lia].
    rewrite (byte_at_lookup _ _ _ E); [done|]. by eapply Forall_lookup_1.
  - rewrite lookup_take_ge by lia. rewrite lookup_seq_ge by lia. done.
Qed.

(** A complete form that is not replaced spells its own encoding. *)
Lemma utf8_tail_canonical s b0 need cp0 cp :
  bytes_ok s -> byte_at s 0 = b0 -> byte_ok b0 -> utf8_lead b0 = Some (need, cp0) ->
  (need < length s)%nat -> utf8_tail s 0 1 need cp0 = inr cp ->
  0 <= cp /\
  (scalar cp -> utf8_overlong need cp = false -> take (need + 1) s = encode_utf8 cp).
Proof.
  intros Hs Hb0 Hok Hl Hn Ht. rewrite byte_at_take by (done || lia).
  rewrite lead_arith in Hl by done. unfold utf8_overlong.
  repeat case_match; simplify_eq; zbool;
    repeat (apply utf8_tail_inr in Ht as [? Ht]);
    cbn [utf8_tail Nat.add] in *; injection Ht as <-;
    (split; [lia|]); intros Hsc Hol; cbn [seq Nat.add fmap list_fmap Nat.eqb] in *;
    symmetry; [apply canonical_2|apply canonical_3|apply canonical_4]; try done;
    try lia.
Qed.

Definition decode_result_ok (s : bytes) (n : nat) (cp : Z) : Prop :=
  (1 <= n <= length s)%nat /\ scalar cp /\
  (cp <> replacement -> take n s = encode_utf8 cp).

Lemma decode_result_replacement s m :
  (1 <= m <= length s)%nat -> decode_result_ok s m replacement.
Proof. intros. split; [done|]. split; [apply replacement_scalar|done]. Qed.

Lemma utf8_decode_sound_0 s n cp :
  bytes_ok s -> s <> [] -> utf8_decode s 0 = (n, cp) -> decode_result_ok s n cp.
Proof.
  intros Hs Hne Hd. assert (1 <= length s)%nat as Hlen by (destruct s; cbn; [done|lia]).
  pose proof (byte_at_ok s 0) as Hb0.
  destruct (utf8_lead (byte_at s 0)) as [[need cp0]|] eqn:Hl.
  - assert (128 <= byte_at s 0) as Hge.
    { rewrite lead_arith in Hl by done. repeat case_match; simplify_eq; zbool; lia. }
    destruct (Nat.ltb_spec need (length s)) as [Hn|Hn].
    + rewrite (utf8_decode_multi _ _ _ _ eq_refl Hge Hl Hn) in Hd.
      destruct (utf8_tail _ _ _ _ _) as [k|cp1] eqn:Ht; injection Hd as <- <-.
      { apply utf8_tail_inl in Ht. apply decode_result_replacement. lia. }
      destruct (utf8_tail_canonical s _ need cp0 cp1 Hs eq_refl Hb0 Hl Hn Ht) as [Hp Hc].
      destruct (decide (utf8_finish need cp1 = replacement)) as [->|He].
      { apply decode_result_replacement. lia. }
      destruct (utf8_finish_scalar need cp1 He Hp) as (Hsc & Hol & ->).
      split; [lia|]. auto.
    + assert (utf8_decode s 0 = (length s, replacement)) as Heq.
      { unfold utf8_decode. rewrite Hl, utf8_truncated_iff by lia.
        rewrite (proj2 (Nat.leb_gt _ _)) by lia. zrw_false (byte_at s 0 <? 0x80).
        rewrite (proj2 (Nat.leb_le _ _)) by lia. f_equal. lia. }
      rewrite Heq in Hd. injection Hd as <- <-. apply decode_result_replacement. lia.
  - unfold utf8_decode in Hd. rewrite Hl, (proj2 (Nat.leb_gt _ _)) in Hd by lia.
    destruct (Z.ltb_spec (byte_at s 0) 0x80); injection Hd as <- <-.
    + unfold byte_ok in Hb0. assert (scalar (byte_at s 0)) as Hsc
        by (split; [lia|unfold is_surrogate; lia]).
      split; [lia|]. split; [done|]. intros _. rewrite byte_at_take by (done || lia).
      rewrite encode_utf8_arith by done. unfold encode_arith.
      zrw_true (byte_at s 0 <? 0x80). done.
    + apply decode_result_replacement. lia.
Qed.

Lemma bytes_ok_drop s n : bytes_ok s -> bytes_ok (drop n s).
Proof. apply Forall_drop. Qed.

Lemma utf8_decode_sound_at s pos n cp :
  bytes_ok s -> (pos < length s)%nat -> utf8_decode s pos = (n, cp) ->
  decode_result_ok (drop pos s) n cp.
Proof.
  intros Hs Hp Hd. rewrite utf8_decode_drop in Hd by done.
  apply utf8_decode_sound_0; [by apply bytes_ok_drop| |done].
  intros E. apply (f_equal length) in E. rewrite length_drop in E. cbn in E. lia.
Qed.

(** The decoder reads bytes, so it decodes any string as the string of its bytes. *)
Lemma byte_at_bytes s i : byte_at (to_u8 <$> s) i = byte_at s i.
Proof.
  unfold byte_at. rewrite list_lookup_fmap. destruct (s !! i); cbn; [|done]. unfold to_u8. by rewrite Z.mod_mod.
Qed.

Lemma utf8_decode_bytes s pos : utf8_decode (to_u8 <$> s) pos = utf8_decode s pos.
Proof.
  assert (forall k n cp, utf8_tail (to_u8 <$> s) pos k n cp = utf8_tail s pos k n cp) as Ht.
  { intros k n. revert k. induction n as [|n IH]; intros k cp; [done|]. cbn [utf8_tail]. rewrite byte_at_bytes. by case_match. }
  unfold utf8_decode. rewrite length_fmap, byte_at_bytes. repeat case_match; try done; rewrite Ht in *; congruence.
Qed.

Lemma utf8_decode_scalar s pos : (pos < length s)%nat -> scalar (utf8_decode s pos).2.
Proof.
  intros Hp. rewrite <- utf8_decode_bytes. destruct (utf8_decode (to_u8 <$> s) pos) as [n cp] eqn:E.
  apply utf8_decode_sound_at in E as (_ & Hsc & _); [done| |by rewrite length_fmap].
  apply Forall_fmap. apply List.Forall_forall. intros b _. apply Z.mod_pos_bound. done.
Qed.

(** ** Folding *)

Lemma fold_table_ascii : Forall (fun f => Forall (fun b => 0 <= b < 128) (snd f)) kFolds.
Proof. apply (bool_decide_unpack _). by vm_compute. Qed.

Lemma fold_char_ascii cp : 0 <= cp -> Forall (fun b => 0 <= b < 128) (fold_char cp).
Proof.
  intros Hcp. unfold fold_char. destruct (Z.ltb_spec cp 0x80).
  - repeat constructor; unfold to_u8; rewrite Z.mod_small; lia.
  - unfold fold_lookup. destruct (List.find _ kFolds) as [f|] eqn:E; cbn.
    + apply List.find_some in E as [Hin _].
      pose proof fold_table_ascii as H'. rewrite Forall_forall in H'. exact (H' f Hin).
    + by repeat constructor.
Qed.

Lemma fold_from_ascii fuel s i :
  bytes_ok s -> Forall (fun b => 0 <= b < 128) (fold_from fuel s i).
Proof.
  intros Hs. revert i. induction fuel as [|fuel IH]; intros i; cbn; [constructor|].
  destruct (Nat.leb_spec (length s) i) as [|Hi]; [constructor|].
  destruct (utf8_decode s i) as [used cp] eqn:Hd.
  apply utf8_decode_sound_at in Hd as (? & [? _] & _); [|done..].
  apply Forall_app. split; [by apply fold_char_ascii; lia|apply IH].
Qed.

(** The loop on a well-formed string: one code point after the other. *)
Lemma fold_from_encoded fuel pre cps :
  Forall scalar cps -> (length (concat (encode_utf8 <$> cps)) <= fuel)%nat ->
  fold_from fuel (pre ++ concat (encode_utf8 <$> cps)) (length pre)
  = concat (fold_char <$> cps).
Proof.
  intros Hsc. revert fuel pre. induction Hsc as [|cp cps Hcp Hcps IH]; intros fuel pre Hf.
  - destruct fuel; cbn; [done|]. rewrite app_nil_r, Nat.leb_refl. done.
  - cbn [fmap list_fmap concat] in *. rewrite length_app in Hf.
    pose proof (encode_utf8_nonempty cp) as Hne.
    destruct fuel as [|fuel]; [lia|]. cbn [fold_from].
    rewrite (proj2 (Nat.leb_gt _ _)) by (rewrite !length_app; lia).
    rewrite utf8_decode_encode_at by done. f_equal.
    rewrite app_assoc, <- length_app. apply IH. lia.
Qed.

(** ** Properties *)

(** C40: what [encode_utf8] writes, [utf8_decode] reads back at whatever
    position of whatever string it stands: it consumes exactly the bytes
    written and returns the code point, for every Unicode scalar value. *)
Theorem utf8_roundtrip pre cp post :
  scalar cp ->
  utf8_decode (pre ++ encode_utf8 cp ++ post) (length pre)
  = (length (encode_utf8 cp), cp).
Proof. apply utf8_decode_encode_at. Qed.

Lemma utf8_roundtrip_witness :
  scalar 8364 /\
  utf8_decode ([97] ++ encode_utf8 8364 ++ [195]) 1 = (3%nat, 8364).
Proof. split; [done|]. apply (utf8_roundtrip [97] 8364 [195]). done. Defined.

(** On arbitrary bytes the decoder always advances and never past the end,
    and what it returns is a Unicode scalar value; unless it is U+FFFD, the
    bytes consumed are exactly its own encoding -- no overlong form (C0 AF is
    never '/'), no surrogate and nothing above 10FFFF is ever let through. *)
Theorem utf8_decode_canonical s pos n cp :
  bytes_ok s -> (pos < length s)%nat -> utf8_decode s pos = (n, cp) ->
  (1 <= n <= length s - pos)%nat /\ scalar cp /\
  (cp <> replacement -> take n (drop pos s) = encode_utf8 cp).
Proof.
  intros Hs Hp Hd. apply utf8_decode_sound_at in Hd as (Hn & Hsc & Hc); [|done..].
  rewrite length_drop in Hn. auto.
Qed.

Lemma utf8_decode_canonical_witness :
  utf8_decode [192; 175] 0 = (2%nat, replacement) /\
  (1 <= 2 <= length ([192; 175]%Z : bytes) - 0)%nat /\ scalar replacement /\
  (replacement <> replacement -> take 2 (drop 0 [192; 175]) = encode_utf8 replacement).
Proof.
  split; [reflexivity|]. apply utf8_decode_canonical; [|cbn; lia|reflexivity].
  by apply (bool_decide_unpack _).
Defined.

(** [fold_to_ascii] of any bytes whatsoever is pure ASCII, and on the
    encoding of a text it is the concatenation of what each character folds
    to, in order: no character is lost, none swallows its neighbour. *)
Theorem fold_to_ascii_spec :
  (forall s, bytes_ok s -> Forall (fun b => 0 <= b < 128) (fold_to_ascii s)) /\
  (forall cps, Forall scalar cps ->
     fold_to_ascii (concat (encode_utf8 <$> cps)) = concat (fold_char <$> cps)).
Proof.
  split; [intros; by apply fold_from_ascii|].
  intros cps Hc. by apply (fold_from_encoded _ [] cps).
Qed.

Example fold_fenetre : fold_to_ascii (str "Fenêtre…") = str "Fenetre...".
Proof. vm_compute. reflexivity. Qed.
