(* ===== verification/Proto.v ===== *)
(** * The wire protocol: [src/common/proto.hpp], [src/common/proto.cpp]

    The seven messages, their encoder, the [Reader] of a message body and the
    incremental [Decoder] -- the one boundary that parses untrusted bytes.  The
    decoder's buffer is a byte list with a read position, compacted exactly as
    the code compacts it; what [std::string] does with its capacity is a
    parameter of the section, since nothing but a memory hand-back depends on
    it.  Sizes and lengths are unbounded integers except where the code narrows
    them ([static_cast<uint32_t>], the four-byte length field). *)

From S2P Require Import Prelude.

(** ** Messages *)

Definition kBuildId : Z := 1.

Record hello := Hello {
  build_id : Z;
  cols : Z;
  rows : Z;
  term : bytes;
  colorterm : bytes;
  utf8 : bool;
  env : list (bytes * bytes);
}.

Inductive msg :=
  | MHello (h : hello)
  | MWelcome
  | MIncompatible (reason : bytes)
  | MDetached (reason : bytes)
  | MInput (input : bytes)
  | MResize (zcols zrows : Z)
  | MFrame (ansi : bytes).

Inductive tag := THello | TWelcome | TIncompatible | TDetached | TInput | TResize | TFrame.

(** [enum class Tag : uint8_t]. *)
Definition tag_code (t : tag) : Z :=
  match t with
  | THello => 1 | TWelcome => 2 | TIncompatible => 3 | TDetached => 4
  | TInput => 5 | TResize => 6 | TFrame => 7
  end.

(** [static_cast<Tag>(b)] followed by the [switch]: [None] is [default]. *)
Definition tag_of (b : Z) : option tag :=
  if b =? 1 then Some THello else if b =? 2 then Some TWelcome
  else if b =? 3 then Some TIncompatible else if b =? 4 then Some TDetached
  else if b =? 5 then Some TInput else if b =? 6 then Some TResize
  else if b =? 7 then Some TFrame else None.

(** ** Encoding *)

Definition put_u8 (o : bytes) (v : Z) : bytes := o ++ [to_u8 v].
Definition put_u16 (o : bytes) (v : Z) : bytes :=
  put_u8 (put_u8 o (to_u8 (Z.shiftr v 8))) (to_u8 (Z.land v 0xFF)).
Definition put_u32 (o : bytes) (v : Z) : bytes :=
  put_u16 (put_u16 o (to_u16 (Z.shiftr v 16))) (to_u16 (Z.land v 0xFFFF)).
Definition put_str (o s : bytes) : bytes := put_u32 o (to_u32 (zlen s)) ++ s.

Definition put_env (b : bytes) (e : list (bytes * bytes)) : bytes :=
  fold_left (fun b kv => put_str (put_str b kv.1) kv.2) e b.

Definition body_of (m : msg) : tag * bytes :=
  match m with
  | MHello h =>
      let b := put_u32 [] (build_id h) in
      let b := put_u16 b (cols h) in
      let b := put_u16 b (rows h) in
      let b := put_str b (term h) in
      let b := put_str b (colorterm h) in
      let b := put_u8 b (if utf8 h then 1 else 0) in
      let b := put_u32 b (to_u32 (zlen (env h))) in
      (THello, put_env b (env h))
  | MWelcome => (TWelcome, [])
  | MIncompatible r => (TIncompatible, put_str [] r)
  | MDetached r => (TDetached, put_str [] r)
  | MInput i => (TInput, put_str [] i)
  | MResize c r => (TResize, put_u16 (put_u16 [] c) r)
  | MFrame a => (TFrame, put_str [] a)
  end.

Definition encode (m : msg) : bytes :=
  let '(t, body) := body_of m in
  put_u32 (put_u8 [] (tag_code t)) (to_u32 (zlen body)) ++ body.

(** ** Reading a body *)

Record reader := Reader { r_s : bytes; r_i : nat; r_ok : bool }.

Definition r_fail (r : reader) : reader := Reader (r_s r) (r_i r) false.

Definition u8 (r : reader) : Z * reader :=
  if (length (r_s r) <? r_i r + 1)%nat then (0, r_fail r)
  else (byte_at (r_s r) (r_i r), Reader (r_s r) (r_i r + 1) (r_ok r)).

Definition u16 (r : reader) : Z * reader :=
  let '(hi, r) := u8 r in
  let '(lo, r) := u8 r in
  (to_u16 (Z.lor (Z.shiftl hi 8) lo), r).

Definition u32 (r : reader) : Z * reader :=
  let '(hi, r) := u16 r in
  let '(lo, r) := u16 r in
  (to_u32 (Z.lor (Z.shiftl hi 16) lo), r).

Definition r_str (r : reader) : bytes * reader :=
  let '(n, r) := u32 r in
  if negb (r_ok r) || (zlen (r_s r) <? Z.of_nat (r_i r) + n) then ([], r_fail r)
  else (take (Z.to_nat n) (drop (r_i r) (r_s r)),
        Reader (r_s r) (r_i r + Z.to_nat n) (r_ok r)).

(** [for (k = 0; k < n && r.ok; ++k)]: every successful turn consumes at least
    eight bytes, so [fuel] above the remaining length never runs out. *)
Fixpoint read_env (fuel : nat) (n : Z) (r : reader) : list (bytes * bytes) * reader :=
  match fuel with
  | O => ([], r)
  | S fuel =>
      if (0 <? n) && r_ok r then
        let '(key, r) := r_str r in
        let '(val, r) := r_str r in
        let '(rest, r) := read_env fuel (n - 1) r in
        ((key, val) :: rest, r)
      else ([], r)
  end.

(** The [switch (tag)] of [Decoder::next]. *)
Definition read_msg (t : tag) (r : reader) : msg * reader :=
  match t with
  | THello =>
      let '(bid, r) := u32 r in
      let '(c, r) := u16 r in
      let '(rw, r) := u16 r in
      let '(tm, r) := r_str r in
      let '(ct, r) := r_str r in
      let '(u, r) := u8 r in
      let '(n, r) := u32 r in
      let '(e, r) := read_env (S (length (r_s r))) n r in
      (MHello (Hello bid c rw tm ct (negb (u =? 0)) e), r)
  | TWelcome => (MWelcome, r)
  | TIncompatible => let '(s, r) := r_str r in (MIncompatible s, r)
  | TDetached => let '(s, r) := r_str r in (MDetached s, r)
  | TInput => let '(s, r) := r_str r in (MInput s, r)
  | TResize => let '(c, r) := u16 r in let '(w, r) := u16 r in (MResize c w, r)
  | TFrame => let '(s, r) := r_str r in (MFrame s, r)
  end.

(** ** The incremental decoder *)

Definition kMaxMessageBytes : Z := 32 * 1024 * 1024.
Definition kHeaderSize : Z := 5.
Definition kMaxBufferBytes : Z := kMaxMessageBytes + kHeaderSize + 1 * 1024 * 1024.
Definition kReleaseCapacityThreshold : Z := kMaxBufferBytes.
Definition kCompactMinSize : Z := 4096.

Record decoder := Decoder {
  buf : bytes;
  pos : nat;
  failed : bool;
  capacity : Z;
}.

Definition decoder_init : decoder := Decoder [] 0 false 0.

Section Decoder.
(** How [std::string] sizes its allocation: [grow old needed] after an
    append, [shrink old] after [clear(); shrink_to_fit()].  Unspecified by
    the language; no result depends on it. *)
Context (grow : Z -> Z -> Z) (shrink : Z -> Z).

Definition fail (d : decoder) : decoder := Decoder [] 0 true (shrink (capacity d)).

Definition compact (d : decoder) : decoder :=
  if (pos d =? 0)%nat then d
  else if (pos d =? length (buf d))%nat && (kReleaseCapacityThreshold <=? capacity d)
  then Decoder [] 0 (failed d) 0
  else if (zlen (buf d) <? kCompactMinSize) || (Z.of_nat (pos d) * 2 <? zlen (buf d))
  then d
  else Decoder (drop (pos d) (buf d)) 0 (failed d) (capacity d).

Definition feed (d : decoder) (bs : bytes) : decoder :=
  if failed d then d
  else if (length bs =? 0)%nat then d
  else if kMaxBufferBytes <? zlen (buf d) - Z.of_nat (pos d) + zlen bs then fail d
  else Decoder (buf d ++ bs) (pos d) (failed d)
         (grow (capacity d) (zlen (buf d) + zlen bs)).

(** [for (;;)] of [next]: a turn that does not return skips a whole unknown
    message, at least [kHeaderSize] bytes. *)
Fixpoint next_loop (fuel : nat) (d : decoder) : option msg * decoder :=
  match fuel with
  | O => (None, d)
  | S fuel =>
      if zlen (buf d) - Z.of_nat (pos d) <? kHeaderSize then (None, d)
      else
        let head := Reader (drop (pos d) (buf d)) 0 true in
        let '(tag, head) := u8 head in
        let '(len, _) := u32 head in
        let declared := kHeaderSize + len in
        if kMaxMessageBytes <? len then (None, fail d)
        else if zlen (buf d) - Z.of_nat (pos d) <? declared then (None, d)
        else
          let r := Reader (take (Z.to_nat len)
                     (drop (pos d + Z.to_nat kHeaderSize) (buf d))) 0 true in
          let d' := Decoder (buf d) (pos d + Z.to_nat declared) (failed d) (capacity d) in
          match tag_of tag with
          | None => next_loop fuel (compact d')
          | Some t =>
              let '(out, r) := read_msg t r in
              if negb (r_ok r) || negb (Z.of_nat (r_i r) =? len) then (None, fail d')
              else (Some out, compact d')
          end
  end.

Definition next (d : decoder) : option msg * decoder :=
  if failed d then (None, d) else next_loop (S (length (buf d))) d.

(** What the daemon and the client do with it: drain after every read. *)
Fixpoint drain (fuel : nat) (d : decoder) : list msg * decoder :=
  match fuel with
  | O => ([], d)
  | S fuel =>
      match next d with
      | (None, d) => ([], d)
      | (Some m, d) => let '(ms, d) := drain fuel d in (m :: ms, d)
      end
  end.

Fixpoint receive (d : decoder) (chunks : list bytes) : list msg * decoder :=
  match chunks with
  | [] => ([], d)
  | c :: chunks =>
      let d := feed d c in
      let '(ms, d) := drain (S (length (buf d))) d in
      let '(rest, d) := receive d chunks in
      (ms ++ rest, d)
  end.
End Decoder.

(** ** The encoders append *)

Definition be16 (v : Z) : bytes := [v / 256; v mod 256].
Definition be32 (v : Z) : bytes :=
  [v / 16777216; v / 65536 mod 256; v / 256 mod 256; v mod 256].

Lemma put_u16_be o v : 0 <= v < 65536 -> put_u16 o v = o ++ be16 v.
Proof.
  intros. unfold put_u16, put_u8, be16. rewrite <- app_assoc. cbn [app].
  change 0xFF with (2 ^ 8 - 1). rewrite land_mask, Z.shiftr_div_pow2 by lia.
  change (2 ^ 8) with 256. unfold to_u8. do 2 f_equal; [|f_equal]; Z.div_mod_to_equations; lia.
Qed.

Lemma put_u32_be o v : 0 <= v < 4294967296 -> put_u32 o v = o ++ be32 v.
Proof.
  intros. unfold put_u32.
  change 0xFFFF with (2 ^ 16 - 1). rewrite land_mask, Z.shiftr_div_pow2 by lia.
  change (2 ^ 16) with 65536. unfold to_u16.
  rewrite !put_u16_be by (apply Z.mod_pos_bound; lia).
  rewrite <- app_assoc. f_equal. unfold be16, be32. cbn [app].
  do 4 (f_equal; try (Z.div_mod_to_equations; lia)).
Qed.

Lemma put_u32_app o v : put_u32 o v = o ++ put_u32 [] v.
Proof. unfold put_u32, put_u16, put_u8. by rewrite <- !app_assoc. Qed.

Lemma put_str_app o s : put_str o s = o ++ put_str [] s.
Proof. unfold put_str. by rewrite put_u32_app, <- app_assoc. Qed.

Lemma put_env_app b e : put_env b e = b ++ put_env [] e.
Proof.
  unfold put_env. revert b. induction e as [|[k v] e IH]; intros b; cbn [fold_left fst snd];
    [by rewrite app_nil_r|].
  rewrite IH, (IH (put_str (put_str [] k) v)).
  rewrite (put_str_app (put_str b k)), (put_str_app b), (put_str_app (put_str [] k)).
  by rewrite <- !app_assoc.
Qed.

Definition be_str (s : bytes) : bytes := be32 (zlen s) ++ s.

Lemma put_str_be o s : zlen s < 4294967296 -> put_str o s = o ++ be_str s.
Proof.
  intros. pose proof (zlen_nonneg s). unfold put_str, be_str, to_u32.
  rewrite Z.mod_small by lia. by rewrite put_u32_be, <- app_assoc by lia.
Qed.

Lemma be32_length v : length (be32 v) = 4%nat.
Proof. done. Qed.

(** ** The reader, seen through the bytes it has left *)

Definition rest (r : reader) : bytes := drop (r_i r) (r_s r).
Definition advance (r : reader) (n : nat) : reader := Reader (r_s r) (r_i r + n) (r_ok r).

Lemma rest_advance r n : rest (advance r n) = drop n (rest r).
Proof. unfold rest, advance. cbn. by rewrite drop_drop. Qed.

Lemma advance_advance r n m : advance (advance r n) m = advance r (n + m).
Proof. unfold advance. cbn. f_equal. lia. Qed.

Lemma advance_app r w t : rest r = w ++ t -> rest (advance r (length w)) = t.
Proof. intros H. by rewrite rest_advance, H, drop_app_length. Qed.

(** A read that succeeds: the bytes [w] it took stood in front. *)
Definition took (r r' : reader) (w : bytes) : Prop :=
  r_ok r = true /\ r' = advance r (length w) /\ rest r = w ++ rest r'.

Lemma took_trans r1 r2 r3 w1 w2 :
  took r1 r2 w1 -> took r2 r3 w2 -> took r1 r3 (w1 ++ w2).
Proof.
  intros (H1 & -> & E1) (H2 & -> & E2). split; [done|]. split.
  - rewrite advance_advance, length_app. done.
  - rewrite E1, E2. by rewrite <- app_assoc.
Qed.

Lemma took_refl r : r_ok r = true -> took r r [].
Proof. intros H. split; [done|]. destruct r. unfold advance; cbn. by rewrite Nat.add_0_r. Qed.

Lemma took_ok r r' w : took r r' w -> r_ok r' = true.
Proof. by intros (H & -> & _). Qed.

Lemma u8_forward r x t :
  rest r = x :: t -> byte_ok x -> u8 r = (x, advance r 1).
Proof.
  intros H Hx. unfold u8. unfold rest in H. pose proof (f_equal length H) as Hl.
  rewrite length_drop in Hl. cbn in Hl.
  rewrite (proj2 (Nat.ltb_ge _ _)) by lia. unfold advance. f_equal.
  apply byte_at_lookup; [|done]. by rewrite <- (Nat.add_0_r (r_i r)), <- lookup_drop, H.
Qed.

Lemma u8_backward r v r' :
  u8 r = (v, r') -> r_ok r' = true -> bytes_ok (r_s r) -> took r r' [v] /\ byte_ok v.
Proof.
  unfold u8. destruct (Nat.ltb_spec (length (r_s r)) (r_i r + 1)); intros [= <- <-] Hok Hs;
    [done|]. cbn in Hok.
  destruct (r_s r !! r_i r) as [x|] eqn:E; [|apply lookup_ge_None in E; lia].
  assert (byte_ok x) as Hx by (by eapply Forall_lookup_1). rewrite (byte_at_lookup _ _ x E Hx). split.
  - split; [done|]. split; [done|]. unfold rest; cbn. rewrite Nat.add_1_r.
    by apply drop_S.
  - done.
Qed.

Lemma u16_forward r v t :
  rest r = be16 v ++ t -> 0 <= v < 65536 -> u16 r = (v, advance r 2).
Proof.
  intros H Hv. unfold u16.
  rewrite (u8_forward r (v / 256) (v mod 256 :: t)) by
    (done || (unfold byte_ok; Z.div_mod_to_equations; lia)).
  rewrite (u8_forward (advance r 1) (v mod 256) t) by
    ((by rewrite rest_advance, H) || (unfold byte_ok; Z.div_mod_to_equations; lia)).
  rewrite advance_advance, Z.shiftl_mul_pow2 by lia.
  rewrite lor_disjoint by (lia || (change (2 ^ 8) with 256; Z.div_mod_to_equations; lia)).
  unfold to_u16. f_equal. change (2 ^ 8) with 256. Z.div_mod_to_equations; lia.
Qed.

Lemma u32_forward r v t :
  rest r = be32 v ++ t -> 0 <= v < 4294967296 -> u32 r = (v, advance r 4).
Proof.
  intros H Hv. unfold u32.
  rewrite (u16_forward r (v / 65536) (be16 (v mod 65536) ++ t)).
  2:{ rewrite H. unfold be16, be32. cbn [app]. do 4 (f_equal; try (Z.div_mod_to_equations; lia)). }
  2:{ Z.div_mod_to_equations; lia. }
  rewrite (u16_forward (advance r 2) (v mod 65536) t).
  2:{ rewrite rest_advance, H. unfold be16, be32. cbn [app drop].
      do 2 (f_equal; try (Z.div_mod_to_equations; lia)). }
  2:{ Z.div_mod_to_equations; lia. }
  rewrite advance_advance, Z.shiftl_mul_pow2 by lia.
  rewrite lor_disjoint by (lia || (change (2 ^ 16) with 65536; Z.div_mod_to_equations; lia)).
  unfold to_u32. f_equal. change (2 ^ 16) with 65536. Z.div_mod_to_equations; lia.
Qed.

Lemma str_forward r s t :
  rest r = be_str s ++ t -> r_ok r = true -> zlen s < 4294967296 ->
  r_str r = (s, advance r (4 + length s)).
Proof.
  intros H Hok Hs. unfold r_str, be_str in *. rewrite <- app_assoc in H.
  pose proof (zlen_nonneg s) as Hnn.
  rewrite (u32_forward r (zlen s) (s ++ t)) by (done || lia).
  assert (rest (advance r 4) = s ++ t) as H4 by (by rewrite rest_advance, H).
  pose proof (f_equal length H) as Hl. unfold rest in Hl.
  rewrite length_drop, !length_app, be32_length in Hl.
  unfold rest in H4. cbn [r_ok advance r_s r_i] in *. rewrite Hok. cbn [negb orb].
  unfold zlen in *.
  destruct (Z.ltb_spec (Z.of_nat (length (r_s r))) (Z.of_nat (r_i r + 4) + Z.of_nat (length s)));
    [lia|].
  rewrite Nat2Z.id, H4, take_app_length. unfold advance. rewrite Hok. do 2 f_equal. lia.
Qed.

Lemma u16_backward r v r' :
  u16 r = (v, r') -> r_ok r' = true -> bytes_ok (r_s r) ->
  took r r' (be16 v) /\ 0 <= v < 65536.
Proof.
  unfold u16. destruct (u8 r) as [hi r1] eqn:E1, (u8 r1) as [lo r2] eqn:E2.
  intros [= <- <-] Hok Hs.
  assert (r_s r1 = r_s r) as Hr1 by (unfold u8 in E1; case_match; by injection E1 as <- <-).
  assert (r_ok r1 = true) as Hok1.
  { unfold u8 in E2. case_match; injection E2 as <- <-; [done|exact Hok]. }
  apply u8_backward in E2 as [T2 B2]; [|done|by rewrite Hr1].
  apply u8_backward in E1 as [T1 B1]; [|done..]. unfold byte_ok in *.
  rewrite Z.shiftl_mul_pow2, lor_disjoint by lia. change (2 ^ 8) with 256.
  unfold to_u16. rewrite Z.mod_small by lia. split; [|lia].
  pose proof (took_trans _ _ _ _ _ T1 T2) as T. unfold be16.
  replace ((hi * 256 + lo) / 256) with hi by (Z.div_mod_to_equations; lia).
  replace ((hi * 256 + lo) mod 256) with lo by (Z.div_mod_to_equations; lia). done.
Qed.

Lemma r_s_u8 r v r' : u8 r = (v, r') -> r_s r' = r_s r /\ (r_ok r' = true -> r_ok r = true).
Proof. unfold u8. case_match; intros [= <- <-]; cbn; split; auto; done. Qed.

Lemma r_s_u16 r v r' : u16 r = (v, r') -> r_s r' = r_s r /\ (r_ok r' = true -> r_ok r = true).
Proof.
  unfold u16. destruct (u8 r) as [hi r1] eqn:E1, (u8 r1) as [lo r2] eqn:E2. intros [= _ <-].
  destruct (r_s_u8 _ _ _ E1), (r_s_u8 _ _ _ E2). split; [congruence|auto].
Qed.

Lemma u32_backward r v r' :
  u32 r = (v, r') -> r_ok r' = true -> bytes_ok (r_s r) ->
  took r r' (be32 v) /\ 0 <= v < 4294967296.
Proof.
  unfold u32. destruct (u16 r) as [hi r1] eqn:E1, (u16 r1) as [lo r2] eqn:E2.
  intros [= <- <-] Hok Hs.
  destruct (r_s_u16 _ _ _ E1) as [Hr1 _], (r_s_u16 _ _ _ E2) as [_ Hok1].
  apply u16_backward in E2 as [T2 B2]; [|done|by rewrite Hr1].
  apply u16_backward in E1 as [T1 B1]; [|auto..].
  rewrite Z.shiftl_mul_pow2, lor_disjoint by lia. change (2 ^ 16) with 65536.
  unfold to_u32. rewrite Z.mod_small by lia. split; [|lia].
  pose proof (took_trans _ _ _ _ _ T1 T2) as T.
  replace (be32 (hi * 65536 + lo)) with (be16 hi ++ be16 lo); [done|].
  unfold be16, be32. cbn [app]. do 4 (f_equal; try (Z.div_mod_to_equations; lia)).
Qed.

Lemma r_s_u32 r v r' : u32 r = (v, r') -> r_s r' = r_s r /\ (r_ok r' = true -> r_ok r = true).
Proof.
  unfold u32. destruct (u16 r) as [hi r1] eqn:E1, (u16 r1) as [lo r2] eqn:E2. intros [= _ <-].
  destruct (r_s_u16 _ _ _ E1), (r_s_u16 _ _ _ E2). split; [congruence|auto].
Qed.

Lemma r_s_str r v r' : r_str r = (v, r') -> r_s r' = r_s r /\ (r_ok r' = true -> r_ok r = true).
Proof.
  unfold r_str. destruct (u32 r) as [n r1] eqn:E. destruct (r_s_u32 _ _ _ E).
  case_match; intros [= <- <-]; cbn; split; auto; done.
Qed.

Lemma str_backward r s r' :
  r_str r = (s, r') -> r_ok r' = true -> bytes_ok (r_s r) ->
  took r r' (be_str s) /\ zlen s < 4294967296.
Proof.
  unfold r_str. destruct (u32 r) as [n r1] eqn:E. intros H Hok Hs.
  destruct (negb (r_ok r1) || _) eqn:Hc; injection H as <- <-; [done|].
  apply orb_false_iff in Hc as [Hok1%negb_false_iff Hlen%Z.ltb_ge].
  apply u32_backward in E as [T Hn]; [|done..].
  set (s := take (Z.to_nat n) (drop (r_i r1) (r_s r1))).
  assert (length s = Z.to_nat n) as Hs'.
  { subst s. rewrite length_take, length_drop. unfold zlen in Hlen. lia. }
  assert (zlen s = n) as Hz by (unfold zlen; lia). split; [|lia].
  unfold be_str. rewrite Hz. eapply took_trans; [exact T|]. split; [done|]. split.
  - unfold advance. by rewrite Hs'.
  - unfold rest; cbn. rewrite <- drop_drop. subst s. by rewrite take_drop.
Qed.

(** ** Bodies, forwards *)

Definition be_env (e : list (bytes * bytes)) : bytes :=
  concat ((fun kv => be_str kv.1 ++ be_str kv.2) <$> e).

Definition be_body (m : msg) : bytes :=
  match m with
  | MHello h =>
      be32 (build_id h) ++ be16 (cols h) ++ be16 (rows h) ++ be_str (term h)
      ++ be_str (colorterm h) ++ [if utf8 h then 1 else 0] ++ be32 (zlen (env h))
      ++ be_env (env h)
  | MWelcome => []
  | MIncompatible s | MDetached s | MInput s | MFrame s => be_str s
  | MResize c r => be16 c ++ be16 r
  end.

(** What the C++ types and the message cap guarantee of a message to send. *)
Definition msg_wf (m : msg) : Prop :=
  match m with
  | MHello h => 0 <= build_id h < 4294967296 /\ 0 <= cols h < 65536 /\ 0 <= rows h < 65536
  | MResize c r => 0 <= c < 65536 /\ 0 <= r < 65536
  | _ => True
  end /\ zlen (body_of m).2 <= kMaxMessageBytes.

#[export] Instance msg_wf_dec m : Decision (msg_wf m).
Proof. unfold msg_wf. destruct m; apply _. Defined.

Lemma zlen_put_u32 o v : zlen (put_u32 o v) = zlen o + 4.
Proof. unfold put_u32, put_u16, put_u8. autorewrite with termos. lia. Qed.

Lemma zlen_put_str o s : zlen (put_str o s) = zlen o + 4 + zlen s.
Proof. unfold put_str. rewrite zlen_app, zlen_put_u32. lia. Qed.

Lemma zlen_put_env b e :
  Forall (fun kv => zlen kv.1 + zlen kv.2 <= zlen (put_env b e) - zlen b) e /\
  zlen b + 8 * zlen e <= zlen (put_env b e).
Proof.
  revert b. induction e as [|[k v] e IH]; intros b; cbn [put_env fold_left].
  - split; [constructor|]. unfold put_env, zlen. cbn [fold_left length]. lia.
  - destruct (IH (put_str (put_str b k) v)) as [H1 H2].
    pose proof (zlen_nonneg k); pose proof (zlen_nonneg v); pose proof (zlen_nonneg e).
    unfold put_env in *. cbn [fold_left fst snd].
    rewrite zlen_cons. rewrite !zlen_put_str in *. split; [constructor|].
    + cbn [fst snd]. lia.
    + eapply Forall_impl; [|exact H1]. cbn. intros kv Hkv. lia.
    + lia.
Qed.

Lemma put_env_be b e :
  Forall (fun kv => zlen kv.1 < 4294967296 /\ zlen kv.2 < 4294967296) e ->
  put_env b e = b ++ be_env e.
Proof.
  intros H. revert b. induction H as [|[k v] e [Hk Hv] He IH]; intros b.
  - unfold put_env, be_env. cbn. by rewrite app_nil_r.
  - unfold put_env in *. cbn [fold_left fst snd] in *. rewrite IH.
    rewrite !put_str_be by done. unfold be_env. cbn [fmap list_fmap concat fst snd].
    by rewrite <- !app_assoc.
Qed.

Lemma tag_of_code t : tag_of (tag_code t) = Some t.
Proof. by destruct t. Qed.

Lemma tag_code_ok t : byte_ok (tag_code t).
Proof. unfold byte_ok. destruct t; cbn; lia. Qed.

Definition msg_tag (m : msg) : tag :=
  match m with
  | MHello _ => THello | MWelcome => TWelcome | MIncompatible _ => TIncompatible
  | MDetached _ => TDetached | MInput _ => TInput | MResize _ _ => TResize
  | MFrame _ => TFrame
  end.

(** The strings of a message within the cap fit their length fields. *)
Lemma hello_strings_bound h :
  let b := put_u32 (put_u8 (put_str (put_str (put_u16 (put_u16 (put_u32 []
    (build_id h)) (cols h)) (rows h)) (term h)) (colorterm h)) (if utf8 h then 1 else 0))
    (to_u32 (zlen (env h))) in
  zlen (put_env b (env h)) <= kMaxMessageBytes ->
  zlen (term h) < 4294967296 /\ zlen (colorterm h) < 4294967296 /\
  zlen (env h) < 4294967296 /\
  Forall (fun kv => zlen kv.1 < 4294967296 /\ zlen kv.2 < 4294967296) (env h).
Proof.
  intros b Hlen. assert (kMaxMessageBytes < 4294967296) as Hmax by (by vm_compute).
  destruct (zlen_put_env b (env h)) as [He Hn].
  assert (zlen (term h) + zlen (colorterm h) <= zlen b) as Htc.
  { subst b. rewrite zlen_put_u32. unfold put_u8. rewrite zlen_app, !zlen_put_str.
    pose proof (zlen_nonneg (put_u16 (put_u16 (put_u32 [] (build_id h)) (cols h)) (rows h))).
    pose proof (zlen_nonneg [to_u8 (if utf8 h then 1 else 0)]). lia. }
  pose proof (zlen_nonneg (term h)); pose proof (zlen_nonneg (colorterm h));
    pose proof (zlen_nonneg b); pose proof (zlen_nonneg (env h)).
  split_and!; [lia..|]. eapply Forall_impl; [|exact He].
  intros [k v] Hkv; cbn [fst snd] in *.
  pose proof (zlen_nonneg k); pose proof (zlen_nonneg v). lia.
Qed.

(** Every field fits the width it is written with. *)
Definition msg_fits (m : msg) : Prop :=
  match m with
  | MHello h =>
      0 <= build_id h < 4294967296 /\ 0 <= cols h < 65536 /\ 0 <= rows h < 65536 /\
      zlen (term h) < 4294967296 /\ zlen (colorterm h) < 4294967296 /\
      zlen (env h) < 4294967296 /\
      Forall (fun kv => zlen kv.1 < 4294967296 /\ zlen kv.2 < 4294967296) (env h)
  | MWelcome => True
  | MIncompatible s | MDetached s | MInput s | MFrame s => zlen s < 4294967296
  | MResize c r => 0 <= c < 65536 /\ 0 <= r < 65536
  end.

Lemma msg_wf_fits m : msg_wf m -> msg_fits m.
Proof.
  intros [Hw Hlen]. assert (kMaxMessageBytes < 4294967296) as Hmax by (by vm_compute).
  destruct m as [h| |s|s|s|c r|s]; cbn [body_of snd msg_fits] in *;
    try (rewrite zlen_put_str, (@zlen_nil Z) in Hlen; lia); [|done..].
  pose proof (hello_strings_bound h Hlen). tauto.
Qed.

Lemma body_of_fits m : msg_fits m -> body_of m = (msg_tag m, be_body m).
Proof.
  destruct m as [h| |s|s|s|c r|s]; cbn [msg_fits body_of msg_tag be_body]; intros Hw; f_equal;
    try (by rewrite put_str_be by lia).
  - destruct Hw as (Hb & Hc & Hr & Ht & Hct & Hn & He).
    pose proof (zlen_nonneg (env h)).
    rewrite put_env_be, put_u32_be by (done || (unfold to_u32; apply Z.mod_pos_bound; lia)).
    unfold put_u8. rewrite !put_str_be by lia. rewrite !put_u16_be by lia.
    rewrite put_u32_be by lia. unfold to_u32. rewrite Z.mod_small by lia.
    cbn [app]. rewrite <- !app_assoc. repeat f_equal. by destruct (utf8 h).
  - by rewrite !put_u16_be by lia.
Qed.

Lemma body_of_be m : msg_wf m -> body_of m = (msg_tag m, be_body m).
Proof. intros. by apply body_of_fits, msg_wf_fits. Qed.

Lemma read_env_forward e fuel r t :
  rest r = be_env e ++ t -> r_ok r = true -> (length e < fuel)%nat ->
  Forall (fun kv => zlen kv.1 < 4294967296 /\ zlen kv.2 < 4294967296) e ->
  read_env fuel (zlen e) r = (e, advance r (length (be_env e))).
Proof.
  intros Hr Hok Hf He. revert fuel r Hr Hok Hf.
  induction He as [|[k v] e [Hk Hv] He IH]; intros fuel r Hr Hok Hf;
    (destruct fuel as [|fuel]; [cbn in Hf; lia|]); cbn [read_env].
  - cbn. unfold advance. destruct r; cbn. by rewrite Nat.add_0_r.
  - rewrite zlen_cons. pose proof (zlen_nonneg e). zrw_true (0 <? 1 + zlen e). rewrite Hok.
    unfold be_env in *. cbn [fmap list_fmap concat fst snd andb] in *.
    rewrite <- !app_assoc in Hr.
    rewrite (str_forward r k _ Hr Hok Hk).
    assert (rest (advance r (4 + length k)) = be_str v ++ concat ((fun kv => be_str kv.1
      ++ be_str kv.2) <$> e) ++ t) as Hr1 by exact (advance_app r (be_str k) _ Hr).
    rewrite (str_forward _ v _ Hr1 Hok Hv).
    pose proof (advance_app _ (be_str v) _ Hr1) as Hr2.
    change (length (be_str v)) with (4 + length v)%nat in Hr2.
    replace (1 + zlen e - 1) with (zlen e) by lia.
    rewrite (IH fuel _ Hr2 Hok) by (cbn in Hf; lia).
    f_equal. rewrite !advance_advance. f_equal. rewrite !length_app.
    unfold be_str. rewrite !length_app, !be32_length. lia.
Qed.

Lemma length_be_env e : (length e <= length (be_env e))%nat.
Proof.
  induction e as [|[k v] e IH]; [done|]. unfold be_env in *.
  rewrite fmap_cons. cbn [concat fst snd]. unfold be_str at 1.
  rewrite !length_app, be32_length. cbn [length]. lia.
Qed.

Lemma after_u8 r x t : rest r = [x] ++ t -> rest (advance r 1) = t.
Proof. apply advance_app. Qed.
Lemma after_u16 r v t : rest r = be16 v ++ t -> rest (advance r 2) = t.
Proof. apply advance_app. Qed.
Lemma after_u32 r v t : rest r = be32 v ++ t -> rest (advance r 4) = t.
Proof. apply advance_app. Qed.
Lemma after_str r s t : rest r = be_str s ++ t -> rest (advance r (4 + length s)) = t.
Proof. apply (advance_app r (be_str s)). Qed.

Lemma read_hello_forward h r :
  rest r = be_body (MHello h) -> r_ok r = true -> msg_wf (MHello h) ->
  read_msg THello r = (MHello h, advance r (length (be_body (MHello h)))).
Proof.
  intros Hr Hok [Hw Hlen]. cbn in Hw. destruct Hw as (Hb & Hc & Hrw).
  cbn [body_of snd] in Hlen.
  destruct (hello_strings_bound h Hlen) as (Ht & Hct & Hn & He).
  cbn [be_body] in Hr. unfold read_msg.
  rewrite (u32_forward _ _ _ Hr Hb). apply after_u32 in Hr as H1.
  rewrite (u16_forward _ _ _ H1 Hc). apply after_u16 in H1 as H2.
  rewrite (u16_forward _ _ _ H2 Hrw). apply after_u16 in H2 as H3.
  rewrite (str_forward _ _ _ H3 Hok Ht). apply after_str in H3 as H4.
  rewrite (str_forward _ _ _ H4 Hok Hct). apply after_str in H4 as H5.
  rewrite (u8_forward _ _ _ H5) by (destruct (utf8 h); unfold byte_ok; lia).
  apply after_u8 in H5 as H6.
  pose proof (zlen_nonneg (env h)).
  rewrite (u32_forward _ _ _ H6) by lia. apply after_u32 in H6 as H7.
  rewrite <- (app_nil_r (be_env (env h))) in H7.
  assert (length (env h) < S (length (r_s r)))%nat as Hfuel.
  { pose proof (length_be_env (env h)) as Hle.
    apply (f_equal length) in Hr. unfold rest in Hr.
    rewrite length_drop, !length_app in Hr. lia. }
  rewrite (read_env_forward (env h) _ _ [] H7 Hok) by done.
  destruct h as [bid cl rw tm ct u e]. cbn [build_id cols rows term colorterm utf8 env] in *.
  replace (negb ((if u then 1 else 0) =? 0)) with u by (by destruct u).
  f_equal. rewrite !advance_advance. f_equal. cbn [be_body build_id cols rows term
    colorterm utf8 env]. rewrite !length_app. unfold be_str.
  rewrite !length_app, !be32_length. cbn [length be16]. lia.
Qed.

Lemma read_str_forward s r :
  rest r = be_str s -> r_ok r = true -> zlen (put_str [] s) <= kMaxMessageBytes ->
  r_str r = (s, advance r (length (be_str s))).
Proof.
  intros Hr Hok Hlen. rewrite zlen_put_str, (@zlen_nil Z) in Hlen.
  rewrite <- (app_nil_r (be_str s)) in Hr. pose proof (zlen_nonneg s).
  apply (str_forward _ _ _ Hr Hok). unfold kMaxMessageBytes in *. lia.
Qed.

Lemma read_msg_forward m r :
  rest r = be_body m -> r_ok r = true -> msg_wf m ->
  read_msg (msg_tag m) r = (m, advance r (length (be_body m))).
Proof.
  intros Hr Hok Hw. destruct m as [h| |s|s|s|c w|s]; cbn [msg_tag];
    [by apply read_hello_forward| |destruct Hw as [Hw Hlen]; cbn [be_body] in *;
       unfold read_msg; cbn [body_of snd] in Hlen..].
  - cbn. f_equal. unfold advance. destruct r; cbn. by rewrite Nat.add_0_r.
  - by rewrite (read_str_forward _ _ Hr Hok Hlen).
  - by rewrite (read_str_forward _ _ Hr Hok Hlen).
  - by rewrite (read_str_forward _ _ Hr Hok Hlen).
  - rewrite (u16_forward _ _ _ Hr) by lia. apply after_u16 in Hr.
    rewrite <- (app_nil_r (be16 w)) in Hr. rewrite (u16_forward _ _ _ Hr) by lia. f_equal. apply advance_advance.
  - by rewrite (read_str_forward _ _ Hr Hok Hlen).
Qed.

(** ** What the decoder promises: a parse of the byte stream

    [parse_frame] reads one frame off a whole stream, [parse] all of them, with
    what is left ([None] once the peer has violated the protocol).  No buffer,
    no position, no compaction: this is the specification. *)

Inductive outcome :=
  | Incomplete
  | Bad
  | Skip (left : bytes)
  | Got (m : msg) (left : bytes).

Definition header (s : bytes) : Z * Z :=
  let '(t, r) := u8 (Reader s 0 true) in let '(len, _) := u32 r in (t, len).

Definition parse_frame (s : bytes) : outcome :=
  if zlen s <? kHeaderSize then Incomplete
  else
    let '(t, len) := header s in
    if kMaxMessageBytes <? len then Bad
    else if zlen s <? kHeaderSize + len then Incomplete
    else
      let left := drop (Z.to_nat (kHeaderSize + len)) s in
      match tag_of t with
      | None => Skip left
      | Some t =>
          let '(m, r) := read_msg t (Reader (take (Z.to_nat len) (drop 5 s)) 0 true) in
          if r_ok r && (Z.of_nat (r_i r) =? len) then Got m left else Bad
      end.

Fixpoint parse_from (fuel : nat) (s : bytes) : list msg * option bytes :=
  match fuel with
  | O => ([], Some s)
  | S fuel =>
      match parse_frame s with
      | Incomplete => ([], Some s)
      | Bad => ([], None)
      | Skip s => parse_from fuel s
      | Got m s => let '(ms, o) := parse_from fuel s in (m :: ms, o)
      end
  end.

Definition parse (s : bytes) : list msg * option bytes := parse_from (S (length s)) s.
Arguments parse : simpl never.

Lemma to_u32_bound v : 0 <= to_u32 v < 4294967296.
Proof. apply Z.mod_pos_bound. lia. Qed.

Lemma header_len_nonneg s t len : header s = (t, len) -> 0 <= len.
Proof.
  unfold header, u32. intros H.
  destruct (u8 _) as [t' r], (u16 r) as [hi r1], (u16 r1) as [lo r2].
  injection H as _ <-. apply to_u32_bound.
Qed.

Lemma header_app s t : kHeaderSize <= zlen s -> header (s ++ t) = header s.
Proof.
  intros H. unfold zlen, kHeaderSize in H.
  destruct s as [|a [|b [|c [|d [|e s]]]]]; cbn [length] in H; try lia. reflexivity.
Qed.

Lemma parse_frame_left s :
  match parse_frame s with
  | Skip r | Got _ r => (length r < length s)%nat
  | _ => True
  end.
Proof.
  unfold parse_frame. destruct (Z.ltb_spec (zlen s) kHeaderSize) as [|H5]; [done|].
  destruct (header s) as [t len] eqn:Hh. apply header_len_nonneg in Hh.
  destruct (_ <? len); [done|].
  destruct (Z.ltb_spec (zlen s) (kHeaderSize + len)); [done|].
  assert (length (drop (Z.to_nat (kHeaderSize + len)) s) < length s)%nat.
  { rewrite length_drop. unfold zlen, kHeaderSize in *. lia. }
  destruct (tag_of t); [|done]. destruct (read_msg _ _) as [m r]. by destruct (_ && _).
Qed.

(** More bytes behind do not change what was already decided. *)
Lemma parse_frame_app s t :
  match parse_frame s with
  | Incomplete => True
  | Bad => parse_frame (s ++ t) = Bad
  | Skip r => parse_frame (s ++ t) = Skip (r ++ t)
  | Got m r => parse_frame (s ++ t) = Got m (r ++ t)
  end.
Proof.
  unfold parse_frame. pose proof (zlen_nonneg t).
  destruct (Z.ltb_spec (zlen s) kHeaderSize) as [|H5]; [done|].
  rewrite header_app, zlen_app by done. zrw_false (zlen s + zlen t <? kHeaderSize).
  destruct (header s) as [tg len] eqn:Hh. apply header_len_nonneg in Hh.
  destruct (_ <? len); [done|].
  destruct (Z.ltb_spec (zlen s) (kHeaderSize + len)) as [|Hl]; [done|].
  zrw_false (zlen s + zlen t <? kHeaderSize + len). unfold zlen, kHeaderSize in *.
  rewrite !drop_app_le by lia.
  destruct (tag_of tg); [|done].
  rewrite take_app_le by (rewrite ?length_drop; lia).
  destruct (read_msg _ _) as [m r]. by destruct (_ && _).
Qed.

Lemma parse_from_fuel f1 f2 s :
  (length s < f1)%nat -> (length s < f2)%nat -> parse_from f1 s = parse_from f2 s.
Proof.
  revert f2 s. induction f1 as [|f1 IH]; intros f2 s H1 H2; [lia|].
  destruct f2 as [|f2]; [lia|]. cbn. pose proof (parse_frame_left s).
  destruct (parse_frame s) as [| |r|m r]; [done..| |].
  - apply IH; lia.
  - by rewrite (IH f2) by lia.
Qed.

(** One turn of the specification. *)
Lemma parse_unfold s :
  parse s = match parse_frame s with
            | Incomplete => ([], Some s)
            | Bad => ([], None)
            | Skip r => parse r
            | Got m r => let '(ms, o) := parse r in (m :: ms, o)
            end.
Proof.
  unfold parse at 1. cbn [parse_from]. pose proof (parse_frame_left s).
  destruct (parse_frame s) as [| |r|m r]; [done..| |];
    unfold parse; by rewrite (parse_from_fuel (length s) (S (length r))) by lia.
Qed.

Definition seq_parse (x : list msg * option bytes) (t : bytes) : list msg * option bytes :=
  match x with
  | (ms, None) => (ms, None)
  | (ms, Some r) => let '(ms', o) := parse (r ++ t) in (ms ++ ms', o)
  end.

Lemma parse_app s t : parse (s ++ t) = seq_parse (parse s) t.
Proof.
  remember (length s) as n eqn:Hn. assert (length s <= n)%nat as Hs by lia. clear Hn.
  revert s Hs. induction n as [n IH] using lt_wf_ind. intros s Hs.
  rewrite (parse_unfold s). pose proof (parse_frame_app s t) as Ha.
  pose proof (parse_frame_left s) as Hl.
  destruct (parse_frame s) as [| |r|m r] eqn:E; cbn [seq_parse].
  - by destruct (parse (s ++ t)).
  - by rewrite parse_unfold, Ha.
  - rewrite parse_unfold, Ha. apply (IH (length r)); lia.
  - rewrite parse_unfold, Ha, (IH (length r)) by lia.
    destruct (parse r) as [ms [r'|]]; cbn [seq_parse]; [|done]. by destruct (parse (r' ++ t)).
Qed.

Lemma parse_left s ms r : parse s = (ms, Some r) -> parse_frame r = Incomplete.
Proof.
  remember (length s) as n eqn:Hn. assert (length s <= n)%nat as Hs by lia. clear Hn.
  revert s Hs ms. induction n as [n IH] using lt_wf_ind. intros s Hs ms.
  rewrite parse_unfold. pose proof (parse_frame_left s) as Hl.
  destruct (parse_frame s) as [| |r'|m r'] eqn:E; [by intros [= <- <-]|done|..].
  - apply (IH (length r')); lia.
  - destruct (parse r') as [ms' o] eqn:Ep. intros [= <- ->]. apply (IH (length r') ltac:(lia) r' ltac:(lia) _ Ep).
Qed.

Lemma incomplete_short s : parse_frame s = Incomplete -> zlen s < kHeaderSize + kMaxMessageBytes.
Proof.
  unfold parse_frame. destruct (Z.ltb_spec (zlen s) kHeaderSize) as [|H5];
    [unfold kMaxMessageBytes, kHeaderSize in *; lia|].
  destruct (header s) as [t len]. destruct (Z.ltb_spec kMaxMessageBytes len); [done|].
  destruct (Z.ltb_spec (zlen s) (kHeaderSize + len)); [lia|].
  destruct (tag_of t); [|done]. destruct (read_msg _ _) as [m r]. by destruct (_ && _).
Qed.

(** ** The decoder implements the parse *)

Definition unread (d : decoder) : bytes := drop (pos d) (buf d).
Definition view (d : decoder) : option bytes := if failed d then None else Some (unread d).

(** The buffer invariant: the position is inside, what is unread is bounded by
    the cap, and what compaction leaves behind is bounded by what is unread. *)
Definition decoder_ok (d : decoder) : Prop :=
  (pos d <= length (buf d))%nat /\
  zlen (unread d) <= kMaxBufferBytes /\
  (Z.of_nat (pos d) < kCompactMinSize \/ Z.of_nat (pos d) * 2 <= zlen (buf d)).

Definition parse_view (v : option bytes) : list msg * option bytes :=
  match v with None => ([], None) | Some s => parse s end.

Lemma zlen_unread d :
  (pos d <= length (buf d))%nat -> zlen (unread d) = zlen (buf d) - Z.of_nat (pos d).
Proof. unfold unread, zlen. rewrite length_drop. lia. Qed.

Section DecoderLemmas.
Context (grow : Z -> Z -> Z) (shrink : Z -> Z).
Local Abbreviation feed := (feed grow shrink).
Local Abbreviation fail := (fail shrink).
Local Abbreviation next_loop := (next_loop shrink).
Local Abbreviation next := (next shrink).
Local Abbreviation drain := (drain shrink).
Local Abbreviation receive := (receive grow shrink).

Lemma fail_ok d : decoder_ok (fail d) /\ view (fail d) = None.
Proof. split; [|done]. split_and!; [done|by vm_compute|left; by vm_compute]. Qed.

Lemma compact_view d : view (compact d) = view d.
Proof.
  unfold compact, view. destruct (pos d =? 0)%nat; [done|].
  destruct (Nat.eqb_spec (pos d) (length (buf d))) as [E|]; cbn [andb].
  - destruct (_ <=? _); cbn.
    + unfold unread. rewrite E, drop_all. by destruct (failed d).
    + by destruct (_ || _).
  - by destruct (_ || _).
Qed.

Lemma compact_ok d :
  (pos d <= length (buf d))%nat -> zlen (unread d) <= kMaxBufferBytes ->
  decoder_ok (compact d).
Proof.
  intros Hp Hu.
  assert (zlen (unread (compact d)) <= kMaxBufferBytes) as Hu'.
  { destruct (failed d) eqn:Ef.
    - revert Hu. unfold unread, compact. destruct (pos d =? 0)%nat; [done|].
      destruct (_ && _); [intros; by vm_compute|]. by destruct (_ || _).
    - pose proof (compact_view d) as Hv. unfold view in Hv. rewrite Ef in Hv.
      destruct (failed (compact d)); [done|]. by injection Hv as ->. }
  revert Hu'. unfold decoder_ok, compact.
  destruct (Nat.eqb_spec (pos d) 0) as [E|];
    [rewrite E; unfold kCompactMinSize; intros; split_and!; try done; lia|].
  destruct (_ && _); [intros; split_and!; [done..|left; by vm_compute]|].
  destruct (_ || _) eqn:Hc; intros; split_and!; cbn in *; try (done || lia);
    [|by left]. apply orb_true_iff in Hc as [Hc|Hc]; zbool; unfold zlen in *; lia.
Qed.

Lemma next_turn fuel d :
  decoder_ok d -> failed d = false ->
  match parse_frame (unread d) with
  | Incomplete => next_loop (S fuel) d = (None, d)
  | Bad => exists d', next_loop (S fuel) d = (None, d') /\ view d' = None /\ decoder_ok d'
  | Skip r => exists d', next_loop (S fuel) d = next_loop fuel d' /\
                view d' = Some r /\ decoder_ok d'
  | Got m r => exists d', next_loop (S fuel) d = (Some m, d') /\
                view d' = Some r /\ decoder_ok d'
  end.
Proof.
  intros (Hp & Hu & Hc) Hf. pose proof (zlen_unread d Hp) as Hz.
  cbn [Proto.next_loop]. rewrite <- Hz. fold (unread d). unfold parse_frame.
  destruct (Z.ltb_spec (zlen (unread d)) kHeaderSize) as [|H5]; [done|].
  unfold header. destruct (u8 (Reader (unread d) 0 true)) as [tg r1] eqn:E1.
  destruct (u32 r1) as [len r2] eqn:E2.
  assert (0 <= len) as Hlen.
  { eapply header_len_nonneg. unfold header. rewrite E1, E2. done. }
  destruct (Z.ltb_spec kMaxMessageBytes len).
  { destruct (fail_ok d). by eexists. }
  destruct (Z.ltb_spec (zlen (unread d)) (kHeaderSize + len)) as [|Hl]; [done|].
  set (d1 := Decoder (buf d) (pos d + Z.to_nat (kHeaderSize + len)) (failed d) (capacity d)).
  assert (view d1 = Some (drop (Z.to_nat (kHeaderSize + len)) (unread d))) as Hv1.
  { unfold view, d1, unread. cbn. by rewrite Hf, drop_drop. }
  assert (pos d1 <= length (buf d1))%nat as Hp1.
  { cbn. unfold zlen, kHeaderSize in *. lia. }
  assert (zlen (unread d1) <= kMaxBufferBytes) as Hu1.
  { rewrite zlen_unread by done. cbn. rewrite zlen_unread in Hu by done.
    unfold kHeaderSize in *. lia. }
  pose proof (compact_ok d1 Hp1 Hu1) as Hok. pose proof (compact_view d1) as Hcv.
  rewrite Hv1 in Hcv.
  destruct (tag_of tg) as [t|]; [|by exists (compact d1)].
  change (Z.to_nat kHeaderSize) with 5%nat. unfold unread at 1. rewrite drop_drop.
  destruct (read_msg t _) as [m r]. destruct (r_ok r); cbn [negb andb orb].
  2:{ destruct (fail_ok d1). by eexists. }
  destruct (_ =? _); cbn [negb].
  - by exists (compact d1).
  - destruct (fail_ok d1). by eexists.
Qed.

Lemma view_unread d s : view d = Some s -> failed d = false /\ unread d = s.
Proof. unfold view. destruct (failed d); [done|]. by intros [= <-]. Qed.

Lemma next_loop_parse fuel d :
  decoder_ok d -> failed d = false -> (length (unread d) < fuel)%nat ->
  let '(om, d') := next_loop fuel d in
  decoder_ok d' /\
  match om with
  | None => parse (unread d) = ([], view d')
  | Some m => exists r, view d' = Some r /\ (length r < length (unread d))%nat /\
                parse (unread d) = let '(ms, o) := parse r in (m :: ms, o)
  end.
Proof.
  revert d. induction fuel as [|fuel IH]; intros d Hd Hf Hfuel; [lia|].
  pose proof (next_turn fuel d Hd Hf) as Ht. pose proof (parse_frame_left (unread d)) as Hl.
  rewrite parse_unfold. destruct (parse_frame (unread d)) as [| |r|m r].
  - rewrite Ht. split; [done|]. unfold view. by rewrite Hf.
  - destruct Ht as (d' & -> & -> & ?). done.
  - destruct Ht as (d' & -> & (Hf' & Hu')%view_unread & Hd').
    specialize (IH d' Hd' Hf'). rewrite Hu' in IH.
    specialize (IH ltac:(lia)). destruct (next_loop fuel d') as [[m|] d2]; [|done].
    destruct IH as (? & r' & ? & ? & ?). split; [done|]. exists r'. split_and!; try done. lia.
  - destruct Ht as (d' & -> & Hv & Hd'). split; [done|]. by exists r.
Qed.

Lemma length_unread d : (length (unread d) <= length (buf d))%nat.
Proof. unfold unread. rewrite length_drop. lia. Qed.

Lemma drain_parse fuel d :
  decoder_ok d -> (length (unread d) < fuel)%nat ->
  let '(ms, d') := drain fuel d in
  decoder_ok d' /\ parse_view (view d) = (ms, view d').
Proof.
  revert d. induction fuel as [|fuel IH]; intros d Hd Hfuel; [lia|].
  cbn [Proto.drain]. unfold Proto.next. destruct (failed d) eqn:Hf.
  { unfold view. by rewrite Hf. }
  pose proof (next_loop_parse (S (length (buf d))) d Hd Hf) as Hn.
  pose proof (length_unread d).
  destruct (next_loop _ d) as [[m|] d'].
  - destruct Hn as (Hd' & r & Hv & Hlen & Hp); [lia|].
    destruct (view_unread _ _ Hv) as [Hf' Hu'].
    specialize (IH d' Hd' ltac:(rewrite Hu'; lia)).
    destruct (drain fuel d') as [ms d2]. destruct IH as [Hd2 IH]. split; [done|].
    rewrite Hv in IH. cbn [parse_view] in IH. unfold view at 1. rewrite Hf.
    cbn [parse_view]. by rewrite Hp, IH.
  - destruct Hn as [Hd' Hp]; [lia|]. split; [done|]. unfold view at 1. by rewrite Hf.
Qed.

Lemma feed_view d c :
  decoder_ok d -> (failed d = false -> zlen (unread d) + zlen c <= kMaxBufferBytes) ->
  decoder_ok (feed d c) /\ view (feed d c) = (fun s => s ++ c) <$> view d.
Proof.
  intros Hd Hc. unfold Proto.feed. destruct (failed d) eqn:Hf; [by unfold view; rewrite Hf|].
  destruct c as [|x c]; [unfold view; cbn [length Nat.eqb]; rewrite Hf; cbn; by rewrite app_nil_r|].
  cbn [length Nat.eqb]. unfold view. destruct Hd as (Hp & Hu & Hpos).
  rewrite <- zlen_unread by done. specialize (Hc eq_refl).
  zrw_false (kMaxBufferBytes <? zlen (unread d) + zlen (x :: c)). cbn [failed]. rewrite Hf.
  assert (drop (pos d) (buf d ++ x :: c) = unread d ++ x :: c) as Heq.
  { unfold unread. by rewrite drop_app_le. }
  split; [|unfold unread at 1; cbn; by rewrite Heq]. unfold decoder_ok, unread;
    cbn [pos buf].
  rewrite Heq, !zlen_app in *. pose proof (zlen_nonneg (x :: c)).
  rewrite length_app. split_and!; lia.
Qed.

Lemma receive_parse chunks d :
  decoder_ok d -> (forall s, view d = Some s -> parse_frame s = Incomplete) ->
  Forall (fun c => zlen c <= 1024 * 1024) chunks ->
  let '(ms, d') := receive d chunks in
  decoder_ok d' /\ parse_view ((fun s => s ++ concat chunks) <$> view d) = (ms, view d').
Proof.
  intros Hd Hi Hc. revert d Hd Hi. induction Hc as [|c chunks Hc _ IH]; intros d Hd Hi.
  { cbn. split; [done|]. destruct (view d) as [s|] eqn:Hv; [|done]. cbn.
    rewrite app_nil_r, parse_unfold. by rewrite (Hi s). }
  cbn [Proto.receive concat].
  destruct (feed_view d c Hd) as [Hd1 Hv1].
  { intros Hf. unfold view in Hi. rewrite Hf in Hi. specialize (Hi _ eq_refl).
    apply incomplete_short in Hi. unfold kMaxBufferBytes. lia. }
  pose proof (drain_parse (S (length (buf (feed d c)))) (feed d c) Hd1) as Hdr.
  pose proof (length_unread (feed d c)).
  destruct (drain _ (feed d c)) as [ms d1]. destruct Hdr as [Hd2 Hp]; [lia|].
  specialize (IH d1 Hd2). rewrite Hv1 in Hp.
  destruct (receive d1 chunks) as [ms2 d2].
  destruct (view d) as [s|] eqn:Hv; cbn [fmap option_fmap option_map] in *.
  - cbn [parse_view] in Hp. destruct IH as [Hd3 IH].
    { intros s' Hs'. rewrite Hs' in Hp. by eapply parse_left. }
    split; [done|]. cbn [parse_view]. rewrite app_assoc, parse_app, Hp.
    destruct (view d1) as [s1|]; cbn [seq_parse fmap option_fmap option_map parse_view] in *.
    + by rewrite IH.
    + injection IH as <- <-. by rewrite app_nil_r.
  - cbn [parse_view] in Hp. injection Hp as <- Hvd. rewrite <- Hvd in IH.
    cbn [fmap option_fmap option_map parse_view] in *. apply IH. done.
Qed.
End DecoderLemmas.

(** ** Frames, forwards: what the encoder writes, the parse reads *)

Lemma encode_be m :
  msg_wf m -> encode m = tag_code (msg_tag m) :: be32 (zlen (be_body m)) ++ be_body m.
Proof.
  intros Hw. unfold encode. pose proof (body_of_be m Hw) as Hb. rewrite Hb.
  destruct Hw as [_ Hl]. rewrite Hb in Hl. cbn [snd] in Hl.
  pose proof (zlen_nonneg (be_body m)). unfold kMaxMessageBytes in Hl.
  unfold to_u32. rewrite Z.mod_small, put_u32_be by lia. unfold put_u8, to_u8.
  rewrite Z.mod_small by apply tag_code_ok. done.
Qed.

Lemma header_forward t len s :
  byte_ok t -> 0 <= len < 4294967296 -> header (t :: be32 len ++ s) = (t, len).
Proof.
  intros Ht Hl. unfold header.
  rewrite (u8_forward _ t (be32 len ++ s)) by done.
  by rewrite (u32_forward _ len s).
Qed.

Lemma parse_frame_encode m s : msg_wf m -> parse_frame (encode m ++ s) = Got m s.
Proof.
  intros Hw. rewrite encode_be by done. pose proof (body_of_be m Hw) as Hb.
  pose proof Hw as [_ Hl]. rewrite Hb in Hl. cbn [snd] in Hl.
  pose proof (zlen_nonneg (be_body m)) as Hn. pose proof (zlen_nonneg s).
  unfold parse_frame. rewrite <- app_comm_cons, <- app_assoc.
  assert (zlen (tag_code (msg_tag m) :: be32 (zlen (be_body m)) ++ be_body m ++ s)
    = kHeaderSize + zlen (be_body m) + zlen s) as Hz.
  { rewrite zlen_cons, !zlen_app. unfold kHeaderSize, be32, zlen. cbn [length]. lia. }
  rewrite Hz. zrw_false (kHeaderSize + zlen (be_body m) + zlen s <? kHeaderSize).
  rewrite header_forward by (apply tag_code_ok || unfold kMaxMessageBytes in *; lia).
  zrw_false (kMaxMessageBytes <? zlen (be_body m)).
  zrw_false (kHeaderSize + zlen (be_body m) + zlen s <? kHeaderSize + zlen (be_body m)).
  rewrite tag_of_code.
  change (drop 5 _) with (be_body m ++ s).
  replace (Z.to_nat (zlen (be_body m))) with (length (be_body m)) by (unfold zlen; lia).
  rewrite take_app_length.
  rewrite (read_msg_forward m (Reader (be_body m) 0 true)) by done.
  cbn [r_ok r_i advance]. rewrite Nat.add_0_l. fold (zlen (be_body m)). rewrite Z.eqb_refl.
  cbn [andb]. f_equal. change (drop _ _) with (drop (Z.to_nat (kHeaderSize + zlen (be_body m)))
    ((tag_code (msg_tag m) :: be32 (zlen (be_body m))) ++ be_body m ++ s)).
  rewrite app_assoc, drop_app_ge by (rewrite length_app; unfold zlen, kHeaderSize, be32; cbn [length]; lia).
  rewrite length_app. unfold be32. cbn [length].
  replace (Z.to_nat _ - _)%nat with 0%nat by (unfold zlen, kHeaderSize; lia). done.
Qed.

Lemma parse_encoded ms : Forall msg_wf ms -> parse (concat (encode <$> ms)) = (ms, Some []).
Proof.
  induction 1 as [|m ms Hm _ IH]; [reflexivity|].
  rewrite fmap_cons. cbn [concat]. rewrite parse_unfold, parse_frame_encode by done.
  by rewrite IH.
Qed.

(** ** Frames, backwards: what the parse accepts, an encoder could have written *)

(** The body of a message with the byte [u] as its [utf8] flag: the decoder
    takes any non-zero byte for true. *)
Definition be_body_with (u : Z) (m : msg) : bytes :=
  match m with
  | MHello h =>
      be32 (build_id h) ++ be16 (cols h) ++ be16 (rows h) ++ be_str (term h)
      ++ be_str (colorterm h) ++ [u] ++ be32 (zlen (env h)) ++ be_env (env h)
  | _ => be_body m
  end.

Definition flag_of (m : msg) (u : Z) : Prop :=
  match m with MHello h => utf8 h = negb (u =? 0) | _ => True end.

Definition frame_with (u : Z) (m : msg) : bytes :=
  tag_code (msg_tag m) :: be32 (zlen (be_body_with u m)) ++ be_body_with u m.

Lemma zlen_be_body_with u m : zlen (be_body_with u m) = zlen (be_body m).
Proof. destruct m; [|done..]. unfold be_body_with, be_body. by rewrite !zlen_app. Qed.

Lemma frame_with_canonical m :
  msg_wf m -> frame_with (match m with MHello h => if utf8 h then 1 else 0 | _ => 0 end) m
              = encode m.
Proof. intros Hw. rewrite encode_be by done. by destruct m. Qed.

Lemma read_env_ok fuel n r e r' :
  read_env fuel n r = (e, r') -> r_s r' = r_s r /\ (r_ok r' = true -> r_ok r = true).
Proof.
  revert n r e r'. induction fuel as [|fuel IH]; cbn; intros n r e r' H;
    [by injection H as <- <-|].
  destruct (_ && _); [|by injection H as <- <-].
  destruct (r_str r) as [k r1] eqn:E1, (r_str r1) as [v r2] eqn:E2,
    (read_env fuel (n - 1) r2) as [e' r3] eqn:E3. injection H as <- <-.
  destruct (r_s_str _ _ _ E1), (r_s_str _ _ _ E2), (IH _ _ _ _ E3). split; [congruence|auto].
Qed.

Lemma read_env_backward fuel n r e r' :
  read_env fuel n r = (e, r') -> r_ok r' = true -> bytes_ok (r_s r) -> 0 <= n ->
  (length (rest r) < fuel)%nat ->
  took r r' (be_env e) /\ zlen e = n /\
  Forall (fun kv => zlen kv.1 < 4294967296 /\ zlen kv.2 < 4294967296) e.
Proof.
  revert n r e r'. induction fuel as [|fuel IH]; cbn; intros n r e r' H Hok Hs Hn Hf; [lia|].
  destruct (Z.ltb_spec 0 n); cbn [andb] in H.
  2:{ injection H as <- <-. split_and!; [by apply took_refl|unfold zlen; cbn; lia|done]. }
  destruct (r_ok r) eqn:Hr; [|injection H as <- <-; congruence].
  destruct (r_str r) as [k r1] eqn:E1, (r_str r1) as [v r2] eqn:E2,
    (read_env fuel (n - 1) r2) as [e' r3] eqn:E3. injection H as <- <-.
  destruct (r_s_str _ _ _ E1) as [S1 _], (r_s_str _ _ _ E2) as [S2 O2],
    (read_env_ok _ _ _ _ _ E3) as [S3 O3].
  apply str_backward in E1 as [T1 B1]; [|auto..].
  apply str_backward in E2 as [T2 B2]; [|auto|congruence].
  pose proof (took_trans _ _ _ _ _ T1 T2) as T12.
  apply IH in E3 as (T3 & Hl & He); [|done|congruence|lia|].
  - split_and!; [|rewrite zlen_cons; lia|by constructor].
    unfold be_env. rewrite fmap_cons. cbn [concat fst snd].
    exact (took_trans _ _ _ _ _ T12 T3).
  - destruct T12 as (_ & _ & HT). apply (f_equal length) in HT.
    rewrite length_app in HT. unfold be_str in HT. rewrite !length_app, be32_length in HT. lia.
Qed.

Lemma read_hello_backward r m r' :
  read_msg THello r = (m, r') -> r_ok r' = true -> bytes_ok (r_s r) ->
  msg_tag m = THello /\ msg_fits m /\
  exists u, byte_ok u /\ flag_of m u /\ took r r' (be_body_with u m).
Proof.
  cbn [read_msg]. intros H Hok Hs.
  destruct (u32 r) as [bid r1] eqn:E1, (u16 r1) as [c r2] eqn:E2, (u16 r2) as [w r3] eqn:E3,
    (r_str r3) as [tm r4] eqn:E4, (r_str r4) as [ct r5] eqn:E5, (u8 r5) as [u r6] eqn:E6,
    (u32 r6) as [n r7] eqn:E7, (read_env _ n r7) as [e r8] eqn:E8. injection H as <- <-.
  destruct (r_s_u32 _ _ _ E1) as [S1 O1], (r_s_u16 _ _ _ E2) as [S2 O2],
    (r_s_u16 _ _ _ E3) as [S3 O3], (r_s_str _ _ _ E4) as [S4 O4],
    (r_s_str _ _ _ E5) as [S5 O5], (r_s_u8 _ _ _ E6) as [S6 O6],
    (r_s_u32 _ _ _ E7) as [S7 O7], (read_env_ok _ _ _ _ _ E8) as [S8 O8].
  apply u32_backward in E1 as [T1 B1]; [|auto 12|congruence].
  apply u16_backward in E2 as [T2 B2]; [|auto 12|congruence].
  apply u16_backward in E3 as [T3 B3]; [|auto 12|congruence].
  apply str_backward in E4 as [T4 B4]; [|auto 12|congruence].
  apply str_backward in E5 as [T5 B5]; [|auto 12|congruence].
  apply u8_backward in E6 as [T6 B6]; [|auto 12|congruence].
  apply u32_backward in E7 as [T7 B7]; [|auto 12|congruence].
  apply read_env_backward in E8 as (T8 & Hn & He);
    [|done|congruence|lia|unfold rest; rewrite length_drop; lia].
  split; [done|]. split.
  - cbn [msg_fits build_id cols rows term colorterm env]. rewrite Hn. tauto.
  - exists u. split_and!; [done|done|]. cbn [be_body_with build_id cols rows term colorterm env].
    rewrite Hn.
    repeat (eapply took_trans; [eassumption|]). done.
Qed.

Lemma read_msg_backward t r m r' :
  read_msg t r = (m, r') -> r_ok r' = true -> bytes_ok (r_s r) ->
  msg_tag m = t /\ msg_fits m /\
  exists u, byte_ok u /\ flag_of m u /\ took r r' (be_body_with u m).
Proof.
  intros H Hok Hs. destruct t; [by apply read_hello_backward|..]; cbn [read_msg] in H.
  1: { injection H as <- <-. split_and!; [done..|].
       exists 0. split_and!; [by unfold byte_ok|done|by apply took_refl]. }
  4: { destruct (u16 r) as [c r1] eqn:E1, (u16 r1) as [w r2] eqn:E2. injection H as <- <-.
       destruct (r_s_u16 _ _ _ E1) as [S1 _], (r_s_u16 _ _ _ E2) as [_ O2].
       apply u16_backward in E1 as [T1 B1]; [|auto..].
       apply u16_backward in E2 as [T2 B2]; [|done|congruence].
       split_and!; [done..|]. exists 0. split_and!; [by unfold byte_ok|done|].
       eauto using took_trans. }
  all: destruct (r_str r) as [s r1] eqn:E; injection H as <- <-;
    apply str_backward in E as [T B]; [|done..];
    split_and!; [done..|]; exists 0; split_and!; [by unfold byte_ok|done..].
Qed.

Lemma header_backward s t len :
  header s = (t, len) -> kHeaderSize <= zlen s -> bytes_ok s ->
  s = t :: be32 len ++ drop 5 s.
Proof.
  unfold header. intros H H5 Hs.
  destruct (u8 (Reader s 0 true)) as [t' r1] eqn:E1, (u32 r1) as [len' r2] eqn:E2.
  injection H as <- <-.
  assert (r_ok r2 = true) as Hok.
  { unfold zlen, kHeaderSize in H5.
    destruct s as [|a [|b [|c [|d [|e s]]]]]; cbn [length] in H5; try lia.
    cbn in E1. injection E1 as <- <-. cbn in E2. by injection E2 as <- <-. }
  destruct (r_s_u8 _ _ _ E1) as [S1 _], (r_s_u32 _ _ _ E2) as [_ O2].
  apply u8_backward in E1 as [T1 B1]; [|auto..].
  apply u32_backward in E2 as [T2 B2]; [|done|by rewrite S1].
  destruct (took_trans _ _ _ _ _ T1 T2) as (_ & -> & HT). unfold rest in HT; cbn in HT.
  rewrite HT at 1. done.
Qed.

Lemma parse_frame_got s m r :
  parse_frame s = Got m r -> bytes_ok s ->
  exists u, byte_ok u /\ flag_of m u /\ msg_wf m /\ s = frame_with u m ++ r.
Proof.
  unfold parse_frame. intros H Hs.
  destruct (Z.ltb_spec (zlen s) kHeaderSize) as [|H5]; [done|].
  destruct (header s) as [t len] eqn:Hh. pose proof (header_len_nonneg _ _ _ Hh) as Hlen.
  destruct (Z.ltb_spec kMaxMessageBytes len); [done|].
  destruct (Z.ltb_spec (zlen s) (kHeaderSize + len)); [done|].
  destruct (tag_of t) as [tg|] eqn:Ht; [|done].
  destruct (read_msg tg _) as [m' r'] eqn:E.
  destruct (r_ok r') eqn:Hok; cbn [andb] in H; [|done].
  destruct (Z.eqb_spec (Z.of_nat (r_i r')) len) as [Hi|]; [|done]. injection H as -> <-.
  apply header_backward in Hh; [|done..].
  apply read_msg_backward in E as (Htag & Hfits & u & Hu & Hfl & (_ & -> & HT)); [|done|].
  2:{ cbn. apply Forall_take, Forall_drop, Hs. }
  cbn [advance r_i] in Hi. rewrite Nat.add_0_l in Hi. fold (zlen (be_body_with u m)) in Hi.
  assert (take (Z.to_nat len) (drop 5 s) = be_body_with u m) as Hbody.
  { unfold rest in HT. cbn [r_s r_i advance] in HT. rewrite Nat.add_0_l, drop_0 in HT.
    rewrite HT at 1. rewrite <- Hi. unfold zlen.
    rewrite drop_ge; [by rewrite app_nil_r|]. rewrite length_take, length_drop.
    unfold zlen in Hi. lia. }
  exists u. split_and!; [done..| |].
  - split; [destruct m; cbn in Hfits |- *; tauto|].
    rewrite (body_of_fits m Hfits). cbn [snd]. rewrite <- (zlen_be_body_with u m). lia.
  - rewrite Hh at 1. unfold frame_with. rewrite Hi, Htag. cbn [app]. f_equal.
    { revert Ht. unfold tag_of. zcases; intros [= <-]; cbn; lia. }
    rewrite <- app_assoc. f_equal. rewrite <- Hbody.
    rewrite <- (take_drop (Z.to_nat len) (drop 5 s)) at 1. f_equal. rewrite drop_drop. f_equal.
    unfold kHeaderSize. lia.
Qed.

(** ** Any history of calls *)

Lemma compact_failed d : failed (compact d) = failed d.
Proof. unfold compact. by repeat case_match. Qed.

Inductive decoder_op := OpFeed (bs : bytes) | OpNext.

Section History.
Context (grow : Z -> Z -> Z) (shrink : Z -> Z).

Definition decoder_step (d : decoder) (o : decoder_op) : decoder :=
  match o with
  | OpFeed bs => feed grow shrink d bs
  | OpNext => (next shrink d).2
  end.

Lemma decoder_step_ok d o :
  decoder_ok d -> decoder_ok (decoder_step d o) /\
  (failed d = true -> decoder_step d o = d).
Proof.
  intros Hd. destruct o as [bs|]; cbn [decoder_step].
  - split; [|by unfold feed; intros ->].
    destruct (Z.leb_spec (zlen (unread d) + zlen bs) kMaxBufferBytes).
    + by apply feed_view.
    + unfold feed. destruct (failed d); [done|]. destruct (length bs =? 0)%nat; [done|].
      destruct Hd as (Hp & _). rewrite <- zlen_unread by done.
      zrw_true (kMaxBufferBytes <? zlen (unread d) + zlen bs). apply fail_ok.
  - unfold next. destruct (failed d) eqn:Hf; [done|]. split; [|done].
    pose proof (next_loop_parse shrink (S (length (buf d))) d Hd Hf) as Hn.
    pose proof (length_unread d). destruct (next_loop _ _ d) as [om d'].
    apply Hn. lia.
Qed.

Lemma next_loop_failed fuel d :
  failed d = false -> failed (next_loop shrink fuel d).2 = true ->
  buf (next_loop shrink fuel d).2 = [].
Proof.
  revert d. induction fuel as [|fuel IH]; intros d Hf; cbn; [congruence|].
  destruct (_ <? kHeaderSize); [cbn; congruence|].
  destruct (u8 _) as [t r1], (u32 r1) as [len r2].
  destruct (_ <? len); [done|]. destruct (_ <? _); [cbn; congruence|].
  destruct (tag_of t).
  - destruct (read_msg _ _) as [m r]. destruct (_ || _); [done|]. cbn [snd].
    match goal with |- context [compact ?x] => pose proof (compact_failed x) as -> end.
    cbn. congruence.
  - apply IH. by rewrite compact_failed.
Qed.

Lemma decoder_step_failed d o :
  (failed d = true -> buf d = []) ->
  failed (decoder_step d o) = true -> buf (decoder_step d o) = [].
Proof.
  intros H. destruct o as [bs|]; cbn [decoder_step].
  - unfold feed. destruct (failed d) eqn:E; [auto|].
    destruct (_ =? _)%nat; [by rewrite E|]. by destruct (_ <? _).
  - unfold next. destruct (failed d) eqn:E; [auto|]. by apply next_loop_failed.
Qed.

Lemma decoder_history_ok ops d :
  decoder_ok d -> decoder_ok (fold_left decoder_step ops d) /\
  (failed d = true -> fold_left decoder_step ops d = d).
Proof.
  revert d. induction ops as [|o ops IH]; intros d Hd; [done|]. cbn.
  destruct (decoder_step_ok d o Hd) as [H1 H2]. split; [by apply IH|].
  intros Hf. rewrite (H2 Hf). by apply IH.
Qed.
End History.

Lemma parse_frame_skipped s r :
  parse_frame s = Skip r ->
  exists w, s = w ++ r /\ parse w = ([], Some []).
Proof.
  intros H. unfold parse_frame in H.
  destruct (Z.ltb_spec (zlen s) kHeaderSize) as [|H5]; [done|].
  destruct (header s) as [t len] eqn:Hh. pose proof (header_len_nonneg _ _ _ Hh) as Hlen.
  destruct (Z.ltb_spec kMaxMessageBytes len) as [|Hmax]; [done|].
  destruct (Z.ltb_spec (zlen s) (kHeaderSize + len)) as [|Hl]; [done|].
  destruct (tag_of t) eqn:Ht; [by destruct (read_msg _ _), (_ && _)|]. injection H as <-.
  set (n := Z.to_nat (kHeaderSize + len)). exists (take n s).
  split; [by rewrite take_drop|].
  assert (zlen (take n s) = kHeaderSize + len) as Hz.
  { unfold zlen, n, kHeaderSize in *. rewrite length_take. lia. }
  rewrite parse_unfold. unfold parse_frame. rewrite Hz. zrw_false (kHeaderSize + len <? kHeaderSize).
  assert (header (take n s) = (t, len)) as ->.
  { rewrite <- Hh. rewrite <- (take_drop n s) at 2. symmetry. apply header_app. lia. }
  zrw_false (kMaxMessageBytes <? len). rewrite Z.ltb_irrefl, Ht. fold n.
  rewrite drop_ge by (rewrite length_take; lia). done.
Qed.

Lemma next_loop_frames shrink fuel d m d' :
  failed d = false -> decoder_ok d -> bytes_ok (unread d) ->
  next_loop shrink fuel d = (Some m, d') ->
  exists skipped u,
    unread d = skipped ++ frame_with u m ++ unread d' /\
    parse skipped = ([], Some []) /\ flag_of m u /\ msg_wf m /\ failed d' = false.
Proof.
  revert d. induction fuel as [|fuel IH]; intros d Hf Hd Hb H; [done|].
  pose proof (next_turn shrink fuel d Hd Hf) as Ht.
  destruct (parse_frame (unread d)) as [| |r|m' r] eqn:E.
  - congruence.
  - destruct Ht as (d2 & Ht & _). congruence.
  - destruct Ht as (d2 & Ht & (Hf2 & <-)%view_unread & Hd2).
    apply parse_frame_skipped in E as (w & Hw & Hpw). rewrite Ht in H.
    assert (bytes_ok (unread d2)) as Hb2.
    { rewrite Hw in Hb. by apply Forall_app in Hb as [_ ?]. }
    destruct (IH d2 Hf2 Hd2 Hb2 H) as (sk & u & Hu & Hps & ?).
    exists (w ++ sk), u. rewrite Hw, Hu, <- app_assoc. split_and!; try tauto.
    by rewrite parse_app, Hpw; cbn [seq_parse app]; rewrite Hps.
  - destruct Ht as (d2 & Ht & (Hf2 & <-)%view_unread & Hd2). rewrite Ht in H.
    injection H as <- <-. apply parse_frame_got in E as (u & _ & Hfl & Hwf & Hs); [|done].
    exists [], u. done.
Qed.

Lemma decoder_init_ok : decoder_ok decoder_init.
Proof. split_and!; [done|by vm_compute|left; by vm_compute]. Qed.

(** ** Properties *)

(** C21: However the byte stream is cut into reads (of at most 1 MiB) and
    whatever the bytes are, feeding each read and draining the decoder after it
    yields exactly the messages of the parse of the whole stream, and ends
    failed exactly when the stream violates the protocol; otherwise what is
    buffered is the incomplete tail. *)
Theorem receive_refines_parse grow shrink chunks :
  Forall (fun c => zlen c <= 1024 * 1024) chunks ->
  let '(ms, d) := receive grow shrink decoder_init chunks in
  parse (concat chunks) = (ms, view d).
Proof.
  intros Hc.
  pose proof (receive_parse grow shrink chunks decoder_init decoder_init_ok) as H.
  destruct (receive _ _ _ _) as [ms d]. apply H; [by intros s [= <-]|done].
Qed.

Definition demo_stream : list bytes :=
  [[5; 0; 0; 0; 6; 0; 0]; [0; 2; 104]; []; [105; 99; 0; 0; 0; 1; 7; 6; 0; 0; 0; 4; 0; 80; 0; 24; 2; 0]].

Lemma receive_refines_parse_witness :
  Forall (fun c => zlen c <= 1024 * 1024) demo_stream /\
  let '(ms, d) := receive (fun _ n => n) (fun _ => 0) decoder_init demo_stream in
  parse (concat demo_stream) = (ms, view d).
Proof.
  assert (Forall (fun c => zlen c <= 1024 * 1024) demo_stream) as H
    by (apply (bool_decide_unpack _); by vm_compute).
  split; [exact H|apply (receive_refines_parse _ _ _ H)].
Defined.

Example demo_messages :
  (receive (fun _ n => n) (fun _ => 0) decoder_init demo_stream).1
  = [MInput (str "hi"); MResize 80 24].
Proof. by vm_compute. Qed.

(** Messages survive the wire: any sequence of messages within the size cap,
    encoded back to back and delivered in any chunks of at most 1 MiB, comes out
    of the decoder as the same sequence, with nothing left over and no failure. *)
Theorem messages_survive_chunking grow shrink ms chunks :
  Forall msg_wf ms -> concat chunks = concat (encode <$> ms) ->
  Forall (fun c => zlen c <= 1024 * 1024) chunks ->
  let '(ms', d) := receive grow shrink decoder_init chunks in
  ms' = ms /\ failed d = false /\ unread d = [].
Proof.
  intros Hms Heq Hc.
  pose proof (receive_parse grow shrink chunks decoder_init decoder_init_ok) as H.
  destruct (receive _ _ _ _) as [ms' d].
  destruct H as [_ H]; [by intros s [= <-]|done|]. cbn [view decoder_init failed fmap
    option_fmap option_map parse_view unread pos buf drop app] in H.
  rewrite Heq, parse_encoded in H by done. injection H as -> Hv. split; [done|].
  by apply view_unread.
Qed.

Definition demo_hello : msg :=
  MHello (Hello 1 132 43 (str "xterm") [] true [(str "LANG", str "fr_FR")]).

Lemma messages_survive_chunking_witness :
  let chunks := (fun b => [b]) <$> concat (encode <$> [demo_hello; MInput [27; 91; 65]]) in
  let '(ms', d) := receive (fun _ n => n) (fun _ => 0) decoder_init chunks in
  ms' = [demo_hello; MInput [27; 91; 65]] /\ failed d = false /\ unread d = [].
Proof.
  apply (messages_survive_chunking (fun _ n => n) (fun _ => 0)).
  - apply (bool_decide_unpack _). by vm_compute.
  - by vm_compute.
  - apply (bool_decide_unpack _). by vm_compute.
Defined.

(** Whatever bytes a peer sends, in whatever order of [feed] and [next]
    calls: the read position stays inside the buffer, the unread part never
    exceeds [kMaxBufferBytes], the whole buffer never exceeds twice that, and a
    failed decoder stays failed with an empty buffer. *)
Theorem decoder_bounded grow shrink ops1 ops2 :
  let d := fold_left (decoder_step grow shrink) ops1 decoder_init in
  (pos d <= length (buf d))%nat /\
  zlen (unread d) <= kMaxBufferBytes /\
  zlen (buf d) <= 2 * kMaxBufferBytes /\
  (failed d = true -> buf d = [] /\
     fold_left (decoder_step grow shrink) ops2 d = d).
Proof.
  intros d. destruct (decoder_history_ok grow shrink ops1 decoder_init decoder_init_ok)
    as [Hd _]. fold d in Hd.
  pose proof Hd as (Hp & Hu & Hc). pose proof (zlen_unread d Hp). split_and!; [done..| |].
  - unfold kMaxBufferBytes, kMaxMessageBytes, kHeaderSize, kCompactMinSize in *. lia.
  - intros Hf. split; [|by apply decoder_history_ok].
    assert (forall ops d0, decoder_ok d0 -> (failed d0 = true -> buf d0 = []) ->
      failed (fold_left (decoder_step grow shrink) ops d0) = true ->
      buf (fold_left (decoder_step grow shrink) ops d0) = []) as Hind.
    { clear. induction ops as [|o ops IH]; intros d0 Hd0 H0 Hf; [by apply H0|].
      cbn in *. destruct (decoder_step_ok grow shrink d0 o Hd0) as [Hd1 Hst].
      apply (IH _ Hd1); [|done]. by apply decoder_step_failed. }
    apply (Hind ops1 decoder_init decoder_init_ok); done.
Qed.

(** The decoder is strict: a message it returns stood in the unread bytes
    as a frame that re-encodes it (up to the value of a true [utf8] flag),
    behind nothing but frames of unknown tag, and within the size cap; what
    follows the frame is what remains unread. *)
Theorem next_returns_frames shrink d m d' :
  decoder_ok d -> bytes_ok (unread d) -> next shrink d = (Some m, d') ->
  exists skipped u,
    unread d = skipped ++ frame_with u m ++ unread d' /\
    parse skipped = ([], Some []) /\ flag_of m u /\ msg_wf m /\ failed d' = false.
Proof.
  intros Hd Hb H. unfold next in H. destruct (failed d) eqn:Hf; [done|].
  by apply (next_loop_frames shrink) in H.
Qed.

Definition demo_decoder : decoder :=
  feed (fun _ n => n) (fun _ => 0) decoder_init
    ([9; 0; 0; 0; 1; 42] ++ encode (MResize 80 24) ++ [1; 2]).

Lemma next_returns_frames_witness :
  exists skipped u,
    unread demo_decoder
      = skipped ++ frame_with u (MResize 80 24) ++ unread (next (fun _ => 0) demo_decoder).2 /\
    parse skipped = ([], Some []) /\ flag_of (MResize 80 24) u /\
    msg_wf (MResize 80 24) /\ failed (next (fun _ => 0) demo_decoder).2 = false.
Proof.
  apply (next_returns_frames (fun _ => 0) demo_decoder).
  - split_and!; [apply (bool_decide_unpack _); by vm_compute|by vm_compute|left; by vm_compute].
  - apply (bool_decide_unpack _). by vm_compute.
  - by vm_compute.
Defined.
