(* ===== verification/OutQueue.v ===== *)
(** * The output queue: [src/common/outqueue.hpp], [src/common/outqueue.cpp]

    A byte buffer with a sent prefix, a ceiling, and a verdict on what an
    overflow left on the wire.  The kernel is a list of answers to [send]: one
    per call, in order. *)

From S2P Require Import Prelude.

(** ** The queue *)

Inductive overflow := ONone | OClean | ODirty.

(** The underlying value of [enum class Overflow], which [push] compares. *)
Definition severity (o : overflow) : Z :=
  match o with ONone => 0 | OClean => 1 | ODirty => 2 end.

Record outqueue := OutQueue {
  q_buf : bytes;
  q_off : nat;
  q_ceiling : Z;
  q_overflow : overflow;
}.

Definition outqueue_new (ceiling : Z) : outqueue := OutQueue [] 0 ceiling ONone.

Definition wants_write (q : outqueue) : bool := (q_off q <? length (q_buf q))%nat.
Definition size (q : outqueue) : Z := zlen (q_buf q) - Z.of_nat (q_off q).

(** Both branches of [release_buffer] leave an empty buffer; they differ only
    in the allocation they keep. *)
Definition release_buffer (q : outqueue) : outqueue :=
  OutQueue [] 0 (q_ceiling q) (q_overflow q).

Definition merge (old this_rejection : overflow) : overflow :=
  if severity old <? severity this_rejection then this_rejection else old.

Definition push (q : outqueue) (bs : bytes) : outqueue :=
  let current := size q in
  if q_ceiling q - current <? zlen bs then
    let had_partial_send := (0 <? q_off q)%nat in
    let this_rejection := if had_partial_send then ODirty else OClean in
    release_buffer (OutQueue (q_buf q) (q_off q) (q_ceiling q)
                      (merge (q_overflow q) this_rejection))
  else OutQueue (q_buf q ++ bs) (q_off q) (q_ceiling q) (q_overflow q).

Definition compact (q : outqueue) : outqueue :=
  if (q_off q =? 0)%nat then q
  else if (q_off q =? length (q_buf q))%nat then release_buffer q
  else if Z.shiftl 1 16 <? Z.of_nat (q_off q) then
    OutQueue (drop (q_off q) (q_buf q)) 0 (q_ceiling q) (q_overflow q)
  else q.

(** What [send] returned: [n > 0] bytes taken, or [errno].  [SentNone] is a
    return of 0. *)
Inductive sent := Sent (n : Z) | EAgain | EIntr | EOther | SentNone.

(** The loop of [flush], one kernel answer per turn; it returns the queue, the
    bytes put on the wire and whether the link is still usable.  A kernel that
    has not answered yet leaves the call running: [None]. *)
Fixpoint flush (answers : list sent) (q : outqueue) : option (outqueue * bytes * bool) :=
  if (q_off q <? length (q_buf q))%nat then
    match answers with
    | [] => None
    | Sent n :: answers =>
        let out := take (Z.to_nat n) (drop (q_off q) (q_buf q)) in
        let q := OutQueue (q_buf q) (q_off q + Z.to_nat n) (q_ceiling q) (q_overflow q) in
        '(q, out', ok) ← flush answers q;
        Some (q, out ++ out', ok)
    | EAgain :: _ => Some (compact q, [], true)
    | EIntr :: answers => flush answers q
    | (EOther | SentNone) :: _ => Some (q, [], false)
    end
  else Some (compact q, [], true).

Definition take_overflow (q : outqueue) : overflow * outqueue :=
  (q_overflow q, OutQueue (q_buf q) (q_off q) (q_ceiling q) ONone).

(** [send] never takes more than it was given, and 0 is not a success. *)
Fixpoint answers_ok (answers : list sent) (left : Z) : Prop :=
  match answers with
  | [] => True
  | Sent n :: answers => 0 < n <= left /\ answers_ok answers (left - n)
  | EIntr :: answers => answers_ok answers left
  | (EAgain | EOther | SentNone) :: _ => True
  end.

(** ** Histories

    A link is the queue with three ghosts: the bytes on the wire, the bytes
    accepted since the last rejection that were on their way (wire followed by
    what is pending), and how many bytes of the current buffer were already
    sent when it last was non-empty. *)

Record link := Link {
  l_q : outqueue;
  l_wire : bytes;
  l_mid : Z;
}.

Definition pending (q : outqueue) : bytes := drop (q_off q) (q_buf q).

Definition rejects (q : outqueue) (bs : bytes) : bool := q_ceiling q - size q <? zlen bs.

Inductive link_step : link -> link -> Prop :=
  | step_push q w mid bs :
      link_step (Link q w mid) (Link (push q bs) w (if rejects q bs then 0 else mid))
  | step_flush q w mid answers q' out :
      answers_ok answers (zlen (pending q)) ->
      flush answers q = Some (q', out, true) ->
      link_step (Link q w mid)
        (Link q' (w ++ out) (if wants_write q' then mid + zlen out else 0))
  | step_take q w mid :
      link_step (Link q w mid) (Link (take_overflow q).2 w mid).

Definition queue_ok (q : outqueue) : Prop :=
  (q_off q <= length (q_buf q))%nat /\ 0 <= size q <= q_ceiling q.

(** Between calls the sent prefix of a buffer is short: [compact] has run. *)
Definition link_ok (l : link) : Prop :=
  queue_ok (l_q l) /\ Z.of_nat (q_off (l_q l)) <= 65536 /\
  (Z.of_nat (q_off (l_q l)) = l_mid l \/ 65536 < l_mid l) /\
  (q_off (l_q l) = 0%nat \/ wants_write (l_q l) = true).

#[export] Instance link_ok_dec l : Decision (link_ok l).
Proof. unfold link_ok, queue_ok. apply _. Defined.

Lemma size_pending q : (q_off q <= length (q_buf q))%nat -> size q = zlen (pending q).
Proof. unfold size, pending, zlen. rewrite length_drop. lia. Qed.

Lemma push_spec q bs :
  queue_ok q ->
  queue_ok (push q bs) /\ q_ceiling (push q bs) = q_ceiling q /\
  if rejects q bs then pending (push q bs) = [] /\ q_off (push q bs) = 0%nat
  else pending (push q bs) = pending q ++ bs /\ q_off (push q bs) = q_off q /\
       q_overflow (push q bs) = q_overflow q.
Proof.
  intros [Ho Hs]. unfold push, rejects. pose proof (zlen_nonneg bs).
  destruct (Z.ltb_spec (q_ceiling q - size q) (zlen bs)); unfold queue_ok, pending, size in *;
    cbn [q_buf q_off q_ceiling q_overflow release_buffer].
  - split_and!; try done; unfold zlen in *; cbn; lia.
  - rewrite zlen_app, length_app, drop_app_le by done. split_and!; try done; lia.
Qed.

(** What [compact] keeps and what it bounds. *)
Lemma compact_spec q :
  (q_off q <= length (q_buf q))%nat ->
  pending (compact q) = pending q /\ q_ceiling (compact q) = q_ceiling q /\
  q_overflow (compact q) = q_overflow q /\
  (q_off (compact q) <= length (q_buf (compact q)))%nat /\
  Z.of_nat (q_off (compact q)) <= 65536 /\
  (q_off (compact q) = 0%nat \/ wants_write (compact q) = true) /\
  (Z.of_nat (q_off (compact q)) = Z.of_nat (q_off q) \/ wants_write (compact q) = false \/
   65536 < Z.of_nat (q_off q)).
Proof.
  intros Ho. unfold compact. destruct (Nat.eqb_spec (q_off q) 0) as [E|].
  { rewrite E. split_and!; try done; lia || by left. }
  destruct (Nat.eqb_spec (q_off q) (length (q_buf q))) as [E|Hne]; cbn.
  { split_and!; try done; try lia; try (by left); try (by right; left).
    unfold pending; cbn. by rewrite E, drop_all. }
  change (Z.shiftl 1 16) with 65536.
  destruct (Z.ltb_spec 65536 (Z.of_nat (q_off q))); cbn; split_and!; try done; try lia;
    try (by left); try (by right; right).
  right. unfold wants_write. apply Nat.ltb_lt. lia.
Qed.

Lemma flush_spec answers q q' out ok :
  (q_off q <= length (q_buf q))%nat -> answers_ok answers (zlen (pending q)) ->
  flush answers q = Some (q', out, ok) ->
  pending q = out ++ pending q' /\ q_ceiling q' = q_ceiling q /\
  q_overflow q' = q_overflow q /\ (q_off q' <= length (q_buf q'))%nat /\
  (ok = true ->
   Z.of_nat (q_off q') <= 65536 /\
   (q_off q' = 0%nat \/ wants_write q' = true) /\
   (Z.of_nat (q_off q') = Z.of_nat (q_off q) + zlen out \/ wants_write q' = false \/
    65536 < Z.of_nat (q_off q) + zlen out)).
Proof.
  revert q q' out. induction answers as [|a answers IH]; intros q q' out Ho Ha; cbn [flush].
  all: destruct (Nat.ltb_spec (q_off q) (length (q_buf q))) as [Hlt|Hge];
    [|intros [= <- <- <-]; destruct (compact_spec q Ho) as (? & ? & ? & ? & ? & ? & ?);
      rewrite (@zlen_nil Z), Z.add_0_r; split_and!; try done; intros _; split_and!; done].
  { done. }
  destruct a as [n| | | |].
  - set (q1 := OutQueue (q_buf q) (q_off q + Z.to_nat n) (q_ceiling q) (q_overflow q)).
    destruct (flush answers q1) as [[[q2 out2] ok2]|] eqn:E; [|done]. intros [= <- <- <-].
    destruct Ha as [Hn Ha].
    assert (pending q = take (Z.to_nat n) (pending q) ++ pending q1) as Hp.
    { unfold pending, q1. cbn. rewrite <- drop_drop. by rewrite take_drop. }
    assert (zlen (pending q1) = zlen (pending q) - n) as Hl1.
    { unfold zlen, pending, q1 in *. cbn. rewrite !length_drop in *. lia. }
    unfold pending, zlen in Hn. rewrite length_drop in Hn.
    apply IH in E as (Hp2 & Hc & Hov & Ho2 & Hrest); [|cbn; lia|by rewrite Hl1].
    rewrite <- app_assoc, <- Hp2. split_and!; try done. intros ->.
    destruct (Hrest eq_refl) as (H1 & H2 & H3). split_and!; [done..|].
    unfold zlen in *. rewrite length_app, length_take, length_drop. cbn [q1 q_off] in H3.
    destruct H3 as [H3|[H3|H3]]; [left|by right; left|right; right]; lia.
  - intros [= <- <- <-]; destruct (compact_spec q Ho) as (? & ? & ? & ? & ? & ? & ?);
      rewrite (@zlen_nil Z), Z.add_0_r; split_and!; try done; intros _; split_and!; done.
  - by apply IH.
  - intros [= <- <- <-]. done.
  - intros [= <- <- <-]. done.
Qed.

Lemma link_step_ok l l' : link_ok l -> link_step l l' -> link_ok l'.
Proof.
  intros (Hq & Hoff & Hmid & Hww) Hstep. destruct Hstep as [q w mid bs|q w mid answers q' out Ha Hf|q w mid];
    cbn [l_q l_wire l_mid] in *.
  - destruct (push_spec q bs Hq) as (Hq' & _ & Hcase).
    split; [done|]. destruct (rejects q bs); cbn [l_q l_mid].
    + destruct Hcase as [_ ->]. split_and!; [lia|by left|by left].
    + destruct Hcase as (Hp & -> & _). split_and!; [done..|].
      destruct Hww as [|Hww]; [by left|right]. destruct Hq as [Ho _], Hq' as [Ho' _].
      unfold wants_write in *. apply Nat.ltb_lt in Hww. apply Nat.ltb_lt.
      apply (f_equal length) in Hp. unfold pending in Hp.
      rewrite length_app, !length_drop in Hp. lia.
  - destruct Hq as [Ho Hs]. pose proof (size_pending q Ho) as Hsz.
    apply flush_spec in Hf as (Hp & Hc & _ & Ho' & Hr); [|done..].
    destruct (Hr eq_refl) as (H1 & H2 & H3).
    pose proof (size_pending q' Ho') as Hsz'. pose proof (zlen_nonneg (pending q')).
    pose proof (zlen_nonneg out).
    split_and!; cbn [l_q l_mid]; [split; [done|]|done| |done].
    + rewrite Hsz, Hp, zlen_app in Hs. lia.
    + destruct (wants_write q') eqn:Hw'; [|destruct H2; [left; lia|done]].
      destruct H3 as [H3|[|]]; [|done|]; destruct Hmid; lia.
  - done.
Qed.

(** ** Properties *)

(** No byte is lost, duplicated or reordered on the way out: as long as no
    push is rejected, the bytes on the wire followed by the bytes still queued
    are the bytes pushed, in order, whatever the kernel answers (partial
    writes, [EAGAIN], [EINTR], errors); a rejected push drops exactly what was
    queued and itself, and the poll flag is armed exactly while bytes wait. *)
Theorem link_step_stream q w mid :
  link_ok (Link q w mid) ->
  (forall bs, w ++ pending (push q bs) = if rejects q bs then w else (w ++ pending q) ++ bs) /\
  (forall answers q' out, answers_ok answers (zlen (pending q)) -> flush answers q = Some (q', out, true) ->
     (w ++ out) ++ pending q' = w ++ pending q) /\
  pending (take_overflow q).2 = pending q /\
  (forall q, wants_write q = negb (bool_decide (pending q = []))).
Proof.
  intros (Hq & _). cbn [l_q] in Hq.
  assert (forall q, wants_write q = negb (bool_decide (pending q = []))) as Hw.
  { intros x. unfold wants_write, pending. destruct (Nat.ltb_spec (q_off x) (length (q_buf x))).
    - rewrite bool_decide_false; [done|]. intros E. apply (f_equal length) in E.
      rewrite length_drop in E. cbn in E. lia.
    - rewrite bool_decide_true; [done|]. by apply drop_ge. }
  split_and!; [intros bs|intros answers q' out Ha Hf|done|exact Hw].
  - destruct (push_spec q bs Hq) as (_ & _ & Hcase). destruct (rejects q bs).
    + destruct Hcase as [-> _]. apply app_nil_r.
    + destruct Hcase as (-> & _). apply app_assoc.
  - destruct Hq as [Ho _]. apply flush_spec in Hf as (-> & _); [|done..]. by rewrite app_assoc.
Qed.

Lemma link_step_stream_witness :
  let q := push (outqueue_new 10) [1; 2; 3] in
  [1; 2] ++ pending (OutQueue [1; 2; 3] 2 10 ONone) = pending q.
Proof.
  assert (link_ok (Link (push (outqueue_new 10) [1; 2; 3]) [] 0)) as Hl by (apply (bool_decide_unpack _); by vm_compute).
  destruct (link_step_stream _ _ _ Hl) as (_ & H & _).
  apply (H [Sent 2; EIntr; EAgain] (OutQueue [1; 2; 3] 2 10 ONone) [1; 2]); [by vm_compute|reflexivity].
Defined.

(** C22: The queue is bounded on every history of pushes, usable flushes and
    overflow reads: what waits never exceeds the ceiling, and the physical
    buffer never exceeds it by more than 64 KiB of sent prefix. *)
Theorem outqueue_bounded ceiling l :
  0 <= ceiling -> rtc link_step (Link (outqueue_new ceiling) [] 0) l ->
  0 <= size (l_q l) <= q_ceiling (l_q l) /\
  zlen (q_buf (l_q l)) <= q_ceiling (l_q l) + 65536.
Proof.
  intros Hc Hr. enough (link_ok l) as ((_ & Hs) & Hoff & _).
  { unfold size in *. lia. }
  revert Hr. apply (rtc_ind_r (fun l => link_ok l) (Link (outqueue_new ceiling) [] 0)).
  - unfold link_ok, queue_ok, size, zlen; cbn; split_and!; first [lia | done | by left | by right].
  - intros y z _ Hyz Hy. by eapply link_step_ok.
Qed.

Lemma outqueue_bounded_witness :
  let l := Link (push (outqueue_new 10) [1; 2; 3]) [] 0 in
  0 <= size (l_q l) <= q_ceiling (l_q l) /\
  zlen (q_buf (l_q l)) <= q_ceiling (l_q l) + 65536.
Proof.
  apply (outqueue_bounded 10); [lia|]. apply rtc_once.
  exact (step_push (outqueue_new 10) [] 0 [1; 2; 3]).
Defined.

(** The verdict on an overflow is exact as long as no partial flush has moved
    more than 64 KiB of the rejected buffer: it is Dirty exactly when part of
    what is dropped had been sent, and a pending verdict never improves. *)
Theorem overflow_verdict l bs :
  link_ok l -> l_mid l <= 65536 -> rejects (l_q l) bs = true ->
  q_overflow (push (l_q l) bs)
  = (if 0 <? l_mid l then ODirty
     else match q_overflow (l_q l) with ODirty => ODirty | _ => OClean end) /\
  severity (q_overflow (l_q l)) <= severity (q_overflow (push (l_q l) bs)).
Proof.
  intros (_ & _ & Hmid & _) Hm Hr. assert (l_mid l = Z.of_nat (q_off (l_q l))) as -> by lia.
  unfold push, rejects in *. rewrite Hr. unfold merge, release_buffer.
  destruct (q_off (l_q l)), (q_overflow (l_q l)); cbn; (split; [done|lia]).
Qed.

Lemma overflow_verdict_witness :
  let l := Link (OutQueue [1; 2; 3] 2 4 ONone) [1; 2] 2 in
  q_overflow (push (l_q l) [7; 8; 9; 10])
  = (if 0 <? l_mid l then ODirty
     else match q_overflow (l_q l) with ODirty => ODirty | _ => OClean end) /\
  severity (q_overflow (l_q l)) <= severity (q_overflow (push (l_q l) [7; 8; 9; 10])).
Proof.
  apply overflow_verdict; [|cbn; lia|reflexivity].
  apply (bool_decide_unpack _). by vm_compute.
Defined.

(** Past 64 KiB the verdict is wrong: when the kernel takes more than 65536
    bytes of a frame, but not all of it, before it blocks, the next push that
    overflows is reported as Clean although the peer holds a strict prefix of
    the frame. *)
Theorem overflow_clean_after_partial_send (frame extra : bytes) (ceiling k : Z) :
  65536 < k < zlen frame -> zlen frame <= ceiling ->
  ceiling < zlen frame - k + zlen extra ->
  exists q1 q2 wire,
    flush [Sent k; EAgain] (push (outqueue_new ceiling) frame) = Some (q1, wire, true) /\
    wire = take (Z.to_nat k) frame /\ wire <> [] /\ wire <> frame /\
    q2 = push q1 extra /\ pending q2 = [] /\ (take_overflow q2).1 = OClean.
Proof.
  intros Hk Hc He. pose proof (zlen_nonneg frame).
  unfold push at 1, size. cbn [outqueue_new q_buf q_off q_ceiling q_overflow].
  rewrite (@zlen_nil Z). change (Z.of_nat 0) with 0.
  zrw_false (ceiling - (0 - 0) <? zlen frame). cbn [app].
  cbn [flush q_buf q_off q_ceiling q_overflow]. unfold zlen in *.
  rewrite (proj2 (Nat.ltb_lt 0 (length frame))) by lia. rewrite Nat.add_0_l.
  rewrite (proj2 (Nat.ltb_lt (Z.to_nat k) (length frame))) by lia. cbn [mbind option_bind].
  rewrite drop_0, app_nil_r. unfold compact. cbn [q_buf q_off q_ceiling q_overflow].
  rewrite (proj2 (Nat.eqb_neq (Z.to_nat k) 0)) by lia.
  rewrite (proj2 (Nat.eqb_neq (Z.to_nat k) (length frame))) by lia.
  change (Z.shiftl 1 16) with 65536. zrw_true (65536 <? Z.of_nat (Z.to_nat k)).
  do 3 eexists. split; [done|].
  assert (length (take (Z.to_nat k) frame) = Z.to_nat k) as Ht by (rewrite length_take; lia).
  assert (forall q, q = OutQueue (drop (Z.to_nat k) frame) 0 ceiling ONone ->
    push q extra = OutQueue [] 0 ceiling OClean) as Hp.
  { intros q ->. unfold push, size, release_buffer. cbn [q_buf q_off q_ceiling q_overflow].
    unfold zlen. rewrite length_drop. change (Z.of_nat 0) with 0.
    by zrw_true (ceiling - (Z.of_nat (length frame - Z.to_nat k) - 0)
      <? Z.of_nat (length extra)). }
  split_and!; [done|..|done|by rewrite Hp|by rewrite Hp].
  - intros E. rewrite E in Ht. cbn in Ht. lia.
  - intros E. rewrite E in Ht. lia.
Qed.

Definition demo_frame : bytes := repeat 65 (Z.to_nat 70000).

Lemma overflow_clean_after_partial_send_witness :
  exists q1 q2 wire,
    flush [Sent 65537; EAgain] (push (outqueue_new 70000) demo_frame) = Some (q1, wire, true) /\
    wire = take (Z.to_nat 65537) demo_frame /\ wire <> [] /\ wire <> demo_frame /\
    q2 = push q1 demo_frame /\ pending q2 = [] /\ (take_overflow q2).1 = OClean.
Proof.
  assert (zlen demo_frame = 70000) as H by (by vm_compute).
  apply (overflow_clean_after_partial_send demo_frame demo_frame 70000 65537); lia.
Defined.
