(* ===== verification/FrameClock.v ===== *)
(** * The frame clock: [src/common/frameclock.hpp]

    A dirty flag and a rate limit.  Time points and durations of the steady
    clock are integers in nanoseconds; [duration_cast] truncates towards zero
    and [static_cast<int>] wraps at 32 bits. *)

From S2P Require Import Prelude.

Record frameclock := FrameClock {
  min_interval : Z;          (* milliseconds *)
  last : option Z;           (* nanoseconds *)
  dirty : bool;
}.

Definition frameclock_new (min_interval : Z) : frameclock := FrameClock min_interval None false.

Definition mark_dirty (c : frameclock) : frameclock := FrameClock (min_interval c) (last c) true.

Definition to_int32 (v : Z) : Z := (v + 2147483648) mod 4294967296 - 2147483648.

(** [duration_cast<milliseconds>]. *)
Definition ms_of_ns (ns : Z) : Z := Z.quot ns 1000000.

Definition delay_ms (c : frameclock) (now : Z) : Z :=
  if negb (dirty c) then -1
  else match last c with
       | None => 0
       | Some last =>
           let elapsed := ms_of_ns (now - last) in
           if min_interval c <=? elapsed then 0 else to_int32 (min_interval c - elapsed)
       end.

Definition note_render (c : frameclock) (now : Z) : frameclock :=
  FrameClock (min_interval c) (Some now) false.

Definition reset (c : frameclock) : frameclock := FrameClock (min_interval c) None false.

(** ** The event loop's use of it: a tick renders when the delay is 0 *)

Inductive clock_event := Mark | Tick (now : Z).

Definition clock_step (st : frameclock * list Z) (e : clock_event) : frameclock * list Z :=
  let '(c, renders) := st in
  match e with
  | Mark => (mark_dirty c, renders)
  | Tick now => if delay_ms c now =? 0 then (note_render c now, now :: renders) else st
  end.

(** Renders, latest first, at least [gap] apart. *)
Fixpoint spaced (gap : Z) (ts : list Z) : Prop :=
  match ts with
  | [] => True
  | t :: rest =>
      match rest with [] => True | t' :: _ => gap <= t - t' /\ spaced gap rest end
  end.

#[export] Instance spaced_dec gap ts : Decision (spaced gap ts).
Proof. induction ts as [|t rest IH]; [apply _|]. destruct rest; apply _. Defined.

Fixpoint events_ordered (from : Z) (es : list clock_event) : Prop :=
  match es with
  | [] => True
  | Mark :: es => events_ordered from es
  | Tick now :: es => from <= now /\ events_ordered now es
  end.

Lemma to_int32_small v : -2147483648 <= v < 2147483648 -> to_int32 v = v.
Proof. intros. unfold to_int32. rewrite Z.mod_small; lia. Qed.

Lemma ms_of_ns_bounds ns : 0 <= ns -> 0 <= ms_of_ns ns /\ ms_of_ns ns * 1000000 <= ns < (ms_of_ns ns + 1) * 1000000.
Proof. intros. unfold ms_of_ns. rewrite Z.quot_div_nonneg by lia. Z.div_mod_to_equations; lia. Qed.

(** When the clock is dirty and time has not run backwards, the delay is what is
    missing to the interval, at least a millisecond when not due. *)
Lemma delay_spec c now :
  dirty c = true -> 0 <= min_interval c < 2147483648 ->
  (forall t, last c = Some t -> t <= now) ->
  0 <= delay_ms c now <= min_interval c /\
  (delay_ms c now = 0 <->
   forall t, last c = Some t -> min_interval c * 1000000 <= now - t).
Proof.
  intros Hd Hm Hl. unfold delay_ms. rewrite Hd. cbn [negb].
  destruct (last c) as [t|]; [|split; [lia|split; [intros _ t [=]|done]]].
  specialize (Hl t eq_refl). destruct (ms_of_ns_bounds (now - t)) as [H0 H1]; [lia|].
  destruct (Z.leb_spec (min_interval c) (ms_of_ns (now - t))).
  - split; [lia|]. split; [intros _ t' [= <-]; lia|done].
  - rewrite to_int32_small by lia. split; [lia|]. split; [lia|].
    intros H2. specialize (H2 t eq_refl). lia.
Qed.

Lemma clock_steps_spaced c renders es from :
  0 <= min_interval c < 2147483648 -> head renders = last c ->
  spaced (min_interval c * 1000000) renders ->
  (forall t, last c = Some t -> t <= from) -> events_ordered from es ->
  spaced (min_interval c * 1000000) (fold_left clock_step es (c, renders)).2.
Proof.
  intros Hm Hh Hs Hl He. revert c renders from Hm Hh Hs Hl He.
  induction es as [|[|now] es IH]; intros c renders from Hm Hh Hs Hl He; cbn; [done|..].
  - by apply (IH (mark_dirty c) renders from).
  - destruct He as [Hn He]. destruct (Z.eqb_spec (delay_ms c now) 0) as [E|E].
    + apply (IH (note_render c now) (now :: renders) now); try done; cbn.
      * destruct (dirty c) eqn:Hd; [|unfold delay_ms in E; by rewrite Hd in E].
        destruct (delay_spec c now Hd Hm) as [_ [Hdue _]].
        { intros t Ht. specialize (Hl t Ht). lia. }
        specialize (Hdue E). destruct renders as [|t renders]; [done|].
        split; [apply Hdue; by rewrite <- Hh|done].
      * intros t [= <-]. lia.
    + apply (IH c renders now); try done. intros t Ht. specialize (Hl t Ht). lia.
Qed.

(** Whatever marks arrive and whenever the loop ticks, two frames are never
    composed closer than the minimum interval. *)
Theorem frames_are_spaced interval es from :
  0 <= interval < 2147483648 -> events_ordered from es ->
  spaced (interval * 1000000) (fold_left clock_step es (frameclock_new interval, [])).2.
Proof.
  intros Hi He. by apply (clock_steps_spaced (frameclock_new interval) [] es from).
Qed.

Lemma frames_are_spaced_witness :
  let es := [Mark; Tick 5000000; Mark; Tick 6000000; Tick 30000000; Mark; Tick 55000000] in
  spaced (20 * 1000000) (fold_left clock_step es (frameclock_new 20, [])).2 /\
  (fold_left clock_step es (frameclock_new 20, [])).2 = [55000000; 30000000; 5000000].
Proof.
  split; [|by vm_compute]. apply (frames_are_spaced 20 _ 0); [lia|]. cbn. lia.
Defined.

(** No frame is forgotten: a marked clock asks for a delay between 0 and the
    interval, and a tick that comes that much later composes the frame. *)
Theorem marked_frame_is_rendered c now later :
  dirty c = true -> 0 <= min_interval c < 2147483648 ->
  (forall t, last c = Some t -> t <= now) ->
  now + delay_ms c now * 1000000 <= later ->
  0 <= delay_ms c now <= min_interval c /\ delay_ms c later = 0 /\
  clock_step (c, []) (Tick later) = (note_render c later, [later]).
Proof.
  intros Hd Hm Hl Hlater. destruct (delay_spec c now Hd Hm Hl) as [Hb _].
  split; [done|]. assert (delay_ms c later = 0) as E; [|by cbn; rewrite E].
  destruct (delay_spec c later Hd Hm) as [_ [_ Hdue]].
  { intros t Ht. specialize (Hl t Ht). lia. }
  apply Hdue. intros t Ht. specialize (Hl t Ht).
  revert Hlater. unfold delay_ms. rewrite Hd, Ht. cbn [negb].
  destruct (ms_of_ns_bounds (now - t)) as [H0 H1]; [lia|].
  destruct (Z.leb_spec (min_interval c) (ms_of_ns (now - t))); [lia|].
  rewrite to_int32_small by lia. lia.
Qed.

Lemma marked_frame_is_rendered_witness :
  let c := FrameClock 16 (Some 1000000) true in
  0 <= delay_ms c 2500000 <= min_interval c /\ delay_ms c 17500000 = 0 /\
  clock_step (c, []) (Tick 17500000) = (note_render c 17500000, [17500000]).
Proof.
  apply (marked_frame_is_rendered (FrameClock 16 (Some 1000000) true) 2500000 17500000);
    [done|cbn; lia|intros t [= <-]; lia|by vm_compute].
Defined.
