(* ===== verification/ProcStat.v ===== *)
(** * Reading [/proc]: [src/apps/monitor/procstat.hpp], [src/apps/monitor/procstat.cpp]

    The kernel's counters, cumulated since boot, and what is computed between two
    samples of them.  Unsigned counters are 64 bits; the [int] of a load average is
    exact below 2^31, which the kernel's figures never near. *)

From S2P Require Import Prelude.

Definition to_u64 (v : Z) : Z := v mod 18446744073709551616.
Definition to_s32 (v : Z) : Z := (v + 2147483648) mod 4294967296 - 2147483648.

Record cpu_times := CpuTimes { busy : Z; total : Z }.
Record mem_info := MemInfo { total_kb : Z; available_kb : Z }.
Record net_totals := NetTotals { net_rx : Z; net_tx : Z }.
Record proc_info := ProcInfo { p_pid : Z; p_name : bytes; cpu_ticks : Z; rss_pages : Z }.
Record proc_row := ProcRow { r_pid : Z; r_name : bytes; r_cpu : Z; rss_kb : Z }.

Definition digit (c : Z) : bool := (48 <=? c) && (c <=? 57).

(** The integers of a line, in order; [cur] is the one being read. *)
Fixpoint numbers_from (cur : option Z) (s : bytes) : list Z :=
  match s with
  | [] => match cur with Some v => [v] | None => [] end
  | c :: s =>
      if digit c then numbers_from (Some (to_u64 (to_u64 (default 0 cur * 10) + (c - 48)))) s
      else match cur with Some v => v :: numbers_from None s | None => numbers_from None s end
  end.

Definition numbers_of (s : bytes) : list Z := numbers_from None s.

(** The lines of a text; what follows the last line feed counts if it is not empty. *)
Fixpoint lines_acc (cur : bytes) (s : bytes) : list bytes :=
  match s with
  | [] => match cur with [] => [] | _ => [cur] end
  | c :: s => if c =? 10 then cur :: lines_acc [] s else lines_acc (cur ++ [c]) s
  end.

Definition lines_of (text : bytes) : list bytes := lines_acc [] text.

(** [find] of one character, and [rfind]. *)
Fixpoint index_of (c : Z) (s : bytes) : option nat :=
  match s with
  | [] => None
  | x :: s => if x =? c then Some 0%nat else S <$> index_of c s
  end.

Fixpoint last_index_of (c : Z) (s : bytes) : option nat :=
  match s with
  | [] => None
  | x :: s => match last_index_of c s with Some i => Some (S i) | None => if x =? c then Some 0%nat else None end
  end.

Definition sum_u64 (l : list Z) : Z := fold_left (fun t v => to_u64 (t + v)) l 0.

Definition cpu_line (line : bytes) : option cpu_times :=
  if negb (bool_decide (take 3 line = str "cpu")) then None
  else
    match index_of 32 line with
    | None => None
    | Some sp =>
        let n := numbers_of (drop sp line) in
        if (length n <? 5)%nat then None
        else
          let t := sum_u64 n in
          Some (CpuTimes (to_u64 (to_u64 (t - default 0 (n !! 3%nat)) - default 0 (n !! 4%nat))) t)
    end.

Definition parse_cpu_times (text : bytes) : list cpu_times := omap cpu_line (lines_of text).

Definition cpu_percent (before after : cpu_times) : Z :=
  if (total after <=? total before) || (busy after <? busy before) then 0
  else Z.min (to_u64 ((busy after - busy before) * 100) / (total after - total before)) 100.

(** What the lines read so far have said: the record, [MemFree], and whether
    [MemAvailable] was seen. *)
Definition mem_line (acc : mem_info * Z * bool) (line : bytes) : mem_info * Z * bool :=
  match numbers_of line with
  | [] => acc
  | n :: _ =>
      let '(m, free, saw) := acc in
      let m := if bool_decide (take 9 line = str "MemTotal:") then MemInfo n (available_kb m) else m in
      let free := if bool_decide (take 8 line = str "MemFree:") then n else free in
      if bool_decide (take 13 line = str "MemAvailable:") then (MemInfo (total_kb m) n, free, true) else (m, free, saw)
  end.

Definition parse_meminfo (text : bytes) : mem_info :=
  let '(m, free, saw) := fold_left mem_line (lines_of text) (MemInfo 0 0, 0, false) in
  if saw then m else MemInfo (total_kb m) free.

Fixpoint skip_blanks (s : bytes) : bytes :=
  match s with c :: s' => if (c =? 32) || (c =? 9) then skip_blanks s' else s | [] => [] end.

Fixpoint skip_digits (s : bytes) : bytes :=
  match s with c :: s' => if digit c then skip_digits s' else s | [] => [] end.

Fixpoint whole_part (v : Z) (s : bytes) : Z :=
  match s with c :: s' => if digit c then whole_part (v * 10 + (c - 48)) s' else v | [] => v end.

Definition starts_with_digit (s : bytes) : bool := match s with c :: _ => digit c | [] => false end.

(** Two digits after the point; a missing one is a zero. *)
Definition frac_part (s : bytes) : Z * bytes :=
  match s with
  | c :: s' =>
      if digit c then
        match s' with
        | c2 :: s2 => if digit c2 then ((c - 48) * 10 + (c2 - 48), skip_digits s2) else ((c - 48) * 10, s')
        | [] => ((c - 48) * 10, [])
        end
      else (0, s)
  | [] => (0, [])
  end.

(** One of the three averages, and what follows it. *)
Definition load_field (s : bytes) : option (Z * bytes) :=
  let s := skip_blanks s in
  if starts_with_digit s then
    let whole := whole_part 0 s in
    match skip_digits s with
    | 46 :: r => let '(f, rest) := frac_part r in Some (whole * 100 + f, rest)
    | rest => Some (whole * 100, rest)
    end
  else None.

Fixpoint load_fields (k : nat) (s : bytes) : list Z :=
  match k with
  | O => []
  | S k => match load_field s with Some (v, rest) => v :: load_fields k rest | None => replicate (S k) 0 end
  end.

Definition parse_loadavg (text : bytes) : list Z := load_fields 3 text.

Definition parse_process_stat (text : bytes) : option proc_info :=
  match index_of 40 text, last_index_of 41 text with
  | Some op, Some cl =>
      if (cl <? op)%nat then None
      else
        match numbers_of (take op text) with
        | [] => None
        | pid :: _ =>
            let tail := numbers_of (drop (S cl) text) in
            if (length tail <? 21)%nat then None
            else Some (ProcInfo (to_s32 pid) (take (cl - op - 1) (drop (S op) text))
                         (to_u64 (default 0 (tail !! 10%nat) + default 0 (tail !! 11%nat))) (default 0 (tail !! 20%nat)))
        end
  | _, _ => None
  end.

Fixpoint skip_spaces (s : bytes) : bytes :=
  match s with 32 :: s' => skip_spaces s' | _ => s end.

Definition netdev_line (t : net_totals) (line : bytes) : net_totals :=
  match index_of 58 line with
  | None => t
  | Some colon =>
      if bool_decide (skip_spaces (take colon line) = str "lo") then t
      else
        let n := numbers_of (drop (S colon) line) in
        if (length n <? 9)%nat then t
        else NetTotals (to_u64 (net_rx t + default 0 (n !! 0%nat))) (to_u64 (net_tx t + default 0 (n !! 8%nat)))
  end.

Definition parse_netdev (text : bytes) : net_totals := fold_left netdev_line (lines_of text) (NetTotals 0 0).

(** ** On real lines *)

Example stat_with_parentheses :
  parse_process_stat (str "42 (a (b) c) S 1 42 42 0 -1 4194560 100 0 0 0 7 5 0 0 20 0 1 0 300 4096 123 9")
  = Some (ProcInfo 42 (str "a (b) c") 12 123).
Proof. by vm_compute. Qed.

Example load_of_a_line : parse_loadavg (str "0.52 1.5 12.345 1/123 4567") = [52; 150; 1234].
Proof. by vm_compute. Qed.

Example cpu_of_a_core : cpu_line (str "cpu0 10 0 20 60 10 0 0") = Some (CpuTimes 30 100).
Proof. by vm_compute. Qed.

(** ** Reading back a number *)

Lemma digit_spec c : digit c = true <-> 48 <= c <= 57.
Proof. unfold digit. lia. Qed.

Lemma numbers_skip s t : Forall (fun c => digit c = false) s -> numbers_of (s ++ t) = numbers_of t.
Proof. unfold numbers_of. induction 1 as [|c s Hc _ IH]; [done|]. cbn [app numbers_from]. by rewrite Hc. Qed.

Definition add_digit (v c : Z) : Z := to_u64 (to_u64 (v * 10) + (c - 48)).

Definition no_digit_first (t : bytes) : Prop := match t with [] => True | c :: _ => digit c = false end.

Lemma numbers_some v t : no_digit_first t -> numbers_from (Some v) t = v :: numbers_of t.
Proof. destruct t as [|c t]; [done|]. cbn. by intros ->. Qed.

Lemma numbers_run ds o t : Forall (fun c => digit c = true) ds -> ds <> [] -> no_digit_first t ->
  numbers_from o (ds ++ t) = fold_left add_digit ds (default 0 o) :: numbers_of t.
Proof.
  intros Hd. revert o. induction Hd as [|c ds Hc Hd IH]; intros o Hne Ht; [done|]. cbn [app numbers_from]. rewrite Hc.
  destruct ds as [|c' ds]; [by apply numbers_some|]. by rewrite IH.
Qed.

Lemma fold_to_string n : 0 <= n < 2 ^ 64 -> fold_left add_digit (to_string n) 0 = n.
Proof.
  intros Hn. assert (0 <= n < kDecMax) as Hd by (pose proof (eq_refl : (2 ^ 64 <? kDecMax) = true); zbool; lia).
  revert Hn. pattern n. apply to_string_ind; [..|exact Hd].
  - intros m Hm _. rewrite to_string_step by (pose proof kDecMax_pos; lia). zrw_true (m <? 10). cbn [fold_left].
    unfold add_digit, to_u64. rewrite Z.mul_0_l, Z.mod_0_l, Z.mod_small; lia.
  - intros m Hm IH Hmax. rewrite to_string_step by (pose proof kDecMax_pos; lia). zrw_false (m <? 10).
    rewrite fold_left_app, IH by (Z.div_mod_to_equations; lia). cbn [fold_left]. unfold add_digit, to_u64.
    rewrite (Z.mod_small (m / 10 * 10)) by (Z.div_mod_to_equations; lia).
    rewrite Z.mod_small; Z.div_mod_to_equations; lia.
Qed.

Lemma to_string_all_digits n : 0 <= n < 2 ^ 64 -> Forall (fun c => digit c = true) (to_string n) /\ to_string n <> [].
Proof.
  intros Hn. destruct (to_string_digits n) as [Hd Hne]; [pose proof (eq_refl : (2 ^ 64 <? kDecMax) = true); zbool; lia|].
  split; [|done]. eapply List.Forall_impl; [|exact Hd]. cbn. intros c Hc. by apply digit_spec.
Qed.

(** A printed number is read back, whatever follows that is not a digit. *)
Lemma numbers_read n t : 0 <= n < 2 ^ 64 -> no_digit_first t -> numbers_of (to_string n ++ t) = n :: numbers_of t.
Proof.
  intros Hn Ht. destruct (to_string_all_digits n Hn) as [Hd Hne]. unfold numbers_of at 1.
  rewrite numbers_run by done. cbn [default]. by rewrite fold_to_string.
Qed.

Definition fields (ns : list Z) : bytes := concat ((fun n => 32 :: to_string n) <$> ns).

Lemma numbers_fields ns t : Forall (fun n => 0 <= n < 2 ^ 64) ns -> no_digit_first t -> numbers_of (fields ns ++ t) = ns ++ numbers_of t.
Proof.
  intros Hn Ht. induction Hn as [|n ns Hn Hns IH]; [done|]. unfold fields. cbn [fmap list_fmap concat].
  change (concat _) with (fields ns). rewrite <- app_assoc. cbn [app].
  change (32 :: to_string n ++ fields ns ++ t) with ([32] ++ to_string n ++ fields ns ++ t).
  rewrite numbers_skip by (by repeat constructor). rewrite numbers_read, IH; [done|done|]. by destruct ns.
Qed.

Lemma index_of_app c s t : c ∉ s -> index_of c (s ++ c :: t) = Some (length s).
Proof.
  induction s as [|x s IH]; intros Hc; cbn.
  - by rewrite Z.eqb_refl.
  - apply not_elem_of_cons in Hc as [Hx Hs]. zrw_false (x =? c). by rewrite IH.
Qed.

Lemma drop_app_S {A} (l : list A) x k : drop (S (length l)) (l ++ x :: k) = k.
Proof. by induction l as [|y l IH]. Qed.

Lemma last_index_none c s : c ∉ s -> last_index_of c s = None.
Proof. induction s as [|x s IH]; intros Hc; [done|]. apply not_elem_of_cons in Hc as [Hx Hs]. cbn. rewrite IH by done. by zrw_false (x =? c). Qed.

Lemma last_index_app c s t : c ∉ t -> last_index_of c (s ++ c :: t) = Some (length s).
Proof. intros Hc. induction s as [|x s IH]; cbn; [rewrite last_index_none by done; by rewrite Z.eqb_refl|by rewrite IH]. Qed.

Lemma not_in_to_string c n : 0 <= n < 2 ^ 64 -> digit c = false -> c ∉ to_string n.
Proof.
  intros Hn Hc Hin. destruct (to_string_all_digits n Hn) as [Hd _]. rewrite List.Forall_forall in Hd.
  apply list_elem_of_In in Hin. by rewrite Hd in Hc.
Qed.

Lemma not_in_fields c ns : Forall (fun n => 0 <= n < 2 ^ 64) ns -> digit c = false -> c <> 32 -> c ∉ fields ns.
Proof.
  intros Hns Hc Hs. induction Hns as [|n ns Hn _ IH]; [apply not_elem_of_nil|]. unfold fields. cbn [fmap list_fmap concat].
  rewrite not_elem_of_app, not_elem_of_cons. split_and!; [done|by apply not_in_to_string|done].
Qed.

(** A line of [/proc/<pid>/stat]: the name between parentheses is any string. *)
Definition stat_line (pid : Z) (name : bytes) (state : Z) (ns : list Z) : bytes :=
  to_string pid ++ [32; 40] ++ name ++ [41; 32; state] ++ fields ns.

(** A process line is read right whatever the process calls itself.  Blanks,
    digits, parentheses in the name change neither the name that is read, nor the
    processor time, nor the memory: the fields are counted after the last closing
    parenthesis. *)
Theorem process_stat_read pid name state ns :
  0 <= pid < 2 ^ 31 -> digit state = false -> state <> 41 -> Forall (fun n => 0 <= n < 2 ^ 64) ns -> (21 <= length ns)%nat ->
  parse_process_stat (stat_line pid name state ns)
  = Some (ProcInfo pid name (to_u64 (default 0 (ns !! 10%nat) + default 0 (ns !! 11%nat))) (default 0 (ns !! 20%nat))).
Proof.
  intros Hp Hst Hne Hns Hl. unfold parse_process_stat, stat_line.
  assert (0 <= pid < 2 ^ 64) as Hp' by lia.
  assert (40 ∉ to_string pid ++ [32]) as H40.
  { rewrite not_elem_of_app, list_elem_of_singleton. split; [by apply not_in_to_string|done]. }
  assert (41 ∉ [32; state] ++ fields ns) as H41.
  { rewrite not_elem_of_app, !not_elem_of_cons. split_and!; [done|done|apply not_elem_of_nil|by apply not_in_fields]. }
  set (text := to_string pid ++ _).
  assert (text = (to_string pid ++ [32]) ++ 40 :: name ++ [41; 32; state] ++ fields ns) as E1 by (unfold text; by rewrite <- app_assoc).
  assert (text = (to_string pid ++ [32; 40] ++ name) ++ 41 :: [32; state] ++ fields ns) as E2 by (unfold text; by rewrite <- !app_assoc).
  assert (index_of 40 text = Some (length (to_string pid ++ [32]))) as Hop by (rewrite E1; by apply index_of_app).
  assert (last_index_of 41 text = Some (length (to_string pid ++ [32; 40] ++ name))) as Hcl by (rewrite E2; by apply last_index_app).
  assert (numbers_of (take (length (to_string pid ++ [32])) text) = [pid]) as Hhead.
  { rewrite E1, take_app_length. by rewrite numbers_read. }
  assert (numbers_of (drop (S (length (to_string pid ++ [32; 40] ++ name))) text) = ns) as Htail.
  { rewrite E2, drop_app_S. rewrite numbers_skip by (by repeat constructor).
    rewrite <- (app_nil_r (fields ns)), numbers_fields by done. by rewrite app_nil_r. }
  assert (drop (S (length (to_string pid ++ [32]))) text = name ++ [41; 32; state] ++ fields ns) as Hname by (by rewrite E1, drop_app_S).
  rewrite Hop, Hcl, Hhead, Htail, Hname, !length_app. cbn [length].
  replace (_ <? _)%nat with false by (symmetry; apply Nat.ltb_ge; lia).
  replace (length ns <? 21)%nat with false by (symmetry; apply Nat.ltb_ge; lia).
  rewrite take_app_length' by lia. f_equal. f_equal. unfold to_s32. rewrite Z.mod_small; lia.
Qed.

Lemma process_stat_read_witness :
  parse_process_stat (stat_line 42 (str "a (b) c 7") 83 (Z.of_nat <$> seq 0 22)) = Some (ProcInfo 42 (str "a (b) c 7") 21 20).
Proof.
  rewrite (process_stat_read 42 (str "a (b) c 7") 83 (Z.of_nat <$> seq 0 22)); [done|lia|done|done| |apply Nat.leb_le; by vm_compute].
  rewrite List.Forall_forall. intros n Hn. apply List.in_map_iff in Hn as (k & <- & Hk). apply List.in_seq in Hk. lia.
Defined.

(** Between any two samples, whatever the kernel said. *)
Lemma cpu_percent_bounds a b : 0 <= cpu_percent a b <= 100.
Proof.
  unfold cpu_percent. destruct (_ || _) eqn:E; [lia|]. apply orb_false_iff in E as [E1 E2]. zbool.
  split; [|lia]. apply Z.min_glb; [|lia]. apply Z.div_pos; [|lia]. apply Z.mod_pos_bound. lia.
Qed.

(** Two samples of a core that did not run backwards give its share of the time. *)
Lemma cpu_percent_exact a b :
  0 <= busy a <= busy b -> total a < total b -> busy b - busy a <= total b - total a -> (total b - total a) * 100 < 2 ^ 64 ->
  cpu_percent a b = (busy b - busy a) * 100 / (total b - total a).
Proof.
  intros Hb Ht Hs Hm. unfold cpu_percent. zrw_false (total b <=? total a). zrw_false (busy b <? busy a). cbn [orb].
  unfold to_u64. rewrite Z.mod_small by lia. apply Z.min_l. apply Z.div_le_upper_bound; lia.
Qed.
