(* ===== verification/Cell.v ===== *)
(** * Geometry, colours, styles and cells: [src/render/cell.hpp] *)

From S2P Require Import Prelude.

Record size := Size { w : Z; h : Z }.
Record pos := Pos { px : Z; py : Z }.
Record rect := Rect { rx : Z; ry : Z; rw : Z; rh : Z }.

#[export] Instance size_eq_dec : EqDecision size. Proof. solve_decision. Defined.
#[export] Instance rect_eq_dec : EqDecision rect. Proof. solve_decision. Defined.

Definition contains (r : rect) (x y : Z) : bool :=
  (rx r <=? x) && (ry r <=? y) && (x <? rx r + rw r) && (y <? ry r + rh r).

(** [Color] is a tagged union: the index counts for [Indexed] only, the three
    bytes for [Rgb] only, as the constructors of the source leave them. *)
Inductive color :=
  | CDefault
  | CIndexed (idx : Z)
  | CRgb (r g b : Z).

#[export] Instance color_eq_dec : EqDecision color. Proof. solve_decision. Defined.

Definition Bold : Z := Z.shiftl 1 0.
Definition Dim : Z := Z.shiftl 1 1.
Definition Italic : Z := Z.shiftl 1 2.
Definition Underline : Z := Z.shiftl 1 3.
Definition Reverse : Z := Z.shiftl 1 4.
Definition Strike : Z := Z.shiftl 1 5.
Definition Blink : Z := Z.shiftl 1 6.
Definition Hidden : Z := Z.shiftl 1 7.

Record style := Style { fg : color; bg : color; attrs : Z }.

#[export] Instance style_eq_dec : EqDecision style. Proof. solve_decision. Defined.

Definition style_default : style := Style CDefault CDefault 0.

(** A cell of a surface; [width] is 1, 2 on the first half of a wide character
    and 0 on its continuation. *)
Record cell := Cell { ch : Z; c_fg : color; c_bg : color; c_attrs : Z; width : Z }.

#[export] Instance cell_eq_dec : EqDecision cell. Proof. solve_decision. Defined.

Definition cell_default : cell := Cell 32 CDefault CDefault 0 1.
Definition kContinuation : cell := Cell 0 CDefault CDefault 0 0.

(** What the widths of the fields guarantee. *)
Definition color_ok (c : color) : Prop :=
  match c with
  | CDefault => True
  | CIndexed i => byte_ok i
  | CRgb r g b => byte_ok r /\ byte_ok g /\ byte_ok b
  end.

(** The eight attributes are the eight low bits. *)
Definition style_ok (s : style) : Prop :=
  color_ok (fg s) /\ color_ok (bg s) /\ 0 <= attrs s < 256.

#[export] Instance color_ok_dec c : Decision (color_ok c).
Proof. destruct c; apply _. Defined.
#[export] Instance style_ok_dec s : Decision (style_ok s) := _.

Lemma style_default_ok : style_ok style_default.
Proof. split_and!; cbn; done || lia. Qed.
