(* ===== verification/Width.v ===== *)
(** * Cell widths: [src/render/width.hpp], [src/render/width.cpp]

    The global policy on ambiguous characters is an argument, [amb]. *)

From S2P Require Import Prelude Utf8.

Definition kZero : list (Z * Z) :=
  [(0x0300, 0x036F); (0x0483, 0x0489); (0x0591, 0x05BD); (0x0610, 0x061A);
   (0x064B, 0x065F); (0x0670, 0x0670); (0x06D6, 0x06DC); (0x0E31, 0x0E31);
   (0x0E47, 0x0E4E); (0x200B, 0x200F); (0x2060, 0x2064); (0xFE00, 0xFE0F);
   (0xFE20, 0xFE2F); (0xE0100, 0xE01EF)].

Definition kWide : list (Z * Z) :=
  [(0x1100, 0x115F); (0x2E80, 0x303E); (0x3041, 0x33FF);
   (0x3400, 0x4DBF); (0x4E00, 0x9FFF); (0xA000, 0xA4CF);
   (0xAC00, 0xD7A3); (0xF900, 0xFAFF); (0xFE10, 0xFE19);
   (0xFE30, 0xFE6F); (0xFF00, 0xFF60); (0xFFE0, 0xFFE6);
   (0x1F300, 0x1F64F); (0x1F900, 0x1F9FF); (0x20000, 0x3FFFD)].

Definition kAmbiguous : list (Z * Z) :=
  [(0x00A1, 0x00A1); (0x00B0, 0x00B4); (0x00B6, 0x00BA); (0x2010, 0x2027);
   (0x2190, 0x21FF); (0x2500, 0x257F); (0x25A0, 0x25FF); (0x2E80, 0x2E80)].

(** [std::upper_bound] on the lower ends: the entries before the first one whose
    [lo] exceeds [cp], of which the last is [std::prev(it)]. *)
Fixpoint before_upper (table : list (Z * Z)) (cp : Z) : list (Z * Z) :=
  match table with
  | [] => []
  | r :: table => if cp <? r.1 then [] else r :: before_upper table cp
  end.

Definition in_table (table : list (Z * Z)) (cp : Z) : bool :=
  match List.rev (before_upper table cp) with
  | [] => false
  | r :: _ => cp <=? r.2
  end.

Definition char_width (amb : bool) (cp : Z) : Z :=
  if (cp <? 0x20) || ((0x7F <=? cp) && (cp <? 0xA0)) then 0
  else if in_table kZero cp then 0
  else if amb && in_table kAmbiguous cp then 2
  else if in_table kWide cp then 2
  else 1.

Fixpoint cells_from (amb : bool) (fuel : nat) (s : bytes) (i : nat) (n : Z) : Z :=
  match fuel with
  | O => n
  | S fuel =>
      if (i <? length s)%nat then
        let '(k, cp) := utf8_decode s i in
        cells_from amb fuel s (i + k) (n + char_width amb cp)
      else n
  end.

(** Every turn consumes at least a byte: [length s] turns are enough. *)
Definition text_cells (amb : bool) (s : bytes) : Z := cells_from amb (length s) s 0 0.

(** The cutting loop of [elide_to_cells]: the byte index where it stops. *)
Fixpoint cut_from (amb : bool) (fuel : nat) (s : bytes) (keep : Z) (i : nat) (seen : Z) : nat :=
  match fuel with
  | O => i
  | S fuel =>
      if (i <? length s)%nat then
        let '(used, cp) := utf8_decode s i in
        let cw := char_width amb cp in
        if keep <? seen + cw then i
        else cut_from amb fuel s keep (i + used) (seen + cw)
      else i
  end.

Definition elide_to_cells (amb : bool) (s : bytes) (cells : Z) (mark : bytes) : bytes :=
  if cells <=? 0 then []
  else if text_cells amb s <=? cells then s
  else
    let keep := cells - text_cells amb mark in
    if keep <? 0 then []
    else take (cut_from amb (length s) s keep 0 0) s ++ mark.

Arguments char_width : simpl never.
Arguments encode_utf8 : simpl never.
Arguments utf8_decode : simpl never.

(** ** Widths of characters *)

Lemma char_width_range amb cp : char_width amb cp = 0 \/ char_width amb cp = 1 \/ char_width amb cp = 2.
Proof. unfold char_width. repeat case_match; auto. Qed.

Lemma char_width_nonneg amb cp : 0 <= char_width amb cp <= 2.
Proof. destruct (char_width_range amb cp) as [->|[->| ->]]; lia. Qed.

Lemma text_cells_nonneg amb s : 0 <= text_cells amb s.
Proof.
  unfold text_cells. generalize (length s) as fuel. intros fuel.
  assert (0 <= 0) as H0 by lia. revert H0. generalize 0 at 2 4 as n. generalize 0%nat as i.
  induction fuel as [|fuel IH]; intros i n Hn; cbn [cells_from]; [done|].
  destruct (_ <? _)%nat; [|done]. destruct (utf8_decode s i) as [k cp]. apply IH.
  pose proof (char_width_nonneg amb cp). lia.
Qed.

(** ** Widths of texts *)

Definition encode_text (cps : list Z) : bytes := concat (encode_utf8 <$> cps).

Definition cells_of (amb : bool) (cps : list Z) : Z :=
  fold_right (fun cp n => char_width amb cp + n) 0 cps.

Lemma encode_text_cons cp cps : encode_text (cp :: cps) = encode_utf8 cp ++ encode_text cps.
Proof. done. Qed.

Lemma encode_text_app a b : encode_text (a ++ b) = encode_text a ++ encode_text b.
Proof. unfold encode_text. by rewrite fmap_app, concat_app. Qed.

Lemma encode_utf8_length cp : (1 <= length (encode_utf8 cp))%nat.
Proof. apply encode_utf8_nonempty. Qed.

Lemma encode_text_length cps : (length cps <= length (encode_text cps))%nat.
Proof.
  induction cps as [|cp cps IH]; [done|]. rewrite encode_text_cons, length_app. cbn [length].
  pose proof (encode_utf8_length cp). lia.
Qed.

Lemma cells_of_app amb a b : cells_of amb (a ++ b) = cells_of amb a + cells_of amb b.
Proof. unfold cells_of. induction a as [|cp a IH]; cbn; [done|]. rewrite IH. lia. Qed.

Lemma cells_of_nonneg amb cps : 0 <= cells_of amb cps.
Proof.
  unfold cells_of. induction cps as [|cp cps IH]; cbn; [lia|]. pose proof (char_width_nonneg amb cp). lia.
Qed.

Lemma cells_from_spec amb fuel pre cps n :
  Forall scalar cps -> (length cps <= fuel)%nat ->
  cells_from amb fuel (pre ++ encode_text cps) (length pre) n = n + cells_of amb cps.
Proof.
  intros Hs. revert fuel pre n. induction Hs as [|cp cps Hcp _ IH]; intros fuel pre n Hf.
  - destruct fuel; cbn [cells_from]; [cbn; lia|]. change (encode_text []) with (@nil Z).
    rewrite app_nil_r, (proj2 (Nat.ltb_ge _ _)) by lia. cbn. lia.
  - destruct fuel as [|fuel]; [cbn in Hf; lia|]. cbn [cells_from].
    rewrite encode_text_cons. pose proof (encode_utf8_length cp).
    rewrite (proj2 (Nat.ltb_lt _ _)) by (rewrite !length_app; lia).
    rewrite utf8_decode_encode_at by done.
    rewrite app_assoc, <- length_app, IH by (cbn in Hf; lia). cbn [cells_of fold_right].
    unfold cells_of. lia.
Qed.

Lemma text_cells_spec amb cps :
  Forall scalar cps -> text_cells amb (encode_text cps) = cells_of amb cps.
Proof.
  intros Hs. pose proof (encode_text_length cps).
  unfold text_cells. by rewrite (cells_from_spec amb _ [] cps 0).
Qed.

Lemma cut_from_spec amb fuel pre cps keep seen :
  Forall scalar cps -> (length cps <= fuel)%nat -> seen <= keep ->
  exists a b, cps = a ++ b /\
    cut_from amb fuel (pre ++ encode_text cps) keep (length pre) seen
      = length (pre ++ encode_text a) /\
    seen + cells_of amb a <= keep /\
    match b with [] => True | c :: _ => keep < seen + cells_of amb a + char_width amb c end.
Proof.
  intros Hs. revert fuel pre seen. induction Hs as [|cp cps Hcp _ IH]; intros fuel pre seen Hf Hk.
  - exists [], []. change (encode_text []) with (@nil Z). rewrite !app_nil_r.
    destruct fuel; cbn [cut_from]; [cbn; split_and!; done || lia|].
    rewrite (proj2 (Nat.ltb_ge _ _)) by lia. cbn. split_and!; done || lia.
  - destruct fuel as [|fuel]; [cbn in Hf; lia|]. cbn [cut_from].
    rewrite encode_text_cons. pose proof (encode_utf8_length cp).
    rewrite (proj2 (Nat.ltb_lt _ _)) by (rewrite !length_app; lia).
    rewrite utf8_decode_encode_at by done.
    destruct (Z.ltb_spec keep (seen + char_width amb cp)) as [Hlt|Hge].
    + exists [], (cp :: cps). rewrite app_nil_r. split_and!; cbn; try done; lia.
    + destruct (IH fuel (pre ++ encode_utf8 cp) (seen + char_width amb cp)) as (a & b & -> & Hc & Hl & Hb);
        [cbn in Hf; lia|done|].
      exists (cp :: a), b. split; [done|].
      rewrite app_assoc, <- length_app, Hc, encode_text_cons, <- app_assoc. split; [done|].
      cbn [cells_of fold_right]. unfold cells_of in *. split; [lia|]. destruct b; [done|lia].
Qed.

(** Eliding fits: cutting a text to [cells] cells leaves a text that fits,
    unchanged when it fitted already, and otherwise a prefix of whole
    characters followed by the mark -- never half a character, and the longest
    such prefix that leaves room for the mark; when the mark alone does not fit
    nothing is shown. *)
Theorem elide_fits amb cps mark cells :
  Forall scalar cps -> Forall scalar mark -> 0 < cells ->
  exists out, elide_to_cells amb (encode_text cps) cells (encode_text mark) = encode_text out /\
    cells_of amb out <= cells /\
    (cells_of amb cps <= cells -> out = cps) /\
    (cells < cells_of amb cps -> cells < cells_of amb mark -> out = []) /\
    (cells < cells_of amb cps -> cells_of amb mark <= cells ->
       exists a c b, cps = a ++ c :: b /\ out = a ++ mark /\
         cells < cells_of amb a + char_width amb c + cells_of amb mark).
Proof.
  intros Hc Hm Hpos. unfold elide_to_cells. zrw_false (cells <=? 0).
  rewrite !text_cells_spec by done.
  destruct (Z.leb_spec (cells_of amb cps) cells).
  { exists cps. split_and!; try done; lia. }
  destruct (Z.ltb_spec (cells - cells_of amb mark) 0).
  { exists []. split_and!; try done; cbn; lia. }
  pose proof (encode_text_length cps).
  destruct (cut_from_spec amb (length (encode_text cps)) [] cps (cells - cells_of amb mark) 0)
    as (a & b & -> & Hcut & Hfit & Hb); [done..|lia|].
  cbn [app length] in Hcut. rewrite Hcut, encode_text_app, take_app_length.
  exists (a ++ mark). rewrite (encode_text_app a mark), (cells_of_app amb a mark).
  split_and!; try done; try lia.
  intros Hlong Hmark. destruct b as [|c b]; [pose proof (cells_of_nonneg amb mark); rewrite app_nil_r in *; lia|].
  exists a, c, b. split_and!; try done; lia.
Qed.

Lemma elide_fits_witness :
  exists out, elide_to_cells false (encode_text [97; 0x4E2D; 98; 99]) 4 (encode_text [8230])
      = encode_text out /\
    cells_of false out <= 4 /\
    (cells_of false [97; 0x4E2D; 98; 99] <= 4 -> out = [97; 0x4E2D; 98; 99]) /\
    (4 < cells_of false [97; 0x4E2D; 98; 99] -> 4 < cells_of false [8230] -> out = []) /\
    (4 < cells_of false [97; 0x4E2D; 98; 99] -> cells_of false [8230] <= 4 ->
       exists a c b, [97; 0x4E2D; 98; 99] = a ++ c :: b /\ out = a ++ [8230] /\
         4 < cells_of false a + char_width false c + cells_of false [8230]).
Proof.
  apply (elide_fits false [97; 0x4E2D; 98; 99] [8230] 4); [..|lia];
    apply (bool_decide_unpack _); by vm_compute.
Defined.
