(* ===== verification/VtParser.v ===== *)
(** * The escape-sequence parser: [src/vt/sink.hpp], [src/vt/parser.hpp], [src/vt/parser.cpp]

    The DEC state machine with its UTF-8 decoder, as a function from a parser
    and a byte to a parser and the calls it makes on its sink, in order.  The
    state survives between calls, so a [feed] is a fold over bytes and a
    sequence cut by a read is the same sequence. *)

From S2P Require Import Prelude Utf8.

(** ** The sink *)

Record param := Param { p_value : Z; p_sub : bool }.

#[export] Instance param_eq_dec : EqDecision param.
Proof. solve_decision. Defined.

Definition param_default : param := Param (-1) false.

Definition param_or (p : list param) (index : nat) (fallback : Z) : Z :=
  match p !! index with
  | None => fallback
  | Some x => if p_value x <? 0 then fallback else p_value x
  end.

(** The virtual methods of [ParserSink], as the events of a run. *)
Inductive event :=
  | EPrint (c : Z)
  | EExecute (b : Z)
  | ECsi (params : list param) (intermediates : bytes) (final_byte : Z)
  | EEsc (intermediates : bytes) (final_byte : Z)
  | EOsc (data : bytes)
  | EDcsStart (params : list param) (intermediates : bytes) (final_byte : Z)
  | EDcsData (chunk : bytes)
  | EDcsEnd.

#[export] Instance event_eq_dec : EqDecision event.
Proof. solve_decision. Defined.

(** ** The machine *)

Inductive vt_state :=
  | Ground | Escape | EscapeIntermediate
  | CsiEntry | CsiParam | CsiIntermediate | CsiIgnore
  | DcsEntry | DcsParam | DcsIntermediate | DcsPassthrough | DcsIgnore
  | OscString | SosPmApcString.

#[export] Instance vt_state_eq_dec : EqDecision vt_state.
Proof. solve_decision. Defined.

Definition kMaxParams : nat := 32.
Definition kMaxParamValue : Z := 65535.
Definition kMaxIntermediates : nat := 4.
Definition kMaxOsc : Z := 4096.

Definition is_c0 (b : Z) : bool := (b <=? 0x17) || (b =? 0x19) || ((0x1C <=? b) && (b <=? 0x1F)).
Definition is_intermediate (b : Z) : bool := (0x20 <=? b) && (b <=? 0x2F).
Definition is_final (b : Z) : bool := (0x40 <=? b) && (b <=? 0x7E).
Definition is_digit (b : Z) : bool := (0x30 <=? b) && (b <=? 0x39).
Definition is_private (b : Z) : bool := (0x3C <=? b) && (b <=? 0x3F).

Record parser := Parser {
  state : vt_state;
  params : list param;
  intermediates : bytes;
  osc : bytes;
  utf8_acc : Z;
  utf8_need : Z;
  utf8_seen : Z;
  utf8_min : Z;
}.

Definition parser_init : parser := Parser Ground [] [] [] 0 0 0 0.

Definition set_state (p : parser) (s : vt_state) : parser :=
  Parser s (params p) (intermediates p) (osc p) (utf8_acc p) (utf8_need p) (utf8_seen p) (utf8_min p).
Definition set_params (p : parser) (ps : list param) : parser :=
  Parser (state p) ps (intermediates p) (osc p) (utf8_acc p) (utf8_need p) (utf8_seen p) (utf8_min p).
Definition set_intermediates (p : parser) (i : bytes) : parser :=
  Parser (state p) (params p) i (osc p) (utf8_acc p) (utf8_need p) (utf8_seen p) (utf8_min p).
Definition set_osc (p : parser) (o : bytes) : parser :=
  Parser (state p) (params p) (intermediates p) o (utf8_acc p) (utf8_need p) (utf8_seen p) (utf8_min p).
Definition set_utf8 (p : parser) (acc need seen min : Z) : parser :=
  Parser (state p) (params p) (intermediates p) (osc p) acc need seen min.

Definition clear_sequence (p : parser) : parser :=
  set_osc (set_intermediates (set_params p []) []) [].

Definition parser_reset (p : parser) : parser :=
  set_utf8 (clear_sequence (set_state p Ground)) 0 0 0 0.

(** [collect]: the parser and whether the byte fitted. *)
Definition collect (p : parser) (b : Z) : parser * bool :=
  if (kMaxIntermediates <=? length (intermediates p))%nat then (p, false)
  else (set_intermediates p (intermediates p ++ [b]), true).

Definition next_param (p : parser) (sub : bool) : parser :=
  if (length (params p) <? kMaxParams)%nat
  then set_params p (params p ++ [Param (-1) sub]) else p.

(** [p = params_.back(); ...]: the digit is accumulated under the ceiling. *)
Definition param_digit (v : Z) (b : Z) : Z :=
  let digit := b - 48 in
  let v := if v <? 0 then 0 else v in
  if v <=? Z.quot (kMaxParamValue - digit) 10 then v * 10 + digit else kMaxParamValue.

Fixpoint update_back (ps : list param) (b : Z) : list param :=
  match ps with
  | [] => []
  | [x] => [Param (param_digit (p_value x) b) (p_sub x)]
  | x :: ps => x :: update_back ps b
  end.

Definition push_param_digit (p : parser) (b : Z) : parser :=
  let ps := match params p with [] => [param_default] | ps => ps end in
  set_params p (update_back ps b).

(** [if (params_.empty()) params_.push_back(Param{}); next_param(b == ':')]. *)
Definition separator (p : parser) (b : Z) : parser :=
  let p := match params p with [] => set_params p [param_default] | _ => p end in
  next_param p (b =? 58).

Definition flush_utf8_as_replacement (p : parser) : parser * list event :=
  if utf8_need p =? 0 then (p, []) else (set_utf8 p 0 0 0 0, [EPrint 0xFFFD]).

(** [utf8_byte] when no character is pending. *)
Definition utf8_start (p : parser) (b : Z) : parser * list event :=
  if (0xC2 <=? b) && (b <=? 0xDF) then (set_utf8 p (Z.land b 0x1F) 1 0 0x80, [])
  else if (0xE0 <=? b) && (b <=? 0xEF) then (set_utf8 p (Z.land b 0x0F) 2 0 0x800, [])
  else if (0xF0 <=? b) && (b <=? 0xF4) then (set_utf8 p (Z.land b 0x07) 3 0 0x10000, [])
  else (p, [EPrint 0xFFFD]).

(** [ground_byte] when no character is pending. *)
Definition ground_fresh (p : parser) (b : Z) : parser * list event :=
  if b =? 0x1B then (clear_sequence (set_state p Escape), [])
  else if (b =? 0x18) || (b =? 0x1A) then (p, [EExecute b])
  else if is_c0 b then (p, [EExecute b])
  else if b =? 0x7F then (p, [])
  else if b <? 0x80 then (p, [EPrint b])
  else utf8_start p b.

(** [utf8_byte]; it calls [ground_byte] back once nothing is pending. *)
Definition utf8_byte (p : parser) (b : Z) : parser * list event :=
  if 0 <? utf8_need p then
    if negb (Z.land b 0xC0 =? 0x80) then
      let '(p, e1) := flush_utf8_as_replacement p in
      let '(p, e2) := ground_fresh p b in
      (p, e1 ++ e2)
    else
      let acc := to_u32 (Z.lor (Z.shiftl (utf8_acc p) 6) (Z.land b 0x3F)) in
      let seen := utf8_seen p + 1 in
      if seen <? utf8_need p then (set_utf8 p acc (utf8_need p) seen (utf8_min p), [])
      else
        let cp := acc in
        let min := utf8_min p in
        let p := set_utf8 p 0 0 0 0 in
        if (cp <? min) || ((0xD800 <=? cp) && (cp <=? 0xDFFF)) || (0x10FFFF <? cp)
        then (p, [EPrint 0xFFFD])
        else (p, [EPrint cp])
  else utf8_start p b.

Definition ground_byte (p : parser) (b : Z) : parser * list event :=
  if 0 <? utf8_need p then utf8_byte p b else ground_fresh p b.

(** The cases of the [switch] of [step], one per state. *)

Definition step_ground (p : parser) (b : Z) : parser * list event :=
  let '(p, e1) := if b =? 0x1B then flush_utf8_as_replacement p else (p, []) in
  let '(p, e2) := ground_byte p b in
  (p, e1 ++ e2).

Definition step_escape (p : parser) (b : Z) : parser * list event :=
  if is_c0 b then (p, [EExecute b])
  else if is_intermediate b then (set_state (collect p b).1 EscapeIntermediate, [])
  else if b =? 0x7F then (p, [])
  else if b =? 91 then (clear_sequence (set_state p CsiEntry), [])          (* [ *)
  else if b =? 93 then (set_osc (set_state p OscString) [], [])             (* ] *)
  else if b =? 80 then (clear_sequence (set_state p DcsEntry), [])          (* P *)
  else if (b =? 88) || (b =? 94) || (b =? 95) then (set_state p SosPmApcString, [])
  else (set_state p Ground, [EEsc (intermediates p) b]).

Definition step_escape_intermediate (p : parser) (b : Z) : parser * list event :=
  if is_c0 b then (p, [EExecute b])
  else if is_intermediate b then
    let '(p, fits) := collect p b in (if fits then p else set_state p Ground, [])
  else if b =? 0x7F then (p, [])
  else (set_state p Ground, [EEsc (intermediates p) b]).

Definition is_separator (b : Z) : bool := (b =? 59) || (b =? 58).

Definition step_csi_entry (p : parser) (b : Z) : parser * list event :=
  if is_c0 b then (p, [EExecute b])
  else if b =? 0x7F then (p, [])
  else if is_final b then (set_state p Ground, [ECsi (params p) (intermediates p) b])
  else if is_intermediate b then
    let '(p, fits) := collect p b in
    (set_state p (if fits then CsiIntermediate else CsiIgnore), [])
  else if is_private b then (set_state (collect p b).1 CsiParam, [])
  else if is_digit b then (set_state (push_param_digit p b) CsiParam, [])
  else if is_separator b then (set_state (separator p b) CsiParam, [])
  else (set_state p CsiIgnore, []).

Definition step_csi_param (p : parser) (b : Z) : parser * list event :=
  if is_c0 b then (p, [EExecute b])
  else if b =? 0x7F then (p, [])
  else if is_digit b then (push_param_digit p b, [])
  else if is_separator b then (separator p b, [])
  else if is_final b then (set_state p Ground, [ECsi (params p) (intermediates p) b])
  else if is_intermediate b then
    let '(p, fits) := collect p b in
    (set_state p (if fits then CsiIntermediate else CsiIgnore), [])
  else (set_state p CsiIgnore, []).

Definition step_csi_intermediate (p : parser) (b : Z) : parser * list event :=
  if is_c0 b then (p, [EExecute b])
  else if b =? 0x7F then (p, [])
  else if is_intermediate b then
    let '(p, fits) := collect p b in (if fits then p else set_state p CsiIgnore, [])
  else if is_final b then (set_state p Ground, [ECsi (params p) (intermediates p) b])
  else (set_state p CsiIgnore, []).

Definition step_csi_ignore (p : parser) (b : Z) : parser * list event :=
  if is_c0 b then (p, [EExecute b])
  else if is_final b then (set_state p Ground, [])
  else (p, []).

Definition step_dcs_entry (p : parser) (b : Z) : parser * list event :=
  if (b =? 0x7F) || is_c0 b then (p, [])
  else if is_final b then
    (set_state p DcsPassthrough, [EDcsStart (params p) (intermediates p) b])
  else if is_intermediate b then
    let '(p, fits) := collect p b in
    (set_state p (if fits then DcsIntermediate else DcsIgnore), [])
  else if is_private b then (set_state (collect p b).1 DcsParam, [])
  else if is_digit b then (set_state (push_param_digit p b) DcsParam, [])
  else if is_separator b then (set_state (separator p b) DcsParam, [])
  else (set_state p DcsIgnore, []).

Definition step_dcs_param (p : parser) (b : Z) : parser * list event :=
  if (b =? 0x7F) || is_c0 b then (p, [])
  else if is_digit b then (push_param_digit p b, [])
  else if is_separator b then (separator p b, [])
  else if is_final b then
    (set_state p DcsPassthrough, [EDcsStart (params p) (intermediates p) b])
  else if is_intermediate b then
    let '(p, fits) := collect p b in
    (set_state p (if fits then DcsIntermediate else DcsIgnore), [])
  else (set_state p DcsIgnore, []).

Definition step_dcs_intermediate (p : parser) (b : Z) : parser * list event :=
  if (b =? 0x7F) || is_c0 b then (p, [])
  else if is_intermediate b then
    let '(p, fits) := collect p b in (if fits then p else set_state p DcsIgnore, [])
  else if is_final b then
    (set_state p DcsPassthrough, [EDcsStart (params p) (intermediates p) b])
  else (set_state p DcsIgnore, []).

Definition step_dcs_passthrough (p : parser) (b : Z) : parser * list event :=
  if b =? 0x7F then (p, []) else (p, [EDcsData [b]]).

Definition step_osc (p : parser) (b : Z) : parser * list event :=
  if b =? 0x07 then (clear_sequence (set_state p Ground), [EOsc (osc p)])
  else if is_c0 b then (p, [])
  else (if zlen (osc p) <? kMaxOsc then set_osc p (osc p ++ [b]) else p, []).

Definition is_ground (s : vt_state) : bool := match s with Ground => true | _ => false end.

Definition step (p : parser) (b : Z) : parser * list event :=
  if ((b =? 0x18) || (b =? 0x1A)) && negb (is_ground (state p)) then
    (clear_sequence (set_state p Ground),
     match state p with DcsPassthrough => [EDcsEnd] | _ => [] end ++ [EExecute b])
  else if (b =? 0x1B) && negb (is_ground (state p)) then
    (clear_sequence (set_state p Escape),
     match state p with OscString => [EOsc (osc p)] | DcsPassthrough => [EDcsEnd] | _ => [] end)
  else
    match state p with
    | Ground => step_ground p b
    | Escape => step_escape p b
    | EscapeIntermediate => step_escape_intermediate p b
    | CsiEntry => step_csi_entry p b
    | CsiParam => step_csi_param p b
    | CsiIntermediate => step_csi_intermediate p b
    | CsiIgnore => step_csi_ignore p b
    | DcsEntry => step_dcs_entry p b
    | DcsParam => step_dcs_param p b
    | DcsIntermediate => step_dcs_intermediate p b
    | DcsPassthrough => step_dcs_passthrough p b
    | DcsIgnore => (p, [])
    | OscString => step_osc p b
    | SosPmApcString => (p, [])
    end.

Fixpoint feed (p : parser) (s : bytes) : parser * list event :=
  match s with
  | [] => (p, [])
  | b :: s =>
      let '(p, e1) := step p b in
      let '(p, e2) := feed p s in
      (p, e1 ++ e2)
  end.

Lemma feed_app p s t :
  feed p (s ++ t)
  = let '(p, e1) := feed p s in let '(p, e2) := feed p t in (p, e1 ++ e2).
Proof.
  revert p. induction s as [|b s IH]; intros p; cbn [feed app].
  - by destruct (feed p t).
  - destruct (step p b) as [p1 e1]. rewrite IH. destruct (feed p1 s) as [p2 e2].
    destruct (feed p2 t) as [p3 e3]. by rewrite app_assoc.
Qed.

(** ** What a parser may hold, and what it may emit *)

Definition param_ok (x : param) : Prop := -1 <= p_value x <= kMaxParamValue.

Definition seq_ok (ps : list param) (i o : bytes) : Prop :=
  (length ps <= kMaxParams)%nat /\ Forall param_ok ps /\
  (length i <= kMaxIntermediates)%nat /\ zlen o <= kMaxOsc.

(** The UTF-8 decoder lives inside [Ground]; its accumulator holds the lead's
    [6 - need] bits and six more per continuation seen. *)
Definition utf8_ok (p : parser) : Prop :=
  utf8_need p = 0 \/
  (state p = Ground /\ 1 <= utf8_need p <= 3 /\ 0 <= utf8_seen p < utf8_need p /\
   0 <= utf8_acc p < 2 ^ (6 - utf8_need p + 6 * utf8_seen p) /\ 0x80 <= utf8_min p).

Definition parser_ok (p : parser) : Prop :=
  seq_ok (params p) (intermediates p) (osc p) /\ utf8_ok p.

Definition event_ok (e : event) : Prop :=
  match e with
  | EPrint c => scalar c /\ 0x20 <= c /\ c <> 0x7F
  | EExecute b => 0 <= b < 0x20
  | ECsi ps i f | EDcsStart ps i f => seq_ok ps i [] /\ 0x40 <= f <= 0x7E
  | EEsc i f => (length i <= kMaxIntermediates)%nat /\ byte_ok f
  | EOsc d => zlen d <= kMaxOsc
  | EDcsData d => zlen d = 1
  | EDcsEnd => True
  end.

Definition step_ok (x : parser * list event) : Prop :=
  parser_ok x.1 /\ Forall event_ok x.2.

Lemma kMaxOsc_nonneg : 0 <= kMaxOsc.
Proof. by vm_compute. Qed.

Lemma clear_ok p s : utf8_need p = 0 -> parser_ok (clear_sequence (set_state p s)).
Proof.
  intros H. split; [|by left]. split_and!; cbn; try lia; [done|apply kMaxOsc_nonneg].
Qed.

Lemma set_state_ok p s : utf8_need p = 0 -> parser_ok p -> parser_ok (set_state p s).
Proof. intros H [Hs _]. split; [done|]. by left. Qed.

Lemma param_digit_ok v b :
  is_digit b = true -> -1 <= v <= kMaxParamValue -> 0 <= param_digit v b <= kMaxParamValue.
Proof.
  unfold is_digit, param_digit, kMaxParamValue. intros; zbool.
  destruct (Z.ltb_spec v 0); zcases; zbool; try lia;
    rewrite Z.quot_div_nonneg in * by lia; Z.div_mod_to_equations; lia.
Qed.

Lemma update_back_ok ps b :
  is_digit b = true -> Forall param_ok ps ->
  Forall param_ok (update_back ps b) /\ length (update_back ps b) = length ps.
Proof.
  intros Hb. induction 1 as [|x ps Hx Hps IH]; [done|]. cbn. destruct ps as [|y ps].
  - split; [|done]. constructor; [|done]. unfold param_ok in *. cbn.
    pose proof (param_digit_ok _ _ Hb Hx). lia.
  - destruct IH as [IH1 IH2]. split; [by constructor|]. cbn in *. lia.
Qed.

Lemma param_absent_ok sub : param_ok (Param (-1) sub).
Proof. unfold param_ok, kMaxParamValue. cbn. lia. Qed.

Lemma param_default_ok : param_ok param_default.
Proof. apply param_absent_ok. Qed.

Lemma push_param_digit_ok p b :
  is_digit b = true -> parser_ok p -> parser_ok (push_param_digit p b).
Proof.
  intros Hb [(Hl & Hp & Hi & Ho) Hu]. split; [|exact Hu].
  unfold push_param_digit. cbn [params intermediates osc set_params].
  assert (forall ps, (length ps <= kMaxParams)%nat -> Forall param_ok ps ->
    seq_ok (update_back ps b) (intermediates p) (osc p)) as H.
  { intros ps Hl' Hp'. destruct (update_back_ok ps b Hb Hp') as [? Hlen].
    split_and!; [by rewrite Hlen|done..]. }
  destruct (params p); apply H; try done; [cbn; unfold kMaxParams; lia|].
  by constructor; [apply param_default_ok|].
Qed.

Lemma separator_ok p b : parser_ok p -> parser_ok (separator p b).
Proof.
  intros [(Hl & Hp & Hi & Ho) Hu]. unfold separator.
  assert (forall q, parser_ok q -> parser_ok (next_param q (b =? 58))) as H.
  { intros q [(Hl' & Hp' & Hi' & Ho') Hu']. unfold next_param.
    destruct (Nat.ltb_spec (length (params q)) kMaxParams); [|done].
    split; [|exact Hu']. cbn. split_and!; try done.
    - rewrite length_app. cbn. lia.
    - apply Forall_app. split; [done|]. by constructor; [apply param_absent_ok|]. }
  apply H. destruct (params p) eqn:E; [|by repeat split; try rewrite E].
  split; [|exact Hu]. cbn. split_and!; try done.
  - unfold kMaxParams. cbn. lia.
  - by constructor; [apply param_default_ok|].
Qed.

Lemma collect_ok p b : parser_ok p -> parser_ok (collect p b).1 /\ utf8_need (collect p b).1 = utf8_need p.
Proof.
  intros [(Hl & Hp & Hi & Ho) Hu]. unfold collect.
  destruct (Nat.leb_spec kMaxIntermediates (length (intermediates p))); [done|].
  split; [|done]. split; [|exact Hu]. cbn. split_and!; try done.
  rewrite length_app. cbn. lia.
Qed.

(** The parts of a step, each preserving the invariant. *)

Lemma step_ok_keep p es : parser_ok p -> Forall event_ok es -> step_ok (p, es).
Proof. done. Qed.

Lemma execute_ok b : is_c0 b = true -> byte_ok b -> event_ok (EExecute b).
Proof. unfold is_c0, byte_ok. cbn. intros [[H|H]%orb_true_iff|H]%orb_true_iff ?; zbool; lia. Qed.

Lemma final_ok p b :
  parser_ok p -> is_final b = true ->
  event_ok (ECsi (params p) (intermediates p) b) /\
  event_ok (EDcsStart (params p) (intermediates p) b).
Proof.
  intros [(Hl & Hp & Hi & Ho) _] Hf. unfold is_final in Hf. zbool.
  split; (split; [split_and!; try done; apply kMaxOsc_nonneg|lia]).
Qed.

Lemma esc_ok p b : parser_ok p -> byte_ok b -> event_ok (EEsc (intermediates p) b).
Proof. by intros [(Hl & Hp & Hi & Ho) _] Hb. Qed.

Lemma set_osc_ok p o : zlen o <= kMaxOsc -> parser_ok p -> parser_ok (set_osc p o).
Proof. intros H [(Hl & Hp & Hi & Ho) Hu]. by split. Qed.

Lemma need_params p ps : utf8_need (set_params p ps) = utf8_need p. Proof. done. Qed.

Lemma need_separator p b : utf8_need (separator p b) = utf8_need p.
Proof. unfold separator, next_param. destruct (params p); by case_match. Qed.

(** Outside [Ground] every case is one of the above. *)
Lemma step_case_ok p b :
  parser_ok p -> byte_ok b -> utf8_need p = 0 ->
  step_ok (step_escape p b) /\ step_ok (step_escape_intermediate p b) /\
  step_ok (step_csi_entry p b) /\ step_ok (step_csi_param p b) /\
  step_ok (step_csi_intermediate p b) /\ step_ok (step_csi_ignore p b) /\
  step_ok (step_dcs_entry p b) /\ step_ok (step_dcs_param p b) /\
  step_ok (step_dcs_intermediate p b) /\ step_ok (step_dcs_passthrough p b) /\
  step_ok (step_osc p b).
Proof.
  intros Hp Hb Hn. pose proof kMaxOsc_nonneg as Hk.
  assert (forall s, parser_ok (clear_sequence (set_state p s))) as Hclear by (intros; by apply clear_ok).
  assert (forall s, parser_ok (set_state p s)) as Hset by (intros; by apply set_state_ok).
  destruct (collect_ok p b Hp) as [Hc Hcn].
  assert (forall s, parser_ok (set_state (collect p b).1 s)) as Hcset
    by (intros; apply set_state_ok; congruence || done).
  assert (is_digit b = true -> forall s, parser_ok (set_state (push_param_digit p b) s)) as Hdset.
  { intros Hd s. by apply set_state_ok, push_param_digit_ok. }
  assert (forall s, parser_ok (set_state (separator p b) s)) as Hsset.
  { intros s. apply set_state_ok; [by rewrite need_separator|by apply separator_ok]. }
  pose proof (fun H => push_param_digit_ok p b H Hp) as Hdig.
  pose proof (separator_ok p b Hp) as Hsep.
  pose proof (fun H => execute_ok b H Hb) as Hexe.
  pose proof (fun H => proj1 (final_ok p b Hp H)) as Hcsi.
  pose proof (fun H => proj2 (final_ok p b Hp H)) as Hdcs.
  pose proof (esc_ok p b Hp Hb) as Hesc.
  assert (parser_ok (set_osc (set_state p OscString) [])) as Hosc by (by apply set_osc_ok).
  assert (event_ok (EDcsData [b])) as Hdata by done.
  split_and!;
    unfold step_escape, step_escape_intermediate, step_csi_entry, step_csi_param,
      step_csi_intermediate, step_csi_ignore, step_dcs_entry, step_dcs_param,
      step_dcs_intermediate, step_dcs_passthrough;
    [destruct (collect p b) as [q fits]; cbn [fst] in *;
     repeat case_match; apply step_ok_keep; auto..|].
  unfold step_osc. assert (event_ok (EOsc (osc p))) by (by destruct Hp as [(? & ? & ? & ?) _]).
  destruct (b =? 7); [by apply step_ok_keep; auto|].
  destruct (is_c0 b); [done|]. split; [|done]. cbn.
  destruct (Z.ltb_spec (zlen (osc p)) kMaxOsc); [|done].
  apply set_osc_ok; [rewrite zlen_app, zlen_cons, (@zlen_nil Z); lia|done].
Qed.

Lemma print_ok c : scalar c -> 0x20 <= c -> c <> 0x7F -> event_ok (EPrint c).
Proof. done. Qed.

Lemma replacement_ok : event_ok (EPrint 0xFFFD).
Proof. by split_and!. Qed.

Lemma ground_fresh_ok p b :
  parser_ok p -> byte_ok b -> state p = Ground -> utf8_need p = 0 ->
  step_ok (ground_fresh p b).
Proof.
  intros Hp Hb Hg Hn. unfold ground_fresh.
  destruct (Z.eqb_spec b 0x1B); [split; [by apply clear_ok|done]|].
  destruct (_ || _) eqn:Ec.
  { apply step_ok_keep; [done|]. constructor; [|done]. cbn.
    apply orb_true_iff in Ec as [Ec|Ec]; zbool; lia. }
  destruct (is_c0 b) eqn:E0.
  { apply step_ok_keep; [done|]. constructor; [by apply execute_ok|done]. }
  destruct (Z.eqb_spec b 0x7F); [done|]. destruct (Z.ltb_spec b 0x80).
  { apply step_ok_keep; [done|]. constructor; [|done]. unfold byte_ok in Hb.
    apply orb_false_iff in Ec as [Ec1 Ec2]. unfold is_c0 in E0.
    apply orb_false_iff in E0 as [E0 E1]. zbool. assert (0x20 <= b).
    { apply andb_false_iff in E1 as [E1|E1]; zbool; lia. }
    apply print_ok; [|lia..]. split; [lia|]. unfold is_surrogate. by zrw_false (0xD800 <=? b). }
  destruct Hp as [Hs _].
  assert (forall acc need min, 1 <= need <= 3 -> 0 <= acc < 2 ^ (6 - need) -> 0x80 <= min ->
    step_ok (set_utf8 p acc need 0 min, [])) as H1.
  { intros acc need min Hne Hacc Hm. split; [|done]. split; [done|]. right.
    cbn. rewrite Z.add_0_r. split_and!; try done; lia. }
  unfold utf8_start. change 0x1F with (2 ^ 5 - 1). change 0x0F with (2 ^ 4 - 1).
  change 0x07 with (2 ^ 3 - 1). rewrite !land_mask by lia.
  repeat case_match; try (apply H1; [lia|apply Z.mod_pos_bound; lia|lia]).
  split; [split; [done|by left]|]. constructor; [apply replacement_ok|done].
Qed.

Lemma utf8_byte_ok p b :
  parser_ok p -> byte_ok b -> 0 < utf8_need p -> step_ok (utf8_byte p b).
Proof.
  intros Hp Hb Hn. pose proof Hp as [Hs Hu].
  destruct Hu as [?|(Hg & Hne & Hseen & Hacc & Hmin)]; [lia|].
  unfold utf8_byte. zrw_true (0 <? utf8_need p).
  assert (parser_ok (set_utf8 p 0 0 0 0)) as Hclr by (split; [done|by left]).
  destruct (negb _) eqn:Ec.
  - unfold flush_utf8_as_replacement. zrw_false (utf8_need p =? 0).
    destruct (ground_fresh_ok (set_utf8 p 0 0 0 0) b) as [H1 H2]; try done.
    destruct (ground_fresh _ b) as [q e]. split; [done|]. cbn.
    constructor; [apply replacement_ok|done].
  - apply negb_false_iff in Ec. rewrite cont_byte_test in Ec by done. zbool.
    rewrite tail_acc by (done || lia).
    set (k := 6 - utf8_need p + 6 * utf8_seen p) in *.
    assert (2 ^ (k + 6) = 2 ^ k * 64) as Hpow by (rewrite Z.pow_add_r by lia; lia).
    assert (2 ^ k * 64 <= 4294967296) as Hmax.
    { rewrite <- Hpow. change 4294967296 with (2 ^ 32). apply Z.pow_le_mono_r; lia. }
    unfold to_u32. rewrite Z.mod_small by lia.
    destruct (Z.ltb_spec (utf8_seen p + 1) (utf8_need p)).
    + split; [|done]. split; [done|]. right. cbn.
      replace (6 - utf8_need p + 6 * (utf8_seen p + 1)) with (k + 6) by lia.
      rewrite Hpow. split_and!; try done; lia.
    + destruct (_ || _) eqn:Ebad; (split; [done|]; constructor; [|done]).
      * apply replacement_ok.
      * apply orb_false_iff in Ebad as [Ebad ?]. apply orb_false_iff in Ebad as [? Esur].
        zbool. apply print_ok; [|lia..]. by split; [lia|].
Qed.

Lemma step_ground_ok p b :
  parser_ok p -> byte_ok b -> state p = Ground -> step_ok (step_ground p b).
Proof.
  intros Hp Hb Hg. unfold step_ground, ground_byte.
  assert (utf8_need p = 0 \/ 0 < utf8_need p) as Hn by (destruct Hp as [_ [|]]; lia).
  destruct (Z.eqb_spec b 0x1B) as [->|Hne].
  - unfold flush_utf8_as_replacement. destruct (Z.eqb_spec (utf8_need p) 0) as [E|E].
    + rewrite E. cbn. split; [by apply clear_ok|done].
    + cbn. split; [by apply clear_ok|]. constructor; [apply replacement_ok|done].
  - destruct (Z.ltb_spec 0 (utf8_need p)).
    + pose proof (utf8_byte_ok p b Hp Hb ltac:(done)). by destruct (utf8_byte p b).
    + destruct (ground_fresh_ok p b) as [? ?]; try done; [lia|]. by destruct (ground_fresh p b).
Qed.

Lemma need_outside_ground p : parser_ok p -> state p <> Ground -> utf8_need p = 0.
Proof. intros [_ [?|[? _]]] ?; [done|congruence]. Qed.

(** A literal list of events, each an assumption or trivial. *)
Ltac all_events :=
  repeat (apply List.Forall_cons; [first [assumption | exact I]|]); apply List.Forall_nil.

(** Every step keeps the invariant and emits well-formed events. *)
Lemma step_keeps_ok p b : parser_ok p -> byte_ok b -> step_ok (step p b).
Proof.
  intros Hp Hb. unfold step. destruct (state p) eqn:Es; cbn [is_ground negb];
    rewrite ?andb_false_r, ?andb_true_r; [by apply step_ground_ok|..];
    (assert (utf8_need p = 0) as Hn by (apply need_outside_ground; congruence));
    (assert (event_ok (EOsc (osc p))) as Ho by (by destruct Hp as [(? & ? & ? & ?) _]));
    (destruct ((b =? 0x18) || (b =? 0x1A)) eqn:Ec;
     [split; [by apply clear_ok|];
      assert (event_ok (EExecute b)) by
        (apply orb_true_iff in Ec as [Ec|Ec]; zbool; cbn; lia); cbn;
      all_events|]);
    (destruct (b =? 0x1B); [split; [by apply clear_ok|]; cbn; all_events|]);
    try apply (step_case_ok p b Hp Hb Hn); done.
Qed.

Lemma feed_keeps_ok p s : parser_ok p -> bytes_ok s -> step_ok (feed p s).
Proof.
  intros Hp Hs. revert p Hp. induction Hs as [|b s Hb Hs IH]; intros p Hp; [done|].
  cbn [feed]. destruct (step_keeps_ok p b Hp Hb) as [H1 H2].
  destruct (step p b) as [p1 e1]. destruct (IH p1 H1) as [H3 H4].
  destruct (feed p1 s) as [p2 e2]. split; [done|]. by apply Forall_app.
Qed.

Lemma parser_init_ok : parser_ok parser_init.
Proof. apply (clear_ok (Parser Ground [] [] [] 0 0 0 0) Ground). done. Qed.

(** ** Writing a CSI sequence *)

Definition print_value (v : Z) : bytes := if v <? 0 then [] else to_string v.

Fixpoint print_rest (ps : list param) : bytes :=
  match ps with
  | [] => []
  | x :: ps => (if p_sub x then 58 else 59) :: print_value (p_value x) ++ print_rest ps
  end.

Definition print_params (ps : list param) : bytes :=
  match ps with [] => [] | x :: ps => print_value (p_value x) ++ print_rest ps end.

(** The parameter lists a sequence can carry: the first is not a
    sub-parameter, and a lone absent parameter is no parameter. *)
Definition params_wf (ps : list param) : Prop :=
  (length ps <= kMaxParams)%nat /\ Forall param_ok ps /\
  match ps with
  | [] => True
  | [x] => p_sub x = false /\ 0 <= p_value x
  | x :: _ => p_sub x = false
  end.

Definition print_csi (priv : option Z) (ps : list param) (inters : bytes) (fin : Z) : bytes :=
  [27; 91] ++ (match priv with Some b => [b] | None => [] end)
  ++ print_params ps ++ inters ++ [fin].

Definition csi_wf (priv : option Z) (ps : list param) (inters : bytes) (fin : Z) : Prop :=
  match priv with Some b => is_private b = true | None => True end /\
  params_wf ps /\ Forall (fun b => is_intermediate b = true) inters /\
  (length (match priv with Some b => [b] | None => [] end ++ inters) <= kMaxIntermediates)%nat /\
  is_final fin = true.

#[export] Instance params_wf_dec ps : Decision (params_wf ps).
Proof.
  unfold params_wf, param_ok. destruct ps as [|x [|y ps]]; apply _.
Defined.

#[export] Instance csi_wf_dec priv ps inters fin : Decision (csi_wf priv ps inters fin).
Proof. unfold csi_wf. destruct priv; apply _. Defined.

(** ** Reading it back *)

Section ReadCsi.
Context (o : bytes) (a sn mn : Z).
Local Abbreviation P := (fun s ps i => Parser s ps i o a 0 sn mn).

Lemma class_digit b :
  48 <= b <= 57 -> is_digit b = true /\ is_c0 b = false /\ is_final b = false /\
  is_intermediate b = false /\ is_private b = false /\ is_separator b = false /\
  (b =? 0x7F) = false /\ (b =? 0x18) = false /\ (b =? 0x1A) = false /\ (b =? 0x1B) = false.
Proof.
  intros. unfold is_digit, is_c0, is_final, is_intermediate, is_private, is_separator.
  split_and!; try (ztest; lia).
  all: first [apply andb_true_iff; split; ztest; lia
             | apply andb_false_iff; left; ztest; lia | apply andb_false_iff; right; ztest; lia
             | repeat (apply orb_false_iff; split); try (ztest; lia);
               apply andb_false_iff; right; ztest; lia].
Qed.

Lemma step_digit s ps i b :
  s = CsiEntry \/ s = CsiParam -> 48 <= b <= 57 ->
  step (P s ps i) b = (P CsiParam (update_back (match ps with [] => [param_default] | _ => ps end) b) i, []).
Proof.
  intros Hs Hb. destruct (class_digit b Hb) as (D & C0 & F & I & Pr & Sp & E7 & E18 & E1A & E1B).
  destruct Hs as [-> | ->]; unfold step; cbn [state is_ground negb]; rewrite E18, E1A, E1B;
    cbn [orb andb]; unfold step_csi_entry, step_csi_param; rewrite ?C0, ?E7, ?F, ?I, ?Pr, ?D;
    by destruct ps.
Qed.

Lemma update_back_app ps x b :
  update_back (ps ++ [x]) b = ps ++ [Param (param_digit (p_value x) b) (p_sub x)].
Proof.
  induction ps as [|y ps IH]; [done|]. cbn. rewrite IH. by destruct (ps ++ [x]) eqn:E;
    [apply app_eq_nil in E as [_ ?]|].
Qed.

Lemma feed_digits ps v0 sub i ds :
  Forall (fun b => 48 <= b <= 57) ds ->
  feed (P CsiParam (ps ++ [Param v0 sub]) i) ds
  = (P CsiParam (ps ++ [Param (fold_left param_digit ds v0) sub]) i, []).
Proof.
  intros Hd. revert v0. induction Hd as [|b ds Hb _ IH]; intros v0; [done|]. cbn [feed].
  rewrite step_digit by (done || by right).
  replace (match ps ++ [Param v0 sub] with [] => [param_default] | _ => ps ++ [Param v0 sub] end)
    with (ps ++ [Param v0 sub]) by (by destruct ps).
  rewrite update_back_app, IH. done.
Qed.

Lemma fold_digits v0 n :
  v0 <= 0 -> 0 <= n <= kMaxParamValue -> fold_left param_digit (to_string n) v0 = n.
Proof.
  intros Hv Hn. assert (0 <= n < kDecMax) as Hd.
  { pose proof (eq_refl : (kMaxParamValue <? kDecMax) = true). zbool. lia. }
  revert Hn. pattern n. apply to_string_ind; [..|exact Hd].
  - intros m Hm _. rewrite to_string_step by (pose proof kDecMax_pos; lia).
    zrw_true (m <? 10). cbn [fold_left]. unfold param_digit, kMaxParamValue.
    replace (if v0 <? 0 then 0 else v0) with 0 by (destruct (Z.ltb_spec v0 0); lia).
    replace (48 + m - 48) with m by lia. rewrite Z.quot_div_nonneg by lia.
    zrw_true (0 <=? (65535 - m) / 10). lia.
  - intros m Hm IH Hmax. rewrite to_string_step by (pose proof kDecMax_pos; lia).
    zrw_false (m <? 10). rewrite fold_left_app, IH by (Z.div_mod_to_equations; lia).
    cbn [fold_left]. unfold param_digit, kMaxParamValue in *.
    assert (0 <= m / 10) by (Z.div_mod_to_equations; lia).
    zrw_false (m / 10 <? 0). replace (48 + m mod 10 - 48) with (m mod 10) by lia.
    pose proof (Z.mod_pos_bound m 10 ltac:(lia)). rewrite Z.quot_div_nonneg by lia.
    zrw_true (m / 10 <=? (65535 - m mod 10) / 10). Z.div_mod_to_equations; lia.
Qed.

Lemma feed_value ps sub i v :
  -1 <= v <= kMaxParamValue ->
  feed (P CsiParam (ps ++ [Param (-1) sub]) i) (print_value v)
  = (P CsiParam (ps ++ [Param v sub]) i, []).
Proof.
  intros Hv. unfold print_value. destruct (Z.ltb_spec v 0); [by replace v with (-1) by lia|].
  assert (0 <= v < kDecMax) as Hd.
  { pose proof (eq_refl : (kMaxParamValue <? kDecMax) = true). zbool. lia. }
  rewrite feed_digits by apply (proj1 (to_string_digits v Hd)).
  by rewrite fold_digits by lia.
Qed.

Lemma step_separator s ps i (sub : bool) :
  s = CsiEntry \/ s = CsiParam -> (length ps < kMaxParams)%nat ->
  step (P s ps i) (if sub then 58 else 59)
  = (P CsiParam (match ps with [] => [param_default] | _ => ps end ++ [Param (-1) sub]) i, []).
Proof.
  intros Hs Hl.
  assert (separator (P s ps i) (if sub then 58 else 59)
    = P s (match ps with [] => [param_default] | _ => ps end ++ [Param (-1) sub]) i) as H.
  { unfold separator. replace ((if sub then 58 else 59) =? 58) with sub by (by destruct sub).
    destruct ps as [|x ps]; cbn [params]; unfold next_param; cbn [params set_params].
    - by rewrite (proj2 (Nat.ltb_lt _ _)) by (cbn; unfold kMaxParams; lia).
    - by rewrite (proj2 (Nat.ltb_lt _ _)) by done. }
  destruct Hs as [-> | ->], sub; unfold step; cbn [state is_ground negb Z.eqb Pos.eqb orb andb];
    unfold step_csi_entry, step_csi_param;
    cbn [is_c0 is_final is_intermediate is_private is_digit is_separator Z.eqb Z.leb Pos.eqb
      Z.compare Pos.compare Pos.compare_cont CompOpp orb andb]; by rewrite H.
Qed.

Lemma feed_rest ps x i rest :
  (length (ps ++ x :: rest) <= kMaxParams)%nat -> Forall param_ok rest ->
  feed (P CsiParam (ps ++ [x]) i) (print_rest rest) = (P CsiParam (ps ++ x :: rest) i, []).
Proof.
  revert ps x. induction rest as [|y rest IH]; intros ps x Hl Hr; [done|].
  apply Forall_cons_1 in Hr as [Hy Hr]. cbn [print_rest feed].
  rewrite step_separator by
    first [rewrite !length_app in *; cbn [length] in *; lia | by right].
  replace (match ps ++ [x] with [] => [param_default] | _ => ps ++ [x] end)
    with (ps ++ [x]) by (by destruct ps).
  rewrite feed_app, (feed_value (ps ++ [x])) by apply Hy.
  destruct y as [vy sy]. cbn [p_value p_sub]. rewrite IH; [|by rewrite <- app_assoc|done].
  by rewrite <- app_assoc.
Qed.

(** A non-empty list of parameters, from the entry of the sequence. *)
Lemma feed_params s i ps :
  s = CsiEntry \/ s = CsiParam -> params_wf ps -> ps <> [] ->
  feed (P s [] i) (print_params ps) = (P CsiParam ps i, []).
Proof.
  intros Hs (Hl & Hok & Hfirst) Hne. destruct ps as [|[v sub] ps]; [done|].
  apply Forall_cons_1 in Hok as [Hv Hok]. cbn [p_value] in Hv.
  assert (sub = false) as -> by (destruct ps; cbn in Hfirst; tauto).
  cbn [print_params p_value]. destruct (Z.ltb_spec v 0) as [Hneg|Hpos].
  - assert (v = -1) as -> by (unfold param_ok in Hv; cbn in Hv; lia).
    destruct ps as [|[vy sy] ps]; [cbn in Hfirst; lia|]. cbn [print_value Z.ltb Z.compare app].
    apply Forall_cons_1 in Hok as [Hy Hok]. cbn [print_rest feed p_sub p_value].
    rewrite step_separator by (done || (cbn; unfold kMaxParams; lia)).
    rewrite feed_app, (feed_value [param_default]) by apply Hy.
    rewrite (feed_rest [param_default]) by done. done.
  - assert (0 <= v < kDecMax) as Hd.
    { pose proof (eq_refl : (kMaxParamValue <? kDecMax) = true). zbool. unfold param_ok in Hv.
      cbn in Hv. lia. }
    assert (feed (P s [] i) (print_value v) = (P CsiParam [Param v false] i, [])) as Hfv.
    { unfold print_value. zrw_false (v <? 0).
      destruct (to_string_digits v Hd) as [Hds Hne']. pose proof (fold_digits (-1) v) as Hf.
      destruct (to_string v) as [|d ds]; [done|]. apply Forall_cons_1 in Hds as [Hd1 Hds].
      cbn [feed]. rewrite step_digit by done. cbn [update_back param_default p_value p_sub].
      pose proof (feed_digits [] (param_digit (-1) d) false i ds Hds) as Hfd.
      cbn [app] in Hfd. rewrite Hfd. cbn [fold_left] in Hf.
      by rewrite Hf by (unfold param_ok in Hv; cbn in Hv; lia). }
    pose proof (feed_rest [] (Param v false) i ps Hl Hok) as Hfr. cbn [app] in Hfr.
    by rewrite feed_app, Hfv, Hfr.
Qed.

Lemma class_intermediate b :
  is_intermediate b = true -> is_c0 b = false /\ is_final b = false /\ is_digit b = false /\
  is_separator b = false /\
  (b =? 0x7F) = false /\ (b =? 0x18) = false /\ (b =? 0x1A) = false /\ (b =? 0x1B) = false.
Proof.
  unfold is_digit, is_c0, is_final, is_intermediate, is_separator. intros; zbool.
  split_and!; try (ztest; lia).
  all: first [apply andb_false_iff; left; ztest; lia | apply andb_false_iff; right; ztest; lia
             | repeat (apply orb_false_iff; split); try (ztest; lia);
               apply andb_false_iff; left; ztest; lia].
Qed.

Lemma feed_intermediates s ps i inters :
  s = CsiEntry \/ s = CsiParam \/ s = CsiIntermediate ->
  Forall (fun b => is_intermediate b = true) inters ->
  (length (i ++ inters) <= kMaxIntermediates)%nat ->
  feed (P s ps i) inters
  = (P (match inters with [] => s | _ => CsiIntermediate end) ps (i ++ inters), []).
Proof.
  intros Hs Hi. revert s i Hs. induction Hi as [|b inters Hb _ IH]; intros s i Hs Hl;
    [by rewrite app_nil_r|].
  destruct (class_intermediate b Hb) as (C0 & F & D & Sp & E7 & E18 & E1A & E1B).
  rewrite length_app in Hl. cbn [length] in Hl.
  assert (step (P s ps i) b = (P CsiIntermediate ps (i ++ [b]), [])) as Hst.
  { assert (collect (P s ps i) b = (P s ps (i ++ [b]), true)) as Hc.
    { unfold collect. cbn [intermediates]. by rewrite (proj2 (Nat.leb_gt _ _)) by lia. }
    destruct Hs as [->|[->| ->]]; unfold step; cbn [state is_ground negb];
      rewrite E18, E1A, E1B; cbn [orb andb];
      unfold step_csi_entry, step_csi_param, step_csi_intermediate;
      rewrite ?C0, ?E7, ?F, ?D, ?Sp, Hb, Hc; done. }
  cbn [feed]. rewrite Hst, IH; [|by (right; right)|rewrite !length_app; cbn [length]; lia].
  rewrite <- app_assoc. by destruct inters.
Qed.

Lemma class_final b :
  is_final b = true -> is_c0 b = false /\ is_digit b = false /\ is_separator b = false /\
  is_intermediate b = false /\
  (b =? 0x7F) = false /\ (b =? 0x18) = false /\ (b =? 0x1A) = false /\ (b =? 0x1B) = false.
Proof.
  unfold is_digit, is_c0, is_final, is_separator, is_intermediate. intros; zbool.
  split_and!; try (ztest; lia).
  all: first [apply andb_false_iff; right; ztest; lia
             | repeat (apply orb_false_iff; split); try (ztest; lia);
               apply andb_false_iff; right; ztest; lia].
Qed.

Lemma step_csi_final s ps i b :
  s = CsiEntry \/ s = CsiParam \/ s = CsiIntermediate -> is_final b = true ->
  step (P s ps i) b = (P Ground ps i, [ECsi ps i b]).
Proof.
  intros Hs Hf. destruct (class_final b Hf) as (C0 & D & Sp & I & E7 & E18 & E1A & E1B).
  destruct Hs as [->|[->| ->]]; unfold step; cbn [state is_ground negb];
    rewrite E18, E1A, E1B; cbn [orb andb];
    unfold step_csi_entry, step_csi_param, step_csi_intermediate;
    rewrite ?C0, ?E7, ?D, ?Sp, ?I, ?Hf; done.
Qed.

Lemma step_private b :
  is_private b = true -> step (P CsiEntry [] []) b = (P CsiParam [] [b], []).
Proof.
  intros Hp. assert (is_c0 b = false /\ is_final b = false /\ is_intermediate b = false /\
    (b =? 0x7F) = false /\ (b =? 0x18) = false /\ (b =? 0x1A) = false /\ (b =? 0x1B) = false)
    as (C0 & F & I & E7 & E18 & E1A & E1B).
  { unfold is_private, is_c0, is_final, is_intermediate in *. zbool.
    split_and!; try (ztest; lia).
    all: first [apply andb_false_iff; left; ztest; lia | apply andb_false_iff; right; ztest; lia
               | repeat (apply orb_false_iff; split); try (ztest; lia);
                 apply andb_false_iff; right; ztest; lia]. }
  unfold step; cbn [state is_ground negb]; rewrite E18, E1A, E1B; cbn [orb andb].
  unfold step_csi_entry. by rewrite C0, E7, F, I, Hp.
Qed.
End ReadCsi.

(** [ESC] from anywhere: the interrupted sequence is ended, a fresh one starts. *)
Lemma step_esc p :
  parser_ok p ->
  exists a sn mn, (step p 27).1 = Parser Escape [] [] [] a 0 sn mn.
Proof.
  intros Hp. destruct (decide (state p = Ground)) as [Es|Es].
  - unfold step. rewrite Es. cbn [is_ground negb]. rewrite !andb_false_r.
    unfold step_ground, flush_utf8_as_replacement. change (27 =? 27) with true. cbv iota.
    destruct p as [st ps i o ac nd sn mn]. cbn in Es |- *. subst.
    destruct (Z.eqb_spec nd 0) as [->|E]; do 3 eexists; reflexivity.
  - pose proof (need_outside_ground p Hp Es) as Hn. destruct p as [st ps i o ac nd sn mn].
    cbn in Es, Hn. subst. do 3 eexists. by destruct st.
Qed.

Lemma feed_csi p priv ps inters fin :
  parser_ok p -> csi_wf priv ps inters fin ->
  exists a sn mn,
    feed p (print_csi priv ps inters fin)
    = (Parser Ground ps (match priv with Some b => [b] | None => [] end ++ inters) [] a 0 sn mn,
       (step p 27).2 ++ [ECsi ps (match priv with Some b => [b] | None => [] end ++ inters) fin]).
Proof.
  intros Hp (Hpriv & Hps & Hi & Hl & Hf). destruct (step_esc p Hp) as (a & sn & mn & Hesc).
  exists a, sn, mn. unfold print_csi. cbn [app]. cbn [feed].
  destruct (step p 27) as [p1 e1]. cbn [fst snd] in *. subst p1.
  set (i0 := match priv with Some b => [b] | None => [] end) in *.
  assert (exists s, (s = CsiEntry \/ s = CsiParam) /\
    feed (Parser CsiEntry [] [] [] a 0 sn mn) i0 = (Parser s [] i0 [] a 0 sn mn, [])) as (s & Hs & H0).
  { subst i0. destruct priv as [b|]; [|by exists CsiEntry; split; [left|]].
    exists CsiParam. split; [by right|]. cbn [feed]. by rewrite step_private. }
  assert (exists s, (s = CsiEntry \/ s = CsiParam) /\
    feed (Parser CsiEntry [] [] [] a 0 sn mn) (i0 ++ print_params ps)
    = (Parser s ps i0 [] a 0 sn mn, [])) as (s' & Hs' & H1).
  { rewrite feed_app, H0. destruct ps as [|x ps]; [by exists s|].
    exists CsiParam. split; [by right|]. by rewrite feed_params. }
  rewrite app_assoc. change (step (Parser Escape [] [] [] a 0 sn mn) 91)
    with (Parser CsiEntry [] [] [] a 0 sn mn, @nil event). cbv iota beta.
  rewrite feed_app, H1, feed_app, feed_intermediates by (done || tauto).
  cbn [feed]. rewrite step_csi_final by (done || destruct inters; tauto).
  by rewrite !app_nil_l.
Qed.

(** ** Text *)

Definition printable (c : Z) : Prop := scalar c /\ 0x20 <= c /\ c <> 0x7F.

#[export] Instance printable_dec c : Decision (printable c).
Proof. unfold printable, scalar. apply _. Defined.

(** In [Ground] with no character pending. *)
Definition idle (p : parser) : Prop := state p = Ground /\ utf8_need p = 0.

Lemma step_idle p b : idle p -> 0x20 <= b -> step p b = ground_fresh p b.
Proof.
  intros [Hg Hn] Hb. unfold step. rewrite Hg. cbn [is_ground negb]. rewrite !andb_false_r.
  unfold step_ground, ground_byte. zrw_false (b =? 0x1B). rewrite Hn. cbn [Z.ltb Z.compare].
  by destruct (ground_fresh p b).
Qed.

Lemma step_cont p b :
  state p = Ground -> 0 < utf8_need p -> 0 <= utf8_acc p < 2 ^ 20 -> 128 <= b < 192 ->
  step p b
  = let acc := utf8_acc p * 64 + (b - 128) in
    if utf8_seen p + 1 <? utf8_need p
    then (set_utf8 p acc (utf8_need p) (utf8_seen p + 1) (utf8_min p), [])
    else (set_utf8 p 0 0 0 0,
          [EPrint (if (acc <? utf8_min p) || is_surrogate acc || (0x10FFFF <? acc)
                   then 0xFFFD else acc)]).
Proof.
  intros Hg Hn Ha Hb. assert (byte_ok b) as Hbk by (unfold byte_ok; lia).
  unfold step. rewrite Hg. cbn [is_ground negb]. rewrite !andb_false_r.
  unfold step_ground, ground_byte. zrw_false (b =? 0x1B). zrw_true (0 <? utf8_need p).
  unfold utf8_byte. zrw_true (0 <? utf8_need p). rewrite cont_byte_test by done.
  zrw_true (128 <=? b). zrw_true (b <? 192). cbn [andb negb].
  rewrite tail_acc by done. change (2 ^ 20) with 1048576 in Ha.
  unfold to_u32. rewrite Z.mod_small by lia. cbv zeta.
  destruct (_ <? utf8_need p); [done|]. unfold is_surrogate. by destruct (_ || _ || _).
Qed.

Lemma ground_fresh_lead p b : 0x80 <= b -> ground_fresh p b = utf8_start p b.
Proof.
  intros. unfold ground_fresh, is_c0.
  zrw_false (b =? 0x1B). zrw_false (b =? 0x18). zrw_false (b =? 0x1A). zrw_false (b <=? 0x17).
  zrw_false (b =? 0x19). zrw_false (b <=? 0x1F). rewrite andb_false_r.
  zrw_false (b =? 0x7F). by zrw_false (b <? 0x80).
Qed.

Lemma utf8_start_2 p x :
  2 <= x < 32 -> utf8_start p (192 + x) = (set_utf8 p x 1 0 0x80, []).
Proof.
  intros. unfold utf8_start. zrw_true (0xC2 <=? 192 + x). zrw_true (192 + x <=? 0xDF).
  change 0x1F with (2 ^ 5 - 1). rewrite land_mask by lia. cbn [andb]. do 2 f_equal.
  change (2 ^ 5) with 32. Z.div_mod_to_equations; lia.
Qed.

Lemma utf8_start_3 p x :
  0 <= x < 16 -> utf8_start p (224 + x) = (set_utf8 p x 2 0 0x800, []).
Proof.
  intros. unfold utf8_start. zrw_false (224 + x <=? 0xDF). rewrite andb_false_r.
  zrw_true (0xE0 <=? 224 + x). zrw_true (224 + x <=? 0xEF).
  change 0x0F with (2 ^ 4 - 1). rewrite land_mask by lia. cbn [andb]. do 2 f_equal.
  change (2 ^ 4) with 16. Z.div_mod_to_equations; lia.
Qed.

Lemma utf8_start_4 p x :
  0 <= x < 5 -> utf8_start p (240 + x) = (set_utf8 p x 3 0 0x10000, []).
Proof.
  intros. unfold utf8_start. zrw_false (240 + x <=? 0xDF). rewrite andb_false_r.
  zrw_false (240 + x <=? 0xEF). rewrite andb_false_r.
  zrw_true (0xF0 <=? 240 + x). zrw_true (240 + x <=? 0xF4).
  change 0x07 with (2 ^ 3 - 1). rewrite land_mask by lia. cbn [andb]. do 2 f_equal.
  change (2 ^ 3) with 8. Z.div_mod_to_equations; lia.
Qed.

(** One character, however many bytes it takes. *)
Lemma feed_char p c :
  idle p -> printable c ->
  exists p', feed p (encode_utf8 c) = (p', [EPrint c]) /\ idle p'.
Proof.
  intros Hi ([Hr Hsur] & H20 & H7F). rewrite encode_utf8_arith by done. unfold encode_arith.
  pose proof Hi as [Hg Hn]. change 0x20 with 32 in *. change 0x7F with 127 in *.
  destruct (Z.ltb_spec c 0x80).
  { exists p. split; [|done]. cbn [feed]. rewrite step_idle by (done || lia).
    unfold ground_fresh, is_c0. zrw_false (c =? 0x1B). zrw_false (c =? 0x18).
    zrw_false (c =? 0x1A). zrw_false (c <=? 0x17). zrw_false (c =? 0x19).
    zrw_false (c <=? 0x1F). rewrite andb_false_r. zrw_false (c =? 0x7F). by zrw_true (c <? 0x80). }
  exists (set_utf8 p 0 0 0 0). split; [|done].
  destruct (Z.ltb_spec c 0x800); [|destruct (Z.ltb_spec c 0x10000)]; cbn [feed].
  - rewrite step_idle, ground_fresh_lead, utf8_start_2 by (done || Z.div_mod_to_equations; lia).
    rewrite step_cont by (cbn; done || Z.div_mod_to_equations; lia).
    cbn [set_utf8 utf8_seen utf8_need utf8_acc utf8_min]. zrw_false (0 + 1 <? 1).
    replace (c / 64 * 64 + (128 + c mod 64 - 128)) with c by (Z.div_mod_to_equations; lia).
    rewrite Hsur. zrw_false (c <? 0x80). by zrw_false (0x10FFFF <? c).
  - rewrite step_idle, ground_fresh_lead, utf8_start_3 by (done || Z.div_mod_to_equations; lia).
    rewrite step_cont by (cbn; done || Z.div_mod_to_equations; lia).
    cbn [set_utf8 utf8_seen utf8_need utf8_acc utf8_min]. zrw_true (0 + 1 <? 2).
    rewrite step_cont by (cbn; done || Z.div_mod_to_equations; lia).
    cbn [set_utf8 utf8_seen utf8_need utf8_acc utf8_min]. zrw_false (0 + 1 + 1 <? 2).
    replace ((c / 4096 * 64 + (128 + c / 64 mod 64 - 128)) * 64 + (128 + c mod 64 - 128))
      with c by (Z.div_mod_to_equations; lia).
    rewrite Hsur. zrw_false (c <? 0x800). by zrw_false (0x10FFFF <? c).
  - rewrite step_idle, ground_fresh_lead, utf8_start_4 by (done || Z.div_mod_to_equations; lia).
    rewrite step_cont by (cbn; done || Z.div_mod_to_equations; lia).
    cbn [set_utf8 utf8_seen utf8_need utf8_acc utf8_min]. zrw_true (0 + 1 <? 3).
    rewrite step_cont by (cbn; done || Z.div_mod_to_equations; lia).
    cbn [set_utf8 utf8_seen utf8_need utf8_acc utf8_min]. zrw_true (0 + 1 + 1 <? 3).
    rewrite step_cont by (cbn; done || Z.div_mod_to_equations; lia).
    cbn [set_utf8 utf8_seen utf8_need utf8_acc utf8_min]. zrw_false (0 + 1 + 1 + 1 <? 3).
    replace (((c / 262144 * 64 + (128 + c / 4096 mod 64 - 128)) * 64
      + (128 + c / 64 mod 64 - 128)) * 64 + (128 + c mod 64 - 128))
      with c by (Z.div_mod_to_equations; lia).
    rewrite Hsur. zrw_false (c <? 0x10000). by zrw_false (0x10FFFF <? c).
Qed.

Lemma feed_text p cps :
  idle p -> Forall printable cps ->
  exists p', feed p (concat (encode_utf8 <$> cps)) = (p', EPrint <$> cps) /\ idle p'.
Proof.
  intros Hi Hc. revert p Hi. induction Hc as [|c cps Hc _ IH]; intros p Hi; [by exists p|].
  rewrite !fmap_cons. cbn [concat]. rewrite feed_app.
  destruct (feed_char p c Hi Hc) as (p1 & -> & Hi1). destruct (IH p1 Hi1) as (p2 & -> & Hi2).
  by exists p2.
Qed.

(** ** Window titles *)

Definition osc_byte (b : Z) : Prop := 0x20 <= b < 256.

Lemma feed_osc_data o a sn mn ps i data :
  Forall osc_byte data -> zlen o <= kMaxOsc ->
  feed (Parser OscString ps i o a 0 sn mn) data
  = (Parser OscString ps i (o ++ take (Z.to_nat (kMaxOsc - zlen o)) data) a 0 sn mn, []).
Proof.
  intros Hd. revert o. induction Hd as [|b data Hb _ IH]; intros o Ho;
    [by rewrite take_nil, app_nil_r|]. unfold osc_byte in Hb. cbn [feed].
  assert (step (Parser OscString ps i o a 0 sn mn) b
    = (Parser OscString ps i (if zlen o <? kMaxOsc then o ++ [b] else o) a 0 sn mn, [])) as ->.
  { unfold step. cbn [state is_ground negb]. zrw_false (b =? 0x18). zrw_false (b =? 0x1A).
    zrw_false (b =? 0x1B). cbn [orb andb]. unfold step_osc, is_c0.
    zrw_false (b =? 0x07). zrw_false (b <=? 0x17). zrw_false (b =? 0x19). zrw_false (b <=? 0x1F).
    rewrite andb_false_r. cbn [orb osc]. by destruct (zlen o <? kMaxOsc). }
  destruct (Z.ltb_spec (zlen o) kMaxOsc).
  - rewrite IH by (rewrite zlen_app, zlen_cons, (@zlen_nil Z); lia). f_equal. f_equal.
    rewrite zlen_app, zlen_cons, (@zlen_nil Z), <- app_assoc. f_equal. cbn [app].
    replace (Z.to_nat (kMaxOsc - zlen o)) with (S (Z.to_nat (kMaxOsc - (zlen o + (1 + 0))))) by lia.
    done.
  - rewrite IH by done. by replace (Z.to_nat (kMaxOsc - zlen o)) with 0%nat by lia.
Qed.

(** ** Properties *)

(** C23: Hostile output cannot make the parser grow or emit nonsense: after any
    bytes whatsoever it holds at most 32 parameters, each absent or within
    [0, 65535], at most 4 intermediates and 4096 bytes of OSC, its UTF-8
    accumulator fits its 32 bits; and everything it calls the sink with is in
    range: printed characters are Unicode scalars outside C0 and DEL, executed
    bytes are C0, finals are finals. *)
Theorem parser_safe s :
  bytes_ok s ->
  parser_ok (feed parser_init s).1 /\ Forall event_ok (feed parser_init s).2.
Proof. intros Hs. by apply feed_keeps_ok; [apply parser_init_ok|]. Qed.

Lemma parser_safe_witness :
  let s := [27; 91; 57; 57; 57; 57; 57; 57; 58; 109; 195; 65; 27; 93; 50; 27; 92] in
  parser_ok (feed parser_init s).1 /\ Forall event_ok (feed parser_init s).2.
Proof. apply parser_safe. apply (bool_decide_unpack _). by vm_compute. Defined.

(** Resynchronisation and CSI round trip: from any reachable state, in the
    middle of any sequence or character, the bytes of a well-formed CSI
    sequence first end what was interrupted, exactly as a lone ESC does, then
    make exactly the call they spell -- parameters, absent ones,
    sub-parameters, private marker, intermediates and final -- and leave the
    machine in [Ground] with no character pending. *)
Theorem csi_roundtrip p priv ps inters fin :
  parser_ok p -> csi_wf priv ps inters fin ->
  let '(p', es) := feed p (print_csi priv ps inters fin) in
  es = (step p 27).2 ++ [ECsi ps (match priv with Some b => [b] | None => [] end ++ inters) fin] /\
  idle p'.
Proof. intros Hp Hc. by destruct (feed_csi p priv ps inters fin Hp Hc) as (a & sn & mn & ->). Qed.

Lemma csi_roundtrip_witness :
  let p := (feed parser_init [27; 93; 50; 59; 195; 169]).1 in
  let ps := [Param 38 false; Param 2 true; Param (-1) true; Param 300 false] in
  let '(p', es) := feed p (print_csi (Some 63) ps [32] 113) in
  es = (step p 27).2 ++ [ECsi ps ([63] ++ [32]) 113] /\ idle p'.
Proof.
  apply (csi_roundtrip _ (Some 63)).
  - apply feed_keeps_ok; [apply parser_init_ok|]. apply (bool_decide_unpack _). by vm_compute.
  - apply (bool_decide_unpack _). by vm_compute.
Defined.

(** Text is printed character for character: the UTF-8 encoding of any
    sequence of printable characters, read from rest, prints exactly these
    characters in order and returns to rest. *)
Theorem text_is_printed p cps :
  idle p -> Forall printable cps ->
  let '(p', es) := feed p (concat (encode_utf8 <$> cps)) in
  es = EPrint <$> cps /\ idle p'.
Proof. intros Hi Hc. by destruct (feed_text p cps Hi Hc) as (p' & -> & ?). Qed.

Lemma text_is_printed_witness :
  let '(p', es) := feed parser_init (concat (encode_utf8 <$> [97; 233; 8364; 128512])) in
  es = EPrint <$> [97; 233; 8364; 128512] /\ idle p'.
Proof.
  apply (text_is_printed parser_init [97; 233; 8364; 128512]); [done|].
  apply (bool_decide_unpack _). by vm_compute.
Defined.

(** An OSC string reaches the sink whole up to 4096 bytes and truncated
    beyond, never dropped, from any reachable state, with either terminator:
    BEL, or ESC followed by a backslash. *)
Theorem osc_delivered p data :
  parser_ok p -> Forall osc_byte data ->
  (feed p ([27; 93] ++ data ++ [7])).2
    = (step p 27).2 ++ [EOsc (take (Z.to_nat kMaxOsc) data)] /\
  (feed p ([27; 93] ++ data ++ [27; 92])).2
    = (step p 27).2 ++ [EOsc (take (Z.to_nat kMaxOsc) data); EEsc [] 92].
Proof.
  intros Hp Hd. destruct (step_esc p Hp) as (a & sn & mn & Hesc).
  pose proof (feed_osc_data [] a sn mn [] [] data Hd kMaxOsc_nonneg) as Hf.
  rewrite Z.sub_0_r in Hf. cbn [app] in Hf.
  split; cbn [app feed]; destruct (step p 27) as [p1 e1]; cbn [fst snd] in *; subst p1;
    change (step (Parser Escape [] [] [] a 0 sn mn) 93)
      with (Parser OscString [] [] [] a 0 sn mn, @nil event); cbv iota beta;
    rewrite feed_app, Hf; generalize (take (Z.to_nat kMaxOsc) data); intros out; reflexivity.
Qed.

Lemma osc_delivered_witness :
  (feed parser_init ([27; 93] ++ [50; 59; 116] ++ [7])).2
    = (step parser_init 27).2 ++ [EOsc (take (Z.to_nat kMaxOsc) [50; 59; 116])] /\
  (feed parser_init ([27; 93] ++ [50; 59; 116] ++ [27; 92])).2
    = (step parser_init 27).2 ++ [EOsc (take (Z.to_nat kMaxOsc) [50; 59; 116]); EEsc [] 92].
Proof.
  apply osc_delivered; [apply parser_init_ok|]. repeat constructor; by vm_compute.
Defined.
