(* ===== verification/VtAttrs.v ===== *)
(** * SGR: [src/vt/attrs.hpp], [src/vt/attrs.cpp]

    The parameters of a [CSI ... m] applied to a style.  The loop advances by
    groups -- a code with its colon sub-parameters -- and by whole extended
    colours. *)

From S2P Require Import Prelude Cell VtParser.

(** [p[i].value]: the index is always in range where the code reads it. *)
Definition value_at (p : list param) (i : nat) : Z := p_value (default param_default (p !! i)).

Definition is_byte (v : Z) : bool := (0 <=? v) && (v <=? 255).

Definition read_extended (p : list param) (first last : nat) : option color :=
  if (last <=? first)%nat then None
  else
    let mode := value_at p first in
    let args := (last - first - 1)%nat in
    if mode =? 5 then
      if (args <? 1)%nat then None
      else
        let idx := value_at p (last - 1) in
        if negb (is_byte idx) then None else Some (CIndexed (to_u8 idx))
    else if mode =? 2 then
      if (args <? 3)%nat then None
      else
        let r := value_at p (last - 3) in
        let g := value_at p (last - 2) in
        let b := value_at p (last - 1) in
        if negb (is_byte r) || negb (is_byte g) || negb (is_byte b) then None
        else Some (CRgb (to_u8 r) (to_u8 g) (to_u8 b))
    else None.

Definition flat_extent (p : list param) (first : nat) : nat :=
  if (length p <=? first)%nat then first
  else
    let mode := value_at p first in
    let want := (first + 1)%nat in
    let want := if mode =? 5 then (first + 2)%nat else want in
    let want := if mode =? 2 then (first + 4)%nat else want in
    if (want <? length p)%nat then want else length p.

(** [while (end < params.size() && params[end].sub) ++end]. *)
Fixpoint sub_run (p : list param) : nat :=
  match p with
  | x :: p => if p_sub x then S (sub_run p) else 0%nat
  | [] => 0%nat
  end.

Definition group_end (p : list param) (i : nat) : nat := (i + 1 + sub_run (drop (i + 1) p))%nat.

Definition attr_on (s : style) (a : Z) : style := Style (fg s) (bg s) (Z.lor (attrs s) a).
Definition attr_off (s : style) (a : Z) : style := Style (fg s) (bg s) (Z.land (attrs s) (Z.lnot a)).
Definition set_fg (s : style) (c : color) : style := Style c (bg s) (attrs s).
Definition set_bg (s : style) (c : color) : style := Style (fg s) c (attrs s).

(** The [switch (code)]; [i] and [end'] delimit the group. *)
Definition sgr_code (p : list param) (i end' : nat) (code : Z) (s : style) : style :=
  if code =? 0 then style_default
  else if code =? 1 then attr_on s Bold
  else if code =? 2 then attr_on s Dim
  else if code =? 3 then attr_on s Italic
  else if code =? 4 then
    if (i + 1 <? end')%nat && (param_or p (i + 1) 1 =? 0)
    then attr_off s Underline else attr_on s Underline
  else if (code =? 5) || (code =? 6) then attr_on s Blink
  else if code =? 7 then attr_on s Reverse
  else if code =? 8 then attr_on s Hidden
  else if code =? 9 then attr_on s Strike
  else if code =? 21 then attr_on s Underline
  else if code =? 22 then attr_off s (Z.lor Bold Dim)
  else if code =? 23 then attr_off s Italic
  else if code =? 24 then attr_off s Underline
  else if code =? 25 then attr_off s Blink
  else if code =? 27 then attr_off s Reverse
  else if code =? 28 then attr_off s Hidden
  else if code =? 29 then attr_off s Strike
  else if code =? 39 then set_fg s CDefault
  else if code =? 49 then set_bg s CDefault
  else if (30 <=? code) && (code <=? 37) then set_fg s (CIndexed (to_u8 (code - 30)))
  else if (40 <=? code) && (code <=? 47) then set_bg s (CIndexed (to_u8 (code - 40)))
  else if (90 <=? code) && (code <=? 97) then set_fg s (CIndexed (to_u8 (code - 90 + 8)))
  else if (100 <=? code) && (code <=? 107) then set_bg s (CIndexed (to_u8 (code - 100 + 8)))
  else s.

(** One turn of the loop: the style and the next index. *)
Definition sgr_turn (p : list param) (i : nat) (s : style) : style * nat :=
  let end' := group_end p i in
  let code := if value_at p i <? 0 then 0 else value_at p i in
  if (code =? 38) || (code =? 48) || (code =? 58) then
    let first := (i + 1)%nat in
    let last := if (first <? end')%nat then end' else flat_extent p first in
    let s := match read_extended p first last with
             | Some c =>
                 let s := if code =? 38 then set_fg s c else s in
                 if code =? 48 then set_bg s c else s
             | None => s
             end in
    (s, if (i <? last)%nat then last else (i + 1)%nat)
  else (sgr_code p i end' code s, end').

Fixpoint sgr_loop (fuel : nat) (p : list param) (i : nat) (s : style) : style :=
  match fuel with
  | O => s
  | S fuel =>
      if (i <? length p)%nat then
        let '(s, i) := sgr_turn p i s in sgr_loop fuel p i s
      else s
  end.

(** Every turn advances: [length p] turns are enough. *)
Definition apply_sgr (p : list param) (s : style) : style :=
  match p with [] => style_default | _ => sgr_loop (length p) p 0 s end.

(** ** Every turn advances *)

Lemma flat_extent_ge p first : (first <= flat_extent p first)%nat.
Proof.
  unfold flat_extent. destruct (Nat.leb_spec (length p) first); [lia|].
  repeat case_match; lia.
Qed.

Lemma sgr_turn_advances p i s : (i < (sgr_turn p i s).2)%nat.
Proof.
  unfold sgr_turn, group_end. destruct (_ || _ || _); cbn [snd]; [|lia].
  destruct (Nat.ltb_spec i
    (if (i + 1 <? i + 1 + sub_run (drop (i + 1) p))%nat
     then (i + 1 + sub_run (drop (i + 1) p))%nat else flat_extent p (i + 1))); lia.
Qed.

(** Fuel beyond the length changes nothing. *)
Lemma sgr_loop_fuel f1 f2 p i s :
  (length p <= i + f1)%nat -> (length p <= i + f2)%nat -> sgr_loop f1 p i s = sgr_loop f2 p i s.
Proof.
  revert f2 i s. induction f1 as [|f1 IH]; intros f2 i s H1 H2.
  - destruct f2; cbn [sgr_loop]; [done|]. by rewrite (proj2 (Nat.ltb_ge _ _)) by lia.
  - destruct f2 as [|f2]; cbn [sgr_loop]; [by rewrite (proj2 (Nat.ltb_ge _ _)) by lia|].
    destruct (Nat.ltb_spec i (length p)); [|done].
    pose proof (sgr_turn_advances p i s). destruct (sgr_turn p i s) as [s' i']. cbn in *.
    apply IH; lia.
Qed.

(** ** Reading from an index is reading the tail *)

Lemma value_at_drop p i j : value_at p (i + j) = value_at (drop i p) j.
Proof. unfold value_at. by rewrite lookup_drop. Qed.

Lemma flat_extent_drop p i j :
  (i <= length p)%nat -> flat_extent p (i + j) = (i + flat_extent (drop i p) j)%nat.
Proof.
  intros Hi. unfold flat_extent. rewrite length_drop, <- value_at_drop.
  destruct (Nat.leb_spec (length p) (i + j)), (Nat.leb_spec (length p - i) j); try lia.
  cbv zeta. repeat match goal with |- context [value_at p (i + j) =? ?k] =>
    destruct (value_at p (i + j) =? k) end;
  repeat match goal with |- context [(?a <? ?b)%nat] => destruct (Nat.ltb_spec a b) end; lia.
Qed.

Lemma read_extended_drop p i first last :
  read_extended p (i + first) (i + last) = read_extended (drop i p) first last.
Proof.
  unfold read_extended.
  destruct (Nat.leb_spec (i + last) (i + first)), (Nat.leb_spec last first); try lia; [done|].
  rewrite <- value_at_drop. replace (i + last - (i + first) - 1)%nat with (last - first - 1)%nat by lia.
  repeat (destruct (value_at p (i + first) =? _)).
  - destruct (Nat.ltb_spec (last - first - 1) 1); [done|].
    replace (i + last - 1)%nat with (i + (last - 1))%nat by lia. by rewrite value_at_drop.
  - destruct (Nat.ltb_spec (last - first - 1) 3); [done|].
    replace (i + last - 1)%nat with (i + (last - 1))%nat by lia.
    replace (i + last - 2)%nat with (i + (last - 2))%nat by lia.
    replace (i + last - 3)%nat with (i + (last - 3))%nat by lia. by rewrite !value_at_drop.
  - done.
Qed.

Lemma if_nat_add (b : bool) (i x y : nat) :
  (i + (if b then x else y) = if b then i + x else i + y)%nat.
Proof. by destruct b. Qed.

Lemma sgr_turn_drop p i j s :
  (i <= length p)%nat ->
  sgr_turn p (i + j) s = let '(s', k) := sgr_turn (drop i p) j s in (s', (i + k)%nat).
Proof.
  intros Hi. unfold sgr_turn. rewrite value_at_drop.
  assert (group_end p (i + j) = i + group_end (drop i p) j)%nat as Hg.
  { unfold group_end. rewrite drop_drop. replace (i + (j + 1))%nat with (i + j + 1)%nat by lia. lia. }
  rewrite Hg. set (ge := group_end (drop i p) j).
  replace (i + j + 1)%nat with (i + (j + 1))%nat by lia.
  rewrite flat_extent_drop by done.
  replace (i + (j + 1) <? i + ge)%nat with (j + 1 <? ge)%nat
    by (destruct (Nat.ltb_spec (j + 1) ge), (Nat.ltb_spec (i + (j + 1)) (i + ge)); lia).
  set (code := if value_at (drop i p) j <? 0 then 0 else value_at (drop i p) j).
  destruct (_ || _ || _).
  - rewrite <- (if_nat_add (j + 1 <? ge)%nat), read_extended_drop. f_equal.
    set (last := if (j + 1 <? ge)%nat then ge else flat_extent (drop i p) (j + 1)).
    destruct (Nat.ltb_spec (i + j) (i + last)), (Nat.ltb_spec j last); lia.
  - f_equal. unfold sgr_code, param_or.
    replace (i + j + 1)%nat with (i + (j + 1))%nat by lia. rewrite lookup_drop.
    by replace (i + (j + 1) <? i + ge)%nat with (j + 1 <? ge)%nat
      by (destruct (Nat.ltb_spec (j + 1) ge), (Nat.ltb_spec (i + (j + 1)) (i + ge)); lia).
Qed.

Lemma sgr_loop_drop fuel p i j s :
  (i <= length p)%nat -> sgr_loop fuel p (i + j) s = sgr_loop fuel (drop i p) j s.
Proof.
  intros Hi. revert j s. induction fuel as [|fuel IH]; intros j s; [done|]. cbn [sgr_loop].
  rewrite length_drop.
  destruct (Nat.ltb_spec (i + j) (length p)), (Nat.ltb_spec j (length p - i)); try lia; [|done].
  rewrite sgr_turn_drop by done. destruct (sgr_turn (drop i p) j s) as [s' k]. apply IH.
Qed.

(** The loop over a whole list, without the special case of the empty one. *)
Definition sgr_run (p : list param) (s : style) : style := sgr_loop (length p) p 0 s.

Lemma apply_sgr_run p s : p <> [] -> apply_sgr p s = sgr_run p s.
Proof. by destruct p. Qed.

Lemma sgr_run_turn p s :
  p <> [] -> sgr_run p s = sgr_run (drop (sgr_turn p 0 s).2 p) (sgr_turn p 0 s).1.
Proof.
  intros Hp. unfold sgr_run. destruct p as [|x p]; [done|].
  change (sgr_loop (length (x :: p)) (x :: p) 0 s)
    with (let '(s', i) := sgr_turn (x :: p) 0 s in sgr_loop (length p) (x :: p) i s').
  pose proof (sgr_turn_advances (x :: p) 0 s).
  destruct (sgr_turn (x :: p) 0 s) as [s' n]. cbn [fst snd] in *.
  destruct (Nat.leb_spec n (length (x :: p))).
  - rewrite <- (Nat.add_0_r n) at 1. rewrite sgr_loop_drop by done.
    apply sgr_loop_fuel; rewrite ?length_drop; cbn [length] in *; lia.
  - rewrite drop_ge by lia. cbn [length sgr_loop].
    destruct (length p); cbn [sgr_loop]; [done|].
    by rewrite (proj2 (Nat.ltb_ge _ _)) by lia.
Qed.

(** ** Styles stay well-formed *)

Lemma to_u8_byte v : byte_ok (to_u8 v).
Proof. apply Z.mod_pos_bound. lia. Qed.

Definition attr_masks : list Z :=
  [Bold; Dim; Italic; Underline; Blink; Reverse; Hidden; Strike; Z.lor Bold Dim].

Lemma attr_mask_ok a b :
  b ∈ attr_masks -> 0 <= a < 256 -> 0 <= Z.lor a b < 256 /\ 0 <= Z.land a (Z.lnot b) < 256.
Proof.
  intros Hb Ha.
  assert (forallb (fun a => forallb (fun b => (0 <=? Z.lor a b) && (Z.lor a b <? 256)
    && (0 <=? Z.land a (Z.lnot b)) && (Z.land a (Z.lnot b) <? 256)) attr_masks) all_bytes = true)
    as H by (vm_compute; reflexivity).
  pose proof (byte_check _ a H Ha) as H1. cbn beta in H1. rewrite forallb_forall in H1.
  specialize (H1 b). rewrite <- list_elem_of_In in H1. specialize (H1 Hb). zbool. lia.
Qed.

Lemma attr_on_ok s b : b ∈ attr_masks -> style_ok s -> style_ok (attr_on s b).
Proof. intros Hb (? & ? & Ha). split_and!; try done; by apply attr_mask_ok. Qed.

Lemma attr_off_ok s b : b ∈ attr_masks -> style_ok s -> style_ok (attr_off s b).
Proof. intros Hb (? & ? & Ha). split_and!; try done; by apply attr_mask_ok. Qed.

Lemma set_fg_ok s c : color_ok c -> style_ok s -> style_ok (set_fg s c).
Proof. by intros ? (? & ? & ?). Qed.

Lemma set_bg_ok s c : color_ok c -> style_ok s -> style_ok (set_bg s c).
Proof. by intros ? (? & ? & ?). Qed.

#[export] Hint Resolve attr_on_ok attr_off_ok set_fg_ok set_bg_ok style_default_ok to_u8_byte : termos.

Lemma read_extended_ok p first last c : read_extended p first last = Some c -> color_ok c.
Proof.
  unfold read_extended. repeat case_match; intros [= <-]; cbn; auto using to_u8_byte.
Qed.

Lemma sgr_turn_ok p i s : style_ok s -> style_ok (sgr_turn p i s).1.
Proof.
  intros Hs. unfold sgr_turn. destruct (_ || _ || _); cbn [fst].
  - destruct (read_extended _ _ _) as [c|] eqn:E; [|done].
    apply read_extended_ok in E. destruct (_ =? 38), (_ =? 48); auto with termos.
  - unfold sgr_code, attr_masks.
    assert (forall b, bool_decide (b ∈ attr_masks) = true -> b ∈ attr_masks) as Hm
      by (intros b; apply bool_decide_eq_true).
    repeat (case_match; [first [exact style_default_ok
      | by apply attr_on_ok; [apply Hm|] | by apply attr_off_ok; [apply Hm|]
      | by apply set_fg_ok; [cbn; auto using to_u8_byte|]
      | by apply set_bg_ok; [cbn; auto using to_u8_byte|]
      | idtac]|]); first [done | by apply attr_on_ok; [apply Hm|]].
Qed.

Lemma sgr_loop_ok fuel p i s : style_ok s -> style_ok (sgr_loop fuel p i s).
Proof.
  revert i s. induction fuel as [|fuel IH]; intros i s Hs; cbn [sgr_loop]; [done|].
  destruct (_ <? _)%nat; [|done]. pose proof (sgr_turn_ok p i s Hs).
  destruct (sgr_turn p i s) as [s' i']. by apply IH.
Qed.

(** ** Groups *)

Lemma sub_run_all subs rest :
  Forall (fun x => p_sub x = true) subs ->
  match rest with [] => True | x :: _ => p_sub x = false end ->
  sub_run (subs ++ rest) = length subs.
Proof.
  intros H Hr. induction H as [|x subs Hx _ IH]; cbn.
  - destruct rest as [|y rest]; [done|]. cbn. by rewrite Hr.
  - by rewrite Hx, IH.
Qed.

Definition extended (code : Z) : bool := (code =? 38) || (code =? 48) || (code =? 58).

(** One turn on a code with its sub-parameters reads nothing else. *)
Lemma sgr_turn_group x subs rest s :
  Forall (fun y => p_sub y = true) subs ->
  match rest with [] => True | y :: _ => p_sub y = false end ->
  extended (p_value x) = false \/ subs <> [] ->
  sgr_turn (x :: subs ++ rest) 0 s = ((sgr_turn (x :: subs) 0 s).1, S (length subs)) /\
  (sgr_turn (x :: subs) 0 s).2 = S (length subs).
Proof.
  intros Hs Hr He. unfold sgr_turn.
  assert (group_end (x :: subs ++ rest) 0 = S (length subs)) as ->.
  { unfold group_end. change (drop (0 + 1) (x :: subs ++ rest)) with (subs ++ rest).
    by rewrite (sub_run_all subs rest Hs Hr). }
  assert (group_end (x :: subs) 0 = S (length subs)) as ->.
  { unfold group_end. change (drop (0 + 1) (x :: subs)) with subs. pose proof (sub_run_all subs [] Hs I) as E.
    rewrite app_nil_r in E. by rewrite E. }
  change (value_at (x :: subs ++ rest) 0) with (p_value x).
  change (value_at (x :: subs) 0) with (p_value x).
  set (code := if p_value x <? 0 then 0 else p_value x).
  assert (extended code = true -> subs <> []) as Hne.
  { intros Hx. destruct He as [He|He]; [|done]. subst code.
    destruct (Z.ltb_spec (p_value x) 0); [done|congruence]. }
  assert (forall j, (j < S (length subs))%nat ->
    (x :: subs ++ rest) !! j = (x :: subs) !! j) as Hl.
  { intros j Hj. change (x :: subs ++ rest) with ((x :: subs) ++ rest).
    by apply lookup_app_l. }
  fold (extended code). destruct (extended code) eqn:Ex; cbn [fst snd].
  - specialize (Hne eq_refl).
    assert (1 < S (length subs))%nat as Hlt by (destruct subs; [done|cbn; lia]).
    rewrite (proj2 (Nat.ltb_lt (0 + 1) (S (length subs)))) by lia.
    rewrite (proj2 (Nat.ltb_lt 0 (S (length subs)))) by lia. split; [|done]. f_equal.
    assert (read_extended (x :: subs ++ rest) (0 + 1) (S (length subs))
      = read_extended (x :: subs) (0 + 1) (S (length subs))) as ->; [|done].
    unfold read_extended. rewrite (proj2 (Nat.leb_gt _ _)) by lia.
    unfold value_at. rewrite !Hl by lia. done.
  - split; [|done]. f_equal. unfold sgr_code, param_or.
    destruct (Nat.ltb_spec (0 + 1) (S (length subs))); [by rewrite Hl by lia|].
    by rewrite !andb_false_l.
Qed.

(** ** Properties *)

(** Colon groups are consumed whole: applying a code with its
    sub-parameters followed by anything is applying that group, then the rest
    -- a sub-parameter is never read as a code of its own, and nothing of what
    follows is swallowed.  (Extended colours written without sub-parameters,
    [38;5;n], take their arguments by position and are the only exception.) *)
Theorem sgr_groups_compose x subs rest s :
  Forall (fun y => p_sub y = true) subs ->
  match rest with [] => False | y :: _ => p_sub y = false end ->
  extended (p_value x) = false \/ subs <> [] ->
  apply_sgr (x :: subs ++ rest) s = apply_sgr rest (apply_sgr (x :: subs) s).
Proof.
  intros Hs Hr He. destruct rest as [|y rest]; [done|]. rewrite !apply_sgr_run by done.
  destruct (sgr_turn_group x subs (y :: rest) s Hs Hr He) as [H1 H2].
  rewrite sgr_run_turn, H1 by done. cbn [fst snd].
  change (drop (S (length subs)) (x :: subs ++ y :: rest)) with (drop (length subs) (subs ++ y :: rest)).
  rewrite drop_app_length.
  rewrite (sgr_run_turn (x :: subs)), H2 by done.
  by rewrite drop_ge by (cbn [length]; lia).
Qed.

Lemma sgr_groups_compose_witness :
  let s := Style (CIndexed 3) CDefault Bold in
  apply_sgr (Param 58 false :: [Param 2 true; Param (-1) true; Param 255 true; Param 0 true;
               Param 0 true] ++ [Param 4 false; Param 3 true]) s
  = apply_sgr [Param 4 false; Param 3 true]
      (apply_sgr (Param 58 false :: [Param 2 true; Param (-1) true; Param 255 true; Param 0 true;
               Param 0 true]) s).
Proof.
  apply (sgr_groups_compose (Param 58 false) [Param 2 true; Param (-1) true; Param 255 true;
    Param 0 true; Param 0 true] [Param 4 false; Param 3 true]); [|done|by right].
  apply (bool_decide_unpack _). by vm_compute.
Defined.

(** SGR never leaves its types: whatever the parameters -- truncated
    colours, indices of 300, negative or absent values -- a style stays within
    the eight attribute bits and byte-wide colour components. *)
Theorem apply_sgr_ok p s : style_ok s -> style_ok (apply_sgr p s).
Proof.
  intros Hs. destruct p as [|x p]; [apply style_default_ok|]. by apply sgr_loop_ok.
Qed.

Lemma apply_sgr_ok_witness :
  style_ok (apply_sgr [Param 38 false; Param 5 false; Param 300 false; Param 107 false]
              style_default).
Proof. apply apply_sgr_ok. apply style_default_ok. Defined.
