(* ===== verification/Profile.v ===== *)
(** * Output profiles and SGR emission: [src/render/profile.hpp], [src/render/profile.cpp] *)

From S2P Require Import Prelude Cell VtParser VtAttrs.

Inductive color_depth := Mono16 | Indexed256 | TrueColor.

Record output_profile := OutputProfile { depth : color_depth; p_utf8 : bool }.

Definition quantize_256 (r g b : Z) : Z :=
  let q v := Z.quot (v * 5) 255 in
  to_u8 (16 + 36 * q r + 6 * q g + q b).

Definition quantize_16 (r g b : Z) : Z :=
  Z.lor (Z.lor (if 127 <? r then 1 else 0) (if 127 <? g then 2 else 0)) (if 127 <? b then 4 else 0).

Definition steps : list Z := [0; 95; 135; 175; 215; 255].

Definition indexed_to_rgb (idx : Z) : Z * Z * Z :=
  if idx <? 16 then
    let lo := if negb (Z.land idx 8 =? 0) then 255 else 128 in
    (if negb (Z.land idx 1 =? 0) then to_u8 lo else 0,
     if negb (Z.land idx 2 =? 0) then to_u8 lo else 0,
     if negb (Z.land idx 4 =? 0) then to_u8 lo else 0)
  else if idx <? 232 then
    let v := idx - 16 in
    let step k := to_u8 (default 0 (steps !! Z.to_nat k)) in
    (step (Z.rem (Z.quot v 36) 6), step (Z.rem (Z.quot v 6) 6), step (Z.rem v 6))
  else
    let v := to_u8 (8 + (idx - 232) * 10) in (v, v, v).

(** The three bytes of a colour once an index has been looked up. *)
Definition rgb_of (c : color) : Z * Z * Z :=
  match c with
  | CIndexed i => indexed_to_rgb i
  | CRgb r g b => (r, g, b)
  | CDefault => (0, 0, 0)
  end.

Definition quantize_color (c : color) (d : color_depth) : color :=
  match c, d with
  | CDefault, _ => c
  | _, TrueColor => c
  | CIndexed _, Indexed256 => c
  | CRgb r g b, Indexed256 => CIndexed (quantize_256 r g b)
  | _, Mono16 => let '(r, g, b) := rgb_of c in CIndexed (to_u8 (quantize_16 r g b))
  end.

(** [q.idx]: zero for a colour that is not indexed. *)
Definition idx_of (c : color) : Z := match c with CIndexed i => i | _ => 0 end.

Definition color_code (c : color) (foreground : bool) (p : output_profile) : bytes :=
  let base := if foreground then 38 else 48 in
  let simple := if foreground then 30 else 40 in
  let reset := if foreground then 39 else 49 in
  match c with
  | CDefault => [27; 91] ++ to_string reset ++ [109]
  | _ =>
      match depth p with
      | TrueColor =>
          let '(r, g, b) := rgb_of c in
          [27; 91] ++ to_string base ++ [59; 50; 59] ++ to_string r ++ [59] ++ to_string g
          ++ [59] ++ to_string b ++ [109]
      | Indexed256 =>
          let q := quantize_color c (depth p) in
          [27; 91] ++ to_string base ++ [59; 53; 59] ++ to_string (idx_of q) ++ [109]
      | Mono16 =>
          let q := quantize_color c (depth p) in
          [27; 91] ++ to_string (simple + idx_of q) ++ [109]
      end
  end.

(** [hay.find(needle) != npos]. *)
Fixpoint is_prefix (needle hay : bytes) : bool :=
  match needle, hay with
  | [], _ => true
  | x :: needle, y :: hay => (x =? y) && is_prefix needle hay
  | _ :: _, [] => false
  end.

Fixpoint contains_str (hay needle : bytes) : bool :=
  is_prefix needle hay || match hay with [] => false | _ :: hay => contains_str hay needle end.

Definition detect (term colorterm : bytes) (utf8 : bool) : output_profile :=
  if contains_str colorterm (str "truecolor") || contains_str colorterm (str "24bit")
  then OutputProfile TrueColor utf8
  else if contains_str term (str "256color") then OutputProfile Indexed256 utf8
  else OutputProfile Mono16 utf8.

(** The table of [sgr_transition], in its order. *)
Definition codes : list (Z * Z) :=
  [(Bold, 1); (Dim, 2); (Italic, 3); (Underline, 4); (Blink, 5); (Reverse, 7); (Hidden, 8);
   (Strike, 9)].

Definition emit_attrs (base_attrs to_attrs : Z) : bytes :=
  concat ((fun bc : Z * Z =>
    if negb (Z.land to_attrs bc.1 =? 0) && (Z.land base_attrs bc.1 =? 0)
    then [27; 91] ++ to_string bc.2 ++ [109] else []) <$> codes).

Definition sgr_transition (from to : style) (p : output_profile) : bytes :=
  if bool_decide (from = to) then []
  else
    let '(out, base) :=
      if negb (Z.land (attrs from) (Z.lnot (attrs to)) =? 0)
      then ([27; 91; 48; 109], style_default) else ([], from) in
    let out := out ++ emit_attrs (attrs base) (attrs to) in
    let out := out ++ if bool_decide (fg base = fg to) then [] else color_code (fg to) true p in
    out ++ if bool_decide (bg base = bg to) then [] else color_code (bg to) false p.

(** ** What a terminal of that depth shows *)

Definition shown_color (p : output_profile) (c : color) : color :=
  match c with
  | CDefault => CDefault
  | _ => match depth p with
         | TrueColor => let '(r, g, b) := rgb_of c in CRgb r g b
         | _ => quantize_color c (depth p)
         end
  end.

Definition shown (p : output_profile) (s : style) : style :=
  Style (shown_color p (fg s)) (shown_color p (bg s)) (attrs s).

(** A terminal applies the SGR sequences it reads and ignores the rest. *)
Definition apply_event (s : style) (e : event) : style :=
  match e with
  | ECsi ps i f => match i with [] => if f =? 109 then apply_sgr ps s else s | _ => s end
  | _ => s
  end.

(** ** The sequences of a transition *)

Definition plain (v : Z) : param := Param v false.
Definition sgr (ps : list param) : bytes := print_csi None ps [] 109.

Definition color_params (c : color) (foreground : bool) (p : output_profile) : list param :=
  let base := if foreground then 38 else 48 in
  match c with
  | CDefault => [plain (if foreground then 39 else 49)]
  | _ =>
      match depth p with
      | TrueColor => let '(r, g, b) := rgb_of c in [plain base; plain 2; plain r; plain g; plain b]
      | Indexed256 => [plain base; plain 5; plain (idx_of (quantize_color c (depth p)))]
      | Mono16 => [plain ((if foreground then 30 else 40) + idx_of (quantize_color c (depth p)))]
      end
  end.

Definition attr_params (base_attrs to_attrs : Z) : list (list param) :=
  concat ((fun bc : Z * Z =>
    if negb (Z.land to_attrs bc.1 =? 0) && (Z.land base_attrs bc.1 =? 0)
    then [[plain bc.2]] else []) <$> codes).

Definition transition_params (from to : style) (p : output_profile) : list (list param) :=
  if bool_decide (from = to) then []
  else
    let resets := negb (Z.land (attrs from) (Z.lnot (attrs to)) =? 0) in
    let base := if resets then style_default else from in
    (if resets then [[plain 0]] else [])
    ++ attr_params (attrs base) (attrs to)
    ++ (if bool_decide (fg base = fg to) then [] else [color_params (fg to) true p])
    ++ (if bool_decide (bg base = bg to) then [] else [color_params (bg to) false p]).

Lemma print_value_nonneg v : 0 <= v -> print_value v = to_string v.
Proof. intros. unfold print_value. by zrw_false (v <? 0). Qed.

Lemma indexed_to_rgb_ok i :
  byte_ok i -> let '(r, g, b) := indexed_to_rgb i in byte_ok r /\ byte_ok g /\ byte_ok b.
Proof.
  intros Hi.
  pose proof (byte_check (fun i => let '(r, g, b) := indexed_to_rgb i in
    bool_decide (byte_ok r /\ byte_ok g /\ byte_ok b)) i) as H.
  specialize (H ltac:(vm_compute; reflexivity) Hi). cbn beta in H.
  destruct (indexed_to_rgb i) as [[r g] b]. by apply bool_decide_eq_true in H.
Qed.

Lemma rgb_of_ok c :
  color_ok c -> let '(r, g, b) := rgb_of c in byte_ok r /\ byte_ok g /\ byte_ok b.
Proof.
  destruct c as [|i|r g b]; cbn [rgb_of color_ok]; [done|apply indexed_to_rgb_ok|done].
Qed.

Lemma quantize_16_ok r g b : 0 <= quantize_16 r g b < 8.
Proof. unfold quantize_16. destruct (127 <? r), (127 <? g), (127 <? b); (split; by vm_compute). Qed.

Lemma quantize_ok c d : color_ok c -> color_ok (quantize_color c d).
Proof.
  intros Hc. destruct c as [|i|r g b], d; cbn [quantize_color rgb_of]; try done.
  - destruct (indexed_to_rgb i) as [[r g] b]. cbn. apply to_u8_byte.
  - cbn. apply to_u8_byte.
  - cbn. apply to_u8_byte.
Qed.

Lemma idx_of_ok c : color_ok c -> byte_ok (idx_of c).
Proof. by destruct c. Qed.

Lemma mono_idx c : c <> CDefault -> 0 <= idx_of (quantize_color c Mono16) < 8.
Proof.
  destruct c as [|i|r g b]; [done|..]; intros _; cbn [quantize_color].
  all: destruct (rgb_of _) as [[x y] z]; cbn [idx_of]; pose proof (quantize_16_ok x y z);
    unfold to_u8; rewrite Z.mod_small; lia.
Qed.

Lemma color_code_params c f p : color_ok c -> color_code c f p = sgr (color_params c f p).
Proof.
  intros Hc. unfold color_code, color_params, sgr, print_csi.
  assert (c = CDefault \/ c <> CDefault) as [-> |Hne] by (destruct c; [by left|by right..]).
  { by destruct f. }
  pose proof (rgb_of_ok c Hc) as Hrgb.
  pose proof (idx_of_ok _ (quantize_ok c Indexed256 Hc)) as Hidx. unfold byte_ok in *.
  pose proof (mono_idx c Hne) as Hmono.
  destruct c as [|i|r g b]; [done|..]; destruct (depth p).
  all: try (destruct (rgb_of _) as [[x y] z]); cbn [print_params print_rest plain p_sub p_value app].
  all: rewrite ?print_value_nonneg by (destruct f; lia).
  all: rewrite ?app_nil_r, <- ?app_assoc; try done; change (to_string 2) with [50]; cbn [app];
    rewrite <- ?app_assoc; cbn [app]; rewrite <- ?app_assoc; cbn [app]; rewrite <- ?app_assoc; done.
Qed.

Lemma emit_attrs_params a t : emit_attrs a t = concat (sgr <$> attr_params a t).
Proof.
  unfold emit_attrs, attr_params. assert (Forall (fun bc => 0 <= bc.2) codes) as H
    by (apply (bool_decide_unpack _); by vm_compute).
  induction H as [|bc l Hbc _ IH]; [done|]. rewrite !fmap_cons. cbn [concat].
  rewrite fmap_app, concat_app, IH. f_equal. destruct (_ && _); [|done].
  unfold sgr, print_csi. cbn. rewrite print_value_nonneg by done. by rewrite !app_nil_r.
Qed.

Lemma transition_bytes from to p :
  style_ok to -> sgr_transition from to p = concat (sgr <$> transition_params from to p).
Proof.
  intros (Hf & Hb & _). unfold sgr_transition, transition_params.
  destruct (bool_decide (from = to)); [done|].
  assert (forall c f, color_ok c -> color_code c f p = concat (sgr <$> [color_params c f p])) as Hcc.
  { intros c f Hc. rewrite color_code_params by done. cbn. by rewrite app_nil_r. }
  rewrite !fmap_app, !concat_app, <- emit_attrs_params.
  destruct (negb _); cbn [attrs fg bg style_default]; rewrite <- ?app_assoc;
    do 2 (destruct (bool_decide _)); rewrite <- ?Hcc by done; done.
Qed.

(** ** The terminal's side *)

Lemma plain_ok v : 0 <= v <= kMaxParamValue -> param_ok (plain v).
Proof. unfold param_ok. cbn. lia. Qed.

Lemma sgr_wf ps :
  ps <> [] -> (length ps <= 5)%nat -> Forall (fun v => 0 <= v <= kMaxParamValue) ps ->
  csi_wf None (plain <$> ps) [] 109.
Proof.
  intros Hne Hl Hv. split_and!; try done; [|cbn; lia]. split_and!.
  - rewrite length_fmap. unfold kMaxParams. lia.
  - apply Forall_fmap. eapply Forall_impl; [|exact Hv]. intros v. apply plain_ok.
  - destruct Hv as [|v [|v' ps] Hv1 Hv]; [done|..]; cbn; [lia|done].
Qed.

(** A parameter list given by its values, each in range by arithmetic. *)
Ltac sgr_list l :=
  apply (sgr_wf l); [done|cbn; lia|];
  repeat (apply List.Forall_cons; [repeat case_match; lia|]); apply List.Forall_nil.

Lemma color_params_wf c f p : color_ok c -> csi_wf None (color_params c f p) [] 109.
Proof.
  intros Hc. pose proof (rgb_of_ok c Hc) as Hrgb.
  pose proof (idx_of_ok _ (quantize_ok c (depth p) Hc)) as Hidx. unfold byte_ok in *.
  assert (kMaxParamValue = 65535) as Hk by done. unfold color_params.
  destruct c as [|i|r g b]; [|destruct (depth p), (rgb_of _) as [[x y] z]..].
  - sgr_list [if f then 39 else 49].
  - sgr_list [(if f then 30 else 40) + idx_of (quantize_color (CIndexed i) Mono16)].
  - sgr_list [if f then 38 else 48; 5; idx_of (quantize_color (CIndexed i) Indexed256)].
  - sgr_list [if f then 38 else 48; 2; x; y; z].
  - sgr_list [(if f then 30 else 40) + idx_of (quantize_color (CRgb r g b) Mono16)].
  - sgr_list [if f then 38 else 48; 5; idx_of (quantize_color (CRgb r g b) Indexed256)].
  - sgr_list [if f then 38 else 48; 2; x; y; z].
Qed.

Lemma attr_params_wf a t : Forall (fun ps => csi_wf None ps [] 109) (attr_params a t).
Proof.
  unfold attr_params. assert (Forall (fun bc => csi_wf None [plain bc.2] [] 109) codes) as H
    by (apply (bool_decide_unpack _); by vm_compute).
  induction H as [|bc l Hbc _ IH]; [done|]. rewrite fmap_cons. cbn [concat].
  apply Forall_app. split; [|exact IH]. destruct (_ && _); [by constructor|done].
Qed.

Lemma transition_params_wf from to p :
  style_ok to -> Forall (fun ps => csi_wf None ps [] 109) (transition_params from to p).
Proof.
  intros (Hf & Hb & _). unfold transition_params. destruct (bool_decide (from = to)); [done|].
  assert (csi_wf None [plain 0] [] 109) as H0 by (apply (bool_decide_unpack _); by vm_compute).
  apply Forall_app; split; [|apply Forall_app; split; [|apply Forall_app; split]].
  - destruct (negb _); [by constructor|done].
  - apply attr_params_wf.
  - destruct (bool_decide _); [done|]. constructor; [by apply color_params_wf|done].
  - destruct (bool_decide _); [done|]. constructor; [by apply color_params_wf|done].
Qed.

Lemma idle_esc p : idle p -> (step p 27).2 = [].
Proof.
  destruct p as [st ps i o a nd sn mn]. intros [Hg Hn]. cbn in Hg, Hn. by subst.
Qed.

(** The sequences go through the parser one call each. *)
Lemma feed_sgrs q pss :
  idle q -> parser_ok q -> Forall (fun ps => csi_wf None ps [] 109) pss ->
  exists q', feed q (concat (sgr <$> pss)) = (q', (fun ps => ECsi ps [] 109) <$> pss) /\
    idle q' /\ parser_ok q'.
Proof.
  intros Hi Hok H. revert q Hi Hok. induction H as [|ps pss Hps _ IH]; intros q Hi Hok; [by exists q|].
  rewrite !fmap_cons. cbn [concat]. rewrite feed_app. unfold sgr at 1.
  destruct (feed_csi q None ps [] 109 Hok Hps) as (a & sn & mn & E). cbn [app] in E.
  rewrite E, idle_esc by done. set (q1 := Parser Ground ps [] [] a 0 sn mn) in *.
  assert (parser_ok q1) as Hok1.
  { destruct Hps as (_ & (Hl & Hv & _) & _). split; [|by left].
    split_and!; try done; try apply kMaxOsc_nonneg; cbn; lia. }
  destruct (IH q1) as (q' & E' & Hi' & Hok'); [done..|]. exists q'. by rewrite E'.
Qed.

(** Applying one emitted sequence. *)
Lemma byte_value v : byte_ok v -> is_byte v = true /\ to_u8 v = v.
Proof.
  unfold byte_ok, is_byte, to_u8. intros Hv. zrw_true (0 <=? v). zrw_true (v <=? 255).
  split; [done|by apply Z.mod_small].
Qed.

Lemma apply_rgb (f : bool) r g b s :
  byte_ok r -> byte_ok g -> byte_ok b ->
  apply_sgr [plain (if f then 38 else 48); plain 2; plain r; plain g; plain b] s
  = if f then set_fg s (CRgb r g b) else set_bg s (CRgb r g b).
Proof.
  intros [Hr1 Hr2]%byte_value [Hg1 Hg2]%byte_value [Hb1 Hb2]%byte_value.
  destruct f; cbn -[is_byte to_u8]; by rewrite Hr1, Hg1, Hb1, Hr2, Hg2, Hb2.
Qed.

Lemma apply_indexed (f : bool) i s :
  byte_ok i ->
  apply_sgr [plain (if f then 38 else 48); plain 5; plain i] s
  = if f then set_fg s (CIndexed i) else set_bg s (CIndexed i).
Proof. intros [Hi1 Hi2]%byte_value. destruct f; cbn -[is_byte to_u8]; by rewrite Hi1, Hi2. Qed.

Lemma apply_simple (f : bool) i s :
  0 <= i < 8 ->
  apply_sgr [plain ((if f then 30 else 40) + i)] s
  = if f then set_fg s (CIndexed i) else set_bg s (CIndexed i).
Proof.
  intros Hi.
  assert (i = 0 \/ i = 1 \/ i = 2 \/ i = 3 \/ i = 4 \/ i = 5 \/ i = 6 \/ i = 7) as Hc by lia.
  repeat destruct Hc as [->|Hc]; subst; by destruct f.
Qed.

Lemma quantized_indexed c d :
  c <> CDefault -> d <> TrueColor -> quantize_color c d = CIndexed (idx_of (quantize_color c d)).
Proof. intros Hc Hd. destruct c, d; try done; cbn [quantize_color]; by destruct (rgb_of _) as [[??]?]. Qed.

Lemma apply_color_params c (f : bool) p s :
  color_ok c ->
  apply_sgr (color_params c f p) s
  = if f then set_fg s (shown_color p c) else set_bg s (shown_color p c).
Proof.
  intros Hc. pose proof (rgb_of_ok c Hc) as Hrgb.
  pose proof (idx_of_ok _ (quantize_ok c Indexed256 Hc)) as Hidx.
  assert (c = CDefault \/ c <> CDefault) as [-> |Hne] by (destruct c; [by left|by right..]);
    [by destruct f|].
  pose proof (mono_idx c Hne) as Hmono. unfold color_params, shown_color.
  pose proof (quantized_indexed c Mono16 Hne ltac:(done)) as Hq1.
  pose proof (quantized_indexed c Indexed256 Hne ltac:(done)) as Hq2.
  set (i1 := idx_of (quantize_color c Mono16)) in *.
  set (i2 := idx_of (quantize_color c Indexed256)) in *.
  pose proof (apply_simple f i1 s Hmono) as Hs1. pose proof (apply_indexed f i2 s Hidx) as Hs2.
  destruct c as [|i|r g b]; [done|..]; destruct (depth p); rewrite ?Hq1, ?Hq2; try done;
    revert Hrgb; destruct (rgb_of _) as [[x y] z]; intros (? & ? & ?); by apply apply_rgb.
Qed.

(** The attribute sequences, on the bits alone. *)
Definition attr_fold (base_attrs to_attrs a : Z) : Z :=
  fold_left (fun a (bc : Z * Z) =>
    if negb (Z.land to_attrs bc.1 =? 0) && (Z.land base_attrs bc.1 =? 0) then Z.lor a bc.1 else a)
    codes a.

Definition apply_all (pss : list (list param)) (s : style) : style :=
  fold_left (fun s ps => apply_sgr ps s) pss s.

Lemma apply_all_app l1 l2 s : apply_all (l1 ++ l2) s = apply_all l2 (apply_all l1 s).
Proof. apply fold_left_app. Qed.

Lemma apply_attr_params a t s :
  apply_all (attr_params a t) s = Style (fg s) (bg s) (attr_fold a t (attrs s)).
Proof.
  unfold attr_params, attr_fold.
  assert (Forall (fun bc : Z * Z => forall s, apply_sgr [plain bc.2] s = attr_on s bc.1) codes) as H.
  { unfold codes. repeat (apply List.Forall_cons; [intros ?; reflexivity|]). apply List.Forall_nil. }
  revert s. induction H as [|bc l Hbc _ IH]; intros s; [by destruct s|].
  rewrite fmap_cons. cbn [concat fold_left]. rewrite apply_all_app.
  destruct (_ && _); [|apply IH]. cbn [apply_all fold_left]. rewrite Hbc, IH. done.
Qed.

Lemma attr_fold_subset a t :
  byte_ok a -> byte_ok t -> Z.land a (Z.lnot t) = 0 -> attr_fold a t a = t.
Proof.
  intros Ha Ht H0.
  assert (forallb (fun a => forallb (fun t =>
    if Z.land a (Z.lnot t) =? 0 then attr_fold a t a =? t else true) all_bytes) all_bytes = true)
    as H by (vm_compute; reflexivity).
  pose proof (byte_check _ a H Ha) as H1. cbn beta in H1.
  pose proof (byte_check _ t H1 Ht) as H2. cbn beta in H2. rewrite H0 in H2.
  cbn [Z.eqb] in H2. by apply Z.eqb_eq.
Qed.

Lemma apply_transition from to p :
  style_ok from -> style_ok to ->
  apply_all (transition_params from to p) (shown p from) = shown p to.
Proof.
  intros (_ & _ & Ha) (Hf & Hb & Ht). unfold transition_params.
  destruct (bool_decide_reflect (from = to)) as [->|_]; [done|].
  destruct (Z.eqb_spec (Z.land (attrs from) (Z.lnot (attrs to))) 0) as [E|E]; cbn [negb].
  - rewrite app_nil_l, !apply_all_app, apply_attr_params. cbn [shown fg bg attrs].
    rewrite attr_fold_subset by done.
    destruct (bool_decide_reflect (fg from = fg to)) as [->|_];
      destruct (bool_decide_reflect (bg from = bg to)) as [->|_];
      cbn [apply_all fold_left]; rewrite ?apply_color_params by done; done.
  - rewrite !apply_all_app, apply_attr_params.
    change (apply_all [[plain 0]] (shown p from)) with style_default.
    cbn [style_default fg bg attrs]. rewrite attr_fold_subset by
      (done || by unfold byte_ok || by rewrite Z.land_0_l).
    destruct (bool_decide_reflect (CDefault = fg to)) as [Ef|_];
      destruct (bool_decide_reflect (CDefault = bg to)) as [Eb|_];
      cbn [apply_all fold_left]; rewrite ?apply_color_params by done;
      unfold shown; rewrite <- ?Ef, <- ?Eb; done.
Qed.

(** ** Properties *)

(** C24: The emitter and the interpreter agree, byte for byte and for every
    colour depth: the bytes written to move a terminal from one style to
    another, parsed by this program's own escape parser and applied by its own
    SGR interpreter to what the terminal shows for the first style, give
    exactly what it should show for the second, and print nothing. *)
Theorem sgr_transition_correct from to p q :
  style_ok from -> style_ok to -> idle q -> parser_ok q ->
  let '(q', es) := feed q (sgr_transition from to p) in
  fold_left apply_event es (shown p from) = shown p to /\
  Forall (fun e => exists ps, e = ECsi ps [] 109) es /\ idle q'.
Proof.
  intros Hfrom Hto Hi Hok. rewrite transition_bytes by done.
  destruct (feed_sgrs q (transition_params from to p) Hi Hok) as (q' & -> & Hi' & _);
    [by apply transition_params_wf|].
  split_and!; [|apply Forall_fmap, Forall_forall; intros; by eexists|done].
  rewrite <- (apply_transition from to p) by done. unfold apply_all.
  generalize (shown p from). induction (transition_params from to p) as [|ps l IH]; intros s; [done|].
  cbn. apply IH.
Qed.

Lemma sgr_transition_correct_witness :
  let from := Style (CIndexed 200) (CRgb 10 20 30) (Z.lor Bold Blink) in
  let to := Style (CRgb 255 128 0) CDefault (Z.lor Underline Blink) in
  let p := OutputProfile Indexed256 true in
  let '(q', es) := feed parser_init (sgr_transition from to p) in
  fold_left apply_event es (shown p from) = shown p to /\
  Forall (fun e => exists ps, e = ECsi ps [] 109) es /\ idle q'.
Proof.
  apply sgr_transition_correct; [..|done|apply parser_init_ok];
    apply (bool_decide_unpack _); by vm_compute.
Defined.
