(* ===== verification/VtModes.v ===== *)
(** * Modes, charset and replies: [src/vt/modes.*], [src/vt/charset.*], [src/vt/reply.*] *)

From S2P Require Import Prelude VtParser.

(** ** The DEC charset *)

Inductive charset := Ascii | Graphics.

#[export] Instance charset_eq_dec : EqDecision charset. Proof. solve_decision. Defined.

Definition kFirst : Z := 0x5F.
Definition kLast : Z := 0x7E.

(** The table, as code points, from 0x5F to 0x7E. *)
Definition kGraphics : list Z :=
  [0x20;
   0x25C6; 0x2592; 0x2409; 0x240C; 0x240D; 0x240A; 0xB0; 0xB1;
   0x2424; 0x240B; 0x2518; 0x2510; 0x250C; 0x2514; 0x253C; 0x23BA;
   0x23BB; 0x2500; 0x23BC; 0x23BD; 0x251C; 0x2524; 0x2534; 0x252C;
   0x2502; 0x2264; 0x2265; 0x3C0; 0x2260; 0xA3; 0xB7].

Definition charset_from_final (final_byte : Z) : charset :=
  if final_byte =? 48 then Graphics else Ascii.

Definition translate (cp : Z) (set : charset) : Z :=
  match set with
  | Ascii => cp
  | Graphics =>
      if (cp <? kFirst) || (kLast <? cp) then cp
      else default 0 (kGraphics !! Z.to_nat (cp - kFirst))
  end.

(** ** The modes *)

Inductive mouse_tracking := TrackNone | TrackClick | TrackDrag | TrackAny.

Record modes := Modes {
  cursor_keys_application : bool;
  autowrap : bool;
  cursor_visible : bool;
  mouse_click : bool;
  mouse_drag : bool;
  mouse_any : bool;
  mouse_sgr : bool;
  m_alt_screen : bool;
  bracketed_paste : bool;
}.

Definition modes_default : modes := Modes false true true false false false false false false.

(** A pointer to member of the table. *)
Record flag := Flag { f_get : modes -> bool; f_set : bool -> modes -> modes }.

Definition kModes : list (Z * flag) :=
  [(1, Flag cursor_keys_application (fun v m => Modes v (autowrap m) (cursor_visible m)
      (mouse_click m) (mouse_drag m) (mouse_any m) (mouse_sgr m) (m_alt_screen m) (bracketed_paste m)));
   (7, Flag autowrap (fun v m => Modes (cursor_keys_application m) v (cursor_visible m)
      (mouse_click m) (mouse_drag m) (mouse_any m) (mouse_sgr m) (m_alt_screen m) (bracketed_paste m)));
   (25, Flag cursor_visible (fun v m => Modes (cursor_keys_application m) (autowrap m) v
      (mouse_click m) (mouse_drag m) (mouse_any m) (mouse_sgr m) (m_alt_screen m) (bracketed_paste m)));
   (1000, Flag mouse_click (fun v m => Modes (cursor_keys_application m) (autowrap m)
      (cursor_visible m) v (mouse_drag m) (mouse_any m) (mouse_sgr m) (m_alt_screen m) (bracketed_paste m)));
   (1002, Flag mouse_drag (fun v m => Modes (cursor_keys_application m) (autowrap m)
      (cursor_visible m) (mouse_click m) v (mouse_any m) (mouse_sgr m) (m_alt_screen m) (bracketed_paste m)));
   (1003, Flag mouse_any (fun v m => Modes (cursor_keys_application m) (autowrap m)
      (cursor_visible m) (mouse_click m) (mouse_drag m) v (mouse_sgr m) (m_alt_screen m) (bracketed_paste m)));
   (1006, Flag mouse_sgr (fun v m => Modes (cursor_keys_application m) (autowrap m)
      (cursor_visible m) (mouse_click m) (mouse_drag m) (mouse_any m) v (m_alt_screen m) (bracketed_paste m)));
   (1049, Flag m_alt_screen (fun v m => Modes (cursor_keys_application m) (autowrap m)
      (cursor_visible m) (mouse_click m) (mouse_drag m) (mouse_any m) (mouse_sgr m) v (bracketed_paste m)));
   (2004, Flag bracketed_paste (fun v m => Modes (cursor_keys_application m) (autowrap m)
      (cursor_visible m) (mouse_click m) (mouse_drag m) (mouse_any m) (mouse_sgr m) (m_alt_screen m) v))].

Fixpoint mode_in (table : list (Z * flag)) (mode : Z) : option flag :=
  match table with
  | [] => None
  | e :: table => if e.1 =? mode then Some e.2 else mode_in table mode
  end.

Definition find_mode (mode : Z) : option flag := mode_in kModes mode.

Definition tracking (m : modes) : mouse_tracking :=
  if mouse_any m then TrackAny
  else if mouse_drag m then TrackDrag
  else if mouse_click m then TrackClick
  else TrackNone.

Definition set_mode (m : modes) (mode : Z) (on : bool) : modes :=
  match find_mode mode with Some e => f_set e on m | None => m end.

Definition knows (mode : Z) : bool := match find_mode mode with Some _ => true | None => false end.

Definition get_mode (m : modes) (mode : Z) : bool :=
  match find_mode mode with Some e => f_get e m | None => false end.

Definition apply_dec_private (ps : list param) (on : bool) (m : modes) : modes :=
  fold_left (fun m p => set_mode m (p_value p) on) ps m.

(** ** The replies *)

Definition device_attributes : bytes := 27 :: str "[?62;22c".
Definition secondary_device_attributes : bytes := 27 :: str "[>1;20;0c".
Definition device_status_ok : bytes := 27 :: str "[0n".

Definition cursor_position_report (x y : Z) : bytes :=
  [27; 91] ++ to_string (y + 1) ++ [59] ++ to_string (x + 1) ++ [82].

Definition extended_cursor_position_report (x y : Z) : bytes :=
  [27; 91; 63] ++ to_string (y + 1) ++ [59] ++ to_string (x + 1) ++ str ";1R".

Definition dec_mode_report (mode : Z) (m : modes) : bytes :=
  let st := if knows mode then if get_mode m mode then 1 else 2 else 0 in
  [27; 91; 63] ++ to_string mode ++ [59] ++ to_string st ++ str "$y".

Definition reply_for_csi (ps : list param) (inters : bytes) (fin : Z)
    (cursor_x cursor_y : Z) (m : modes) : bytes :=
  if fin =? 99 then
    if bool_decide (inters = []) then device_attributes
    else if bool_decide (inters = str ">") then secondary_device_attributes
    else []
  else if (fin =? 110) && bool_decide (inters = []) then
    let q := param_or ps 0 0 in
    if q =? 5 then device_status_ok
    else if q =? 6 then cursor_position_report cursor_x cursor_y
    else []
  else if (fin =? 110) && bool_decide (inters = str "?") && (param_or ps 0 0 =? 6) then
    extended_cursor_position_report cursor_x cursor_y
  else if fin =? 112 then
    let mode := param_or ps 0 (-1) in
    if mode <? 0 then []
    else if bool_decide (inters = str "?$") then dec_mode_report mode m
    else if bool_decide (inters = str "$") then [27; 91] ++ to_string mode ++ str ";0$y"
    else []
  else [].

(** ** Setting and reading modes *)

Lemma find_mode_cases mode :
  find_mode mode = None \/
  exists k f, In (k, f) kModes /\ mode = k /\ find_mode mode = Some f.
Proof.
  unfold find_mode. induction kModes as [|[k f] l IH]; [by left|]. cbn [mode_in fst snd].
  destruct (Z.eqb_spec k mode) as [<-|Hne].
  - right. exists k, f. split_and!; try done. by left.
  - destruct IH as [IH|(k' & f' & Hin & -> & IH)]; [by left|].
    right. exists k', f'. split_and!; try done. by right.
Qed.

Lemma modes_table_laws :
  Forall (fun e => forall v m, f_get e.2 (f_set e.2 v m) = v /\
    Forall (fun e' => e'.1 = e.1 \/ f_get e'.2 (f_set e.2 v m) = f_get e'.2 m) kModes) kModes.
Proof.
  unfold kModes.
  repeat (apply List.Forall_cons; [intros v m; split; [done|];
    repeat (apply List.Forall_cons; [first [by left | by right]|]); apply List.Forall_nil|]).
  apply List.Forall_nil.
Qed.

Lemma get_set_mode m mode on : knows mode = true -> get_mode (set_mode m mode on) mode = on.
Proof.
  unfold knows, get_mode, set_mode. intros Hk.
  destruct (find_mode_cases mode) as [E|(k & f & Hin & -> & E)]; rewrite E in *; [done|].
  pose proof modes_table_laws as H. rewrite List.Forall_forall in H. by apply (H _ Hin).
Qed.

Lemma get_set_mode_other m mode other on :
  other <> mode -> get_mode (set_mode m mode on) other = get_mode m other.
Proof.
  intros Hne. unfold get_mode, set_mode.
  destruct (find_mode_cases mode) as [E|(k & f & Hin & -> & E)]; rewrite E; [done|].
  destruct (find_mode_cases other) as [E'|(k' & f' & Hin' & -> & E')]; rewrite E'; [done|].
  pose proof modes_table_laws as H. rewrite List.Forall_forall in H.
  destruct (H _ Hin on m) as [_ H']. rewrite List.Forall_forall in H'.
  by destruct (H' _ Hin').
Qed.

(** ** Replies are sequences of the same grammar *)

Definition reply_csi (x y : Z) (m : modes) (e : event) : list event :=
  match e with
  | ECsi ps i f => (feed parser_init (reply_for_csi ps i f x y m)).2
  | _ => []
  end.

Lemma feed_reply priv ps inters fin :
  csi_wf priv ps inters fin ->
  (feed parser_init (print_csi priv ps inters fin)).2
  = [ECsi ps (match priv with Some b => [b] | None => [] end ++ inters) fin].
Proof.
  intros Hw. by destruct (feed_csi parser_init priv ps inters fin parser_init_ok Hw)
    as (a & sn & mn & ->).
Qed.

Lemma two_params_wf priv a b inters fin :
  match priv with Some c => is_private c = true | None => True end ->
  0 <= a <= kMaxParamValue -> 0 <= b <= kMaxParamValue ->
  Forall (fun b => is_intermediate b = true) inters ->
  (length inters <= 3)%nat -> is_final fin = true ->
  csi_wf priv [Param a false; Param b false] inters fin.
Proof.
  intros Hp Ha Hb Hi Hl Hf. split_and!; try done.
  - split_and!; [cbn; unfold kMaxParams; lia| |done].
    repeat (apply List.Forall_cons; [unfold param_ok; cbn; lia|]). apply List.Forall_nil.
  - rewrite length_app. unfold kMaxIntermediates. destruct priv; cbn; lia.
Qed.

Lemma print_two priv a b inters fin :
  0 <= a -> 0 <= b ->
  print_csi priv [Param a false; Param b false] inters fin
  = [27; 91] ++ match priv with Some c => [c] | None => [] end ++ to_string a ++ [59]
    ++ to_string b ++ inters ++ [fin].
Proof.
  intros Ha Hb. unfold print_csi, print_params, print_rest, print_value. cbn [p_value p_sub].
  zrw_false (a <? 0). zrw_false (b <? 0). rewrite app_nil_r, <- !app_assoc. done.
Qed.

(** Questions get true, well-formed answers: each reply the terminal writes
    to its guest, read by the same escape parser, is the one sequence expected
    -- the cursor position counted from 1, the state of a mode as it was last
    set (1 set, 2 reset, 0 unknown), nothing else -- and a mode keeps its value
    whatever other modes are set. *)
Theorem replies_are_true x y m mode on :
  0 <= x < kMaxParamValue -> 0 <= y < kMaxParamValue -> 0 <= mode <= kMaxParamValue ->
  reply_csi x y m (ECsi [Param 6 false] [] 110)
    = [ECsi [Param (y + 1) false; Param (x + 1) false] [] 82] /\
  reply_csi x y (set_mode m mode on) (ECsi [Param mode false] (str "?$") 112)
    = [ECsi [Param mode false; Param (if knows mode then if on then 1 else 2 else 0) false]
         (str "?$") 121] /\
  (forall other, other <> mode -> get_mode (set_mode m mode on) other = get_mode m other).
Proof.
  intros Hx Hy Hm. assert (kMaxParamValue = 65535) as Hk by done.
  split_and!; [..|intros; by apply get_set_mode_other]; cbn [reply_csi].
  - change (reply_for_csi [Param 6 false] [] 110 x y m) with (cursor_position_report x y).
    replace (cursor_position_report x y)
      with (print_csi None [Param (y + 1) false; Param (x + 1) false] [] 82)
      by (by rewrite print_two by lia).
    apply feed_reply, two_params_wf; first [done | lia | cbn; lia].
  - set (st := if knows mode then if on then 1 else 2 else 0).
    assert (reply_for_csi [Param mode false] (str "?$") 112 x y (set_mode m mode on)
      = print_csi (Some 63) [Param mode false; Param st false] [36] 121) as ->.
    { assert (0 <= st) by (subst st; repeat case_match; lia).
      rewrite print_two by lia. unfold reply_for_csi. cbn [Z.eqb Pos.eqb andb param_or].
      change (param_or [Param mode false] 0 (-1)) with (if mode <? 0 then -1 else mode).
      assert ((mode <? 0) = false) as -> by (ztest; lia).
      assert ((mode <? 0) = false) as -> by (ztest; lia).
      change (bool_decide (str "?$" = str "?$")) with true. cbv iota.
      unfold dec_mode_report. subst st. destruct (knows mode) eqn:Ek; [|done].
      rewrite get_set_mode by done. by destruct on. }
    apply feed_reply, two_params_wf; try done; first [subst st; repeat case_match; lia | cbn; lia | by repeat constructor].
Qed.

Lemma replies_are_true_witness :
  reply_csi 79 23 modes_default (ECsi [Param 6 false] [] 110)
    = [ECsi [Param (23 + 1) false; Param (79 + 1) false] [] 82] /\
  reply_csi 79 23 (set_mode modes_default 2004 true) (ECsi [Param 2004 false] (str "?$") 112)
    = [ECsi [Param 2004 false; Param (if knows 2004 then if true then 1 else 2 else 0) false]
         (str "?$") 121] /\
  (forall other, other <> 2004 ->
     get_mode (set_mode modes_default 2004 true) other = get_mode modes_default other).
Proof. apply replies_are_true; unfold kMaxParamValue; lia. Defined.
