(* ===== verification/Scrollback.v ===== *)
(** * The scrollback: [src/vt/scrollback.hpp], [src/vt/scrollback.cpp]

    A ring of trimmed lines and the offset it is consulted from.  The cells are
    those of the terminal grid ([ScreenCell] of [src/vt/screen.hpp]). *)

From S2P Require Import Prelude Cell.

Record screen_cell := ScreenCell { sc_ch : Z; sc_width : Z; sc_style : style }.

#[export] Instance screen_cell_eq_dec : EqDecision screen_cell. Proof. solve_decision. Defined.

Definition blank : screen_cell := ScreenCell 32 1 style_default.

Abbreviation line := (list screen_cell).

Record scrollback := Scrollback {
  capacity : nat;
  ring : list line;
  head : nat;
  sb_size : nat;
  offset : nat;
}.

Definition scrollback_new (capacity : nat) : scrollback :=
  Scrollback capacity (replicate capacity []) 0 0 0.

(** [while (len > 0 && cells[len - 1] == blank) --len]. *)
Fixpoint trimmed_len (cells : line) (len : nat) : nat :=
  match len with
  | O => O
  | S k => if bool_decide (cells !! k = Some blank) then trimmed_len cells k else len
  end.

Definition sb_push (sb : scrollback) (cells : line) : scrollback :=
  if (capacity sb =? 0)%nat then sb
  else
    let len := trimmed_len cells (length cells) in
    let '(slot, head, size) :=
      if (sb_size sb <? capacity sb)%nat
      then (((head sb + sb_size sb) mod capacity sb)%nat, head sb, S (sb_size sb))
      else (head sb, ((head sb + 1) mod capacity sb)%nat, sb_size sb) in
    let ring := <[slot := take len cells]> (ring sb) in
    let offset :=
      if (0 <? offset sb)%nat then
        let offset := S (offset sb) in
        if (size <? offset)%nat then size else offset
      else offset sb in
    Scrollback (capacity sb) ring head size offset.

Definition sb_at (sb : scrollback) (index : nat) : line :=
  if (sb_size sb <=? index)%nat then []
  else default [] (ring sb !! ((head sb + index) mod capacity sb)%nat).

Definition sb_clear (sb : scrollback) : scrollback :=
  Scrollback (capacity sb) (ring sb) (head sb) 0 0.

Definition scroll_back (sb : scrollback) (n : nat) : scrollback :=
  Scrollback (capacity sb) (ring sb) (head sb) (sb_size sb)
    (if (sb_size sb - offset sb <? n)%nat then sb_size sb else (offset sb + n)%nat).

Definition scroll_forward (sb : scrollback) (n : nat) : scrollback :=
  Scrollback (capacity sb) (ring sb) (head sb) (sb_size sb)
    (if (offset sb <? n)%nat then 0%nat else (offset sb - n)%nat).

Definition scroll_to_bottom (sb : scrollback) : scrollback :=
  Scrollback (capacity sb) (ring sb) (head sb) (sb_size sb) 0.

(** ** What it promises: the last [capacity] lines, trimmed *)

Definition scrollback_ok (sb : scrollback) : Prop :=
  length (ring sb) = capacity sb /\
  (capacity sb = 0 /\ head sb = 0 \/ head sb < capacity sb)%nat /\
  (sb_size sb <= capacity sb)%nat /\ (offset sb <= sb_size sb)%nat.

#[export] Instance scrollback_ok_dec sb : Decision (scrollback_ok sb).
Proof. unfold scrollback_ok. apply _. Defined.

(** The lines it holds, oldest first. *)
Definition history (sb : scrollback) : list line := sb_at sb <$> seq 0 (sb_size sb).

Definition trim (cells : line) : line := take (trimmed_len cells (length cells)) cells.

Definition last_n {A} (n : nat) (l : list A) : list A := drop (length l - n) l.

Lemma length_history sb : length (history sb) = sb_size sb.
Proof. unfold history. by rewrite length_fmap, length_seq. Qed.

Lemma history_lookup sb i : (i < sb_size sb)%nat -> history sb !! i = Some (sb_at sb i).
Proof. intros Hi. unfold history. by rewrite list_lookup_fmap, lookup_seq_lt. Qed.

Lemma history_ext sb1 sb2 :
  sb_size sb1 = sb_size sb2 ->
  (forall i, (i < sb_size sb1)%nat -> sb_at sb1 i = sb_at sb2 i) -> history sb1 = history sb2.
Proof.
  intros Hs H. unfold history. rewrite <- Hs. apply list_fmap_ext.
  intros i k Hk. apply lookup_seq in Hk. apply H. lia.
Qed.

(** Slots of distinct live indices are distinct. *)
Lemma slot_inj h c i j :
  (0 < c)%nat -> (i < c)%nat -> (j < c)%nat ->
  ((h + i) mod c)%nat = ((h + j) mod c)%nat -> i = j.
Proof.
  intros Hc Hi Hj He.
  pose proof (Nat.div_mod (h + i) c ltac:(lia)). pose proof (Nat.div_mod (h + j) c ltac:(lia)).
  pose proof (Nat.mod_upper_bound (h + i) c ltac:(lia)).
  assert ((h + i) / c = (h + j) / c \/ (h + i) / c < (h + j) / c \/ (h + j) / c < (h + i) / c)%nat
    as [|[|]] by lia; [nia|nia|nia].
Qed.

Lemma mod_next h c i : (0 < c)%nat -> (((h + 1) mod c + i) mod c)%nat = ((h + (1 + i)) mod c)%nat.
Proof. intros. rewrite Nat.Div0.add_mod_idemp_l. f_equal. lia. Qed.

Lemma push_ok sb cells : scrollback_ok sb -> scrollback_ok (sb_push sb cells).
Proof.
  intros (Hr & Hh & Hs & Ho). unfold sb_push.
  destruct (Nat.eqb_spec (capacity sb) 0); [done|].
  assert (head sb < capacity sb)%nat as Hlt by lia.
  destruct (Nat.ltb_spec (sb_size sb) (capacity sb)); unfold scrollback_ok;
    cbn [capacity ring head sb_size offset]; rewrite length_insert.
  - split_and!; try lia.
    destruct (Nat.ltb_spec 0 (offset sb)), (Nat.ltb_spec (S (sb_size sb)) (S (offset sb))); lia.
  - pose proof (Nat.mod_upper_bound (head sb + 1) (capacity sb) ltac:(lia)).
    split_and!; try lia.
    destruct (Nat.ltb_spec 0 (offset sb)), (Nat.ltb_spec (sb_size sb) (S (offset sb))); lia.
Qed.

Lemma push_history sb cells :
  scrollback_ok sb ->
  history (sb_push sb cells) = last_n (capacity sb) (history sb ++ [trim cells]).
Proof.
  intros (Hr & Hh & Hs & Ho). unfold last_n. rewrite length_app, length_history. cbn [length].
  unfold sb_push. destruct (Nat.eqb_spec (capacity sb) 0) as [Hc|Hc].
  { rewrite Hc, Nat.sub_0_r, drop_ge by (rewrite length_app, length_history; cbn; lia).
    unfold history. by replace (sb_size sb) with 0%nat by lia. }
  assert (head sb < capacity sb)%nat as Hlt by lia. fold (trim cells).
  apply list_eq. intros i.
  destruct (Nat.ltb_spec (sb_size sb) (capacity sb)) as [Hfull|Hfull].
  - replace (sb_size sb + 1 - capacity sb)%nat with 0%nat by lia. rewrite drop_0.
    match goal with |- history ?x !! _ = _ => set (sb' := x) end.
    destruct (Nat.lt_ge_cases i (S (sb_size sb))) as [Hi|Hi].
    2:{ rewrite !lookup_ge_None_2; rewrite ?length_app, ?length_history; cbn; lia || done. }
    rewrite history_lookup by done. unfold sb_at. cbn [sb' sb_size head ring capacity].
    rewrite (proj2 (Nat.leb_gt _ _)) by lia.
    destruct (Nat.eq_dec i (sb_size sb)) as [->|Hne].
    + rewrite list_lookup_insert_eq by
        (rewrite Hr; apply Nat.mod_upper_bound; lia). cbn [default].
      rewrite lookup_app_r by (rewrite length_history; lia).
      by rewrite length_history, Nat.sub_diag.
    + rewrite list_lookup_insert_ne by
        (intros E; apply slot_inj in E; lia).
      rewrite lookup_app_l by (rewrite length_history; lia).
      rewrite history_lookup by lia. unfold sb_at. by rewrite (proj2 (Nat.leb_gt _ _)) by lia.
  - replace (sb_size sb) with (capacity sb) by lia.
    replace (capacity sb + 1 - capacity sb)%nat with 1%nat by lia.
    match goal with |- history ?x !! _ = _ => set (sb' := x) end.
    destruct (Nat.lt_ge_cases i (capacity sb)) as [Hi|Hi].
    2:{ rewrite !lookup_ge_None_2; rewrite ?length_drop, ?length_app, ?length_history; cbn; lia || done. }
    rewrite history_lookup by done. unfold sb_at. cbn [sb' sb_size head ring capacity].
    rewrite (proj2 (Nat.leb_gt _ _)) by lia. rewrite mod_next by lia.
    rewrite lookup_drop.
    destruct (Nat.eq_dec (1 + i) (capacity sb)) as [E|Hne].
    + rewrite E. replace ((head sb + capacity sb) mod capacity sb)%nat with (head sb).
      2:{ rewrite Nat.add_comm, <- (Nat.mul_1_l (capacity sb)) at 1.
          rewrite Nat.Div0.add_mod, Nat.Div0.mod_mul, Nat.add_0_l, Nat.Div0.mod_mod.
          by rewrite Nat.mod_small. }
      rewrite list_lookup_insert_eq by lia. cbn [default].
      rewrite lookup_app_r by (rewrite length_history; lia).
      rewrite length_history. by replace (capacity sb - sb_size sb)%nat with 0%nat by lia.
    + rewrite list_lookup_insert_ne.
      2:{ intros E. assert (0 = 1 + i)%nat; [|lia].
          apply (slot_inj (head sb) (capacity sb)); try lia.
          rewrite Nat.add_0_r, (Nat.mod_small (head sb)) by lia. done. }
      rewrite lookup_app_l by (rewrite length_history; lia).
      rewrite history_lookup by lia. unfold sb_at. by rewrite (proj2 (Nat.leb_gt _ _)) by lia.
Qed.


(** ** Properties *)

(** Any sequence of calls. *)
Inductive sb_op :=
  | SbPush (cells : line) | SbClear | SbBack (n : nat) | SbForward (n : nat) | SbBottom.

Definition sb_step (sb : scrollback) (o : sb_op) : scrollback :=
  match o with
  | SbPush cells => sb_push sb cells
  | SbClear => sb_clear sb
  | SbBack n => scroll_back sb n
  | SbForward n => scroll_forward sb n
  | SbBottom => scroll_to_bottom sb
  end.

Lemma scrollback_new_ok c : scrollback_ok (scrollback_new c).
Proof. unfold scrollback_ok. cbn. rewrite length_replicate. lia. Qed.

Lemma sb_step_ok sb o : scrollback_ok sb -> scrollback_ok (sb_step sb o).
Proof.
  intros Hok. destruct o; cbn [sb_step]; [by apply push_ok|..];
    destruct Hok as (Hr & Hh & Hs & Ho); unfold scrollback_ok; cbn [sb_clear scroll_back
      scroll_forward scroll_to_bottom capacity ring head sb_size offset]; split_and!; try lia.
  - destruct (Nat.ltb_spec (sb_size sb - offset sb) n); lia.
  - destruct (Nat.ltb_spec (offset sb) n); lia.
Qed.

(** What the history holds, as a list that forgets its oldest lines. *)
Definition spec_step (capacity : nat) (lines : list line) (o : sb_op) : list line :=
  match o with
  | SbPush cells => last_n capacity (lines ++ [trim cells])
  | SbClear => []
  | _ => lines
  end.

Lemma sb_step_capacity sb o : capacity (sb_step sb o) = capacity sb.
Proof. destruct o; cbn; [|done..]. unfold sb_push. by repeat case_match. Qed.

Lemma sb_step_history sb o :
  scrollback_ok sb -> history (sb_step sb o) = spec_step (capacity sb) (history sb) o.
Proof. intros Hok. destruct o; cbn [sb_step spec_step]; [by apply push_history|done..]. Qed.

(** C25: the ring is the list of the last [capacity] lines, each trimmed of its
    default blanks: after any sequence of pushes, clears and scrolls, of any
    capacity including zero, reading it by index gives exactly the lines of a
    plain list that forgets its oldest entry, and the offset stays within it. *)
Theorem scrollback_refines_list c ops :
  let sb := fold_left sb_step ops (scrollback_new c) in
  history sb = fold_left (spec_step c) ops [] /\
  (forall i, sb_at sb i = default [] (fold_left (spec_step c) ops [] !! i)) /\
  (offset sb <= sb_size sb <= c)%nat.
Proof.
  intros sb.
  assert (forall l sb0, scrollback_ok sb0 ->
    let sb := fold_left sb_step l sb0 in
    scrollback_ok sb /\ capacity sb = capacity sb0 /\
    history sb = fold_left (spec_step (capacity sb0)) l (history sb0)) as H.
  { clear. induction l as [|o l IH]; intros sb0 H0; [done|]. cbn [fold_left].
    destruct (IH (sb_step sb0 o) (sb_step_ok _ _ H0)) as (H1 & H2 & H3).
    rewrite sb_step_capacity in H2, H3. rewrite sb_step_history in H3 by done. done. }
  destruct (H ops (scrollback_new c) (scrollback_new_ok c)) as ((Hr & Hh & Hs & Ho) & Hc & Hhist).
  fold sb in Hr, Hh, Hs, Ho, Hc, Hhist. change (history (scrollback_new c)) with (@nil line) in Hhist.
  change (capacity (scrollback_new c)) with c in *. split_and!; [done| |done|lia].
  intros i. rewrite <- Hhist. destruct (Nat.lt_ge_cases i (sb_size sb)).
  - by rewrite history_lookup.
  - rewrite lookup_ge_None_2 by (rewrite length_history; lia). unfold sb_at.
    by rewrite (proj2 (Nat.leb_le _ _)).
Qed.

(** Reading back is stable under output: while the history is consulted
    above the bottom, pushing a line does not move what is shown -- the line
    [k] below the consulted point is the same before and after, unless it was
    the very oldest and fell off a full ring. *)
Theorem consulted_view_is_stable sb cells k :
  scrollback_ok sb -> (0 < offset sb)%nat -> (offset sb < capacity sb)%nat ->
  (k < offset sb)%nat ->
  let sb' := sb_push sb cells in
  sb_at sb' (sb_size sb' - offset sb' + k) = sb_at sb (sb_size sb - offset sb + k).
Proof.
  intros Hok Ho Hlt Hk sb'. pose proof (push_history sb cells Hok) as Hh. fold sb' in Hh.
  pose proof (push_ok sb cells Hok) as (Hr' & Hh' & Hs' & Ho'). fold sb' in Hr', Hh', Hs', Ho'.
  pose proof Hok as (Hr & Hhd & Hs & Hof).
  assert (capacity sb' = capacity sb) as Hcap by apply (sb_step_capacity sb (SbPush cells)).
  assert (sb_size sb' = Nat.min (capacity sb) (S (sb_size sb)) /\ offset sb' = S (offset sb)) as [Es Eo].
  { unfold sb', sb_push. rewrite (proj2 (Nat.eqb_neq _ _)) by lia.
    rewrite (proj2 (Nat.ltb_lt 0 (offset sb))) by lia.
    destruct (Nat.ltb_spec (sb_size sb) (capacity sb)); cbn [sb_size offset];
      rewrite (proj2 (Nat.ltb_ge _ _)) by lia; lia. }
  apply (f_equal (fun l => l !! (sb_size sb' - offset sb' + k)%nat)) in Hh. cbv beta in Hh.
  rewrite history_lookup in Hh by lia. unfold last_n in Hh.
  rewrite lookup_drop, length_app, length_history in Hh. cbn [length] in Hh.
  rewrite lookup_app_l in Hh by (rewrite length_history; lia).
  rewrite history_lookup in Hh by lia. injection Hh as ->. f_equal. lia.
Qed.

Definition demo_line (c : Z) : line := [ScreenCell c 1 style_default; blank].

Lemma consulted_view_is_stable_witness :
  let sb := scroll_back (fold_left sb_step (SbPush <$> (demo_line <$> [97; 98; 99; 100]))
                           (scrollback_new 3)) 2 in
  let sb' := sb_push sb (demo_line 101) in
  sb_at sb' (sb_size sb' - offset sb' + 1) = sb_at sb (sb_size sb - offset sb + 1).
Proof.
  apply consulted_view_is_stable; [apply (bool_decide_unpack _); by vm_compute|cbn; lia..].
Defined.
