(* ===== verification/Screen.v ===== *)
(** * The terminal grid: [src/vt/screen.hpp], [src/vt/screen.cpp]

    The grid is one flat list of cells, row after row, as the vector of the
    source.  The scrollback the screen feeds through a pointer is carried in the
    [scrollback] field ([None] is the null pointer).  The ambiguous-width policy
    [amb] of [char_width] is a section parameter.  Coordinates are integers;
    reading outside the grid through [at_] is defined by the source, and every
    other access is shown to be in range. *)

From S2P Require Import Prelude Utf8 Cell Width VtModes Scrollback.

Definition kTabStop : Z := 8.

(** [append_utf8]: the screen's own encoder, with no check on the scalar. *)
Definition append_utf8 (out : bytes) (cp : Z) : bytes :=
  if cp <? 0x80 then out ++ [to_u8 cp]
  else if cp <? 0x800 then
    out ++ [to_u8 (Z.lor 0xC0 (Z.shiftr cp 6)); to_u8 (Z.lor 0x80 (Z.land cp 0x3F))]
  else if cp <? 0x10000 then
    out ++ [to_u8 (Z.lor 0xE0 (Z.shiftr cp 12)); to_u8 (Z.lor 0x80 (Z.land (Z.shiftr cp 6) 0x3F));
            to_u8 (Z.lor 0x80 (Z.land cp 0x3F))]
  else
    out ++ [to_u8 (Z.lor 0xF0 (Z.shiftr cp 18)); to_u8 (Z.lor 0x80 (Z.land (Z.shiftr cp 12) 0x3F));
            to_u8 (Z.lor 0x80 (Z.land (Z.shiftr cp 6) 0x3F)); to_u8 (Z.lor 0x80 (Z.land cp 0x3F))].

Record saved_cursor := SavedCursor {
  sv_x : Z; sv_y : Z; sv_wrap : bool; sv_style : style; sv_charset : charset }.

Definition saved_default : saved_cursor := SavedCursor 0 0 false style_default Ascii.

Record screen := Screen {
  cols : Z;
  rows : Z;
  grid : list screen_cell;
  tabs : list bool;
  cx : Z;
  cy : Z;
  wrap_pending : bool;
  top : Z;
  bottom : Z;
  autowrap : bool;
  cur_charset : charset;
  pen : style;
  saved : saved_cursor;
  alt : bool;
  parked : list screen_cell;
  parked_cursor : saved_cursor;
  parked_decsc : saved_cursor;
  sb : option scrollback;
}.

(** ** Field updates *)

Definition with_grid (s : screen) (g : list screen_cell) : screen :=
  Screen (cols s) (rows s) g (tabs s) (cx s) (cy s) (wrap_pending s) (top s) (bottom s)
    (autowrap s) (cur_charset s) (pen s) (saved s) (alt s) (parked s) (parked_cursor s)
    (parked_decsc s) (sb s).

Definition with_cursor (s : screen) (x y : Z) (wp : bool) : screen :=
  Screen (cols s) (rows s) (grid s) (tabs s) x y wp (top s) (bottom s)
    (autowrap s) (cur_charset s) (pen s) (saved s) (alt s) (parked s) (parked_cursor s)
    (parked_decsc s) (sb s).

Definition with_region (s : screen) (t b : Z) : screen :=
  Screen (cols s) (rows s) (grid s) (tabs s) (cx s) (cy s) (wrap_pending s) t b
    (autowrap s) (cur_charset s) (pen s) (saved s) (alt s) (parked s) (parked_cursor s)
    (parked_decsc s) (sb s).

Definition with_tabs (s : screen) (t : list bool) : screen :=
  Screen (cols s) (rows s) (grid s) t (cx s) (cy s) (wrap_pending s) (top s) (bottom s)
    (autowrap s) (cur_charset s) (pen s) (saved s) (alt s) (parked s) (parked_cursor s)
    (parked_decsc s) (sb s).

Definition with_sb (s : screen) (x : option scrollback) : screen :=
  Screen (cols s) (rows s) (grid s) (tabs s) (cx s) (cy s) (wrap_pending s) (top s) (bottom s)
    (autowrap s) (cur_charset s) (pen s) (saved s) (alt s) (parked s) (parked_cursor s)
    (parked_decsc s) x.

Definition set_pen (s : screen) (p : style) : screen :=
  Screen (cols s) (rows s) (grid s) (tabs s) (cx s) (cy s) (wrap_pending s) (top s) (bottom s)
    (autowrap s) (cur_charset s) p (saved s) (alt s) (parked s) (parked_cursor s)
    (parked_decsc s) (sb s).

Definition set_charset (s : screen) (c : charset) : screen :=
  Screen (cols s) (rows s) (grid s) (tabs s) (cx s) (cy s) (wrap_pending s) (top s) (bottom s)
    (autowrap s) c (pen s) (saved s) (alt s) (parked s) (parked_cursor s)
    (parked_decsc s) (sb s).

Definition set_autowrap (s : screen) (on : bool) : screen :=
  Screen (cols s) (rows s) (grid s) (tabs s) (cx s) (cy s) (wrap_pending s) (top s) (bottom s)
    on (cur_charset s) (pen s) (saved s) (alt s) (parked s) (parked_cursor s)
    (parked_decsc s) (sb s).

Definition with_saved (s : screen) (sv : saved_cursor) : screen :=
  Screen (cols s) (rows s) (grid s) (tabs s) (cx s) (cy s) (wrap_pending s) (top s) (bottom s)
    (autowrap s) (cur_charset s) (pen s) sv (alt s) (parked s) (parked_cursor s)
    (parked_decsc s) (sb s).

(** ** Construction, cells *)

Definition clamp (v lo hi : Z) : Z := Z.min (Z.max v lo) hi.

Definition fresh_tabs (cols : Z) : list bool :=
  (fun x => (0 <? Z.of_nat x) && (Z.of_nat x mod kTabStop =? 0)) <$> seq 0 (Z.to_nat cols).

Definition reset_tabs (s : screen) : screen := with_tabs s (fresh_tabs (cols s)).

Definition screen_new (c r : Z) : screen :=
  let c := Z.max 1 c in
  let r := Z.max 1 r in
  Screen c r (replicate (Z.to_nat c * Z.to_nat r) blank) (fresh_tabs c) 0 0 false 0 (r - 1)
    true Ascii style_default saved_default false [] saved_default saved_default None.

Definition erased (s : screen) : screen_cell :=
  ScreenCell 32 1 (Style CDefault (bg (pen s)) 0).

Definition cell_index (s : screen) (x y : Z) : nat := Z.to_nat (y * cols s + x).

Definition at_ (s : screen) (x y : Z) : screen_cell :=
  if (x <? 0) || (y <? 0) || (cols s <=? x) || (rows s <=? y) then blank
  else default blank (grid s !! cell_index s x y).

Definition set_cell (s : screen) (x y : Z) (c : screen_cell) : screen :=
  with_grid s (<[cell_index s x y := c]> (grid s)).

Definition clear_wide_at (s : screen) (x y : Z) : screen :=
  let c := at_ s x y in
  if (sc_width c =? 2) && (x + 1 <? cols s) then set_cell s (x + 1) y (erased s)
  else if (sc_width c =? 0) && (0 <? x) then set_cell s (x - 1) y (erased s)
  else s.

Definition break_wide_at (s : screen) (x y : Z) : screen :=
  let c := at_ s x y in
  if (sc_width c =? 2) && (x + 1 <? cols s) then
    set_cell (set_cell s x y (erased s)) (x + 1) y (erased s)
  else if (sc_width c =? 0) && (0 <? x) then
    set_cell (set_cell s x y (erased s)) (x - 1) y (erased s)
  else s.

(** [for (x = x0; x <= x1; ++x)] and its descending twin. *)
Definition z_range (x0 : Z) (n : nat) : list Z := (fun k => x0 + Z.of_nat k) <$> seq 0 n.

Definition for_up (x0 x1 : Z) (f : screen -> Z -> screen) (s : screen) : screen :=
  fold_left f (z_range x0 (Z.to_nat (x1 - x0 + 1))) s.

Definition for_down (x1 x0 : Z) (f : screen -> Z -> screen) (s : screen) : screen :=
  fold_left f (List.rev (z_range x0 (Z.to_nat (x1 - x0 + 1)))) s.

(** ** Scrolling *)

Definition rotate {A} (l : list A) (cut : nat) : list A := drop cut l ++ take cut l.

(** [n * cols_] elements. *)
Definition span (s : screen) (n : Z) : nat := Z.to_nat (n * cols s).

Definition scroll_slice_up (s : screen) (top bottom n : Z) : screen :=
  if (n <=? 0) || (top <? 0) || (rows s <=? bottom) || (bottom <? top) then s
  else
    let height := bottom - top + 1 in
    let first := span s top in
    let last := span s (bottom + 1) in
    let pre := take first (grid s) in
    let mid := take (last - first) (drop first (grid s)) in
    let post := drop last (grid s) in
    if height <=? n then
      with_grid s (pre ++ replicate (last - first) (erased s) ++ post)
    else
      let mid := rotate mid (span s n) in
      with_grid s (pre ++ take (last - first - span s n) mid
                   ++ replicate (span s n) (erased s) ++ post).

Definition scroll_slice_down (s : screen) (top bottom n : Z) : screen :=
  if (n <=? 0) || (top <? 0) || (rows s <=? bottom) || (bottom <? top) then s
  else
    let height := bottom - top + 1 in
    let first := span s top in
    let last := span s (bottom + 1) in
    let pre := take first (grid s) in
    let mid := take (last - first) (drop first (grid s)) in
    let post := drop last (grid s) in
    if height <=? n then
      with_grid s (pre ++ replicate (last - first) (erased s) ++ post)
    else
      let mid := rotate mid (last - first - span s n) in
      with_grid s (pre ++ replicate (span s n) (erased s) ++ drop (span s n) mid ++ post).

Definition row_cells (s : screen) (y : Z) : line := take (Z.to_nat (cols s)) (drop (span s y) (grid s)).

Definition scroll_up (s : screen) : screen :=
  let s :=
    match sb s with
    | Some b =>
        if negb (alt s) && (top s =? 0) && (bottom s =? rows s - 1)
        then with_sb s (Some (sb_push b (row_cells s (top s)))) else s
    | None => s
    end in
  scroll_slice_up s (top s) (bottom s) 1.

Definition scroll_down (s : screen) : screen := scroll_slice_down s (top s) (bottom s) 1.

(** ** Resizing and the alternate screen *)

(** [reshape]: row by row; the old geometry is that of [s]. *)
Definition reshape_row (s : screen) (g : list screen_cell) (cols' : Z) (y : Z) : line :=
  let keep_cols := Z.min cols' (cols s) in
  let kept := take (Z.to_nat keep_cols) (drop (span s y) g) in
  let row := kept ++ replicate (Z.to_nat (cols' - keep_cols)) (erased s) in
  let edge := default blank (row !! Z.to_nat (keep_cols - 1)) in
  if sc_width edge =? 2 then <[Z.to_nat (keep_cols - 1) := erased s]> row else row.

Definition reshape (s : screen) (g : list screen_cell) (cols' rows' : Z) : list screen_cell :=
  let keep_rows := Z.min rows' (rows s) in
  concat (reshape_row s g cols' <$> z_range 0 (Z.to_nat keep_rows))
  ++ replicate (Z.to_nat (rows' - keep_rows) * Z.to_nat cols') (erased s).

Definition resize (s : screen) (cols' rows' : Z) : screen :=
  let cols' := Z.max 1 cols' in
  let rows' := Z.max 1 rows' in
  if (cols' =? cols s) && (rows' =? rows s) then s
  else
    let width_changed := negb (cols' =? cols s) in
    let parked' := if alt s then reshape s (parked s) cols' rows' else parked s in
    let grid' := if alt s then replicate (Z.to_nat cols' * Z.to_nat rows') (erased s)
                 else reshape s (grid s) cols' rows' in
    let pc := parked_cursor s in
    Screen cols' rows' grid' (if width_changed then fresh_tabs cols' else tabs s)
      (clamp (cx s) 0 (cols' - 1)) (clamp (cy s) 0 (rows' - 1)) false 0 (rows' - 1)
      (autowrap s) (cur_charset s) (pen s) (saved s) (alt s) parked'
      (SavedCursor (clamp (sv_x pc) 0 (cols' - 1)) (clamp (sv_y pc) 0 (rows' - 1))
         (sv_wrap pc) (sv_style pc) (sv_charset pc))
      (parked_decsc s) (sb s).

Definition enter_alt_screen (s : screen) : screen :=
  if alt s then s
  else
    Screen (cols s) (rows s) (replicate (Z.to_nat (cols s) * Z.to_nat (rows s)) (erased s))
      (tabs s) (cx s) (cy s) (wrap_pending s) (top s) (bottom s) (autowrap s) (cur_charset s)
      (pen s) saved_default true (grid s)
      (SavedCursor (cx s) (cy s) (wrap_pending s) (pen s) (cur_charset s)) (saved s) (sb s).

Definition leave_alt_screen (s : screen) : screen :=
  if negb (alt s) then s
  else
    let pc := parked_cursor s in
    Screen (cols s) (rows s) (parked s) (tabs s) (sv_x pc) (sv_y pc) (sv_wrap pc) (top s)
      (bottom s) (autowrap s) (sv_charset pc) (sv_style pc) (parked_decsc s) false (grid s)
      pc (parked_decsc s) (sb s).

(** ** Cursor movement *)

Definition line_feed (s : screen) : screen :=
  let s := with_cursor s (cx s) (cy s) false in
  if cy s =? bottom s then scroll_up s
  else if cy s + 1 <? rows s then with_cursor s (cx s) (cy s + 1) false
  else s.

Definition carriage_return (s : screen) : screen := with_cursor s 0 (cy s) false.

Definition backspace (s : screen) : screen :=
  if wrap_pending s then with_cursor s (cx s) (cy s) false
  else if 0 <? cx s then with_cursor s (cx s - 1) (cy s) (wrap_pending s)
  else s.

(** The first stop after the cursor, if any. *)
Definition next_tab (s : screen) : option Z :=
  List.find (fun x => default false (tabs s !! Z.to_nat x))
    (z_range (cx s + 1) (Z.to_nat (cols s - (cx s + 1)))).

Definition tab (s : screen) : screen :=
  match next_tab s with
  | Some x => with_cursor s x (cy s) false
  | None => with_cursor s (cols s - 1) (cy s) false
  end.

Definition index (s : screen) : screen := line_feed s.

Definition reverse_index (s : screen) : screen :=
  let s := with_cursor s (cx s) (cy s) false in
  if cy s =? top s then scroll_down s
  else if 0 <? cy s then with_cursor s (cx s) (cy s - 1) false
  else s.

Definition next_line (s : screen) : screen := line_feed (carriage_return s).

Definition move_to (s : screen) (x y : Z) : screen :=
  with_cursor s (clamp x 0 (cols s - 1)) (clamp y 0 (rows s - 1)) false.

Definition move_up (s : screen) (n : Z) : screen := move_to s (cx s) (cy s - Z.max 1 n).
Definition move_down (s : screen) (n : Z) : screen := move_to s (cx s) (cy s + Z.max 1 n).
Definition move_right (s : screen) (n : Z) : screen := move_to s (cx s + Z.max 1 n) (cy s).

Definition move_left (s : screen) (n : Z) : screen :=
  let steps := Z.max 1 n in
  let steps := if wrap_pending s then steps - 1 else steps in
  let s := if wrap_pending s then with_cursor s (cx s) (cy s) false else s in
  move_to s (cx s - steps) (cy s).

Definition set_column (s : screen) (x : Z) : screen := move_to s x (cy s).
Definition set_row (s : screen) (y : Z) : screen := move_to s (cx s) y.

Definition set_tab (s : screen) : screen :=
  if (0 <=? cx s) && (cx s <? cols s) then with_tabs s (<[Z.to_nat (cx s) := true]> (tabs s)) else s.
Definition clear_tab (s : screen) : screen :=
  if (0 <=? cx s) && (cx s <? cols s) then with_tabs s (<[Z.to_nat (cx s) := false]> (tabs s)) else s.
Definition clear_all_tabs (s : screen) : screen :=
  with_tabs s (replicate (length (tabs s)) false).

(** ** Erasing and editing *)

Definition erase_span (s : screen) (x0 x1 y : Z) : screen :=
  if (y <? 0) || (rows s <=? y) then s
  else
    let x0 := Z.max 0 x0 in
    let x1 := Z.min (cols s - 1) x1 in
    if x1 <? x0 then s
    else
      let s := clear_wide_at s x0 y in
      let s := clear_wide_at s x1 y in
      for_up x0 x1 (fun s x => set_cell s x y (erased s)) s.

Definition erase_rows (s : screen) (y0 y1 : Z) : screen :=
  for_up y0 y1 (fun s y => erase_span s 0 (cols s - 1) y) s.

Definition erase_display (s : screen) (mode : Z) : screen :=
  if mode =? 0 then
    let s := erase_span s (cx s) (cols s - 1) (cy s) in
    erase_rows s (cy s + 1) (rows s - 1)
  else if mode =? 1 then
    let s := erase_rows s 0 (cy s - 1) in
    erase_span s 0 (cx s) (cy s)
  else if mode =? 2 then erase_rows s 0 (rows s - 1)
  else s.

Definition erase_line (s : screen) (mode : Z) : screen :=
  if mode =? 0 then erase_span s (cx s) (cols s - 1) (cy s)
  else if mode =? 1 then erase_span s 0 (cx s) (cy s)
  else if mode =? 2 then erase_span s 0 (cols s - 1) (cy s)
  else s.

Definition erase_chars (s : screen) (n : Z) : screen := erase_span s (cx s) (cx s + n - 1) (cy s).

Definition insert_chars (s : screen) (n : Z) : screen :=
  if (n <=? 0) || (cols s <=? cx s) then s
  else
    let room := cols s - cx s in
    let n := Z.min n room in
    let s := break_wide_at s (cx s) (cy s) in
    let y := cy s in
    let s := for_down (cols s - 1) (cx s + n)
               (fun s x => set_cell s x y (at_ s (x - n) y)) s in
    let s := erase_span s (cx s) (cx s + n - 1) (cy s) in
    if sc_width (at_ s (cols s - 1) (cy s)) =? 2
    then set_cell s (cols s - 1) (cy s) (erased s) else s.

Definition delete_chars (s : screen) (n : Z) : screen :=
  if (n <=? 0) || (cols s <=? cx s) then s
  else
    let room := cols s - cx s in
    let n := Z.min n room in
    let s := break_wide_at s (cx s) (cy s) in
    let s := break_wide_at s (cx s + n) (cy s) in
    let y := cy s in
    let s := for_up (cx s) (cols s - n - 1)
               (fun s x => set_cell s x y (at_ s (x + n) y)) s in
    erase_span s (cols s - n) (cols s - 1) (cy s).

Definition insert_lines (s : screen) (n : Z) : screen :=
  if (n <=? 0) || (cy s <? top s) || (bottom s <? cy s) then s
  else scroll_slice_down s (cy s) (bottom s) n.

Definition delete_lines (s : screen) (n : Z) : screen :=
  if (n <=? 0) || (cy s <? top s) || (bottom s <? cy s) then s
  else scroll_slice_up s (cy s) (bottom s) n.

(** ** The region and the saved cursor *)

Definition set_scroll_region (s : screen) (t b : Z) : screen :=
  let t := Z.max 0 t in
  let b := Z.min (rows s - 1) b in
  if b - t <? 1 then s else with_cursor (with_region s t b) 0 0 false.

Definition reset_scroll_region (s : screen) : screen :=
  with_cursor (with_region s 0 (rows s - 1)) 0 0 false.

Definition save_cursor (s : screen) : screen :=
  with_saved s (SavedCursor (cx s) (cy s) (wrap_pending s) (pen s) (cur_charset s)).

Definition restore_cursor (s : screen) : screen :=
  let sv := saved s in
  let x := clamp (sv_x sv) 0 (cols s - 1) in
  let y := clamp (sv_y sv) 0 (rows s - 1) in
  set_pen (set_charset (with_cursor s x y (sv_wrap sv && (x =? cols s - 1))) (sv_charset sv))
    (sv_style sv).

(** ** Reading a row back *)

Definition last_glyph (s : screen) (y : Z) : Z :=
  fold_left (fun last x =>
    let c := at_ s x y in
    if negb (sc_width c =? 0) && negb (sc_ch c =? 32) then x else last)
    (z_range 0 (Z.to_nat (cols s))) (-1).

Definition line_text (s : screen) (y : Z) : bytes :=
  if (y <? 0) || (rows s <=? y) then []
  else
    fold_left (fun out x =>
      let c := at_ s x y in
      if sc_width c =? 0 then out else append_utf8 out (sc_ch c))
      (z_range 0 (Z.to_nat (last_glyph s y + 1))) [].

(** ** Printing *)

Section Print.
Context (amb : bool).

(** [wrap_if_pending], [wrap_if_too_wide]: the two ways [print] leaves a row;
    [None] is the early return. *)
Definition print_wrap (s : screen) : screen :=
  if wrap_pending s && autowrap s then line_feed (with_cursor s 0 (cy s) false) else s.

Definition print_fit (s : screen) (w : Z) : option screen :=
  if (w =? 2) && (cols s <=? cx s + 1) then
    if negb (autowrap s) then None else Some (line_feed (with_cursor s 0 (cy s) (wrap_pending s)))
  else Some s.

(** The writing of the cell and of its right half, and the advance. *)
Definition print_write (s : screen) (cp w : Z) : screen :=
  let s := clear_wide_at s (cx s) (cy s) in
  let s := if (w =? 2) && (cx s + 1 <? cols s) then clear_wide_at s (cx s + 1) (cy s) else s in
  let s := set_cell s (cx s) (cy s) (ScreenCell cp w (pen s)) in
  if (w =? 2) && (cx s + 1 <? cols s)
  then set_cell s (cx s + 1) (cy s) (ScreenCell 32 0 (pen s)) else s.

Definition print_advance (s : screen) (w : Z) : screen :=
  if cols s <=? cx s + w then with_cursor s (cols s - 1) (cy s) true
  else with_cursor s (cx s + w) (cy s) (wrap_pending s).

Definition print (s : screen) (cp : Z) : screen :=
  let cp := translate cp (cur_charset s) in
  let w := Z.max 0 (char_width amb cp) in
  if w =? 0 then s
  else
    match print_fit (print_wrap s) w with
    | None => print_wrap s
    | Some s => print_advance (print_write s cp w) w
    end.
End Print.

(** ** Operations that only repaint cells *)

Definition same_frame (s s' : screen) : Prop :=
  with_grid s [] = with_grid s' [] /\ length (grid s) = length (grid s').

Lemma same_frame_refl s : same_frame s s. Proof. done. Qed.
Lemma same_frame_trans s1 s2 s3 : same_frame s1 s2 -> same_frame s2 s3 -> same_frame s1 s3.
Proof. intros [H1 L1] [H2 L2]. split; congruence. Qed.
Lemma same_frame_sym s1 s2 : same_frame s1 s2 -> same_frame s2 s1.
Proof. by intros [H L]. Qed.

Lemma same_frame_fields s s' :
  same_frame s s' ->
  cols s' = cols s /\ rows s' = rows s /\ cx s' = cx s /\ cy s' = cy s /\ pen s' = pen s /\
  top s' = top s /\ bottom s' = bottom s /\ alt s' = alt s /\ sb s' = sb s /\
  wrap_pending s' = wrap_pending s /\ autowrap s' = autowrap s /\ tabs s' = tabs s /\
  saved s' = saved s /\ parked s' = parked s /\ parked_cursor s' = parked_cursor s /\
  parked_decsc s' = parked_decsc s /\ cur_charset s' = cur_charset s.
Proof. intros [H _]. destruct s, s'. cbn in *. injection H. intros. by subst. Qed.

Lemma same_frame_erased s s' : same_frame s s' -> erased s' = erased s.
Proof. intros H. destruct (same_frame_fields _ _ H) as (? & ? & ? & ? & Hp & _). unfold erased. by rewrite Hp. Qed.

Lemma set_cell_frame s x y c : same_frame s (set_cell s x y c).
Proof. split; [done|]. cbn. by rewrite length_insert. Qed.

Lemma clear_wide_frame s x y : same_frame s (clear_wide_at s x y).
Proof. unfold clear_wide_at. repeat case_match; try apply set_cell_frame; apply same_frame_refl. Qed.

Lemma break_wide_frame s x y : same_frame s (break_wide_at s x y).
Proof.
  unfold break_wide_at. repeat case_match; try apply same_frame_refl;
    (eapply same_frame_trans; apply set_cell_frame).
Qed.

(** Peel repaints off, outermost first. *)
Ltac frames :=
  lazymatch goal with
  | |- same_frame ?s ?s => apply same_frame_refl
  | |- same_frame _ (set_cell _ _ _ _) =>
      eapply same_frame_trans; [|apply set_cell_frame]; frames
  | |- same_frame _ (clear_wide_at _ _ _) =>
      eapply same_frame_trans; [|apply clear_wide_frame]; frames
  | |- same_frame _ (break_wide_at _ _ _) =>
      eapply same_frame_trans; [|apply break_wide_frame]; frames
  end.

Lemma fold_frame {A} (f : screen -> A -> screen) l s :
  (forall s x, same_frame s (f s x)) -> same_frame s (fold_left f l s).
Proof.
  intros Hf. revert s. induction l as [|x l IH]; intros s; [apply same_frame_refl|].
  eapply same_frame_trans; [apply Hf|apply IH].
Qed.

Lemma for_up_frame x0 x1 f s :
  (forall s x, same_frame s (f s x)) -> same_frame s (for_up x0 x1 f s).
Proof. apply fold_frame. Qed.

Lemma for_down_frame x1 x0 f s :
  (forall s x, same_frame s (f s x)) -> same_frame s (for_down x1 x0 f s).
Proof. apply fold_frame. Qed.

Lemma erase_span_frame s x0 x1 y : same_frame s (erase_span s x0 x1 y).
Proof.
  unfold erase_span. destruct (_ || _); [done|]. destruct (_ <? _); [done|].
  eapply same_frame_trans; [apply clear_wide_frame|].
  eapply same_frame_trans; [apply clear_wide_frame|].
  apply for_up_frame. intros. apply set_cell_frame.
Qed.

Lemma erase_rows_frame s y0 y1 : same_frame s (erase_rows s y0 y1).
Proof. apply for_up_frame. intros s' y. apply erase_span_frame. Qed.

Lemma erase_display_frame s m : same_frame s (erase_display s m).
Proof.
  unfold erase_display. repeat case_match; try apply same_frame_refl; try apply erase_rows_frame.
  - eapply same_frame_trans; [apply erase_span_frame|apply erase_rows_frame].
  - eapply same_frame_trans; [apply erase_rows_frame|apply erase_span_frame].
Qed.

Lemma erase_line_frame s m : same_frame s (erase_line s m).
Proof. unfold erase_line. repeat case_match; try apply same_frame_refl; apply erase_span_frame. Qed.

Lemma insert_chars_frame s n : same_frame s (insert_chars s n).
Proof.
  unfold insert_chars. destruct (_ || _); [done|]. cbv zeta.
  match goal with |- same_frame _ (if _ then set_cell ?t _ _ _ else _) =>
    assert (same_frame s t) as H; [|set (s' := t) in *] end.
  { eapply same_frame_trans; [apply break_wide_frame|].
    eapply same_frame_trans; [|apply erase_span_frame].
    apply for_down_frame. intros. apply set_cell_frame. }
  destruct (_ =? 2); [|exact H]. eapply same_frame_trans; [exact H|apply set_cell_frame].
Qed.

Lemma delete_chars_frame s n : same_frame s (delete_chars s n).
Proof.
  unfold delete_chars. destruct (_ || _); [done|]. cbv zeta.
  eapply same_frame_trans; [|apply erase_span_frame].
  eapply same_frame_trans; [|apply for_up_frame; intros; apply set_cell_frame].
  eapply same_frame_trans; apply break_wide_frame.
Qed.

Lemma print_write_frame s cp w : same_frame s (print_write s cp w).
Proof.
  unfold print_write. cbv zeta. repeat case_match; frames.
Qed.

(** ** Geometry *)

Definition grid_len (s : screen) : nat := (Z.to_nat (cols s) * Z.to_nat (rows s))%nat.

Definition cursor_in (s : screen) (x y : Z) : Prop := 0 <= x < cols s /\ 0 <= y < rows s.

Definition geometry_ok (s : screen) : Prop :=
  1 <= cols s /\ 1 <= rows s /\
  length (grid s) = grid_len s /\ length (tabs s) = Z.to_nat (cols s) /\
  cursor_in s (cx s) (cy s) /\ 0 <= top s <= bottom s /\ bottom s < rows s /\
  (alt s = true -> length (parked s) = grid_len s /\
     cursor_in s (sv_x (parked_cursor s)) (sv_y (parked_cursor s))) /\
  match sb s with Some b => scrollback_ok b | None => True end.

Lemma span_mul s n : 0 <= n -> span s n = (Z.to_nat n * Z.to_nat (cols s))%nat.
Proof. intros. unfold span. destruct (Z.le_gt_cases 0 (cols s)); [lia|]. nia. Qed.

Lemma length_rotate {A} (l : list A) n : length (rotate l n) = length l.
Proof. unfold rotate. rewrite length_app, length_drop, length_take. lia. Qed.

Lemma scroll_slice_up_frame s t b n :
  0 <= cols s -> length (grid s) = grid_len s -> same_frame s (scroll_slice_up s t b n).
Proof.
  intros Hc Hl. unfold scroll_slice_up. destruct (_ || _) eqn:E; [done|].
  repeat (apply orb_false_iff in E as [E ?]). zbool. cbv zeta.
  unfold grid_len in Hl.
  assert (span s t <= span s (b + 1) <= length (grid s))%nat as Hsp.
  { rewrite !span_mul, Hl by lia. rewrite (Nat.mul_comm (Z.to_nat (cols s))).
    split; apply Nat.mul_le_mono_r; lia. }
  destruct (Z.leb_spec (b - t + 1) n); (split; [done|]); cbn.
  - rewrite !length_app, length_replicate, length_take, length_drop. lia.
  - assert (span s n <= span s (b + 1) - span s t)%nat as Hn.
    { rewrite !span_mul by lia. rewrite <- Nat.mul_sub_distr_r. apply Nat.mul_le_mono_r. lia. }
    revert Hsp Hn. generalize (span s t) (span s (b + 1)) (span s n). intros f l k ? ?.
    rewrite !length_app, length_replicate, ?length_take, ?length_drop, length_rotate,
      length_take, length_drop. lia.
Qed.

Lemma scroll_slice_down_frame s t b n :
  0 <= cols s -> length (grid s) = grid_len s -> same_frame s (scroll_slice_down s t b n).
Proof.
  intros Hc Hl. unfold scroll_slice_down. destruct (_ || _) eqn:E; [done|].
  repeat (apply orb_false_iff in E as [E ?]). zbool. cbv zeta.
  unfold grid_len in Hl.
  assert (span s t <= span s (b + 1) <= length (grid s))%nat as Hsp.
  { rewrite !span_mul, Hl by lia. rewrite (Nat.mul_comm (Z.to_nat (cols s))).
    split; apply Nat.mul_le_mono_r; lia. }
  destruct (Z.leb_spec (b - t + 1) n); (split; [done|]); cbn.
  - rewrite !length_app, length_replicate, length_take, length_drop. lia.
  - assert (span s n <= span s (b + 1) - span s t)%nat as Hn.
    { rewrite !span_mul by lia. rewrite <- Nat.mul_sub_distr_r. apply Nat.mul_le_mono_r. lia. }
    revert Hsp Hn. generalize (span s t) (span s (b + 1)) (span s n). intros f l k ? ?.
    rewrite !length_app, length_replicate, ?length_take, ?length_drop, length_rotate,
      length_take, length_drop. lia.
Qed.

Lemma geometry_frame s s' : same_frame s s' -> geometry_ok s -> geometry_ok s'.
Proof.
  intros H. pose proof (same_frame_fields s s' H) as
    (Ec & Er & Ex & Ey & _ & Et & Eb & Ea & Es & _ & _ & Etb & _ & Ep & Epc & _).
  destruct H as [_ Hl]. unfold geometry_ok, grid_len, cursor_in.
  by rewrite Ec, Er, Ex, Ey, Et, Eb, Ea, Es, Etb, Ep, Epc, Hl.
Qed.

Lemma geometry_cursor s x y wp : cursor_in s x y -> geometry_ok s -> geometry_ok (with_cursor s x y wp).
Proof. unfold geometry_ok, cursor_in, grid_len. cbn. tauto. Qed.

Lemma geometry_scroll_up s : geometry_ok s -> geometry_ok (scroll_up s).
Proof.
  intros H. unfold scroll_up.
  assert (forall s, geometry_ok s -> geometry_ok (scroll_slice_up s (top s) (bottom s) 1)) as Hup.
  { clear. intros s H. eapply geometry_frame; [|exact H].
    apply scroll_slice_up_frame; destruct H as (? & ? & ? & _); [lia|done]. }
  apply Hup. destruct (sb s) as [b|] eqn:E; [|done]. destruct (_ && _); [|done].
  destruct H as (? & ? & ? & ? & ? & ? & ? & Hp & Hsb). rewrite E in Hsb.
  unfold geometry_ok. cbn. split_and!; try done; try lia. by apply push_ok.
Qed.

Lemma geometry_scroll_down s : geometry_ok s -> geometry_ok (scroll_down s).
Proof.
  intros H. eapply geometry_frame; [|exact H].
  apply scroll_slice_down_frame; destruct H as (? & ? & ? & _); [lia|done].
Qed.

Lemma geometry_line_feed s : geometry_ok s -> geometry_ok (line_feed s).
Proof.
  intros H. assert (cursor_in s (cx s) (cy s)) as Hc by apply H.
  unfold line_feed. cbn [cx cy bottom rows with_cursor].
  destruct (_ =? _); [by apply geometry_scroll_up, geometry_cursor|].
  destruct (Z.ltb_spec (cy s + 1) (rows s)); [|by apply geometry_cursor].
  apply (geometry_cursor (with_cursor s (cx s) (cy s) false)); [|by apply geometry_cursor].
  unfold cursor_in in *. cbn. lia.
Qed.

Lemma clamp_in v hi : 0 <= hi -> 0 <= clamp v 0 hi <= hi.
Proof. unfold clamp. lia. Qed.

Lemma geometry_move s x y : geometry_ok s -> geometry_ok (move_to s x y).
Proof.
  intros H. apply geometry_cursor; [|done]. destruct H as (? & ? & _).
  pose proof (clamp_in x (cols s - 1)). pose proof (clamp_in y (rows s - 1)).
  unfold cursor_in. lia.
Qed.

Lemma length_fresh_tabs c : length (fresh_tabs c) = Z.to_nat c.
Proof. unfold fresh_tabs. by rewrite length_fmap, length_seq. Qed.

Lemma length_reshape_row s g c y :
  1 <= cols s -> 1 <= c -> (span s y + Z.to_nat (cols s) <= length g)%nat ->
  length (reshape_row s g c y) = Z.to_nat c.
Proof.
  intros Hs Hc Hg. unfold reshape_row. cbv zeta. destruct (_ =? 2); rewrite ?length_insert;
    rewrite length_app, length_replicate, length_take, length_drop; lia.
Qed.

Lemma length_concat_rows {A} (l : list (list A)) n :
  Forall (fun r => length r = n) l -> length (concat l) = (length l * n)%nat.
Proof. induction 1 as [|r l Hr _ IH]; [done|]. cbn. rewrite length_app, Hr, IH. lia. Qed.

Lemma length_z_range x n : length (z_range x n) = n.
Proof. unfold z_range. by rewrite length_fmap, length_seq. Qed.

Lemma z_range_lookup x n i : (i < n)%nat -> z_range x n !! i = Some (x + Z.of_nat i).
Proof. intros Hi. unfold z_range. by rewrite list_lookup_fmap, lookup_seq_lt. Qed.

Lemma in_z_range x n v : In v (z_range x n) -> x <= v < x + Z.of_nat n.
Proof.
  intros Hv. apply list_elem_of_In, list_elem_of_fmap in Hv as (k & -> & Hk%elem_of_seq). lia.
Qed.

Lemma length_reshape s g c r :
  1 <= cols s -> 1 <= rows s -> 1 <= c -> 1 <= r -> length g = grid_len s ->
  length (reshape s g c r) = (Z.to_nat c * Z.to_nat r)%nat.
Proof.
  intros Hc Hr Hc' Hr' Hg. unfold reshape. cbv zeta. rewrite length_app, length_replicate.
  rewrite (length_concat_rows _ (Z.to_nat c)).
  - rewrite length_fmap, length_z_range. nia.
  - apply Forall_fmap, Forall_forall. intros y Hy%in_z_range.
    apply length_reshape_row; [done..|]. rewrite span_mul, Hg by lia. unfold grid_len. nia.
Qed.

Lemma geometry_resize s c r : geometry_ok s -> geometry_ok (resize s c r).
Proof.
  intros H. unfold resize. cbv zeta. destruct (_ && _) eqn:E; [done|].
  destruct H as (Hc & Hr & Hg & Ht & Hcu & Hreg & Hbot & Hp & Hsb).
  set (c' := Z.max 1 c). set (r' := Z.max 1 r). assert (1 <= c') by lia. assert (1 <= r') by lia.
  unfold geometry_ok, cursor_in, grid_len.
  cbn [cols rows grid tabs cx cy top bottom alt parked parked_cursor sb sv_x sv_y].
  pose proof (clamp_in (cx s) (c' - 1)). pose proof (clamp_in (cy s) (r' - 1)).
  pose proof (clamp_in (sv_x (parked_cursor s)) (c' - 1)).
  pose proof (clamp_in (sv_y (parked_cursor s)) (r' - 1)).
  split_and!; try lia; try done.
  - destruct (alt s); [by rewrite length_replicate|]. by apply length_reshape.
  - destruct (Z.eqb_spec c' (cols s)) as [->|]; cbn [negb]; [done|apply length_fresh_tabs].
  - intros Ha. rewrite Ha. destruct (Hp Ha) as [Hpl _]. split; [by apply length_reshape|lia].
Qed.

(** ** Any sequence of orders *)

Inductive screen_op :=
  | OpPrint (cp : Z) | OpLineFeed | OpCarriageReturn | OpBackspace | OpTab
  | OpIndex | OpReverseIndex | OpNextLine
  | OpMoveTo (x y : Z) | OpMoveUp (n : Z) | OpMoveDown (n : Z) | OpMoveRight (n : Z)
  | OpMoveLeft (n : Z) | OpSetColumn (x : Z) | OpSetRow (y : Z)
  | OpSetTab | OpClearTab | OpClearAllTabs
  | OpEraseDisplay (mode : Z) | OpEraseLine (mode : Z) | OpEraseChars (n : Z)
  | OpInsertChars (n : Z) | OpDeleteChars (n : Z) | OpInsertLines (n : Z) | OpDeleteLines (n : Z)
  | OpSetRegion (t b : Z) | OpResetRegion | OpSaveCursor | OpRestoreCursor
  | OpSetPen (p : style) | OpSetCharset (c : charset) | OpSetAutowrap (on : bool)
  | OpEnterAlt | OpLeaveAlt | OpResize (c r : Z).

Definition screen_step (amb : bool) (s : screen) (o : screen_op) : screen :=
  match o with
  | OpPrint cp => print amb s cp
  | OpLineFeed => line_feed s
  | OpCarriageReturn => carriage_return s
  | OpBackspace => backspace s
  | OpTab => tab s
  | OpIndex => index s
  | OpReverseIndex => reverse_index s
  | OpNextLine => next_line s
  | OpMoveTo x y => move_to s x y
  | OpMoveUp n => move_up s n
  | OpMoveDown n => move_down s n
  | OpMoveRight n => move_right s n
  | OpMoveLeft n => move_left s n
  | OpSetColumn x => set_column s x
  | OpSetRow y => set_row s y
  | OpSetTab => set_tab s
  | OpClearTab => clear_tab s
  | OpClearAllTabs => clear_all_tabs s
  | OpEraseDisplay m => erase_display s m
  | OpEraseLine m => erase_line s m
  | OpEraseChars n => erase_chars s n
  | OpInsertChars n => insert_chars s n
  | OpDeleteChars n => delete_chars s n
  | OpInsertLines n => insert_lines s n
  | OpDeleteLines n => delete_lines s n
  | OpSetRegion t b => set_scroll_region s t b
  | OpResetRegion => reset_scroll_region s
  | OpSaveCursor => save_cursor s
  | OpRestoreCursor => restore_cursor s
  | OpSetPen p => set_pen s p
  | OpSetCharset c => set_charset s c
  | OpSetAutowrap on => set_autowrap s on
  | OpEnterAlt => enter_alt_screen s
  | OpLeaveAlt => leave_alt_screen s
  | OpResize c r => resize s c r
  end.

Lemma geometry_cols s : geometry_ok s -> 1 <= cols s /\ 1 <= rows s.
Proof. by intros (? & ? & _). Qed.

Lemma geometry_cursor_in s : geometry_ok s -> cursor_in s (cx s) (cy s).
Proof. intros H. apply H. Qed.

Lemma geometry_print amb s cp : geometry_ok s -> geometry_ok (print amb s cp).
Proof.
  intros H. unfold print. cbv zeta. destruct (_ =? 0); [done|].
  assert (forall s wp, geometry_ok s -> geometry_ok (line_feed (with_cursor s 0 (cy s) wp))) as Hlf.
  { intros s0 wp H0. apply geometry_line_feed, geometry_cursor; [|done].
    pose proof (geometry_cols s0 H0). destruct (geometry_cursor_in s0 H0).
    split; lia. }
  assert (geometry_ok (print_wrap s)) as H1.
  { unfold print_wrap. destruct (_ && _); [by apply Hlf|done]. }
  unfold print_fit. set (w := Z.max 0 _).
  assert (0 <= w) as Hw by lia.
  assert (forall s cp, geometry_ok s -> geometry_ok (print_advance (print_write s cp w) w)) as Ha.
  { intros s0 c0 H0. assert (geometry_ok (print_write s0 c0 w)) as Hpw
      by (eapply geometry_frame; [apply print_write_frame|done]).
    unfold print_advance. set (s2 := print_write s0 c0 w) in *.
    pose proof (geometry_cols s2 Hpw). destruct (geometry_cursor_in s2 Hpw).
    destruct (Z.leb_spec (cols s2) (cx s2 + w)); apply geometry_cursor; try done; split; lia. }
  destruct (_ && _); [|by apply Ha]. destruct (autowrap (print_wrap s)); cbn [negb]; [|done].
  apply Ha, Hlf, H1.
Qed.

Lemma geometry_tab s : geometry_ok s -> geometry_ok (tab s).
Proof.
  intros H. pose proof (geometry_cols s H). destruct (geometry_cursor_in s H).
  unfold tab, next_tab. destruct (List.find _ _) as [x|] eqn:E; apply geometry_cursor; try done.
  - apply List.find_some in E as [Hx%in_z_range _]. split; lia.
  - split; lia.
Qed.

Lemma geometry_backspace s : geometry_ok s -> geometry_ok (backspace s).
Proof.
  intros H. pose proof (geometry_cols s H). destruct (geometry_cursor_in s H).
  unfold backspace. destruct (wrap_pending s); [by apply geometry_cursor|].
  destruct (Z.ltb_spec 0 (cx s)); [|done]. apply geometry_cursor; [|done]. split; lia.
Qed.

Lemma geometry_reverse_index s : geometry_ok s -> geometry_ok (reverse_index s).
Proof.
  intros H. pose proof (geometry_cols s H). destruct (geometry_cursor_in s H).
  unfold reverse_index. cbn [cx cy top with_cursor].
  destruct (_ =? _); [by apply geometry_scroll_down, geometry_cursor|].
  destruct (Z.ltb_spec 0 (cy s)); [|by apply geometry_cursor].
  apply (geometry_cursor (with_cursor s (cx s) (cy s) false)); [|by apply geometry_cursor].
  split; cbn; lia.
Qed.

Lemma geometry_region s t b :
  0 <= t <= b -> b < rows s -> geometry_ok s -> geometry_ok (with_cursor (with_region s t b) 0 0 false).
Proof.
  intros Ht Hb H. pose proof (geometry_cols s H).
  apply geometry_cursor; [split; cbn; lia|]. unfold geometry_ok, grid_len, cursor_in in *.
  cbn. intuition lia.
Qed.

Lemma geometry_tabs s t : length t = length (tabs s) -> geometry_ok s -> geometry_ok (with_tabs s t).
Proof. intros Ht. unfold geometry_ok, grid_len, cursor_in. cbn. rewrite Ht. tauto. Qed.

Lemma geometry_enter s : geometry_ok s -> geometry_ok (enter_alt_screen s).
Proof.
  intros H. unfold enter_alt_screen. destruct (alt s) eqn:E; [done|].
  destruct H as (Hc & Hr & Hg & Ht & Hcu & Hreg & Hbot & Hp & Hsb).
  unfold geometry_ok, grid_len. cbn -[cursor_in].
  rewrite length_replicate. split_and!; try done; lia.
Qed.

Lemma geometry_leave s : geometry_ok s -> geometry_ok (leave_alt_screen s).
Proof.
  intros H. unfold leave_alt_screen. destruct (alt s) eqn:E; cbn [negb]; [|done].
  destruct H as (Hc & Hr & Hg & Ht & Hcu & Hreg & Hbot & Hp & Hsb).
  destruct (Hp E) as [Hpl Hpc]. unfold geometry_ok, grid_len. cbn -[cursor_in].
  split_and!; try done; lia.
Qed.

Lemma geometry_restore s : geometry_ok s -> geometry_ok (restore_cursor s).
Proof.
  intros H. pose proof (geometry_cols s H).
  pose proof (clamp_in (sv_x (saved s)) (cols s - 1)).
  pose proof (clamp_in (sv_y (saved s)) (rows s - 1)).
  unfold restore_cursor. cbv zeta.
  assert (forall t c p, geometry_ok t -> geometry_ok (set_pen (set_charset t c) p)) as Hset by done.
  apply Hset, geometry_cursor; [|done]. split; lia.
Qed.

Lemma geometry_step amb s o : geometry_ok s -> geometry_ok (screen_step amb s o).
Proof.
  intros H. pose proof (geometry_cols s H) as [Hc Hr]. pose proof (geometry_cursor_in s H) as Hcu.
  assert (length (grid s) = grid_len s) as Hg by apply H.
  assert (forall t, same_frame s t -> geometry_ok t) as Hf by (intros; by eapply geometry_frame).
  destruct o; cbn [screen_step]; try done.
  - by apply geometry_print.
  - by apply geometry_line_feed.
  - apply geometry_cursor; [|done]. destruct Hcu. split; lia.
  - by apply geometry_backspace.
  - by apply geometry_tab.
  - by apply geometry_line_feed.
  - by apply geometry_reverse_index.
  - apply geometry_line_feed, geometry_cursor; [|done]. destruct Hcu. split; lia.
  - by apply geometry_move.
  - by apply geometry_move.
  - by apply geometry_move.
  - by apply geometry_move.
  - unfold move_left. destruct (wrap_pending s); [by apply geometry_move, geometry_cursor|by apply geometry_move].
  - by apply geometry_move.
  - by apply geometry_move.
  - unfold set_tab. destruct (_ && _); [|done]. apply geometry_tabs; [by rewrite length_insert|done].
  - unfold clear_tab. destruct (_ && _); [|done]. apply geometry_tabs; [by rewrite length_insert|done].
  - apply geometry_tabs; [by rewrite length_replicate|done].
  - apply Hf, erase_display_frame.
  - apply Hf, erase_line_frame.
  - apply Hf, erase_span_frame.
  - apply Hf, insert_chars_frame.
  - apply Hf, delete_chars_frame.
  - unfold insert_lines. destruct (_ || _); [done|]. apply Hf, scroll_slice_down_frame; lia || done.
  - unfold delete_lines. destruct (_ || _); [done|]. apply Hf, scroll_slice_up_frame; lia || done.
  - unfold set_scroll_region. cbv zeta.
    destruct (Z.ltb_spec (Z.min (rows s - 1) b - Z.max 0 t) 1); [done|]. apply geometry_region; [lia..|done].
  - apply geometry_region; [lia..|done].
  - by apply geometry_restore.
  - by apply geometry_enter.
  - by apply geometry_leave.
  - by apply geometry_resize.
Qed.

Lemma geometry_new c r : geometry_ok (screen_new c r).
Proof.
  unfold geometry_ok, grid_len, cursor_in, screen_new. cbn -[fresh_tabs Z.max Z.to_nat].
  rewrite length_replicate, length_fresh_tabs. split_and!; try done; lia.
Qed.

Lemma geometry_run amb ops s : geometry_ok s -> geometry_ok (fold_left (screen_step amb) ops s).
Proof.
  revert s. induction ops as [|o ops IH]; intros s H; [done|]. by apply IH, geometry_step.
Qed.
