(* ===== verification/ScreenCells.v ===== *)
(** * Cells of the grid: reading after writing, wide characters, history

    The lemmas on [Screen] that speak of the contents of the page, and the
    properties of the terminal screen. *)

From S2P Require Import Prelude RowPairs Utf8 Cell Width VtModes Scrollback Screen.

(** ** Reading cells after a write *)

(** A cell of a page of [c] columns and [r] rows; a default blank outside. *)
Definition page_cell (g : list screen_cell) (c r x y : Z) : screen_cell :=
  if (x <? 0) || (y <? 0) || (c <=? x) || (r <=? y) then blank
  else default blank (g !! Z.to_nat (y * c + x)).

Lemma at_page s x y : at_ s x y = page_cell (grid s) (cols s) (rows s) x y.
Proof. done. Qed.

Definition inside (s : screen) (x y : Z) : bool :=
  (0 <=? x) && (x <? cols s) && (0 <=? y) && (y <? rows s).

Lemma insideP s x y : reflect (cursor_in s x y) (inside s x y).
Proof.
  apply iff_reflect. unfold cursor_in, inside. rewrite !andb_true_iff, !Z.leb_le, !Z.ltb_lt. tauto.
Qed.

Lemma at_outside s x y : ~ cursor_in s x y -> at_ s x y = blank.
Proof.
  intros H. unfold at_. destruct (_ || _) eqn:E; [done|]. exfalso. apply H.
  repeat (apply orb_false_iff in E as [E ?]). zbool. split; lia.
Qed.

Lemma at_inside s x y : cursor_in s x y -> at_ s x y = default blank (grid s !! cell_index s x y).
Proof.
  intros [Hx Hy]. unfold at_. zrw_false (x <? 0). zrw_false (y <? 0).
  zrw_false (cols s <=? x). by zrw_false (rows s <=? y).
Qed.

Lemma index_lt s x y : cursor_in s x y -> (cell_index s x y < grid_len s)%nat.
Proof.
  intros [Hx Hy]. unfold cell_index, grid_len. rewrite <- Z2Nat.inj_mul by lia.
  apply Z2Nat.inj_lt; nia.
Qed.

Lemma index_inj s x y x' y' :
  cursor_in s x y -> cursor_in s x' y' -> cell_index s x y = cell_index s x' y' -> x = x' /\ y = y'.
Proof.
  intros [Hx Hy] [Hx' Hy'] E. unfold cell_index in E. apply Z2Nat.inj in E; [|nia..].
  assert (y = y') as -> by nia. lia.
Qed.

Lemma at_set s x y c x' y' :
  length (grid s) = grid_len s -> cursor_in s x y ->
  at_ (set_cell s x y c) x' y' = if bool_decide (x' = x /\ y' = y) then c else at_ s x' y'.
Proof.
  intros Hl Hin. destruct (insideP s x' y') as [Hin'|Hout].
  - rewrite !at_inside by done.
    change (cell_index (set_cell s x y c) x' y') with (cell_index s x' y').
    unfold set_cell. cbn [grid with_grid].
    destruct (bool_decide_reflect (x' = x /\ y' = y)) as [[-> ->]|Hne].
    + rewrite list_lookup_insert_eq by (rewrite Hl; by apply index_lt). done.
    + rewrite list_lookup_insert_ne; [done|]. intros E. apply Hne.
      apply index_inj in E as [-> ->]; done.
  - rewrite !at_outside by done. rewrite bool_decide_false; [done|]. by intros [-> ->].
Qed.

(** ** The widths of a row *)

Definition W (s : screen) (y x : Z) : Z := sc_width (at_ s x y).

Definition pairs_ok (s : screen) : Prop := forall y, row_pairs (W s y).

Lemma z_range_S x n : z_range x (S n) = x :: z_range (x + 1) n.
Proof.
  unfold z_range. cbn [seq]. rewrite fmap_cons, Z.add_0_r. f_equal.
  rewrite <- fmap_S_seq, <- list_fmap_compose. apply list_fmap_ext. intros i k _. cbn. lia.
Qed.

Lemma for_up_S x0 x1 f s : x0 <= x1 -> for_up x0 x1 f s = for_up (x0 + 1) x1 f (f s x0).
Proof.
  intros H. unfold for_up.
  replace (Z.to_nat (x1 - x0 + 1)) with (S (Z.to_nat (x1 - (x0 + 1) + 1))) by lia.
  by rewrite z_range_S.
Qed.

Lemma for_up_0 x0 x1 f s : x1 < x0 -> for_up x0 x1 f s = s.
Proof. intros H. unfold for_up. by replace (Z.to_nat (x1 - x0 + 1)) with 0%nat by lia. Qed.

Definition grid_ok (s : screen) : Prop := length (grid s) = grid_len s.

Lemma grid_ok_frame s s' : same_frame s s' -> grid_ok s -> grid_ok s'.
Proof.
  intros H. unfold grid_ok, grid_len. destruct (same_frame_fields s s' H) as (-> & -> & _).
  destruct H as [_ Hl]. by rewrite Hl.
Qed.

Lemma at_fill s x0 x1 y x' y' :
  grid_ok s -> 0 <= x0 -> x1 < cols s -> 0 <= y < rows s ->
  at_ (for_up x0 x1 (fun s x => set_cell s x y (erased s)) s) x' y'
  = if bool_decide (x0 <= x' <= x1 /\ y' = y) then erased s else at_ s x' y'.
Proof.
  intros Hg H0 H1 Hy. remember (Z.to_nat (x1 - x0 + 1)) as n eqn:Hn.
  revert s x0 Hg H0 H1 Hy Hn. induction n as [|n IH]; intros s x0 Hg H0 H1 Hy Hn.
  - rewrite for_up_0 by lia. rewrite bool_decide_false by lia. done.
  - rewrite for_up_S by lia.
    rewrite (IH (set_cell s x0 y (erased s))); cbn; try lia.
    2:{ eapply grid_ok_frame; [apply set_cell_frame|done]. }
    change (erased (set_cell s x0 y (erased s))) with (erased s).
    rewrite at_set by (done || split; lia).
    destruct (bool_decide_reflect (x0 + 1 <= x' <= x1 /\ y' = y)),
      (bool_decide_reflect (x0 <= x' <= x1 /\ y' = y)),
      (bool_decide_reflect (x' = x0 /\ y' = y)); try done; lia.
Qed.

(** What [clear_wide_at] repaints. *)
Definition clears (s : screen) (x y x' y' : Z) : Prop :=
  y' = y /\ ((W s y x = 2 /\ x + 1 < cols s /\ x' = x + 1) \/ (W s y x = 0 /\ 0 < x /\ x' = x - 1)).

#[export] Instance clears_dec s x y x' y' : Decision (clears s x y x' y').
Proof. unfold clears. apply _. Defined.

Lemma at_clear s x y x' y' :
  grid_ok s -> cursor_in s x y ->
  at_ (clear_wide_at s x y) x' y' = if bool_decide (clears s x y x' y') then erased s else at_ s x' y'.
Proof.
  intros Hg [Hx Hy]. unfold clear_wide_at. fold (W s y x). unfold clears.
  destruct (Z.eqb_spec (W s y x) 2) as [E2|E2]; cbn [andb].
  - destruct (Z.ltb_spec (x + 1) (cols s)).
    + rewrite at_set by (done || split; lia).
      destruct (bool_decide_reflect (x' = x + 1 /\ y' = y)), (bool_decide_reflect
        (y' = y /\ (W s y x = 2 /\ x + 1 < cols s /\ x' = x + 1 \/ W s y x = 0 /\ 0 < x /\ x' = x - 1)));
        try done; lia.
    + zrw_false (W s y x =? 0). cbn [andb]. by rewrite bool_decide_false by lia.
  - destruct (Z.eqb_spec (W s y x) 0) as [E0|E0]; cbn [andb].
    + destruct (Z.ltb_spec 0 x).
      * rewrite at_set by (done || split; lia).
        destruct (bool_decide_reflect (x' = x - 1 /\ y' = y)), (bool_decide_reflect
          (y' = y /\ (W s y x = 2 /\ x + 1 < cols s /\ x' = x + 1 \/ W s y x = 0 /\ 0 < x /\ x' = x - 1)));
          try done; lia.
      * by rewrite bool_decide_false by lia.
    + by rewrite bool_decide_false by lia.
Qed.

(** A set of columns closed under pairs: a span and the halves it would orphan. *)
Definition closed_span (s : screen) (x0 x1 y x : Z) : Prop :=
  x0 <= x <= x1 \/ (x = x0 - 1 /\ W s y x0 = 0) \/ (x = x1 + 1 /\ W s y x1 = 2).

#[export] Instance closed_span_dec s x0 x1 y x : Decision (closed_span s x0 x1 y x).
Proof. unfold closed_span. apply _. Defined.

Lemma W_outside s y x : ~ (0 <= x < cols s) -> W s y x = 1.
Proof. intros H. unfold W. rewrite at_outside; [done|]. by intros [? _]. Qed.

Lemma closed_span_pairs s x0 x1 y x :
  row_pairs (W s y) -> x0 <= x1 -> W s y x = 2 ->
  bool_decide (closed_span s x0 x1 y x) = bool_decide (closed_span s x0 x1 y (x + 1)).
Proof.
  intros Hp Hx H2. destruct (Hp x) as [[Hn _] _]. specialize (Hn H2).
  apply bool_decide_ext. unfold closed_span.
  destruct (Z.eq_dec x (x0 - 1)) as [->|].
  { replace (x0 - 1 + 1) with x0 in * by lia. split; intros _; lia. }
  destruct (Z.eq_dec x x1) as [->|]; [split; intros _; lia|].
  destruct (Z.eq_dec x (x0 - 2)) as [->|].
  { replace (x0 - 2 + 1) with (x0 - 1) in * by lia.
    destruct (Hp (x0 - 1)) as [[_ Hb] _]. replace (x0 - 1 + 1) with x0 in Hb by lia.
    split; intros [|[[? H0]|]]; lia. }
  destruct (Z.eq_dec x (x1 + 1)) as [->|]; [|lia].
  destruct (Hp x1) as [[Ha _] _]. split; intros [|[|[? H0]]]; lia.
Qed.

Lemma closed_span_inside s x0 x1 y x :
  row_pairs (W s y) -> 0 <= x0 -> x0 <= x1 < cols s -> closed_span s x0 x1 y x -> 0 <= x < cols s.
Proof.
  intros Hp H0 H1 [|[[-> E]|[-> E]]]; [lia|..].
  - destruct (Z.eq_dec x0 0) as [->|]; [|lia].
    destruct (Hp (-1)) as [[_ Hb] _]. apply Hb in E. rewrite W_outside in E; lia.
  - destruct (Z.eq_dec x1 (cols s - 1)) as [->|]; [|lia].
    destruct (Hp (cols s - 1)) as [[Ha _] _]. apply Ha in E.
    rewrite W_outside in E; lia.
Qed.

Lemma if_merge3 {A} (P1 P2 P3 Q : Prop) `{!Decision P1, !Decision P2, !Decision P3, !Decision Q}
    (e r : A) :
  (Q <-> P1 \/ P2 \/ P3) ->
  (if bool_decide P1 then e else if bool_decide P2 then e else if bool_decide P3 then e else r)
  = if bool_decide Q then e else r.
Proof. intros H. repeat case_bool_decide; tauto. Qed.

Lemma at_erase_span s x0 x1 y x' y' :
  grid_ok s -> row_pairs (W s y) -> 0 <= y < rows s -> 0 <= x0 -> x0 <= x1 < cols s ->
  at_ (erase_span s x0 x1 y) x' y'
  = if bool_decide (y' = y /\ closed_span s x0 x1 y x') then erased s else at_ s x' y'.
Proof.
  intros Hg Hp Hy H0 H1. unfold erase_span. zrw_false (y <? 0). zrw_false (rows s <=? y).
  cbn [orb]. cbv zeta. rewrite Z.max_r, Z.min_r by lia. zrw_false (x1 <? x0).
  set (s1 := clear_wide_at s x0 y).
  assert (same_frame s s1) as F1 by apply clear_wide_frame.
  assert (grid_ok s1) as G1 by (by eapply grid_ok_frame).
  set (s2 := clear_wide_at s1 x1 y).
  assert (same_frame s s2) as F2 by (eapply same_frame_trans; [exact F1|apply clear_wide_frame]).
  assert (grid_ok s2) as G2 by (by eapply grid_ok_frame).
  destruct (same_frame_fields s s1 F1) as (C1 & R1 & _).
  destruct (same_frame_fields s s2 F2) as (C2 & R2 & _).
  rewrite at_fill, (same_frame_erased s s2 F2) by (done || lia).
  subst s2. rewrite at_clear, (same_frame_erased s s1 F1) by (done || (split; lia)).
  assert ((W s1 y x1 = 1 /\ W s y x0 = 2 /\ x1 = x0 + 1) \/
          (W s1 y x1 = W s y x1 /\ ~ (W s y x0 = 2 /\ x1 = x0 + 1))) as E1.
  { unfold W at 1 3. subst s1. rewrite at_clear by (done || (split; lia)).
    destruct (bool_decide_reflect (clears s x0 y x1 y)) as [Hcl|Hcl]; unfold clears in Hcl.
    - left. split; [done|]. lia.
    - right. split; [done|]. lia. }
  fold s1. subst s1. rewrite at_clear by (done || (split; lia)).
  destruct (Hp x0) as [[Ha Hb] _]. destruct (Hp x1) as [[Hc Hd] _].
  assert (W s y x1 = 2 -> x1 + 1 < cols s) as Hin1.
  { intros E. apply Hc in E. destruct (Z.lt_ge_cases (x1 + 1) (cols s)); [done|].
    rewrite W_outside in E; lia. }
  assert (W s y x0 = 0 -> 0 < x0) as Hin0.
  { intros E. destruct (Z.lt_ge_cases 0 x0); [done|]. destruct (Hp (x0 - 1)) as [[_ He] _].
    replace (x0 - 1 + 1) with x0 in He by lia. apply He in E. rewrite W_outside in E; lia. }
  assert (x1 = x0 + 1 -> W s y x0 = 2 -> W s y x1 <> 2) as Hadj.
  { intros -> E. rewrite (Ha E). lia. }
  assert (x1 = x0 -> W s y x1 = W s y x0) as Hsame by (by intros ->).
  apply if_merge3. unfold clears, closed_span. rewrite C1.
  clear Ha Hb Hc Hd G1 G2 F1 F2 C1 C2 R1 R2 Hp Hg.
  generalize dependent (W (clear_wide_at s x0 y) y x1). generalize dependent (W s y x1).
  generalize dependent (W s y x0). intros a Hin0 b Hin1 Hadj Hsame c E1. split.
  - intros [Hy' [Hs|[[-> E]|[-> E]]]]; [by left|right; right; auto 8|].
    destruct E1 as [(Ec & Ea & Ex)|[-> _]]; [by destruct (Hadj Ex Ea)|]. right; left; auto 8.
  - intros [[Hs Hy']|[[Hy' [(Ec & Hb' & ->)|(Ec & Hb' & ->)]]|[Hy' [(Ea & Hb' & ->)|(Ea & Hb' & ->)]]]];
      (split; [done|]).
    + by left.
    + destruct E1 as [(Ec' & _)|[-> _]]; [lia|auto].
    + destruct E1 as [(Ec' & _)|[-> _]]; [lia|].
      destruct (Z.eq_dec x1 x0) as [Ex|Ex]; [rewrite (Hsame Ex) in Ec; right; left; lia|left; lia].
    + destruct (Z.eq_dec x1 x0) as [Ex|Ex]; [rewrite <- (Hsame Ex) in Ea; right; right; lia|left; lia].
    + auto.
Qed.

Lemma W_erase_span s x0 x1 y y' x' :
  grid_ok s -> row_pairs (W s y) -> 0 <= y < rows s -> 0 <= x0 -> x0 <= x1 < cols s ->
  W (erase_span s x0 x1 y) y' x'
  = if bool_decide (y' = y /\ closed_span s x0 x1 y x') then 1 else W s y' x'.
Proof. intros. unfold W. rewrite at_erase_span by done. by case_bool_decide. Qed.

Lemma erase_span_clip s x0 x1 y :
  erase_span s x0 x1 y = erase_span s (Z.max 0 x0) (Z.min (cols s - 1) x1) y.
Proof. unfold erase_span. by rewrite Z.max_assoc, Z.max_id, Z.min_assoc, Z.min_id. Qed.

Lemma pairs_erase_span s x0 x1 y :
  grid_ok s -> pairs_ok s -> pairs_ok (erase_span s x0 x1 y).
Proof.
  intros Hg Hp. rewrite erase_span_clip.
  set (a := Z.max 0 x0). set (b := Z.min (cols s - 1) x1).
  destruct (Z.le_gt_cases a b) as [Hab|Hab];
    [destruct (Z.le_gt_cases 0 y); [destruct (Z.lt_ge_cases y (rows s))|]|].
  - intros y'. destruct (Z.eq_dec y' y) as [->|Hne].
    + apply (row_pairs_erase (W s y) (fun x => bool_decide (closed_span s a b y x))); [done|..].
      * intros x. by apply closed_span_pairs.
      * intros x. rewrite W_erase_span by (done || lia).
        rewrite (bool_decide_ext _ (closed_span s a b y x)); [done|tauto].
    + intros x. rewrite !W_erase_span by (done || lia).
      rewrite !bool_decide_false by tauto. apply Hp.
  - unfold erase_span. zrw_true (rows s <=? y). by rewrite orb_true_r.
  - unfold erase_span. by zrw_true (y <? 0).
  - unfold erase_span. destruct (_ || _); [done|]. cbv zeta. by zrw_true (Z.min (cols s - 1) b <? Z.max 0 a).
Qed.

(** ** Printing one character *)

Lemma at_clear_outside s x y x' y' :
  grid_ok s -> row_pairs (W s y) -> cursor_in s x y -> ~ (x' = x /\ y' = y) ->
  at_ (clear_wide_at s x y) x' y'
  = if bool_decide (y' = y /\ closed_span s x x y x') then erased s else at_ s x' y'.
Proof.
  intros Hg Hp [Hx Hy] Hne. rewrite at_clear by (done || split; lia).
  destruct (Hp x) as [[Ha _] _].
  assert (W s y x = 2 -> x + 1 < cols s).
  { intros E. apply Ha in E. destruct (Z.lt_ge_cases (x + 1) (cols s)); [done|].
    rewrite W_outside in E; lia. }
  assert (W s y x = 0 -> 0 < x).
  { intros E. destruct (Z.lt_ge_cases 0 x); [done|]. destruct (Hp (x - 1)) as [[_ He] _].
    replace (x - 1 + 1) with x in He by lia. apply He in E. rewrite W_outside in E; lia. }
  rewrite (bool_decide_ext (clears s x y x' y') (y' = y /\ closed_span s x x y x')); [done|].
  unfold clears, closed_span. split.
  - intros [-> [(E & ? & ->)|(E & ? & ->)]]; auto 8.
  - intros [-> [|[[-> E]|[-> E]]]]; [lia|auto 8..].
Qed.

Lemma at_clear2_outside s x0 x1 y x' y' :
  grid_ok s -> row_pairs (W s y) -> 0 <= y < rows s -> 0 <= x0 -> x0 <= x1 < cols s ->
  ~ (x0 <= x' <= x1 /\ y' = y) ->
  at_ (clear_wide_at (clear_wide_at s x0 y) x1 y) x' y'
  = if bool_decide (y' = y /\ closed_span s x0 x1 y x') then erased s else at_ s x' y'.
Proof.
  intros Hg Hp Hy H0 H1 Hne. rewrite <- at_erase_span by done.
  unfold erase_span. zrw_false (y <? 0). zrw_false (rows s <=? y). cbn [orb]. cbv zeta.
  rewrite Z.max_r, Z.min_r by lia. zrw_false (x1 <? x0).
  assert (same_frame s (clear_wide_at (clear_wide_at s x0 y) x1 y)) as F
    by (eapply same_frame_trans; apply clear_wide_frame).
  destruct (same_frame_fields _ _ F) as (C & R & _).
  rewrite at_fill by (lia || (eapply grid_ok_frame; [exact F|done])).
  by rewrite bool_decide_false.
Qed.

(** The page after the writing of a character of width [w] at the cursor. *)
Lemma at_print_write s cp w x' y' :
  grid_ok s -> row_pairs (W s (cy s)) -> cursor_in s (cx s) (cy s) ->
  w = 1 \/ (w = 2 /\ cx s + 1 < cols s) ->
  at_ (print_write s cp w) x' y'
  = if bool_decide (x' = cx s /\ y' = cy s) then ScreenCell cp w (pen s)
    else if bool_decide (w = 2 /\ x' = cx s + 1 /\ y' = cy s) then ScreenCell 32 0 (pen s)
    else if bool_decide (y' = cy s /\ closed_span s (cx s) (cx s + w - 1) (cy s) x')
    then erased s else at_ s x' y'.
Proof.
  intros Hg Hp Hc Hw. pose proof Hc as [Hcx Hcy]. unfold print_write. cbv zeta.
  set (s1 := clear_wide_at s (cx s) (cy s)).
  assert (same_frame s s1) as F1 by apply clear_wide_frame.
  destruct (same_frame_fields _ _ F1) as (C1 & R1 & X1 & Y1 & P1 & _).
  rewrite !X1, !Y1, !C1.
  destruct Hw as [-> | [-> Hw]]; cbn [Z.eqb Pos.eqb andb].
  - rewrite X1, Y1, P1. rewrite at_set.
    2:{ by eapply grid_ok_frame. }
    2:{ unfold cursor_in. rewrite C1, R1. done. }
    destruct (bool_decide_reflect (x' = cx s /\ y' = cy s)) as [|Hne]; [done|].
    rewrite (bool_decide_false (1 = 2 /\ _)) by lia.
    subst s1. rewrite at_clear_outside by done. by replace (cx s + 1 - 1) with (cx s) by lia.
  - zrw_true (cx s + 1 <? cols s).
    set (s2 := clear_wide_at s1 (cx s + 1) (cy s)).
    assert (same_frame s s2) as F2 by (eapply same_frame_trans; [exact F1|apply clear_wide_frame]).
    destruct (same_frame_fields _ _ F2) as (C2 & R2 & X2 & Y2 & P2 & _).
    cbn [cx cy cols pen set_cell with_grid]. rewrite !X2, !Y2, !P2, !C2. zrw_true (cx s + 1 <? cols s).
    assert (grid_ok s2) as G2 by (by eapply grid_ok_frame).
    rewrite at_set.
    2:{ by eapply grid_ok_frame; [apply set_cell_frame|]. }
    2:{ unfold cursor_in. cbn. rewrite C2, R2. lia. }
    rewrite at_set; [|done|unfold cursor_in; rewrite C2, R2; lia].
    destruct (bool_decide_reflect (x' = cx s + 1 /\ y' = cy s)) as [[-> ->]|Hn1].
    + rewrite bool_decide_false by lia. by rewrite bool_decide_true by lia.
    + destruct (bool_decide_reflect (x' = cx s /\ y' = cy s)) as [|Hn2]; [done|].
      rewrite (bool_decide_false (2 = 2 /\ _)) by lia.
      subst s2 s1. rewrite at_clear2_outside by (done || lia).
      by replace (cx s + 2 - 1) with (cx s + 1) by lia.
Qed.

Lemma pairs_print_write s cp w :
  grid_ok s -> pairs_ok s -> cursor_in s (cx s) (cy s) ->
  w = 1 \/ (w = 2 /\ cx s + 1 < cols s) -> pairs_ok (print_write s cp w).
Proof.
  intros Hg Hp Hc Hw y. pose proof Hc as [Hcx Hcy].
  assert (forall x, W (print_write s cp w) y x
    = if bool_decide (x = cx s /\ y = cy s) then w
      else if bool_decide (w = 2 /\ x = cx s + 1 /\ y = cy s) then 0
      else W (erase_span s (cx s) (cx s + w - 1) (cy s)) y x) as HW.
  { intros x. rewrite W_erase_span by (done || lia). unfold W.
    rewrite at_print_write by done. by repeat case_bool_decide. }
  pose proof (pairs_erase_span s (cx s) (cx s + w - 1) (cy s) Hg Hp y) as He.
  destruct (Z.eq_dec y (cy s)) as [->|Hne].
  - apply (row_pairs_write _ _ (cx s) w He); [lia|..].
    + rewrite W_erase_span by (done || lia). rewrite bool_decide_true; [done|].
      split; [done|]. left. lia.
    + intros ->. rewrite W_erase_span by (done || lia). rewrite bool_decide_true; [done|].
      split; [done|]. left. lia.
    + intros x. rewrite HW.
      destruct (Z.eqb_spec x (cx s)), (Z.eqb_spec w 2), (Z.eqb_spec x (cx s + 1)); cbn [andb];
        repeat case_bool_decide; try done; lia.
  - intros x. rewrite !HW. rewrite !bool_decide_false by lia. apply He.
Qed.

(** ** Breaking, shifting *)

Lemma W_erased s : sc_width (erased s) = 1. Proof. done. Qed.

Lemma W_break s x y y' x' :
  grid_ok s -> row_pairs (W s y) -> 0 <= y < rows s ->
  W (break_wide_at s x y) y' x'
  = if bool_decide (y' = y /\ W s y x <> 1 /\ closed_span s x x y x') then 1 else W s y' x'.
Proof.
  intros Hg Hp Hy. unfold break_wide_at. fold (W s y x).
  destruct (Hp x) as [[Ha _] Hr].
  assert (W s y x <> 1 -> 0 <= x < cols s) as Hin.
  { intros E. destruct (Z_le_dec 0 x), (Z_lt_dec x (cols s)); try lia; rewrite W_outside in E; lia. }
  assert (W s y x = 2 -> x + 1 < cols s) as H2.
  { intros E. apply Ha in E. destruct (Z.lt_ge_cases (x + 1) (cols s)); [done|].
    rewrite W_outside in E; lia. }
  assert (W s y x = 0 -> 0 < x) as H0.
  { intros E. destruct (Z.lt_ge_cases 0 x); [done|]. destruct (Hp (x - 1)) as [[_ He] _].
    replace (x - 1 + 1) with x in He by lia. apply He in E. rewrite W_outside in E; lia. }
  assert (forall x1 x2, cursor_in s x1 y -> cursor_in s x2 y ->
    W (set_cell (set_cell s x1 y (erased s)) x2 y (erased s)) y' x'
    = if bool_decide ((x' = x1 \/ x' = x2) /\ y' = y) then 1 else W s y' x') as Hset.
  { intros x1 x2 H1' H2'. unfold W. rewrite at_set.
    2:{ by eapply grid_ok_frame; [apply set_cell_frame|]. }
    2:{ exact H2'. }
    rewrite at_set by done. repeat case_bool_decide; try done; lia. }
  destruct (Z.eqb_spec (W s y x) 2) as [E2|E2]; cbn [andb].
  - specialize (H2 E2). zrw_true (x + 1 <? cols s).
    rewrite Hset by (split; lia). unfold closed_span.
    rewrite (bool_decide_ext _ (y' = y /\ W s y x <> 1 /\ (x <= x' <= x \/
      x' = x - 1 /\ W s y x = 0 \/ x' = x + 1 /\ W s y x = 2))); [done|]. lia.
  - destruct (Z.eqb_spec (W s y x) 0) as [E0|E0]; cbn [andb].
    + specialize (H0 E0). zrw_true (0 <? x).
      rewrite Hset by (split; lia). unfold closed_span.
      rewrite (bool_decide_ext _ (y' = y /\ W s y x <> 1 /\ (x <= x' <= x \/
        x' = x - 1 /\ W s y x = 0 \/ x' = x + 1 /\ W s y x = 2))); [done|]. lia.
    + rewrite bool_decide_false; [done|]. lia.
Qed.

Lemma pairs_break s x y :
  grid_ok s -> pairs_ok s -> 0 <= y < rows s -> pairs_ok (break_wide_at s x y).
Proof.
  intros Hg Hp Hy y'. destruct (Z.eq_dec (W s y x) 1) as [E1|E1].
  - intros x'. rewrite !W_break by done. rewrite !bool_decide_false by lia. apply Hp.
  - destruct (Z.eq_dec y' y) as [->|Hne].
    + apply (row_pairs_erase (W s y) (fun x' => bool_decide (closed_span s x x y x'))); [done|..].
      * intros x'. apply closed_span_pairs; [done|lia].
      * intros x'. rewrite W_break by done.
        rewrite (bool_decide_ext _ (closed_span s x x y x')); [done|tauto].
    + intros x'. rewrite !W_break by done. rewrite !bool_decide_false by lia. apply Hp.
Qed.

Lemma z_range_snoc x n : z_range x (S n) = z_range x n ++ [x + Z.of_nat n].
Proof. unfold z_range. rewrite seq_S, fmap_app. done. Qed.

Lemma for_down_S x0 x1 f s : x0 <= x1 -> for_down x1 x0 f s = for_down (x1 - 1) x0 f (f s x1).
Proof.
  intros H. unfold for_down.
  replace (Z.to_nat (x1 - x0 + 1)) with (S (Z.to_nat (x1 - 1 - x0 + 1))) by lia.
  rewrite z_range_snoc, List.rev_app_distr. cbn [List.rev app fold_left].
  by replace (x0 + Z.of_nat (Z.to_nat (x1 - 1 - x0 + 1))) with x1 by lia.
Qed.

Lemma for_down_0 x0 x1 f s : x1 < x0 -> for_down x1 x0 f s = s.
Proof. intros H. unfold for_down. by replace (Z.to_nat (x1 - x0 + 1)) with 0%nat by lia. Qed.

(** Erasing in a row leaves the others alone, pairs or not. *)
Lemma at_erase_span_other s x0 x1 y x' y' :
  grid_ok s -> y' <> y -> at_ (erase_span s x0 x1 y) x' y' = at_ s x' y'.
Proof.
  intros Hg Hne. rewrite erase_span_clip. unfold erase_span.
  destruct (Z.ltb_spec y 0); [done|]. destruct (Z.leb_spec (rows s) y); [done|]. cbn [orb]. cbv zeta.
  rewrite (Z.max_assoc 0 0), (Z.min_assoc (cols s - 1) (cols s - 1)), Z.max_id, Z.min_id.
  set (a := Z.max 0 x0). set (b := Z.min (cols s - 1) x1).
  destruct (Z.ltb_spec b a); [done|].
  set (s1 := clear_wide_at s a y).
  assert (same_frame s s1) as F1 by apply clear_wide_frame.
  set (s2 := clear_wide_at s1 b y).
  assert (same_frame s s2) as F2 by (eapply same_frame_trans; [exact F1|apply clear_wide_frame]).
  destruct (same_frame_fields _ _ F1) as (C1 & R1 & _).
  destruct (same_frame_fields _ _ F2) as (C2 & R2 & _).
  rewrite at_fill by (lia || (by eapply grid_ok_frame)). rewrite bool_decide_false by lia.
  subst s2. rewrite at_clear by ((by eapply grid_ok_frame) || (split; lia)).
  rewrite bool_decide_false by (unfold clears; lia).
  subst s1. rewrite at_clear by (done || (split; lia)).
  by rewrite bool_decide_false by (unfold clears; lia).
Qed.

(** The shift of [insert_chars], from right to left so as not to overwrite its
    own source. *)
Lemma at_shift_right s lo hi n y x' y' :
  grid_ok s -> 0 <= lo -> hi < cols s -> 0 <= y < rows s -> 1 <= n ->
  at_ (for_down hi lo (fun s x => set_cell s x y (at_ s (x - n) y)) s) x' y'
  = if bool_decide (lo <= x' <= hi /\ y' = y) then at_ s (x' - n) y else at_ s x' y'.
Proof.
  intros Hg Hlo Hhi Hy Hn. remember (Z.to_nat (hi - lo + 1)) as k eqn:Hk.
  revert s hi Hg Hhi Hy Hk. induction k as [|k IH]; intros s hi Hg Hhi Hy Hk.
  - rewrite for_down_0 by lia. by rewrite bool_decide_false by lia.
  - rewrite for_down_S by lia.
    assert (cursor_in s hi y) as Hin by (split; lia).
    rewrite (IH (set_cell s hi y (at_ s (hi - n) y))); cbn; try lia.
    2:{ eapply grid_ok_frame; [apply set_cell_frame|done]. }
    rewrite !at_set by done.
    destruct (bool_decide_reflect (lo <= x' <= hi - 1 /\ y' = y)) as [[H1 ->]|H1].
    + rewrite (bool_decide_true (lo <= x' <= hi /\ y = y)) by lia.
      by rewrite bool_decide_false by lia.
    + destruct (bool_decide_reflect (x' = hi /\ y' = y)) as [[-> ->]|H2].
      * by rewrite bool_decide_true by lia.
      * by rewrite bool_decide_false by lia.
Qed.

(** The page after [insert_chars]: what stood at the cursor and after moves by
    [n], except that the character under the first inserted column's right edge
    may be blanked with the stale half it is mistaken for. *)
Lemma W_insert_shift s n y x :
  grid_ok s -> row_pairs (W s y) -> 0 <= y < rows s -> 0 <= cx s < cols s -> y = cy s ->
  W s y (cx s) = 1 -> 1 <= n <= cols s - cx s ->
  let t := for_down (cols s - 1) (cx s + n)
             (fun s' x => set_cell s' x (cy s) (at_ s' (x - n) (cy s))) s in
  W (erase_span t (cx s) (cx s + n - 1) (cy s)) y x
  = if bool_decide (cx s <= x < cx s + n) then 1
    else if bool_decide (cx s + n <= x < cols s) then W s y (x - n) else W s y x.
Proof.
  intros Hg Hp Hy Hcx -> H1 Hn t.
  assert (same_frame s t) as F.
  { apply for_down_frame. intros. apply set_cell_frame. }
  destruct (same_frame_fields _ _ F) as (C & R & _).
  assert (grid_ok t) as G by (by eapply grid_ok_frame).
  assert (forall x, W t (cy s) x = if bool_decide (cx s + n <= x <= cols s - 1)
    then W s (cy s) (x - n) else W s (cy s) x) as HW.
  { intros x0. unfold W. subst t. rewrite at_shift_right by (done || lia).
    repeat case_bool_decide; try done; lia. }
  unfold erase_span. rewrite R. zrw_false (cy s <? 0). zrw_false (rows s <=? cy s). cbn [orb].
  cbv zeta. rewrite C, Z.max_r, Z.min_r by lia. zrw_false (cx s + n - 1 <? cx s).
  set (t1 := clear_wide_at t (cx s) (cy s)).
  assert (same_frame s t1) as F1 by (eapply same_frame_trans; [exact F|apply clear_wide_frame]).
  assert (grid_ok t1) as G1 by (by eapply grid_ok_frame).
  set (t2 := clear_wide_at t1 (cx s + n - 1) (cy s)).
  assert (same_frame s t2) as F2 by (eapply same_frame_trans; [exact F1|apply clear_wide_frame]).
  assert (grid_ok t2) as G2 by (by eapply grid_ok_frame).
  destruct (same_frame_fields _ _ F1) as (C1 & R1 & _).
  destruct (same_frame_fields _ _ F2) as (C2 & R2 & _).
  assert (forall x, W t1 (cy s) x = W t (cy s) x) as HW1.
  { intros x0. unfold W at 1. subst t1. rewrite at_clear by (done || (split; lia)).
    rewrite bool_decide_false; [done|]. unfold clears. rewrite HW.
    rewrite bool_decide_false by lia. lia. }
  unfold W at 1. rewrite at_fill by (done || lia).
  destruct (bool_decide_reflect (cx s <= x <= cx s + n - 1 /\ cy s = cy s)) as [Hs|Hs].
  { by rewrite bool_decide_true by lia. }
  rewrite (bool_decide_false (cx s <= x < cx s + n)) by lia.
  subst t2. rewrite at_clear by (done || (split; lia)).
  case_bool_decide as Hcl.
  - unfold clears in Hcl. rewrite HW1, HW, bool_decide_false in Hcl by lia. destruct Hcl as [_ [(E2 & Hlt & ->)|(E0 & _ & ->)]].
    + rewrite bool_decide_true by lia. replace (cx s + n - 1 + 1 - n) with (cx s) by lia. by rewrite H1.
    + destruct (Z.eq_dec n 1) as [->|]; [|lia].
      replace (cx s + 1 - 1) with (cx s) in E0 by lia. lia.
  - fold (W t1 (cy s) x). rewrite HW1, HW.
    repeat case_bool_decide; try done; lia.
Qed.

Lemma cursor_frame s t : same_frame s t -> cx t = cx s /\ cy t = cy s /\ cols t = cols s /\ rows t = rows s.
Proof. intros H. destruct (same_frame_fields _ _ H) as (? & ? & ? & ? & _). done. Qed.

Lemma pairs_insert_chars s n :
  grid_ok s -> pairs_ok s -> cursor_in s (cx s) (cy s) -> pairs_ok (insert_chars s n).
Proof.
  intros Hg Hp [Hcx Hcy]. unfold insert_chars.
  destruct (Z.leb_spec n 0); [done|]. destruct (Z.leb_spec (cols s) (cx s)); [done|]. cbn [orb].
  cbv zeta. set (k := Z.min n (cols s - cx s)). assert (1 <= k <= cols s - cx s) as Hk by lia.
  clearbody k. set (b := break_wide_at s (cx s) (cy s)).
  assert (same_frame s b) as F by apply break_wide_frame.
  assert (grid_ok b) as G by (by eapply grid_ok_frame).
  assert (pairs_ok b) as Pb by (by apply pairs_break).
  destruct (cursor_frame _ _ F) as (X & Y & C & R).
  assert (W b (cy s) (cx s) = 1) as B1.
  { subst b. rewrite W_break by done. case_bool_decide as Hc; [done|].
    destruct (Z.eq_dec (W s (cy s) (cx s)) 1); [done|]. destruct Hc.
    split_and!; try done. left; lia. }
  rewrite <- ?X, <- ?Y, <- ?C.
  set (t := for_down (cols b - 1) (cx b + k) _ b).
  assert (same_frame b t) as Ft by (apply for_down_frame; intros; apply set_cell_frame).
  destruct (cursor_frame _ _ Ft) as (Xt & Yt & Ct & Rt).
  set (e := erase_span t (cx t) (cx t + k - 1) (cy t)).
  assert (forall y x, W e y x = if bool_decide (y = cy b) then
     (if bool_decide (cx b <= x < cx b + k) then 1
      else if bool_decide (cx b + k <= x < cols b) then W b y (x - k) else W b y x)
     else W b y x) as HW.
  { intros y x. subst e. rewrite Xt, Yt. case_bool_decide as Hy.
    - refine (W_insert_shift b k y x G (Pb y) _ _ Hy _ _); [lia|lia| |lia].
      by rewrite Hy, Y, X.
    - unfold W. rewrite at_erase_span_other by ((by eapply grid_ok_frame) || lia).
      subst t. rewrite at_shift_right by (done || lia). by rewrite bool_decide_false by lia. }
  assert (same_frame b e) as Fe by (eapply same_frame_trans; [exact Ft|apply erase_span_frame]).
  assert (grid_ok e) as Ge by (by eapply grid_ok_frame).
  destruct (cursor_frame _ _ Fe) as (Xe & Ye & Ce & Re).
  fold (W e (cy e) (cols e - 1)).
  assert (forall y x, W (if W e (cy e) (cols e - 1) =? 2
      then set_cell e (cols e - 1) (cy e) (erased e) else e) y x
    = if bool_decide (y = cy b /\ x = cols b - 1 /\ W e y x = 2) then 1 else W e y x) as HF.
  { intros y x. destruct (Z.eqb_spec (W e (cy e) (cols e - 1)) 2) as [E|E].
    - unfold W at 1. rewrite at_set by (done || (split; lia)). rewrite Ye, Ce in E |- *.
      rewrite (bool_decide_ext _ (y = cy b /\ x = cols b - 1 /\ W e y x = 2)); [by case_bool_decide|].
      split; [intros [-> ->]; done|tauto].
    - rewrite bool_decide_false; [done|]. intros (-> & -> & E'). apply E. by rewrite Ye, Ce. }
  intros y. destruct (Z.eq_dec y (cy b)) as [->|Hne].
  2:{ intros x. rewrite !HF, !HW. repeat case_bool_decide; try tauto; apply Pb. }
  eapply row_pairs_ext; [|apply (row_pairs_shift (W b (cy b)) (cx b) k (cols b))].
  - intros x. rewrite HF, HW, !(bool_decide_true (cy b = cy b)) by done. unfold cut_row, shifted_row.
    rewrite (bool_decide_ext (cy b = cy b /\ x = cols b - 1 /\ _) (x = cols b - 1 /\
      (if bool_decide (cx b <= x < cx b + k) then 1
       else if bool_decide (cx b + k <= x < cols b) then W b (cy b) (x - k) else W b (cy b) x) = 2));
      [|tauto]. reflexivity.
  - apply Pb.
  - by rewrite X, Y.
  - intros x Hx. apply W_outside. lia.
  - lia.
  - lia.
Qed.

(** ** Scrolling, cell by cell *)

Lemma shift_up_lookup {A} (g : list A) f l k e i :
  (f <= l <= length g)%nat -> (k <= l - f)%nat ->
  (take f g ++ drop k (take (l - f) (drop f g)) ++ replicate k e ++ drop l g) !! i
  = if (i <? f)%nat then g !! i else if (i <? l - k)%nat then g !! (i + k)%nat
    else if (i <? l)%nat then Some e else g !! i.
Proof.
  intros Hl Hk.
  assert (length (take f g) = f) as H1 by (rewrite length_take; lia).
  assert (length (drop k (take (l - f) (drop f g))) = (l - f - k)%nat) as H2
    by (rewrite length_drop, length_take, length_drop; lia).
  destruct (Nat.ltb_spec i f).
  { rewrite lookup_app_l by lia. by rewrite lookup_take_lt by lia. }
  rewrite lookup_app_r, H1 by lia.
  destruct (Nat.ltb_spec i (l - k)).
  { rewrite lookup_app_l by lia. rewrite lookup_drop, lookup_take_lt, lookup_drop by lia. f_equal. lia. }
  rewrite lookup_app_r, H2 by lia.
  destruct (Nat.ltb_spec i l).
  { rewrite lookup_app_l by (rewrite length_replicate; lia). apply lookup_replicate_2. lia. }
  rewrite lookup_app_r, length_replicate by (rewrite length_replicate; lia).
  rewrite lookup_drop. f_equal. lia.
Qed.

Lemma shift_down_lookup {A} (g : list A) f l k e i :
  (f <= l <= length g)%nat -> (k <= l - f)%nat ->
  (take f g ++ replicate k e ++ take (l - f - k) (drop f g) ++ drop l g) !! i
  = if (i <? f)%nat then g !! i else if (i <? f + k)%nat then Some e
    else if (i <? l)%nat then g !! (i - k)%nat else g !! i.
Proof.
  intros Hl Hk.
  assert (length (take f g) = f) as H1 by (rewrite length_take; lia).
  assert (length (take (l - f - k) (drop f g)) = (l - f - k)%nat) as H2
    by (rewrite length_take, length_drop; lia).
  destruct (Nat.ltb_spec i f).
  { rewrite lookup_app_l by lia. by rewrite lookup_take_lt by lia. }
  rewrite lookup_app_r, H1 by lia.
  destruct (Nat.ltb_spec i (f + k)).
  { rewrite lookup_app_l by (rewrite length_replicate; lia). apply lookup_replicate_2. lia. }
  rewrite lookup_app_r, length_replicate by (rewrite length_replicate; lia).
  destruct (Nat.ltb_spec i l).
  { rewrite lookup_app_l by lia. rewrite lookup_take_lt, lookup_drop by lia. f_equal. lia. }
  rewrite lookup_app_r, H2 by lia. rewrite lookup_drop. f_equal. lia.
Qed.

(** The rows of a slice, in cells: a shift by whole rows is a shift of indices. *)
Lemma span_index s x y n : 0 <= n -> 0 <= x < cols s -> 0 <= y ->
  (cell_index s x y <? span s n)%nat = (y <? n).
Proof.
  intros Hn Hx Hy. unfold cell_index. rewrite span_mul by done.
  destruct (Z.ltb_spec y n); [apply Nat.ltb_lt|apply Nat.ltb_ge]; nia.
Qed.

Lemma span_add s a b : 0 <= a -> 0 <= b -> span s (a + b) = (span s a + span s b)%nat.
Proof. intros. rewrite !span_mul by lia. nia. Qed.

Lemma cell_index_down s x y n : 0 <= x < cols s -> 0 <= y -> 0 <= n ->
  cell_index s x (y + n) = (cell_index s x y + span s n)%nat.
Proof. intros. unfold cell_index, span. nia. Qed.

Lemma cell_index_up s x y n : 0 <= x < cols s -> n <= y -> 0 <= n ->
  cell_index s x (y - n) = (cell_index s x y - span s n)%nat.
Proof. intros. unfold cell_index, span. nia. Qed.

Lemma span_le_grid s n : grid_ok s -> 0 <= n <= rows s -> (span s n <= length (grid s))%nat.
Proof. intros Hg Hn. rewrite Hg, span_mul by lia. unfold grid_len. nia. Qed.

Lemma scroll_up_dims s t b n :
  cols (scroll_slice_up s t b n) = cols s /\ rows (scroll_slice_up s t b n) = rows s.
Proof. unfold scroll_slice_up. by repeat case_match. Qed.

Lemma scroll_down_dims s t b n :
  cols (scroll_slice_down s t b n) = cols s /\ rows (scroll_slice_down s t b n) = rows s.
Proof. unfold scroll_slice_down. by repeat case_match. Qed.

Lemma at_scroll_up s t b n x y :
  grid_ok s -> 0 <= t <= b -> b < rows s -> 1 <= n ->
  at_ (scroll_slice_up s t b n) x y
  = if bool_decide (cursor_in s x y /\ t <= y <= b)
    then if bool_decide (y + n <= b) then at_ s x (y + n) else erased s
    else at_ s x y.
Proof.
  intros Hg Ht Hb Hn.
  destruct (decide (cursor_in s x y)) as [[Hx Hy]|Hout].
  2:{ rewrite bool_decide_false by tauto. rewrite !at_outside; [done|done|].
      intros Hin. apply Hout. revert Hin. unfold cursor_in.
      by destruct (scroll_up_dims s t b n) as [-> ->]. }
  destruct (scroll_up_dims s t b n) as [C R].
  rewrite (at_inside (scroll_slice_up s t b n)) by (unfold cursor_in; lia).
  assert (cell_index (scroll_slice_up s t b n) x y = cell_index s x y) as ->
    by (unfold cell_index; by rewrite C).
  set (k := Z.min n (b - t + 1)).
  assert (grid (scroll_slice_up s t b n) =
    take (span s t) (grid s) ++ drop (span s k) (take (span s (b + 1) - span s t) (drop (span s t) (grid s)))
    ++ replicate (span s k) (erased s) ++ drop (span s (b + 1)) (grid s)) as ->.
  { pose proof (span_le_grid s (b + 1) Hg ltac:(lia)).
    assert (span s (b + 1) = span s t + span s (b - t + 1))%nat as Hsp
      by (rewrite <- span_add by lia; f_equal; lia).
    unfold scroll_slice_up. zrw_false (n <=? 0). zrw_false (t <? 0). zrw_false (rows s <=? b).
    zrw_false (b <? t). cbn [orb]. cbv zeta. subst k. destruct (Z.leb_spec (b - t + 1) n).
    - rewrite Z.min_r by lia. cbn [grid with_grid].
      rewrite (drop_ge (take _ _)) by (rewrite length_take, length_drop; lia).
      rewrite app_nil_l. do 3 f_equal. lia.
    - rewrite Z.min_l by lia. cbn [grid with_grid]. f_equal. f_equal. unfold rotate.
      rewrite take_app_le; [by rewrite take_ge by (rewrite length_drop, length_take, length_drop; lia)|].
      rewrite length_drop, length_take, length_drop. lia. }
  assert (span s (b + 1) = span s t + span s (b + 1 - t))%nat as Hsp
    by (rewrite <- span_add by lia; f_equal; lia).
  assert (span s (b + 1 - t) = span s (b + 1 - t - k) + span s k)%nat as Hsk
    by (rewrite <- span_add by lia; f_equal; lia).
  pose proof (span_le_grid s (b + 1) Hg ltac:(lia)).
  rewrite shift_up_lookup by lia. rewrite span_index by lia.
  replace (span s (b + 1) - span s k)%nat with (span s (b + 1 - k)).
  2:{ replace (b + 1) with (b + 1 - k + k) at 2 by lia. rewrite span_add by lia. lia. }
  rewrite !span_index by lia.
  destruct (Z.ltb_spec y t).
  { rewrite bool_decide_false by lia. by rewrite at_inside. }
  destruct (Z.ltb_spec y (b + 1 - k)).
  { rewrite !bool_decide_true by (split_and?; done || lia).
    assert (k = n) as -> by lia.
    rewrite at_inside by (split; lia). by rewrite cell_index_down by lia. }
  destruct (Z.ltb_spec y (b + 1)).
  { by rewrite bool_decide_true, bool_decide_false by (split_and?; done || lia). }
  rewrite bool_decide_false by lia. by rewrite at_inside.
Qed.

Lemma at_scroll_down s t b n x y :
  grid_ok s -> 0 <= t <= b -> b < rows s -> 1 <= n ->
  at_ (scroll_slice_down s t b n) x y
  = if bool_decide (cursor_in s x y /\ t <= y <= b)
    then if bool_decide (t + n <= y) then at_ s x (y - n) else erased s
    else at_ s x y.
Proof.
  intros Hg Ht Hb Hn.
  destruct (decide (cursor_in s x y)) as [[Hx Hy]|Hout].
  2:{ rewrite bool_decide_false by tauto. rewrite !at_outside; [done|done|].
      intros Hin. apply Hout. revert Hin. unfold cursor_in.
      by destruct (scroll_down_dims s t b n) as [-> ->]. }
  destruct (scroll_down_dims s t b n) as [C R].
  rewrite (at_inside (scroll_slice_down s t b n)) by (unfold cursor_in; lia).
  assert (cell_index (scroll_slice_down s t b n) x y = cell_index s x y) as ->
    by (unfold cell_index; by rewrite C).
  set (k := Z.min n (b - t + 1)).
  assert (grid (scroll_slice_down s t b n) =
    take (span s t) (grid s) ++ replicate (span s k) (erased s)
    ++ take (span s (b + 1) - span s t - span s k) (drop (span s t) (grid s))
    ++ drop (span s (b + 1)) (grid s)) as ->.
  { pose proof (span_le_grid s (b + 1) Hg ltac:(lia)).
    assert (span s (b + 1) = span s t + span s (b - t + 1))%nat as Hsp
      by (rewrite <- span_add by lia; f_equal; lia).
    unfold scroll_slice_down. zrw_false (n <=? 0). zrw_false (t <? 0). zrw_false (rows s <=? b).
    zrw_false (b <? t). cbn [orb]. cbv zeta. subst k. destruct (Z.leb_spec (b - t + 1) n).
    - rewrite Z.min_r by lia. cbn [grid with_grid].
      replace (span s (b + 1) - span s t - span s (b - t + 1))%nat with 0%nat by lia.
      rewrite take_0, app_nil_l. do 3 f_equal. lia.
    - rewrite Z.min_l by lia. cbn [grid with_grid]. do 3 f_equal. unfold rotate.
      assert (span s n <= span s (b - t + 1))%nat.
      { replace (b - t + 1) with (b - t + 1 - n + n) by lia. rewrite span_add by lia. lia. }
      rewrite drop_app_ge by (rewrite length_drop, length_take, length_drop; lia).
      rewrite length_drop, length_take, length_drop.
      replace (_ - _)%nat with 0%nat by lia. rewrite drop_0, take_take. f_equal. lia. }
  assert (span s (b + 1) = span s t + span s (b + 1 - t))%nat as Hsp
    by (rewrite <- span_add by lia; f_equal; lia).
  assert (span s (b + 1 - t) = span s (b + 1 - t - k) + span s k)%nat as Hsk
    by (rewrite <- span_add by lia; f_equal; lia).
  pose proof (span_le_grid s (b + 1) Hg ltac:(lia)).
  rewrite shift_down_lookup by lia. rewrite span_index by lia.
  rewrite <- span_add by lia. rewrite !span_index by lia.
  destruct (Z.ltb_spec y t).
  { rewrite bool_decide_false by lia. by rewrite at_inside. }
  destruct (Z.ltb_spec y (t + k)).
  { by rewrite bool_decide_true, bool_decide_false by (split_and?; done || lia). }
  destruct (Z.ltb_spec y (b + 1)).
  { rewrite !bool_decide_true by (split_and?; done || lia).
    assert (k = n) as -> by lia.
    rewrite at_inside by (split; lia). by rewrite cell_index_up by lia. }
  rewrite bool_decide_false by lia. by rewrite at_inside.
Qed.

Lemma pairs_scroll_up s t b n :
  grid_ok s -> pairs_ok s -> 0 <= t <= b -> b < rows s -> 1 <= n -> pairs_ok (scroll_slice_up s t b n).
Proof.
  intros Hg Hp Ht Hb Hn y.
  assert (forall x, W (scroll_slice_up s t b n) y x
    = if bool_decide (t <= y <= b /\ y + n <= b) then W s (y + n) x
      else if bool_decide (t <= y <= b) then 1 else W s y x) as HW.
  { intros x. unfold W at 1. rewrite at_scroll_up by done.
    destruct (decide (0 <= x < cols s)).
    - repeat case_bool_decide; try done; unfold cursor_in in *; lia.
    - rewrite bool_decide_false by (unfold cursor_in; lia).
      fold (W s y x). rewrite !W_outside by done. by repeat case_bool_decide. }
  eapply row_pairs_ext; [exact HW|].
  repeat case_bool_decide; [apply Hp| |apply Hp]. intros x. lia.
Qed.

Lemma pairs_scroll_down s t b n :
  grid_ok s -> pairs_ok s -> 0 <= t <= b -> b < rows s -> 1 <= n -> pairs_ok (scroll_slice_down s t b n).
Proof.
  intros Hg Hp Ht Hb Hn y.
  assert (forall x, W (scroll_slice_down s t b n) y x
    = if bool_decide (t <= y <= b /\ t + n <= y) then W s (y - n) x
      else if bool_decide (t <= y <= b) then 1 else W s y x) as HW.
  { intros x. unfold W at 1. rewrite at_scroll_down by done.
    destruct (decide (0 <= x < cols s)).
    - repeat case_bool_decide; try done; unfold cursor_in in *; lia.
    - rewrite bool_decide_false by (unfold cursor_in; lia).
      fold (W s y x). rewrite !W_outside by done. by repeat case_bool_decide. }
  eapply row_pairs_ext; [exact HW|].
  repeat case_bool_decide; [apply Hp| |apply Hp]. intros x. lia.
Qed.

(** ** Pages other than the one shown *)

Definition page_pairs (g : list screen_cell) (c r : Z) : Prop :=
  forall y, row_pairs (fun x => sc_width (page_cell g c r x y)).

Lemma pairs_page s : pairs_ok s <-> page_pairs (grid s) (cols s) (rows s).
Proof.
  unfold pairs_ok, page_pairs. split; intros H y; (eapply row_pairs_ext; [|apply (H y)]);
    intros x; unfold W; by rewrite at_page.
Qed.

Lemma pairs_blank c r e : sc_width e = 1 ->
  page_pairs (replicate (Z.to_nat c * Z.to_nat r) e) c r.
Proof.
  intros He y x.
  assert (forall x, sc_width (page_cell (replicate (Z.to_nat c * Z.to_nat r) e) c r x y) = 1) as H.
  { intros x'. unfold page_cell. repeat case_match; try done.
    destruct (_ !! _) as [e'|] eqn:El; [|done]. by apply lookup_replicate_1 in El as [-> _]. }
  rewrite !H. lia.
Qed.

Lemma lookup_concat_rows {A} (l : list (list A)) n i j :
  Forall (fun r => length r = n) l -> (j < n)%nat ->
  concat l !! (i * n + j)%nat = l !! i ≫= (.!! j).
Proof.
  intros Hl Hj. revert i. induction Hl as [|r l Hr Hl IH]; intros i; [done|].
  cbn [concat]. destruct i as [|i].
  - by rewrite lookup_app_l by lia.
  - rewrite lookup_app_r by lia. change ((r :: l) !! S i) with (l !! i). rewrite <- IH. f_equal. lia.
Qed.

Lemma lookup_reshape_row s g c y x :
  1 <= cols s -> 1 <= c -> (span s y + Z.to_nat (cols s) <= length g)%nat -> 0 <= y -> 0 <= x < c ->
  let k := Z.min c (cols s) in
  reshape_row s g c y !! Z.to_nat x
  = Some (if x <? k then
            let e := default blank (g !! Z.to_nat (y * cols s + x)) in
            if (x =? k - 1) && (sc_width e =? 2) then erased s else e
          else erased s).
Proof.
  intros Hs Hc Hl Hy Hx k. unfold reshape_row. fold k. cbv zeta.
  assert (1 <= k) as Hk by lia.
  set (row := take (Z.to_nat k) (drop (span s y) g) ++ replicate (Z.to_nat (c - k)) (erased s)).
  assert (length (take (Z.to_nat k) (drop (span s y) g)) = Z.to_nat k) as Hlen
    by (rewrite length_take, length_drop; lia).
  assert (forall x, 0 <= x < c -> row !! Z.to_nat x = Some (if x <? k
            then default blank (g !! Z.to_nat (y * cols s + x)) else erased s)) as Hrow.
  { intros x0 Hx0. subst row. destruct (Z.ltb_spec x0 k).
    - rewrite lookup_app_l by lia. rewrite lookup_take_lt, lookup_drop by lia.
      replace (span s y + Z.to_nat x0)%nat with (Z.to_nat (y * cols s + x0)) by (unfold span; nia).
      destruct (lookup_lt_is_Some_2 g (Z.to_nat (y * cols s + x0))) as [e ->]; [|done].
      unfold span in Hl. nia.
    - rewrite lookup_app_r by lia. apply lookup_replicate_2. lia. }
  rewrite (Hrow (k - 1)) by lia. zrw_true (k - 1 <? k). cbn [default].
  destruct (Z.eqb_spec x (k - 1)) as [->|Hne]; cbn [andb].
  - zrw_true (k - 1 <? k). destruct (_ =? 2).
    + apply list_lookup_insert_eq. subst row. rewrite length_app, Hlen, length_replicate. lia.
    + rewrite Hrow by lia. by zrw_true (k - 1 <? k).
  - destruct (_ =? 2); [rewrite list_lookup_insert_ne by lia|]; by rewrite Hrow by lia.
Qed.

(** The page [reshape] builds, cell by cell. *)
Lemma at_reshape s g c r x y :
  1 <= cols s -> 1 <= rows s -> 1 <= c -> 1 <= r -> length g = grid_len s ->
  0 <= x < c -> 0 <= y < r ->
  let k := Z.min c (cols s) in
  page_cell (reshape s g c r) c r x y
  = if (x <? k) && (y <? rows s) then
      let e := page_cell g (cols s) (rows s) x y in
      if (x =? k - 1) && (sc_width e =? 2) then erased s else e
    else erased s.
Proof.
  intros Hs Hr Hc Hr' Hg Hx Hy k. unfold page_cell at 1.
  zrw_false (x <? 0). zrw_false (y <? 0). zrw_false (c <=? x). zrw_false (r <=? y). cbn [orb].
  unfold reshape. cbv zeta. set (kr := Z.min r (rows s)).
  assert (Forall (fun row => length row = Z.to_nat c) (reshape_row s g c <$> z_range 0 (Z.to_nat kr))) as HF.
  { apply Forall_fmap, Forall_forall. intros y0 Hy0%in_z_range.
    apply length_reshape_row; [done..|]. rewrite span_mul, Hg by lia. unfold grid_len. nia. }
  assert (length (concat (reshape_row s g c <$> z_range 0 (Z.to_nat kr))) = (Z.to_nat kr * Z.to_nat c)%nat) as HL
    by (by rewrite (length_concat_rows _ _ HF), length_fmap, length_z_range).
  replace (Z.to_nat (y * c + x)) with (Z.to_nat y * Z.to_nat c + Z.to_nat x)%nat by nia.
  destruct (Z.ltb_spec y kr).
  - rewrite lookup_app_l by (rewrite HL; nia).
    rewrite lookup_concat_rows by (done || lia).
    rewrite list_lookup_fmap, z_range_lookup by lia. cbn [fmap option_fmap option_map mbind option_bind].
    rewrite Z.add_0_l, Z2Nat.id by lia. rewrite lookup_reshape_row; [|done|done| |lia|lia].
    2:{ rewrite span_mul, Hg by lia. unfold grid_len. nia. }
    cbv zeta. fold k. zrw_true (y <? rows s). rewrite andb_true_r. cbn [default].
    destruct (Z.ltb_spec x k); [|done]. unfold page_cell.
    zrw_false (x <? 0). zrw_false (y <? 0). zrw_false (cols s <=? x). by zrw_false (rows s <=? y).
  - rewrite lookup_app_r by (rewrite HL; nia). rewrite HL, lookup_replicate_2 by nia.
    zrw_false (y <? rows s). by rewrite andb_false_r.
Qed.

Lemma pairs_reshape s g c r :
  1 <= cols s -> 1 <= rows s -> 1 <= c -> 1 <= r -> length g = grid_len s ->
  page_pairs g (cols s) (rows s) -> page_pairs (reshape s g c r) c r.
Proof.
  intros Hs Hr Hc Hr' Hg Hp y. set (k := Z.min c (cols s)).
  set (f := fun x => sc_width (page_cell g (cols s) (rows s) x y)).
  assert (forall x, ~ 0 <= x < cols s -> f x = 1) as Hout.
  { intros x Hx. unfold f, page_cell. destruct (_ || _) eqn:E; [done|].
    repeat (apply orb_false_iff in E as [E ?]). zbool. lia. }
  assert (forall x, ~ (0 <= x < c /\ 0 <= y < r) -> sc_width (page_cell (reshape s g c r) c r x y) = 1) as Hout'.
  { intros x Hx. unfold page_cell. destruct (_ || _) eqn:E; [done|].
    repeat (apply orb_false_iff in E as [E ?]). zbool. lia. }
  destruct (decide (0 <= y < Z.min r (rows s))) as [Hy|Hy].
  - apply row_pairs_ext with (cut_row (fun x => if x <? k then f x else 1) k).
    + intros x. unfold cut_row. destruct (decide (0 <= x < c)) as [Hx|Hx].
      * rewrite at_reshape by lia. cbv zeta. fold k. zrw_true (y <? rows s). rewrite andb_true_r.
        destruct (Z.ltb_spec x k).
        -- fold (f x). destruct (Z.eqb_spec x (k - 1)), (Z.eqb_spec (f x) 2); cbn [andb];
             case_bool_decide; try done; lia.
        -- by rewrite bool_decide_false by lia.
      * rewrite Hout' by lia. destruct (Z.ltb_spec x k).
        -- rewrite Hout by lia. by rewrite bool_decide_false by lia.
        -- by rewrite bool_decide_false by lia.
    + apply row_pairs_cut.
      * intros x Hx. destruct (Hp y x) as [Hpx _]. fold (f x) (f (x + 1)) in Hpx.
        destruct (Z.ltb_spec x k), (Z.ltb_spec (x + 1) k); try lia; done.
      * intros x. destruct (Hp y x) as [_ Hpx]. fold (f x) in Hpx. destruct (x <? k); auto.
      * by zrw_false (k <? k).
  - apply row_pairs_ext with (fun _ => 1); [|intros x; lia].
    intros x. destruct (decide (0 <= x < c /\ 0 <= y < r)) as [[Hx Hy']|Hx]; [|by apply Hout'].
    rewrite at_reshape by lia. zrw_false (y <? rows s). by rewrite andb_false_r.
Qed.
