(* ===== verification/ScreenProps.v ===== *)
(** * What the terminal screen promises: [src/vt/screen.cpp]

    The geometry that no order breaks, the halves of wide characters that stay
    together, the alternate page that leaves no trace, the text that reads back
    as it was printed, and the row that leaves the top for the history. *)

From S2P Require Import Prelude RowPairs Utf8 Cell Width VtModes Scrollback Screen ScreenCells.

(** ** Wide characters *)

Definition wide_ok (s : screen) : Prop :=
  pairs_ok s /\ (alt s = true -> page_pairs (parked s) (cols s) (rows s)).

Lemma wide_same s t :
  pairs_ok t -> alt t = alt s -> parked t = parked s -> cols t = cols s -> rows t = rows s ->
  wide_ok s -> wide_ok t.
Proof. intros Ht A P C R [_ H]. split; [done|]. by rewrite A, P, C, R. Qed.

Lemma wide_frame s t : same_frame s t -> pairs_ok t -> wide_ok s -> wide_ok t.
Proof.
  intros F Ht. destruct (same_frame_fields _ _ F) as (C & R & _ & _ & _ & _ & _ & A & _ & _ & _ & _ & _ & P & _).
  by apply wide_same.
Qed.

Lemma pairs_erase_rows s y0 y1 : grid_ok s -> pairs_ok s -> pairs_ok (erase_rows s y0 y1).
Proof.
  unfold erase_rows, for_up. generalize (z_range y0 (Z.to_nat (y1 - y0 + 1))) as l.
  intros l. revert s. induction l as [|y l IH]; intros s Hg Hp; [done|]. cbn [fold_left]. apply IH.
  - eapply grid_ok_frame; [apply erase_span_frame|done].
  - by apply pairs_erase_span.
Qed.

Lemma pairs_erase_display s m : grid_ok s -> pairs_ok s -> pairs_ok (erase_display s m).
Proof.
  intros Hg Hp. unfold erase_display. repeat case_match; try done.
  - apply pairs_erase_rows; [eapply grid_ok_frame; [apply erase_span_frame|done]|by apply pairs_erase_span].
  - apply pairs_erase_span; [eapply grid_ok_frame; [apply erase_rows_frame|done]|by apply pairs_erase_rows].
  - by apply pairs_erase_rows.
Qed.

Lemma geometry_grid s : geometry_ok s -> grid_ok s.
Proof. intros H. apply H. Qed.

Lemma wide_scroll_up s : geometry_ok s -> wide_ok s -> wide_ok (scroll_up s).
Proof.
  intros (Hc & Hr & Hg & _ & _ & Hreg & Hbot & _) Hw. unfold scroll_up.
  assert (forall t, grid_ok t -> wide_ok t -> 0 <= cols t -> 0 <= top t <= bottom t -> bottom t < rows t ->
    wide_ok (scroll_slice_up t (top t) (bottom t) 1)) as H.
  { clear. intros t Hg Hw Hc Ht Hb.
    eapply wide_frame; [by apply scroll_slice_up_frame| |done].
    apply pairs_scroll_up; try done. apply Hw. }
  apply H; destruct (sb s); try destruct (_ && _); first [done|exact Hg|cbn; lia].
Qed.

Lemma wide_scroll_down s : geometry_ok s -> wide_ok s -> wide_ok (scroll_down s).
Proof.
  intros (Hc & Hr & Hg & _ & _ & Hreg & Hbot & _) Hw. unfold scroll_down.
  eapply wide_frame; [apply scroll_slice_down_frame; [lia|done]| |done].
  apply pairs_scroll_down; try done. apply Hw.
Qed.

Lemma wide_cursor s x y wp : wide_ok s -> wide_ok (with_cursor s x y wp).
Proof. done. Qed.

Lemma wide_line_feed s : geometry_ok s -> wide_ok s -> wide_ok (line_feed s).
Proof.
  intros Hg Hw. unfold line_feed. cbv zeta. destruct (_ =? _).
  - apply wide_scroll_up; [|done]. apply geometry_cursor; [apply Hg|done].
  - by destruct (_ <? _).
Qed.

Lemma geometry_wrap s wp : geometry_ok s -> geometry_ok (line_feed (with_cursor s 0 (cy s) wp)).
Proof.
  intros H. apply geometry_line_feed, geometry_cursor; [|done].
  pose proof (geometry_cols s H). destruct (geometry_cursor_in s H). split; lia.
Qed.

Lemma line_feed_cursor s :
  cx (line_feed s) = cx s /\ cols (line_feed s) = cols s /\ rows (line_feed s) = rows s.
Proof.
  unfold line_feed, scroll_up, scroll_slice_up. cbv zeta. cbn [with_cursor cx cy].
  repeat case_match; done.
Qed.

Lemma wide_print amb s cp : geometry_ok s -> 2 <= cols s -> wide_ok s -> wide_ok (print amb s cp).
Proof.
  intros Hg H2 Hw. unfold print. set (c := translate _ _). clearbody c. cbv zeta.
  pose proof (char_width_range amb c) as Hr. set (w := Z.max 0 _). destruct (Z.eqb_spec w 0); [done|].
  assert (w = 1 \/ w = 2) as Hw12 by lia. clearbody w. clear Hr.
  assert (forall t, geometry_ok t -> wide_ok t -> w = 1 \/ (w = 2 /\ cx t + 1 < cols t) ->
    wide_ok (print_advance (print_write t c w) w)) as Hadv.
  { clear - Hw12. intros t Hg Hw H. assert (wide_ok (print_write t c w)) as Hp.
    { eapply wide_frame; [apply print_write_frame| |done].
      apply pairs_print_write; [by apply geometry_grid|apply Hw|apply Hg|done]. }
    unfold print_advance. by destruct (_ <=? _). }
  assert (geometry_ok (print_wrap s) /\ wide_ok (print_wrap s) /\ cols (print_wrap s) = cols s)
    as (G1 & W1 & C1).
  { unfold print_wrap. destruct (_ && _); [|done]. split_and!; [by apply geometry_wrap| |].
    2:{ by destruct (line_feed_cursor (with_cursor s 0 (cy s) false)) as (_ & -> & _). }
    apply wide_line_feed; [|done]. apply geometry_cursor; [|done].
    destruct (geometry_cursor_in s Hg). split; lia. }
  set (p := print_wrap s) in *. unfold print_fit.
  destruct (Z.eqb_spec w 2) as [E|E], (Z.leb_spec (cols p) (cx p + 1)); cbn [andb];
    try (apply Hadv; try done; lia).
  destruct (negb (autowrap p)); [done|].
  apply Hadv; [by apply geometry_wrap| |right].
  - apply wide_line_feed; [|done]. apply geometry_cursor; [|done].
    destruct (geometry_cursor_in p G1). split; lia.
  - destruct (line_feed_cursor (with_cursor p 0 (cy p) (wrap_pending p))) as (-> & -> & _).
    cbn. lia.
Qed.

Lemma wide_enter s : geometry_ok s -> wide_ok s -> wide_ok (enter_alt_screen s).
Proof.
  intros Hg [Hw Hp]. unfold enter_alt_screen. destruct (alt s) eqn:E; [split; [exact Hw|intros _; by apply Hp]|]. split.
  - apply pairs_page. cbn. by apply pairs_blank.
  - intros _. cbn. by apply pairs_page.
Qed.

Lemma wide_leave s : wide_ok s -> wide_ok (leave_alt_screen s).
Proof.
  intros [Hw Hp]. unfold leave_alt_screen. destruct (alt s) eqn:E; cbn [negb]; [|split; [exact Hw|congruence]].
  split; [|done]. apply pairs_page. cbn. by apply Hp.
Qed.

Lemma wide_resize s c r : geometry_ok s -> wide_ok s -> wide_ok (resize s c r).
Proof.
  intros (Hc & Hr & Hg & _ & _ & _ & _ & Hpk & _) [Hw Hp]. unfold resize. cbv zeta.
  destruct (_ && _); [exact (conj Hw Hp)|]. split.
  - apply pairs_page. cbn. destruct (alt s); [by apply pairs_blank|].
    apply pairs_reshape; [done|done|lia|lia|done|by apply pairs_page].
  - cbn. intros Ha. rewrite Ha. apply pairs_reshape; [done|done|lia|lia|by apply Hpk|by apply Hp].
Qed.

(** The orders that keep wide characters whole: all but the deletion of
    characters, and a screen of at least two columns. *)
Definition keeps_pairs (o : screen_op) : bool :=
  match o with
  | OpDeleteChars _ => false
  | OpResize c _ => 2 <=? c
  | _ => true
  end.

Lemma wide_step amb s o :
  geometry_ok s -> 2 <= cols s -> keeps_pairs o = true -> wide_ok s -> wide_ok (screen_step amb s o).
Proof.
  intros Hg H2 Ho Hw. pose proof (geometry_grid s Hg) as G. pose proof (geometry_cursor_in s Hg) as Hcu.
  assert (pairs_ok s) as Hp by apply Hw.
  assert (forall t, same_frame s t -> pairs_ok t -> wide_ok t) as Hf by (intros; by eapply wide_frame).
  destruct o; cbn [screen_step keeps_pairs] in *; try done.
  - by apply wide_print.
  - by apply wide_line_feed.
  - unfold backspace. repeat case_match; done.
  - unfold tab. by case_match.
  - by apply wide_line_feed.
  - unfold reverse_index. cbv zeta. destruct (_ =? _); [|by destruct (_ <? _)].
    apply wide_scroll_down; [by apply geometry_cursor|done].
  - apply wide_line_feed; [|done]. apply geometry_cursor; [|done]. destruct Hcu. split; lia.
  - unfold move_left. by destruct (wrap_pending s).
  - unfold set_tab. by destruct (_ && _).
  - unfold clear_tab. by destruct (_ && _).
  - apply Hf; [apply erase_display_frame|by apply pairs_erase_display].
  - apply Hf; [apply erase_line_frame|]. unfold erase_line. repeat case_match; try done; by apply pairs_erase_span.
  - apply Hf; [apply erase_span_frame|by apply pairs_erase_span].
  - apply Hf; [apply insert_chars_frame|by apply pairs_insert_chars].
  - unfold insert_lines. destruct (_ || _) eqn:E; [done|]. repeat (apply orb_false_iff in E as [E ?]). zbool.
    destruct Hg as (? & ? & ? & _ & _ & ? & ? & _).
    apply Hf; [apply scroll_slice_down_frame; lia || done|apply pairs_scroll_down; lia || done].
  - unfold delete_lines. destruct (_ || _) eqn:E; [done|]. repeat (apply orb_false_iff in E as [E ?]). zbool.
    destruct Hg as (? & ? & ? & _ & _ & ? & ? & _).
    apply Hf; [apply scroll_slice_up_frame; lia || done|apply pairs_scroll_up; lia || done].
  - unfold set_scroll_region. cbv zeta. by destruct (_ <? _).
  - by apply wide_enter.
  - by apply wide_leave.
  - by apply wide_resize.
Qed.

Lemma print_cols amb s cp : cols (print amb s cp) = cols s.
Proof.
  assert (forall t x wp, cols (line_feed (with_cursor t x (cy t) wp)) = cols t) as Hlf.
  { intros t x wp. by destruct (line_feed_cursor (with_cursor t x (cy t) wp)) as (_ & -> & _). }
  assert (forall t c w, cols (print_advance (print_write t c w) w) = cols t) as Hadv.
  { intros t c w. destruct (same_frame_fields _ _ (print_write_frame t c w)) as (C & _).
    unfold print_advance. by destruct (_ <=? _). }
  assert (cols (print_wrap s) = cols s) as Hw by (unfold print_wrap; destruct (_ && _); auto).
  unfold print. cbv zeta. destruct (_ =? 0); [done|]. unfold print_fit.
  destruct (_ && _); [|by rewrite Hadv]. destruct (negb _); [done|]. by rewrite Hadv, Hlf.
Qed.

Lemma cols_step amb s o :
  cols (screen_step amb s o) = match o with OpResize c _ => Z.max 1 c | _ => cols s end.
Proof.
  assert (forall t, same_frame s t -> cols t = cols s) as Hf
    by (intros t F; by destruct (same_frame_fields _ _ F)).
  assert (forall t, cols (line_feed t) = cols t) as Hlf by (intros t; apply line_feed_cursor).
  destruct o; cbn [screen_step]; try done.
  - apply print_cols.
  - unfold backspace. by repeat case_match.
  - unfold tab. by case_match.
  - unfold reverse_index, scroll_down. cbv zeta. destruct (_ =? _); [|by destruct (_ <? _)].
    by destruct (scroll_down_dims (with_cursor s (cx s) (cy s) false) (top s) (bottom s) 1).
  - unfold next_line. by rewrite Hlf.
  - unfold move_left. by destruct (wrap_pending s).
  - unfold set_tab. by destruct (_ && _).
  - unfold clear_tab. by destruct (_ && _).
  - apply Hf, erase_display_frame.
  - apply Hf, erase_line_frame.
  - apply Hf, erase_span_frame.
  - apply Hf, insert_chars_frame.
  - apply Hf, delete_chars_frame.
  - unfold insert_lines. destruct (_ || _); [done|]. apply scroll_down_dims.
  - unfold delete_lines. destruct (_ || _); [done|]. apply scroll_up_dims.
  - unfold set_scroll_region. cbv zeta. by destruct (_ <? _).
  - unfold enter_alt_screen. by destruct (alt s).
  - unfold leave_alt_screen. by destruct (alt s).
  - unfold resize. cbv zeta. destruct (_ && _) eqn:E; [|done].
    apply andb_true_iff in E as [E _]. zbool. lia.
Qed.

Lemma wide_run amb ops s :
  geometry_ok s -> 2 <= cols s -> wide_ok s -> forallb keeps_pairs ops = true ->
  wide_ok (fold_left (screen_step amb) ops s).
Proof.
  revert s. induction ops as [|o ops IH]; intros s Hg H2 Hw Ho; [done|].
  cbn [forallb] in Ho. apply andb_true_iff in Ho as [Ho Hos]. cbn [fold_left].
  apply IH; [by apply geometry_step| |by apply wide_step|done].
  rewrite cols_step. destruct o; try done. cbn in Ho. zbool. lia.
Qed.

(** Whatever orders a program sends and however its window is resized, the
    screen keeps its geometry: a page of exactly columns by rows cells, as many
    tab stops as columns, a cursor inside the page, a scroll region inside the
    rows, and on the alternate page a parked page of the same size. *)
Theorem geometry_always amb c r ops :
  geometry_ok (fold_left (screen_step amb) ops (screen_new c r)).
Proof. apply geometry_run, geometry_new. Qed.

(** C26: on a screen of at least two columns the two halves of a wide character
    stand and fall together: after any orders other than the deletion of
    characters, every head is followed by its tail, every tail follows its head,
    and every width is 0, 1 or 2, on the page shown and on the one parked. *)
Theorem wide_chars_whole amb c r ops :
  2 <= c -> forallb keeps_pairs ops = true ->
  wide_ok (fold_left (screen_step amb) ops (screen_new c r)).
Proof.
  intros Hc Ho. apply wide_run; [apply geometry_new|cbn; lia| |done].
  split; [|done]. apply pairs_page. cbn -[Z.max]. by apply pairs_blank.
Qed.

Lemma wide_chars_whole_witness :
  wide_ok (fold_left (screen_step false)
    [OpPrint 0x4E2D; OpPrint 97; OpPrint 0x56FD; OpMoveTo 1 0; OpPrint 98; OpInsertChars 1;
     OpResize 3 2; OpEnterAlt; OpPrint 0x4E2D; OpLeaveAlt] (screen_new 5 2)).
Proof. apply wide_chars_whole; [by vm_compute|done]. Defined.

(** The deletion of characters is the exception: with a wide character in
    the last two columns and the cursor on the first, deleting one character
    leaves a head whose tail was blanked. *)
Theorem delete_chars_splits_wide :
  let s := fold_left (screen_step false)
    [OpPrint 97; OpPrint 98; OpPrint 0x4E2D; OpMoveTo 0 0; OpDeleteChars 1] (screen_new 4 1) in
  at_ s 1 0 = ScreenCell 0x4E2D 2 style_default /\ sc_width (at_ s 2 0) <> 0.
Proof. by vm_compute. Qed.

(** ** The alternate page *)

Definition stays_in_alt (o : screen_op) : bool :=
  match o with OpLeaveAlt | OpResize _ _ => false | _ => true end.

(** What waits while the alternate page is shown. *)
Definition parking (s : screen) :=
  (alt s, parked s, parked_cursor s, parked_decsc s, sb s, cols s, rows s).

Lemma parking_frame s t : same_frame s t -> parking t = parking s.
Proof.
  intros F. destruct (same_frame_fields _ _ F)
    as (C & R & _ & _ & _ & _ & _ & A & S & _ & _ & _ & _ & P & Pc & Pd & _).
  unfold parking. by rewrite C, R, A, S, P, Pc, Pd.
Qed.

Lemma parking_slice_up s t b n : parking (scroll_slice_up s t b n) = parking s.
Proof. unfold scroll_slice_up. by repeat case_match. Qed.

Lemma parking_slice_down s t b n : parking (scroll_slice_down s t b n) = parking s.
Proof. unfold scroll_slice_down. by repeat case_match. Qed.

Lemma parking_line_feed s : alt s = true -> parking (line_feed s) = parking s.
Proof.
  intros Ha. unfold line_feed. cbv zeta. destruct (_ =? _); [|by destruct (_ <? _)].
  unfold scroll_up. rewrite parking_slice_up. cbn. rewrite Ha. cbn. by destruct (sb s).
Qed.

Lemma parking_print amb s cp : alt s = true -> parking (print amb s cp) = parking s.
Proof.
  intros Ha. assert (forall t x wp, alt t = true ->
    parking (line_feed (with_cursor t x (cy t) wp)) = parking t) as Hlf
    by (intros; by rewrite parking_line_feed).
  assert (forall t c w, parking (print_advance (print_write t c w) w) = parking t) as Hadv.
  { intros t c w. rewrite <- (parking_frame _ _ (print_write_frame t c w)).
    unfold print_advance. by destruct (_ <=? _). }
  assert (parking (print_wrap s) = parking s) as Hw
    by (unfold print_wrap; destruct (_ && _); auto).
  unfold print. cbv zeta. destruct (_ =? 0); [done|]. unfold print_fit.
  destruct (_ && _); [|by rewrite Hadv]. destruct (negb _); [done|].
  rewrite Hadv, Hlf; [done|]. by injection Hw as -> _ _ _ _ _ _.
Qed.

Lemma parking_step amb s o :
  alt s = true -> stays_in_alt o = true -> parking (screen_step amb s o) = parking s.
Proof.
  intros Ha Ho.
  destruct o; cbn [screen_step stays_in_alt] in *; try done.
  - by apply parking_print.
  - by apply parking_line_feed.
  - unfold backspace. by repeat case_match.
  - unfold tab. by case_match.
  - by apply parking_line_feed.
  - unfold reverse_index, scroll_down. cbv zeta. destruct (_ =? _); [|by destruct (_ <? _)].
    by rewrite parking_slice_down.
  - unfold next_line. by rewrite parking_line_feed.
  - unfold move_left. by destruct (wrap_pending s).
  - unfold set_tab. by destruct (_ && _).
  - unfold clear_tab. by destruct (_ && _).
  - apply parking_frame, erase_display_frame.
  - apply parking_frame, erase_line_frame.
  - apply parking_frame, erase_span_frame.
  - apply parking_frame, insert_chars_frame.
  - apply parking_frame, delete_chars_frame.
  - unfold insert_lines. destruct (_ || _); [done|]. apply parking_slice_down.
  - unfold delete_lines. destruct (_ || _); [done|]. apply parking_slice_up.
  - unfold set_scroll_region. cbv zeta. by destruct (_ <? _).
  - unfold enter_alt_screen. by rewrite Ha.
Qed.

Lemma parking_run amb ops s :
  alt s = true -> forallb stays_in_alt ops = true ->
  parking (fold_left (screen_step amb) ops s) = parking s.
Proof.
  revert s. induction ops as [|o ops IH]; intros s Ha Ho; [done|].
  cbn [forallb] in Ho. apply andb_true_iff in Ho as [Ho Hos]. cbn [fold_left].
  pose proof (parking_step amb s o Ha Ho) as E. rewrite IH; [done| |done].
  by injection E as ->.
Qed.

(** A program that takes the alternate page, does anything there but resize
    the window, and gives the page back gives back what was on it: every cell, the
    cursor and its pending wrap, the pen, the character set, the saved cursor and the
    history are those of before.  The scrolling region, the tab stops and the wrapping
    are not: they are the same for the two pages, and stay as it left them. *)
Theorem alt_screen_restores amb s ops :
  alt s = false -> forallb stays_in_alt ops = true ->
  let t := leave_alt_screen (fold_left (screen_step amb) ops (enter_alt_screen s)) in
  (forall x y, at_ t x y = at_ s x y) /\ alt t = false /\ sb t = sb s /\
  cx t = cx s /\ cy t = cy s /\ wrap_pending t = wrap_pending s /\
  pen t = pen s /\ cur_charset t = cur_charset s /\ saved t = saved s /\
  cols t = cols s /\ rows t = rows s.
Proof.
  intros Ha Ho t. subst t. unfold leave_alt_screen.
  pose proof (parking_run amb ops (enter_alt_screen s)) as E.
  unfold enter_alt_screen in *. rewrite Ha in *. specialize (E eq_refl Ho).
  match goal with |- context [fold_left ?f ops ?e] => set (u := fold_left f ops e) in * end.
  unfold parking in E. injection E as -> -> -> -> -> -> ->.
  cbn [negb]. by split_and!.
Qed.

Lemma alt_screen_restores_witness :
  let s := fold_left (screen_step false) [OpPrint 0x4E2D; OpPrint 97; OpSaveCursor] (screen_new 4 2) in
  let t := leave_alt_screen (fold_left (screen_step false)
    [OpEraseDisplay 2; OpMoveTo 0 1; OpPrint 98; OpLineFeed; OpSaveCursor] (enter_alt_screen s)) in
  (forall x y, at_ t x y = at_ s x y) /\ alt t = false /\ sb t = sb s /\
  cx t = cx s /\ cy t = cy s /\ wrap_pending t = wrap_pending s /\
  pen t = pen s /\ cur_charset t = cur_charset s /\ saved t = saved s /\
  cols t = cols s /\ rows t = rows s.
Proof. apply alt_screen_restores; by vm_compute. Defined.

(** ** The line feed *)

Definition full_region (s : screen) : bool := (top s =? 0) && (bottom s =? rows s - 1).

Lemma at_with_sb s x y b : at_ (with_sb s b) x y = at_ s x y. Proof. done. Qed.

Lemma geometry_with_sb s b : geometry_ok s -> scrollback_ok b -> geometry_ok (with_sb s (Some b)).
Proof. unfold geometry_ok, grid_len, cursor_in. cbn -[scrollback_ok]. tauto. Qed.

(** A line feed does not leave the page.  Off the last row of the region it
    only moves down, stopping at the last row; on it the rows of the region move
    up by one, a blank row in the pen's background enters, the cursor stays, and
    the row that left enters the history, trimmed, exactly when the region is
    the whole page of the main screen. *)
Theorem line_feed_spec s :
  geometry_ok s ->
  let t := line_feed s in
  cx t = cx s /\ wrap_pending t = false /\
  (cy s <> bottom s ->
     grid t = grid s /\ cy t = Z.min (cy s + 1) (rows s - 1) /\ sb t = sb s) /\
  (cy s = bottom s ->
     cy t = cy s /\
     (forall x y, cursor_in s x y ->
        at_ t x y = if (top s <=? y) && (y <? bottom s) then at_ s x (y + 1)
                    else if y =? bottom s then erased s else at_ s x y) /\
     match sb s, sb t with
     | Some b, Some b' =>
         history b' = if negb (alt s) && full_region s
                      then last_n (capacity b) (history b ++ [trim (row_cells s 0)]) else history b
     | None, None => True
     | _, _ => False
     end).
Proof.
  intros (Hc & Hr & Hg & _ & [_ Hcy] & Ht & Hb & _ & Hsb) t. subst t. unfold line_feed. cbv zeta.
  cbn [with_cursor cx cy bottom rows]. destruct (Z.eqb_spec (cy s) (bottom s)) as [E|E].
  - unfold scroll_up. cbn [with_cursor sb alt top bottom rows].
    set (s1 := with_cursor s (cx s) (cy s) false).
    set (s2 := match sb s with Some b => _ | None => _ end).
    assert (exists b, s2 = with_sb s1 b /\ match sb s, b with
      | Some b, Some b' =>
         history b' = if negb (alt s) && full_region s
                      then last_n (capacity b) (history b ++ [trim (row_cells s 0)]) else history b
      | None, None => True
      | _, _ => False end) as (b & -> & Hh).
    { subst s2. destruct (sb s) as [b|] eqn:Eb.
      - unfold full_region. rewrite andb_assoc. destruct (_ && _) eqn:Ef.
        + exists (Some (sb_push b (row_cells s1 (top s)))). split; [done|].
          rewrite push_history by done.
          repeat (apply andb_true_iff in Ef as [Ef ?]). zbool. by replace (top s) with 0.
        + exists (Some b). split; [|done]. subst s1. unfold with_sb, with_cursor. cbn. by rewrite Eb.
      - exists None. split; [|done]. subst s1. unfold with_sb, with_cursor. cbn. by rewrite Eb. }
    set (s3 := with_sb s1 b).
    assert (same_frame s3 (scroll_slice_up s3 (top s) (bottom s) 1)) as F
      by (apply scroll_slice_up_frame; [cbn; lia|done]).
    destruct (same_frame_fields _ _ F) as (_ & _ & X & Y & _ & _ & _ & _ & S & Wp & _).
    change (top s3) with (top s). change (bottom s3) with (bottom s).
    rewrite X, Y, S, Wp. split_and!; try done.
    intros _. split_and!; [done| |done]. intros x y Hin.
    rewrite at_scroll_up by (done || lia).
    assert (forall y, at_ s3 x y = at_ s x y) as Hat by done. rewrite !Hat.
    destruct (Z.leb_spec (top s) y), (Z.ltb_spec y (bottom s)), (Z.eqb_spec y (bottom s)); cbn [andb];
      try lia.
    + by rewrite !bool_decide_true by (lia || (split; [done|lia])).
    + by rewrite bool_decide_true, bool_decide_false by (lia || (split; [done|lia])).
    + by rewrite bool_decide_false by lia.
    + by rewrite bool_decide_false by lia.
  - destruct (Z.ltb_spec (cy s + 1) (rows s)); cbn [with_cursor cx cy wrap_pending grid sb];
      (split_and!; [done|done| |lia]); intros _; split_and!; done || lia.
Qed.

Lemma line_feed_spec_witness :
  let s := fold_left (screen_step false) [OpPrint 97; OpMoveTo 0 1; OpPrint 98]
             (with_sb (screen_new 3 2) (Some (scrollback_new 4))) in
  cx (line_feed s) = cx s /\ wrap_pending (line_feed s) = false.
Proof.
  intros s. pose proof (line_feed_spec s) as H.
  destruct H as (H1 & H2 & _); [|by split].
  apply geometry_run, geometry_with_sb; [apply geometry_new|apply scrollback_new_ok].
Defined.

(** ** Printed text reads back *)

Definition glyph (amb : bool) (p : style) (cp : Z) : list screen_cell :=
  if char_width amb cp =? 2 then [ScreenCell cp 2 p; ScreenCell 32 0 p] else [ScreenCell cp 1 p].

Definition glyphs (amb : bool) (p : style) (cps : list Z) : list screen_cell :=
  concat (glyph amb p <$> cps).

Definition printable (amb : bool) (cp : Z) : bool := bool_decide (scalar cp) && (0 <? char_width amb cp).

Lemma length_glyph amb p cp :
  0 < char_width amb cp -> length (glyph amb p cp) = Z.to_nat (char_width amb cp).
Proof.
  intros H. unfold glyph. destruct (char_width_range amb cp) as [E|[E|E]]; rewrite E in *; [lia|done..].
Qed.

Lemma printable_width amb cp : printable amb cp = true -> char_width amb cp = 1 \/ char_width amb cp = 2.
Proof.
  unfold printable. intros [_ H]%andb_true_iff. zbool. destruct (char_width_range amb cp); lia.
Qed.

Lemma printable_scalar amb cp : printable amb cp = true -> scalar cp.
Proof. unfold printable. intros [H _]%andb_true_iff. by apply bool_decide_eq_true in H. Qed.

Lemma length_glyphs amb p cps :
  forallb (printable amb) cps = true -> length (glyphs amb p cps) = Z.to_nat (cells_of amb cps).
Proof.
  unfold glyphs. induction cps as [|cp cps IH]; [done|]. cbn [forallb]. intros [H1 H2]%andb_true_iff.
  cbn [fmap list_fmap concat]. rewrite length_app, IH by done.
  pose proof (printable_width _ _ H1). rewrite length_glyph by lia.
  change (cells_of amb (cp :: cps)) with (char_width amb cp + cells_of amb cps).
  pose proof (cells_of_nonneg amb cps). lia.
Qed.

Lemma glyphs_app amb p a b : glyphs amb p (a ++ b) = glyphs amb p a ++ glyphs amb p b.
Proof. unfold glyphs. by rewrite fmap_app, concat_app. Qed.

Lemma append_utf8_encode out cp : scalar cp -> append_utf8 out cp = out ++ encode_utf8 cp.
Proof.
  intros [Hr Hs]. unfold append_utf8, encode_utf8. rewrite Hs. zrw_false (0x10FFFF <? cp). cbn [orb].
  by repeat case_match.
Qed.

(** The row of the cursor while [a] has been printed from its left edge. *)
Definition row_shows (amb : bool) (s : screen) (a : list Z) (t : screen) : Prop :=
  geometry_ok t /\ pairs_ok t /\ cols t = cols s /\ cy t = cy s /\ pen t = pen s /\
  cur_charset t = Ascii /\ cx t = Z.min (cells_of amb a) (cols s - 1) /\
  wrap_pending t = (cells_of amb a =? cols s) /\
  forall x, 0 <= x < cols s ->
    match glyphs amb (pen s) a !! Z.to_nat x with
    | Some c => at_ t x (cy s) = c
    | None => sc_ch (at_ t x (cy s)) = 32 /\ sc_width (at_ t x (cy s)) = 1
    end.

Lemma row_shows_print amb s a t cp :
  forallb (printable amb) a = true -> printable amb cp = true ->
  cells_of amb (a ++ [cp]) <= cols s ->
  row_shows amb s a t -> row_shows amb s (a ++ [cp]) (print amb t cp).
Proof.
  intros Ha Hcp Hfit (Hg & Hp & C & Y & P & Cs & X & Wp & Hrow).
  pose proof (printable_width _ _ Hcp) as Hw. rewrite cells_of_app in Hfit.
  assert (cells_of amb [cp] = char_width amb cp) as Hc1 by (cbn; lia).
  rewrite Hc1 in *. pose proof (cells_of_nonneg amb a) as Hn. set (n := cells_of amb a) in *.
  pose proof (length_glyphs amb (pen s) a Ha) as Hlen. fold n in Hlen.
  set (w := char_width amb cp) in *.
  assert (print amb t cp = print_advance (print_write t cp w) w) as ->.
  { unfold print. rewrite Cs. cbn [translate]. cbv zeta. fold w. rewrite Z.max_r by lia.
    zrw_false (w =? 0). unfold print_wrap. rewrite Wp. zrw_false (n =? cols s). cbn [andb].
    unfold print_fit. rewrite C, X. destruct (Z.eqb_spec w 2); cbn [andb]; [|done].
    by zrw_false (cols s <=? Z.min n (cols s - 1) + 1). }
  assert (cursor_in t (cx t) (cy t)) as Hcu by apply Hg.
  assert (w = 1 \/ w = 2 /\ cx t + 1 < cols t) as Hww by lia.
  pose proof (print_write_frame t cp w) as F.
  assert (pairs_ok (print_write t cp w)) as Hpw by (apply pairs_print_write; try done; by apply geometry_grid).
  assert (geometry_ok (print_write t cp w)) as Hgw by (by eapply geometry_frame).
  assert (forall x, 0 <= x < cols s -> at_ (print_write t cp w) x (cy s)
    = if x =? n then ScreenCell cp w (pen s)
      else if (w =? 2) && (x =? n + 1) then ScreenCell 32 0 (pen s) else at_ t x (cy s)) as Hat.
  { intros x Hx. rewrite at_print_write by (try done; by apply geometry_grid).
    rewrite X, Y, P, Z.min_l by lia.
    assert (forall x, n <= x < cols s -> W t (cy s) x = 1) as Hbl.
    { intros x' Hx'. specialize (Hrow x' ltac:(lia)).
      rewrite lookup_ge_None_2 in Hrow by lia. apply Hrow. }
    destruct (Z.eqb_spec x n), (Z.eqb_spec w 2), (Z.eqb_spec x (n + 1)); cbn [andb];
      repeat case_bool_decide; try done; try lia;
      exfalso; match goal with H : _ = _ /\ closed_span _ _ _ _ _ |- _ =>
        destruct H as [_ [?|[[-> E]|[-> E]]]] end; lia || (rewrite Hbl in E; lia). }
  assert (at_ (print_advance (print_write t cp w) w) = at_ (print_write t cp w)) as Hadv
    by (unfold print_advance; by destruct (_ <=? _)).
  destruct (same_frame_fields _ _ F) as (C' & R' & X' & Y' & P' & _ & _ & _ & _ & Wp' & _ & _ & _ & _ & _ & _ & Cs').
  unfold row_shows. rewrite cells_of_app, Hc1, Hadv. fold n.
  assert (cols (print_advance (print_write t cp w) w) = cols s /\
    cx (print_advance (print_write t cp w) w) = Z.min (n + w) (cols s - 1) /\
    wrap_pending (print_advance (print_write t cp w) w) = (n + w =? cols s)) as (E1 & E2 & E3).
  { unfold print_advance. rewrite C', C, X', X. destruct (Z.leb_spec (cols s) (Z.min n (cols s - 1) + w));
      cbn [cols cx wrap_pending with_cursor]; rewrite ?C', ?C, ?Wp', ?Wp;
      (split_and!; [done|lia|]); symmetry; [by apply Z.eqb_eq; lia|].
    zrw_false (n =? cols s). apply Z.eqb_neq. lia. }
  rewrite E1, E2, E3.
  assert (geometry_ok (print_advance (print_write t cp w) w) /\ pairs_ok (print_advance (print_write t cp w) w) /\
    cy (print_advance (print_write t cp w) w) = cy s /\ pen (print_advance (print_write t cp w) w) = pen s /\
    cur_charset (print_advance (print_write t cp w) w) = Ascii) as (? & ? & ? & ? & ?).
  { split; [|unfold print_advance; destruct (_ <=? _); cbn; split_and!; try done; congruence].
    unfold print_advance. rewrite C', C, X', X.
    destruct (geometry_cursor_in _ Hgw). rewrite C', Y' in *.
    destruct (Z.leb_spec (cols s) (Z.min n (cols s - 1) + w)); apply geometry_cursor; try done; split; lia. }
  split_and!; try done. intros x Hx. rewrite Hat by done. rewrite glyphs_app.
  specialize (Hrow x Hx).
  assert (glyphs amb (pen s) [cp] = glyph amb (pen s) cp) as -> by (unfold glyphs; cbn; apply app_nil_r).
  destruct (Z.lt_ge_cases x n).
  - rewrite lookup_app_l by lia. zrw_false (x =? n). zrw_false (x =? n + 1). by rewrite andb_false_r.
  - rewrite lookup_app_r, Hlen by lia. rewrite lookup_ge_None_2 in Hrow by lia.
    unfold glyph. fold w. destruct (Z.eqb_spec x n) as [->|].
    + rewrite Nat.sub_diag. by destruct Hw as [-> | ->].
    + destruct (Z.eqb_spec w 2) as [Ew|]; cbn [andb].
      * destruct (Z.eqb_spec x (n + 1)) as [->|].
        -- by replace (Z.to_nat (n + 1) - Z.to_nat n)%nat with 1%nat by lia.
        -- rewrite lookup_ge_None_2 by (cbn [length]; lia). done.
      * rewrite lookup_ge_None_2 by (cbn [length]; lia). done.
Qed.

Lemma row_shows_run amb s cps :
  geometry_ok s -> pairs_ok s -> cx s = 0 -> wrap_pending s = false -> cur_charset s = Ascii ->
  (forall x, sc_ch (at_ s x (cy s)) = 32 /\ sc_width (at_ s x (cy s)) = 1) ->
  forallb (printable amb) cps = true -> cells_of amb cps <= cols s ->
  row_shows amb s cps (fold_left (print amb) cps s).
Proof.
  intros Hg Hp Hx Hw Hcs Hbl. induction cps as [|cp cps IH] using rev_ind.
  - intros _ _. unfold row_shows. change (cells_of amb []) with 0. cbn [fold_left]. pose proof (geometry_cols s Hg).
    split_and!; try done; rewrite ?Hx, ?Hw; [lia|symmetry; apply Z.eqb_neq; lia|].
    intros x _. apply Hbl.
  - rewrite forallb_app, fold_left_app. cbn [forallb fold_left]. rewrite andb_true_r.
    intros [H1 H2]%andb_true_iff Hfit. apply row_shows_print; [done..|].
    apply IH; [done|]. rewrite cells_of_app in Hfit. pose proof (cells_of_nonneg amb [cp]). lia.
Qed.

(** [line_text] over the cells of a row. *)
Definition cells_text (l : list screen_cell) : bytes :=
  fold_left (fun out c => if sc_width c =? 0 then out else append_utf8 out (sc_ch c)) l [].

Lemma cells_text_app l out :
  fold_left (fun out c => if sc_width c =? 0 then out else append_utf8 out (sc_ch c)) l out
  = out ++ cells_text l.
Proof.
  assert (forall o c, append_utf8 o c = o ++ append_utf8 [] c) as Happ.
  { intros o c. unfold append_utf8. by repeat case_match. }
  unfold cells_text. induction l as [|c l IH] using rev_ind; [by rewrite app_nil_r|].
  rewrite !fold_left_app. cbn [fold_left]. rewrite IH. destruct (_ =? 0); [done|].
  rewrite (Happ (out ++ _)), (Happ (fold_left _ l [])). by rewrite app_assoc.
Qed.

Lemma cells_text_glyphs amb p cps :
  forallb (printable amb) cps = true -> cells_text (glyphs amb p cps) = encode_text cps.
Proof.
  induction cps as [|cp cps IH]; [done|]. cbn [forallb]. intros [H1 H2]%andb_true_iff.
  unfold glyphs. cbn [fmap list_fmap concat]. fold (glyphs amb p cps).
  unfold cells_text. rewrite fold_left_app, cells_text_app, IH by done. rewrite encode_text_cons. f_equal.
  rewrite <- (app_nil_l (encode_utf8 cp)), <- append_utf8_encode by (by eapply printable_scalar).
  unfold glyph. by destruct (_ =? 2).
Qed.

Lemma fold_cells {B} (f : B -> screen_cell -> B) t y l out :
  (forall i c, l !! i = Some c -> at_ t (Z.of_nat i) y = c) ->
  fold_left (fun out x => f out (at_ t x y)) (z_range 0 (length l)) out = fold_left f l out.
Proof.
  induction l as [|c l IH] using rev_ind; intros H; [done|].
  rewrite length_app. cbn [length]. rewrite Nat.add_1_r, z_range_snoc, !fold_left_app. cbn [fold_left].
  rewrite Z.add_0_l, (H (length l) c), IH; [done| |].
  - intros i c' Hi. apply H. rewrite lookup_app_l; [done|]. by eapply lookup_lt_Some.
  - by rewrite lookup_app_r, Nat.sub_diag.
Qed.

Lemma z_range_app x n m : z_range x (n + m) = z_range x n ++ z_range (x + Z.of_nat n) m.
Proof.
  induction m as [|m IH]; [by rewrite Nat.add_0_r, app_nil_r|].
  rewrite Nat.add_succ_r, !z_range_snoc, IH, <- app_assoc. do 3 f_equal. lia.
Qed.

(** The last glyph is the last cell that is neither blank nor a tail. *)
Lemma last_glyph_at t y p :
  0 <= p < cols t -> sc_width (at_ t p y) <> 0 -> sc_ch (at_ t p y) <> 32 ->
  (forall x, p < x < cols t -> sc_width (at_ t x y) = 0 \/ sc_ch (at_ t x y) = 32) ->
  last_glyph t y = p.
Proof.
  intros Hp Hw Hc Hrest. unfold last_glyph. cbv zeta.
  replace (Z.to_nat (cols t)) with (Z.to_nat p + (1 + (Z.to_nat (cols t) - Z.to_nat p - 1)))%nat by lia.
  rewrite z_range_app, fold_left_app, z_range_app, fold_left_app.
  replace (0 + Z.of_nat (Z.to_nat p)) with p by lia. cbn [Nat.add].
  change (z_range p 1) with [p + 0]. rewrite Z.add_0_r. cbn [fold_left].
  zrw_false (sc_width (at_ t p y) =? 0). zrw_false (sc_ch (at_ t p y) =? 32). cbn [negb andb].
  set (m := (_ - _ - 1)%nat). assert (forall x, In x (z_range (p + Z.of_nat 1) m) -> p < x < cols t) as Hin.
  { intros x Hx%in_z_range. lia. }
  revert Hin. generalize (z_range (p + Z.of_nat 1) m) as l. induction l as [|x l IH]; intros Hin; [done|].
  cbn [fold_left]. destruct (Hrest x (Hin x (or_introl eq_refl))) as [-> | ->];
    cbn [Z.eqb Pos.eqb negb andb]; rewrite ?andb_false_r; apply IH; intros x' Hx'; apply Hin; by right.
Qed.

(** What a program prints from the start of a blank row, in the plain character set, is
    what the row reads back: any printable text that fits, narrow and wide characters mixed, whose last
    character is not a space, comes out of [line_text] as its UTF-8 encoding,
    each wide character once. *)
Theorem printed_text_reads_back amb s cps cp :
  geometry_ok s -> pairs_ok s -> cx s = 0 -> wrap_pending s = false -> cur_charset s = Ascii ->
  (forall x, sc_ch (at_ s x (cy s)) = 32 /\ sc_width (at_ s x (cy s)) = 1) ->
  forallb (printable amb) (cps ++ [cp]) = true -> cp <> 32 ->
  cells_of amb (cps ++ [cp]) <= cols s ->
  line_text (fold_left (print amb) (cps ++ [cp]) s) (cy s) = encode_text (cps ++ [cp]).
Proof.
  intros Hg Hp Hx Hw Hcs Hbl Hpr Hcp Hfit.
  pose proof (row_shows_run amb s (cps ++ [cp]) Hg Hp Hx Hw Hcs Hbl Hpr Hfit) as Hrow.
  set (t := fold_left (print amb) (cps ++ [cp]) s) in *.
  destruct Hrow as (Gt & Pt & C & Y & _ & _ & _ & _ & Hrow).
  rewrite forallb_app in Hpr. cbn [forallb] in Hpr. rewrite andb_true_r in Hpr.
  apply andb_true_iff in Hpr as [Hpr1 Hpr2]. pose proof (printable_width _ _ Hpr2) as Hw2.
  rewrite cells_of_app in Hfit. pose proof (cells_of_nonneg amb cps) as Hn.
  assert (cells_of amb [cp] = char_width amb cp) as Hc1 by (cbn; lia). rewrite Hc1 in Hfit.
  pose proof (length_glyphs amb (pen s) cps Hpr1) as Hlen. set (n := cells_of amb cps) in *.
  assert (glyphs amb (pen s) [cp] = glyph amb (pen s) cp) as Hg1 by (unfold glyphs; cbn; apply app_nil_r).
  rewrite glyphs_app, Hg1 in Hrow.
  assert (at_ t n (cy s) = ScreenCell cp (char_width amb cp) (pen s)) as Hatn.
  { specialize (Hrow n ltac:(lia)). rewrite lookup_app_r, Hlen, Nat.sub_diag in Hrow by lia.
    unfold glyph in Hrow. by destruct Hw2 as [E|E]; rewrite E in *. }
  assert (last_glyph t (cy s) = n) as Hlast.
  { apply last_glyph_at; rewrite ?Hatn; cbn [sc_width sc_ch]; try lia.
    intros x Hx'. specialize (Hrow x ltac:(lia)). rewrite lookup_app_r, Hlen in Hrow by lia.
    destruct (glyph amb (pen s) cp !! (Z.to_nat x - Z.to_nat n)%nat) as [c|] eqn:El; [|right; apply Hrow].
    unfold glyph in El. destruct (_ =? 2).
    - destruct (Z.to_nat x - Z.to_nat n)%nat as [|[|k]] eqn:Ek; [lia| |done].
      injection El as <-. left. by rewrite Hrow.
    - destruct (Z.to_nat x - Z.to_nat n)%nat as [|k] eqn:Ek; [lia|done]. }
  pose proof (geometry_cursor_in t Gt) as [_ Hcy]. rewrite Y in Hcy.
  unfold line_text. zrw_false (cy s <? 0). zrw_false (rows t <=? cy s). cbn [orb]. rewrite Hlast.
  replace (Z.to_nat (n + 1)) with (length (glyphs amb (pen s) cps) + 1)%nat by lia.
  rewrite z_range_app, fold_left_app.
  rewrite (fold_cells (fun out c => if sc_width c =? 0 then out else append_utf8 out (sc_ch c))).
  - fold (cells_text (glyphs amb (pen s) cps)). rewrite cells_text_glyphs by done.
    change (z_range ?a 1) with [a + 0]. cbn [fold_left].
    replace (0 + Z.of_nat (length (glyphs amb (pen s) cps)) + 0) with n by lia.
    rewrite Hatn. cbn [sc_width sc_ch]. zrw_false (char_width amb cp =? 0).
    rewrite append_utf8_encode by (by eapply printable_scalar).
    rewrite encode_text_app. f_equal. unfold encode_text. cbn. by rewrite app_nil_r.
  - intros i c Hi. pose proof (lookup_lt_Some _ _ _ Hi).
    specialize (Hrow (Z.of_nat i) ltac:(lia)). rewrite Nat2Z.id, lookup_app_l, Hi in Hrow by done. done.
Qed.

Lemma printed_text_reads_back_witness :
  line_text (fold_left (print false) [97; 0x4E2D; 32; 233; 0x1F600] (screen_new 7 2)) 0
  = encode_text [97; 0x4E2D; 32; 233; 0x1F600].
Proof.
  apply (printed_text_reads_back false (screen_new 7 2) [97; 0x4E2D; 32; 233] 0x1F600);
    [apply geometry_new|apply pairs_page; apply pairs_blank; done|done..| |done|done|by vm_compute].
  intros x. unfold at_. destruct (_ || _); [done|].
  destruct (grid (screen_new 7 2) !! _) as [e|] eqn:E; [|done].
  by apply lookup_replicate_1 in E as [-> _].
Defined.

(** ** Corner cases *)

(** Inserting a column before a wide character whose stale head stands at the
    edge of the gap blanks the character that was moved beside it. *)
Example insert_chars_blanks_shifted :
  let s := fold_left (screen_step false)
    [OpPrint 97; OpPrint 0x4E2D; OpPrint 98; OpMoveTo 0 0] (screen_new 8 1) in
  sc_ch (at_ s 0 0) = 97 /\ sc_ch (at_ (insert_chars s 2) 2 0) = 32.
Proof. by vm_compute. Qed.

(** A pending wrap parked with the main page outlives a widening of the window. *)
Example resize_leaves_stale_wrap :
  let s := fold_left (screen_step false)
    [OpPrint 97; OpPrint 98; OpEnterAlt; OpResize 4 2; OpLeaveAlt] (screen_new 2 2) in
  wrap_pending s = true /\ cx s = 1 /\ cols s = 4 /\
  sc_ch (at_ (print false s 99) 0 1) = 99.
Proof. by vm_compute. Qed.

(** On a single column a wide character is written without its tail. *)
Example wide_on_one_column :
  sc_width (at_ (print false (screen_new 1 2) 0x4E2D) 0 1) = 2.
Proof. by vm_compute. Qed.
