(* ===== verification/Emulator.v ===== *)
(** * The emulator of a tab: the parser sink of [src/apps/terminal.cpp]

    [Terminal::print], [execute], [csi], [esc], [osc] and [sync_modes], over what
    a tab owns: its grid (with its history), its modes, the title its guest set,
    and the bytes sent to the guest.  [emu_feed] is the parser of the tab feeding
    that sink.

    The theorems compose the parser with the grid: whatever bytes a guest sends,
    and however its window is resized, the page keeps its geometry and the two
    flags the grid copies from the modes stay equal to them. *)

From S2P Require Import Prelude Utf8 Cell Width VtParser VtAttrs VtModes Scrollback Screen.

Record emu := Emu {
  e_screen : screen;
  e_modes : modes;
  e_title : bytes;
  e_out : bytes;
}.

Definition with_screen (t : emu) (s : screen) : emu := Emu s (e_modes t) (e_title t) (e_out t).
Definition with_modes (t : emu) (m : modes) : emu := Emu (e_screen t) m (e_title t) (e_out t).

(** [to_guest]: what is written on the master. *)
Definition to_guest (t : emu) (bs : bytes) : emu := Emu (e_screen t) (e_modes t) (e_title t) (e_out t ++ bs).

(** A new tab: an 80 by 24 page with its history attached. *)
Definition emu_new (capacity : nat) : emu :=
  Emu (with_sb (screen_new 80 24) (Some (scrollback_new capacity))) modes_default [] [].

Definition count_of (p : list param) (index : nat) : Z := Z.max 1 (param_or p index 1).

Section Emulator.
Context (amb : bool).

Definition on_screen (t : emu) (f : screen -> screen) : emu := with_screen t (f (e_screen t)).

Definition emu_print (t : emu) (c : Z) : emu := on_screen t (fun s => print amb s c).

Definition emu_execute (t : emu) (byte : Z) : emu :=
  if (byte =? 10) || (byte =? 0x0b) || (byte =? 0x0c) then on_screen t line_feed
  else if byte =? 13 then on_screen t carriage_return
  else if byte =? 8 then on_screen t backspace
  else if byte =? 9 then on_screen t tab
  else t.

Definition sync_modes (t : emu) : emu :=
  let t := on_screen t (fun s => set_autowrap s (VtModes.autowrap (e_modes t))) in
  if m_alt_screen (e_modes t) && negb (alt (e_screen t)) then on_screen t enter_alt_screen
  else if negb (m_alt_screen (e_modes t)) && alt (e_screen t) then on_screen t leave_alt_screen
  else t.

(** The orders of a control sequence without intermediates. *)
Definition csi_plain (ps : list param) (f : Z) (t : emu) : emu :=
  if f =? 65 then on_screen t (fun s => move_up s (count_of ps 0))
  else if f =? 66 then on_screen t (fun s => move_down s (count_of ps 0))
  else if f =? 67 then on_screen t (fun s => move_right s (count_of ps 0))
  else if f =? 68 then on_screen t (fun s => move_left s (count_of ps 0))
  else if f =? 71 then on_screen t (fun s => set_column s (count_of ps 0 - 1))
  else if f =? 100 then on_screen t (fun s => set_row s (count_of ps 0 - 1))
  else if (f =? 72) || (f =? 102) then on_screen t (fun s => move_to s (count_of ps 1 - 1) (count_of ps 0 - 1))
  else if f =? 74 then on_screen t (fun s => erase_display s (param_or ps 0 0))
  else if f =? 75 then on_screen t (fun s => erase_line s (param_or ps 0 0))
  else if f =? 88 then on_screen t (fun s => erase_chars s (count_of ps 0))
  else if f =? 64 then on_screen t (fun s => insert_chars s (count_of ps 0))
  else if f =? 80 then on_screen t (fun s => delete_chars s (count_of ps 0))
  else if f =? 76 then on_screen t (fun s => insert_lines s (count_of ps 0))
  else if f =? 77 then on_screen t (fun s => delete_lines s (count_of ps 0))
  else if f =? 114 then
    match ps with
    | [] => on_screen t reset_scroll_region
    | _ => on_screen t (fun s => set_scroll_region s (count_of ps 0 - 1) (param_or ps 1 (rows s) - 1))
    end
  else if f =? 103 then
    if param_or ps 0 0 =? 0 then on_screen t clear_tab
    else if param_or ps 0 0 =? 3 then on_screen t clear_all_tabs
    else t
  else if f =? 109 then on_screen t (fun s => set_pen s (apply_sgr ps (pen s)))
  else t.

Definition emu_csi (ps : list param) (intermediates : bytes) (f : Z) (t : emu) : emu :=
  let answer := reply_for_csi ps intermediates f (cx (e_screen t)) (cy (e_screen t)) (e_modes t) in
  if negb (bool_decide (answer = [])) then to_guest t answer
  else if bool_decide (intermediates = str "?") then
    if (f =? 104) || (f =? 108)
    then sync_modes (with_modes t (apply_dec_private ps (f =? 104) (e_modes t))) else t
  else if negb (bool_decide (intermediates = [])) then t
  else csi_plain ps f t.

Definition emu_esc (intermediates : bytes) (f : Z) (t : emu) : emu :=
  if bool_decide (intermediates = str "(") then on_screen t (fun s => set_charset s (charset_from_final f))
  else if negb (bool_decide (intermediates = [])) then t
  else if f =? 55 then on_screen t save_cursor
  else if f =? 56 then on_screen t restore_cursor
  else if f =? 68 then on_screen t index
  else if f =? 77 then on_screen t reverse_index
  else if f =? 69 then on_screen t next_line
  else if f =? 72 then on_screen t set_tab
  else t.

(** [data.find(';')] and the two halves around it. *)
Fixpoint split_at_semi (data : bytes) : option (bytes * bytes) :=
  match data with
  | [] => None
  | b :: data =>
      if b =? 59 then Some ([], data)
      else match split_at_semi data with Some (id, rest) => Some (b :: id, rest) | None => None end
  end.

(** The title is what follows the identifier [0] or [2]. *)
Definition osc_title (data : bytes) : option bytes :=
  match split_at_semi data with
  | Some (id, rest) => if bool_decide (id = str "0") || bool_decide (id = str "2") then Some rest else None
  | None => None
  end.

Definition emu_osc (data : bytes) (t : emu) : emu :=
  match osc_title data with
  | Some title => Emu (e_screen t) (e_modes t) title (e_out t)
  | None => t
  end.

(** The virtual methods; those [Terminal] does not override do nothing. *)
Definition emu_event (t : emu) (e : event) : emu :=
  match e with
  | EPrint c => emu_print t c
  | EExecute b => emu_execute t b
  | ECsi ps i f => emu_csi ps i f t
  | EEsc i f => emu_esc i f t
  | EOsc d => emu_osc d t
  | EDcsStart _ _ _ | EDcsData _ | EDcsEnd => t
  end.

Definition emu_events (t : emu) (es : list event) : emu := fold_left emu_event es t.

(** The parser of a tab and what it drives. *)
Definition emu_feed (pt : parser * emu) (bs : bytes) : parser * emu :=
  let '(p, es) := feed pt.1 bs in (p, emu_events pt.2 es).

(** ** Every call is a sequence of orders to the grid *)

Definition plain_op (o : screen_op) : bool :=
  match o with OpSetAutowrap _ | OpEnterAlt | OpLeaveAlt | OpResize _ _ => false | _ => true end.

Definition ordered (t t' : emu) : Prop :=
  e_modes t' = e_modes t /\
  exists ops, Forall (fun o => plain_op o = true) ops /\ e_screen t' = fold_left (screen_step amb) ops (e_screen t).

Lemma ordered_refl t : ordered t t.
Proof. split; [done|]. by exists []. Qed.

Lemma ordered_step t o f :
  plain_op o = true -> f (e_screen t) = screen_step amb (e_screen t) o -> ordered t (on_screen t f).
Proof. intros Ho H. split; [done|]. exists [o]. split; [by constructor|]. cbn. apply H. Qed.

Lemma ordered_screen t t' : e_screen t' = e_screen t -> e_modes t' = e_modes t -> ordered t t'.
Proof. intros H Hm. split; [done|]. by exists []. Qed.

(** Closes a call on the grid by naming its order. *)
Ltac order o := apply (ordered_step _ o); [reflexivity|reflexivity].

Lemma csi_plain_ordered ps f t : ordered t (csi_plain ps f t).
Proof.
  unfold csi_plain.
  repeat match goal with
  | |- ordered _ (if ?b then _ else _) => destruct b
  | |- ordered _ (match ?ps with [] => _ | _ => _ end) => destruct ps
  end; try apply ordered_refl.
  - order (OpMoveUp (count_of ps 0)).
  - order (OpMoveDown (count_of ps 0)).
  - order (OpMoveRight (count_of ps 0)).
  - order (OpMoveLeft (count_of ps 0)).
  - order (OpSetColumn (count_of ps 0 - 1)).
  - order (OpSetRow (count_of ps 0 - 1)).
  - order (OpMoveTo (count_of ps 1 - 1) (count_of ps 0 - 1)).
  - order (OpEraseDisplay (param_or ps 0 0)).
  - order (OpEraseLine (param_or ps 0 0)).
  - order (OpEraseChars (count_of ps 0)).
  - order (OpInsertChars (count_of ps 0)).
  - order (OpDeleteChars (count_of ps 0)).
  - order (OpInsertLines (count_of ps 0)).
  - order (OpDeleteLines (count_of ps 0)).
  - order OpResetRegion.
  - order (OpSetRegion (count_of (p :: ps) 0 - 1) (param_or (p :: ps) 1 (rows (e_screen t)) - 1)).
  - order OpClearTab.
  - order OpClearAllTabs.
  - order (OpSetPen (apply_sgr ps (pen (e_screen t)))).
Qed.

Lemma event_ordered t e :
  ordered t (emu_event t e) \/ exists m, emu_event t e = sync_modes (with_modes t m).
Proof.
  destruct e as [c|b|ps i f|i f|d|ps i f|d|]; cbn [emu_event]; try (left; apply ordered_refl).
  - left. order (OpPrint c).
  - left. unfold emu_execute.
    repeat match goal with |- ordered _ (if ?b then _ else _) => destruct b end; try apply ordered_refl.
    + order OpLineFeed.
    + order OpCarriageReturn.
    + order OpBackspace.
    + order OpTab.
  - unfold emu_csi. cbv zeta. destruct (negb _); [left; by apply ordered_screen|].
    destruct (bool_decide _).
    + destruct (_ || _); [right; by eexists|left; apply ordered_refl].
    + left. destruct (negb _); [apply ordered_refl|apply csi_plain_ordered].
  - left. unfold emu_esc.
    repeat match goal with |- ordered _ (if ?b then _ else _) => destruct b end; try apply ordered_refl.
    + order (OpSetCharset (charset_from_final f)).
    + order OpSaveCursor.
    + order OpRestoreCursor.
    + order OpIndex.
    + order OpReverseIndex.
    + order OpNextLine.
    + order OpSetTab.
  - left. unfold emu_osc. destruct (osc_title d); [by apply ordered_screen|apply ordered_refl].
Qed.

(** ** The flags copied from the modes *)

Definition flags_ok (t : emu) : Prop :=
  autowrap (e_screen t) = VtModes.autowrap (e_modes t) /\ alt (e_screen t) = m_alt_screen (e_modes t).

Definition same_flags (s s' : screen) : Prop := autowrap s' = autowrap s /\ alt s' = alt s.
Definition same_size (s s' : screen) : Prop := cols s' = cols s /\ rows s' = rows s.

(** What an order of a guest leaves alone. *)
Definition same_page (s s' : screen) : Prop := same_flags s s' /\ same_size s s'.

Lemma frame_page s s' : same_frame s s' -> same_page s s'.
Proof. intros H. apply same_frame_fields in H. split; split; apply H. Qed.

Lemma slice_up_page s t b n : same_page s (scroll_slice_up s t b n).
Proof. unfold scroll_slice_up. by repeat case_match. Qed.

Lemma slice_down_page s t b n : same_page s (scroll_slice_down s t b n).
Proof. unfold scroll_slice_down. by repeat case_match. Qed.

Lemma page_trans s1 s2 s3 : same_page s1 s2 -> same_page s2 s3 -> same_page s1 s3.
Proof. intros [[A B] [C D]] [[E F] [G K]]. split; split; congruence. Qed.

Lemma scroll_up_page s : same_page s (scroll_up s).
Proof. unfold scroll_up. eapply page_trans; [|apply slice_up_page]. by repeat case_match. Qed.

Lemma line_feed_page s : same_page s (line_feed s).
Proof.
  unfold line_feed. cbv zeta. case_match; [|by case_match].
  eapply page_trans; [|apply scroll_up_page]. done.
Qed.

Lemma print_page s c : same_page s (print amb s c).
Proof.
  unfold print. case_match; [done|].
  assert (same_page s (print_wrap s)) as H1.
  { unfold print_wrap. case_match; [|done]. eapply page_trans; [|apply line_feed_page]. done. }
  unfold print_fit. destruct (_ && _); [destruct (negb _)|]; [done| |].
  all: eapply page_trans; [exact H1|].
  all: assert (forall s w, same_page s (print_advance s w)) as Ha by (intros; unfold print_advance; by case_match).
  all: eapply page_trans; [|apply Ha].
  - eapply page_trans; [|apply frame_page, print_write_frame]. eapply page_trans; [|apply line_feed_page]. done.
  - apply frame_page, print_write_frame.
Qed.

(** Every order but the two that [sync_modes] gives leaves them alone. *)
Lemma step_page s o :
  plain_op o = true -> same_page s (screen_step amb s o).
Proof.
  intros Ho. destruct o; cbn [screen_step plain_op] in *; try done.
  - apply print_page.
  - apply line_feed_page.
  - unfold backspace. by repeat case_match.
  - unfold tab. by repeat case_match.
  - apply line_feed_page.
  - unfold reverse_index. cbv zeta. case_match; [|by case_match].
    eapply page_trans; [|apply slice_down_page]. done.
  - unfold next_line. eapply page_trans; [|apply line_feed_page]. done.
  - unfold move_left. by case_match.
  - unfold set_tab. by case_match.
  - unfold clear_tab. by case_match.
  - apply frame_page, erase_display_frame.
  - apply frame_page, erase_line_frame.
  - apply frame_page, erase_span_frame.
  - apply frame_page, insert_chars_frame.
  - apply frame_page, delete_chars_frame.
  - unfold insert_lines. case_match; [done|apply slice_down_page].
  - unfold delete_lines. case_match; [done|apply slice_up_page].
  - unfold set_scroll_region. by case_match.
Qed.

Lemma ordered_flags t t' : ordered t t' -> flags_ok t -> flags_ok t'.
Proof.
  intros [Hm (ops & Ho & E)] [H1 H2]. unfold flags_ok. rewrite Hm, E, <- H1, <- H2. clear -Ho.
  generalize (e_screen t). induction Ho as [|o ops Ho _ IH]; intros s; [done|].
  cbn [fold_left]. destruct (IH (screen_step amb s o)) as [-> ->]. by apply (step_page s o).
Qed.

Lemma ordered_size t t' : ordered t t' -> same_size (e_screen t) (e_screen t').
Proof.
  intros [_ (ops & Ho & E)]. rewrite E. clear -Ho. generalize (e_screen t). induction Ho as [|o ops Ho _ IH]; intros s; [done|].
  cbn [fold_left]. destruct (IH (screen_step amb s o)) as [A B]. destruct (step_page s o Ho) as [_ [C D]]. split; congruence.
Qed.

Lemma ordered_geometry t t' : ordered t t' -> geometry_ok (e_screen t) -> geometry_ok (e_screen t').
Proof. intros [_ (ops & _ & E)]. rewrite E. apply geometry_run. Qed.

Lemma enter_alt_flags s : alt (enter_alt_screen s) = true /\ autowrap (enter_alt_screen s) = autowrap s.
Proof. unfold enter_alt_screen. by destruct (alt s) eqn:E. Qed.

Lemma leave_alt_flags s : alt (leave_alt_screen s) = false /\ autowrap (leave_alt_screen s) = autowrap s.
Proof. unfold leave_alt_screen. by destruct (alt s) eqn:E. Qed.

Lemma sync_modes_ok t m :
  geometry_ok (e_screen t) ->
  let t' := sync_modes (with_modes t m) in flags_ok t' /\ geometry_ok (e_screen t') /\ e_modes t' = m.
Proof.
  intros Hg. unfold sync_modes, flags_ok. cbv zeta.
  set (s1 := set_autowrap (e_screen t) (VtModes.autowrap m)).
  assert (geometry_ok s1) as H1 by (by apply (geometry_step amb _ (OpSetAutowrap (VtModes.autowrap m)))).
  pose proof (geometry_step amb s1 OpEnterAlt H1) as H2. pose proof (geometry_step amb s1 OpLeaveAlt H1) as H3.
  cbn [screen_step] in *. unfold on_screen, with_screen, with_modes. cbn [e_screen e_modes]. fold s1.
  destruct (m_alt_screen m) eqn:Em, (alt s1) eqn:Ea; cbn [negb andb e_screen e_modes]; split_and!; try done.
  all: rewrite ?Em; try exact Ea; first [apply enter_alt_flags | apply leave_alt_flags].
Qed.

Lemma sync_modes_size t m : same_size (e_screen t) (e_screen (sync_modes (with_modes t m))).
Proof.
  unfold sync_modes, on_screen, with_screen, with_modes. cbn [e_screen e_modes].
  repeat case_match; cbn [e_screen]; unfold enter_alt_screen, leave_alt_screen; by repeat case_match.
Qed.

Lemma event_size t e : same_size (e_screen t) (e_screen (emu_event t e)).
Proof. destruct (event_ordered t e) as [Ho|[m ->]]; [by apply ordered_size|apply sync_modes_size]. Qed.

Lemma resize_flags s c r : same_flags s (resize s c r).
Proof. unfold resize. by repeat case_match. Qed.

Lemma resize_size s c r : cols (resize s c r) = Z.max 1 c /\ rows (resize s c r) = Z.max 1 r.
Proof.
  unfold resize. cbv zeta. destruct (_ && _) eqn:E; [|done]. apply andb_true_iff in E as [E1 E2].
  apply Z.eqb_eq in E1, E2. by rewrite E1, E2.
Qed.

Lemma event_keeps t e :
  flags_ok t /\ geometry_ok (e_screen t) -> flags_ok (emu_event t e) /\ geometry_ok (e_screen (emu_event t e)).
Proof.
  intros [Hf Hg]. destruct (event_ordered t e) as [Ho|[m ->]].
  - split; [by eapply ordered_flags|by eapply ordered_geometry].
  - destruct (sync_modes_ok t m Hg) as (? & ? & _). by split.
Qed.

Lemma events_keep es t :
  flags_ok t /\ geometry_ok (e_screen t) -> flags_ok (emu_events t es) /\ geometry_ok (e_screen (emu_events t es)).
Proof. revert t. induction es as [|e es IH]; intros t H; [done|]. by apply IH, event_keeps. Qed.

(** ** The theorem *)

(** What happens to a tab: its guest writes, or its window is resized. *)
Inductive tab_input := Bytes (bs : bytes) | Resize (w h : Z).

Definition tab_step (pt : parser * emu) (i : tab_input) : parser * emu :=
  match i with
  | Bytes bs => emu_feed pt bs
  | Resize w h => (pt.1, on_screen pt.2 (fun s => resize s w h))
  end.

(** C20: a guest cannot break its window.  From a new tab, whatever bytes come in
    whatever cut, interleaved with any resizes, the page has its size, the cursor
    and the scrolling region are inside it, and the grid has the page -- main or
    alternate -- and the wrapping its modes say. *)
Theorem guest_cannot_break_window capacity inputs :
  let pt := fold_left tab_step inputs (parser_init, emu_new capacity) in
  geometry_ok (e_screen pt.2) /\
  autowrap (e_screen pt.2) = VtModes.autowrap (e_modes pt.2) /\
  alt (e_screen pt.2) = m_alt_screen (e_modes pt.2).
Proof.
  cbv zeta.
  assert (forall inputs pt, flags_ok pt.2 /\ geometry_ok (e_screen pt.2) ->
    let pt := fold_left tab_step inputs pt in flags_ok pt.2 /\ geometry_ok (e_screen pt.2)) as Hrun.
  { clear. induction inputs as [|i inputs IH]; intros pt H; [done|]. apply IH. destruct pt as [p t], i as [bs|w h].
    - cbn [tab_step]. unfold emu_feed. cbn [fst snd]. destruct (feed p bs) as [p' es]. by apply events_keep.
    - cbn [tab_step fst snd] in *. destruct H as [[H1 H2] H3]. pose proof (resize_flags (e_screen t) w h) as [A B]. split; [split; cbn; congruence|].
      by apply (geometry_step amb _ (OpResize w h)). }
  specialize (Hrun inputs (parser_init, emu_new capacity)). destruct Hrun as [[H1 H2] H3]; [|done].
  split; [done|]. cbn [snd emu_new e_screen].
  destruct (geometry_new 80 24) as (? & ? & ? & ? & ? & ? & ? & ? & _).
  unfold geometry_ok. split_and!; try done. apply scrollback_new_ok.
Qed.
End Emulator.
