(* ===== verification/Surface.v ===== *)
(** * Surfaces and views: [src/render/surface.hpp], [src/render/surface.cpp]

    The grid the desktop is composed on, and the clipped, translated window on
    it that is all an application ever gets.  A view holds a reference to its
    surface: here the surface is passed along, and a view is its clip. *)

From S2P Require Import Prelude RowPairs Utf8 Cell Width.

Record surface := Surface { s_w : Z; s_h : Z; cells : list cell }.

Definition resize (w h : Z) : surface :=
  let w := Z.max 0 w in
  let h := Z.max 0 h in
  Surface w h (replicate (Z.to_nat w * Z.to_nat h) cell_default).

Definition clear (s : surface) (st : style) : surface :=
  Surface (s_w s) (s_h s)
    (replicate (length (cells s)) (Cell 32 (fg st) (bg st) (attrs st) 1)).

Definition in_surface (s : surface) (x y : Z) : bool :=
  (0 <=? x) && (x <? s_w s) && (0 <=? y) && (y <? s_h s).

Definition cell_index (s : surface) (x y : Z) : nat := Z.to_nat (y * s_w s + x).

(** [at]: the source asserts the bounds; out of them the model reads a default
    cell and writes nothing. *)
Definition at_ (s : surface) (x y : Z) : cell :=
  if in_surface s x y then default cell_default (cells s !! cell_index s x y) else cell_default.

Definition set_at (s : surface) (x y : Z) (c : cell) : surface :=
  if in_surface s x y then Surface (s_w s) (s_h s) (<[cell_index s x y := c]> (cells s)) else s.

Abbreviation view := rect.

Definition root (s : surface) : view := Rect 0 0 (s_w s) (s_h s).

Definition map (v : view) (s : surface) (x y : Z) : option (Z * Z) :=
  if (x <? 0) || (y <? 0) || (rw v <=? x) || (rh v <=? y) then None
  else
    let ox := rx v + x in
    let oy := ry v + y in
    if (0 <=? ox) && (0 <=? oy) && (ox <? s_w s) && (oy <? s_h s) then Some (ox, oy) else None.

Definition cleanup_orphan (s : surface) (ox oy : Z) : surface :=
  let s := if (0 <? ox) && (width (at_ s (ox - 1) oy) =? 2) then set_at s (ox - 1) oy cell_default else s in
  if (ox + 1 <? s_w s) && (width (at_ s (ox + 1) oy) =? 0) then set_at s (ox + 1) oy cell_default else s.

Section Draw.
Context (amb : bool).

Definition put (v : view) (s : surface) (x y ch : Z) (st : style) : surface :=
  match map v s x y with
  | None => s
  | Some (ox, oy) =>
      let cw := char_width amb ch in
      if cw =? 0 then s
      else if (cw =? 2) && ((rw v <=? x + 1) || (s_w s <=? ox + 1)) then s
      else
        let s := cleanup_orphan s ox oy in
        let s := if cw =? 2 then cleanup_orphan s (ox + 1) oy else s in
        let s := set_at s ox oy (Cell ch (fg st) (bg st) (attrs st) cw) in
        if cw =? 2
        then set_at s (ox + 1) oy (Cell (Cell.ch kContinuation) (c_fg kContinuation) (bg st)
                                     (c_attrs kContinuation) (width kContinuation))
        else s
  end.

(** The loop of [text]: the surface and the column reached. *)
Fixpoint text_from (fuel : nat) (v : view) (s : surface) (col y : Z) (utf8 : bytes) (i : nat)
    (st : style) : surface * Z :=
  match fuel with
  | O => (s, col)
  | S fuel =>
      if (i <? length utf8)%nat then
        let '(used, cp) := utf8_decode utf8 i in
        let i := (i + used)%nat in
        let cw := char_width amb cp in
        if cw =? 0 then text_from fuel v s col y utf8 i st
        else if rw v <? col + cw then (s, col)
        else text_from fuel v (put v s col y cp st) (col + cw) y utf8 i st
      else (s, col)
  end.

Definition text (v : view) (s : surface) (x y : Z) (utf8 : bytes) (st : style) : surface * Z :=
  let '(s, col) := text_from (length utf8) v s x y utf8 0 st in (s, col - x).

(** [for (i = lo; i < hi; ++i)]. *)
Definition range (lo hi : Z) : list Z := (fun k => lo + Z.of_nat k) <$> seq 0 (Z.to_nat (hi - lo)).

Definition fill_cell (v : view) (st : style) (s : surface) (x y : Z) : surface :=
  match map v s x y with
  | None => s
  | Some (ox, oy) =>
      set_at (cleanup_orphan s ox oy) ox oy
        (Cell (Cell.ch cell_default) (fg st) (bg st) (attrs st) (width cell_default))
  end.

Definition fill (v : view) (s : surface) (r : rect) (st : style) : surface :=
  let x0 := Z.max 0 (rx r) in
  let y0 := Z.max 0 (ry r) in
  let x1 := Z.min (rw v) (rx r + rw r) in
  let y1 := Z.min (rh v) (ry r + rh r) in
  fold_left (fun s y => fold_left (fun s x => fill_cell v st s x y) (range x0 x1) s) (range y0 y1) s.

Inductive border := BorderUnicode | BorderAscii.

Definition box (v : view) (s : surface) (r : rect) (b : border) (st : style) : surface :=
  if (rw r <=? 0) || (rh r <=? 0) then s
  else
    let uni := match b with BorderUnicode => true | BorderAscii => false end in
    let hor := if uni then 0x2500 else 45 in
    let ver := if uni then 0x2502 else 124 in
    if rh r =? 1 then fold_left (fun s x => put v s (rx r + x) (ry r) hor st) (range 0 (rw r)) s
    else if rw r =? 1 then fold_left (fun s y => put v s (rx r) (ry r + y) ver st) (range 0 (rh r)) s
    else
      let s := fold_left (fun s x =>
        put v (put v s (rx r + x) (ry r) hor st) (rx r + x) (ry r + rh r - 1) hor st)
        (range 1 (rw r - 1)) s in
      let s := fold_left (fun s y =>
        put v (put v s (rx r) (ry r + y) ver st) (rx r + rw r - 1) (ry r + y) ver st)
        (range 1 (rh r - 1)) s in
      let s := put v s (rx r) (ry r) (if uni then 0x250C else 43) st in
      let s := put v s (rx r + rw r - 1) (ry r) (if uni then 0x2510 else 43) st in
      let s := put v s (rx r) (ry r + rh r - 1) (if uni then 0x2514 else 43) st in
      put v s (rx r + rw r - 1) (ry r + rh r - 1) (if uni then 0x2518 else 43) st.

Definition sub (v : view) (r : rect) : view :=
  let x0 := rx v + Z.max 0 (rx r) in
  let y0 := ry v + Z.max 0 (ry r) in
  let x1 := Z.min (rx v + rw v) (rx v + rx r + rw r) in
  let y1 := Z.min (ry v + rh v) (ry v + ry r + rh r) in
  Rect x0 y0 (Z.max 0 (x1 - x0)) (Z.max 0 (y1 - y0)).

Definition text_row (s : surface) (y : Z) : bytes :=
  if (y <? 0) || (s_h s <=? y) then []
  else
    fold_left (fun out x =>
      let c := at_ s x y in
      if width c =? 0 then out else out ++ encode_utf8 (Cell.ch c)) (range 0 (s_w s)) [].

(** ** What a write changes *)

Definition surface_ok (s : surface) : Prop :=
  0 <= s_w s /\ 0 <= s_h s /\ length (cells s) = (Z.to_nat (s_w s) * Z.to_nat (s_h s))%nat.

Lemma in_surfaceP s x y : in_surface s x y = true <-> 0 <= x < s_w s /\ 0 <= y < s_h s.
Proof. unfold in_surface. rewrite !andb_true_iff, !Z.leb_le, !Z.ltb_lt. lia. Qed.

Lemma set_at_dims s x y c : s_w (set_at s x y c) = s_w s /\ s_h (set_at s x y c) = s_h s.
Proof. unfold set_at. by destruct (in_surface s x y). Qed.

Lemma set_at_ok s x y c : surface_ok s -> surface_ok (set_at s x y c).
Proof. unfold set_at. destruct (in_surface s x y); [|done]. unfold surface_ok. cbn. by rewrite length_insert. Qed.

Lemma cell_at_outside s x y : ~ (0 <= x < s_w s /\ 0 <= y < s_h s) -> at_ s x y = cell_default.
Proof.
  intros H. unfold at_. destruct (in_surface s x y) eqn:E; [|done]. by apply in_surfaceP in E.
Qed.

Lemma cell_at_set s x y c x' y' :
  surface_ok s -> at_ (set_at s x y c) x' y' =
  if bool_decide (x' = x /\ y' = y /\ 0 <= x < s_w s /\ 0 <= y < s_h s) then c else at_ s x' y'.
Proof.
  intros (Hw & Hh & Hl). unfold set_at. destruct (in_surface s x y) eqn:E.
  2:{ rewrite bool_decide_false; [done|]. intros (_ & _ & Hin). apply in_surfaceP in Hin. congruence. }
  apply in_surfaceP in E. unfold at_, in_surface. cbn [s_w s_h cells]. fold (in_surface s x' y').
  destruct (in_surface s x' y') eqn:E'.
  - apply in_surfaceP in E'. unfold cell_index. cbn [s_w].
    destruct (bool_decide_reflect (x' = x /\ y' = y /\ 0 <= x < s_w s /\ 0 <= y < s_h s)) as [(-> & -> & _)|Hne].
    + rewrite list_lookup_insert_eq; [done|]. rewrite Hl. nia.
    + rewrite list_lookup_insert_ne; [done|]. intros Hi.
      assert (y * s_w s + x = y' * s_w s + x') as Hi' by nia.
      assert (y = y' \/ y < y' \/ y' < y) as [|[|]] by lia; [|nia|nia]. apply Hne. nia.
  - rewrite bool_decide_false; [done|]. intros (-> & -> & Hin). apply in_surfaceP in Hin. congruence.
Qed.

Definition WW (s : surface) (y x : Z) : Z := width (at_ s x y).

Definition surface_pairs (s : surface) : Prop := forall y, row_pairs (WW s y).

Lemma WW_outside s y x : ~ (0 <= x < s_w s /\ 0 <= y < s_h s) -> WW s y x = 1.
Proof. intros H. unfold WW. by rewrite cell_at_outside. Qed.

Lemma WW_inside s y x : WW s y x <> 1 -> 0 <= x < s_w s /\ 0 <= y < s_h s.
Proof.
  intros H. destruct (decide (0 <= x < s_w s /\ 0 <= y < s_h s)); [done|]. by rewrite WW_outside in H.
Qed.

Lemma cleanup_dims s ox oy :
  s_w (cleanup_orphan s ox oy) = s_w s /\ s_h (cleanup_orphan s ox oy) = s_h s.
Proof.
  unfold cleanup_orphan. cbv zeta.
  destruct (_ && _); destruct (_ && _); rewrite ?(proj1 (set_at_dims _ _ _ _)), ?(proj2 (set_at_dims _ _ _ _)); done.
Qed.

Lemma cleanup_ok s ox oy : surface_ok s -> surface_ok (cleanup_orphan s ox oy).
Proof.
  intros H. unfold cleanup_orphan. cbv zeta.
  destruct (_ && _); destruct (_ && _); repeat apply set_at_ok; done.
Qed.

(** The halves a write at [ox] orphans. *)
Definition orphan (s : surface) (ox oy x y : Z) : Prop :=
  y = oy /\ ((x = ox - 1 /\ WW s oy x = 2) \/ (x = ox + 1 /\ WW s oy x = 0)).

#[export] Instance orphan_dec s ox oy x y : Decision (orphan s ox oy x y).
Proof. unfold orphan. apply _. Defined.

Lemma at_cleanup s ox oy x y :
  surface_ok s ->
  at_ (cleanup_orphan s ox oy) x y = if bool_decide (orphan s ox oy x y) then cell_default else at_ s x y.
Proof.
  intros Hok. unfold cleanup_orphan. cbv zeta. fold (WW s oy (ox - 1)).
  set (s1 := if (0 <? ox) && (WW s oy (ox - 1) =? 2) then _ else s).
  assert (surface_ok s1) as Hok1 by (subst s1; destruct (_ && _); [by apply set_at_ok|done]).
  assert (forall x y, at_ s1 x y = if bool_decide (y = oy /\ x = ox - 1 /\ WW s oy x = 2)
    then cell_default else at_ s x y) as Hat.
  { intros x0 y0. subst s1. destruct (Z.eqb_spec (WW s oy (ox - 1)) 2) as [E|E].
    - pose proof (WW_inside s oy (ox - 1) ltac:(lia)). zrw_true (0 <? ox). cbn [andb].
      rewrite cell_at_set by done.
      rewrite (bool_decide_ext _ (y0 = oy /\ x0 = ox - 1 /\ WW s oy x0 = 2)); [done|].
      split; [intros (-> & -> & _)|intros (-> & -> & _)]; split_and!; done || lia.
    - rewrite andb_false_r. rewrite bool_decide_false; [done|]. by intros (-> & -> & E'). }
  assert (s_w s1 = s_w s /\ s_h s1 = s_h s) as [D1 D2]
    by (subst s1; destruct (_ && _); [apply set_at_dims|done]).
  assert (width (at_ s1 (ox + 1) oy) = WW s oy (ox + 1)) as ->
    by (rewrite Hat, bool_decide_false by lia; done).
  rewrite D1. destruct (Z.eqb_spec (WW s oy (ox + 1)) 0) as [E|E].
  - pose proof (WW_inside s oy (ox + 1) ltac:(lia)). zrw_true (ox + 1 <? s_w s). cbn [andb].
    rewrite cell_at_set by done. rewrite D1, D2, Hat. unfold orphan.
    destruct (bool_decide_reflect (x = ox + 1 /\ y = oy /\ 0 <= ox + 1 < s_w s /\ 0 <= oy < s_h s))
      as [(-> & -> & _)|Hne].
    + by rewrite bool_decide_true by (split; [done|by right]).
    + rewrite (bool_decide_ext (y = oy /\ (x = ox - 1 /\ WW s oy x = 2 \/ x = ox + 1 /\ WW s oy x = 0)) (y = oy /\ x = ox - 1 /\ WW s oy x = 2)); [done|].
      split; [intros [-> [[-> ?]|[-> ?]]]; [done|]|intros (-> & -> & ?); split; [done|by left]].
      destruct Hne. split_and!; done || lia.
  - rewrite andb_false_r, Hat. unfold orphan.
    rewrite (bool_decide_ext (y = oy /\ (x = ox - 1 /\ WW s oy x = 2 \/ x = ox + 1 /\ WW s oy x = 0)) (y = oy /\ x = ox - 1 /\ WW s oy x = 2)); [done|].
    split; [intros [-> [[-> ?]|[-> ?]]]; [done|done]|intros (-> & -> & ?); split; [done|by left]].
Qed.

(** A write of a narrow cell. *)
Definition write_narrow (s : surface) (ox oy : Z) (c : cell) : surface :=
  set_at (cleanup_orphan s ox oy) ox oy c.

(** A write of a wide character at [ox], [ox + 1]. *)
Definition write_wide (s : surface) (ox oy : Z) (c tail : cell) : surface :=
  set_at (set_at (cleanup_orphan (cleanup_orphan s ox oy) (ox + 1) oy) ox oy c) (ox + 1) oy tail.

Lemma at_write_narrow s ox oy c x y :
  surface_ok s -> 0 <= ox < s_w s -> 0 <= oy < s_h s ->
  at_ (write_narrow s ox oy c) x y
  = if bool_decide (x = ox /\ y = oy) then c
    else if bool_decide (orphan s ox oy x y) then cell_default else at_ s x y.
Proof.
  intros Hok Hx Hy. unfold write_narrow. destruct (cleanup_dims s ox oy) as [D1 D2].
  rewrite cell_at_set by (by apply cleanup_ok). rewrite D1, D2, at_cleanup by done.
  repeat case_bool_decide; try done; tauto.
Qed.

Lemma at_write_wide s ox oy c tail x y :
  surface_ok s -> surface_pairs s -> 0 <= ox -> ox + 1 < s_w s -> 0 <= oy < s_h s ->
  at_ (write_wide s ox oy c tail) x y
  = if bool_decide (x = ox + 1 /\ y = oy) then tail
    else if bool_decide (x = ox /\ y = oy) then c
    else if bool_decide (y = oy /\ ((x = ox - 1 /\ WW s oy x = 2) \/ (x = ox + 2 /\ WW s oy x = 0)))
    then cell_default else at_ s x y.
Proof.
  intros Hok Hp Hx Hx1 Hy. unfold write_wide. destruct (cleanup_dims s ox oy) as [D1 D2].
  set (s1 := cleanup_orphan s ox oy) in *. assert (surface_ok s1) as Hok1 by (by apply cleanup_ok).
  destruct (cleanup_dims s1 (ox + 1) oy) as [D3 D4].
  rewrite cell_at_set by (apply set_at_ok; by apply cleanup_ok).
  rewrite !(proj1 (set_at_dims _ _ _ _)), !(proj2 (set_at_dims _ _ _ _)).
  rewrite cell_at_set by (by apply cleanup_ok). rewrite D3, D4, D1, D2.
  assert (WW s1 oy (ox + 2) = WW s oy (ox + 2)) as E2.
  { unfold WW, s1. rewrite at_cleanup by done. rewrite bool_decide_false; [done|]. unfold orphan. lia. }
  rewrite at_cleanup by done. unfold orphan at 1.
  replace (ox + 1 - 1) with ox by lia. replace (ox + 1 + 1) with (ox + 2) by lia.
  destruct (bool_decide_reflect (x = ox + 1 /\ y = oy)) as [[-> ->]|H1].
  { by rewrite bool_decide_true by (split_and!; lia). }
  rewrite bool_decide_false by lia.
  destruct (bool_decide_reflect (x = ox /\ y = oy)) as [[-> ->]|H2].
  { by rewrite bool_decide_true by (split_and!; lia). }
  rewrite bool_decide_false by lia.
  assert (at_ s1 x y = if bool_decide (orphan s ox oy x y) then cell_default else at_ s x y) as ->
    by (by apply at_cleanup).
  destruct (decide (y = oy /\ (x = ox + 1 - 1 /\ WW s1 oy x = 2 \/ x = ox + 1 + 1 /\ WW s1 oy x = 0))) as [Hc|Hn].
  - rewrite bool_decide_true by done. destruct Hc as [-> [[-> ?]|[-> E]]]; [lia|].
    replace (ox + 1 + 1) with (ox + 2) in * by lia.
    rewrite bool_decide_true; [done|]. split; [done|]. right. by rewrite <- E2.
  - rewrite bool_decide_false by done.
    rewrite (bool_decide_ext (y = oy /\ (x = ox - 1 /\ WW s oy x = 2 \/ x = ox + 2 /\ WW s oy x = 0))
      (orphan s ox oy x y)); [done|].
    split; (intros [-> [[-> ?]|[-> E]]]; [split; [done|by left]|]).
    + destruct Hn. split; [done|]. right. split; [lia|]. by rewrite E2.
    + destruct H1. done.
Qed.

Lemma pairs_write_narrow s ox oy c :
  surface_ok s -> surface_pairs s -> 0 <= ox < s_w s -> 0 <= oy < s_h s -> width c = 1 ->
  surface_pairs (write_narrow s ox oy c).
Proof.
  intros Hok Hp Hx Hy Hc y.
  assert (forall x, WW (write_narrow s ox oy c) y x
    = if bool_decide (y = oy /\ (x = ox \/ (x = ox - 1 /\ WW s oy x = 2) \/ (x = ox + 1 /\ WW s oy x = 0)))
      then 1 else WW s y x) as HW.
  { intros x. unfold WW at 1. rewrite at_write_narrow by done.
    destruct (bool_decide_reflect (x = ox /\ y = oy)) as [[-> ->]|Hne].
    - rewrite bool_decide_true; [done|]. split; [done|by left].
    - rewrite (bool_decide_ext (y = oy /\ _) (orphan s ox oy x y)).
      + by case_bool_decide.
      + unfold orphan. split; intros [-> Hx']; (split; [done|]); tauto. }
  destruct (Z.eq_dec y oy) as [->|Hne].
  - apply (row_pairs_erase (WW s oy) (fun x => bool_decide (x = ox \/ (x = ox - 1 /\ WW s oy x = 2)
      \/ (x = ox + 1 /\ WW s oy x = 0)))); [apply Hp| |].
    + intros x E2. apply bool_decide_ext. destruct (Hp oy x) as [Hx2 _].
      assert (WW s oy (x + 1) = 0) as E0 by tauto. split.
      * intros [->|[[-> _]|[_ E]]]; [right; right; done|left; lia|lia].
      * intros [E|[[_ E]|[E _]]]; [right; left; split; [lia|done]|lia|left; lia].
    + intros x. rewrite HW. rewrite (bool_decide_ext (oy = oy /\ _) (x = ox \/ (x = ox - 1 /\ WW s oy x = 2)
        \/ (x = ox + 1 /\ WW s oy x = 0))); [done|tauto].
  - eapply row_pairs_ext; [|apply (Hp y)]. intros x. rewrite HW. by rewrite bool_decide_false by tauto.
Qed.

Lemma pairs_write_wide s ox oy c tail :
  surface_ok s -> surface_pairs s -> 0 <= ox -> ox + 1 < s_w s -> 0 <= oy < s_h s ->
  width c = 2 -> width tail = 0 -> surface_pairs (write_wide s ox oy c tail).
Proof.
  intros Hok Hp Hx Hx1 Hy Hc Ht y.
  set (E := fun x => bool_decide (x = ox \/ x = ox + 1 \/ (x = ox - 1 /\ WW s oy x = 2)
      \/ (x = ox + 2 /\ WW s oy x = 0))).
  assert (forall x, WW (write_wide s ox oy c tail) y x
    = if bool_decide (y = oy) then
        if x =? ox then 2 else if (2 =? 2) && (x =? ox + 1) then 0 else if E x then 1 else WW s oy x
      else WW s y x) as HW.
  { intros x. unfold WW at 1. rewrite at_write_wide by done. cbn [Z.eqb Pos.eqb andb]. unfold E.
    destruct (bool_decide_reflect (y = oy)) as [->|Hne].
    2:{ by rewrite !bool_decide_false by tauto. }
    destruct (Z.eqb_spec x (ox + 1)) as [->|N1].
    { rewrite bool_decide_true by done. by zrw_false (ox + 1 =? ox). }
    rewrite bool_decide_false by tauto. destruct (Z.eqb_spec x ox) as [->|N0].
    { by rewrite bool_decide_true. }
    rewrite bool_decide_false by tauto.
    rewrite (bool_decide_ext (oy = oy /\ _) (x = ox \/ x = ox + 1 \/ (x = ox - 1 /\ WW s oy x = 2)
      \/ (x = ox + 2 /\ WW s oy x = 0))) by tauto. by case_bool_decide. }
  destruct (Z.eq_dec y oy) as [->|Hne].
  2:{ eapply row_pairs_ext; [|apply (Hp y)]. intros x. rewrite HW. by rewrite bool_decide_false. }
  apply (row_pairs_write (fun x => if E x then 1 else WW s oy x) _ ox 2); [|by right|..].
  - apply (row_pairs_erase (WW s oy) E); [apply Hp| |done].
    intros x E2. apply bool_decide_ext. destruct (Hp oy x) as [Hx2 _].
    assert (WW s oy (x + 1) = 0) as E0 by tauto. split.
    + intros [->|[->|[[-> _]|[_ ?]]]]; [right; left; lia|right; right; right; split; [lia|done]|left; lia|lia].
    + intros [?|[?|[[_ ?]|[? _]]]]; [right; right; left; split; [lia|done]|left; lia|lia|right; left; lia].
  - unfold E. rewrite bool_decide_true; [done|]. by left.
  - intros _. unfold E. rewrite bool_decide_true; [done|]. right. by left.
  - intros x. rewrite HW. by rewrite bool_decide_true.
Qed.

(** ** What drawing amounts to *)

(** One write inside the clip of a view. *)
Inductive write1 (v : view) (s : surface) : surface -> Prop :=
  | WriteNarrow ox oy c :
      contains v ox oy = true -> in_surface s ox oy = true -> width c = 1 ->
      write1 v s (write_narrow s ox oy c)
  | WriteWide ox oy c tail :
      contains v ox oy = true -> contains v (ox + 1) oy = true ->
      in_surface s ox oy = true -> in_surface s (ox + 1) oy = true -> width c = 2 -> width tail = 0 ->
      write1 v s (write_wide s ox oy c tail).

Lemma map_spec v s x y ox oy :
  map v s x y = Some (ox, oy) ->
  ox = rx v + x /\ oy = ry v + y /\ contains v ox oy = true /\ in_surface s ox oy = true.
Proof.
  unfold map. destruct (_ || _ || _ || _) eqn:E1; [done|]. cbv zeta.
  destruct (_ && _ && _ && _) eqn:E2; [|done]. intros Heq. injection Heq as <- <-. zbool.
  split_and!; [done|done| |].
  - unfold contains. rewrite !andb_true_iff, !Z.leb_le, !Z.ltb_lt. lia.
  - unfold in_surface. rewrite !andb_true_iff, !Z.leb_le, !Z.ltb_lt. lia.
Qed.

Lemma put_writes v s x y ch st : rtc (write1 v) s (put v s x y ch st).
Proof.
  unfold put. destruct (map v s x y) as [[ox oy]|] eqn:E; [|apply rtc_refl].
  apply map_spec in E as (-> & -> & Hv & Hs). cbv zeta.
  set (ox := rx v + x) in *. set (oy := ry v + y) in *.
  destruct (char_width_range amb ch) as [->|[->| ->]]; cbn [Z.eqb Pos.eqb andb]; [apply rtc_refl|..].
  - apply rtc_once. by apply WriteNarrow.
  - destruct (_ || _) eqn:E; [apply rtc_refl|]. zbool. apply rtc_once.
    apply WriteWide; try done.
    + unfold contains in *. rewrite !andb_true_iff, !Z.leb_le, !Z.ltb_lt in *. lia.
    + unfold in_surface in *. rewrite !andb_true_iff, !Z.leb_le, !Z.ltb_lt in *.
      rewrite ?(proj1 (cleanup_dims _ _ _)) in *. lia.
Qed.

Lemma fold_writes {B} v (f : surface -> B -> surface) l s :
  (forall s x, rtc (write1 v) s (f s x)) -> rtc (write1 v) s (fold_left f l s).
Proof.
  intros Hf. revert s. induction l as [|x l IH]; intros s; [apply rtc_refl|]. cbn.
  etrans; [apply Hf|apply IH].
Qed.

Lemma fill_writes v s r st : rtc (write1 v) s (fill v s r st).
Proof.
  unfold fill. apply fold_writes. intros s' y. apply fold_writes. intros s'' x.
  unfold fill_cell. destruct (map v s'' x y) as [[ox oy]|] eqn:E; [|apply rtc_refl].
  apply map_spec in E as (_ & _ & Hv & Hs). apply rtc_once. by apply WriteNarrow.
Qed.

Lemma box_writes v s r b st : rtc (write1 v) s (box v s r b st).
Proof.
  unfold box. destruct (_ || _); [apply rtc_refl|]. cbv zeta.
  destruct (rh r =? 1); [apply fold_writes; intros; apply put_writes|].
  destruct (rw r =? 1); [apply fold_writes; intros; apply put_writes|].
  repeat (etrans; [|apply put_writes]).
  assert (forall (f : surface -> Z -> surface) l s, (forall s x, rtc (write1 v) s (f s x)) ->
    rtc (write1 v) s (fold_left f l s)) as Hf by (intros; by apply fold_writes).
  etrans; [apply Hf|apply Hf]; intros; (etrans; [apply put_writes|apply put_writes]).
Qed.

Lemma text_from_writes fuel v s col y utf8 i st :
  rtc (write1 v) s (fst (text_from fuel v s col y utf8 i st)).
Proof.
  revert s col i. induction fuel as [|fuel IH]; intros s col i; [apply rtc_refl|]. cbn [text_from].
  destruct (_ <? _)%nat; [|apply rtc_refl]. destruct (utf8_decode utf8 i) as [used cp]. cbv zeta.
  destruct (_ =? 0); [apply IH|]. destruct (_ <? _); [apply rtc_refl|].
  etrans; [apply put_writes|apply IH].
Qed.

Lemma text_writes v s x y utf8 st : rtc (write1 v) s (fst (text v s x y utf8 st)).
Proof.
  unfold text. pose proof (text_from_writes (length utf8) v s x y utf8 0 st) as H.
  by destruct (text_from _ _ _ _ _ _ _ _).
Qed.

(** Anything an application does with a view. *)
#[local] Unset Elimination Schemes.
Inductive draw_op :=
  | DrawPut (x y ch : Z) (st : style)
  | DrawText (x y : Z) (utf8 : bytes) (st : style)
  | DrawFill (r : rect) (st : style)
  | DrawBox (r : rect) (b : border) (st : style)
  | DrawSub (r : rect) (ops : list draw_op).
#[local] Set Elimination Schemes.

Fixpoint draw (v : view) (s : surface) (o : draw_op) : surface :=
  match o with
  | DrawPut x y ch st => put v s x y ch st
  | DrawText x y utf8 st => fst (text v s x y utf8 st)
  | DrawFill r st => fill v s r st
  | DrawBox r b st => box v s r b st
  | DrawSub r ops => fold_left (draw (sub v r)) ops s
  end.

Lemma sub_contains v r x y : contains (sub v r) x y = true -> contains v x y = true.
Proof. unfold contains, sub. cbn. rewrite !andb_true_iff, !Z.leb_le, !Z.ltb_lt. lia. Qed.

Lemma write1_sub v r s s' : write1 (sub v r) s s' -> write1 v s s'.
Proof. intros H. destruct H; [apply WriteNarrow|apply WriteWide]; eauto using sub_contains. Qed.

Fixpoint draw_writes (o : draw_op) : forall v s, rtc (write1 v) s (draw v s o).
Proof.
  destruct o as [x y ch st|x y utf8 st|r st|r b st|r ops]; intros v s; cbn [draw].
  - apply put_writes.
  - apply text_writes.
  - apply fill_writes.
  - apply box_writes.
  - assert (rtc (write1 (sub v r)) s (fold_left (draw (sub v r)) ops s)) as H.
    { revert s. induction ops as [|o ops IH]; intros s; [apply rtc_refl|]. cbn [fold_left].
      etrans; [apply draw_writes|apply IH]. }
    induction H as [|s1 s2 s3 Hs _ IH]; [apply rtc_refl|]. eapply rtc_l; [by eapply write1_sub|exact IH].
Qed.

Lemma write1_keeps v s s' :
  write1 v s s' -> surface_ok s -> surface_pairs s ->
  surface_ok s' /\ surface_pairs s' /\ s_w s' = s_w s /\ s_h s' = s_h s.
Proof.
  intros H Hok Hp. destruct H as [ox oy c Hv Hs Hc|ox oy c tail Hv Hv' Hs Hs' Hc Ht].
  - apply in_surfaceP in Hs as [Hx Hy]. split_and!.
    + apply set_at_ok. by apply cleanup_ok.
    + by apply pairs_write_narrow.
    + unfold write_narrow. rewrite (proj1 (set_at_dims _ _ _ _)). apply cleanup_dims.
    + unfold write_narrow. rewrite (proj2 (set_at_dims _ _ _ _)). apply cleanup_dims.
  - apply in_surfaceP in Hs as [Hx Hy], Hs' as [Hx' _]. split_and!.
    + apply set_at_ok, set_at_ok, cleanup_ok. by apply cleanup_ok.
    + apply pairs_write_wide; done || lia.
    + unfold write_wide. rewrite !(proj1 (set_at_dims _ _ _ _)), !(proj1 (cleanup_dims _ _ _)). done.
    + unfold write_wide. rewrite !(proj2 (set_at_dims _ _ _ _)), !(proj2 (cleanup_dims _ _ _)). done.
Qed.

(** Outside a clip a cell stays, or was half of a wide character whose other
    half, inside, was written over, and is blanked. *)
Definition confined (v : view) (s s' : surface) : Prop :=
  forall x y, contains v x y = false ->
    at_ s' x y = at_ s x y \/
    (at_ s' x y = cell_default /\
     ((WW s y x = 2 /\ contains v (x + 1) y = true) \/ (WW s y x = 0 /\ contains v (x - 1) y = true))).

Lemma write1_confined v s s' : write1 v s s' -> surface_ok s -> surface_pairs s -> confined v s s'.
Proof.
  intros H Hok Hp x y Hout. destruct H as [ox oy c Hv Hs Hc|ox oy c tail Hv Hv' Hs Hs' Hc Ht].
  - apply in_surfaceP in Hs as [Hx Hy]. rewrite at_write_narrow by done.
    destruct (bool_decide_reflect (x = ox /\ y = oy)) as [[-> ->]|_]; [congruence|].
    case_bool_decide as Ho; [|by left]. right. split; [done|].
    destruct Ho as [-> [[-> E]|[-> E]]]; [left|right]; (split; [done|]).
    + by replace (ox - 1 + 1) with ox by lia.
    + by replace (ox + 1 - 1) with ox by lia.
  - apply in_surfaceP in Hs as [Hx Hy], Hs' as [Hx' _]. rewrite at_write_wide by (done || lia).
    destruct (bool_decide_reflect (x = ox + 1 /\ y = oy)) as [[-> ->]|_]; [congruence|].
    destruct (bool_decide_reflect (x = ox /\ y = oy)) as [[-> ->]|_]; [congruence|].
    case_bool_decide as Ho; [|by left]. right. split; [done|].
    destruct Ho as [-> [[-> E]|[-> E]]]; [left|right]; (split; [done|]).
    + by replace (ox - 1 + 1) with ox by lia.
    + by replace (ox + 2 - 1) with (ox + 1) by lia.
Qed.

Lemma confined_trans v s1 s2 s3 : confined v s1 s2 -> confined v s2 s3 -> confined v s1 s3.
Proof.
  intros H1 H2 x y Hout. destruct (H2 x y Hout) as [E2|[E2 Hw]].
  - rewrite E2. by apply H1.
  - destruct (H1 x y Hout) as [E1|[E1 Hw1]]; [|by right; rewrite E2].
    right. split; [done|]. unfold WW in *. by rewrite E1 in Hw.
Qed.

(** C29: an application cannot draw outside its view: whatever it draws, itself or
    through views of its view, every cell outside the clip keeps its content,
    except the half of a wide character whose other half was inside and is gone,
    which is blanked. *)
Theorem view_confined v s ops :
  surface_ok s -> surface_pairs s -> confined v s (fold_left (draw v) ops s).
Proof.
  intros Hok Hp.
  assert (rtc (write1 v) s (fold_left (draw v) ops s)) as H by (apply fold_writes; intros; apply draw_writes).
  induction H as [|s1 s2 s3 Hs _ IH]; [by left|].
  destruct (write1_keeps _ _ _ Hs Hok Hp) as (Hok2 & Hp2 & _).
  eapply confined_trans; [by apply write1_confined|by apply IH].
Qed.

Lemma surface_new_pairs w h : surface_ok (resize w h) /\ surface_pairs (resize w h).
Proof.
  split.
  - unfold surface_ok, resize. cbn. rewrite length_replicate. lia.
  - intros y x. assert (forall x, WW (resize w h) y x = 1) as H.
    { intros x'. unfold WW, at_, resize. cbn. destruct (in_surface _ x' y); [|done].
      destruct (_ !! _) as [c|] eqn:E; [|done]. by apply lookup_replicate_1 in E as [-> _]. }
    rewrite !H. lia.
Qed.

Lemma draw_keeps v s ops :
  surface_ok s -> surface_pairs s ->
  surface_ok (fold_left (draw v) ops s) /\ surface_pairs (fold_left (draw v) ops s).
Proof.
  intros Hok Hp.
  assert (rtc (write1 v) s (fold_left (draw v) ops s)) as H by (apply fold_writes; intros; apply draw_writes).
  induction H as [|s1 s2 s3 Hs _ IH]; [done|].
  destruct (write1_keeps _ _ _ Hs Hok Hp) as (Hok2 & Hp2 & _). by apply IH.
Qed.

(** Wide characters stay whole on a surface: from a blank surface, after any
    drawing on its root view, a head is followed by its continuation and a
    continuation follows its head. *)
Theorem surface_wide_whole w h ops :
  let s := resize w h in surface_pairs (fold_left (draw (root s)) ops s).
Proof. intros s. destruct (surface_new_pairs w h) as [Hok Hp]. by apply draw_keeps. Qed.
End Draw.

Lemma view_confined_witness :
  let s := fold_left (draw false (Rect 0 0 8 3)) [DrawText 0 1 (encode_text [0x4E2D; 0x56FD; 97]) style_default] (resize 8 3) in
  confined (Rect 1 1 3 1) s
    (fold_left (draw false (Rect 1 1 3 1)) [DrawFill (Rect (-5) (-5) 20 20) style_default; DrawText 1 0 (str "overflow") style_default] s).
Proof.
  intros s. apply view_confined.
  - apply draw_keeps; apply surface_new_pairs.
  - apply draw_keeps; apply surface_new_pairs.
Defined.
