(* ===== verification/Frames.v ===== *)
(** * What a frame shows: [src/render/diff.cpp] read by [src/vt] and [src/apps/terminal.cpp]

    The bytes of the differ are fed to the emulator of this same program, and the
    page left is compared with the surface they were made from.  [held] says what
    the differ may assume of the terminal while it writes a frame; every step of
    [frame] keeps it, never spoils a cell already right, and makes right the cells
    it is about. *)

From S2P Require Import Prelude RowPairs Utf8 Cell Width VtParser VtAttrs VtModes Profile Scrollback.
From S2P Require Surface.
From S2P Require Import Screen ScreenCells ScreenProps Emulator Differ.

Definition ready (p : parser) : Prop := idle p /\ parser_ok p.

(** ** The sequences of a frame, as the emulator reads them *)

Lemma feed_csi_ready p priv ps inters fin :
  ready p -> csi_wf priv ps inters fin ->
  exists p', feed p (print_csi priv ps inters fin)
    = (p', [ECsi ps (match priv with Some b => [b] | None => [] end ++ inters) fin]) /\ ready p'.
Proof.
  intros [Hi Hok] Hwf. destruct (feed_csi p priv ps inters fin Hok Hwf) as (a & sn & mn & E).
  rewrite idle_esc in E by done. cbn [app] in E.
  eexists. split; [exact E|]. split; [done|]. destruct Hwf as (_ & (Hl & Hv & _) & _ & Hil & _).
  split; [|by left]. split_and!; try done; apply kMaxOsc_nonneg.
Qed.

Lemma feed_char_ready p c :
  ready p -> VtParser.printable c -> exists p', feed p (encode_utf8 c) = (p', [EPrint c]) /\ ready p'.
Proof.
  intros [Hi Hok] Hc. destruct (feed_char p c Hi Hc) as (p' & E & Hi').
  exists p'. split; [done|]. split; [done|].
  destruct (feed_keeps_ok p (encode_utf8 c) Hok (encode_utf8_bytes_ok c)) as [H _]. by rewrite E in H.
Qed.

(** Values written plainly. *)
Lemma plain_wf l fin :
  l <> [] -> (length l <= kMaxParams)%nat -> Forall (fun v => 0 <= v <= kMaxParamValue) l ->
  is_final fin = true -> csi_wf None (plain <$> l) [] fin.
Proof.
  intros Hne Hl Hv Hf. split_and!; try done; [|cbn; lia]. split_and!.
  - by rewrite length_fmap.
  - apply Forall_fmap. eapply Forall_impl; [|exact Hv]. intros v. apply plain_ok.
  - destruct Hv as [|v [|v' l] Hv1 Hv]; [done|..]; cbn; [lia|done].
Qed.

Section Frames.
Context (amb : bool).

Lemma emu_feed_app pt s1 s2 : emu_feed amb pt (s1 ++ s2) = emu_feed amb (emu_feed amb pt s1) s2.
Proof.
  destruct pt as [p t]. unfold emu_feed. cbn [fst snd]. rewrite feed_app.
  destruct (feed p s1) as [p1 e1]. cbn [fst snd]. destruct (feed p1 s2) as [p2 e2].
  cbn [fst snd]. unfold emu_events. by rewrite fold_left_app.
Qed.

(** A sequence the grid obeys, by its final byte. *)
Lemma emu_csi_plain ps f t : f <> 99 -> f <> 110 -> f <> 112 -> emu_csi ps [] f t = csi_plain ps f t.
Proof.
  intros H1 H2 H3. unfold emu_csi, reply_for_csi.
  zrw_false (f =? 99). zrw_false (f =? 110). zrw_false (f =? 112). done.
Qed.

(** What a terminal is to the differ while a frame is written. *)
Definition page_ready (t : emu) : Prop :=
  geometry_ok (e_screen t) /\ wide_ok (e_screen t) /\ flags_ok t /\ cur_charset (e_screen t) = Ascii.

Lemma feed_cup pt x y :
  ready pt.1 -> 0 <= x < cols (e_screen pt.2) -> 0 <= y < rows (e_screen pt.2) ->
  cols (e_screen pt.2) <= 65535 -> rows (e_screen pt.2) <= 65535 ->
  exists p', emu_feed amb pt (cup x y) = (p', on_screen pt.2 (fun s => with_cursor s x y false)) /\ ready p'.
Proof.
  intros Hr Hx Hy Hc Hw. destruct pt as [p t]. cbn [fst snd] in *.
  assert (csi_wf None (plain <$> [y + 1; x + 1]) [] 72) as Hwf.
  { assert (kMaxParamValue = 65535) by done. apply plain_wf; [done|cbn; unfold kMaxParams; lia| |done].
    repeat (apply List.Forall_cons; [lia|]). apply List.Forall_nil. }
  destruct (feed_csi_ready p None _ [] 72 Hr Hwf) as (p' & E & Hr').
  assert (cup x y = print_csi None (plain <$> [y + 1; x + 1]) [] 72) as ->.
  { unfold cup, print_csi. cbn. rewrite !print_value_nonneg, app_nil_r, <- app_assoc by lia. done. }
  exists p'. split; [|done]. unfold emu_feed. cbn [fst snd]. rewrite E. f_equal.
  unfold emu_events. cbn [fold_left emu_event app]. rewrite emu_csi_plain by lia.
  unfold csi_plain, on_screen, with_screen, move_to, count_of, param_or. cbn.
  do 2 f_equal; unfold clamp; zrw_false (x + 1 <? 0); zrw_false (y + 1 <? 0); lia.
Qed.

Lemma apply_events_pen pss t :
  emu_events amb t ((fun ps => ECsi ps [] 109) <$> pss)
  = on_screen t (fun s => set_pen s (apply_all pss (pen s))).
Proof.
  revert t. induction pss as [|ps pss IH]; intros t.
  { cbn. destruct t as [s m ti o]. unfold on_screen, with_screen. cbn. by destruct s. }
  cbn [fmap list_fmap emu_events fold_left emu_event]. fold (emu_events amb).
  rewrite emu_csi_plain by lia. unfold emu_events in IH. rewrite IH. done.
Qed.

Lemma feed_transition prof pt from to :
  ready pt.1 -> style_ok from -> style_ok to -> pen (e_screen pt.2) = shown prof from ->
  exists p', emu_feed amb pt (sgr_transition from to prof)
    = (p', on_screen pt.2 (fun s => set_pen s (shown prof to))) /\ ready p'.
Proof.
  intros [Hi Hok] Hf Ht Hpen. destruct pt as [p t]. cbn [fst snd] in *. rewrite transition_bytes by done.
  destruct (feed_sgrs p (transition_params from to prof) Hi Hok) as (p' & E & Hi' & Hok');
    [by apply transition_params_wf|].
  exists p'. split; [|done]. unfold emu_feed. cbn [fst snd]. rewrite E. f_equal.
  rewrite apply_events_pen. unfold on_screen. by rewrite Hpen, apply_transition.
Qed.

Lemma feed_glyph pt c :
  ready pt.1 -> VtParser.printable c ->
  exists p', emu_feed amb pt (encode_utf8 c) = (p', on_screen pt.2 (fun s => print amb s c)) /\ ready p'.
Proof.
  intros Hr Hc. destruct pt as [p t]. cbn [fst snd] in *. destruct (feed_char_ready p c Hr Hc) as (p' & E & Hr').
  exists p'. split; [|done]. unfold emu_feed. cbn [fst snd]. by rewrite E.
Qed.

Lemma feed_el pt :
  ready pt.1 ->
  exists p', emu_feed amb pt [27; 91; 75] = (p', on_screen pt.2 (fun s => erase_line s 0)) /\ ready p'.
Proof.
  intros Hr. destruct pt as [p t]. cbn [fst snd] in *.
  destruct (feed_csi_ready p None [] [] 75 Hr) as (p' & E & Hr').
  { apply (bool_decide_unpack _). by vm_compute. }
  exists p'. split; [|done]. change [27; 91; 75] with (print_csi None [] [] 75).
  unfold emu_feed. cbn [fst snd]. by rewrite E.
Qed.

(** The mode the differ sets changes nothing the grid copies. *)
Definition cursor_mode (on : bool) (m : modes) : modes := set_mode m 25 on.

Lemma sync_modes_idle t m :
  flags_ok t -> VtModes.autowrap m = VtModes.autowrap (e_modes t) -> m_alt_screen m = m_alt_screen (e_modes t) ->
  sync_modes (with_modes t m) = with_modes t m.
Proof.
  intros [H1 H2] E1 E2. destruct t as [s mo ti o]. cbn in *. unfold sync_modes, on_screen, with_screen, with_modes. cbn.
  rewrite E1, E2, <- H1, <- H2. cbn. assert (set_autowrap s (autowrap s) = s) as -> by (by destruct s).
  by destruct (alt s).
Qed.

Lemma feed_cursor_mode (on : bool) pt :
  ready pt.1 -> flags_ok pt.2 ->
  exists p', emu_feed amb pt (27 :: str (if on then "[?25h" else "[?25l"))
    = (p', with_modes pt.2 (cursor_mode on (e_modes pt.2))) /\ ready p'.
Proof.
  intros Hr Hf. destruct pt as [p t]. cbn [fst snd] in *.
  destruct (feed_csi_ready p (Some 63) [plain 25] [] (if on then 104 else 108) Hr) as (p' & E & Hr').
  { apply (bool_decide_unpack _). destruct on; by vm_compute. }
  exists p'. split; [|done].
  replace (27 :: str (if on then "[?25h" else "[?25l"))
    with (print_csi (Some 63) [plain 25] [] (if on then 104 else 108)) by (by destruct on; vm_compute).
  unfold emu_feed. cbn [fst snd]. rewrite E. f_equal. unfold emu_events. cbn [fold_left emu_event app].
  transitivity (sync_modes (with_modes t (cursor_mode on (e_modes t)))); [by destruct on|].
  by apply sync_modes_idle.
Qed.

(** ** What the differ holds of the terminal *)

(** A surface the drawing primitives can have left: whole wide characters, and in
    each cell a printable character of the width written there. *)
Definition drawable (s : Surface.surface) : Prop :=
  Surface.surface_ok s /\ Surface.surface_pairs s /\
  (1 <= Surface.s_w s <= 65535) /\ (1 <= Surface.s_h s <= 65535) /\
  forall x y, let c := Surface.at_ s x y in
    width c <> 0 -> VtParser.printable (ch c) /\ char_width amb (ch c) = width c /\ style_ok (style_of c).

(** The right half of a wide character shows nothing of its own. *)
Definition shows_cell (prof : output_profile) (c : cell) (e : screen_cell) : Prop :=
  sc_width e = width c /\
  (width c <> 0 -> sc_ch e = ch c /\ sc_style e = shown prof (style_of c)).

Definition shows (prof : output_profile) (s : Surface.surface) (t : emu) : Prop :=
  forall x y, shows_cell prof (Surface.at_ s x y) (at_ (e_screen t) x y).

Section Held.
Context (prof : output_profile) (cur : Surface.surface) (Hcur : drawable cur).

Definition right (pt : parser * emu) (x y : Z) : Prop :=
  shows_cell prof (Surface.at_ cur x y) (at_ (e_screen pt.2) x y).

Definition held (m : modes) (st : paint) (pt : parser * emu) : Prop :=
  let s := e_screen pt.2 in
  ready pt.1 /\ page_ready pt.2 /\ e_modes pt.2 = m /\
  cols s = Surface.s_w cur /\ rows s = Surface.s_h cur /\
  style_ok (p_pen st) /\ pen s = shown prof (p_pen st) /\
  (pos_known st = true -> p_px st < Surface.s_w cur ->
   cx s = p_px st /\ cy s = p_py st /\ wrap_pending s = false).

(** [st'] continues [st]: what it adds keeps the hold, spoils no cell that is
    right, and makes right the cells of [S]. *)
Definition advances (st st' : paint) (S : Z -> Z -> Prop) : Prop :=
  exists bs, body st' = body st ++ bs /\
    forall m pt, held m st pt ->
      let pt' := emu_feed amb pt bs in
      held m st' pt' /\ forall x y, right pt x y \/ S x y -> right pt' x y.

Lemma emu_feed_nil pt : emu_feed amb pt [] = pt.
Proof. by destruct pt. Qed.

Lemma advances_none st st' (S : Z -> Z -> Prop) :
  body st' = body st -> p_pen st' = p_pen st -> pos_known st' = pos_known st -> p_px st' = p_px st ->
  p_py st' = p_py st -> (forall x y, ~ S x y) -> advances st st' S.
Proof.
  intros E1 E2 E3 E4 E5 HS. exists []. rewrite app_nil_r. split; [done|]. intros m pt H. cbv zeta.
  rewrite emu_feed_nil. split; [|intros x y [|H']; [done|by destruct (HS x y)]].
  unfold held in *. by rewrite E2, E3, E4, E5.
Qed.

Lemma with_any_advances st : advances st (with_any st) (fun _ _ => False).
Proof. apply advances_none; try done. by intros ?? []. Qed.

Lemma advances_trans st1 st2 st3 (S1 S2 S : Z -> Z -> Prop) :
  advances st1 st2 S1 -> advances st2 st3 S2 -> (forall x y, S x y -> S1 x y \/ S2 x y) -> advances st1 st3 S.
Proof.
  intros (b1 & E1 & H1) (b2 & E2 & H2) HS. exists (b1 ++ b2). rewrite E2, E1, app_assoc. split; [done|].
  intros m pt H. cbv zeta. rewrite emu_feed_app. destruct (H1 m pt H) as [Hh1 R1].
  destruct (H2 m _ Hh1) as [Hh2 R2]. split; [done|].
  intros x y [Hr|Hs]; [apply R2; left; apply R1; by left|].
  apply R2. destruct (HS x y Hs); [left; apply R1; by right|by right].
Qed.

Lemma advances_weaken st st' (S S' : Z -> Z -> Prop) :
  advances st st' S -> (forall x y, S' x y -> S x y) -> advances st st' S'.
Proof.
  intros (b & E & H) HS. exists b. split; [done|]. intros m pt Hh. destruct (H m pt Hh) as [H1 H2].
  split; [done|]. intros x y [|]; apply H2; [by left|right; by apply HS].
Qed.

(** The cells of the surface. *)
Lemma cur_width x y : width (Surface.at_ cur x y) = 0 \/ width (Surface.at_ cur x y) = 1 \/ width (Surface.at_ cur x y) = 2.
Proof. destruct Hcur as (_ & Hp & _). apply (Hp y x). Qed.

Lemma cur_pair x y : width (Surface.at_ cur x y) = 2 <-> width (Surface.at_ cur (x + 1) y) = 0.
Proof. destruct Hcur as (_ & Hp & _). apply (Hp y x). Qed.

(** A character stops before the edge. *)
Lemma cur_fits x y : width (Surface.at_ cur x y) <> 0 -> 0 <= x < Surface.s_w cur ->
  x + width (Surface.at_ cur x y) <= Surface.s_w cur.
Proof.
  intros Hne Hx. destruct (cur_width x y) as [E|[E|E]]; [done|lia|]. rewrite E.
  apply cur_pair in E. destruct (Z.eq_dec (x + 1) (Surface.s_w cur)) as [E1|]; [|lia].
  rewrite Surface.cell_at_outside in E; [done|]. lia.
Qed.

Definition in_cur (x y : Z) : Prop := 0 <= x < Surface.s_w cur /\ 0 <= y < Surface.s_h cur.

(** ** The steps *)

Lemma anchor_at st x y : pos_known (anchor st x y) = true /\ p_px (anchor st x y) = x /\
  p_py (anchor st x y) = y /\ p_pen (anchor st x y) = p_pen st.
Proof.
  unfold anchor. destruct (_ || _) eqn:E; [done|]. repeat (apply orb_false_iff in E as [E ?]). zbool.
  done.
Qed.

Lemma anchor_advances st x y : in_cur x y -> advances st (anchor st x y) (fun _ _ => False).
Proof.
  intros [Hx Hy]. unfold anchor. destruct (_ || _); [|apply advances_none; tauto].
  exists (cup x y). split; [done|]. intros m pt (Hr & (Hg & Hw & Hf & Hcs) & Hm & Hc & Hrw & Hps & Hp & _).
  destruct Hcur as (_ & _ & Hdw & Hdh & _).
  destruct (feed_cup pt x y Hr) as (p' & -> & Hr'); [lia..|]. cbv zeta. split; [|by intros ?? [|]].
  unfold held, page_ready. cbn -[geometry_ok wide_ok flags_ok]. split_and!; try done.
  apply geometry_cursor; [|done]. split; lia.
Qed.

Lemma to_pen_advances st s : style_ok s -> advances st (to_pen prof st s) (fun _ _ => False).
Proof.
  intros Hs. exists (sgr_transition (p_pen st) s prof). split; [done|].
  intros m pt (Hr & (Hg & Hw & Hf & Hcs) & Hm & Hc & Hrw & Hps & Hp & Hpos).
  destruct (feed_transition prof pt (p_pen st) s Hr Hps Hs Hp) as (p' & -> & Hr'). cbv zeta.
  split; [|by intros ?? [|]]. done.
Qed.

Lemma shows_blank : shows_cell prof cell_default blank.
Proof. done. Qed.

(** Writing a character leaves right what was. *)
Lemma print_keeps_right (s : screen) c y x' y' :
  geometry_ok s -> pairs_ok s -> cx s = c -> cy s = y -> in_cur c y ->
  cols s = Surface.s_w cur -> rows s = Surface.s_h cur ->
  let cell := Surface.at_ cur c y in
  width cell <> 0 -> pen s = shown prof (style_of cell) ->
  shows_cell prof (Surface.at_ cur x' y') (at_ s x' y') \/ (y' = y /\ c <= x' < c + width cell) ->
  shows_cell prof (Surface.at_ cur x' y') (at_ (print_write s (ch cell) (width cell)) x' y').
Proof.
  intros Hg Hp Ecx Ecy [Hx Hy] Hc Hr cell Hne Hpen Hor.
  pose proof (cur_width c y) as Hw. pose proof (cur_fits c y Hne Hx) as Hfit. pose proof (cur_pair c y) as Hpair.
  fold cell in Hw, Hfit, Hpair.
  rewrite at_print_write by first [apply Hg | apply Hp | split; lia | lia].
  rewrite Ecx, Ecy. destruct (bool_decide_reflect (x' = c /\ y' = y)) as [[-> ->]|H1].
  { split; [done|]. intros _. split; [done|exact Hpen]. }
  destruct (bool_decide_reflect (width cell = 2 /\ x' = c + 1 /\ y' = y)) as [(E & -> & ->)|H2].
  { apply Hpair in E. split; [done|]. by rewrite E. }
  assert (shows_cell prof (Surface.at_ cur x' y') (at_ s x' y')) as Hok by (destruct Hor; [done|lia]).
  destruct (bool_decide_reflect (y' = y /\ closed_span s c (c + width cell - 1) y x')) as [[-> Hcl]|_]; [|done].
  exfalso. destruct Hok as [Hok _]. change (W s y x' = width (Surface.at_ cur x' y)) in Hok.
  pose proof (cur_pair x' y) as Hpx. destruct Hcl as [|[[-> E]|[-> E]]]; [lia|..].
  - assert (W s y (c - 1) = 2) as E2 by (apply (Hp y (c - 1)); by replace (c - 1 + 1) with c by lia).
    rewrite E2 in Hok. symmetry in Hok. apply Hpx in Hok. by replace (c - 1 + 1) with c in Hok by lia.
  - apply (Hp y) in E. rewrite E in Hok. symmetry in Hok.
    apply (cur_pair (c + width cell - 1) y) in Hok. destruct Hw as [|[E1|E1]]; [done|..]; rewrite E1 in Hok.
    + replace (c + 1 - 1) with c in Hok by lia. fold cell in Hok. lia.
    + apply Hpair in E1. replace (c + 2 - 1) with (c + 1) in Hok by lia. lia.
Qed.

Lemma glyph_advances st c y :
  in_cur c y ->
  let cell := Surface.at_ cur c y in
  width cell <> 0 -> pos_known st = true -> p_px st = c -> p_py st = y -> p_pen st = style_of cell ->
  advances st
    (Paint (body st ++ encode_utf8 (Cell.ch cell)) (p_pen st)
      (if 0x80 <=? Cell.ch cell then false else pos_known st) (p_px st + width cell) (p_py st) (any st))
    (fun x' y' => y' = y /\ c <= x' < c + width cell).
Proof.
  intros Hin cell Hne Hk Epx Epy Epen. exists (encode_utf8 (ch cell)). split; [done|].
  intros m pt (Hr & (Hg & Hw & Hf & Hcs) & Hm & Hc & Hrw & Hps & Hp & Hpos).
  destruct Hcur as (_ & _ & _ & _ & Hcells). destruct (Hcells c y Hne) as (Hpr & Hcw & Hst). fold cell in Hpr, Hcw, Hst.
  destruct (Hpos Hk) as (Ecx & Ecy & Hwp); [rewrite Epx; apply Hin|].
  pose proof (cur_width c y) as Hw12. pose proof (cur_fits c y Hne (proj1 Hin)) as Hfit. fold cell in Hw12, Hfit.
  destruct (feed_glyph pt (ch cell) Hr Hpr) as (p' & -> & Hr'). cbv zeta. set (s := e_screen pt.2) in *.
  assert (print amb s (ch cell) = print_advance (print_write s (ch cell) (width cell)) (width cell)) as Epr.
  { unfold print. rewrite Hcs. cbn [translate]. rewrite Hcw, Z.max_r by lia. zrw_false (width cell =? 0).
    unfold print_wrap. rewrite Hwp. cbn [andb]. unfold print_fit.
    assert ((width cell =? 2) && (cols s <=? cx s + 1) = false) as ->; [|done].
    destruct (Z.eqb_spec (width cell) 2) as [E|]; [|done]. zrw_false (cols s <=? cx s + 1). done. }
  pose proof (geometry_print amb s (ch cell) Hg) as Hg'. pose proof (print_page amb s (ch cell)) as [[Hf1 Hf2] _].
  pose proof (print_write_frame s (ch cell) (width cell)) as Hfr.
  pose proof (same_frame_fields _ _ Hfr) as (F1 & F2 & F3 & F4 & F5 & _ & _ & _ & _ & F10 & _ & _ & _ & _ & _ & _ & F17).
  assert (wide_ok (print_write s (ch cell) (width cell))) as Hw'.
  { eapply wide_frame; [exact Hfr| |exact Hw]. apply pairs_print_write; [apply Hg|apply Hw|apply Hg|lia]. }
  set (s2 := print_write s (ch cell) (width cell)) in *. split.
  - unfold held, page_ready, flags_ok. cbn [fst snd on_screen with_screen e_screen e_modes body p_pen pos_known p_px p_py].
    fold s. rewrite Hf1, Hf2. rewrite Epr in *.
    assert (forall s w, cols (print_advance s w) = cols s /\ rows (print_advance s w) = rows s /\
      pen (print_advance s w) = pen s /\ cur_charset (print_advance s w) = cur_charset s) as Hadv
      by (intros; unfold print_advance; by destruct (_ <=? _)).
    destruct (Hadv s2 (width cell)) as (A1 & A2 & A3 & A4). rewrite A1, A2, A3, A4, F1, F2, F5, F17.
    split_and!; try done; try apply Hf.
    + unfold print_advance. by destruct (_ <=? _).
    + intros _ Hlt. unfold print_advance. rewrite F1, F3, F4, F10. zrw_false (cols s <=? cx s + width cell).
      cbn. lia || (split_and!; [lia|lia|done]).
  - intros x' y' Hor. unfold right in *. cbn [snd on_screen with_screen e_screen]. fold s in Hor |- *. rewrite Epr.
    assert (forall s w, at_ (print_advance s w) x' y' = at_ s x' y') as ->
      by (intros; unfold print_advance; by destruct (_ <=? _)).
    apply print_keeps_right; try done; [apply Hw|lia..|fold cell; by rewrite <- Epen].
Qed.

Lemma emit_advances st c y :
  in_cur c y ->
  advances st (emit_cell prof cur y st c)
    (fun x' y' => y' = y /\ c <= x' < c + width (Surface.at_ cur c y)).
Proof.
  intros Hin. unfold emit_cell. cbv zeta. destruct (Z.eqb_spec (width (Surface.at_ cur c y)) 0) as [E|E].
  { apply advances_none; try done. lia. }
  destruct (anchor_at st c y) as (A1 & A2 & A3 & A4).
  assert (style_ok (style_of (Surface.at_ cur c y))) as Hst
    by (destruct Hcur as (_ & _ & _ & _ & Hcells); by apply Hcells).
  eapply advances_trans; [by apply anchor_advances| |intros x' y' H; right; exact H].
  eapply advances_trans; [by apply (to_pen_advances _ (style_of (Surface.at_ cur c y)))| |intros x' y' H; right; exact H].
  apply glyph_advances; done.
Qed.

Lemma emits_advance st l y :
  Forall (fun c => in_cur c y) l ->
  advances st (fold_left (emit_cell prof cur y) l st)
    (fun x' y' => y' = y /\ exists c, c ∈ l /\ c <= x' < c + width (Surface.at_ cur c y)).
Proof.
  intros Hl. revert st. induction Hl as [|c l Hc _ IH]; intros st.
  { apply advances_none; try done. intros x' y' (_ & c & Hc & _). by apply elem_of_nil in Hc. }
  cbn [fold_left]. eapply advances_trans; [by apply emit_advances|apply IH|].
  intros x' y' (-> & c' & [->|Hin]%elem_of_cons & Hx); [left; done|right; eauto].
Qed.

Lemma elem_of_range k lo hi : k ∈ Surface.range lo hi <-> lo <= k < hi.
Proof.
  unfold Surface.range. rewrite list_elem_of_fmap. split.
  - intros (i & -> & Hi%elem_of_seq). lia.
  - intros H. exists (Z.to_nat (k - lo)). split; [lia|]. apply elem_of_seq. lia.
Qed.

Lemma run_start_spec fuel y x :
  in_cur x y -> x <= Z.of_nat fuel ->
  let start := run_start cur fuel y x in
  0 <= start <= x /\ width (Surface.at_ cur start y) <> 0.
Proof.
  revert x. induction fuel as [|fuel IH]; intros x Hin Hf; cbn [run_start].
  - destruct Hin as [? ?]. assert (x = 0) as -> by lia. split; [lia|]. intros E.
    apply (cur_pair (-1) y) in E. rewrite Surface.cell_at_outside in E by lia. done.
  - destruct (Z.ltb_spec 0 x); cbn [andb].
    + destruct (Z.eqb_spec (width (Surface.at_ cur x y)) 0); [|split; [lia|done]].
      destruct (IH (x - 1)) as [H1 H2]; [destruct Hin; split; lia|lia|]. split; [lia|done].
    + destruct Hin as [? ?]. assert (x = 0) as -> by lia. split; [lia|]. intros E.
      apply (cur_pair (-1) y) in E. rewrite Surface.cell_at_outside in E by lia. done.
Qed.

(** A run that starts on a head covers its cells. *)
Lemma run_covers start e x y :
  width (Surface.at_ cur start y) <> 0 -> start <= x < e ->
  exists c, c ∈ Surface.range start e /\ c <= x < c + width (Surface.at_ cur c y).
Proof.
  intros Hs Hx. destruct (cur_width x y) as [E|E].
  - exists (x - 1). assert (x <> start) by (by intros ->).
    replace x with (x - 1 + 1) in E by lia. apply cur_pair in E. rewrite E. split; [|lia].
    apply elem_of_range. lia.
  - exists x. split; [apply elem_of_range; lia|lia].
Qed.

Section Rows.
Context (prev : Surface.surface) (full : bool).

Lemma run_end_spec fuel ce y e : e <= ce -> e <= run_end cur prev full fuel ce y e <= ce.
Proof.
  revert e. induction fuel as [|fuel IH]; intros e He; cbn [run_end]; [lia|].
  destruct (Z.leb_spec ce e); [lia|]. destruct (_ && _); [lia|]. specialize (IH (e + 1)). lia.
Qed.

Definition stale (x y : Z) : Prop := differs cur prev full x y = true.

Lemma row_loop_advances fuel ce y x st :
  0 <= x -> ce <= Surface.s_w cur -> 0 <= y < Surface.s_h cur -> ce - x <= Z.of_nat fuel ->
  advances st (row_loop prof cur prev full fuel ce y x st) (fun x' y' => y' = y /\ x <= x' < ce /\ stale x' y).
Proof.
  revert x st. induction fuel as [|fuel IH]; intros x st Hx Hce Hy Hf; cbn [row_loop].
  { apply advances_none; try done. lia. }
  destruct (Z.leb_spec ce x); [apply advances_none; try done; lia|].
  destruct (differs cur prev full x y) eqn:Ed; cbn [negb].
  - assert (in_cur x y) as Hin by (split; lia).
    pose proof (run_start_spec (Z.to_nat x) y x Hin ltac:(lia)) as [Hs1 Hs2]. cbv zeta.
    pose proof (run_end_spec (Z.to_nat ce) ce y (x + 1) ltac:(lia)) as He.
    set (start := run_start cur (Z.to_nat x) y x) in *.
    set (e := run_end cur prev full (Z.to_nat ce) ce y (x + 1)) in *.
    eapply (advances_trans _ (fold_left (emit_cell prof cur y) (Surface.range start e) st)).
    + apply emits_advance, Forall_forall. intros c Hc%list_elem_of_In%elem_of_range. split; lia.
    + eapply advances_trans; [apply with_any_advances| |].
      * apply (IH e); lia.
      * intros x' y' H'. right. exact H'.
    + intros x' y' (-> & Hx' & Hst). destruct (Z.lt_ge_cases x' e).
      * left. split; [done|]. apply run_covers; [done|lia].
      * right. split_and!; done || lia.
  - eapply advances_weaken; [apply (IH (x + 1)); lia|]. intros x' y' (-> & Hx' & Hst).
    split_and!; try done; try lia. destruct (Z.eq_dec x' x) as [->|]; [|lia].
    unfold stale in Hst. congruence.
Qed.

(** ** The erased tail *)

Lemma tail_start_spec fuel y t :
  t <= Surface.s_w cur -> (forall x, t <= x -> Surface.at_ cur x y = cell_default) ->
  let t' := tail_start cur fuel y t in
  (0 <= t -> 0 <= t') /\ t' <= t /\ forall x, t' <= x -> Surface.at_ cur x y = cell_default.
Proof.
  revert t. induction fuel as [|fuel IH]; intros t Ht Hd; cbn [tail_start]; [done|].
  destruct (Z.ltb_spec 0 t); cbn [andb]; [|done].
  case_bool_decide as E; [|done]. destruct (IH (t - 1)) as (H1 & H2 & H3); [lia| |].
  - intros x Hx. destruct (Z.eq_dec x (t - 1)) as [->|]; [done|]. apply Hd. lia.
  - split_and!; [lia|lia|done].
Qed.

(** Erasing from [t] leaves right what was, and the tail blank. *)
Lemma erase_keeps_right (s : screen) t y x' y' :
  geometry_ok s -> pairs_ok s -> cx s = t -> cy s = y -> in_cur t y ->
  cols s = Surface.s_w cur -> rows s = Surface.s_h cur -> bg (pen s) = CDefault ->
  (forall x, t <= x -> Surface.at_ cur x y = cell_default) ->
  shows_cell prof (Surface.at_ cur x' y') (at_ s x' y') \/ (y' = y /\ t <= x' < Surface.s_w cur) ->
  shows_cell prof (Surface.at_ cur x' y') (at_ (erase_line s 0) x' y').
Proof.
  intros Hg Hp Ecx Ecy [Hx Hy] Hc Hr Hbg Hd Hor. unfold erase_line. cbn [Z.eqb].
  rewrite at_erase_span by first [apply Hg | apply Hp | lia]. rewrite Ecx, Ecy.
  assert (t <= x' -> y' = y -> shows_cell prof (Surface.at_ cur x' y') (erased s)) as Hblank.
  { intros H1 ->. rewrite Hd by done. unfold erased. by rewrite Hbg. }
  destruct (bool_decide_reflect (y' = y /\ closed_span s t (cols s - 1) y x')) as [[-> Hcl]|Hn].
  - destruct (Z.le_gt_cases t x') as [|Hlt]; [by apply Hblank|].
    destruct Hcl as [|[[-> E]|]]; [lia| |lia]. exfalso.
    destruct Hor as [[Hok _]|]; [|lia]. change (W s y (t - 1) = width (Surface.at_ cur (t - 1) y)) in Hok.
    assert (W s y (t - 1) = 2) as E2 by (apply (Hp y (t - 1)); by replace (t - 1 + 1) with t by lia).
    rewrite E2 in Hok. symmetry in Hok. apply cur_pair in Hok.
    replace (t - 1 + 1) with t in Hok by lia. rewrite Hd in Hok; done.
  - destruct Hor as [|[-> Ht]]; [done|]. exfalso. apply Hn. split; [done|]. left. lia.
Qed.

Lemma el_advances st t y :
  in_cur t y -> (forall x, t <= x -> Surface.at_ cur x y = cell_default) ->
  pos_known st = true -> p_px st = t -> p_py st = y -> bg (p_pen st) = CDefault ->
  advances st (Paint (body st ++ [27; 91; 75]) (p_pen st) (pos_known st) (p_px st) (p_py st) (any st))
    (fun x' y' => y' = y /\ t <= x' < Surface.s_w cur).
Proof.
  intros Hin Hd Hk Epx Epy Hbg. exists [27; 91; 75]. split; [done|].
  intros m pt (Hr & (Hg & Hw & Hf & Hcs) & Hm & Hc & Hrw & Hps & Hp & Hpos).
  destruct (Hpos Hk) as (Ecx & Ecy & Hwp); [rewrite Epx; apply Hin|].
  destruct (feed_el pt Hr) as (p' & -> & Hr'). cbv zeta. set (s := e_screen pt.2) in *.
  pose proof (erase_line_frame s 0) as Hfr.
  pose proof (same_frame_fields _ _ Hfr) as (F1 & F2 & F3 & F4 & F5 & _ & _ & _ & _ & F10 & _ & _ & _ & _ & _ & _ & F17).
  destruct (frame_page _ _ Hfr) as [[Hf1 Hf2] _]. split.
  - unfold held, page_ready, flags_ok. cbn [fst snd on_screen with_screen e_screen e_modes body p_pen pos_known p_px p_py].
    fold s. rewrite Hf1, Hf2, F1, F2, F3, F4, F5, F10, F17. split_and!; try done; try apply Hf.
    + by eapply geometry_frame.
    + eapply wide_frame; [exact Hfr| |exact Hw]. unfold erase_line. cbn [Z.eqb].
      apply pairs_erase_span; [apply Hg|apply Hw].
  - intros x' y' Hor. unfold right in *. cbn [snd on_screen with_screen e_screen]. fold s in Hor |- *.
    apply (erase_keeps_right s t y); try done; [apply Hw|lia..|].
    rewrite Hp. cbn [shown bg]. by rewrite Hbg.
Qed.

Lemma erase_tail_advances st t y :
  in_cur t y -> (forall x, t <= x -> Surface.at_ cur x y = cell_default) ->
  advances st (erase_tail prof cur prev full y t st) (fun x' y' => y' = y /\ t <= x' < Surface.s_w cur /\ stale x' y).
Proof.
  intros Hin Hd. unfold erase_tail. destruct (full || _) eqn:E.
  - destruct (anchor_at st t y) as (A1 & A2 & A3 & A4). cbv zeta.
    set (st1 := anchor st t y) in *.
    eapply (advances_trans _ st1); [by apply anchor_advances| |intros x' y' H; right; exact H].
    set (st2 := if negb _ then _ else st1).
    assert (advances st1 st2 (fun _ _ => False) /\ bg (p_pen st2) = CDefault /\ pos_known st2 = true /\ p_px st2 = t /\ p_py st2 = y)
      as (H2 & B1 & B2 & B3 & B4).
    { subst st2. case_bool_decide as Eb; cbn [negb]; [split; [apply advances_none; try done; by intros ?? []|done]|].
      split; [|done]. (* the style set is one the pen already is but for the background *)
      exists (sgr_transition (p_pen st1) (Style (fg (p_pen st1)) CDefault (attrs (p_pen st1))) prof). split; [done|].
      intros m pt Hh. assert (style_ok (p_pen st1)) as (Hs1 & _ & Hs3) by apply Hh.
      destruct (to_pen_advances st1 (Style (fg (p_pen st1)) CDefault (attrs (p_pen st1)))) as (bs & Eb' & Hadv);
        [by repeat split; try apply Hs1; apply Hs3|]. cbn in Eb'. apply app_inv_head in Eb'. rewrite Eb'. by apply Hadv. }
    clearbody st2. eapply (advances_trans _ st2); [exact H2| |intros x' y' H; right; exact H].
    apply (advances_weaken _ _ (fun x' y' => y' = y /\ t <= x' < Surface.s_w cur)).
    2:{ by intros x' y' (? & ? & _). }
    eapply advances_trans; [by apply (el_advances st2 t y)|apply with_any_advances|].
    intros x' y' H. by left.
  - apply orb_false_iff in E as [Ef Ee]. apply advances_none; try done.
    intros x' y' (-> & Hx' & Hst). unfold stale, differs in Hst. rewrite Ef in Hst. cbn [orb] in Hst.
    assert (existsb (fun c => negb (bool_decide (Surface.at_ cur c y = Surface.at_ prev c y)))
      (Surface.range t (Surface.s_w cur)) = true); [|congruence].
    apply existsb_exists. exists x'. split; [|done]. apply list_elem_of_In, elem_of_range. lia.
Qed.

Lemma paint_row_advances st y :
  0 <= y < Surface.s_h cur ->
  advances st (paint_row prof cur prev full st y) (fun x' y' => y' = y /\ 0 <= x' < Surface.s_w cur /\ stale x' y).
Proof.
  intros Hy. unfold paint_row. cbv zeta. assert (1 <= Surface.s_w cur <= 65535) as Hw by apply Hcur.
  destruct (tail_start_spec (Z.to_nat (Surface.s_w cur)) y (Surface.s_w cur)) as (H1 & H2 & H3); [lia| |].
  { intros x Hx. apply Surface.cell_at_outside. lia. }
  set (t := tail_start cur _ y _) in *. unfold kMinErasableTail. destruct (Z.leb_spec 4 (Surface.s_w cur - t)).
  - eapply advances_trans; [|apply erase_tail_advances; [split; lia|exact H3]|]; [apply row_loop_advances; lia|].
    intros x' y' (-> & Hx' & Hst). destruct (Z.lt_ge_cases x' t); [left|right]; split_and!; done || lia.
  - apply row_loop_advances; lia.
Qed.

Lemma paint_rows_advance :
  advances paint_new (paint_rows prof cur prev full) (fun x y => in_cur x y /\ stale x y).
Proof.
  unfold paint_rows. assert (Forall (fun y => 0 <= y < Surface.s_h cur) (Surface.range 0 (Surface.s_h cur))) as Hl.
  { apply Forall_forall. intros y Hy%list_elem_of_In%elem_of_range. lia. }
  eapply (advances_weaken _ _ (fun x y => y ∈ Surface.range 0 (Surface.s_h cur) /\ 0 <= x < Surface.s_w cur /\ stale x y)).
  2:{ intros x y ((Hx & Hy) & Hst). split; [|done]. apply elem_of_range. lia. }
  generalize paint_new. induction Hl as [|y l Hy _ IH]; intros st.
  { apply advances_none; try done. intros x y [Hy _]. by apply elem_of_nil in Hy. }
  cbn [fold_left]. eapply advances_trans; [by apply paint_row_advances|apply IH|].
  intros x y' (Hin & Hx & Hst). apply elem_of_cons in Hin as [->|Hin]; [left|right]; done.
Qed.
End Rows.
End Held.

(** ** The copy kept of the surface *)

Lemma fold_set_at (cur : Surface.surface) l y s :
  Surface.surface_ok s ->
  let s' := fold_left (fun s x => Surface.set_at s x y (Surface.at_ cur x y)) l s in
  Surface.surface_ok s' /\ Surface.s_w s' = Surface.s_w s /\ Surface.s_h s' = Surface.s_h s /\
  forall x' y', (Surface.at_ s x' y' = Surface.at_ cur x' y' ->
     Surface.at_ s' x' y' = Surface.at_ cur x' y') /\
    (x' ∈ l -> y' = y -> 0 <= x' < Surface.s_w s -> 0 <= y < Surface.s_h s ->
     Surface.at_ s' x' y' = Surface.at_ cur x' y').
Proof.
  revert s. induction l as [|x l IH]; intros s Hok; cbn [fold_left].
  { split_and!; try done. intros x' y'. split; [done|]. intros H. by apply elem_of_nil in H. }
  destruct (Surface.set_at_dims s x y (Surface.at_ cur x y)) as [D1 D2].
  destruct (IH (Surface.set_at s x y (Surface.at_ cur x y))) as (H1 & H2 & H3 & H4); [by apply Surface.set_at_ok|].
  rewrite D1 in H2, H4. rewrite D2 in H3, H4. split_and!; try done. intros x' y'. destruct (H4 x' y') as [H5 H6].
  rewrite Surface.cell_at_set in H5 by done. split.
  - intros E. apply H5. by case_bool_decide as Hb; [destruct Hb as (-> & -> & _)|].
  - intros [->|Hin]%elem_of_cons -> Hx Hy; [|by apply H6]. apply H5. by rewrite bool_decide_true.
Qed.

Lemma copy_cells_spec cur prev :
  Surface.surface_ok prev -> Surface.s_w prev = Surface.s_w cur -> Surface.s_h prev = Surface.s_h cur ->
  let s := copy_cells cur prev in
  Surface.surface_ok s /\ Surface.s_w s = Surface.s_w cur /\ Surface.s_h s = Surface.s_h cur /\
  forall x y, Surface.at_ s x y = Surface.at_ cur x y.
Proof.
  intros Hok Ew Eh. unfold copy_cells.
  assert (forall l s, Surface.surface_ok s -> Surface.s_w s = Surface.s_w cur -> Surface.s_h s = Surface.s_h cur ->
    let s' := fold_left (fun s y => fold_left (fun s x => Surface.set_at s x y (Surface.at_ cur x y))
      (Surface.range 0 (Surface.s_w cur)) s) l s in
    Surface.surface_ok s' /\ Surface.s_w s' = Surface.s_w cur /\ Surface.s_h s' = Surface.s_h cur /\
    forall x y, Surface.at_ s x y = Surface.at_ cur x y \/ (y ∈ l /\ in_cur cur x y) ->
      Surface.at_ s' x y = Surface.at_ cur x y) as H.
  { clear. induction l as [|y l IH]; intros s Hok Ew Eh; cbn [fold_left].
    - split_and!; try done. intros x y [|[H _]]; [done|by apply elem_of_nil in H].
    - destruct (fold_set_at cur (Surface.range 0 (Surface.s_w cur)) y s Hok) as (H1 & H2 & H3 & H4).
      destruct (IH _ H1) as (G1 & G2 & G3 & G4); [congruence..|]. split_and!; try done.
      intros x y' Hxy. apply G4. destruct (H4 x y') as [H5 H6].
      destruct Hxy as [E|[[->|Hin]%elem_of_cons [Hx Hy]]]; [left; by apply H5| |by right].
      left. apply H6; [by apply elem_of_range|done|lia..]. }
  destruct (H (Surface.range 0 (Surface.s_h cur)) prev Hok Ew Eh) as (H1 & H2 & H3 & H4).
  split_and!; try done. intros x y. apply H4.
  destruct (decide (0 <= x < Surface.s_w cur /\ 0 <= y < Surface.s_h cur)) as [Hin|Hout].
  - right. split; [apply elem_of_range; lia|exact Hin].
  - left. by rewrite !Surface.cell_at_outside by lia.
Qed.

(** ** What is not drawn is not written *)

Definition marked (st st' : paint) : Prop := st' = st \/ any st' = true.

Lemma marked_trans st1 st2 st3 : marked st1 st2 -> marked st2 st3 -> marked st1 st3.
Proof. intros H1 [->|H2]; [done|by right]. Qed.

Lemma row_loop_marked prof cur prev full fuel ce y x st : marked st (row_loop prof cur prev full fuel ce y x st).
Proof.
  revert x st. induction fuel as [|fuel IH]; intros x st; cbn [row_loop]; [by left|].
  destruct (_ <=? _); [by left|]. destruct (negb _); [apply IH|].
  match goal with |- marked _ (row_loop _ _ _ _ _ _ _ ?e ?st') => destruct (IH e st') as [->|]; by right end.
Qed.

Lemma paint_row_marked prof cur prev full st y : marked st (paint_row prof cur prev full st y).
Proof.
  unfold paint_row. cbv zeta. destruct (_ <=? _); [|apply row_loop_marked].
  eapply marked_trans; [apply row_loop_marked|]. unfold erase_tail. destruct (_ || _); [by right|by left].
Qed.

Lemma paint_rows_marked prof cur prev full : marked paint_new (paint_rows prof cur prev full).
Proof.
  unfold paint_rows. generalize (Surface.range 0 (Surface.s_h cur)) as l. intros l. generalize paint_new.
  induction l as [|y l IH]; intros st; [by left|]. cbn [fold_left].
  eapply marked_trans; [apply paint_row_marked|apply IH].
Qed.

(** ** Around the body *)

Lemma feed_reset pt :
  ready pt.1 ->
  exists p', emu_feed amb pt (27 :: str "[0m")
    = (p', on_screen pt.2 (fun s => set_pen s style_default)) /\ ready p'.
Proof.
  intros Hr. destruct pt as [p t]. cbn [fst snd] in *.
  destruct (feed_csi_ready p None [plain 0] [] 109 Hr) as (p' & E & Hr').
  { apply (bool_decide_unpack _). by vm_compute. }
  exists p'. split; [|done]. change (27 :: str "[0m") with (print_csi None [plain 0] [] 109).
  unfold emu_feed. cbn [fst snd]. by rewrite E.
Qed.

Definition opening : bytes := 27 :: str "[?25l" ++ 27 :: str "[0m".

Lemma opening_held prof cur pt :
  ready pt.1 -> page_ready pt.2 ->
  cols (e_screen pt.2) = Surface.s_w cur -> rows (e_screen pt.2) = Surface.s_h cur ->
  let pt1 := emu_feed amb pt opening in
  held prof cur (cursor_mode false (e_modes pt.2)) paint_new pt1 /\
  forall x y, at_ (e_screen pt1.2) x y = at_ (e_screen pt.2) x y.
Proof.
  intros Hr (Hg & Hw & Hf & Hcs) Hc Hrw. unfold opening. cbv zeta.
  change (27 :: str "[?25l" ++ 27 :: str "[0m") with ((27 :: str "[?25l") ++ (27 :: str "[0m")).
  rewrite emu_feed_app.
  destruct (feed_cursor_mode false pt Hr Hf) as (p1 & -> & Hr1).
  destruct (feed_reset (p1, with_modes pt.2 (cursor_mode false (e_modes pt.2))) Hr1) as (p2 & -> & Hr2).
  split; [|done]. unfold held, page_ready. cbn -[geometry_ok wide_ok cursor_mode]. split_and!; try done.
Qed.

(** The end of a frame puts the cursor where it is asked and shows it or not. *)
Lemma closing_shows prof cur m st pt x y (shown : bool) :
  drawable cur -> held prof cur m st pt -> in_cur cur x y -> cursor_visible m = false ->
  let pt' := emu_feed amb pt (cup x y ++ (if shown then 27 :: str "[?25h" else [])) in
  ready pt'.1 /\ page_ready pt'.2 /\ (forall x y, at_ (e_screen pt'.2) x y = at_ (e_screen pt.2) x y) /\
  cols (e_screen pt'.2) = cols (e_screen pt.2) /\ rows (e_screen pt'.2) = rows (e_screen pt.2) /\
  cx (e_screen pt'.2) = x /\ cy (e_screen pt'.2) = y /\ cursor_visible (e_modes pt'.2) = shown.
Proof.
  intros Hcur (Hr & (Hg & Hw & Hf & Hcs) & Hm & Hc & Hrw & _) [Hx Hy] Hv. cbv zeta. rewrite emu_feed_app.
  destruct Hcur as (_ & _ & Hdw & Hdh & _).
  destruct (feed_cup pt x y Hr) as (p1 & -> & Hr1); [lia..|].
  set (t := on_screen pt.2 _). assert (page_ready t /\ flags_ok t) as [Hp Hft].
  { unfold page_ready. cbn -[geometry_ok wide_ok flags_ok]. split_and!; try done.
    apply geometry_cursor; [|done]. split; lia. }
  destruct shown.
  - destruct (feed_cursor_mode true (p1, t) Hr1 Hft) as (p2 & -> & Hr2). cbn [fst snd]. by split_and!.
  - rewrite emu_feed_nil. cbn [fst snd]. split_and!; try done. subst t. cbn. by rewrite Hm.
Qed.

(** ** One frame *)

(** What the terminal must be when [frame] is called for a page of [w] by [h]:
    nothing in particular unless the differ believes in the page it keeps. *)
Definition expects (d : differ) (pt : parser * emu) (w h : Z) : Prop :=
  let s := e_screen pt.2 in
  ready pt.1 /\ page_ready pt.2 /\ Surface.surface_ok (d_prev d) /\ cols s = w /\ rows s = h /\
  (d_valid d = true -> Surface.s_w (d_prev d) = w -> Surface.s_h (d_prev d) = h ->
   shows (d_profile d) (d_prev d) pt.2 /\ cx s = px (d_target d) /\ cy s = py (d_target d) /\
   cursor_visible (e_modes pt.2) = d_shown d).

(** What holds between frames. *)
Definition in_sync (d : differ) (pt : parser * emu) : Prop :=
  expects d pt (cols (e_screen pt.2)) (rows (e_screen pt.2)) /\
  (d_valid d = true -> Surface.s_w (d_prev d) = cols (e_screen pt.2) /\ Surface.s_h (d_prev d) = rows (e_screen pt.2)).

Definition cursor_ok (cur : Surface.surface) (cursor : option pos) : Prop :=
  match cursor with Some p => in_cur cur (px p) (py p) | None => True end.

(** The page shows the surface and the cursor asked for. *)
Definition presents (prof : output_profile) (cur : Surface.surface) (cursor : option pos) (t : emu) : Prop :=
  shows prof cur t /\ cols (e_screen t) = Surface.s_w cur /\ rows (e_screen t) = Surface.s_h cur /\
  cursor_visible (e_modes t) = (match cursor with Some _ => true | None => false end) /\
  match cursor with Some p => cx (e_screen t) = px p /\ cy (e_screen t) = py p | None => True end.

(** The surface the differ compares with, and whether it redraws everything. *)
Definition same_size (d : differ) (cur : Surface.surface) : bool :=
  (Surface.s_w (d_prev d) =? Surface.s_w cur) && (Surface.s_h (d_prev d) =? Surface.s_h cur).
Definition kept (d : differ) (cur : Surface.surface) : Surface.surface :=
  if same_size d cur then d_prev d else Surface.resize (Surface.s_w cur) (Surface.s_h cur).
Definition redraws (d : differ) (cur : Surface.surface) : bool :=
  negb (if same_size d cur then d_valid d else false).

Lemma kept_ok d cur :
  Surface.surface_ok cur -> Surface.surface_ok (d_prev d) ->
  Surface.surface_ok (kept d cur) /\ Surface.s_w (kept d cur) = Surface.s_w cur /\ Surface.s_h (kept d cur) = Surface.s_h cur.
Proof.
  intros (Hw & Hh & _) Hok. unfold kept, same_size. destruct (_ && _) eqn:E.
  - zbool. done.
  - split; [apply Surface.surface_new_pairs|]. cbn. lia.
Qed.

(** After the body, the page shows the surface. *)
Lemma body_shows d pt cur :
  drawable cur -> expects d pt (Surface.s_w cur) (Surface.s_h cur) ->
  let st := paint_rows (d_profile d) cur (kept d cur) (redraws d cur) in
  let pt2 := emu_feed amb (emu_feed amb pt opening) (body st) in
  held (d_profile d) cur (cursor_mode false (e_modes pt.2)) st pt2 /\ shows (d_profile d) cur pt2.2 /\
  (body st = [] -> shows (d_profile d) cur pt.2).
Proof.
  intros Hcur (Hr & Hp & Hok & Hc & Hrw & Hval). cbv zeta.
  destruct (opening_held (d_profile d) cur pt Hr Hp Hc Hrw) as [Hh1 Hat].
  set (pt1 := emu_feed amb pt opening) in *.
  destruct (paint_rows_advance (d_profile d) cur Hcur (kept d cur) (redraws d cur)) as (bs & Eb & Hadv).
  cbn [body paint_new app] in Eb. rewrite Eb in *. destruct (Hadv _ pt1 Hh1) as [Hh2 Hright].
  assert (shows (d_profile d) cur (emu_feed amb pt1 bs).2) as Hs.
  2:{ split_and!; try done. intros ->. rewrite emu_feed_nil in Hs. intros x y. rewrite <- Hat. apply Hs. }
  intros x y. destruct (decide (0 <= x < Surface.s_w cur /\ 0 <= y < Surface.s_h cur)) as [Hin|Hout].
  - apply Hright. destruct (differs cur (kept d cur) (redraws d cur) x y) eqn:Ed; [by right|left].
    unfold differs in Ed. apply orb_false_iff in Ed as [Ef Ed]. unfold redraws in Ef. unfold kept in Ed.
    destruct (same_size d cur) eqn:Es; [|done]. unfold same_size in Es. zbool.
    apply bool_decide_eq_true in Ed. unfold right. rewrite Hat, Ed. by apply Hval.
  - rewrite Surface.cell_at_outside by done. destruct Hh2 as (_ & _ & _ & Ec & Er & _).
    rewrite at_outside by (unfold cursor_in; lia). apply shows_blank.
Qed.

Lemma frame_step d pt cur cursor :
  drawable cur -> cursor_ok cur cursor -> expects d pt (Surface.s_w cur) (Surface.s_h cur) ->
  let '(out, d') := frame d cur cursor in
  let pt' := emu_feed amb pt out in
  in_sync d' pt' /\ presents (d_profile d) cur cursor pt'.2 /\ d_profile d' = d_profile d.
Proof.
  intros Hcur Hcu Hexp. destruct (body_shows d pt cur Hcur Hexp) as (Hh & Hs & Hsil).
  destruct Hexp as (Hr & Hp & Hok & Hc & Hrw & Hval).
  destruct (kept_ok d cur (proj1 Hcur) Hok) as (K1 & K2 & K3). unfold frame. cbv zeta.
  fold (same_size d cur). fold (kept d cur). fold (redraws d cur).
  set (st := paint_rows (d_profile d) cur (kept d cur) (redraws d cur)) in *.
  set (target := default (Pos 0 0) cursor). set (shown := match cursor with Some _ => true | None => false end).
  set (changed := d_first d || _ || _).
  destruct (negb (any st) && negb (redraws d cur) && negb changed) eqn:Equiet.
  - (* nothing to say *)
    apply andb_true_iff in Equiet as [Equiet Ech]. apply andb_true_iff in Equiet as [Eany Efull].
    apply negb_true_iff in Eany, Efull, Ech. rewrite emu_feed_nil.
    assert (body st = []) as Eb.
    { destruct (paint_rows_marked (d_profile d) cur (kept d cur) (redraws d cur)) as [E|E]; fold st in E;
        [by rewrite E|congruence]. }
    specialize (Hsil Eb). unfold redraws in Efull. destruct (same_size d cur) eqn:Es; [|done].
    apply negb_false_iff in Efull. unfold kept in *. rewrite Es in *. destruct (Hval Efull K2 K3) as (Hv & Ecx & Ecy & Evis).
    subst changed. apply orb_false_iff in Ech as [Ech Esh]. apply orb_false_iff in Ech as [_ Epos]. zbool.
    apply eqb_prop in Esh. unfold in_sync, expects, presents. cbn [d_profile d_prev d_valid d_target d_shown].
    rewrite Hc, Hrw. subst target shown. split_and!; try done; destruct cursor as [p|]; cbn in *; try done; try split; congruence.
  - assert (in_cur cur (px target) (py target)) as Htgt.
    { destruct cursor as [p|]; [done|]. destruct Hcur as (_ & _ & ? & ? & _). split; cbn; lia. }
    pose proof (closing_shows (d_profile d) cur _ st _ (px target) (py target) shown Hcur Hh Htgt eq_refl) as Hcl.
    cbv zeta in Hcl. rewrite <- !emu_feed_app in Hcl. rewrite <- emu_feed_app in Hs, Hh.
    replace (27 :: str "[?25l" ++ 27 :: str "[0m" ++ body st ++ cup (px target) (py target) ++ (if shown then 27 :: str "[?25h" else []))
      with (opening ++ body st ++ cup (px target) (py target) ++ (if shown then 27 :: str "[?25h" else []))
      by (unfold opening; cbn; by rewrite <- ?app_assoc).
    destruct Hcl as (C1 & C2 & C3 & C4 & C5 & C6 & C7 & C8).
    set (pt' := emu_feed amb pt (opening ++ body st ++ cup (px target) (py target) ++ _)) in *. destruct Hh as (_ & _ & _ & Ec & Er & _).
    destruct (copy_cells_spec cur (kept d cur) K1 K2 K3) as (P1 & P2 & P3 & P4).
    assert (shows (d_profile d) cur pt'.2) as Hsh by (intros x y; rewrite C3; apply Hs).
    assert (shows (d_profile d) (copy_cells cur (kept d cur)) pt'.2) as Hsp by (intros x y; rewrite P4; apply Hsh).
    unfold in_sync, expects, presents. cbn [d_profile d_prev d_valid d_target d_shown].
    split_and!; try done; try congruence. { intros _. split; congruence. } by destruct cursor.
Qed.

(** ** A session of frames *)

(** A frame, on a terminal that has taken the size of the surface. *)
Definition present (x : differ * (parser * emu)) (f : Surface.surface * option pos) : differ * (parser * emu) :=
  let pt := (x.2.1, on_screen x.2.2 (fun s => resize s (Surface.s_w f.1) (Surface.s_h f.1))) in
  let '(out, d) := frame x.1 f.1 f.2 in (d, emu_feed amb pt out).

Lemma resize_same s w h : 1 <= w -> 1 <= h -> cols s = w -> rows s = h -> resize s w h = s.
Proof.
  intros Hw Hh <- <-. unfold resize. rewrite !Z.max_r by done. by rewrite !Z.eqb_refl.
Qed.

Lemma resize_dims s w h : 1 <= w -> 1 <= h -> cols (resize s w h) = w /\ rows (resize s w h) = h.
Proof.
  intros Hw Hh. unfold resize. rewrite !Z.max_r by done. destruct (_ && _) eqn:E; [|done]. by zbool.
Qed.

Lemma resize_charset s w h : cur_charset (resize s w h) = cur_charset s.
Proof. unfold resize. cbv zeta. by destruct (_ && _). Qed.

Lemma resized_expects d pt w h :
  1 <= w -> 1 <= h -> in_sync d pt ->
  expects d (pt.1, on_screen pt.2 (fun s => resize s w h)) w h.
Proof.
  intros Hw Hh [(Hr & (Hg & Hwd & Hf & Hcs) & Hok & _ & _ & Hval) Hdim].
  destruct (resize_dims (e_screen pt.2) w h Hw Hh) as [D1 D2].
  destruct (resize_flags (e_screen pt.2) w h) as [F1 F2].
  unfold expects, page_ready, flags_ok.
  cbn [fst snd on_screen with_screen e_screen e_modes]. rewrite F1, F2, resize_charset. split_and!; try done; try apply Hf.
  - by apply geometry_resize.
  - by apply wide_resize.
  - intros Hv E1 E2. destruct (Hdim Hv) as [E3 E4]. unfold shows.
    cbn [on_screen with_screen e_screen e_modes]. rewrite resize_same by congruence. by apply Hval.
Qed.

Definition frame_ok (f : Surface.surface * option pos) : Prop := drawable f.1 /\ cursor_ok f.1 f.2.

Lemma present_step x f :
  frame_ok f -> in_sync x.1 x.2 ->
  let y := present x f in
  in_sync y.1 y.2 /\ presents (d_profile x.1) f.1 f.2 y.2.2 /\ d_profile y.1 = d_profile x.1.
Proof.
  intros [Hd Hc] Hs. destruct f as [cur cursor], x as [d pt]. cbn [fst snd] in *. unfold present. cbn [fst snd].
  assert (1 <= Surface.s_w cur /\ 1 <= Surface.s_h cur) as [Hw Hh] by (destruct Hd as (_ & _ & ? & ? & _); lia).
  pose proof (frame_step d _ cur cursor Hd Hc (resized_expects d pt _ _ Hw Hh Hs)) as H.
  by destruct (frame d cur cursor) as [out d'].
Qed.

Lemma present_run fs x :
  Forall frame_ok fs -> in_sync x.1 x.2 ->
  let y := fold_left present fs x in in_sync y.1 y.2 /\ d_profile y.1 = d_profile x.1.
Proof.
  intros Hfs. revert x. induction Hfs as [|f fs Hf _ IH]; intros x Hs; [done|]. cbn [fold_left].
  destruct (present_step x f Hf Hs) as (H1 & _ & H3). rewrite <- H3. by apply IH.
Qed.

Lemma start_in_sync prof capacity : in_sync (differ_new prof) (parser_init, emu_new capacity).
Proof.
  unfold in_sync, expects, page_ready. cbn -[geometry_ok wide_ok flags_ok ready Surface.surface_ok]. split; [|done].
  split_and!; try done.
  - split; [done|apply parser_init_ok].
  - apply geometry_with_sb; [apply geometry_new|apply scrollback_new_ok].
  - split; [|done]. apply (pairs_page (screen_new 80 24)). by apply pairs_blank.
Qed.

(** The page of the client is the desktop.  From a new terminal and a new
    differ, whatever desktops are drawn one after the other and whatever sizes the
    terminal takes between two of them, after each frame the emulator fed with the
    bytes written shows every cell of the surface -- its character, its width and
    its style as that depth of colour shows it -- and its cursor where and as the
    frame asked. *)
Lemma page_shows_desktop prof capacity fs f :
  Forall frame_ok fs -> frame_ok f ->
  let y := fold_left present (fs ++ [f]) (differ_new prof, (parser_init, emu_new capacity)) in
  presents prof f.1 f.2 y.2.2.
Proof.
  intros Hfs Hf. cbv zeta. rewrite fold_left_app. cbn [fold_left].
  destruct (present_run fs (differ_new prof, (parser_init, emu_new capacity)) Hfs (start_in_sync prof capacity)) as [H1 H2].
  destruct (present_step _ f Hf H1) as (_ & H3 & _). by rewrite H2 in H3.
Qed.

(** ** Silence *)

Lemma row_loop_same prof cur prev fuel ce y x st :
  (forall x y, Surface.at_ cur x y = Surface.at_ prev x y) -> row_loop prof cur prev false fuel ce y x st = st.
Proof.
  intros H. revert x. induction fuel as [|fuel IH]; intros x; cbn [row_loop]; [done|].
  destruct (_ <=? _); [done|]. unfold differs. rewrite H, bool_decide_true by done. apply IH.
Qed.

Lemma paint_rows_same prof cur prev :
  (forall x y, Surface.at_ cur x y = Surface.at_ prev x y) -> paint_rows prof cur prev false = paint_new.
Proof.
  intros H. unfold paint_rows. induction (Surface.range 0 (Surface.s_h cur)) as [|y l IH]; [done|]. cbn [fold_left].
  assert (forall st, paint_row prof cur prev false st y = st) as ->; [|done].
  intros st. unfold paint_row. cbv zeta. rewrite !row_loop_same by done. destruct (_ <=? _); [|done].
  unfold erase_tail. assert (forall l, existsb (fun c => negb (bool_decide (Surface.at_ cur c y = Surface.at_ prev c y))) l = false) as ->;
    [|done].
  intros l'. induction l' as [|c l' IHl]; [done|]. cbn. by rewrite H, bool_decide_true.
Qed.

(** C34: a desktop at rest is silent.  After any frame, a second one of the same
    surface and the same cursor writes no byte and leaves the differ as it is. *)
Theorem idle_desktop_is_silent d cur cursor :
  Surface.surface_ok (d_prev d) -> Surface.surface_ok cur ->
  let d' := (frame d cur cursor).2 in frame d' cur cursor = ([], d').
Proof.
  intros Hok Hcur. cbv zeta.
  set (d' := (frame d cur cursor).2).
  assert (Surface.s_w (d_prev d') = Surface.s_w cur /\ Surface.s_h (d_prev d') = Surface.s_h cur /\
    d_valid d' = true /\ d_first d' = false /\ d_target d' = default (Pos 0 0) cursor /\
    d_shown d' = (match cursor with Some _ => true | None => false end) /\
    any (paint_rows (d_profile d') cur (d_prev d') false) = false) as (E1 & E2 & E3 & E4 & E5 & E6 & E7).
  2:{ destruct d' as [p' pr' va' ta' sh' fi']. cbn [d_prev d_valid d_first d_target d_shown d_profile] in *.
      unfold frame. cbn [d_prev d_valid d_first d_target d_shown d_profile]. rewrite E1, E2, !Z.eqb_refl. cbn [andb].
      subst. cbv zeta. cbn [negb]. rewrite E7. by rewrite !Z.eqb_refl, eqb_reflx. }
  destruct (kept_ok d cur Hcur Hok) as (K1 & K2 & K3). subst d'. unfold frame. cbv zeta.
  fold (same_size d cur). fold (kept d cur). fold (redraws d cur).
  set (target := default (Pos 0 0) cursor). set (shown := match cursor with Some _ => true | None => false end).
  destruct (negb (any _) && _ && _) eqn:Eq.
  - apply andb_true_iff in Eq as [Eq Ech]. apply andb_true_iff in Eq as [Eany Efull]. zbool.
    apply eqb_prop in H0. rewrite Efull in Eany.
    cbn [snd d_prev d_valid d_first d_target d_shown d_profile]. split_and!; try done.
    + unfold redraws in Efull. by destruct (if same_size d cur then _ else _).
    + destruct (d_target d), target. cbn in *. congruence.
  - cbn [snd d_prev d_valid d_first d_target d_shown d_profile].
    destruct (copy_cells_spec cur (kept d cur) K1 K2 K3) as (P1 & P2 & P3 & P4). split_and!; try done.
    by rewrite paint_rows_same.
Qed.
End Frames.

Lemma idle_desktop_is_silent_witness :
  let p := OutputProfile TrueColor true in
  let s := Surface.fill (Surface.root (Surface.resize 9 3)) (Surface.resize 9 3) (Rect 1 1 4 1) (Style CDefault (CIndexed 2) Bold) in
  let d := (frame (differ_new p) s (Some (Pos 2 1))).2 in frame d s (Some (Pos 2 1)) = ([], d).
Proof.
  intros p s. apply (idle_desktop_is_silent (differ_new p) s (Some (Pos 2 1)));
    (split_and!; [by vm_compute..|by vm_compute]).
Defined.
