(* ===== verification/Desktop.v ===== *)
(** * From drawing to the page: [src/render/surface.cpp], [src/render/diff.cpp], [src/vt]

    What the drawing primitives write in a cell is always a character the differ
    can send and an emulator shows at the width written; so what was drawn is what
    the client's page shows. *)

From S2P Require Import Prelude RowPairs Utf8 Cell Width VtParser Profile Surface Differ.
From S2P Require Screen Emulator Frames.

(** A character put is one, a style is one of the program; a text is any string. *)
Fixpoint op_ok (o : draw_op) : Prop :=
  match o with
  | DrawPut _ _ ch st => scalar ch /\ style_ok st
  | DrawText _ _ _ st => style_ok st
  | DrawFill _ st => style_ok st
  | DrawBox _ _ st => style_ok st
  | DrawSub _ ops => List.fold_right (fun o P => op_ok o /\ P) True ops
  end.

Section Desktop.
Context (amb : bool).

Definition cell_fit (c : cell) : Prop :=
  width c <> 0 -> VtParser.printable (ch c) /\ char_width amb (ch c) = width c /\ style_ok (style_of c).

(** A surface whose every cell is one of them. *)
Definition fit (s : surface) : Prop := surface_ok s /\ forall x y, cell_fit (at_ s x y).

Lemma default_fit : cell_fit cell_default.
Proof. intros _. split; [done|]. split; [|done]. by destruct amb; vm_compute. Qed.

Lemma fit_set s x y c : fit s -> cell_fit c -> fit (set_at s x y c).
Proof.
  intros [Hok Hs] Hc. split; [by apply set_at_ok|]. intros x' y'. rewrite cell_at_set by done. by case_bool_decide.
Qed.

Lemma fit_cleanup s x y : fit s -> fit (cleanup_orphan s x y).
Proof.
  intros Hs. unfold cleanup_orphan. cbv zeta. destruct (_ && _); destruct (_ && _);
    repeat (apply fit_set; [|apply default_fit]); done.
Qed.

Lemma width_printable ch : scalar ch -> char_width amb ch <> 0 -> VtParser.printable ch.
Proof.
  intros Hs Hw. unfold char_width in Hw. destruct (_ || _) eqn:E; [done|]. apply orb_false_iff in E as [E1 E2].
  zbool. split_and!; [done|done|]. intros ->. done.
Qed.

Lemma fit_put v s x y ch st : scalar ch -> style_ok st -> fit s -> fit (put amb v s x y ch st).
Proof.
  intros Hch Hst Hs. unfold put. destruct (map v s x y) as [[ox oy]|]; [|done]. cbv zeta.
  destruct (Z.eqb_spec (char_width amb ch) 0) as [|Hw]; [done|]. destruct (_ && _); [done|].
  assert (cell_fit (Cell ch (fg st) (bg st) (attrs st) (char_width amb ch))) as Hc.
  { intros _. split; [by apply width_printable|]. split; [done|by destruct st]. }
  destruct (_ =? 2).
  - apply fit_set; [|done]. apply fit_set; [|done]. by apply fit_cleanup, fit_cleanup.
  - apply fit_set; [|done]. by apply fit_cleanup.
Qed.

Lemma fit_fold {B} (f : surface -> B -> surface) l s : (forall s x, fit s -> fit (f s x)) -> fit s -> fit (fold_left f l s).
Proof. intros Hf. revert s. induction l as [|x l IH]; intros s Hs; [done|]. cbn [fold_left]. by apply IH, Hf. Qed.

Lemma fit_text v s x y utf8 st : style_ok st -> fit s -> fit (text amb v s x y utf8 st).1.
Proof.
  intros Hst Hs. unfold text.
  assert (forall fuel s col i, fit s -> fit (text_from amb fuel v s col y utf8 i st).1) as H.
  { clear s Hs. induction fuel as [|fuel IH]; intros s col i Hs; [done|]. cbn [text_from].
    destruct (Nat.ltb_spec i (length utf8)) as [Hi|]; [|done]. pose proof (utf8_decode_scalar utf8 i Hi) as Hsc.
    destruct (utf8_decode utf8 i) as [used cp]. cbv zeta. cbn [snd] in Hsc.
    destruct (_ =? 0); [by apply IH|]. destruct (_ <? _); [done|]. by apply IH, fit_put. }
  specialize (H (length utf8) s x 0%nat Hs). by destruct (text_from _ _ _ _ _ _ _ _ _).
Qed.

Lemma fit_fill v s r st : style_ok st -> fit s -> fit (fill v s r st).
Proof.
  intros Hst Hs. unfold fill. apply fit_fold; [|done]. intros s1 y H1. apply fit_fold; [|done]. intros s2 x H2.
  unfold fill_cell. destruct (map v s2 x y) as [[ox oy]|]; [|done]. apply fit_set; [by apply fit_cleanup|].
  intros _. split; [done|]. split; [|by destruct st]. cbn [ch width]. by apply default_fit.
Qed.

Lemma fit_box v s r b st : style_ok st -> fit s -> fit (box amb v s r b st).
Proof.
  intros Hst Hs. unfold box. destruct (_ || _); [done|]. cbv zeta.
  assert (forall s x y (u : bool) a b, scalar a -> scalar b -> fit s -> fit (put amb v s x y (if u then a else b) st)) as Hp
    by (intros ??? [] ????; by apply fit_put).
  destruct (rh r =? 1); [apply fit_fold; [|done]; intros; by apply Hp|].
  destruct (rw r =? 1); [apply fit_fold; [|done]; intros; by apply Hp|].
  repeat (apply Hp; [done..|]). apply fit_fold.
  { intros. by repeat (apply Hp; [done..|]). }
  apply fit_fold; [|done]. intros. by repeat (apply Hp; [done..|]).
Qed.

Fixpoint fit_draw (o : draw_op) : forall v s, op_ok o -> fit s -> fit (draw amb v s o).
Proof.
  destruct o as [x y ch st|x y utf8 st|r st|r b st|r ops]; intros v s Ho Hs; cbn [draw op_ok] in *.
  - destruct Ho. by apply fit_put.
  - by apply fit_text.
  - by apply fit_fill.
  - by apply fit_box.
  - revert s Hs. induction ops as [|o ops IH]; intros s Hs; [done|]. destruct Ho as [Ho Hops]. cbn [fold_left].
    apply IH; [done|]. by apply fit_draw.
Qed.

Lemma fit_new w h : fit (resize w h).
Proof.
  split; [apply surface_new_pairs|]. intros x y. unfold at_, resize. cbn.
  destruct (in_surface _ x y); [|apply default_fit].
  destruct (_ !! _) as [c|] eqn:E; [|apply default_fit]. apply lookup_replicate_1 in E as [-> _]. apply default_fit.
Qed.

Lemma draw_dims v ops s :
  surface_ok s -> surface_pairs s ->
  s_w (fold_left (draw amb v) ops s) = s_w s /\ s_h (fold_left (draw amb v) ops s) = s_h s.
Proof.
  intros Hok Hp.
  assert (rtc (write1 v) s (fold_left (draw amb v) ops s)) as H by (apply fold_writes; intros; apply draw_writes).
  induction H as [|s1 s2 s3 Hs _ IH]; [done|].
  destruct (write1_keeps _ _ _ Hs Hok Hp) as (Hok2 & Hp2 & <- & <-). by apply IH.
Qed.

(** ** A desktop is drawn, then presented *)

(** A frame as the compositor makes it: the size of the client's terminal, what is
    drawn on the root view of a blank surface of that size, the cursor. *)
Record scene := Scene { sc_w : Z; sc_h : Z; sc_ops : list draw_op; sc_cursor : option pos }.

Definition scene_surface (c : scene) : surface :=
  let s := resize (sc_w c) (sc_h c) in fold_left (draw amb (root s)) (sc_ops c) s.

Definition scene_ok (c : scene) : Prop :=
  1 <= sc_w c <= 65535 /\ 1 <= sc_h c <= 65535 /\ Forall op_ok (sc_ops c) /\
  match sc_cursor c with Some p => 0 <= px p < sc_w c /\ 0 <= py p < sc_h c | None => True end.

Definition scene_frame (c : scene) : surface * option pos := (scene_surface c, sc_cursor c).

Lemma scene_frame_ok c : scene_ok c -> Frames.frame_ok amb (scene_frame c).
Proof.
  intros (Hw & Hh & Hops & Hcu). unfold scene_frame, scene_surface, Frames.frame_ok. cbn [fst snd].
  destruct (surface_new_pairs (sc_w c) (sc_h c)) as [Hok Hp].
  destruct (draw_dims (root (resize (sc_w c) (sc_h c))) (sc_ops c) _ Hok Hp) as [D1 D2].
  destruct (draw_keeps amb (root (resize (sc_w c) (sc_h c))) _ (sc_ops c) Hok Hp) as [Hok' Hp'].
  cbv zeta. set (s := fold_left _ _ _) in *. cbn [resize s_w s_h] in D1, D2.
  assert (fit s) as [_ Hfit].
  { subst s. generalize (root (resize (sc_w c) (sc_h c))) as v. intros v. generalize (fit_new (sc_w c) (sc_h c)).
    generalize (resize (sc_w c) (sc_h c)). clear -Hops. induction Hops as [|o l Ho _ IH]; intros s Hs; [done|].
    cbn [fold_left]. by apply IH, fit_draw. }
  split; [unfold Frames.drawable; rewrite D1, D2; split_and!; try done; lia|].
  unfold Frames.cursor_ok, Frames.in_cur. rewrite D1, D2. destruct (sc_cursor c); [|done]. lia.
Qed.

(** C2: what is drawn is what the client's page shows.  From a new terminal and a new
    differ, whatever is drawn frame after frame with the surface's primitives -- any
    text, any box, clipped views, wide characters cut by an edge -- and whatever size
    the terminal takes between two frames, the bytes written leave on the page of this
    program's own emulator every cell of the last surface: its character, its width,
    its style as that depth of colour shows it; and the cursor where and as asked. *)
Theorem drawn_desktop_is_shown prof capacity scenes last :
  Forall scene_ok scenes -> scene_ok last ->
  let start := (differ_new prof, (parser_init, Emulator.emu_new capacity)) in
  let y := fold_left (Frames.present amb) (scene_frame <$> (scenes ++ [last])) start in
  Frames.presents prof (scene_surface last) (sc_cursor last) y.2.2.
Proof.
  intros Hs Hl. rewrite fmap_app. apply (Frames.page_shows_desktop amb prof capacity (scene_frame <$> scenes) (scene_frame last)).
  - apply Forall_fmap. eapply Forall_impl; [|exact Hs]. apply scene_frame_ok.
  - by apply scene_frame_ok.
Qed.
End Desktop.

Lemma drawn_desktop_is_shown_witness :
  let p := OutputProfile Indexed256 true in
  let ink := Style (CRgb 250 10 10) (CIndexed 4) Bold in
  let s1 := Scene 20 5 [DrawText 1 1 (encode_text [0x4E2D; 97; 233]) ink; DrawBox (Rect 0 0 9 4) BorderUnicode style_default] None in
  let s2 := Scene 12 4 [DrawFill (Rect 2 1 30 2) ink; DrawSub (Rect 3 1 4 2) [DrawText 0 0 (str "clipped") ink]] (Some (Pos 3 2)) in
  let start := (differ_new p, (parser_init, Emulator.emu_new 10)) in
  Frames.presents p (scene_surface false s2) (Some (Pos 3 2))
    (fold_left (Frames.present false) (scene_frame false <$> [s1; s2]) start).2.2.
Proof.
  intros p ink s1 s2 start.
  apply (drawn_desktop_is_shown false p 10 [s1] s2).
  - repeat constructor; by vm_compute.
  - repeat constructor; by vm_compute.
Defined.
