(* ===== verification/Theme.v ===== *)
(** * Palettes and gauges: [src/render/theme.cpp], [src/render/gauge.cpp]

    The three palettes of the desktop, and the distinctions each keeps once its
    colours are reduced to what the terminal shows. *)

From S2P Require Import Prelude Cell Profile Surface.

Record theme := Theme {
  desktop_bg : color;
  desktop_sign : color;
  panel_bg : color;
  panel_fg : color;
  accent : color;
  title_focus_bg : color;
  title_focus_fg : color;
  title_blur_bg : color;
  title_blur_fg : color;
  border_focus : color;
  border_blur : color;
  modal_bg : color;
  modal_fg : color;
}.

Definition defaults : theme :=
  Theme (CRgb 0x20 0x30 0x50) (CRgb 0x2c 0x40 0x68) (CRgb 0x0c 0x0e 0x14) (CRgb 0xc8 0xd0 0xdc)
    (CRgb 0x4a 0x9e 0xff) (CRgb 0x1e 0x5a 0xa8) (CRgb 0xff 0xff 0xff) (CRgb 0x2c 0x32 0x40)
    (CRgb 0x9a 0xa4 0xb4) (CRgb 0x4a 0x9e 0xff) (CRgb 0x50 0x58 0x68) (CRgb 0x28 0x2e 0x3c)
    (CRgb 0xf0 0xf4 0xfa).

Definition indexed256 : theme :=
  Theme (CIndexed 17) (CIndexed 18) (CIndexed 234) (CIndexed 252) (CIndexed 75) (CIndexed 25)
    (CIndexed 231) (CIndexed 238) (CIndexed 145) (CIndexed 75) (CIndexed 240) (CIndexed 236)
    (CIndexed 255).

Definition mono16 : theme :=
  Theme (CIndexed 4) (CIndexed 12) (CIndexed 0) (CIndexed 7) (CIndexed 6) (CIndexed 6)
    (CIndexed 0) (CIndexed 0) (CIndexed 7) (CIndexed 7) (CIndexed 4) (CIndexed 7) (CIndexed 0).

Definition for_profile (t : theme) (p : output_profile) : theme :=
  match depth p with
  | TrueColor => t
  | Indexed256 => indexed256
  | Mono16 => mono16
  end.

(** [gauge_bar]: [width] marks, the first of them full. *)
Definition gauge_bar (percent width : Z) (b : border) : bytes :=
  let full := match b with BorderUnicode => [0xE2; 0x96; 0x88] | BorderAscii => str "#" end in
  let empty := match b with BorderUnicode => [0xE2; 0x96; 0x91] | BorderAscii => str "-" end in
  let filled := Z.quot (width * Z.min (Z.max percent 0) 100) 100 in
  concat ((fun i => if i <? filled then full else empty) <$> range 0 width).

(** ** What one must be able to tell apart *)

(** As shown at the depth of the profile. *)
Definition distinct_on (p : output_profile) (a b : color) : bool :=
  negb (bool_decide (quantize_color a (depth p) = quantize_color b (depth p))).

Definition readable (p : output_profile) (t : theme) : bool :=
  distinct_on p (panel_fg t) (panel_bg t) && distinct_on p (modal_fg t) (modal_bg t) &&
  distinct_on p (title_focus_fg t) (title_focus_bg t) && distinct_on p (title_blur_fg t) (title_blur_bg t) &&
  distinct_on p (title_focus_bg t) (title_blur_bg t) && distinct_on p (border_focus t) (border_blur t) &&
  distinct_on p (panel_bg t) (desktop_bg t) && distinct_on p (modal_bg t) (panel_bg t) &&
  distinct_on p (modal_bg t) (desktop_bg t) && distinct_on p (border_focus t) (panel_bg t) &&
  distinct_on p (border_blur t) (panel_bg t) && distinct_on p (accent t) (panel_bg t).

(** On every depth the palette of the profile keeps every text off its
    background, the focused window off the others, and the layers apart. *)
Lemma theme_readable d u : readable (OutputProfile d u) (for_profile defaults (OutputProfile d u)) = true.
Proof. by destruct d; vm_compute. Qed.

(** The signature of the desktop, on the other hand, vanishes in 16 colours: its
    bright blue is reduced to the blue of the desktop. *)
Lemma desktop_sign_vanishes u :
  let p := OutputProfile Mono16 u in
  distinct_on p (desktop_sign (for_profile defaults p)) (desktop_bg (for_profile defaults p)) = false.
Proof. by vm_compute. Qed.
