(* ===== verification/Tile.v ===== *)
(** * Tiling and anchoring: [src/wm/tile.hpp], [src/wm/tile.cpp]

    The grid in columns, the halves of the work area, and the theorem that both
    cover the area they are given exactly. *)

From S2P Require Import Prelude Cell.

(** [while (c * c < n) ++c]; [fuel] bounds the turns. *)
Fixpoint columns_from (fuel : nat) (c n : Z) : Z :=
  match fuel with
  | O => c
  | S fuel => if c * c <? n then columns_from fuel (c + 1) n else c
  end.

Definition columns_for (n : Z) : Z := columns_from (Z.to_nat n) 1 n.

Definition split (total parts : Z) : list Z :=
  if parts <=? 0 then []
  else
    let base := Z.quot total parts in
    let extra := Z.rem total parts in
    (fun i => Z.max 1 (base + (if Z.of_nat i <? extra then 1 else 0))) <$> seq 0 (Z.to_nat parts).

(** The inner loop: one column, from the top. *)
Fixpoint tile_column (x y w : Z) (heights : list Z) : list rect :=
  match heights with
  | [] => []
  | h :: hs => Rect x y w h :: tile_column x (y + h) w hs
  end.

(** The outer loop, over the widths and the number of rows of each column. *)
Fixpoint tile_columns (work : rect) (x : Z) (columns : list (Z * Z)) : list rect :=
  match columns with
  | [] => []
  | (w, rows) :: cs =>
      tile_column x (ry work) w (split (rh work) rows) ++ tile_columns work (x + w) cs
  end.

Definition tile_rects (work : rect) (count : Z) : list rect :=
  if (count <=? 0) || (rw work <=? 0) || (rh work <=? 0) then []
  else
    let cols := columns_for count in
    let rows_per_col := split count cols in
    let widths := split (rw work) cols in
    tile_columns work (rx work) (zip widths rows_per_col).

Inductive snap_dir := SnapLeft | SnapRight | SnapUp | SnapDown.

Definition snap_rect (work : rect) (d : snap_dir) : rect :=
  let w1 := rw work - Z.quot (rw work) 2 in
  let h1 := rh work - Z.quot (rh work) 2 in
  match d with
  | SnapLeft => Rect (rx work) (ry work) w1 (rh work)
  | SnapRight => Rect (rx work + w1) (ry work) (rw work - w1) (rh work)
  | SnapUp => Rect (rx work) (ry work) (rw work) h1
  | SnapDown => Rect (rx work) (ry work + h1) (rw work) (rh work - h1)
  end.

Definition snap_opposite (work : rect) (d : snap_dir) : rect :=
  match d with
  | SnapLeft => snap_rect work SnapRight
  | SnapRight => snap_rect work SnapLeft
  | SnapUp => snap_rect work SnapDown
  | SnapDown => snap_rect work SnapUp
  end.

(** ** Sums and covers *)

Definition sum (l : list Z) : Z := fold_right Z.add 0 l.

Lemma sum_app a b : sum (a ++ b) = sum a + sum b.
Proof. unfold sum. induction a as [|x a IH]; cbn; [done|]. rewrite IH. lia. Qed.

(** How many of the rectangles hold a cell. *)
Fixpoint covers (l : list rect) (x y : Z) : nat :=
  match l with
  | [] => 0
  | r :: l => (if contains r x y then 1 else 0) + covers l x y
  end.

Lemma covers_app a b x y : covers (a ++ b) x y = (covers a x y + covers b x y)%nat.
Proof. induction a as [|r a IH]; [done|]. cbn. rewrite IH. lia. Qed.

Lemma columns_from_spec fuel c n :
  1 <= c -> c <= Z.max 1 n -> n - c < Z.of_nat fuel -> (c - 1) * (c - 1) < n ->
  let k := columns_from fuel c n in c <= k <= Z.max 1 n /\ n <= k * k /\ (k - 1) * (k - 1) < n.
Proof.
  revert c. induction fuel as [|fuel IH]; intros c Hc Hn Hf Hlt.
  - cbn [columns_from]. nia.
  - cbn [columns_from]. destruct (Z.ltb_spec (c * c) n) as [E|E].
    + specialize (IH (c + 1) ltac:(lia) ltac:(nia) ltac:(lia) ltac:(nia)). cbv zeta in *. lia.
    + lia.
Qed.

(** The number of columns is the square root, rounded up. *)
Lemma columns_for_spec n :
  1 <= n -> 1 <= columns_for n <= n /\ n <= columns_for n * columns_for n /\
    (columns_for n - 1) * (columns_for n - 1) < n.
Proof.
  intros Hn. pose proof (columns_from_spec (Z.to_nat n) 1 n ltac:(lia) ltac:(lia) ltac:(lia) ltac:(lia)).
  cbv zeta in *. fold (columns_for n) in *. lia.
Qed.

Lemma length_split total parts : length (split total parts) = Z.to_nat parts.
Proof.
  unfold split. destruct (Z.leb_spec parts 0); [cbn; lia|]. cbv zeta. by rewrite length_fmap, length_seq.
Qed.

Lemma split_pos total parts : Forall (fun v => 1 <= v) (split total parts).
Proof.
  unfold split. destruct (parts <=? 0); [constructor|]. cbv zeta.
  apply Forall_fmap, Forall_forall. intros i _. cbn. lia.
Qed.

Lemma sum_shares base extra n i0 :
  0 <= base -> 0 <= extra ->
  sum ((fun i => base + (if Z.of_nat i <? extra then 1 else 0)) <$> seq i0 n)
  = base * Z.of_nat n + Z.max 0 (Z.min (Z.of_nat i0 + Z.of_nat n) extra - Z.of_nat i0).
Proof.
  intros Hb He. revert i0. induction n as [|n IH]; intros i0; [cbn; lia|].
  cbn [seq fmap list_fmap]. change (sum (?a :: ?l)) with (a + sum l). rewrite IH.
  destruct (Z.ltb_spec (Z.of_nat i0) extra); lia.
Qed.

Lemma split_at_least total parts :
  1 <= parts -> parts <= total -> sum (split total parts) = total.
Proof.
  intros Hp Ht. unfold split. zrw_false (parts <=? 0). cbv zeta.
  rewrite Z.quot_div_nonneg, Z.rem_mod_nonneg by lia.
  pose proof (Z.div_mod total parts ltac:(lia)). pose proof (Z.mod_pos_bound total parts ltac:(lia)).
  assert (1 <= total / parts) by (apply Z.div_le_lower_bound; lia).
  rewrite (list_fmap_ext _ (fun i => total / parts + (if Z.of_nat i <? total mod parts then 1 else 0))).
  - rewrite sum_shares by lia. nia.
  - intros i k _. cbn. destruct (_ <? _); lia.
Qed.

(** Shares differ by one at most, and the larger come first. *)
Lemma split_shares total parts i v :
  0 <= total -> split total parts !! i = Some v ->
  v = Z.max 1 (total / parts + (if Z.of_nat i <? total mod parts then 1 else 0)).
Proof.
  intros Ht. unfold split. destruct (Z.leb_spec parts 0); [done|]. cbv zeta.
  intros H'. apply list_lookup_fmap_Some in H' as (k & -> & Hk).
  apply lookup_seq in Hk as [-> _]. by rewrite Z.quot_div_nonneg, Z.rem_mod_nonneg, Nat.add_0_l by lia.
Qed.

Lemma length_tile_column x y w hs : length (tile_column x y w hs) = length hs.
Proof. revert y. induction hs as [|h hs IH]; intros y; [done|]. cbn. by rewrite IH. Qed.

(** A test of membership in an interval, cut in two. *)
Lemma interval_split a b c p : a <= b <= c ->
  (if (a <=? p) && (p <? c) then 1%nat else 0%nat)
  = ((if ((a <=? p) && (p <? b))%Z then 1 else 0) + (if ((b <=? p) && (p <? c))%Z then 1 else 0))%nat.
Proof.
  intros H. destruct (Z.leb_spec a p), (Z.ltb_spec p b), (Z.leb_spec b p), (Z.ltb_spec p c); cbn; lia.
Qed.

Lemma sum_nonneg l : Forall (fun h => 1 <= h) l -> 0 <= sum l.
Proof. induction 1 as [|h l Hh _ IH]; [done|]. change (sum (h :: l)) with (h + sum l). lia. Qed.

Lemma tile_column_covers x y w hs px py :
  Forall (fun h => 1 <= h) hs ->
  covers (tile_column x y w hs) px py
  = ((if ((x <=? px) && (px <? x + w))%Z then 1 else 0)
     * (if ((y <=? py) && (py <? y + sum hs))%Z then 1 else 0))%nat.
Proof.
  intros Hh. revert y. induction Hh as [|h hs Hh Hhs IH]; intros y.
  - cbn. replace ((y <=? py) && (py <? y + 0)) with false; [lia|].
    symmetry. apply andb_false_iff. destruct (Z.leb_spec y py); [right|by left]. apply Z.ltb_ge. lia.
  - cbn [tile_column covers]. rewrite IH. change (sum (h :: hs)) with (h + sum hs).
    rewrite (interval_split y (y + h) (y + (h + sum hs))) by (pose proof (sum_nonneg hs Hhs); lia).
    rewrite Z.add_assoc. unfold contains. cbn [rx ry rw rh].
    destruct (x <=? px), (px <? x + w), (y <=? py), (py <? y + h); cbn; lia.
Qed.

Lemma tile_columns_covers work x columns px py :
  Forall (fun c => 1 <= fst c /\ 1 <= snd c <= rh work) columns ->
  covers (tile_columns work x columns) px py
  = ((if ((x <=? px) && (px <? x + sum columns.*1))%Z then 1 else 0)
     * (if ((ry work <=? py) && (py <? ry work + rh work))%Z then 1 else 0))%nat.
Proof.
  intros Hc. revert x. induction Hc as [|[w rows] cs [Hw Hr] Hcs IH]; intros x.
  - cbn. replace ((x <=? px) && (px <? x + 0)) with false; [lia|].
    symmetry. apply andb_false_iff. destruct (Z.leb_spec x px); [right|by left]. apply Z.ltb_ge. lia.
  - cbn in Hw, Hr. cbn [tile_columns]. rewrite covers_app, IH, tile_column_covers by apply split_pos.
    rewrite split_at_least by lia. rewrite fmap_cons. cbn [fst].
    change (sum (w :: cs.*1)) with (w + sum cs.*1).
    rewrite (interval_split x (x + w) (x + (w + sum cs.*1))), Z.add_assoc.
    2:{ pose proof (sum_nonneg cs.*1). split; [lia|].
        assert (Forall (fun h => 1 <= h) cs.*1) by (apply Forall_fmap; eapply Forall_impl; [|exact Hcs]; by intros ? []).
        specialize (H ltac:(done)). lia. }
    lia.
Qed.

Lemma tile_columns_length work x columns :
  Forall (fun c => 0 <= snd c) columns ->
  Z.of_nat (length (tile_columns work x columns)) = sum columns.*2.
Proof.
  intros Hc. revert x. induction Hc as [|[w rows] cs Hw Hcs IH]; intros x; [done|]. cbn in Hw.
  cbn [tile_columns]. rewrite length_app, length_tile_column, length_split, Nat2Z.inj_add, IH.
  rewrite fmap_cons. cbn [snd]. change (sum (rows :: cs.*2)) with (rows + sum cs.*2). lia.
Qed.

Lemma tile_column_in x y w hs r :
  Forall (fun h => 1 <= h) hs -> r ∈ tile_column x y w hs ->
  rx r = x /\ rw r = w /\ 1 <= rh r /\ y <= ry r /\ ry r + rh r <= y + sum hs.
Proof.
  intros Hh. revert y. induction Hh as [|h hs Hh Hhs IH]; intros y Hin; [by apply not_elem_of_nil in Hin|].
  change (sum (h :: hs)) with (h + sum hs). pose proof (sum_nonneg hs Hhs).
  cbn [tile_column] in Hin. apply elem_of_cons in Hin as [->|Hin]; [cbn; lia|].
  specialize (IH _ Hin). lia.
Qed.

Lemma tile_columns_in work x columns r :
  Forall (fun c => 1 <= fst c /\ 1 <= snd c <= rh work) columns -> r ∈ tile_columns work x columns ->
  1 <= rw r /\ 1 <= rh r /\ x <= rx r /\ rx r + rw r <= x + sum columns.*1 /\
  ry work <= ry r /\ ry r + rh r <= ry work + rh work.
Proof.
  intros Hc. revert x. induction Hc as [|[w rows] cs [Hw Hr] Hcs IH]; intros x Hin;
    [by apply not_elem_of_nil in Hin|].
  cbn in Hw, Hr. rewrite fmap_cons. cbn [fst]. change (sum (w :: cs.*1)) with (w + sum cs.*1).
  assert (0 <= sum cs.*1).
  { apply sum_nonneg, Forall_fmap. eapply Forall_impl; [|exact Hcs]; by intros ? []. }
  cbn [tile_columns] in Hin. apply elem_of_app in Hin as [Hin|Hin].
  - apply tile_column_in in Hin; [|apply split_pos]. rewrite split_at_least in Hin by lia. lia.
  - specialize (IH _ Hin). lia.
Qed.

(** The most rows a column gets. *)
Definition most_rows (count : Z) : Z := (count + columns_for count - 1) / columns_for count.

Lemma split_le total parts : 0 <= total -> 1 <= parts <= total ->
  Forall (fun v => v <= (total + parts - 1) / parts) (split total parts).
Proof.
  intros Ht Hp. apply Forall_lookup. intros i v Hv. apply split_shares in Hv; [|done].
  pose proof (Z.div_mod total parts ltac:(lia)). pose proof (Z.mod_pos_bound total parts ltac:(lia)).
  assert (1 <= total / parts) by (apply Z.div_le_lower_bound; lia).
  assert (total / parts <= (total + parts - 1) / parts) by (apply Z.div_le_mono; lia).
  destruct (Z.ltb_spec (Z.of_nat i) (total mod parts)); [|lia].
  assert (total / parts + 1 <= (total + parts - 1) / parts) by (apply Z.div_le_lower_bound; nia).
  lia.
Qed.

Lemma tile_pairs work count :
  1 <= count -> columns_for count <= rw work -> most_rows count <= rh work ->
  let columns := zip (split (rw work) (columns_for count)) (split count (columns_for count)) in
  Forall (fun c => 1 <= fst c /\ 1 <= snd c <= rh work) columns /\
  columns.*1 = split (rw work) (columns_for count) /\ columns.*2 = split count (columns_for count).
Proof.
  intros Hn Hw Hh columns. pose proof (columns_for_spec count Hn) as (Hc & _).
  split_and!.
  - apply Forall_lookup. intros i [a b] Hi. apply lookup_zip_with_Some in Hi as (a' & b' & E & Ha & Hb).
    injection E as -> ->. cbn.
    pose proof (proj1 (Forall_lookup _ _) (split_pos (rw work) (columns_for count)) i a' Ha).
    pose proof (proj1 (Forall_lookup _ _) (split_pos count (columns_for count)) i b' Hb).
    pose proof (proj1 (Forall_lookup _ _) (split_le count (columns_for count) ltac:(lia) ltac:(lia)) i b' Hb).
    cbn in *. unfold most_rows in Hh. lia.
  - apply fst_zip. rewrite !length_split. lia.
  - apply snd_zip. rewrite !length_split. lia.
Qed.

(** C30: tiling covers the work area exactly: as soon as the area has a column per
    column and a row per row of the grid, as many rectangles as windows come out,
    none empty, all inside the area, and every cell of the area is in exactly one
    of them. *)
Theorem tile_partition work count :
  1 <= count -> columns_for count <= rw work -> most_rows count <= rh work ->
  zlen (tile_rects work count) = count /\
  (forall r, r ∈ tile_rects work count -> 1 <= rw r /\ 1 <= rh r /\
     rx work <= rx r /\ rx r + rw r <= rx work + rw work /\
     ry work <= ry r /\ ry r + rh r <= ry work + rh work) /\
  (forall x y, covers (tile_rects work count) x y = if contains work x y then 1%nat else 0%nat).
Proof.
  intros Hn Hw Hh. pose proof (columns_for_spec count Hn) as (Hc & _).
  assert (1 <= most_rows count) by (apply Z.div_le_lower_bound; lia).
  destruct (tile_pairs work count Hn Hw Hh) as (HF & E1 & E2).
  unfold tile_rects. zrw_false (count <=? 0). zrw_false (rw work <=? 0). zrw_false (rh work <=? 0).
  cbn [orb]. cbv zeta. split_and!.
  - unfold zlen. rewrite tile_columns_length; [by rewrite E2, split_at_least by lia|].
    eapply Forall_impl; [|exact HF]; cbn; lia.
  - intros r Hr. apply tile_columns_in in Hr; [|done]. rewrite E1, split_at_least in Hr by lia. lia.
  - intros x y. rewrite tile_columns_covers by done. rewrite E1, split_at_least by lia. unfold contains.
    destruct (rx work <=? x), (x <? rx work + rw work), (ry work <=? y), (y <? ry work + rh work); done.
Qed.

Lemma tile_partition_witness :
  zlen (tile_rects (Rect 0 1 81 23) 5) = 5 /\
  (forall r, r ∈ tile_rects (Rect 0 1 81 23) 5 -> 1 <= rw r /\ 1 <= rh r /\
     0 <= rx r /\ rx r + rw r <= 0 + 81 /\ 1 <= ry r /\ ry r + rh r <= 1 + 23) /\
  (forall x y, covers (tile_rects (Rect 0 1 81 23) 5) x y
     = if contains (Rect 0 1 81 23) x y then 1%nat else 0%nat).
Proof. apply (tile_partition (Rect 0 1 81 23) 5); by vm_compute. Defined.

(** Two windows anchored back to back share the area without gap or overlap. *)
Lemma snap_halves work d x y :
  0 <= rw work -> 0 <= rh work ->
  covers [snap_rect work d; snap_opposite work d] x y = if contains work x y then 1%nat else 0%nat.
Proof.
  intros Hw Hh. cbn [covers]. unfold contains, snap_opposite, snap_rect.
  pose proof (Z.quot_div_nonneg (rw work) 2 Hw ltac:(lia)) as ->.
  pose proof (Z.quot_div_nonneg (rh work) 2 Hh ltac:(lia)) as ->.
  pose proof (Z.div_mod (rw work) 2 ltac:(lia)). pose proof (Z.mod_pos_bound (rw work) 2 ltac:(lia)).
  pose proof (Z.div_mod (rh work) 2 ltac:(lia)). pose proof (Z.mod_pos_bound (rh work) 2 ltac:(lia)).
  destruct d; cbn [rx ry rw rh]; zcases.
Qed.
