(* ===== verification/Window.v ===== *)
(** * Windows: [src/wm/window.cpp], [src/wm/layout.cpp], [src/wm/manager.cpp]

    Frames and their constraints, the stack of windows with its focus and its
    cascade, the modes, and the projection of the wanted geometry on the area of
    the moment.  An application is whatever answers [min_size]: the interface
    [App] of [src/app/app.hpp] as far as the manager uses it. *)

From S2P Require Import Prelude Cell.

Class App (A : Type) := { min_size : A -> size }.

(** [WindowId]: 32 bits; zero is no window. *)
Abbreviation window_id := Z.

Inductive win_mode := Normal | Minimized | Maximized | Fullscreen.

#[export] Instance win_mode_eq_dec : EqDecision win_mode. Proof. solve_decision. Defined.

Record window (A : Type) := Window {
  id : window_id;
  title : bytes;
  app_id : bytes;
  user_rect : rect;
  display_rect : rect;
  mode : win_mode;
  before_fullscreen : win_mode;
  app : A;
  sent_size : size;
  close_requested : bool;
}.
Arguments Window {A}.
Arguments id {A}.
Arguments title {A}.
Arguments app_id {A}.
Arguments user_rect {A}.
Arguments display_rect {A}.
Arguments mode {A}.
Arguments before_fullscreen {A}.
Arguments app {A}.
Arguments sent_size {A}.
Arguments close_requested {A}.

Definition with_mode {A} (w : window A) (m : win_mode) : window A :=
  Window (id w) (title w) (app_id w) (user_rect w) (display_rect w) m (before_fullscreen w)
    (app w) (sent_size w) (close_requested w).
Definition with_before {A} (w : window A) (m : win_mode) : window A :=
  Window (id w) (title w) (app_id w) (user_rect w) (display_rect w) (mode w) m
    (app w) (sent_size w) (close_requested w).
Definition with_display {A} (w : window A) (r : rect) : window A :=
  Window (id w) (title w) (app_id w) (user_rect w) r (mode w) (before_fullscreen w)
    (app w) (sent_size w) (close_requested w).
Definition with_user {A} (w : window A) (r : rect) : window A :=
  Window (id w) (title w) (app_id w) r (display_rect w) (mode w) (before_fullscreen w)
    (app w) (sent_size w) (close_requested w).

(** ** Frames *)

Definition client_rect (frame : rect) : rect :=
  Rect (rx frame + 1) (ry frame + 1) (Z.max 0 (rw frame - 2)) (Z.max 0 (rh frame - 2)).

Definition clamp_to (frame work : rect) (min : size) : rect :=
  let fw := Z.max (w min) (Z.min (rw frame) (rw work)) in
  let fh := Z.max (h min) (Z.min (rh frame) (rh work)) in
  Rect (Z.max (rx work) (Z.min (rx frame) (rx work + rw work - fw)))
    (Z.max (ry work) (Z.min (ry frame) (ry work + rh work - fh))) fw fh.

Definition distance (a b : Z) : Z := if b <? a then a - b else b - a.

Definition snap (r work : rect) (tolerance : Z) : rect :=
  let x :=
    if distance (rx r) (rx work) <=? tolerance then rx work
    else if distance (rx r + rw r) (rx work + rw work) <=? tolerance
    then rx work + rw work - rw r else rx r in
  let y :=
    if distance (ry r) (ry work) <=? tolerance then ry work
    else if distance (ry r + rh r) (ry work + rh work) <=? tolerance
    then ry work + rh work - rh r else ry r in
  Rect x y (rw r) (rh r).

Inductive panel_edge := EdgeTop | EdgeBottom | EdgeLeft | EdgeRight.

Definition work_area (cols rows : Z) (edge : panel_edge) (thickness : Z) : rect :=
  match edge with
  | EdgeTop => Rect 0 thickness cols (rows - thickness)
  | EdgeBottom => Rect 0 0 cols (rows - thickness)
  | EdgeLeft => Rect thickness 0 (cols - thickness) rows
  | EdgeRight => Rect 0 0 (cols - thickness) rows
  end.

(** ** The manager *)

Record manager (A : Type) := Manager {
  stack : list (window A);
  next_id : window_id;
  focused : window_id;
  cascade : Z;
}.
Arguments Manager {A}.
Arguments stack {A}.
Arguments next_id {A}.
Arguments focused {A}.
Arguments cascade {A}.

Definition manager_new {A} : manager A := Manager [] 1 0 0.

Definition kMaxWindows : nat := 64.
Definition kDefaultRect : rect := Rect 2 1 44 14.
Definition kCascadeDx : Z := 2.
Definition kCascadeDy : Z := 1.

Section Manager.
Context {A : Type} `{App A}.
Implicit Types (wm : manager A) (wd : window A).

Definition frame_min (a : A) : size :=
  let m := min_size a in Size (Z.max (w m + 2) 16) (Z.max (h m + 2) 5).

Definition with_stack wm (s : list (window A)) : manager A :=
  Manager s (next_id wm) (focused wm) (cascade wm).

Definition find wm (i : window_id) : option (window A) := List.find (fun wd => id wd =? i) (stack wm).

(** [std::rotate(it, it + 1, end)]: the window goes to the end of the stack. *)
Fixpoint to_end (i : window_id) (l : list (window A)) : list (window A) :=
  match l with
  | [] => []
  | wd :: l => if id wd =? i then l ++ [wd] else wd :: to_end i l
  end.

Definition raise wm (i : window_id) : manager A := with_stack wm (to_end i (stack wm)).

Definition leave_fullscreen (i : window_id) (wd : window A) : window A :=
  if negb (id wd =? i) && bool_decide (mode wd = Fullscreen)
  then with_mode wd (before_fullscreen wd) else wd.

Definition focus wm (i : window_id) : manager A :=
  let wm := raise (with_stack wm (leave_fullscreen i <$> stack wm)) i in
  Manager (stack wm) (next_id wm) i (cascade wm).

Definition open wm (a : A) (work : rect) : manager A * option window_id :=
  if (kMaxWindows <=? length (stack wm))%nat then (wm, None)
  else
    let i := next_id wm in
    let user := Rect (rx kDefaultRect + kCascadeDx * cascade wm)
                  (ry kDefaultRect + kCascadeDy * cascade wm) (rw kDefaultRect) (rh kDefaultRect) in
    let wd := Window i [] [] user (clamp_to user work (frame_min a)) Normal Normal a (Size (-1) (-1)) false in
    let cascade := cascade wm + 1 in
    let next_x := rx kDefaultRect + kCascadeDx * cascade in
    let next_y := ry kDefaultRect + kCascadeDy * cascade in
    let cascade :=
      if (rx work + rw work <? next_x + rw kDefaultRect) || (ry work + rh work <? next_y + rh kDefaultRect)
      then 0 else cascade in
    (focus (Manager (stack wm ++ [wd]) (to_u32 (next_id wm + 1)) (focused wm) cascade) i, Some i).

Fixpoint erase_window (i : window_id) (l : list (window A)) : list (window A) :=
  match l with
  | [] => []
  | wd :: l => if id wd =? i then l else wd :: erase_window i l
  end.

Definition close wm (i : window_id) : manager A * bool :=
  match find wm i with
  | None => (wm, false)
  | Some _ =>
      let s := erase_window i (stack wm) in
      let f := if focused wm =? i
               then match List.rev s with wd :: _ => id wd | [] => 0 end else focused wm in
      (Manager s (next_id wm) f (cascade wm), true)
  end.

(** Writing through the pointer [find] returns. *)
Fixpoint update (i : window_id) (f : window A -> window A) (l : list (window A)) : list (window A) :=
  match l with
  | [] => []
  | wd :: l => if id wd =? i then f wd :: l else wd :: update i f l
  end.

Definition set_rect wm (i : window_id) (user work : rect) : manager A :=
  with_stack wm (update i (fun wd =>
    with_display (with_user wd user) (clamp_to user work (frame_min (app wd)))) (stack wm)).

(** [((start + delta * k) % n + n) % n] with C++'s remainder. *)
Definition wrap_index (start delta k n : Z) : Z := Z.rem (Z.rem (start + delta * k) n + n) n.

Fixpoint start_from (i : nat) (f : window_id) (l : list (window A)) : option nat :=
  match l with
  | [] => None
  | wd :: l => if id wd =? f then Some i else start_from (S i) f l
  end.

(** The turn [k] of the search, of the [fuel] that remain. *)
Fixpoint step_from (fuel : nat) wm (start delta k : Z) : manager A :=
  match fuel with
  | O => wm
  | S fuel =>
      let n := zlen (stack wm) in
      match stack wm !! Z.to_nat (wrap_index start delta k n) with
      | Some wd =>
          if bool_decide (mode wd = Minimized) then step_from fuel wm start delta (k + 1)
          else focus wm (id wd)
      | None => wm
      end
  end.

Definition step wm (delta : Z) : manager A :=
  let n := length (stack wm) in
  if (n =? 0)%nat then wm
  else
    let start := default (n - 1)%nat (start_from 0 (focused wm) (stack wm)) in
    step_from n wm (Z.of_nat start) delta 1.

Definition focus_next wm : manager A := step wm 1.
Definition focus_prev wm : manager A := step wm (-1).

(** From the front of the screen: the last of the stack first. *)
Definition hit wm (x y : Z) : option (window A) :=
  List.find (fun wd => negb (bool_decide (mode wd = Minimized)) && contains (display_rect wd) x y)
    (List.rev (stack wm)).

Definition set_mode wm (i : window_id) (m : win_mode) (work : rect) : manager A :=
  match find wm i with
  | None => wm
  | Some wd =>
      let entering := bool_decide (m = Fullscreen) && negb (bool_decide (mode wd = Fullscreen)) in
      let s := if entering then update i (fun wd => with_before wd (mode wd)) (stack wm) else stack wm in
      let s := if entering then leave_fullscreen i <$> s else s in
      let s := update i (fun wd =>
        let wd := with_mode wd m in
        match m with
        | Normal => with_display wd (clamp_to (user_rect wd) work (frame_min (app wd)))
        | Maximized | Fullscreen => with_display wd work
        | Minimized => wd
        end) s in
      with_stack wm s
  end.

(** ** [layout.cpp] *)

Definition display_rect_for wd (work : rect) (cols rows : Z) : rect :=
  match mode wd with
  | Maximized => work
  | Fullscreen => Rect 0 0 cols rows
  | Minimized | Normal => clamp_to (user_rect wd) work (frame_min (app wd))
  end.

Definition relayout wm (work : rect) (cols rows : Z) : manager A :=
  with_stack wm ((fun wd => with_display wd (display_rect_for wd work cols rows)) <$> stack wm).

End Manager.

(** ** Frames stay reachable *)

Lemma clamp_to_size frame work min :
  w min <= rw (clamp_to frame work min) /\ h min <= rh (clamp_to frame work min).
Proof. unfold clamp_to. cbn. lia. Qed.

Definition inside_rect (r work : rect) : Prop :=
  rx work <= rx r /\ rx r + rw r <= rx work + rw work /\
  ry work <= ry r /\ ry r + rh r <= ry work + rh work.

Lemma clamp_to_inside frame work min :
  w min <= rw work -> h min <= rh work -> inside_rect (clamp_to frame work min) work.
Proof. unfold inside_rect, clamp_to. cbn. lia. Qed.

(** A frame that fits and stands inside is not moved. *)
Lemma clamp_to_id frame work min :
  inside_rect frame work -> w min <= rw frame -> h min <= rh frame -> clamp_to frame work min = frame.
Proof. destruct frame. unfold inside_rect, clamp_to. cbn. intros. f_equal; lia. Qed.

(** ** What every reachable manager satisfies *)

Section Invariant.
Context {A : Type} `{App A}.
Implicit Types (wm : manager A) (wd : window A) (l : list (window A)).

Definition ids l : list window_id := id <$> l.

(** A window's identifier has been given out, and the mode it will return to
    from full screen is not full screen. *)
Definition window_ok (next : window_id) wd : Prop :=
  1 <= id wd < next /\ before_fullscreen wd <> Fullscreen.

Definition one_fullscreen l : Prop :=
  forall i j w1 w2, l !! i = Some w1 -> l !! j = Some w2 ->
    mode w1 = Fullscreen -> mode w2 = Fullscreen -> id w1 = id w2.

Definition focus_ok wm : Prop :=
  match stack wm with [] => focused wm = 0 | _ => focused wm ∈ ids (stack wm) end.

#[export] Instance focus_ok_dec wm : Decision (focus_ok wm).
Proof. unfold focus_ok. destruct (stack wm); apply _. Defined.

Definition stack_ok (next : window_id) l : Prop :=
  NoDup (ids l) /\ Forall (window_ok next) l /\ one_fullscreen l /\ (length l <= kMaxWindows)%nat.

Definition manager_ok wm : Prop := 1 <= next_id wm /\ stack_ok (next_id wm) (stack wm) /\ focus_ok wm.

Lemma to_end_app i l1 wd l2 :
  id wd = i -> i ∉ ids l1 -> to_end i (l1 ++ wd :: l2) = l1 ++ l2 ++ [wd].
Proof.
  intros Hi. induction l1 as [|x l1 IH]; intros Hn; cbn.
  - by rewrite Hi, Z.eqb_refl.
  - cbn in Hn. apply not_elem_of_cons in Hn as [Hx Hn].
    zrw_false (id x =? i). by rewrite IH.
Qed.

Lemma to_end_none i l : i ∉ ids l -> to_end i l = l.
Proof.
  induction l as [|x l IH]; intros Hn; [done|]. cbn in Hn. apply not_elem_of_cons in Hn as [Hx Hn].
  cbn. zrw_false (id x =? i). by rewrite IH.
Qed.

(** A window of the stack splits it. *)
Lemma ids_split i l : i ∈ ids l -> exists l1 wd l2, l = l1 ++ wd :: l2 /\ id wd = i /\ i ∉ ids l1.
Proof.
  induction l as [|x l IH]; cbn; intros Hi; [by apply not_elem_of_nil in Hi|].
  destruct (Z.eq_dec (id x) i) as [E|E].
  - exists [], x, l. split_and!; try done. apply not_elem_of_nil.
  - apply elem_of_cons in Hi as [->|Hi]; [done|]. destruct (IH Hi) as (l1 & wd & l2 & -> & Hw & Hn).
    exists (x :: l1), wd, l2. split_and!; try done. cbn. apply not_elem_of_cons. done.
Qed.

Lemma to_end_perm i l : to_end i l ≡ₚ l.
Proof.
  destruct (decide (i ∈ ids l)) as [Hi|Hi]; [|by rewrite to_end_none].
  destruct (ids_split i l Hi) as (l1 & wd & l2 & -> & Hw & Hn). rewrite to_end_app by done.
  by rewrite (Permutation_app_comm l2 [wd]).
Qed.

Lemma one_fullscreen_alt l :
  one_fullscreen l <->
  forall w1 w2, w1 ∈ l -> w2 ∈ l -> mode w1 = Fullscreen -> mode w2 = Fullscreen -> id w1 = id w2.
Proof.
  unfold one_fullscreen. split.
  - intros Hl w1 w2 [i Hi]%list_elem_of_lookup [j Hj]%list_elem_of_lookup. by eapply Hl.
  - intros Hl i j w1 w2 Hi Hj. apply Hl; eapply list_elem_of_lookup_2; done.
Qed.

Lemma stack_ok_perm next l l' : l ≡ₚ l' -> stack_ok next l -> stack_ok next l'.
Proof.
  intros Hp (Hn & Hf & Ho & Hl). unfold stack_ok, ids in *. rewrite one_fullscreen_alt in *.
  split_and!.
  - by rewrite <- Hp.
  - by rewrite <- Hp.
  - intros w1 w2. rewrite <- Hp. auto.
  - by rewrite <- Hp.
Qed.

(** Rewriting windows without touching their identifiers. *)
Lemma stack_ok_fmap next (f : window A -> window A) l :
  (forall wd, id (f wd) = id wd) ->
  (forall wd, wd ∈ l -> before_fullscreen wd <> Fullscreen -> before_fullscreen (f wd) <> Fullscreen) ->
  one_fullscreen (f <$> l) -> stack_ok next l -> stack_ok next (f <$> l).
Proof.
  intros Hid Hb Ho (Hn & Hf & _ & Hl).
  assert (ids (f <$> l) = ids l) as Hids
    by (unfold ids; rewrite <- list_fmap_compose; apply list_fmap_ext; intros; apply Hid).
  split_and!; [by rewrite Hids| |done|by rewrite length_fmap].
  apply Forall_fmap, Forall_forall. intros wd Hin%list_elem_of_In.
  rewrite list.Forall_forall in Hf. destruct (Hf wd ltac:(done)) as [H1 H2].
  split; cbn; [by rewrite Hid|by apply Hb].
Qed.

Lemma ids_fmap (f : window A -> window A) l : (forall wd, id (f wd) = id wd) -> ids (f <$> l) = ids l.
Proof. intros Hid. unfold ids. rewrite <- list_fmap_compose. apply list_fmap_ext. intros. apply Hid. Qed.

Lemma update_fmap i f l :
  NoDup (ids l) -> update i f l = (fun wd => if id wd =? i then f wd else wd) <$> l.
Proof.
  induction l as [|x l IH]; intros Hn; [done|]. cbn in Hn |- *. apply list.NoDup_cons in Hn as [Hx Hn].
  rewrite IH by done. destruct (Z.eqb_spec (id x) i) as [E|E]; [|done]. f_equal.
  symmetry. etrans; [|apply list_fmap_id]. apply list_fmap_ext. intros k wd Hk.
  destruct (Z.eqb_spec (id wd) i) as [E'|]; [|done]. destruct Hx. rewrite E, <- E'.
  apply list_elem_of_fmap. exists wd. split; [done|]. by eapply list_elem_of_lookup_2.
Qed.

Lemma leave_fullscreen_id i wd : id (leave_fullscreen i wd) = id wd.
Proof. unfold leave_fullscreen. by destruct (_ && _). Qed.

Lemma leave_fullscreen_before i wd : before_fullscreen (leave_fullscreen i wd) = before_fullscreen wd.
Proof. unfold leave_fullscreen. by destruct (_ && _). Qed.

(** Once the others have left it, only window [i] can be in full screen. *)
Lemma leave_fullscreen_only i wd :
  before_fullscreen wd <> Fullscreen -> mode (leave_fullscreen i wd) = Fullscreen -> id wd = i.
Proof.
  unfold leave_fullscreen. destruct (Z.eqb_spec (id wd) i); [done|]. cbn [negb andb].
  intros Hb. case_bool_decide; cbn; tauto.
Qed.

Lemma stack_ok_leave next i l : stack_ok next l -> stack_ok next (leave_fullscreen i <$> l).
Proof.
  intros Hok. apply stack_ok_fmap; [apply leave_fullscreen_id| | |done].
  - intros wd _. by rewrite leave_fullscreen_before.
  - apply one_fullscreen_alt. intros w1 w2 (x1 & -> & H1)%list_elem_of_fmap (x2 & -> & H2)%list_elem_of_fmap F1 F2.
    destruct Hok as (_ & Hf & _). rewrite list.Forall_forall in Hf.
    rewrite !leave_fullscreen_id. trans i; [|symmetry]; apply leave_fullscreen_only; try done;
      by apply Hf.
Qed.

Lemma focus_stack wm i : stack (focus wm i) = to_end i (leave_fullscreen i <$> stack wm).
Proof. done. Qed.

Lemma manager_ok_focus wm i :
  1 <= next_id wm -> stack_ok (next_id wm) (stack wm) -> i ∈ ids (stack wm) -> manager_ok (focus wm i).
Proof.
  intros Hn Hok Hi. split_and!; [done| |].
  - cbn [focus next_id]. rewrite focus_stack. eapply stack_ok_perm; [by rewrite to_end_perm|].
    by apply stack_ok_leave.
  - unfold focus_ok. rewrite focus_stack. cbn [focused focus].
    assert (i ∈ ids (to_end i (leave_fullscreen i <$> stack wm))) as Hin.
    { unfold ids. rewrite to_end_perm. fold (ids (leave_fullscreen i <$> stack wm)).
      by rewrite ids_fmap by apply leave_fullscreen_id. }
    destruct (to_end _ _); [by apply not_elem_of_nil in Hin|done].
Qed.

Lemma find_ids wm i wd : find wm i = Some wd -> id wd = i /\ wd ∈ stack wm.
Proof.
  unfold find. intros Hf. apply List.find_some in Hf as [Hin Hi]. zbool.
  split; [done|by apply list_elem_of_In].
Qed.

Lemma find_none wm i : find wm i = None -> i ∉ ids (stack wm).
Proof.
  unfold find. intros Hf (wd & -> & Hin)%list_elem_of_fmap.
  pose proof (List.find_none _ _ Hf wd ltac:(by apply list_elem_of_In)) as E. cbn in E. zbool. lia.
Qed.

Lemma manager_ok_open wm a work :
  next_id wm + 1 < 2 ^ 32 -> manager_ok wm -> manager_ok (fst (open wm a work)).
Proof.
  intros Hlt (Hn & (Hnd & Hf & Ho & Hl) & Hfo). unfold open.
  destruct (Nat.leb_spec kMaxWindows (length (stack wm))); [by split_and!|]. cbn [fst]. cbv zeta.
  set (wd := Window _ _ _ _ _ _ _ _ _ _).
  assert (to_u32 (next_id wm + 1) = next_id wm + 1) as Hu by (apply Z.mod_small; lia).
  apply manager_ok_focus; cbn [next_id stack]; rewrite ?Hu; [lia| |].
  - split_and!.
    + unfold ids. rewrite fmap_app. apply list.NoDup_app. split_and!; [done| |].
      * intros i (x & -> & Hx)%list_elem_of_fmap Hi. cbn in Hi. apply list_elem_of_singleton in Hi.
        rewrite list.Forall_forall in Hf. destruct (Hf x Hx). lia.
      * cbn. apply list.NoDup_singleton.
    + apply Forall_app. split.
      * eapply Forall_impl; [|exact Hf]. intros x []. split; [lia|done].
      * apply Forall_singleton. split; [cbn; lia|done].
    + apply one_fullscreen_alt. rewrite one_fullscreen_alt in Ho.
      intros w1 w2 [H1|H1%list_elem_of_singleton]%elem_of_app [H2|H2%list_elem_of_singleton]%elem_of_app F1 F2;
        [by apply Ho|by subst|by subst|by subst].
    + rewrite length_app. cbn. unfold kMaxWindows in *. lia.
  - unfold ids. rewrite fmap_app. apply elem_of_app. right. by apply list_elem_of_singleton.
Qed.

Lemma erase_window_app i l1 wd l2 :
  id wd = i -> i ∉ ids l1 -> erase_window i (l1 ++ wd :: l2) = l1 ++ l2.
Proof.
  intros Hi. induction l1 as [|x l1 IH]; intros Hn; cbn.
  - by rewrite Hi, Z.eqb_refl.
  - cbn in Hn. apply not_elem_of_cons in Hn as [Hx Hn]. zrw_false (id x =? i). by rewrite IH.
Qed.

Lemma stack_ok_sub next l1 wd l2 : stack_ok next (l1 ++ wd :: l2) -> stack_ok next (l1 ++ l2).
Proof.
  intros (Hn & Hf & Ho & Hl). rewrite one_fullscreen_alt in Ho. split_and!.
  - unfold ids in *. rewrite fmap_app in *. cbn in Hn. rewrite <- Permutation_middle in Hn.
    by apply list.NoDup_cons in Hn as [_ ?].
  - rewrite Forall_app in *. destruct Hf as [? Hf]. split; [done|]. by inversion Hf.
  - apply one_fullscreen_alt. intros w1 w2 H1 H2. apply Ho; rewrite elem_of_app, elem_of_cons;
      rewrite elem_of_app in *; tauto.
  - rewrite length_app in *. cbn in Hl. lia.
Qed.

Lemma manager_ok_close wm i : manager_ok wm -> manager_ok (fst (close wm i)).
Proof.
  intros (Hn & Hok & Hfo). unfold close. destruct (find wm i) as [wd|] eqn:E; [|by split_and!].
  apply find_ids in E as [Hi Hin]. cbn [fst]. cbv zeta.
  assert (i ∈ ids (stack wm)) as Hids by (apply list_elem_of_fmap; by exists wd).
  destruct (ids_split i (stack wm) Hids) as (l1 & x & l2 & Hs & Hx & Hnot).
  rewrite Hs in *. rewrite erase_window_app by done.
  split_and!; [done|by eapply stack_ok_sub|]. unfold focus_ok. cbn [stack focused].
  destruct (Z.eqb_spec (focused wm) i) as [Ef|Ef].
  - destruct (l1 ++ l2) as [|y t] eqn:Et; [done|]. destruct (List.rev (y :: t)) as [|z r] eqn:Er.
    + apply (f_equal (@length _)) in Er. rewrite List.length_rev in Er. done.
    + apply list_elem_of_fmap. exists z. split; [done|]. apply list_elem_of_In, List.in_rev. rewrite Er. by left.
  - unfold focus_ok in Hfo. rewrite Hs in Hfo.
    assert (focused wm ∈ ids (l1 ++ x :: l2)) as Hf by (destruct l1; done).
    unfold ids in *. rewrite fmap_app in Hf. cbn in Hf.
    assert (focused wm ∈ id <$> (l1 ++ l2)) as Hf'.
    { rewrite fmap_app. rewrite elem_of_app, elem_of_cons in *. destruct Hf as [|[|]]; [tauto|congruence|tauto]. }
    destruct (l1 ++ l2); [by apply not_elem_of_nil in Hf'|done].
Qed.

Lemma focus_ok_ids wm wm' :
  ids (stack wm') = ids (stack wm) -> focused wm' = focused wm -> focus_ok wm -> focus_ok wm'.
Proof.
  unfold focus_ok. intros Hi ->. rewrite Hi.
  destruct (stack wm) as [|x l], (stack wm') as [|x' l']; done.
Qed.

Lemma manager_ok_fmap wm (f : window A -> window A) :
  (forall wd, id (f wd) = id wd) -> (forall wd, mode (f wd) = mode wd) ->
  (forall wd, before_fullscreen (f wd) = before_fullscreen wd) ->
  manager_ok wm -> manager_ok (with_stack wm (f <$> stack wm)).
Proof.
  intros Hid Hm Hb (Hn & Hok & Hfo). split_and!; [done| |].
  - apply stack_ok_fmap; [done|by intros wd _; rewrite Hb| |done].
    destruct Hok as (_ & _ & Ho & _). rewrite one_fullscreen_alt in *.
    intros w1 w2 (x1 & -> & H1)%list_elem_of_fmap (x2 & -> & H2)%list_elem_of_fmap.
    rewrite !Hm, !Hid. by apply Ho.
  - apply (focus_ok_ids wm); [|done|exact Hfo]. cbn. by apply ids_fmap.
Qed.

Lemma manager_ok_set_mode wm i m work : manager_ok wm -> manager_ok (set_mode wm i m work).
Proof.
  intros (Hn & Hok & Hfo). unfold set_mode. destruct (find wm i) as [wd|] eqn:E; [|by split_and!].
  apply find_ids in E as [Hi Hin]. cbv zeta.
  set (entering := bool_decide (m = Fullscreen) && negb (bool_decide (mode wd = Fullscreen))).
  set (s1 := if entering then update i _ (stack wm) else stack wm).
  set (s2 := if entering then leave_fullscreen i <$> s1 else s1).
  set (g := fun wd : window A => _ : window A).
  assert (forall wd, id (g wd) = id wd /\ mode (g wd) = m /\ before_fullscreen (g wd) = before_fullscreen wd) as Hg
    by (intros x; subst g; cbn; by destruct m).
  assert (NoDup (ids (stack wm))) as Hnd by apply Hok.
  assert (ids s1 = ids (stack wm)) as Hs1.
  { subst s1. destruct entering; [|done]. rewrite update_fmap by done. apply ids_fmap.
    intros x. by destruct (_ =? _). }
  assert (stack_ok (next_id wm) s1) as Hok1.
  { subst s1. destruct entering eqn:Een; [|done]. rewrite update_fmap by done.
    apply andb_true_iff in Een as [_ Hnf]. apply negb_true_iff, bool_decide_eq_false in Hnf.
    assert (forall x, x ∈ stack wm -> id x = i -> x = wd) as Huniq.
    { intros x Hx Hxi. apply list_elem_of_lookup in Hx as [k1 H1], Hin as [k2 H2].
      assert (k1 = k2) as ->; [|congruence].
      apply (list.NoDup_lookup (ids (stack wm)) k1 k2 i Hnd); unfold ids; rewrite list_lookup_fmap.
      - rewrite H1. cbn. by rewrite Hxi.
      - rewrite H2. cbn. by rewrite Hi. }
    apply stack_ok_fmap; [intros x; by destruct (_ =? _)| | |done].
    - intros x Hx Hb. destruct (Z.eqb_spec (id x) i) as [Ex|]; [|done]. cbn.
      by rewrite (Huniq x Hx Ex).
    - destruct Hok as (_ & _ & Ho & _). rewrite one_fullscreen_alt in *.
      intros w1 w2 (x1 & -> & H1)%list_elem_of_fmap (x2 & -> & H2)%list_elem_of_fmap F1 F2.
      assert (forall x : window A, id (if id x =? i then with_before x (mode x) else x) = id x
        /\ mode (if id x =? i then with_before x (mode x) else x) = mode x) as Hsame
        by (intros x; destruct (id x =? i); cbn; by split).
      destruct (Hsame x1) as [-> M1], (Hsame x2) as [-> M2].
      rewrite M1 in F1. rewrite M2 in F2. by apply Ho. }
  assert (ids s2 = ids (stack wm)) as Hs2.
  { subst s2. rewrite <- Hs1. destruct entering; [|done]. apply ids_fmap, leave_fullscreen_id. }
  assert (stack_ok (next_id wm) s2) as Hok2
    by (subst s2; destruct entering; [by apply stack_ok_leave|done]).
  assert (m = Fullscreen -> forall x, x ∈ s2 -> mode x = Fullscreen -> id x = i) as Honly.
  { intros Hm x Hx Hf. subst s2. destruct entering eqn:Een.
    - apply list_elem_of_fmap in Hx as (x' & -> & Hx'). rewrite leave_fullscreen_id.
      apply leave_fullscreen_only; [|done]. destruct Hok1 as (_ & Hf1 & _).
      rewrite list.Forall_forall in Hf1. by apply Hf1.
    - subst s1. subst entering. rewrite Hm, bool_decide_true in Een by done.
      apply negb_false_iff, bool_decide_eq_true in Een. rewrite <- Hi.
      destruct Hok as (_ & _ & Ho & _). rewrite one_fullscreen_alt in Ho. by apply Ho. }
  rewrite update_fmap by (rewrite Hs2; done).
  split_and!; [done| |].
  - cbn [stack next_id with_stack]. apply stack_ok_fmap.
    + intros x. destruct (_ =? _); [apply Hg|done].
    + intros x _. destruct (_ =? _); [by destruct (Hg x) as (_ & _ & ->)|done].
    + apply one_fullscreen_alt. intros w1 w2 (x1 & -> & H1)%list_elem_of_fmap (x2 & -> & H2)%list_elem_of_fmap.
      destruct Hok2 as (_ & _ & Ho & _). rewrite one_fullscreen_alt in Ho.
      destruct (Hg x1) as (I1 & M1 & _), (Hg x2) as (I2 & M2 & _).
      destruct (Z.eqb_spec (id x1) i), (Z.eqb_spec (id x2) i); rewrite ?I1, ?I2, ?M1, ?M2; intros F1 F2.
      * congruence.
      * rewrite (Honly F1 x2 H2 F2). congruence.
      * rewrite (Honly F2 x1 H1 F1). congruence.
      * by apply Ho.
    + done.
  - apply (focus_ok_ids wm); [|done|exact Hfo]. cbn [stack with_stack]. rewrite <- Hs2. apply ids_fmap.
    intros x. destruct (_ =? _); [apply Hg|done].
Qed.

Lemma manager_ok_raise wm i : manager_ok wm -> manager_ok (raise wm i).
Proof.
  intros (Hn & Hok & Hfo). split_and!; [done| |].
  - eapply stack_ok_perm; [|exact Hok]. cbn. by rewrite to_end_perm.
  - unfold focus_ok in *. cbn [raise with_stack stack focused].
    assert (forall f, f ∈ ids (to_end i (stack wm)) <-> f ∈ ids (stack wm)) as Hids
      by (intros f; unfold ids; by rewrite to_end_perm).
    destruct (stack wm) as [|x l] eqn:E; [done|].
    specialize (proj2 (Hids (focused wm)) Hfo). intros Hin.
    destruct (to_end i (x :: l)); [by apply not_elem_of_nil in Hin|done].
Qed.

Lemma manager_ok_set_rect wm i user work : manager_ok wm -> manager_ok (set_rect wm i user work).
Proof.
  intros Hok. unfold set_rect. rewrite update_fmap by apply Hok.
  apply manager_ok_fmap; try done; intros x; by destruct (_ =? _).
Qed.

Lemma manager_ok_step wm delta : manager_ok wm -> manager_ok (step wm delta).
Proof.
  intros Hok. unfold step. destruct (_ =? _)%nat; [done|]. cbv zeta.
  generalize (Z.of_nat (default (length (stack wm) - 1)%nat (start_from 0 (focused wm) (stack wm)))) as start.
  intros start. generalize (length (stack wm)) as fuel. intros fuel. generalize 1 as k.
  induction fuel as [|fuel IH]; intros k; [done|]. cbn [step_from].
  destruct (stack wm !! _) as [wd|] eqn:E; [|done]. case_bool_decide; [apply IH|].
  destruct Hok as (Hn & Hok & _). apply manager_ok_focus; [done|done|].
  apply list_elem_of_fmap. exists wd. split; [done|]. by eapply list_elem_of_lookup_2.
Qed.

(** ** The manager as a state machine *)

(** One call.  Focus is given to windows of the stack only, as the session does;
    identifiers do not come round again within 32 bits. *)
Inductive wm_step : manager A -> manager A -> Prop :=
  | StepOpen wm a work : next_id wm + 1 < 2 ^ 32 -> wm_step wm (fst (open wm a work))
  | StepClose wm i : wm_step wm (fst (close wm i))
  | StepRaise wm i : wm_step wm (raise wm i)
  | StepFocus wm i : i ∈ ids (stack wm) -> wm_step wm (focus wm i)
  | StepSetRect wm i user work : wm_step wm (set_rect wm i user work)
  | StepNext wm : wm_step wm (focus_next wm)
  | StepPrev wm : wm_step wm (focus_prev wm)
  | StepSetMode wm i m work : wm_step wm (set_mode wm i m work)
  | StepRelayout wm work c r : wm_step wm (relayout wm work c r).

Lemma wm_step_ok wm wm' : wm_step wm wm' -> manager_ok wm -> manager_ok wm'.
Proof.
  intros Hs Hok. destruct Hs.
  - by apply manager_ok_open.
  - by apply manager_ok_close.
  - by apply manager_ok_raise.
  - apply manager_ok_focus; [apply Hok|apply Hok|done].
  - by apply manager_ok_set_rect.
  - by apply manager_ok_step.
  - by apply manager_ok_step.
  - by apply manager_ok_set_mode.
  - by apply manager_ok_fmap.
Qed.

(** C27: whatever is opened, closed, raised, focused, moved or resized, the
    manager keeps its invariant: identifiers are distinct and were given out, at
    most 64 windows are open and at most one is in full screen, no window
    remembers full screen as the mode to return to, and the focus is on a window
    of the stack, or on none when there is none. *)
Theorem wm_invariant wm : rtc wm_step manager_new wm -> manager_ok wm.
Proof.
  intros Hr. assert (manager_ok (manager_new (A := A))) as H0.
  { split_and!; [done| |done]. split_and!; [apply base.NoDup_nil_2|constructor| |cbn; lia].
    by intros i j w1 w2 Hi. }
  revert H0. induction Hr as [|x y z Hs _ IH]; [done|]. intros Hx. apply IH. by eapply wm_step_ok.
Qed.

(** ** The window under a cell *)

Definition shown_at (x y : Z) wd : bool :=
  negb (bool_decide (mode wd = Minimized)) && contains (display_rect wd) x y.

Lemma hit_spec wm x y wd :
  hit wm x y = Some wd <->
  exists l1 l2, stack wm = l1 ++ wd :: l2 /\ shown_at x y wd = true /\
    Forall (fun wd' => shown_at x y wd' = false) l2.
Proof.
  unfold hit. fold (shown_at x y). generalize (stack wm) as l. intros l.
  induction l as [|z l IH] using rev_ind.
  - cbn. split; [done|]. by intros (l1 & l2 & E%app_cons_not_nil & _).
  - rewrite List.rev_app_distr. change (List.rev [z] ++ List.rev l) with (z :: List.rev l).
    cbn [List.find]. destruct (shown_at x y z) eqn:Ez.
    + split.
      * intros Heq. injection Heq as <-. exists l, []. split_and!; [done|done|constructor].
      * intros (l1 & l2 & E & Hw & Hf). destruct l2 as [|b l2 _] using rev_ind.
        -- apply app_inj_tail in E as [_ ->]. done.
        -- rewrite app_comm_cons, app_assoc in E. apply app_inj_tail in E as [_ ->].
           rewrite Forall_app, Forall_singleton in Hf. destruct Hf. congruence.
    + rewrite IH. split; intros (l1 & l2 & E & Hw & Hf).
      * exists l1, (l2 ++ [z]). rewrite E, <- app_assoc. split_and!; [done|done|].
        rewrite Forall_app, Forall_singleton. done.
      * destruct l2 as [|b l2 _] using rev_ind.
        -- apply app_inj_tail in E as [_ ->]. congruence.
        -- rewrite app_comm_cons, app_assoc in E. apply app_inj_tail in E as [-> ->].
           rewrite Forall_app in Hf. destruct Hf as [Hf _]. by exists l1, l2.
Qed.

(** A click reaches the window one sees and brings it to the front: [hit]
    returns the topmost window shown there, and once it is focused it stands at
    the end of the stack, has the focus and is what the same cell hits. *)
Theorem click_brings_front wm x y wd :
  manager_ok wm -> hit wm x y = Some wd ->
  (exists l1 l2, stack wm = l1 ++ wd :: l2 /\ shown_at x y wd = true /\
     Forall (fun wd' => shown_at x y wd' = false) l2) /\
  let wm' := focus wm (id wd) in
  focused wm' = id wd /\ hit wm' x y = Some wd /\
  (exists l, stack wm' = l ++ [wd]) /\ ids (stack wm') ≡ₚ ids (stack wm).
Proof.
  intros (_ & (Hn & _) & _) Hh. apply hit_spec in Hh as (l1 & l2 & E & Hw & Hf).
  split; [by exists l1, l2|]. cbv zeta. split; [done|].
  assert (leave_fullscreen (id wd) wd = wd) as Hsame
    by (unfold leave_fullscreen; by rewrite Z.eqb_refl).
  assert (stack (focus wm (id wd))
    = ((leave_fullscreen (id wd) <$> l1) ++ (leave_fullscreen (id wd) <$> l2)) ++ [wd]) as Hst.
  { rewrite focus_stack, E, fmap_app. cbn [fmap list_fmap]. rewrite Hsame.
    rewrite to_end_app; [by rewrite app_assoc|done|].
    rewrite ids_fmap by apply leave_fullscreen_id.
    rewrite E in Hn. unfold ids in *. rewrite fmap_app in Hn. cbn in Hn.
    apply list.NoDup_app in Hn as (_ & Hd & _). intros Hin. apply (Hd (id wd) Hin). by left. }
  split_and!.
  - apply hit_spec. eexists _, []. rewrite Hst. by split_and!.
  - rewrite Hst. by eexists.
  - rewrite focus_stack. unfold ids. rewrite to_end_perm.
    change (ids (leave_fullscreen (id wd) <$> stack wm) ≡ₚ ids (stack wm)).
    by rewrite ids_fmap by apply leave_fullscreen_id.
Qed.

(** ** The wanted geometry survives *)

Lemma relayout_relayout wm work c r work' c' r' :
  relayout (relayout wm work c r) work' c' r' = relayout wm work' c' r'.
Proof.
  unfold relayout, with_stack. cbn. f_equal. rewrite <- list_fmap_compose.
  apply list_fmap_ext. intros i wd _. done.
Qed.

(** C28: resizing the terminal is reversible: after any sequence of sizes and
    panel edges, coming back to a size gives exactly the windows that size gives
    directly; each is at least as large as its application asks, and a window in
    normal mode whose minimum fits is inside the work area. *)
Theorem resize_reversible wm (sizes : list (rect * Z * Z)) work c r :
  relayout (fold_left (fun wm s => relayout wm (fst (fst s)) (snd (fst s)) (snd s)) sizes wm) work c r
    = relayout wm work c r /\
  forall wd, wd ∈ stack (relayout wm work c r) -> mode wd = Normal ->
    w (frame_min (app wd)) <= rw (display_rect wd) /\ h (frame_min (app wd)) <= rh (display_rect wd) /\
    (w (frame_min (app wd)) <= rw work -> h (frame_min (app wd)) <= rh work ->
     inside_rect (display_rect wd) work).
Proof.
  split.
  - revert wm. induction sizes as [|s sizes IH]; intros wm; [done|]. cbn [fold_left].
    by rewrite IH, relayout_relayout.
  - intros wd (x & -> & _)%list_elem_of_fmap Hm. cbn [with_display mode app display_rect] in Hm |- *.
    unfold display_rect_for. rewrite Hm.
    destruct (clamp_to_size (user_rect x) work (frame_min (app x))).
    split_and!; [done|done|]. by apply clamp_to_inside.
Qed.
End Invariant.

(** ** The tour of the windows *)

Section Tour.
Context {A : Type} `{App A}.
Implicit Types (wm : manager A).

Lemma to_end_head i (wd : window A) l : id wd = i -> to_end i (wd :: l) = l ++ [wd].
Proof. intros Hi. cbn. by rewrite Hi, Z.eqb_refl. Qed.

Lemma start_from_last k f l (wd : window A) :
  id wd = f -> f ∉ ids l -> start_from k f (l ++ [wd]) = Some (k + length l)%nat.
Proof.
  intros Hf. revert k. induction l as [|x l IH]; intros k Hn; cbn.
  - by rewrite Hf, Z.eqb_refl, Nat.add_0_r.
  - cbn in Hn. apply not_elem_of_cons in Hn as [Hx Hn]. zrw_false (id x =? f).
    rewrite IH by done. f_equal. lia.
Qed.

(** With the focus on top, the next window is the one at the bottom. *)
Lemma focus_next_bottom wm x l :
  stack wm = x :: l -> (exists l' t, stack wm = l' ++ [t] /\ focused wm = id t /\ id t ∉ ids l') ->
  mode x <> Minimized -> focus_next wm = focus wm (id x).
Proof.
  intros Hs (l' & t & Hl & Hf & Hn) Hm. unfold focus_next, step.
  assert (length (stack wm) = S (length l)) as Hlen by (by rewrite Hs).
  rewrite Hlen. cbn [Nat.eqb]. cbv zeta. rewrite Hl at 1. rewrite start_from_last by (congruence || (by rewrite Hf)).
  assert (length l' = length l) as El.
  { apply (f_equal length) in Hl. rewrite length_app, Hlen in Hl. cbn in Hl. lia. }
  cbn [default step_from Nat.add]. unfold Datatypes.id. rewrite El.
  assert (wrap_index (Z.of_nat (length l)) 1 1 (zlen (stack wm)) = 0) as ->.
  { unfold wrap_index, zlen. rewrite Hlen. replace (Z.of_nat (length l) + 1 * 1) with (Z.of_nat (S (length l))) by lia.
    rewrite Z.rem_same, Z.add_0_l by lia. apply Z.rem_same. lia. }
  rewrite Hs. change ((x :: l) !! Z.to_nat 0) with (Some x). cbv iota beta. by rewrite bool_decide_false.
Qed.

Definition on_screen (wd : window A) : Prop := mode wd = Normal \/ mode wd = Maximized.

(** The focus is on the window at the front. *)
Definition focus_on_top wm : Prop := exists l t, stack wm = l ++ [t] /\ focused wm = id t.

Lemma leave_fullscreen_all i l : Forall on_screen l -> leave_fullscreen i <$> l = l.
Proof.
  induction 1 as [|x l Hx _ IH]; [done|]. cbn. rewrite IH. f_equal.
  unfold leave_fullscreen. destruct Hx as [-> | ->]; by rewrite bool_decide_false, andb_false_r.
Qed.

Lemma focus_next_turn wm x l :
  NoDup (ids (stack wm)) -> Forall on_screen (stack wm) -> focus_on_top wm -> stack wm = x :: l ->
  focus_next wm = Manager (l ++ [x]) (next_id wm) (id x) (cascade wm).
Proof.
  intros Hn Hs (l' & t & Hl & Hf) Hx.
  rewrite (focus_next_bottom wm x l Hx).
  - unfold focus. cbn [raise with_stack stack next_id cascade]. f_equal.
    rewrite Hx in *. by rewrite leave_fullscreen_all, to_end_head.
  - exists l', t. split_and!; [done|done|]. rewrite Hl in Hn. unfold ids in *. rewrite fmap_app in Hn.
    apply list.NoDup_app in Hn as (_ & Hd & _). intros Hin. apply (Hd (id t) Hin). by left.
  - rewrite Hx in Hs. apply list.Forall_cons in Hs as [[-> | ->] _]; done.
Qed.

(** Going to the next window visits them all: when none is minimised or in
    full screen and the focus is on the front one, the k-th press gives the focus
    to the k-th window from the back and turns the stack by k, so that as many
    presses as windows give every one of them the focus once and come back to
    the very manager one left. *)
Theorem focus_next_visits_all wm k :
  NoDup (ids (stack wm)) -> Forall on_screen (stack wm) -> focus_on_top wm ->
  (1 <= k <= length (stack wm))%nat ->
  let wm' := Nat.iter k focus_next wm in
  stack wm' = drop k (stack wm) ++ take k (stack wm) /\
  Some (focused wm') = id <$> stack wm !! (k - 1)%nat /\
  (k = length (stack wm) -> wm' = wm).
Proof.
  intros Hn Hs Ht Hk. cbv zeta.
  assert (forall k, (k <= length (stack wm))%nat ->
    exists f, Nat.iter k focus_next wm = Manager (drop k (stack wm) ++ take k (stack wm)) (next_id wm) f (cascade wm)
    /\ Some f = if (k =? 0)%nat then Some (focused wm) else id <$> stack wm !! (k - 1)%nat) as Hit.
  { clear k Hk. intros k. induction k as [|k IH]; intros Hk.
    - exists (focused wm). rewrite drop_0, take_0, app_nil_r. split; [by destruct wm|done].
    - destruct (IH ltac:(lia)) as (f & E & Ef). 
      change (Nat.iter (S k) focus_next wm) with (focus_next (Nat.iter k focus_next wm)). rewrite E.
      destruct (lookup_lt_is_Some_2 (stack wm) k ltac:(lia)) as [x Hx].
      pose proof (drop_S _ _ _ Hx) as Hd.
      exists (id x). split; [|cbn; by rewrite Nat.sub_0_r, Hx].
      rewrite (focus_next_turn _ x (drop (S k) (stack wm) ++ take k (stack wm))).
      + cbn [next_id cascade]. f_equal. rewrite (take_S_r _ _ _ Hx). by rewrite app_assoc.
      + cbn [stack]. unfold ids. rewrite Permutation_app_comm, take_drop. done.
      + cbn [stack]. rewrite <- (take_drop k (stack wm)) in Hs. rewrite Forall_app in *. tauto.
      + unfold focus_on_top. cbn [stack focused]. destruct k as [|k].
        * destruct Ht as (l & t & Hl & Hft). exists l, t. rewrite drop_0, take_0, app_nil_r.
          cbn in Ef. injection Ef as ->. done.
        * cbn in Ef. rewrite Nat.sub_0_r in Ef.
          destruct (stack wm !! k) as [t|] eqn:Et; [|done]. injection Ef as ->.
          exists (drop (S k) (stack wm) ++ take k (stack wm)), t.
          by rewrite (take_S_r _ _ _ Et), app_assoc.
      + cbn [stack]. by rewrite Hd. }
  destruct (Hit k ltac:(lia)) as (f & E & Ef). rewrite E. cbn [stack focused].
  destruct (Nat.eqb_spec k 0) as [|_]; [lia|]. split_and!; [done|done|].
  intros ->. rewrite drop_all, firstn_all. cbn [app].
  destruct Ht as (l & t & Hl & Hft). rewrite Hl in Ef.
  rewrite length_app in Ef. cbn [length] in Ef.
  rewrite lookup_app_r in Ef by lia. replace (length l + 1 - 1 - length l)%nat with 0%nat in Ef by lia.
  cbn in Ef. injection Ef as ->. rewrite <- Hft. by destruct wm.
Qed.

(** Going to the previous window, on the other hand, exchanges the two windows in
    front, and a second press comes back. *)
Lemma focus_prev_exchanges wm l a b :
  NoDup (ids (stack wm)) -> Forall on_screen (stack wm) -> stack wm = l ++ [a; b] -> focused wm = id b ->
  focus_prev wm = Manager (l ++ [b; a]) (next_id wm) (id a) (cascade wm).
Proof.
  intros Hn Hs Hl Hf. unfold focus_prev, step.
  assert (length (stack wm) = S (S (length l))) as Hlen by (rewrite Hl, length_app; cbn; lia).
  rewrite Hlen. cbn [Nat.eqb]. cbv zeta.
  assert (stack wm = (l ++ [a]) ++ [b]) as Hl' by (by rewrite Hl, <- app_assoc).
  assert ((id b ∉ ids (l ++ [a])) /\ (id a ∉ ids l)) as [Hb Ha].
  { rewrite Hl' in Hn. unfold ids in *. rewrite fmap_app in Hn.
    apply list.NoDup_app in Hn as (Hn & Hd & _). split; [intros Hin; apply (Hd _ Hin); by left|].
    rewrite fmap_app in Hn. apply list.NoDup_app in Hn as (_ & Hd' & _). intros Hin. apply (Hd' _ Hin). by left. }
  rewrite Hl' at 1. rewrite start_from_last by (done || congruence).
  rewrite length_app. cbn [default length Nat.add step_from]. unfold Datatypes.id.
  assert (wrap_index (Z.of_nat (length l + 1)) (-1) 1 (zlen (stack wm)) = Z.of_nat (length l)) as ->.
  { unfold wrap_index, zlen. rewrite Hlen.
    rewrite (Z.rem_small (Z.of_nat (length l + 1) + (-1) * 1)) by lia.
    replace (Z.of_nat (length l + 1) + (-1) * 1 + Z.of_nat (S (S (length l)))) with
      (Z.of_nat (length l) + 1 * Z.of_nat (S (S (length l)))) by lia.
    rewrite Z.rem_add by lia. apply Z.rem_small. lia. }
  rewrite Nat2Z.id.
  assert (stack wm !! length l = Some a) as Hla by (rewrite Hl, lookup_app_r, Nat.sub_diag; done).
  rewrite Hla. rewrite bool_decide_false.
  2:{ rewrite Hl in Hs. apply Forall_app in Hs as [_ Hs]. apply list.Forall_cons in Hs as [[-> | ->] _]; done. }
  unfold focus. cbn [raise with_stack stack next_id cascade]. f_equal.
  rewrite leave_fullscreen_all by done. rewrite Hl, to_end_app by done. done.
Qed.
End Tour.

(** ** Witnesses *)

#[export] Instance size_app : App size := { min_size := fun s => s }.

Definition demo_work : rect := Rect 0 1 80 23.
Definition demo_manager : manager size :=
  fst (open (fst (open (fst (open manager_new (Size 10 3) demo_work)) (Size 20 5) demo_work)) (Size 10 3) demo_work).

Lemma wm_invariant_witness : manager_ok (set_mode (focus demo_manager 2) 2 Fullscreen demo_work).
Proof.
  apply wm_invariant. unfold demo_manager.
  eapply rtc_l; [by apply (StepOpen manager_new (Size 10 3) demo_work)|].
  eapply rtc_l; [by apply StepOpen|]. eapply rtc_l; [by apply StepOpen|].
  eapply rtc_l; [apply (StepFocus _ 2); by apply (bool_decide_unpack _)|].
  eapply rtc_l; [apply StepSetMode|]. apply rtc_refl.
Defined.

Lemma click_brings_front_witness :
  exists wd, hit demo_manager 2 2 = Some wd /\ focused (focus demo_manager (id wd)) = id wd.
Proof.
  eexists. split; [by vm_compute|].
  refine (proj1 (proj2 (click_brings_front demo_manager 2 2 _ _ _))); [|by vm_compute].
  split_and!; [done| |by apply (bool_decide_unpack _)]. split_and!.
  - by apply (bool_decide_unpack _).
  - repeat constructor; by vm_compute.
  - apply one_fullscreen_alt. intros w1 w2 H1 H2 F1 F2.
    repeat (apply elem_of_cons in H1 as [->|H1]; [done|]). by apply not_elem_of_nil in H1.
  - by apply (bool_decide_unpack _).
Defined.

Lemma resize_reversible_witness :
  relayout (relayout demo_manager (Rect 0 1 20 5) 20 6) demo_work 80 24 = relayout demo_manager demo_work 80 24 /\
  match stack (relayout demo_manager demo_work 80 24) with
  | wd :: _ => inside_rect (display_rect wd) demo_work
  | [] => False
  end.
Proof.
  destruct (resize_reversible demo_manager [(Rect 0 1 20 5, 20, 6)] demo_work 80 24) as [H1 H2].
  split; [exact H1|]. apply H2; [vm_compute; left|reflexivity|by vm_compute|by vm_compute].
Defined.

Lemma focus_next_visits_all_witness :
  Nat.iter 3 focus_next demo_manager = demo_manager.
Proof.
  apply (focus_next_visits_all demo_manager 3); [by apply (bool_decide_unpack _)| | |vm_compute; lia|done].
  - repeat constructor; by left.
  - let s := eval vm_compute in (stack demo_manager) in
    match s with [?a; ?b; ?c] => exists [a; b], c end. split; by vm_compute.
Defined.
