(* ===== verification/Decor.v ===== *)
(** * Window decorations: [src/wm/decor.cpp], [src/wm/hittest.cpp]

    Where the frame, the title, the buttons and the client area stand, how they
    are drawn, and what a click at a cell means. *)

From S2P Require Import Prelude RowPairs Utf8 Cell Width Profile Surface Theme Window.

Record decor := Decor {
  title_bar : rect;
  title_text : rect;
  buttons : rect;
  button_count : Z;
  client : rect;
}.

Definition kButtonWidth : Z := 3.
Definition kTitleMargin : Z := 2.

(** [for (candidate = 3; candidate >= 1; --candidate)]: the most that fit. *)
Definition buttons_for (w : Z) : Z :=
  if 7 + kButtonWidth * 3 <=? w then 3
  else if 7 + kButtonWidth * 2 <=? w then 2
  else if 7 + kButtonWidth * 1 <=? w then 1
  else 0.

Definition decor_metrics (frame : rect) : decor :=
  let n := buttons_for (rw frame) in
  let bx := rx frame + rw frame - 1 - kButtonWidth * n in
  let title_x := rx frame + kTitleMargin in
  let title_end := if 0 <? n then bx - 1 else rx frame + rw frame - 1 in
  Decor (Rect (rx frame) (ry frame) (rw frame) 1)
    (Rect title_x (ry frame) (Z.max 0 (title_end - title_x)) 1)
    (Rect bx (ry frame) (kButtonWidth * n) 1) n (client_rect frame).

Definition button_label (b : border) (which : Z) : bytes :=
  let uni := match b with BorderUnicode => true | BorderAscii => false end in
  if which =? 0 then str "[_]"
  else if which =? 1 then if uni then 91 :: encode_utf8 0x25A1 ++ [93] else str "[o]"
  else if uni then 91 :: encode_utf8 0xD7 ++ [93] else str "[x]".

(** [draw_decor]: [v] is the root view of the screen. *)
Definition draw_decor {A} (amb : bool) (v : view) (s : surface) (wd : window A) (focused : bool)
    (th : theme) (b : border) : surface :=
  let f := display_rect wd in
  if (rw f <=? 0) || (rh f <=? 0) then s
  else
    let uni := match b with BorderUnicode => true | BorderAscii => false end in
    let m := decor_metrics f in
    let frame_st := Style (if focused then border_focus th else border_blur th) (panel_bg th) 0 in
    let s := fill v s f frame_st in
    let s := box amb v s f b frame_st in
    let title_st := Style (if focused then title_focus_fg th else title_blur_fg th)
                      (if focused then title_focus_bg th else title_blur_bg th) 0 in
    let s := fill v s (title_bar m) title_st in
    let s := if 0 <? rw (title_text m)
             then fst (text amb (sub v (title_text m)) s 0 0 (title wd) title_st) else s in
    let s := fold_left (fun s i =>
      let which := 3 - button_count m + i in
      fst (text amb (sub v (Rect (rx (buttons m) + kButtonWidth * i) (ry (buttons m)) kButtonWidth 1))
             s 0 0 (button_label b which) title_st)) (range 0 (button_count m)) s in
    if 2 <=? rh f
    then put amb v s (rx f + rw f - 1) (ry f + rh f - 1) (if uni then 0x25E2 else 35)
           (Style (accent th) (bg frame_st) (attrs frame_st))
    else s.

Inductive win_hit :=
  | HitNone | HitFrame | HitTitleBar | HitMinimize | HitMaximize | HitClose
  | HitEdgeRight | HitEdgeBottom | HitCornerBR | HitClient.

#[export] Instance win_hit_eq_dec : EqDecision win_hit. Proof. solve_decision. Defined.

Record hit_result := HitResult { what : win_hit; win : window_id; lx : Z; ly : Z }.

Definition button_hit (which : Z) : win_hit :=
  if which =? 0 then HitMinimize else if which =? 1 then HitMaximize else HitClose.

Definition hit_window {A} (wd : window A) (x y : Z) : hit_result :=
  let f := display_rect wd in
  if negb (contains f x y) then HitResult HitNone 0 0 0
  else
    let m := decor_metrics f in
    if (x =? rx f + rw f - 1) && (y =? ry f + rh f - 1) && (2 <=? rh f)
    then HitResult HitCornerBR (id wd) 0 0
    else if y =? ry (title_bar m) then
      if (0 <? button_count m) && (rx (buttons m) <=? x) && (x <? rx (buttons m) + rw (buttons m)) then
        let slot := Z.quot (x - rx (buttons m)) 3 in
        let which := 3 - button_count m + slot in
        HitResult (button_hit which) (id wd) 0 0
      else HitResult HitTitleBar (id wd) 0 0
    else if x =? rx f + rw f - 1 then HitResult HitEdgeRight (id wd) 0 0
    else if y =? ry f + rh f - 1 then HitResult HitEdgeBottom (id wd) 0 0
    else
      let c := client m in
      if contains c x y then HitResult HitClient (id wd) (x - rx c) (y - ry c)
      else HitResult HitFrame (id wd) 0 0.

Lemma containsP r x y :
  contains r x y = true <-> rx r <= x < rx r + rw r /\ ry r <= y < ry r + rh r.
Proof. unfold contains. rewrite !andb_true_iff, !Z.leb_le, !Z.ltb_lt. lia. Qed.

Lemma containsN r x y :
  contains r x y = false <-> ~ (rx r <= x < rx r + rw r /\ ry r <= y < ry r + rh r).
Proof. rewrite <- containsP. destruct (contains r x y); split; (done || by intros []). Qed.

(** The geometry, in numbers. *)
Lemma decor_numbers f : 
  let m := decor_metrics f in
  0 <= button_count m <= 3 /\ (0 < button_count m -> 7 + 3 * button_count m <= rw f) /\
  title_bar m = Rect (rx f) (ry f) (rw f) 1 /\
  buttons m = Rect (rx f + rw f - 1 - 3 * button_count m) (ry f) (3 * button_count m) 1 /\
  client m = Rect (rx f + 1) (ry f + 1) (Z.max 0 (rw f - 2)) (Z.max 0 (rh f - 2)) /\
  title_text m = Rect (rx f + 2) (ry f)
    (Z.max 0 ((if 0 <? button_count m then rx f + rw f - 1 - 3 * button_count m - 1
               else rx f + rw f - 1) - (rx f + 2))) 1.
Proof.
  cbv zeta. split_and!; try done;
    unfold decor_metrics, buttons_for, kButtonWidth; cbn [button_count]; zcases.
Qed.

(** The zone under a cell of the frame, from the most specific to the least. *)
Inductive zone {A} (wd : window A) (x y : Z) : hit_result -> Prop :=
  | ZoneOut : contains (display_rect wd) x y = false -> zone wd x y (HitResult HitNone 0 0 0)
  | ZoneCorner :
      contains (display_rect wd) x y = true -> 2 <= rh (display_rect wd) ->
      x = rx (display_rect wd) + rw (display_rect wd) - 1 ->
      y = ry (display_rect wd) + rh (display_rect wd) - 1 ->
      zone wd x y (HitResult HitCornerBR (id wd) 0 0)
  | ZoneButton i k :
      contains (display_rect wd) x y = true -> y = ry (display_rect wd) ->
      0 <= i < button_count (decor_metrics (display_rect wd)) -> 0 <= k < 3 ->
      x = rx (buttons (decor_metrics (display_rect wd))) + 3 * i + k ->
      zone wd x y (HitResult (button_hit (3 - button_count (decor_metrics (display_rect wd)) + i)) (id wd) 0 0)
  | ZoneTitle :
      contains (display_rect wd) x y = true -> y = ry (display_rect wd) ->
      contains (buttons (decor_metrics (display_rect wd))) x y = false ->
      zone wd x y (HitResult HitTitleBar (id wd) 0 0)
  | ZoneRight :
      contains (display_rect wd) x y = true -> ry (display_rect wd) < y ->
      x = rx (display_rect wd) + rw (display_rect wd) - 1 ->
      y <> ry (display_rect wd) + rh (display_rect wd) - 1 ->
      zone wd x y (HitResult HitEdgeRight (id wd) 0 0)
  | ZoneBottom :
      contains (display_rect wd) x y = true -> ry (display_rect wd) < y ->
      y = ry (display_rect wd) + rh (display_rect wd) - 1 ->
      x <> rx (display_rect wd) + rw (display_rect wd) - 1 ->
      zone wd x y (HitResult HitEdgeBottom (id wd) 0 0)
  | ZoneClient :
      contains (client (decor_metrics (display_rect wd))) x y = true ->
      zone wd x y (HitResult HitClient (id wd)
        (x - rx (client (decor_metrics (display_rect wd)))) (y - ry (client (decor_metrics (display_rect wd)))))
  | ZoneLeft :
      contains (display_rect wd) x y = true -> ry (display_rect wd) < y -> x = rx (display_rect wd) ->
      x <> rx (display_rect wd) + rw (display_rect wd) - 1 ->
      zone wd x y (HitResult HitFrame (id wd) 0 0).

Lemma hit_zone {A} (wd : window A) x y : zone wd x y (hit_window wd x y).
Proof.
  destruct (decor_numbers (display_rect wd)) as (Hn & Hnw & Et & Eb & Ec & _).
  unfold hit_window. destruct (contains (display_rect wd) x y) eqn:Ef; cbn [negb]; [|by apply ZoneOut].
  pose proof Ef as Ef'. apply containsP in Ef' as [Hx Hy]. set (m := decor_metrics (display_rect wd)) in *.
  match goal with |- zone _ _ _ (if ?b then _ else _) => destruct b eqn:E1 end.
  { zbool. by apply ZoneCorner. }
  rewrite Et. cbn [ry]. destruct (Z.eqb_spec y (ry (display_rect wd))) as [Ey|Ey].
  - match goal with |- zone _ _ _ (if ?b then _ else _) => destruct b eqn:E2 end.
    + zbool. rewrite Eb in *. cbn [rx rw] in *.
      set (bx := rx (display_rect wd) + rw (display_rect wd) - 1 - 3 * button_count m) in *.
      pose proof (Z.quot_div_nonneg (x - bx) 3 ltac:(lia) ltac:(lia)) as ->.
      pose proof (Z.div_mod (x - bx) 3 ltac:(lia)). pose proof (Z.mod_pos_bound (x - bx) 3 ltac:(lia)).
      apply ZoneButton with ((x - bx) mod 3); try done.
      * fold m. split; [apply Z.div_pos; lia|apply Z.div_lt_upper_bound; lia].
      * fold m. rewrite Eb. cbn [rx]. fold bx. lia.
    + apply ZoneTitle; [done|done|]. fold m. apply containsN. rewrite Eb in *. cbn [rx ry rw rh] in *.
      intros [? _]. apply not_true_iff_false in E2. apply E2. rewrite !andb_true_iff.
      split_and!; [apply Z.ltb_lt|apply Z.leb_le|apply Z.ltb_lt]; lia.
  - destruct (Z.eqb_spec x (rx (display_rect wd) + rw (display_rect wd) - 1)) as [Er|Er].
    { apply ZoneRight; [done|lia|done|]. intros Eb'. apply not_true_iff_false in E1. apply E1.
      rewrite Eb', ?Z.eqb_refl. cbn [andb]. apply Z.leb_le. lia. }
    destruct (Z.eqb_spec y (ry (display_rect wd) + rh (display_rect wd) - 1)); [apply ZoneBottom; done || lia|].
    destruct (contains (client m) x y) eqn:E3; [by apply ZoneClient|].
    apply ZoneLeft; [done|lia| |done]. apply containsN in E3. rewrite Ec in E3. cbn [rx ry rw rh] in E3. lia.
Qed.

(** A click means what the geometry of the decoration says.  Outside the frame it hits nothing;
    a cell of the client area is a click on the application, in the coordinates
    of its own view, and no other cell is; each of the three cells of a
    button triggers the action of its label; the cells left for the title belong
    to the title bar; the grip is the corner. *)
Theorem hit_inverts_decor {A} (wd : window A) x y :
  let f := display_rect wd in
  let m := decor_metrics f in
  let r := hit_window wd x y in
  0 <= rw f -> 0 <= rh f ->
  (what r = HitNone <-> contains f x y = false) /\
  (what r = HitClient <-> contains (client m) x y = true) /\
  (what r = HitClient -> lx r = x - rx (client m) /\ ly r = y - ry (client m) /\
     0 <= lx r < rw (client m) /\ 0 <= ly r < rh (client m)) /\
  (forall i, 0 <= i < button_count m -> 
     contains (Rect (rx (buttons m) + kButtonWidth * i) (ry (buttons m)) kButtonWidth 1) x y = true ->
     0 < rh f -> what r = button_hit (3 - button_count m + i)) /\
  (contains (title_text m) x y = true -> 0 < rh f -> what r = HitTitleBar) /\
  (2 <= rh f -> 0 < rw f -> x = rx f + rw f - 1 -> y = ry f + rh f - 1 -> what r = HitCornerBR).
Proof.
  cbv zeta. intros Hw Hh. destruct (decor_numbers (display_rect wd)) as (Hn & Hnw & _ & Eb & Ec & Ett).
  assert (forall k, button_hit k <> HitNone /\ button_hit k <> HitClient) as Hbh
    by (intros k; unfold button_hit; repeat case_match; done).
  pose proof (hit_zone wd x y) as Hz. revert Hz. generalize (hit_window wd x y) as r. intros r Hz.
  rewrite !containsP, !containsN, Ett. unfold kButtonWidth. rewrite Ec.
  cbn [rx ry rw rh].
  destruct Hz; rewrite ?containsP, ?containsN, ?Ec, ?Eb in *; cbn [what win lx ly rx ry rw rh] in *.
  all: split_and!; try done; try (split; [done|lia]); try (intros; done || lia).
  all: try (intros i0 Hi0 Hc Hr; apply containsP in Hc; cbn [rx ry rw rh] in Hc;
    first [exfalso; lia | do 2 f_equal; lia]).
  all: try (split; intros E; [by destruct (Hbh (3 - button_count (decor_metrics (display_rect wd)) + i))|lia]).
  all: try (intros E; by destruct (Hbh (3 - button_count (decor_metrics (display_rect wd)) + i))).
  all: destruct (Z.ltb_spec 0 (button_count (decor_metrics (display_rect wd)))); intros; lia.
Qed.

Definition demo_window : window unit :=
  Window 7 (str "demo") [] (Rect 2 1 44 14) (Rect 2 1 44 14) Normal Normal tt (Size (-1) (-1)) false.

Lemma hit_inverts_decor_witness :
  what (hit_window demo_window 40 1) = HitMaximize /\ what (hit_window demo_window 3 2) = HitClient.
Proof.
  destruct (hit_inverts_decor demo_window 40 1) as (_ & _ & _ & Hb & _ & _); [by vm_compute|by vm_compute|].
  destruct (hit_inverts_decor demo_window 3 2) as (_ & Hc & _); [by vm_compute|by vm_compute|].
  split; [apply (Hb 1); by vm_compute|by apply Hc].
Defined.
