(* ===== verification/SysInfo.v ===== *)
(** * The machine behind the windows: [src/shell/sysinfo.hpp], [src/shell/sysinfo.cpp]

    The counters sampled from [/proc] at most once a second, and the boxes and the
    signature they are drawn in.  The files as they are read and the page size are
    arguments.  A title is measured in bytes, as the source
    measures it. *)

From Stdlib Require Import Sorted.
From S2P Require Import Prelude ProcStat Cell Surface Theme.

Definition kPeriodMs : Z := 1000.

(** What one reading of [/proc] finds: the four files, and the [stat] of each
    numbered directory that can be read. *)
Record proc_files := ProcFiles {
  f_stat : bytes; f_meminfo : bytes; f_loadavg : bytes; f_netdev : bytes; f_procs : list bytes; f_page_kb : Z }.

Record sys_info := SysInfo {
  prev_cpu : list cpu_times;
  prev_procs : list proc_info;
  prev_net : net_totals;
  sampled : bool;
  last_ms : Z;
  cores : list Z;
  mem : mem_info;
  load : list Z;
  rx_per_s : Z;
  tx_per_s : Z;
  rows : list proc_row;
}.

Definition sys_info_new : sys_info := SysInfo [] [] (NetTotals 0 0) false 0 [] (MemInfo 0 0) [0; 0; 0] 0 0 [].

Definition page_kb (v : Z) : Z := if v =? 0 then 4 else v.

(** A rate between two totals; none if the counter went back. *)
Definition rate_between (before after ms : Z) : Z :=
  if before <=? after then to_u64 ((after - before) * 1000) / ms else 0.

Definition elapsed_ticks (before after : list cpu_times) : Z :=
  match before, after with
  | b :: _, a :: _ => if total b <? total a then total a - total b else 0
  | _, _ => 0
  end.

Definition row_of (page elapsed : Z) (before : list proc_info) (p : proc_info) : proc_row :=
  let pct :=
    match List.find (fun q => p_pid q =? p_pid p) before with
    | Some q =>
        if (0 <? elapsed) && (cpu_ticks q <=? cpu_ticks p)
        then Z.min (to_u64 ((cpu_ticks p - cpu_ticks q) * 100) / elapsed) 100 else 0
    | None => 0
    end in
  ProcRow (p_pid p) (p_name p) pct (to_u64 (rss_pages p * page)).

(** The order of the list: who takes most, then the oldest. *)
Definition before_row (a b : proc_row) : bool :=
  if negb (r_cpu a =? r_cpu b) then r_cpu b <? r_cpu a else r_pid a <? r_pid b.

(** [std::stable_sort]. *)
Fixpoint insert_row (r : proc_row) (l : list proc_row) : list proc_row :=
  match l with
  | [] => [r]
  | x :: l => if before_row x r then x :: insert_row r l else r :: x :: l
  end.

Definition sort_rows (l : list proc_row) : list proc_row := foldr insert_row [] l.

Definition apply (now_ms : Z) (f : proc_files) (procs : list proc_info) (s : sys_info) : sys_info :=
  if sampled s && (now_ms - last_ms s <? kPeriodMs) then s
  else
    let cpu := parse_cpu_times (f_stat f) in
    let net := parse_netdev (f_netdev f) in
    let known := sampled s && (length (prev_cpu s) =? length cpu)%nat in
    let ms := Z.max 1 (now_ms - last_ms s) in
    SysInfo cpu procs net true now_ms
      (if known then zip_with cpu_percent (prev_cpu s) cpu else replicate (length cpu) 0)
      (parse_meminfo (f_meminfo f)) (parse_loadavg (f_loadavg f))
      (if known then rate_between (net_rx (prev_net s)) (net_rx net) ms else 0)
      (if known then rate_between (net_tx (prev_net s)) (net_tx net) ms else 0)
      (if known
       then sort_rows (row_of (page_kb (f_page_kb f)) (elapsed_ticks (prev_cpu s) cpu) (prev_procs s) <$> procs) else []).

Definition refresh (now_ms : Z) (f : proc_files) (s : sys_info) : sys_info :=
  if sampled s && (now_ms - last_ms s <? kPeriodMs) then s
  else apply now_ms f (omap parse_process_stat (f_procs f)) s.

(** ** Drawing *)

Definition gauge_color (percent : Z) : color :=
  if 85 <=? percent then CIndexed 1 else if 60 <=? percent then CIndexed 3 else CIndexed 2.

Definition uni (b : border) : bool := match b with BorderUnicode => true | BorderAscii => false end.

(** A mark of the frame: U+2500 and those after, or its ASCII stand-in. *)
Definition mark (b : border) (last : Z) (c : Z) : bytes := if uni b then [0xE2; 0x94; last] else [c].

Definition concat_n (n : Z) (s : bytes) : bytes := concat (replicate (Z.to_nat n) s).

Section Draw.
Context (amb : bool).

Definition put_text (v : view) (s : surface) (x y : Z) (t : bytes) (st : style) : surface := fst (text amb v s x y t st).

Definition frame (v : view) (s : surface) (r : rect) (title : bytes) (st bg_ : style) (b : border) : surface :=
  if (rw r <? 4) || (rh r <? 2) then s
  else
    let s := fill v s r bg_ in
    let used := 1 + 1 + zlen title + 1 in
    let top := mark b 0x8C 43 ++ [32] ++ title ++ [32] ++ concat_n (rw r - 1 - used) (mark b 0x80 45) ++ mark b 0x90 43 in
    let s := put_text v s (rx r) (ry r) top st in
    let s := fold_left (fun s y =>
      put_text v (put_text v s (rx r) y (mark b 0x82 124) st) (rx r + rw r - 1) y (mark b 0x82 124) st)
      (range (ry r + 1) (ry r + rh r - 1)) s in
    let bottom := mark b 0x94 43 ++ concat_n (rw r - 2) (mark b 0x80 45) ++ mark b 0x98 43 in
    put_text v s (rx r) (ry r + rh r - 1) bottom st.

Definition counter_box (v : view) (s : surface) (r : rect) (title value : bytes) (percent : Z) (chrome body bg_ : style) (b : border) : surface :=
  let s := frame v s r title chrome bg_ b in
  if (rh r <? 3) || (rw r <? 6) then s
  else
    let s := put_text v s (rx r + 2) (ry r + 1) value body in
    put_text v s (rx r + 2) (ry r + 2) (gauge_bar percent (rw r - 4) b) (Style (gauge_color percent) (bg body) (attrs body)).

Definition rate (n : Z) : bytes :=
  if 1024 * 1024 <=? n then to_string (n / (1024 * 1024)) ++ str "Mo/s"
  else if 1024 <=? n then to_string (n / 1024) ++ str "Ko/s"
  else to_string n ++ str "o/s".

Definition two_decimals (h : Z) : bytes :=
  to_string (Z.quot h 100) ++ str "." ++ (if Z.rem h 100 <? 10 then str "0" else []) ++ to_string (Z.rem h 100).

Definition load_at (si : sys_info) (i : nat) : bytes := two_decimals (default 0 (load si !! i)).

Definition mem_percent (m : mem_info) : Z :=
  let used := if available_kb m <? total_kb m then total_kb m - available_kb m else 0 in
  if total_kb m =? 0 then 0 else to_s32 (to_u64 (used * 100) / total_kb m).

Definition kMaxRows : nat := 5.

Definition draw_row (v : view) (chrome body : style) (s : surface) (line : Z) (r : proc_row) : surface :=
  let s := put_text v s 2 line (to_string (r_cpu r) ++ str "%") (Style (gauge_color (r_cpu r)) (bg body) (attrs body)) in
  put_text v s (2 + 5) line (to_string (rss_kb r / 1024) ++ str "Mo  " ++ r_name r) chrome.

Fixpoint draw_rows (v : view) (chrome body : style) (bottom : Z) (s : surface) (line : Z) (l : list proc_row) : surface :=
  match l with
  | [] => s
  | r :: l => if bottom <=? line then s else draw_rows v chrome body bottom (draw_row v chrome body s line r) (line + 1) l
  end.

Definition draw_sysinfo (si : sys_info) (v : view) (s : surface) (th : theme) (b : border) : surface :=
  let w := rw v in
  let h := rh v in
  if (w <? 24) || (h <? 8) then s
  else
    let chrome := Style (panel_fg th) CDefault 0 in
    let body := Style (panel_fg th) CDefault Bold in
    let bg_ := Style CDefault (desktop_bg th) 0 in
    let two := 26 <=? w in
    let bw := if two then Z.quot w 2 else w in
    let bh := 4 in
    let cpu_pct := default 0 (cores si !! 0%nat) in
    let mem_pct := mem_percent (mem si) in
    let percent p := to_string p ++ str "%" in
    let s := counter_box v s (Rect 0 0 bw bh) (str "CPU") (percent cpu_pct) cpu_pct chrome body bg_ b in
    let '(s, y) :=
      if two then (counter_box v s (Rect bw 0 (w - bw) bh) (str "MEM") (percent mem_pct) mem_pct chrome body bg_ b, bh)
      else (counter_box v s (Rect 0 bh bw bh) (str "MEM") (percent mem_pct) mem_pct chrome body bg_ b, bh + bh) in
    let '(s, y) :=
      if y + bh <=? h then
        let s := frame v s (Rect 0 y bw bh) (str "RESEAU") chrome bg_ b in
        let s := put_text v s 2 (y + 1) ((if uni b then [0xE2; 0x86; 0x93] else str "v") ++ str " " ++ rate (rx_per_s si)) body in
        let s := put_text v s 2 (y + 2) ((if uni b then [0xE2; 0x86; 0x91] else str "^") ++ str " " ++ rate (tx_per_s si)) body in
        let s :=
          if two then
            let s := frame v s (Rect bw y (w - bw) bh) (str "CHARGE") chrome bg_ b in
            let s := put_text v s (bw + 2) (y + 1) (load_at si 0) body in
            put_text v s (bw + 2) (y + 2) (load_at si 1 ++ str " " ++ load_at si 2) body
          else s in
        (s, y + bh)
      else (s, y) in
    let want := Z.of_nat (Nat.min kMaxRows (length (rows si))) + 2 in
    if y + 3 <=? h then
      let box_h := Z.min want (h - y) in
      let s := frame v s (Rect 0 y w box_h) (str "PROCESSUS") chrome bg_ b in
      draw_rows v chrome body (y + box_h - 1) s (y + 1) (take kMaxRows (rows si))
    else s.

(** The signature, five rows of three columns a letter. *)
Definition glyph_rows (c : Z) : list bytes :=
  match c with
    | 84 => [str "###"; str " # "; str " # "; str " # "; str " # "]
    | 69 => [str "###"; str "#  "; str "###"; str "#  "; str "###"]
    | 82 => [str "## "; str "# #"; str "## "; str "# #"; str "# #"]
    | 77 => [str "###"; str "###"; str "# #"; str "# #"; str "# #"]
    | 79 => [str "###"; str "# #"; str "# #"; str "# #"; str "###"]
    | 83 => [str "###"; str "#  "; str "###"; str "  #"; str "###"]
    | _ => [str "   "; str "   "; str "   "; str "   "; str "   "]
    end.

Definition kWord : bytes := str "TERMOS".

(** The cells of a row of the word that are blocks. *)
Definition word_blocks (row : nat) : list Z :=
  concat (imap (fun k c =>
    (fun i => Z.of_nat k * 4 + i) <$>
      List.filter (fun i => byte_at (default [] (glyph_rows c !! row)) (Z.to_nat i) =? 35) [0; 1; 2]) kWord).

Definition draw_banner (v : view) (s : surface) (th : theme) (b : border) : surface :=
  let word_w := zlen kWord * (3 + 1) - 1 in
  if (rw v <? word_w) || (rh v <? 5) then s
  else
    let x0 := Z.quot (rw v - word_w) 2 in
    let y0 := Z.quot (rh v - 5) 2 in
    let st := Style (desktop_sign th) CDefault 0 in
    let block := if uni b then [0xE2; 0x96; 0x88] else str "#" in
    fold_left (fun s row => fold_left (fun s x => put_text v s (x0 + x) (y0 + Z.of_nat row) block st) (word_blocks row) s)
      (seq 0 5) s.

End Draw.

(** ** What is shown is sane *)

(** [a] may stand above [b] in the list. *)
Definition above_or_same (a b : proc_row) : Prop := r_cpu b < r_cpu a \/ (r_cpu b = r_cpu a /\ r_pid a <= r_pid b).

Lemma before_row_spec a b : before_row a b = false -> above_or_same b a.
Proof. unfold before_row, above_or_same. destruct (Z.eqb_spec (r_cpu a) (r_cpu b)); cbn [negb]; lia. Qed.

Lemma before_row_true a b : before_row a b = true -> above_or_same a b.
Proof. unfold before_row, above_or_same. destruct (Z.eqb_spec (r_cpu a) (r_cpu b)); cbn [negb]; lia. Qed.

Lemma above_trans a b c : above_or_same a b -> above_or_same b c -> above_or_same a c.
Proof. unfold above_or_same. lia. Qed.

Lemma insert_row_perm r l : insert_row r l ≡ₚ r :: l.
Proof.
  induction l as [|x l IH]; [done|]. cbn. destruct (before_row x r); [|done]. rewrite IH. apply Permutation_swap.
Qed.

Lemma insert_row_sorted r l : StronglySorted above_or_same l -> StronglySorted above_or_same (insert_row r l).
Proof.
  induction 1 as [|x l Hs IH Hx]; [by repeat constructor|]. cbn. destruct (before_row x r) eqn:E.
  - constructor; [done|]. rewrite insert_row_perm. constructor; [by apply before_row_true|done].
  - apply before_row_spec in E. constructor; [by constructor|]. constructor; [done|].
    eapply List.Forall_impl; [|exact Hx]. cbn. intros y. by apply above_trans.
Qed.

Lemma sort_rows_spec l : StronglySorted above_or_same (sort_rows l) /\ sort_rows l ≡ₚ l.
Proof.
  induction l as [|r l [IH1 IH2]]; [split; [constructor|done]|]. cbn. split; [by apply insert_row_sorted|].
  by rewrite insert_row_perm, IH2.
Qed.

Lemma row_of_bounds page el before p : 0 <= r_cpu (row_of page el before p) <= 100.
Proof.
  unfold row_of. cbn [r_cpu]. destruct (List.find _ _) as [q|]; [|lia]. destruct (_ && _) eqn:E; [|lia].
  apply andb_true_iff in E as [E _]. zbool. split; [|lia]. apply Z.min_glb; [|lia]. apply Z.div_pos; [|lia]. apply Z.mod_pos_bound. lia.
Qed.

Lemma load_fields_length k s : length (load_fields k s) = k.
Proof.
  revert s. induction k as [|k IH]; intros s; [done|]. cbn [load_fields].
  destruct (load_field s) as [[v rest]|]; [cbn; by rewrite IH|by rewrite length_replicate].
Qed.

Lemma rate_between_nonneg a b ms : 0 < ms -> 0 <= rate_between a b ms.
Proof. intros Hm. unfold rate_between. destruct (_ <=? _); [|lia]. apply Z.div_pos; [|lia]. apply Z.mod_pos_bound. lia. Qed.

Definition percent_ok (p : Z) : Prop := 0 <= p <= 100.

Definition sys_info_ok (s : sys_info) : Prop :=
  Forall percent_ok (cores s) /\ length (cores s) = length (prev_cpu s) /\ length (load s) = 3%nat /\
  0 <= rx_per_s s /\ 0 <= tx_per_s s /\ Forall (fun r => percent_ok (r_cpu r)) (rows s) /\ StronglySorted above_or_same (rows s).

Lemma apply_ok now f procs s : sys_info_ok s -> sys_info_ok (apply now f procs s).
Proof.
  intros Hs. unfold apply. destruct (_ && _); [done|]. cbv zeta. set (cpu := parse_cpu_times _).
  set (known := sampled s && _). unfold sys_info_ok. cbn [cores prev_cpu load rx_per_s tx_per_s rows].
  assert (0 < Z.max 1 (now - last_ms s)) as Hms by lia. split_and!.
  - destruct known; [|apply Forall_replicate; unfold percent_ok; lia].
    generalize (prev_cpu s). induction cpu as [|c cpu IH]; intros [|b l]; constructor; [apply cpu_percent_bounds|apply IH].
  - destruct known eqn:E; [|by rewrite length_replicate]. apply andb_true_iff in E as [_ E%Nat.eqb_eq].
    rewrite length_zip_with, E. apply Nat.min_id.
  - apply load_fields_length.
  - destruct known; [by apply rate_between_nonneg|done].
  - destruct known; [by apply rate_between_nonneg|done].
  - destruct known; [|constructor]. rewrite (proj2 (sort_rows_spec _)). apply Forall_fmap.
    rewrite List.Forall_forall. intros p _. apply row_of_bounds.
  - destruct known; [apply sort_rows_spec|constructor].
Qed.

(** The counters of the desktop are sane in any history of readings, whatever
    [/proc] holds and however the clock and the counters move: every gauge is a
    percentage, there is one per processor line, no rate is negative, and the
    processes are those that take most first. *)
Theorem sysinfo_sane (readings : list (Z * proc_files)) :
  sys_info_ok (fold_left (fun s r => refresh (fst r) (snd r) s) readings sys_info_new).
Proof.
  assert (sys_info_ok sys_info_new) as H by (split_and!; try done; constructor). revert H.
  generalize sys_info_new. induction readings as [|[now f] l IH]; intros s Hs; [done|]. cbn [fold_left]. apply IH.
  unfold refresh. destruct (_ && _); [done|]. by apply apply_ok.
Qed.

(** A reading within the second changes nothing. *)
Lemma refresh_once_a_second now f s : sampled s = true -> now - last_ms s < kPeriodMs -> refresh now f s = s.
Proof. intros Hs Hn. unfold refresh. rewrite Hs. by zrw_true (now - last_ms s <? kPeriodMs). Qed.

(** A rate is per second of the time elapsed, not per reading. *)
Lemma rate_is_per_second before n ms :
  0 <= before -> 0 <= n -> 0 < ms -> n * ms < 2 ^ 64 -> (n * ms) mod 1000 = 0 ->
  rate_between before (before + n * ms / 1000) ms = n.
Proof.
  intros Hb Hn Hms Hu Hd. unfold rate_between. assert (0 <= n * ms / 1000) by (apply Z.div_pos; nia). zrw_true (before <=? before + n * ms / 1000).
  replace (before + n * ms / 1000 - before) with (n * ms / 1000) by lia.
  replace (n * ms / 1000 * 1000) with (n * ms) by (Z.div_mod_to_equations; lia).
  unfold to_u64. rewrite Z.mod_small by nia. by rewrite Z.div_mul by lia.
Qed.
