(* ===== verification/StdString.v ===== *)
(** * Searching a byte string: [std::string::find]

    The standard library's search, as the editor and the input parser use it,
    with what it promises: the first occurrence at or after a position; and the
    cutting of a text into lines that [src/shell] writes with it. *)

From S2P Require Import Prelude.

(** [std::string::find]: the first position at or after [start]. *)
Fixpoint is_prefix (needle s : bytes) : bool :=
  match needle, s with
  | [], _ => true
  | _ :: _, [] => false
  | a :: needle, b :: s => (a =? b) && is_prefix needle s
  end.

Fixpoint find_in (needle s : bytes) (at_ : nat) : option nat :=
  if is_prefix needle s then Some at_
  else match s with [] => None | _ :: s => find_in needle s (S at_) end.

Definition find_from (s needle : bytes) (start : nat) : option nat :=
  if (length s <? start)%nat then None else find_in needle (drop start s) start.

Lemma find_in_spec needle s k :
  match find_in needle s k with
  | Some i => exists n, i = (k + n)%nat /\ is_prefix needle (drop n s) = true /\
                (n <= length s)%nat /\ forall m, (m < n)%nat -> is_prefix needle (drop m s) = false
  | None => forall m, (m <= length s)%nat -> is_prefix needle (drop m s) = false
  end.
Proof.
  revert k. induction s as [|x s IH]; intros k; cbn [find_in].
  - destruct (is_prefix needle []) eqn:E.
    + exists 0%nat. split_and!; [lia|done|done|lia].
    + intros m. by rewrite drop_nil.
  - destruct (is_prefix needle (x :: s)) eqn:E.
    + exists 0%nat. split_and!; [lia|done|lia|lia].
    + specialize (IH (S k)). destruct (find_in needle s (S k)) as [i|].
      * destruct IH as (n & -> & Hn & Hl & Hm). exists (S n). cbn [drop length]. split_and!; [lia|done|lia|].
        intros [|m] ?; [done|]. apply Hm. lia.
      * intros [|m] Hm; [done|]. apply IH. cbn [length] in Hm. lia.
Qed.

Lemma find_from_spec s needle k :
  match find_from s needle k with
  | Some i => (k <= i <= length s)%nat /\ is_prefix needle (drop i s) = true /\
                forall m, (k <= m < i)%nat -> is_prefix needle (drop m s) = false
  | None => forall m, (k <= m <= length s)%nat -> is_prefix needle (drop m s) = false
  end.
Proof.
  unfold find_from. destruct (Nat.ltb_spec (length s) k); [lia|].
  pose proof (find_in_spec needle (drop k s) k) as Hf. rewrite length_drop in Hf.
  destruct (find_in needle (drop k s) k) as [i|].
  - destruct Hf as (n & -> & Hn & Hl & Hm). rewrite drop_drop in Hn. split_and!; [lia|lia|done|].
    intros m Hk. specialize (Hm (m - k)%nat ltac:(lia)). rewrite drop_drop in Hm.
    by replace (k + (m - k))%nat with m in Hm by lia.
  - intros m Hk. specialize (Hf (m - k)%nat ltac:(lia)). rewrite drop_drop in Hf.
    by replace (k + (m - k))%nat with m in Hf by lia.
Qed.

Lemma is_prefix_1 x s : is_prefix [x] s = match s with y :: _ => x =? y | [] => false end.
Proof. destruct s; [done|]. cbn. by rewrite andb_true_r. Qed.

Lemma is_prefix_spec n s : is_prefix n s = true <-> exists r, s = n ++ r.
Proof.
  revert s. induction n as [|a n IH]; intros s; [split; [by exists s|done]|].
  destruct s as [|b s]; cbn [is_prefix]; [split; [done|intros [r E]; done]|].
  rewrite andb_true_iff, Z.eqb_eq, IH. split.
  - intros [-> [r ->]]. by exists r.
  - intros [r E]. cbn in E. injection E as -> ->. split; [done|by exists r].
Qed.


(** Growing the text moves no occurrence that is already whole. *)
Lemma is_prefix_app n s t : (length n <= length s)%nat -> is_prefix n (s ++ t) = is_prefix n s.
Proof.
  revert s. induction n as [|a n IH]; intros s Hl; [done|].
  destruct s as [|b s]; cbn [length] in Hl; [lia|]. cbn. by rewrite IH by lia.
Qed.

Lemma is_prefix_length n s : is_prefix n s = true -> (length n <= length s)%nat.
Proof. intros [r ->]%is_prefix_spec. rewrite length_app. lia. Qed.

(** A search is decided by the first occurrence. *)
Lemma find_from_first s needle k i :
  (k <= i <= length s)%nat -> is_prefix needle (drop i s) = true ->
  (forall m, (k <= m < i)%nat -> is_prefix needle (drop m s) = false) ->
  find_from s needle k = Some i.
Proof.
  intros Hi Hp Hm. pose proof (find_from_spec s needle k) as H. destruct (find_from s needle k) as [j|].
  - destruct H as ([H1 H2] & H3 & H4). f_equal. destruct (Nat.lt_trichotomy i j) as [Hlt|[->|Hlt]]; [|done|].
    + by rewrite H4 in Hp by lia.
    + by rewrite Hm in H3 by lia.
  - by rewrite H in Hp by lia.
Qed.

Lemma find_from_none s needle k :
  (forall m, (k <= m <= length s)%nat -> is_prefix needle (drop m s) = false) ->
  find_from s needle k = None.
Proof.
  intros Hm. pose proof (find_from_spec s needle k) as H. destruct (find_from s needle k) as [j|]; [|done].
  destruct H as ([H1 H2] & H3 & _). by rewrite Hm in H3 by lia.
Qed.

(** ** Lines *)

(** The lines, by position: a text that ends with a newline has an empty last one. *)
Fixpoint lines_from (fuel : nat) (raw : bytes) (pos : nat) : list bytes :=
  match fuel with
  | O => []
  | S fuel =>
      if (length raw <? pos)%nat then []
      else match find_from raw [10] pos with
           | None => [drop pos raw]
           | Some nl => take (nl - pos) (drop pos raw) :: lines_from fuel raw (nl + 1)
           end
  end.

Definition no_newline (s : bytes) : Prop := Forall (fun c => c <> 10) s.

Lemma newline_free s m : no_newline s -> (m <= length s)%nat -> is_prefix [10] (drop m s) = false.
Proof.
  intros Hs Hm. rewrite is_prefix_1. destruct (drop m s) as [|c r] eqn:E; [done|].
  assert (c ∈ drop m s) as Hc by (rewrite E; apply list_elem_of_here).
  assert (no_newline (drop m s)) as Hd by (by apply Forall_drop).
  unfold no_newline in Hd. rewrite Forall_forall in Hd. apply list_elem_of_In in Hc. specialize (Hd c Hc).
  by apply Z.eqb_neq.
Qed.

Lemma lines_from_append fuel raw line pos :
  no_newline line -> (pos <= length raw)%nat -> (length raw - pos < fuel)%nat ->
  lines_from (S fuel) (raw ++ 10 :: line) pos = lines_from fuel raw pos ++ [line].
Proof.
  intros Hl. revert pos. induction fuel as [|fuel IH]; intros pos Hp Hf; [lia|].
  assert (length (raw ++ 10 :: line) = (length raw + S (length line))%nat) as Elen by (by rewrite length_app).
  remember (S fuel) as f eqn:Ef. cbn [lines_from]. rewrite Elen. replace (length raw + S (length line) <? pos)%nat with false
    by (symmetry; apply Nat.ltb_ge; lia). subst f. cbn [lines_from].
  replace (length raw <? pos)%nat with false by (symmetry; apply Nat.ltb_ge; lia).
  assert (forall m, (m < length raw)%nat -> is_prefix [10] (drop m (raw ++ 10 :: line)) = is_prefix [10] (drop m raw)) as Hsame.
  { intros m Hm. rewrite drop_app_le by lia. apply is_prefix_app. rewrite length_drop. cbn. lia. }
  pose proof (find_from_spec raw [10] pos) as Hfind. destruct (find_from raw [10] pos) as [nl|].
  - destruct Hfind as ([H1 H2] & H3 & H4). assert (nl < length raw)%nat as Hnl.
    { destruct (Nat.eq_dec nl (length raw)) as [->|]; [|lia]. by rewrite drop_all in H3. }
    rewrite (find_from_first (raw ++ 10 :: line) [10] pos nl); [|rewrite Elen; lia|by rewrite Hsame|].
    2:{ intros m Hm. rewrite Hsame by lia. by apply H4. }
    cbn [app]. f_equal; [|apply IH; lia].
    rewrite drop_app_le by lia. rewrite take_app_le; [done|]. rewrite length_drop. lia.
  - assert (is_prefix [10] (drop (length raw) (raw ++ 10 :: line)) = true) as He
      by (rewrite drop_app_length; done).
    rewrite (find_from_first (raw ++ 10 :: line) [10] pos (length raw)); [|rewrite Elen; lia|done|].
    2:{ intros m Hm. rewrite Hsame by lia. apply Hfind. lia. }
    cbn [app]. f_equal.
    + rewrite drop_app_le by lia. rewrite take_app_ge by (rewrite length_drop; lia).
      rewrite length_drop. replace (length raw - pos - (length raw - pos))%nat with 0%nat by lia.
      by rewrite take_0, app_nil_r.
    + rewrite Elen.
      replace (length raw + S (length line) <? length raw + 1)%nat with false by (symmetry; apply Nat.ltb_ge; lia).
      assert (drop (length raw + 1) (raw ++ 10 :: line) = line) as Ed
        by (rewrite drop_app_ge by lia; by replace (length raw + 1 - length raw)%nat with 1%nat by lia).
      rewrite find_from_none; [by rewrite Ed|]. intros m Hm. rewrite Elen in Hm.
      replace m with (length raw + 1 + (m - length raw - 1))%nat by lia. rewrite <- drop_drop, Ed.
      apply newline_free; [done|lia].
Qed.

Lemma lines_from_fuel f1 f2 s p :
  (length s - p < f1)%nat -> (length s - p < f2)%nat -> lines_from f1 s p = lines_from f2 s p.
Proof.
  revert f2 p. induction f1 as [|f1 IH]; intros f2 p H1 H2; [lia|]. destruct f2 as [|f2]; [lia|]. cbn [lines_from].
  destruct (Nat.ltb_spec (length s) p); [done|]. pose proof (find_from_spec s [10] p) as Hf.
  destruct (find_from s [10] p) as [nl|]; [|done]. destruct Hf as ([? ?] & Hp & _). f_equal.
  destruct (Nat.eq_dec nl (length s)) as [->|]; [by rewrite drop_all in Hp|]. apply IH; lia.
Qed.
