(* ===== verification/TextBuffer.v ===== *)
(** * The text of the editor: [src/apps/editor/buffer.hpp], [src/apps/editor/buffer.cpp]

    A vector of lines.  The theorems show that it is the flat text it stands for:
    loading and writing are inverse, every edition is the splice at the offset of
    the cursor, and the search finds an occurrence exactly when there is one. *)

From S2P Require Import Prelude StdString.

Record text_pos := TextPos { line : nat; col : nat }.

#[export] Instance text_pos_eq_dec : EqDecision text_pos. Proof. solve_decision. Defined.

Record text_buffer := TextBuffer {
  lines : list bytes;
  modified : bool;
  trailing_newline : bool;
}.

Definition newline : Z := 10.

Definition buffer_new : text_buffer := TextBuffer [[]] false true.

(** The loop of [load]: the lines from [start] on. *)
Fixpoint load_from (fuel : nat) (text : bytes) (start : nat) : list bytes :=
  match fuel with
  | O => []
  | S fuel =>
      if (length text <? start)%nat then []
      else match find_from text [newline] start with
      | None => if (start <? length text)%nat then [drop start text] else []
      | Some nl => take (nl - start) (drop start text) :: load_from fuel text (nl + 1)
      end
  end.

Definition back_is_newline (text : bytes) : bool :=
  match List.rev text with b :: _ => b =? newline | [] => false end.

Definition load (text : bytes) : text_buffer :=
  let trailing := bool_decide (text = []) || back_is_newline text in
  let lines := load_from (S (length text)) text 0 in
  TextBuffer (match lines with [] => [[]] | _ => lines end) false trailing.

(** The lines, separated. *)
Fixpoint join (lines : list bytes) : bytes :=
  match lines with
  | [] => []
  | [l] => l
  | l :: ls => l ++ newline :: join ls
  end.

Definition text (b : text_buffer) : bytes :=
  join (lines b) ++ (if trailing_newline b then [newline] else []).

Definition mark_saved (b : text_buffer) : text_buffer := TextBuffer (lines b) false (trailing_newline b).

Definition line_at (b : text_buffer) (i : nat) : bytes := default [] (lines b !! i).

Definition clamp (b : text_buffer) (p : text_pos) : text_pos :=
  match lines b with
  | [] => TextPos 0 0
  | _ =>
      let l := if (length (lines b) <=? line p)%nat then (length (lines b) - 1)%nat else line p in
      let c := if (length (line_at b l) <? col p)%nat then length (line_at b l) else col p in
      TextPos l c
  end.

Definition with_lines (b : text_buffer) (ls : list bytes) : text_buffer :=
  TextBuffer ls true (trailing_newline b).

Definition insert (b : text_buffer) (p : text_pos) (s : bytes) : text_buffer * text_pos :=
  let p := clamp b p in
  if bool_decide (s = []) then (b, p)
  else
    let l := line_at b (line p) in
    (with_lines b (<[line p := take (col p) l ++ s ++ drop (col p) l]> (lines b)),
     TextPos (line p) (col p + length s)).

Definition split_line (b : text_buffer) (p : text_pos) : text_buffer * text_pos :=
  let p := clamp b p in
  let l := line_at b (line p) in
  let ls := <[line p := take (col p) l]> (lines b) in
  (with_lines b (take (line p + 1) ls ++ drop (col p) l :: drop (line p + 1) ls),
   TextPos (line p + 1) 0).

Definition erase_before (b : text_buffer) (p : text_pos) : text_buffer * text_pos :=
  let p := clamp b p in
  let l := line_at b (line p) in
  if (0 <? col p)%nat then
    (with_lines b (<[line p := take (col p - 1) l ++ drop (col p) l]> (lines b)),
     TextPos (line p) (col p - 1))
  else if (line p =? 0)%nat then (b, p)
  else
    let above := line_at b (line p - 1) in
    let ls := <[(line p - 1)%nat := above ++ l]> (lines b) in
    (with_lines b (take (line p) ls ++ drop (line p + 1) ls), TextPos (line p - 1) (length above)).

Definition erase_at (b : text_buffer) (p : text_pos) : text_buffer * text_pos :=
  let p := clamp b p in
  let l := line_at b (line p) in
  if (col p <? length l)%nat then
    (with_lines b (<[line p := take (col p) l ++ drop (col p + 1) l]> (lines b)), p)
  else if (length (lines b) <=? line p + 1)%nat then (b, p)
  else
    let ls := <[line p := l ++ line_at b (line p + 1)]> (lines b) in
    (with_lines b (take (line p + 1) ls ++ drop (line p + 2) ls), p).

(** One pass of [find], over the lines from [i] on. *)
Fixpoint find_pass (needle : bytes) (ls : list bytes) (i from_line from_col : nat) (first_pass : bool)
    : option text_pos :=
  match ls with
  | [] => None
  | l :: ls =>
      let start := if first_pass && (i =? from_line)%nat then from_col else 0%nat in
      match (if (length l <? start)%nat then None else find_from l needle start) with
      | Some at_ => Some (TextPos i at_)
      | None => find_pass needle ls (S i) from_line from_col first_pass
      end
  end.

Definition find (b : text_buffer) (needle : bytes) (from : text_pos) : option text_pos :=
  if bool_decide (needle = []) || bool_decide (lines b = []) then None
  else
    let from := clamp b from in
    match find_pass needle (drop (line from) (lines b)) (line from) (line from) (col from) true with
    | Some p => Some p
    | None => find_pass needle (take (line from + 1) (lines b)) 0 (line from) (col from) false
    end.

(** ** The flat text *)

Definition buffer_ok (b : text_buffer) : Prop := lines b <> [].

(** The offset of a position in the joined lines. *)
Definition offset (ls : list bytes) (p : text_pos) : nat :=
  (length (concat ((fun l => l ++ [newline]) <$> take (line p) ls)) + col p)%nat.

Definition pos_ok (ls : list bytes) (p : text_pos) : Prop :=
  exists l, ls !! line p = Some l /\ (col p <= length l)%nat.

(** The lines before one, each with its newline. *)
Definition above (ls : list bytes) : bytes := concat ((fun l => l ++ [newline]) <$> ls).

Lemma above_app a b : above (a ++ b) = above a ++ above b.
Proof. unfold above. by rewrite fmap_app, concat_app. Qed.

Lemma join_app a b : b <> [] -> join (a ++ b) = above a ++ join b.
Proof.
  intros Hb. induction a as [|l a IH]; [done|].
  destruct a as [|l' a].
  - cbn. destruct b as [|x b]; [done|]. by rewrite <- !app_assoc.
  - change (join ((l :: l' :: a) ++ b)) with (l ++ newline :: join ((l' :: a) ++ b)).
    rewrite IH. unfold above. cbn [fmap list_fmap concat]. by rewrite <- !app_assoc.
Qed.

(** The lines after one, with the newline before them. *)
Definition below (ls : list bytes) : bytes := match ls with [] => [] | _ => newline :: join ls end.

Lemma join_cons l b : join (l :: b) = l ++ below b.
Proof. destruct b; [|done]. cbn. by rewrite app_nil_r. Qed.

(** A position cuts the lines in three, and the text in two. *)
Lemma pos_split ls p l :
  ls !! line p = Some l -> (col p <= length l)%nat ->
  ls = take (line p) ls ++ l :: drop (line p + 1) ls /\
  take (offset ls p) (join ls) = above (take (line p) ls) ++ take (col p) l /\
  drop (offset ls p) (join ls) = drop (col p) l ++
    below (drop (line p + 1) ls).
Proof.
  intros Hl Hc.
  assert (ls = take (line p) ls ++ l :: drop (line p + 1) ls) as E
    by (rewrite Nat.add_1_r; symmetry; by apply take_drop_middle).
  split; [done|]. unfold offset. fold (above (take (line p) ls)).
  set (a := take (line p) ls) in *. set (b := drop (line p + 1) ls) in *. clearbody a b. subst ls.
  rewrite join_app by done. rewrite join_cons.
  rewrite take_app_ge, drop_app_ge by lia. replace (length (above a) + col p - length (above a))%nat with (col p) by lia.
  split; [by rewrite take_app_le by lia|by rewrite drop_app_le by lia].
Qed.

Lemma clamp_ok b p : buffer_ok b -> pos_ok (lines b) (clamp b p).
Proof.
  unfold buffer_ok, pos_ok, clamp, line_at. intros Hb. destruct (lines b) as [|x ls] eqn:E; [done|].
  set (l := if (length (x :: ls) <=? line p)%nat then _ else _).
  assert (l < length (x :: ls))%nat as Hl.
  { subst l. destruct (Nat.leb_spec (length (x :: ls)) (line p)); cbn [length] in *; lia. }
  destruct (lookup_lt_is_Some_2 (x :: ls) l Hl) as [y Hy]. exists y. cbn [line col]. split; [done|].
  rewrite Hy. cbn [from_option]. unfold Datatypes.id. destruct (Nat.ltb_spec (length y) (col p)); lia.
Qed.

Lemma line_at_ok b p l : lines b !! p = Some l -> line_at b p = l.
Proof. unfold line_at. by intros ->. Qed.

(** Replacing the line of a position. *)
Lemma join_replace ls p l l' :
  ls !! line p = Some l ->
  join (<[line p := l']> ls) = above (take (line p) ls) ++ l' ++
    below (drop (line p + 1) ls).
Proof.
  intros Hl. pose proof (lookup_lt_Some _ _ _ Hl).
  rewrite insert_take_drop by done. rewrite join_app by done. f_equal.
  replace (S (line p)) with (line p + 1)%nat by lia. by rewrite join_cons.
Qed.

Lemma offset_replace ls p c l' :
  offset (<[line p := l']> ls) (TextPos (line p) c) = (length (above (take (line p) ls)) + c)%nat.
Proof. unfold offset. cbn [line col]. by rewrite take_insert_ge by lia. Qed.

Lemma offset_unfold ls p : offset ls p = (length (above (take (line p) ls)) + col p)%nat.
Proof. done. Qed.

Lemma offset_first ls p : line p = 0%nat -> offset ls p = col p.
Proof. intros H. by rewrite offset_unfold, H, take_0. Qed.

Lemma length_above_S ls i l :
  ls !! i = Some l -> length (above (take (S i) ls)) = (length (above (take i ls)) + length l + 1)%nat.
Proof.
  intros H. rewrite (take_S_r _ _ _ H), above_app, length_app. unfold above at 2.
  cbn [fmap list_fmap concat]. rewrite app_nil_r, length_app. cbn [length]. lia.
Qed.

Lemma insert_join b p s :
  buffer_ok b -> let q := clamp b p in let '(b', p') := insert b p s in
  join (lines b') = take (offset (lines b) q) (join (lines b)) ++ s ++ drop (offset (lines b) q) (join (lines b)) /\
  offset (lines b') p' = (offset (lines b) q + length s)%nat /\ pos_ok (lines b') p'.
Proof.
  intros Hb. cbv zeta. pose proof (clamp_ok b p Hb) as Hok. unfold insert. cbv zeta. set (q := clamp b p) in *.
  clearbody q. destruct (bool_decide_reflect (s = [])) as [->|Hs].
  { rewrite app_nil_l, take_drop. split_and!; [done|cbn; lia|done]. }
  destruct Hok as (l & Hl & Hc). rewrite (line_at_ok b (line q) l Hl). cbn [with_lines lines].
  destruct (pos_split _ _ _ Hl Hc) as (_ & -> & ->).
  rewrite (join_replace _ _ _ _ Hl), offset_replace, offset_unfold. split_and!.
  - by rewrite <- !app_assoc.
  - lia.
  - exists (take (col q) l ++ s ++ drop (col q) l). cbn [line col]. split.
    + apply list_lookup_insert_eq. by eapply lookup_lt_Some.
    + rewrite !length_app, length_take. lia.
Qed.

Lemma take_drop_lines (ls : list bytes) i l' : (i < length ls)%nat ->
  take (i + 1) (<[i := l']> ls) = take i ls ++ [l'] /\ drop (i + 1) (<[i := l']> ls) = drop (i + 1) ls.
Proof.
  intros Hi. split.
  - rewrite Nat.add_1_r, (take_S_r _ _ l') by (by apply list_lookup_insert_eq).
    by rewrite take_insert_ge by lia.
  - by rewrite drop_insert_lt by lia.
Qed.

Lemma split_line_join b p :
  buffer_ok b -> let q := clamp b p in let '(b', p') := split_line b p in
  join (lines b') = take (offset (lines b) q) (join (lines b)) ++ [newline] ++
    drop (offset (lines b) q) (join (lines b)) /\
  offset (lines b') p' = (offset (lines b) q + 1)%nat /\ pos_ok (lines b') p'.
Proof.
  intros Hb. cbv zeta. pose proof (clamp_ok b p Hb) as Hok. unfold split_line. cbv zeta. set (q := clamp b p) in *.
  clearbody q. destruct Hok as (l & Hl & Hc). rewrite (line_at_ok b (line q) l Hl). cbn [with_lines lines].
  pose proof (lookup_lt_Some _ _ _ Hl) as Hlt.
  destruct (pos_split _ _ _ Hl Hc) as (_ & -> & ->).
  destruct (take_drop_lines (lines b) (line q) (take (col q) l) Hlt) as [-> ->].
  rewrite <- app_assoc. split_and!.
  - rewrite join_app by done. cbn [app]. rewrite join_cons. cbn [below]. rewrite join_cons. by rewrite <- !app_assoc.
  - rewrite !offset_unfold. cbn [line col]. rewrite take_app_ge by (rewrite length_take; lia).
    rewrite length_take. replace (line q + 1 - line q `min` length (lines b))%nat with 1%nat by lia.
    rewrite above_app, length_app. cbn [app take]. unfold above at 2. cbn [fmap list_fmap concat].
    rewrite app_nil_r, length_app, length_take. cbn. lia.
  - exists (drop (col q) l). cbn [line col]. split; [|lia].
    rewrite lookup_app_r by (rewrite length_take; lia). rewrite length_take.
    by replace (line q + 1 - line q `min` length (lines b))%nat with 1%nat by lia.
Qed.

(** Merging a line with the one that follows it. *)
Lemma merge_join ls i l1 l2 :
  ls !! i = Some l1 -> ls !! S i = Some l2 ->
  let ls' := take (i + 1) (<[i := l1 ++ l2]> ls) ++ drop (i + 2) (<[i := l1 ++ l2]> ls) in
  ls' !! i = Some (l1 ++ l2) /\ offset ls' (TextPos i (length l1)) = offset ls (TextPos i (length l1)) /\
  join ls = take (offset ls (TextPos i (length l1))) (join ls) ++ [newline] ++
            drop (S (offset ls (TextPos i (length l1)))) (join ls) /\
  join ls' = take (offset ls (TextPos i (length l1))) (join ls) ++
             drop (S (offset ls (TextPos i (length l1)))) (join ls).
Proof.
  intros H1 H2. cbv zeta. pose proof (lookup_lt_Some _ _ _ H2) as Hlt.
  destruct (take_drop_lines ls i (l1 ++ l2) ltac:(lia)) as [-> _].
  rewrite drop_insert_lt by lia.
  destruct (pos_split ls (TextPos i (length l1)) l1 H1 ltac:(done)) as (E & Ht & Hd).
  cbn [line col] in *. rewrite Nat.add_1_r, (drop_S _ _ _ H2) in Hd.
  rewrite drop_all, app_nil_l in Hd.
  assert (drop (S (offset ls (TextPos i (length l1)))) (join ls) = join (l2 :: drop (S (S i)) ls)) as Hd'.
  { rewrite <- Nat.add_1_r, <- drop_drop, Hd. done. }
  rewrite Ht, Hd', firstn_all. split_and!.
  - rewrite <- app_assoc, lookup_app_r by (rewrite length_take; lia).
    rewrite length_take. by replace (i - i `min` length ls)%nat with 0%nat by lia.
  - rewrite !offset_unfold. cbn [line col]. rewrite <- app_assoc, take_app_le by (rewrite length_take; lia).
    by rewrite take_take, Nat.min_id.
  - rewrite <- (take_drop (offset ls (TextPos i (length l1))) (join ls)) at 1. rewrite Ht, Hd, firstn_all.
    by rewrite <- !app_assoc.
  - rewrite <- app_assoc, join_app by done. rewrite <- app_assoc. f_equal. cbn [app].
    replace (i + 2)%nat with (S (S i)) by lia. rewrite !join_cons. by rewrite <- app_assoc.
Qed.

Lemma erase_before_join b p :
  buffer_ok b -> let q := clamp b p in let '(b', p') := erase_before b p in
  join (lines b') = take (offset (lines b) q - 1) (join (lines b)) ++ drop (offset (lines b) q) (join (lines b)) /\
  offset (lines b') p' = (offset (lines b) q - 1)%nat /\ pos_ok (lines b') p'.
Proof.
  intros Hb. cbv zeta. pose proof (clamp_ok b p Hb) as Hok. unfold erase_before. cbv zeta. set (q := clamp b p) in *.
  clearbody q. destruct Hok as (l & Hl & Hc). rewrite (line_at_ok b (line q) l Hl).
  pose proof (lookup_lt_Some _ _ _ Hl) as Hlt.
  destruct (Nat.ltb_spec 0 (col q)) as [Hcol|Hcol].
  - cbn [with_lines lines].
    destruct (pos_split _ _ _ Hl Hc) as (_ & Ht & ->).
    destruct (pos_split (lines b) (TextPos (line q) (col q - 1)) l Hl ltac:(cbn; lia)) as (_ & Ht' & _).
    assert (offset (lines b) (TextPos (line q) (col q - 1)) = (offset (lines b) q - 1)%nat) as Eo
      by (rewrite !offset_unfold; cbn [line col]; lia).
    rewrite Eo in Ht'. rewrite Ht'. cbn [line col].
    rewrite (join_replace _ _ _ _ Hl), offset_replace, offset_unfold. split_and!.
    + by rewrite <- !app_assoc.
    + lia.
    + exists (take (col q - 1) l ++ drop (col q) l). cbn [line col]. split.
      * by apply list_lookup_insert_eq.
      * rewrite length_app, length_take. lia.
  - destruct (Nat.eqb_spec (line q) 0) as [H0|H0].
    + assert (offset (lines b) q = 0%nat) as -> by (rewrite (offset_first _ _ H0); lia).
      cbn [Nat.sub]. rewrite take_0, drop_0. split_and!; [done|done|].
      exists l. split; [done|lia].
    + cbn [with_lines lines]. destruct (lookup_lt_is_Some_2 (lines b) (line q - 1) ltac:(lia)) as [l1 H1].
      assert (lines b !! S (line q - 1) = Some l) as H2 by (by replace (S (line q - 1)) with (line q) by lia).
      destruct (merge_join _ _ _ _ H1 H2) as (E1 & E2 & E3 & E4).
      rewrite (line_at_ok _ _ _ H1).
      replace (line q - 1 + 1)%nat with (line q) in * by lia.
      replace (line q - 1 + 2)%nat with (line q + 1)%nat in * by lia.
      assert (offset (lines b) q = S (offset (lines b) (TextPos (line q - 1) (length l1)))) as Eo.
      { rewrite !offset_unfold. cbn [line col]. assert (line q = S (line q - 1)) as El by lia. rewrite El at 1.
        rewrite (length_above_S _ _ _ H1). lia. }
      rewrite Eo. cbn [Nat.sub]. rewrite Nat.sub_0_r. split_and!; [done|done|].
      exists (l1 ++ l). cbn [line col]. split; [done|]. rewrite length_app. lia.
Qed.

Lemma erase_at_join b p :
  buffer_ok b -> let q := clamp b p in let '(b', p') := erase_at b p in
  join (lines b') = take (offset (lines b) q) (join (lines b)) ++ drop (S (offset (lines b) q)) (join (lines b)) /\
  offset (lines b') p' = offset (lines b) q /\ pos_ok (lines b') p'.
Proof.
  intros Hb. cbv zeta. pose proof (clamp_ok b p Hb) as Hok. unfold erase_at. cbv zeta. set (q := clamp b p) in *.
  clearbody q. destruct Hok as (l & Hl & Hc). rewrite (line_at_ok b (line q) l Hl).
  pose proof (lookup_lt_Some _ _ _ Hl) as Hlt.
  destruct (Nat.ltb_spec (col q) (length l)) as [Hcol|Hcol].
  - cbn [with_lines lines].
    destruct (pos_split _ _ _ Hl Hc) as (_ & -> & Hd).
    assert (drop (S (offset (lines b) q)) (join (lines b)) = drop (col q + 1) l ++
      below (drop (line q + 1) (lines b))) as ->.
    { rewrite <- Nat.add_1_r, <- drop_drop, Hd, drop_app_le by (rewrite length_drop; lia).
      by rewrite drop_drop. }
    destruct q as [ql qc]. cbn [line col] in *.
    rewrite (join_replace _ (TextPos ql qc) _ _ Hl), (offset_replace _ (TextPos ql qc)), offset_unfold.
    cbn [line col]. split_and!.
    + by rewrite <- !app_assoc.
    + lia.
    + exists (take qc l ++ drop (qc + 1) l). cbn [line col]. split.
      * by apply list_lookup_insert_eq.
      * rewrite length_app, length_take. lia.
  - assert (col q = length l) as Ec by lia.
    destruct (Nat.leb_spec (length (lines b)) (line q + 1)) as [Hlast|Hlast].
    + destruct (pos_split _ _ _ Hl Hc) as (_ & _ & Hd).
      rewrite (drop_ge (lines b)) in Hd by lia. rewrite Ec, drop_all in Hd.
      assert (drop (S (offset (lines b) q)) (join (lines b)) = []) as Hz
        by (by rewrite <- Nat.add_1_r, <- drop_drop, Hd).
      rewrite Hz, app_nil_r.
      split_and!; [|done|by exists l].
      rewrite <- (take_drop (offset (lines b) q) (join (lines b))) at 1. by rewrite Hd, app_nil_r.
    + cbn [with_lines lines]. destruct (lookup_lt_is_Some_2 (lines b) (line q + 1) ltac:(lia)) as [l2 H2].
      rewrite (line_at_ok _ _ _ H2). rewrite Nat.add_1_r in H2.
      destruct (merge_join _ _ _ _ Hl H2) as (E1 & E2 & E3 & E4).
      assert (q = TextPos (line q) (length l)) as Eq by (destruct q; cbn in *; by rewrite Ec).
      rewrite Eq. cbn [line col]. split_and!; [done|done|].
      exists (l ++ l2). cbn [line col]. split; [done|]. rewrite length_app. lia.
Qed.

(** ** The abstract editor

    A text and an offset.  Four edits, each a splice. *)

Inductive edit := EInsert (s : bytes) | ESplit | EEraseBefore | EEraseAt.

Definition run_edit (e : edit) (st : text_buffer * text_pos) : text_buffer * text_pos :=
  match e with
  | EInsert s => insert st.1 st.2 s
  | ESplit => split_line st.1 st.2
  | EEraseBefore => erase_before st.1 st.2
  | EEraseAt => erase_at st.1 st.2
  end.

Definition flat_edit (e : edit) (st : bytes * nat) : bytes * nat :=
  let '(doc, o) := st in
  match e with
  | EInsert s => (take o doc ++ s ++ drop o doc, (o + length s)%nat)
  | ESplit => (take o doc ++ [newline] ++ drop o doc, (o + 1)%nat)
  | EEraseBefore => (take (o - 1) doc ++ drop o doc, (o - 1)%nat)
  | EEraseAt => (take o doc ++ drop (S o) doc, o)
  end.

(** What the abstract editor sees of a state. *)
Definition flat (st : text_buffer * text_pos) : bytes * nat :=
  (join (lines st.1), offset (lines st.1) st.2).

Definition state_ok (st : text_buffer * text_pos) : Prop := pos_ok (lines st.1) st.2.

Lemma pos_ok_buffer b p : pos_ok (lines b) p -> buffer_ok b.
Proof. intros (l & Hl & _) E. by rewrite E in Hl. Qed.

Lemma clamp_id b p : pos_ok (lines b) p -> clamp b p = p.
Proof.
  intros (l & Hl & Hc). pose proof (lookup_lt_Some _ _ _ Hl) as Hlt. unfold clamp.
  destruct (lines b) as [|x ls] eqn:E; [done|]. rewrite <- E in *. destruct (Nat.leb_spec (length (lines b)) (line p)); [lia|].
  rewrite (line_at_ok _ _ _ Hl). destruct (Nat.ltb_spec (length l) (col p)); [lia|]. by destruct p.
Qed.

(** One edit, at any position the caller gives. *)
Lemma run_edit_clamped e b p :
  buffer_ok b ->
  flat (run_edit e (b, p)) = flat_edit e (flat (b, clamp b p)) /\ state_ok (run_edit e (b, p)).
Proof.
  intros Hb. unfold flat, state_ok, flat_edit, run_edit. cbn [fst snd]. destruct e.
  - pose proof (insert_join b p s Hb) as H. cbv zeta in H. destruct (insert b p s) as [b' p'].
    cbn [fst snd]. destruct H as (-> & -> & H). by split.
  - pose proof (split_line_join b p Hb) as H. cbv zeta in H. destruct (split_line b p) as [b' p'].
    cbn [fst snd]. destruct H as (-> & -> & H). by split.
  - pose proof (erase_before_join b p Hb) as H. cbv zeta in H. destruct (erase_before b p) as [b' p'].
    cbn [fst snd]. destruct H as (-> & -> & H). by split.
  - pose proof (erase_at_join b p Hb) as H. cbv zeta in H. destruct (erase_at b p) as [b' p'].
    cbn [fst snd]. destruct H as (-> & -> & H). by split.
Qed.

Lemma splice_length_changes e st :
  (st.2 <= length st.1)%nat ->
  (flat_edit e st).1 <> st.1 <->
  match e with EInsert s => s <> [] | ESplit => True | EEraseBefore => (0 < st.2)%nat
             | EEraseAt => (st.2 < length st.1)%nat end.
Proof.
  destruct st as [doc o]. cbn [fst snd]. intros Ho. split.
  - intros H. destruct e; cbn in H; [intros ->; by rewrite app_nil_l, take_drop in H|done| |].
    + destruct (Nat.ltb_spec 0 o); [done|]. replace o with 0%nat in H by lia. by cbn in H.
    + destruct (Nat.ltb_spec o (length doc)); [done|].
      rewrite (drop_ge doc (S o)), app_nil_r, firstn_all2 in H by lia. done.
  - intros H E%(f_equal length). revert E.
    destruct e as [s| | |]; cbn [flat_edit fst]; rewrite ?length_app, ?length_take, ?length_drop; cbn [length]; try lia.
    destruct s; cbn [length]; [done|lia].
Qed.

Lemma offset_le_join ls p : pos_ok ls p -> (offset ls p <= length (join ls))%nat.
Proof.
  intros (l & Hl & Hc). destruct (pos_split _ _ _ Hl Hc) as (_ & Ht & Hd).
  pose proof (f_equal length (take_drop (offset ls p) (join ls))) as E. rewrite length_app, Ht, Hd in E.
  rewrite !length_app, length_take, length_drop in E. rewrite offset_unfold. lia.
Qed.

(** Where each edition has something to do. *)
Lemma offset_pos ls p : pos_ok ls p -> (0 < offset ls p)%nat <-> (0 < col p)%nat \/ line p <> 0%nat.
Proof.
  intros (l & Hl & Hc). rewrite offset_unfold. destruct (line p) as [|i] eqn:E.
  { rewrite take_0. change (length (above [])) with 0%nat. lia. }
  destruct (lookup_lt_is_Some_2 ls i) as [l' Hl']; [apply lookup_lt_Some in Hl; lia|].
  rewrite (length_above_S _ _ _ Hl'). lia.
Qed.

Lemma offset_lt_join ls p l :
  ls !! line p = Some l -> (col p <= length l)%nat ->
  (offset ls p < length (join ls))%nat <-> (col p < length l)%nat \/ (line p + 1 < length ls)%nat.
Proof.
  intros Hl Hc. destruct (pos_split _ _ _ Hl Hc) as (_ & _ & Hd).
  assert (length (join ls) - offset ls p = length (drop (col p) l) + length (below (drop (line p + 1) ls)))%nat as E
    by (by rewrite <- length_app, <- Hd, length_drop).
  rewrite length_drop in E. pose proof (lookup_lt_Some _ _ _ Hl).
  assert ((0 < length (below (drop (line p + 1) ls)))%nat <-> (line p + 1 < length ls)%nat) as H1; [|lia].
  pose proof (length_drop ls (line p + 1)%nat) as El.
  destruct (drop (line p + 1) ls); cbn [length below] in *; lia.
Qed.

(** The flag and the ending are kept by hand, apart from the lines: an edition
    raises the flag exactly when it changes the text. *)
Lemma run_edit_flags e b p :
  buffer_ok b ->
  let b' := (run_edit e (b, p)).1 in
  trailing_newline b' = trailing_newline b /\
  modified b' = (modified b || negb (bool_decide ((flat_edit e (flat (b, clamp b p))).1 = join (lines b)))).
Proof.
  intros Hb. cbv zeta. pose proof (clamp_ok b p Hb) as Hok.
  pose proof (splice_length_changes e (flat (b, clamp b p))) as Hc. unfold flat in Hc. cbn [fst snd] in Hc.
  specialize (Hc (offset_le_join _ _ Hok)). fold (flat (b, clamp b p)) in Hc.
  rewrite <- bool_decide_not.
  unfold run_edit. cbn [fst snd]. destruct e; rewrite (bool_decide_ext _ _ Hc); clear Hc.
  - unfold insert. rewrite bool_decide_not. destruct (bool_decide (s = [])); cbn; by rewrite ?orb_true_r, ?orb_false_r.
  - unfold split_line. cbn. by rewrite orb_true_r.
  - rewrite (bool_decide_ext _ _ (offset_pos _ _ Hok)). unfold erase_before.
    destruct (Nat.ltb_spec 0 (col (clamp b p))), (Nat.eqb_spec (line (clamp b p)) 0);
      first [rewrite bool_decide_true by lia | rewrite bool_decide_false by lia];
      cbn; by rewrite ?orb_true_r, ?orb_false_r.
  - destruct Hok as (l & Hl & Hc). rewrite (bool_decide_ext _ _ (offset_lt_join _ _ _ Hl Hc)). unfold erase_at.
    rewrite (line_at_ok _ _ _ Hl).
    destruct (Nat.ltb_spec (col (clamp b p)) (length l)), (Nat.leb_spec (length (lines b)) (line (clamp b p) + 1));
      first [rewrite bool_decide_true by lia | rewrite bool_decide_false by lia];
      cbn; by rewrite ?orb_true_r, ?orb_false_r.
Qed.

Definition run_edits (es : list edit) (st : text_buffer * text_pos) : text_buffer * text_pos :=
  foldl (fun st e => run_edit e st) st es.

Definition flat_edits (es : list edit) (st : bytes * nat) : bytes * nat :=
  foldl (fun st e => flat_edit e st) st es.

Lemma run_edits_step es st :
  state_ok st ->
  flat (run_edits es st) = flat_edits es (flat st) /\ state_ok (run_edits es st) /\
  trailing_newline (run_edits es st).1 = trailing_newline st.1 /\
  (modified (run_edits es st).1 = false -> join (lines (run_edits es st).1) = join (lines st.1)).
Proof.
  revert st. induction es as [|e es IH]; intros [b p] Hok; [done|].
  pose proof (pos_ok_buffer _ _ Hok) as Hb.
  destruct (run_edit_clamped e b p Hb) as [Hf Hs]. destruct (run_edit_flags e b p Hb) as [Ht Hm].
  pose proof (clamp_id _ _ Hok) as Hc. cbn [fst snd] in Hc. rewrite Hc in Hf, Hm.
  destruct (IH _ Hs) as (I1 & I2 & I3 & I4).
  cbn [run_edits flat_edits foldl]. fold (run_edits es (run_edit e (b, p))).
  fold (flat_edits es (flat_edit e (flat (b, p)))). rewrite <- Hf. split_and!; [done|done|by rewrite I3|].
  intros Hmod. rewrite (I4 Hmod).
  assert (forall es st, modified st.1 = true -> modified (run_edits es st).1 = true) as Hkeep; [|].
  { clear. intros es. induction es as [|e es IH]; intros st H; [done|]. apply IH.
    destruct st as [b p]. cbn [fst] in *. unfold run_edit, insert, split_line, erase_before, erase_at, with_lines. cbn [fst snd].
    destruct e; repeat case_match; done. }
  destruct (modified (run_edit e (b, p)).1) eqn:E; [by rewrite (Hkeep _ _ E) in Hmod|].
  symmetry in Hm. apply orb_false_iff in Hm as [_ Hm]. apply negb_false_iff, bool_decide_eq_true in Hm.
  rewrite <- Hf in Hm. exact Hm.
Qed.

(** ** Loading *)

(** What one line of the loop takes. *)
Lemma find_newline t start :
  match find_from t [newline] start with
  | Some nl => (start <= nl)%nat /\ t !! nl = Some newline /\
               drop start t = take (nl - start) (drop start t) ++ newline :: drop (nl + 1) t /\
               newline ∉ take (nl - start) (drop start t)
  | None => (start <= length t)%nat -> newline ∉ drop start t
  end.
Proof.
  pose proof (find_from_spec t [newline] start) as H. destruct (find_from t [newline] start) as [nl|].
  - destruct H as ([H1 H2] & H3 & H4). rewrite is_prefix_1 in H3.
    destruct (drop nl t) as [|y r] eqn:E; [done|]. apply Z.eqb_eq in H3 as <-.
    assert (t !! nl = Some newline) as Hnl by (by rewrite <- (Nat.add_0_r nl), <- lookup_drop, E).
    split_and!; [done|done| |].
    + rewrite <- (take_drop (nl - start) (drop start t)) at 1. rewrite drop_drop. f_equal.
      replace (start + (nl - start))%nat with nl by lia. by rewrite (drop_S _ _ _ Hnl), Nat.add_1_r.
    + intros [i Hi]%list_elem_of_lookup. apply lookup_take_Some in Hi as [Hi Hlt]. rewrite lookup_drop in Hi.
      specialize (H4 (start + i)%nat ltac:(lia)). rewrite (drop_S _ _ _ Hi), is_prefix_1, Z.eqb_refl in H4. done.
  - intros Hs [i Hi]%list_elem_of_lookup. rewrite lookup_drop in Hi.
    specialize (H (start + i)%nat ltac:(apply lookup_lt_Some in Hi; lia)).
    rewrite (drop_S _ _ _ Hi), is_prefix_1, Z.eqb_refl in H. done.
Qed.

Lemma back_is_newline_drop t i : drop i t <> [] -> back_is_newline t = back_is_newline (drop i t).
Proof.
  intros H. unfold back_is_newline. rewrite <- (take_drop i t) at 1. rewrite rev_app_distr.
  destruct (List.rev (drop i t)) eqn:E; [|done].
  apply (f_equal (@List.rev Z)) in E. rewrite rev_involutive in E. done.
Qed.

Lemma back_is_newline_last t : back_is_newline (t ++ [newline]) = true.
Proof. unfold back_is_newline. by rewrite rev_app_distr. Qed.

Lemma back_is_newline_in t : back_is_newline t = true -> newline ∈ t.
Proof.
  unfold back_is_newline. destruct (List.rev t) as [|y r] eqn:E; [done|]. intros ->%Z.eqb_eq.
  apply (f_equal (@List.rev Z)) in E. rewrite rev_involutive in E. subst. cbn. set_solver.
Qed.

(** The loop of [load], from any position it reaches. *)
Lemma load_from_spec fuel t start :
  (start <= length t)%nat -> (length t - start < fuel)%nat ->
  let ls := load_from fuel t start in
  (drop start t = [] -> ls = []) /\
  (drop start t <> [] -> ls <> [] /\
     join ls ++ (if back_is_newline t then [newline] else []) = drop start t) /\
  Forall (fun l => newline ∉ l) ls.
Proof.
  revert start. induction fuel as [|fuel IH]; intros start Hs Hf; [lia|]. cbv zeta. cbn [load_from].
  destruct (Nat.ltb_spec (length t) start); [lia|].
  pose proof (find_newline t start) as Hn. destruct (find_from t [newline] start) as [nl|].
  - destruct Hn as (Hle & Hnl & E & Hin). pose proof (lookup_lt_Some _ _ _ Hnl).
    set (x := take (nl - start) (drop start t)) in *. clearbody x.
    destruct (IH (nl + 1)%nat ltac:(lia) ltac:(lia)) as (Hnil & Hcons & Hall). split_and!.
    + intros E0. rewrite E0 in E. by destruct x.
    + intros _. split; [done|]. destruct (decide (drop (nl + 1) t = [])) as [E0|E0].
      * rewrite (Hnil E0). cbn [join]. rewrite (back_is_newline_drop t start) by (rewrite E; by destruct x).
        by rewrite E, E0, back_is_newline_last.
      * destruct (Hcons E0) as [Hne Hj]. rewrite join_cons. destruct (load_from fuel t (nl + 1)); [done|].
        cbn [below]. rewrite E, <- app_assoc. cbn [app]. by rewrite Hj.
    + by constructor.
  - destruct (Nat.ltb_spec start (length t)) as [Hlt|Hge].
    + split_and!.
      * intros E%(f_equal length). rewrite length_drop in E. cbn in E. lia.
      * intros E. split; [done|]. cbn [join].
        destruct (back_is_newline t) eqn:Eb; [|by rewrite app_nil_r].
        rewrite (back_is_newline_drop t start E) in Eb. apply back_is_newline_in in Eb. by destruct (Hn Hs).
      * constructor; [by apply Hn|constructor].
    + split_and!; [done| |constructor]. rewrite drop_ge by lia. done.
Qed.

Lemma load_ok t : buffer_ok (load t).
Proof. unfold buffer_ok, load. cbn [lines]. by destruct (load_from _ t 0). Qed.

(** The editor's new and empty files: what [load] makes of nothing. *)
Example load_nothing : text (load []) = [newline].
Proof. reflexivity. Qed.

(** ** Searching *)

(** An occurrence of the needle at a position. *)
Definition occurs (b : text_buffer) (needle : bytes) (p : text_pos) : Prop :=
  exists l, lines b !! line p = Some l /\ (col p <= length l)%nat /\ is_prefix needle (drop (col p) l) = true.

Definition pos_le (p q : text_pos) : Prop := (line p < line q \/ line p = line q /\ col p <= col q)%nat.

Lemma find_pass_spec needle b from fp n i :
  (i <= length (lines b))%nat ->
  let ok (p : text_pos) := (i <= line p < i + n)%nat /\ (fp = true -> line p = line from -> (col from <= col p)%nat) in
  match find_pass needle (take n (drop i (lines b))) i (line from) (col from) fp with
  | Some p => occurs b needle p /\ ok p /\ forall q, occurs b needle q -> ok q -> pos_le p q
  | None => forall q, occurs b needle q -> ~ ok q
  end.
Proof.
  cbv zeta. revert i. induction n as [|n IH]; intros i Hi; [intros q _ [Hq _]; lia|].
  destruct (lines b !! i) as [l|] eqn:El.
  - rewrite (drop_S _ _ _ El). cbn [take find_pass].
    set (start := if fp && (i =? line from)%nat then col from else 0%nat).
    assert (match (if (length l <? start)%nat then None else find_from l needle start) with
            | Some at_ => (start <= at_ <= length l)%nat /\ is_prefix needle (drop at_ l) = true /\
                forall m, (start <= m < at_)%nat -> is_prefix needle (drop m l) = false
            | None => forall m, (start <= m <= length l)%nat -> is_prefix needle (drop m l) = false
            end) as Hf by (destruct (Nat.ltb_spec (length l) start); [lia|apply find_from_spec]).
    assert (forall q, line q = i -> (fp = true -> line q = line from -> (col from <= col q)%nat) <-> (start <= col q)%nat) as Hok.
    { intros q Hq. subst start. rewrite <- Hq. destruct fp; cbn [andb]; [|split; [lia|done]].
      destruct (Nat.eqb_spec (line q) (line from)); split; auto; lia. }
    destruct (if (length l <? start)%nat then None else _) as [at_|].
    + destruct Hf as ([H1 H2] & H3 & H4). split; [by exists l|]. split.
      * split; [cbn [line]; lia|by apply (Hok (TextPos i at_))].
      * intros q (l' & Hl' & Hc & Ho) [Hq1 Hq2]. unfold pos_le. cbn [line col].
        destruct (decide (line q = i)) as [Eq|]; [right|left; lia]. split; [done|].
        rewrite Eq, El in Hl'. injection Hl' as <-. apply (Hok q Eq) in Hq2.
        destruct (decide (at_ <= col q)%nat); [done|]. by rewrite H4 in Ho by lia.
    + pose proof (lookup_lt_Some _ _ _ El). specialize (IH (S i) ltac:(lia)).
      assert (forall q, occurs b needle q -> (i <= line q < i + S n)%nat ->
        (fp = true -> line q = line from -> (col from <= col q)%nat) -> (S i <= line q < S i + n)%nat) as Hne.
      { intros q (l' & Hl' & Hc & Ho) Hq1 Hq2. destruct (decide (line q = i)) as [Eq|]; [|lia].
        rewrite Eq, El in Hl'. injection Hl' as <-. apply (Hok q Eq) in Hq2. by rewrite Hf in Ho by lia. }
      destruct (find_pass _ _ (S i) _ _ _) as [p|].
      * destruct IH as (H1 & [H2 H2'] & H3). split_and!; [done|lia|lia|done|].
        intros q Hq [Hq1 Hq2]. by apply H3; [|split; [apply Hne|]].
      * intros q Hq [Hq1 Hq2]. by apply (IH q Hq); split; [apply Hne|].
  - rewrite drop_ge, take_nil by (by apply lookup_ge_None_1). cbn [find_pass].
    intros q (l & Hl & _) [Hq _]. apply lookup_ge_None_1 in El. apply lookup_lt_Some in Hl. lia.
Qed.

(** The first pass covers what follows the start, the second the lines up to it. *)
Lemma find_spec b needle from :
  buffer_ok b -> needle <> [] ->
  let f := clamp b from in
  match find b needle from with
  | Some p => occurs b needle p /\
      ((pos_le f p /\ forall q, occurs b needle q -> pos_le f q -> pos_le p q) \/
       ((forall q, occurs b needle q -> ~ pos_le f q) /\ forall q, occurs b needle q -> pos_le p q))
  | None => forall q, ~ occurs b needle q
  end.
Proof.
  intros Hb Hn. cbv zeta. unfold find. rewrite (bool_decide_false _ Hn), (bool_decide_false _ Hb). cbn [orb].
  pose proof (clamp_ok b from Hb) as (l & Hl & Hc). set (f := clamp b from) in *. clearbody f.
  pose proof (lookup_lt_Some _ _ _ Hl) as Hlt.
  pose proof (find_pass_spec needle b f true (length (lines b) - line f) (line f) ltac:(lia)) as H1. cbv zeta in H1.
  pose proof (find_pass_spec needle b f false (line f + 1) 0 ltac:(lia)) as H2. cbv zeta in H2.
  rewrite firstn_all2 in H1 by (rewrite length_drop; lia). rewrite drop_0 in H2.
  assert (forall q, occurs b needle q -> (line q < length (lines b))%nat) as Hin
    by (intros q (lq & Hq & _); by eapply lookup_lt_Some).
  destruct (find_pass needle (drop (line f) (lines b)) _ _ _ _) as [p|].
  - destruct H1 as (Ho & [Hp1 Hp2] & Hmin). split; [done|left]. split.
    + unfold pos_le. specialize (Hp2 eq_refl). lia.
    + intros q Hq Hle. unfold pos_le in Hle. apply Hmin; [done|]. specialize (Hin q Hq).
      split; [|intros _ E]; lia.
  - assert (forall q, occurs b needle q -> ~ pos_le f q) as Hno.
    { intros q Hq Hle. unfold pos_le in Hle. apply (H1 q Hq). specialize (Hin q Hq). split; [|intros _ E]; lia. }
    destruct (find_pass needle (take _ (lines b)) _ _ _ _) as [p|].
    + destruct H2 as (Ho & [Hp1 _] & Hmin). split; [done|right]. split; [done|].
      intros q Hq. apply Hmin; [done|]. specialize (Hno q Hq). unfold pos_le in Hno. split; [lia|done].
    + intros q Hq. apply (H2 q Hq). specialize (Hno q Hq). unfold pos_le in Hno. split; [lia|done].
Qed.

(** ** The theorems *)

(** C31: the editor is a text with a cursor.  From a cursor on a line, any
    sequence of insertions, line splits and erasures does to the joined lines and
    to the offset of the cursor exactly what the splices of the flat text do; the
    cursor stays on a line; and a buffer whose flag is down writes the text it
    had. *)
Theorem edits_refine_splices es b p :
  pos_ok (lines b) p ->
  let '(b', p') := run_edits es (b, p) in
  (join (lines b'), offset (lines b') p') = flat_edits es (join (lines b), offset (lines b) p) /\
  pos_ok (lines b') p' /\ (modified b' = false -> text b' = text b).
Proof.
  intros Hok. destruct (run_edits_step es (b, p) Hok) as (Hf & Hs & Ht & Hm).
  destruct (run_edits es (b, p)) as [b' p']. unfold flat, state_ok in *. cbn [fst snd] in *.
  split_and!; [done|done|]. intros E. unfold text. by rewrite (Hm E), Ht.
Qed.

(** "ab / cd", cursor at the start of the second line: join, type, split. *)
Lemma edits_refine_splices_witness :
  let b := TextBuffer [[97; 98]; [99; 100]] false true in
  let es := [EEraseBefore; EInsert [120; 121]; ESplit; EEraseAt] in
  pos_ok (lines b) (TextPos 1 0) /\
  lines (run_edits es (b, TextPos 1 0)).1 = [[97; 98; 120; 121]; [100]] /\
  (let '(b', p') := run_edits es (b, TextPos 1 0) in
   (join (lines b'), offset (lines b') p') = flat_edits es (join (lines b), 3%nat) /\
   pos_ok (lines b') p' /\ (modified b' = false -> text b' = text b)).
Proof.
  cbv zeta.
  assert (pos_ok [[97; 98]; [99; 100]] (TextPos 1 0)) as H by (exists [99; 100]; split; [reflexivity|cbn; lia]).
  split; [exact H|split; [reflexivity|]].
  exact (edits_refine_splices [EEraseBefore; EInsert [120; 121]; ESplit; EEraseAt]
           (TextBuffer [[97; 98]; [99; 100]] false true) (TextPos 1 0) H).
Defined.

(** Opening a file and writing it back gives the bytes that were read, with
    the missing last newline still missing, as long as there was one byte; the
    lines hold no newline, and the buffer is not modified. *)
Theorem load_text_roundtrip t :
  t <> [] ->
  text (load t) = t /\ Forall (fun l => newline ∉ l) (lines (load t)) /\
  lines (load t) <> [] /\ modified (load t) = false.
Proof.
  intros Ht. destruct (load_from_spec (S (length t)) t 0 ltac:(lia) ltac:(lia)) as (_ & H & Hall).
  rewrite drop_0 in H. destruct (H Ht) as [Hne Hj].
  unfold text, load. rewrite (bool_decide_false _ Ht). cbn [lines trailing_newline modified orb].
  destruct (load_from (S (length t)) t 0); [done|]. split_and!; done.
Qed.

Lemma load_text_roundtrip_witness :
  let t := [97; 10; 10; 98] in
  t <> [] /\ lines (load t) = [[97]; []; [98]] /\
  text (load t) = t /\ Forall (fun l => newline ∉ l) (lines (load t)) /\
  lines (load t) <> [] /\ modified (load t) = false.
Proof. split; [done|split; [reflexivity|]]. by apply (load_text_roundtrip [97; 10; 10; 98]). Defined.

(** The search finds.  It answers with an occurrence of the needle, the first
    one from the cursor on, or the first of the text when none follows the
    cursor; and it answers that there is none only when no line holds the
    needle. *)
Theorem find_finds b needle from :
  lines b <> [] -> needle <> [] ->
  match find b needle from with
  | Some p => occurs b needle p /\
      ((pos_le (clamp b from) p /\ forall q, occurs b needle q -> pos_le (clamp b from) q -> pos_le p q) \/
       ((forall q, occurs b needle q -> ~ pos_le (clamp b from) q) /\ forall q, occurs b needle q -> pos_le p q))
  | None => forall q, ~ occurs b needle q
  end.
Proof. apply find_spec. Qed.

(** Looking for "a" from past the last one: the search wraps. *)
Lemma find_finds_witness :
  let b := TextBuffer [[97; 98]; [99; 97; 100]] false true in
  find b [97] (TextPos 1 2) = Some (TextPos 0 0) /\ occurs b [97] (TextPos 0 0) /\
  find b [122] (TextPos 0 0) = None /\ ~ occurs b [122] (TextPos 1 1).
Proof.
  cbv zeta. split; [reflexivity|]. split.
  - exact (proj1 (find_finds (TextBuffer [[97; 98]; [99; 97; 100]] false true) [97] (TextPos 1 2) ltac:(done) ltac:(done))).
  - split; [reflexivity|].
    exact (find_finds (TextBuffer [[97; 98]; [99; 97; 100]] false true) [122] (TextPos 0 0) ltac:(done) ltac:(done) (TextPos 1 1)).
Defined.
