(* ===== verification/Input.v ===== *)
(** * Input events: [src/input/events.hpp] *)

From S2P Require Import Prelude.

Inductive key :=
  | KNone | KUnknown | KChar | KEnter | KTab | KBackTab | KBackspace | KEscape
  | KUp | KDown | KLeft | KRight | KHome | KEnd | KPgUp | KPgDn | KInsert | KDelete
  | KF1 | KF2 | KF3 | KF4 | KF5 | KF6 | KF7 | KF8 | KF9 | KF10 | KF11 | KF12.

#[export] Instance key_eq_dec : EqDecision key. Proof. solve_decision. Defined.

(** The bits of [mod]. *)
Definition Shift : Z := 1.
Definition Alt : Z := 2.
Definition Ctrl : Z := 4.

Record key_event := KeyEvent { ke_key : key; ke_ch : Z; ke_mods : Z }.

#[export] Instance key_event_eq_dec : EqDecision key_event. Proof. solve_decision. Defined.

Inductive mouse_action := MPress | MRelease | MMotion | MWheelUp | MWheelDown.

#[export] Instance mouse_action_eq_dec : EqDecision mouse_action. Proof. solve_decision. Defined.

Record mouse_event := MouseEvent { m_action : mouse_action; m_button : Z; m_x : Z; m_y : Z; m_mods : Z }.

#[export] Instance mouse_event_eq_dec : EqDecision mouse_event. Proof. solve_decision. Defined.

Inductive input_event :=
  | EvKey (k : key_event)
  | EvMouse (m : mouse_event)
  | EvPaste (text : bytes) (complete : bool)
  | EvFocus (focused : bool).

#[export] Instance input_event_eq_dec : EqDecision input_event. Proof. solve_decision. Defined.
