(* ===== verification/InputParser.v ===== *)
(** * The input parser: [src/input/parser.hpp], [src/input/parser.cpp]

    Bytes of the client's terminal in, events out.  The buffer, the paste state
    and the scan position are those of the class; [plain_step] is the part of
    [step] outside a paste, which reads the buffer only.

    The theorems: whatever the chunks the bytes come in, the events are those of
    one reading of the whole stream ([reference]); the buffer stays bounded; the
    timeout empties it without losing a byte. *)

From S2P Require Import Prelude StdString Utf8 Input.

Definition kPasteEnd : bytes := 27 :: str "[201~".
Definition kMaxPasteChunk : Z := 1 * 1024 * 1024.
Definition kMaxCsiParamsLen : nat := 128.
Definition kMaxCsiParam : Z := 65535.

Definition key_from_tilde (n : Z) : key :=
  match n with
  | 1 => KHome | 2 => KInsert | 3 => KDelete | 4 => KEnd | 5 => KPgUp | 6 => KPgDn
  | 15 => KF5 | 17 => KF6 | 18 => KF7 | 19 => KF8 | 20 => KF9 | 21 => KF10
  | 23 => KF11 | 24 => KF12
  | _ => KUnknown
  end.

Definition key_from_final (f : Z) : key :=
  if f =? 65 then KUp else if f =? 66 then KDown else if f =? 67 then KRight
  else if f =? 68 then KLeft else if f =? 72 then KHome else if f =? 70 then KEnd
  else if f =? 90 then KBackTab else if f =? 80 then KF1 else if f =? 81 then KF2
  else if f =? 82 then KF3 else if f =? 83 then KF4 else KUnknown.

(** One character of [split_params]: the parameters closed so far, and [cur]. *)
Definition split_char (st : list Z * Z) (c : Z) : list Z * Z :=
  let '(out, cur) := st in
  if (48 <=? c) && (c <=? 57) then
    let base := if cur <? 0 then 0 else cur in
    let digit := c - 48 in
    (out, if (kMaxCsiParam - digit) / 10 <? base then kMaxCsiParam else base * 10 + digit)
  else if c =? 59 then (out ++ [cur], -1)
  else st.

Definition split_params (s : bytes) : list Z :=
  let '(out, cur) := fold_left split_char s ([], -1) in out ++ [cur].

Definition mods_from_param (p : Z) : Z :=
  if (p <=? 1) || (16 <? p) then 0 else Z.land (p - 1) 0x07.

Definition utf8_seq_len (b0 : Z) : nat :=
  if b0 <? 0x80 then 1
  else if Z.land b0 0xE0 =? 0xC0 then 2
  else if Z.land b0 0xF0 =? 0xE0 then 3
  else if Z.land b0 0xF8 =? 0xF0 then 4
  else 1.

Record input := Input {
  buf : bytes;
  ready : list input_event;
  in_paste : bool;
  esc_pending : bool;
  paste_scanned : nat;
  paste_scan_bytes : Z;
}.

Definition input_new : input := Input [] [] false false 0 0.

Definition key_of (k : key) (ch mods : Z) : input_event := EvKey (KeyEvent k ch mods).

(** What one turn outside a paste does: the bytes consumed (0 to wait), the events
    pushed, whether a paste begins, and [esc_pending_]. *)
Record turn := Turn { used : nat; pushed : list input_event; starts_paste : bool; pending : bool }.

Definition wait : turn := Turn 0 [] false false.

(** The scan for the final byte of a control sequence. *)
Inductive csi_end := CsiAbandon (i : nat) | CsiFinal (i : nat) | CsiMore.

Fixpoint csi_scan (fuel : nat) (b : bytes) (i : nat) : csi_end :=
  match fuel with
  | O => CsiMore
  | S fuel =>
      if (length b <=? i)%nat then CsiMore
      else if (kMaxCsiParamsLen <=? i - 2)%nat then CsiAbandon i
      else
        let c := byte_at b i in
        if (0x40 <=? c) && (c <=? 0x7E) then CsiFinal i else csi_scan fuel b (S i)
  end.

Definition mouse_of (cb x y final_byte : Z) : input_event :=
  let mods := Z.lor (Z.lor (if negb (Z.land cb 4 =? 0) then Shift else 0)
                           (if negb (Z.land cb 8 =? 0) then Alt else 0))
                    (if negb (Z.land cb 16 =? 0) then Ctrl else 0) in
  let '(action, button) :=
    if negb (Z.land cb 64 =? 0) then (if negb (Z.land cb 1 =? 0) then MWheelDown else MWheelUp, 0)
    else if negb (Z.land cb 32 =? 0) then (MMotion, to_u8 (Z.land cb 3))
    else (if final_byte =? 109 then MRelease else MPress, to_u8 (Z.land cb 3)) in
  EvMouse (MouseEvent action button (x - 1) (y - 1) mods).

Definition second_mods (p : list Z) : Z :=
  match p with _ :: m :: _ => mods_from_param m | _ => 0 end.

(** A complete control sequence: its parameters, its final byte, its length. *)
Definition csi_turn (params : bytes) (final_byte : Z) (n : nat) : turn :=
  match params with
  | 60 :: rest =>
      match split_params rest with
      | cb :: x :: y :: _ =>
          if (cb <? 0) || (x <? 1) || (y <? 1) then Turn n [] false false
          else Turn n [mouse_of cb x y final_byte] false false
      | _ => Turn n [] false false
      end
  | _ =>
      if (final_byte =? 73) || (final_byte =? 79) then Turn n [EvFocus (final_byte =? 73)] false false
      else
        let p := split_params params in
        if final_byte =? 126 then
          let c := match p with c :: _ => if c <? 0 then 0 else c | [] => 0 end in
          if c =? 200 then Turn n [] true false
          else Turn n [key_of (key_from_tilde c) 0 (second_mods p)] false false
        else Turn n [key_of (key_from_final final_byte) 0 (second_mods p)] false false
  end.

Definition csi_step (b : bytes) : turn :=
  match csi_scan (length b) b 2 with
  | CsiAbandon i => Turn i [] false false
  | CsiMore => wait
  | CsiFinal i => csi_turn (take (i - 2) (drop 2 b)) (byte_at b i) (i + 1)
  end.

Definition char_step (b : bytes) : turn :=
  let b0 := byte_at b 0 in
  if (b0 =? 13) || (b0 =? 10) then Turn 1 [key_of KEnter 0 0] false false
  else if b0 =? 9 then Turn 1 [key_of KTab 0 0] false false
  else if (b0 =? 0x7f) || (b0 =? 0x08) then Turn 1 [key_of KBackspace 0 0] false false
  else if b0 <? 0x20 then
    Turn 1 [key_of KChar (if b0 =? 0 then 32 else 97 + b0 - 1) Ctrl] false false
  else if (length b <? utf8_seq_len b0)%nat then wait
  else let '(n, cp) := utf8_decode b 0 in Turn n [key_of KChar cp 0] false false.

Definition plain_step (b : bytes) : turn :=
  if negb (byte_at b 0 =? 0x1b) then char_step b
  else if (length b =? 1)%nat then Turn 0 [] false true
  else if byte_at b 1 =? 79 then
    if (length b <? 3)%nat then wait
    else Turn 3 [key_of (key_from_final (byte_at b 2)) 0 0] false false
  else if negb (byte_at b 1 =? 91) then
    let b1 := byte_at b 1 in
    Turn 2 (if (0x20 <=? b1) && (b1 <? 0x7f) then [key_of KChar b1 Alt] else []) false false
  else csi_step b.

(** The part of [step] inside a paste: bytes consumed, and the parser after. *)
Definition paste_step (p : input) : nat * input :=
  let keep := (length kPasteEnd - 1)%nat in
  let rescan_from := if (keep <? paste_scanned p)%nat then (paste_scanned p - keep)%nat else 0%nat in
  let scan := paste_scan_bytes p + (zlen (buf p) - Z.of_nat rescan_from) in
  match find_from (buf p) kPasteEnd rescan_from with
  | Some e => ((e + length kPasteEnd)%nat,
               Input (buf p) (ready p ++ [EvPaste (take e (buf p)) true]) false false 0 scan)
  | None =>
      if kMaxPasteChunk <=? zlen (buf p) then
        let flush := (length (buf p) - keep)%nat in
        (flush, Input (buf p) (ready p ++ [EvPaste (take flush (buf p)) false]) true false 0 scan)
      else
        (0%nat, Input (buf p) (ready p) true false
                  (if (keep <=? length (buf p))%nat then (length (buf p) - keep)%nat else 0%nat) scan)
  end.

Definition step (p : input) : nat * input :=
  if in_paste p then paste_step p
  else
    let t := plain_step (buf p) in
    (used t, Input (buf p) (ready p ++ pushed t) (starts_paste t) (pending t)
               (if starts_paste t then 0%nat else paste_scanned p) (paste_scan_bytes p)).

Definition erase_front (n : nat) (p : input) : input :=
  Input (drop n (buf p)) (ready p) (in_paste p) (esc_pending p) (paste_scanned p) (paste_scan_bytes p).

Fixpoint pump_loop (fuel : nat) (p : input) : input :=
  match fuel with
  | O => p
  | S fuel =>
      match buf p with
      | [] => p
      | _ => let '(n, p) := step p in if (n =? 0)%nat then p else pump_loop fuel (erase_front n p)
      end
  end.

Definition pump (p : input) : input := pump_loop (S (length (buf p))) p.

Definition feed (p : input) (bs : bytes) : input :=
  pump (Input (buf p ++ bs) (ready p) (in_paste p) (esc_pending p) (paste_scanned p) (paste_scan_bytes p)).

Definition next (p : input) : option input_event * input :=
  match ready p with
  | [] => (None, p)
  | e :: r => (Some e, Input (buf p) r (in_paste p) (esc_pending p) (paste_scanned p) (paste_scan_bytes p))
  end.

Definition timeout (p : input) : input :=
  let p := Input (buf p) (ready p) (in_paste p) false (paste_scanned p) (paste_scan_bytes p) in
  if in_paste p || (length (buf p) =? 0)%nat then p
  else if negb (byte_at (buf p) 0 =? 0x1b) then
    let '(n, cp) := utf8_decode (buf p) 0 in
    erase_front n (Input (buf p) (ready p ++ [key_of KChar cp 0]) (in_paste p) false (paste_scanned p) (paste_scan_bytes p))
  else
    Input [] (ready p ++ key_of KEscape 0 0 :: ((fun c => key_of KChar c 0) <$> drop 1 (buf p)))
      (in_paste p) false (paste_scanned p) (paste_scan_bytes p).

(** A key, a paste in two reads, a mouse press. *)
Example input_demo :
  ready (feed (feed (feed input_new (27 :: str "[1;5A" ++ 27 :: str "[200~ab")) (99 :: 27 :: str "[201"))
           (str "~" ++ 27 :: str "[<0;3;4M")) =
  [key_of KUp 0 Ctrl; EvPaste (str "abc") true; EvMouse (MouseEvent MPress 0 2 3 0)].
Proof. vm_compute. reflexivity. Qed.

(** ** A turn outside a paste *)

Lemma byte_at_app s t i : (i < length s)%nat -> byte_at (s ++ t) i = byte_at s i.
Proof. intros Hi. unfold byte_at. by rewrite lookup_app_l. Qed.

Lemma byte_at_0_app s t : s <> [] -> byte_at (s ++ t) 0 = byte_at s 0.
Proof. intros Hs. apply byte_at_app. destruct s; [done|cbn; lia]. Qed.

Lemma utf8_seq_len_lead b0 :
  utf8_seq_len b0 = if b0 <? 0x80 then 1%nat else match utf8_lead b0 with Some (need, _) => S need | None => 1%nat end.
Proof. unfold utf8_seq_len, utf8_lead. by repeat case_match. Qed.

Lemma utf8_tail_app s t k n cp :
  (k + n <= length s)%nat -> utf8_tail (s ++ t) 0 k n cp = utf8_tail s 0 k n cp.
Proof.
  revert k cp. induction n as [|n IH]; intros k cp Hk; [done|]. cbn [utf8_tail].
  rewrite byte_at_app by lia. case_match; [done|]. apply IH. lia.
Qed.

(** A character whose bytes are there is decoded alike whatever follows. *)
Lemma utf8_decode_app s t :
  s <> [] -> (utf8_seq_len (byte_at s 0) <= length s)%nat -> utf8_decode (s ++ t) 0 = utf8_decode s 0.
Proof.
  intros Hs Hl. rewrite utf8_seq_len_lead in Hl. unfold utf8_decode.
  rewrite byte_at_0_app by done. rewrite length_app.
  destruct (Nat.leb_spec (length s) 0); [destruct s; cbn [length] in *; [done|lia]|].
  destruct (Nat.leb_spec (length s + length t) 0); [lia|].
  destruct (byte_at s 0 <? 128); [done|].
  destruct (utf8_lead (byte_at s 0)) as [[need cp]|]; [|done].
  rewrite !utf8_truncated_iff by lia.
  destruct (Nat.leb_spec (length s) (0 + need)); [lia|].
  destruct (Nat.leb_spec (length s + length t) (0 + need)); [lia|].
  by rewrite utf8_tail_app by lia.
Qed.

Lemma utf8_decode_used s : s <> [] -> (1 <= (utf8_decode s 0).1 <= length s)%nat.
Proof.
  intros Hs. assert (1 <= length s)%nat as H1 by (destruct s; [done|cbn; lia]). unfold utf8_decode.
  destruct (Nat.leb_spec (length s) 0); [lia|]. destruct (byte_at s 0 <? 128); [cbn; lia|].
  destruct (utf8_lead (byte_at s 0)) as [[need cp]|]; [|cbn; lia].
  rewrite utf8_truncated_iff by lia. destruct (Nat.leb_spec (length s) (0 + need)); [cbn [fst]; lia|].
  destruct (utf8_tail s 0 1 need cp) as [k|] eqn:E; [|cbn [fst]; lia].
  apply utf8_tail_inl in E. cbn [fst]. lia.
Qed.

Lemma csi_scan_spec fuel b i :
  (length b - i < fuel)%nat -> (2 <= i)%nat ->
  match csi_scan fuel b i with
  | CsiAbandon j => (i <= j < length b)%nat
  | CsiFinal j => (i <= j < length b)%nat /\ 0x40 <= byte_at b j <= 0x7E
  | CsiMore => (i <= length b)%nat -> (length b <= Nat.max i (kMaxCsiParamsLen + 2))%nat
  end.
Proof.
  revert i. induction fuel as [|fuel IH]; intros i Hf Hi; [lia|]. cbn [csi_scan].
  destruct (Nat.leb_spec (length b) i); [lia|]. destruct (Nat.leb_spec kMaxCsiParamsLen (i - 2)); [lia|].
  destruct ((0x40 <=? byte_at b i) && (byte_at b i <=? 0x7E)) eqn:E; [zbool; lia|].
  specialize (IH (S i) ltac:(lia) ltac:(lia)). destruct (csi_scan fuel b (S i)); [lia|lia|].
  intros _. specialize (IH ltac:(lia)). unfold kMaxCsiParamsLen in *. lia.
Qed.

Lemma csi_scan_app fuel fuel' s t i :
  (length s - i < fuel)%nat -> (fuel <= fuel')%nat ->
  csi_scan fuel s i <> CsiMore -> csi_scan fuel' (s ++ t) i = csi_scan fuel s i.
Proof.
  revert fuel' i. induction fuel as [|fuel IH]; intros fuel' i Hf Hle Hm; [done|].
  destruct fuel' as [|fuel']; [lia|]. cbn [csi_scan] in *. rewrite length_app.
  destruct (Nat.leb_spec (length s) i); [done|]. destruct (Nat.leb_spec (length s + length t) i); [lia|].
  rewrite byte_at_app by lia. repeat (case_match; [done|]). apply IH; [lia|lia|done].
Qed.

Lemma csi_turn_shape ps f n : used (csi_turn ps f n) = n /\ pending (csi_turn ps f n) = false.
Proof. unfold csi_turn. by repeat case_match. Qed.

Ltac turn_shape :=
  cbn [used pushed starts_paste pending wait fst snd] in *; unfold kMaxCsiParamsLen in *;
  split; [lia|intros; split_and!; first [done|lia]].

(** What a turn leaves alone: it consumes bytes that are there, and when it waits
    it does nothing and little is waiting. *)
Lemma plain_step_used s :
  s <> [] ->
  let t := plain_step s in
  (used t <= length s)%nat /\
  (used t = 0%nat -> pushed t = [] /\ starts_paste t = false /\ (length s <= kMaxCsiParamsLen + 2)%nat).
Proof.
  intros Hs. cbv zeta. assert (1 <= length s)%nat as H1 by (destruct s; [done|cbn; lia]). unfold plain_step.
  destruct (byte_at s 0 =? 0x1b) eqn:E0; cbn [negb].
  - destruct (Nat.eqb_spec (length s) 1); [turn_shape|].
    destruct (byte_at s 1 =? 79).
    { destruct (Nat.ltb_spec (length s) 3); turn_shape. }
    destruct (byte_at s 1 =? 91); cbn [negb]; [|turn_shape].
    unfold csi_step. destruct (Nat.eqb_spec (length s) 2) as [E2|E2].
    { replace (csi_scan (length s) s 2) with CsiMore by (rewrite E2; cbn [csi_scan]; by rewrite E2). turn_shape. }
    pose proof (csi_scan_spec (length s) s 2 ltac:(lia) ltac:(lia)) as Hc.
    destruct (csi_scan (length s) s 2) as [i|i|].
    + turn_shape.
    + destruct (csi_turn_shape (take (i - 2) (drop 2 s)) (byte_at s i) (i + 1)) as [-> _]. split; [lia|]. intros ?. lia.
    + turn_shape.
  - unfold char_step. repeat (case_match; [cbn; split; [lia|]; intros ?; lia|]).
    destruct (Nat.ltb_spec (length s) (utf8_seq_len (byte_at s 0))) as [Hw|Hw].
    + enough (utf8_seq_len (byte_at s 0) <= 4)%nat by turn_shape. unfold utf8_seq_len. repeat case_match; lia.
    + pose proof (utf8_decode_used s Hs) as Hu. destruct (utf8_decode s 0) as [n cp]. cbn in *. split; [lia|]. intros ->. lia.
Qed.

(** A turn is decided by the bytes it consumes: more bytes behind change nothing. *)
Lemma plain_step_app s t :
  s <> [] -> used (plain_step s) <> 0%nat -> plain_step (s ++ t) = plain_step s.
Proof.
  intros Hs Hu. assert (1 <= length s)%nat as H1 by (destruct s; [done|cbn; lia]). unfold plain_step in *.
  rewrite byte_at_0_app by done. rewrite length_app. destruct (byte_at s 0 =? 0x1b); cbn [negb] in *.
  - destruct (Nat.eqb_spec (length s) 1); [done|]. destruct (Nat.eqb_spec (length s + length t) 1); [lia|].
    rewrite (byte_at_app _ _ 1) by lia. destruct (byte_at s 1 =? 79).
    { destruct (Nat.ltb_spec (length s) 3); [done|]. destruct (Nat.ltb_spec (length s + length t) 3); [lia|].
      by rewrite byte_at_app by lia. }
    destruct (byte_at s 1 =? 91); cbn [negb] in *; [|done]. unfold csi_step in *.
    assert (csi_scan (length s) s 2 <> CsiMore) as Hm by (intros E; by rewrite E in Hu).
    assert (csi_scan (length (s ++ t)) (s ++ t) 2 = csi_scan (length s) s 2) as E
      by (apply csi_scan_app; [lia|rewrite length_app; lia|done]).
    rewrite E. pose proof (csi_scan_spec (length s) s 2 ltac:(lia) ltac:(lia)) as Hc.
    destruct (csi_scan (length s) s 2) as [i|i|]; [done| |done].
    rewrite byte_at_app by lia. f_equal.
    rewrite drop_app_le, take_app_le by (rewrite ?length_drop; lia). done.
  - unfold char_step in *. rewrite byte_at_0_app, length_app by done.
    repeat (case_match; [done|]). destruct (Nat.ltb_spec (length s) (utf8_seq_len (byte_at s 0))); [done|].
    destruct (Nat.ltb_spec (length s + length t) (utf8_seq_len (byte_at s 0))); [lia|].
    by rewrite utf8_decode_app.
Qed.

(** ** The reference reading of a stream

    The bytes in hand, all of them, without a buffer: control sequences, keys and
    characters one by one, and a paste whole.  It returns the events, whether the
    stream ends inside a paste, and what is left undecided. *)

Fixpoint reference (fuel : nat) (inside : bool) (s : bytes) : list input_event * bool * bytes :=
  match fuel with
  | O => ([], inside, s)
  | S fuel =>
      if inside then
        match find_from s kPasteEnd 0 with
        | None => ([], true, s)
        | Some e =>
            let '(evs, i, r) := reference fuel false (drop (e + length kPasteEnd) s) in
            (EvPaste (take e s) true :: evs, i, r)
        end
      else
        match s with
        | [] => ([], false, [])
        | _ =>
            let t := plain_step s in
            if (used t =? 0)%nat then ([], false, s)
            else
              let '(evs, i, r) := reference fuel (starts_paste t) (drop (used t) s) in
              (pushed t ++ evs, i, r)
        end
  end.

(** Enough fuel for a stream: one turn per byte. *)
Definition read_stream (inside : bool) (s : bytes) : list input_event * bool * bytes :=
  reference (S (length s)) inside s.

Definition before (evs : list input_event) (o : list input_event * bool * bytes) :=
  let '(e, i, r) := o in (evs ++ e, i, r).

Lemma before_before a b o : before a (before b o) = before (a ++ b) o.
Proof. destruct o as [[e i] r]. cbn. by rewrite app_assoc. Qed.

Lemma before_nil o : before [] o = o.
Proof. by destruct o as [[e i] r]. Qed.

Lemma length_drop_lt {A} n (s : list A) : (0 < n <= length s)%nat -> (length (drop n s) < length s)%nat.
Proof. rewrite length_drop. lia. Qed.

Lemma paste_end_found s k e :
  find_from s kPasteEnd k = Some e -> (e + length kPasteEnd <= length s)%nat.
Proof.
  intros Hf. pose proof (find_from_spec s kPasteEnd k) as H. rewrite Hf in H.
  destruct H as ([_ H1] & H2 & _). apply is_prefix_length in H2. rewrite length_drop in H2. lia.
Qed.

Lemma reference_fuel f1 f2 i s :
  (length s < f1)%nat -> (length s < f2)%nat -> reference f1 i s = reference f2 i s.
Proof.
  revert f2 i s. induction f1 as [|f1 IH]; intros f2 i s H1 H2; [lia|]. destruct f2 as [|f2]; [lia|].
  cbn [reference]. destruct i.
  - destruct (find_from s kPasteEnd 0) as [e|] eqn:E; [|done]. apply paste_end_found in E.
    assert (length (drop (e + length kPasteEnd) s) < length s)%nat
      by (apply length_drop_lt; unfold kPasteEnd in *; cbn [length] in *; lia).
    by rewrite (IH f2) by lia.
  - destruct s as [|b s]; [done|]. destruct (Nat.eqb_spec (used (plain_step (b :: s))) 0); [done|].
    destruct (plain_step_used (b :: s) ltac:(done)) as [Hu _].
    assert (length (drop (used (plain_step (b :: s))) (b :: s)) < length (b :: s))%nat by (apply length_drop_lt; lia).
    by rewrite (IH f2) by lia.
Qed.

Lemma reference_rest f i s : (length (reference f i s).2 <= length s)%nat.
Proof.
  revert i s. induction f as [|f IH]; intros i s; [done|]. cbn [reference]. destruct i.
  - destruct (find_from s kPasteEnd 0) as [e|]; [|done].
    specialize (IH false (drop (e + length kPasteEnd) s)). destruct (reference f false _) as [[evs i] r].
    rewrite length_drop in IH. cbn [snd] in *. lia.
  - destruct s as [|b s]; [done|]. destruct (_ =? _)%nat; [done|].
    specialize (IH (starts_paste (plain_step (b :: s))) (drop (used (plain_step (b :: s))) (b :: s))).
    destruct (reference f _ _) as [[evs i] r]. rewrite length_drop in IH. cbn [snd] in *. lia.
Qed.

(** Its equations. *)
Lemma read_paste s :
  read_stream true s =
    match find_from s kPasteEnd 0 with
    | None => ([], true, s)
    | Some e => before [EvPaste (take e s) true] (read_stream false (drop (e + length kPasteEnd) s))
    end.
Proof.
  unfold read_stream at 1. cbn [reference]. destruct (find_from s kPasteEnd 0) as [e|] eqn:E; [|done].
  apply paste_end_found in E. unfold read_stream.
  rewrite (reference_fuel (length s) (S (length (drop (e + length kPasteEnd) s))));
    [by destruct (reference _ _ _) as [[? ?] ?]|apply length_drop_lt; unfold kPasteEnd in *; cbn [length] in *; lia|lia].
Qed.

Lemma read_plain s :
  s <> [] ->
  read_stream false s =
    let t := plain_step s in
    if (used t =? 0)%nat then ([], false, s)
    else before (pushed t) (read_stream (starts_paste t) (drop (used t) s)).
Proof.
  intros Hs. cbv zeta. unfold read_stream at 1. cbn [reference].
  destruct s as [|b s]; [done|]. destruct (plain_step_used (b :: s) ltac:(done)) as [Hu _].
  destruct (Nat.eqb_spec (used (plain_step (b :: s))) 0) as [|Hn]; [done|]. unfold read_stream.
  rewrite (reference_fuel (length (b :: s)) (S (length (drop (used (plain_step (b :: s))) (b :: s)))));
    [by destruct (reference _ _ _) as [[? ?] ?]|apply length_drop_lt; lia|lia].
Qed.

(** Reading in two times. *)
Lemma read_stream_app n i s t :
  (length s < n)%nat ->
  read_stream i (s ++ t) = let '(evs, i', r) := read_stream i s in before evs (read_stream i' (r ++ t)).
Proof.
  revert i s. induction n as [|n IH]; intros i s Hn; [lia|]. destruct i.
  - rewrite (read_paste s). destruct (find_from s kPasteEnd 0) as [e|] eqn:E; [|by rewrite before_nil].
    pose proof (paste_end_found _ _ _ E) as Hle. pose proof (find_from_spec s kPasteEnd 0) as H. rewrite E in H.
    destruct H as (He & Hp & Hm).
    assert (find_from (s ++ t) kPasteEnd 0 = Some e) as E'.
    { apply find_from_first; [rewrite length_app; lia| |].
      - rewrite drop_app_le by lia. rewrite is_prefix_app by (rewrite length_drop; lia). done.
      - intros m Hlt. rewrite drop_app_le by lia. rewrite is_prefix_app by (rewrite length_drop; lia). by apply Hm. }
    rewrite read_paste, E', take_app_le, drop_app_le by lia.
    rewrite IH by (pose proof (length_drop_lt (e + length kPasteEnd) s); unfold kPasteEnd in *; cbn [length] in *; lia).
    destruct (read_stream false (drop (e + length kPasteEnd) s)) as [[evs i] r]. cbn [before]. by rewrite before_before.
  - destruct (decide (s = [])) as [->|Hs]; [unfold read_stream at 2; cbn; by rewrite before_nil|].
    rewrite (read_plain s) by done. cbv zeta. destruct (plain_step_used s Hs) as [Hu _].
    destruct (Nat.eqb_spec (used (plain_step s)) 0) as [|Hnz]; [by rewrite before_nil|].
    assert (s ++ t <> []) as Hst by (by destruct s).
    rewrite read_plain by done. rewrite plain_step_app by done. cbv zeta.
    destruct (Nat.eqb_spec (used (plain_step s)) 0); [done|]. rewrite drop_app_le by lia.
    rewrite IH by (pose proof (length_drop_lt (used (plain_step s)) s); lia).
    destruct (read_stream (starts_paste (plain_step s)) (drop (used (plain_step s)) s)) as [[evs i] r]. cbn [before].
    by rewrite before_before.
Qed.

(** ** The parser refines the reference *)

(** A paste delivered in fragments, put back together; the second result is the
    text of the paste still open. *)
Fixpoint merge (open : bytes) (evs : list input_event) : list input_event * bytes :=
  match evs with
  | [] => ([], open)
  | EvPaste t false :: r => merge (open ++ t) r
  | EvPaste t true :: r => let '(e, o) := merge [] r in (EvPaste (open ++ t) true :: e, o)
  | e :: r => let '(es, o) := merge open r in (e :: es, o)
  end.

Lemma merge_app o a b :
  merge o (a ++ b) = let '(ea, o1) := merge o a in let '(eb, o2) := merge o1 b in (ea ++ eb, o2).
Proof.
  revert o. induction a as [|e a IH]; intros o; cbn [merge app].
  - by destruct (merge o b).
  - assert (forall o', (let '(es, o2) := merge o' (a ++ b) in (e :: es, o2)) =
      let '(ea, o1) := (let '(es, o2) := merge o' a in (e :: es, o2)) in
      let '(eb, o2) := merge o1 b in (ea ++ eb, o2)) as Hstep.
    { intros o'. rewrite IH. destruct (merge o' a) as [ea o1]. by destruct (merge o1 b). }
    destruct e as [k|m|t [|]|f]; [apply Hstep|apply Hstep| |apply IH|apply Hstep].
    rewrite IH. destruct (merge [] a) as [ea o1]. by destruct (merge o1 b).
Qed.

(** Only key, mouse and focus events come out of a turn outside a paste. *)
Definition is_paste (e : input_event) : bool := match e with EvPaste _ _ => true | _ => false end.

Lemma merge_plain o evs : Forall (fun e => is_paste e = false) evs -> merge o evs = (evs, o).
Proof. induction 1 as [|e evs He _ IH]; [done|]. destruct e; cbn [merge is_paste] in *; by rewrite ?IH. Qed.

Lemma plain_step_pushed s : Forall (fun e => is_paste e = false) (pushed (plain_step s)).
Proof.
  unfold plain_step, char_step, csi_step, csi_turn, mouse_of, key_of, wait.
  repeat case_match; repeat constructor.
Qed.

Definition got (p : input) : list input_event := (merge [] (ready p)).1.
Definition open (p : input) : bytes := (merge [] (ready p)).2.

Definition kKeep : nat := length kPasteEnd - 1.

(** The scan of a paste has missed no terminator. *)
Definition input_ok (p : input) : Prop :=
  if in_paste p then
    let seen := (length (open p) + paste_scanned p)%nat in
    (forall i, (i < seen)%nat -> is_prefix kPasteEnd (drop i (open p ++ buf p)) = false) /\
    (seen = 0%nat \/ (seen + kKeep <= length (open p ++ buf p))%nat)
  else open p = [].

(** Everything the bytes received say, with those still in the buffer. *)
Definition total (p : input) : list input_event * bool * bytes :=
  before (got p) (read_stream (in_paste p) (open p ++ buf p)).

(** Nothing more to say until more bytes come. *)
Definition quiet (p : input) : Prop :=
  read_stream (in_paste p) (open p ++ buf p) = ([], in_paste p, open p ++ buf p) /\
  zlen (buf p) < (if in_paste p then kMaxPasteChunk else Z.of_nat (kMaxCsiParamsLen + 3)).

Definition step_ok (p : input) (r : nat * input) : Prop :=
  let '(n, p') := r in
  (n <= length (buf p))%nat /\ buf p' = buf p /\
  input_ok (erase_front n p') /\ total (erase_front n p') = total p /\
  (n = 0%nat -> quiet (erase_front n p')).

Lemma got_push p evs e o :
  merge (open p) evs = (e, o) ->
  merge [] (ready p ++ evs) = (got p ++ e, o).
Proof.
  intros Hm. rewrite merge_app. unfold got, open in *. destruct (merge [] (ready p)) as [g o'].
  cbn [fst snd] in *. by rewrite Hm.
Qed.

Lemma plain_turn_ok p :
  input_ok p -> in_paste p = false -> buf p <> [] -> step_ok p (step p).
Proof.
  intros Hok Hin Hb. unfold step. rewrite Hin. unfold input_ok in Hok. rewrite Hin in Hok.
  destruct (plain_step_used (buf p) Hb) as [Hu H0]. set (t := plain_step (buf p)) in *.
  pose proof (merge_plain (open p) (pushed t) (plain_step_pushed _)) as Hm. rewrite Hok in Hm.
  assert (merge [] (ready p ++ pushed t) = (got p ++ pushed t, [])) as Hg
    by (apply got_push; by rewrite Hok).
  unfold step_ok, erase_front, input_ok, total, quiet, got, open. cbn [buf ready in_paste paste_scanned].
  rewrite Hg. fold (got p) (open p). cbn [fst snd]. rewrite Hin, Hok. cbn [app].
  pose proof (read_plain (buf p) Hb) as Hr. cbv zeta in Hr. fold t in Hr. rewrite Hr.
  destruct (Nat.eqb_spec (used t) 0) as [E|E].
  - destruct (H0 E) as (Ep & Es & Hl). rewrite Es, Ep, E, drop_0. cbn [fst snd app]. rewrite Hr.
    rewrite app_nil_r. split_and!; [lia|done|done|done|]. intros _. split; [done|]. unfold zlen. lia.
  - split_and!; [done|done| |by rewrite before_before|done].
    destruct (starts_paste t); [|done]. cbn. split; [lia|by left].
Qed.

(** The search from where the last one stopped finds what a search of the whole
    paste would. *)
Lemma scan_is_complete p :
  input_ok p -> in_paste p = true ->
  let from := if (kKeep <? paste_scanned p)%nat then (paste_scanned p - kKeep)%nat else 0%nat in
  find_from (open p ++ buf p) kPasteEnd 0 =
    match find_from (buf p) kPasteEnd from with Some e => Some (length (open p) + e)%nat | None => None end.
Proof.
  intros Hok Hin. cbv zeta. unfold input_ok in Hok. rewrite Hin in Hok. cbv zeta in Hok. destruct Hok as [Hno Hlen].
  set (from := if _ : bool then _ else _).
  assert (from <= paste_scanned p)%nat as Hf by (subst from; destruct (Nat.ltb_spec kKeep (paste_scanned p)); lia).
  clearbody from. pose proof (find_from_spec (buf p) kPasteEnd from) as H.
  assert (forall i, (length (open p) <= i)%nat ->
    drop i (open p ++ buf p) = drop (i - length (open p)) (buf p)) as Hd by (intros; by rewrite drop_app_ge).
  destruct (find_from (buf p) kPasteEnd from) as [e|].
  - destruct H as ([H1 H2] & H3 & H4). apply find_from_first; [rewrite length_app; lia| |].
    + rewrite Hd by lia. by replace (length (open p) + e - length (open p))%nat with e by lia.
    + intros m Hm. destruct (decide (m < length (open p) + paste_scanned p)%nat); [by apply Hno|].
      rewrite Hd by lia. apply H4. lia.
  - apply find_from_none. intros m Hm. rewrite length_app in Hm.
    destruct (decide (m < length (open p) + paste_scanned p)%nat); [by apply Hno|].
    rewrite Hd by lia. apply H. lia.
Qed.

Lemma open_input b r i e ps sb : open (Input b r i e ps sb) = (merge [] r).2.
Proof. done. Qed.

Lemma got_input b r i e ps sb : got (Input b r i e ps sb) = (merge [] r).1.
Proof. done. Qed.

(** No terminator in the whole paste: none begins before its last bytes. *)
Lemma scanned_all N k :
  find_from N kPasteEnd 0 = None -> (k <= length N)%nat ->
  forall i, (i < k)%nat -> is_prefix kPasteEnd (drop i N) = false.
Proof. intros H Hk i Hi. pose proof (find_from_spec N kPasteEnd 0) as Hs. rewrite H in Hs. apply Hs. lia. Qed.

Lemma paste_turn_ok p : input_ok p -> in_paste p = true -> step_ok p (step p).
Proof.
  intros Hok Hin. unfold step. rewrite Hin. pose proof (scan_is_complete p Hok Hin) as Hscan. cbv zeta in Hscan.
  unfold paste_step. cbv zeta. fold kKeep. destruct (find_from (buf p) kPasteEnd _) as [e|] eqn:E.
  - apply paste_end_found in E. unfold step_ok, erase_front, input_ok, total, quiet. cbn [buf ready in_paste paste_scanned].
    assert (merge [] (ready p ++ [EvPaste (take e (buf p)) true]) =
      (got p ++ [EvPaste (open p ++ take e (buf p)) true], [])) as Hm by (by apply got_push).
    rewrite !open_input, !got_input, Hm. cbn [fst snd app]. split_and!; [done|done|done| |].
    + rewrite Hin, read_paste, Hscan, before_before.
      rewrite take_app_ge, drop_app_ge by lia. do 3 f_equal; [do 3 f_equal; lia|]. f_equal. lia.
    + intros H0. unfold kPasteEnd in *. cbn [length] in *. lia.
  - assert (find_from (open p ++ buf p) kPasteEnd 0 = None) as Hnone by (by rewrite Hscan).
    destruct (Z.leb_spec kMaxPasteChunk (zlen (buf p))) as [Hbig|Hsmall].
    + assert (kKeep < length (buf p))%nat as Hk by (unfold zlen, kMaxPasteChunk, kKeep in *; cbn [length kPasteEnd] in *; cbn in *; lia).
      set (fl := (length (buf p) - kKeep)%nat). unfold step_ok, erase_front, input_ok, total, quiet.
      cbn [buf ready in_paste paste_scanned].
      assert (merge [] (ready p ++ [EvPaste (take fl (buf p)) false]) = (got p ++ [], open p ++ take fl (buf p))) as Hm
        by (by apply got_push).
      rewrite !open_input, !got_input, Hm. cbn [fst snd].
      rewrite <- !app_assoc, take_drop, app_nil_r. rewrite Hin.
      split_and!; [subst fl; lia|done| | |done|intros H0; subst fl; lia].
      * intros i Hi. apply (scanned_all _ _ Hnone (Nat.le_refl _)). rewrite length_app in *. rewrite length_take in Hi. lia.
      * right. rewrite !length_app, length_take. subst fl. lia.
    + unfold step_ok, erase_front, input_ok, total, quiet. cbn [buf ready in_paste paste_scanned]. rewrite !drop_0.
      rewrite !open_input, !got_input. fold (open p) (got p).
      rewrite Hin, read_paste, Hnone. split_and!; [lia|done| | |done|done].
      * intros i Hi. apply (scanned_all _ _ Hnone (Nat.le_refl _)).
        rewrite length_app. destruct (Nat.leb_spec kKeep (length (buf p))); lia.
      * rewrite length_app. destruct (Nat.leb_spec kKeep (length (buf p))); [right; lia|].
        destruct (decide (length (open p) = 0)%nat); [left; lia|right].
        unfold input_ok in Hok. rewrite Hin in Hok. destruct Hok as [_ Hok]. rewrite length_app in Hok. lia.
Qed.

Lemma step_ok_any p : input_ok p -> buf p <> [] -> step_ok p (step p).
Proof. intros. destruct (in_paste p) eqn:E; [by apply paste_turn_ok|by apply plain_turn_ok]. Qed.

(** An empty buffer says nothing more. *)
Lemma quiet_empty p : input_ok p -> buf p = [] -> quiet p.
Proof.
  intros Hok E0. unfold quiet, input_ok in *. rewrite E0 in *. destruct (in_paste p).
  - destruct Hok as [Hno [H0|Hle]]; (split; [|by vm_compute]).
    + assert (open p = []) as -> by (apply nil_length_inv; lia). reflexivity.
    + rewrite read_paste, find_from_none; [done|]. intros m Hm. rewrite app_nil_r in *.
      destruct (decide (m < length (open p))%nat); [apply Hno; lia|by rewrite drop_ge by lia].
  - rewrite Hok. split; [reflexivity|by vm_compute].
Qed.

Lemma pump_loop_ok fuel p :
  (length (buf p) < fuel)%nat -> input_ok p ->
  let p' := pump_loop fuel p in input_ok p' /\ total p' = total p /\ quiet p'.
Proof.
  revert p. induction fuel as [|fuel IH]; intros p Hf Hok; [lia|]. cbv zeta. cbn [pump_loop].
  destruct (buf p) as [|b s] eqn:Eb; [split_and!; [done|done|by apply quiet_empty]|].
  pose proof (step_ok_any p Hok ltac:(by rewrite Eb)) as Hs. destruct (step p) as [n q].
  unfold step_ok in Hs. destruct Hs as (Hn & Hbuf & Hok' & Ht & Hq0).
  destruct (Nat.eqb_spec n 0) as [->|Hnz].
  - assert (erase_front 0 q = q) as E by (unfold erase_front; rewrite drop_0; by destruct q).
    rewrite E in *. by split_and!; auto.
  - rewrite <- Ht. apply IH; [|done]. cbn [erase_front buf]. rewrite Hbuf, length_drop, Eb in *. cbn [length] in *. lia.
Qed.

(** One delivery: the stream read so far grows by its bytes. *)
Lemma feed_ok p bs :
  input_ok p -> quiet p ->
  let p' := feed p bs in
  input_ok p' /\ quiet p' /\
  total p' = before (got p) (read_stream (in_paste p) ((open p ++ buf p) ++ bs)).
Proof.
  intros Hok Hq. cbv zeta. unfold feed, pump.
  set (q := Input (buf p ++ bs) (ready p) (in_paste p) (esc_pending p) (paste_scanned p) (paste_scan_bytes p)).
  assert (input_ok q) as Hokq.
  { unfold input_ok, q in *. cbn [in_paste buf paste_scanned]. rewrite open_input. fold (open p).
    destruct (in_paste p); [|done]. cbv zeta in *. destruct Hok as [Hno Hlen]. rewrite app_assoc. split.
    - intros i Hi. rewrite drop_app_le by lia. rewrite is_prefix_app; [by apply Hno|].
      rewrite length_drop. assert (length kPasteEnd = S kKeep) as -> by done. lia.
    - rewrite length_app. lia. }
  destruct (pump_loop_ok (S (length (buf q))) q ltac:(lia) Hokq) as (H1 & H2 & H3).
  split_and!; [done|done|]. rewrite H2. unfold total, q. cbn [buf in_paste]. rewrite open_input, got_input.
  by rewrite <- app_assoc.
Qed.

(** Everything received so far, whatever the deliveries. *)
Lemma feeds_ok chunks :
  let p := fold_left feed chunks input_new in
  input_ok p /\ quiet p /\ total p = read_stream false (concat chunks).
Proof.
  induction chunks as [|bs chunks IH] using rev_ind; [split_and!; [done|split; [reflexivity|by vm_compute]|reflexivity]|].
  cbv zeta in *. rewrite fold_left_app. cbn [fold_left]. destruct IH as (H1 & H2 & H3).
  destruct (feed_ok _ bs H1 H2) as (H4 & H5 & H6). split_and!; [done|done|].
  rewrite H6, concat_app. cbn [concat]. rewrite app_nil_r.
  rewrite (read_stream_app (S (length (concat chunks))) false (concat chunks)) by lia. rewrite <- H3. unfold total.
  destruct H2 as [-> _]. cbn [before]. by rewrite app_nil_r.
Qed.

(** What waits outside a paste: a key the timeout must free. *)
Lemma waiting_char s :
  s <> [] -> byte_at s 0 <> 0x1b -> used (plain_step s) = 0%nat -> utf8_decode s 0 = (length s, replacement).
Proof.
  intros Hs H0 Hu. unfold plain_step in Hu. rewrite (proj2 (Z.eqb_neq _ _) H0) in Hu. cbn [negb] in Hu.
  unfold char_step in Hu. repeat (case_match; [done|]).
  destruct (Nat.ltb_spec (length s) (utf8_seq_len (byte_at s 0))) as [Hl|Hl].
  - rewrite utf8_seq_len_lead in Hl. unfold utf8_decode. assert (1 <= length s)%nat by (destruct s; [done|cbn; lia]).
    destruct (Nat.leb_spec (length s) 0); [lia|]. destruct (byte_at s 0 <? 128); [lia|].
    destruct (utf8_lead (byte_at s 0)) as [[need cp]|]; [|lia]. rewrite utf8_truncated_iff by lia.
    destruct (Nat.leb_spec (length s) (0 + need)); [|lia]. by rewrite Nat.sub_0_r.
  - pose proof (utf8_decode_used s Hs). destruct (utf8_decode s 0). cbn in *. lia.
Qed.

(** ** The theorems *)

(** C32: the parser is a function of the stream.  Whatever the deliveries its bytes
    come in, the events it made, with the fragments of a long paste put back
    together, its paste state and the bytes it still holds are those of one
    reading of the whole stream; and what it holds stays under 1 MiB inside a
    paste, and under 131 bytes outside. *)
Theorem chunks_refine_stream chunks :
  let p := fold_left feed chunks input_new in
  let '(events, text) := merge [] (ready p) in
  read_stream false (concat chunks) = (events, in_paste p, text ++ buf p) /\
  zlen (buf p) < (if in_paste p then kMaxPasteChunk else 131).
Proof.
  cbv zeta. destruct (feeds_ok chunks) as (_ & [H1 H2] & H3). set (p := fold_left feed chunks input_new) in *.
  unfold total in H3. rewrite H1 in H3. unfold got, open in H3, H1. destruct (merge [] (ready p)) as [events text].
  cbn [before fst snd] in *. rewrite app_nil_r in H3. by rewrite <- H3.
Qed.

(** The timeout frees what waits.  After any deliveries, outside a paste, it
    empties the buffer: a lone escape is the key, an unfinished sequence is the
    escape followed by its bytes one by one, an unfinished character is one
    replacement character; inside a paste it touches nothing. *)
Theorem timeout_frees chunks :
  let p := fold_left feed chunks input_new in
  esc_pending (timeout p) = false /\
  (in_paste p = true -> buf (timeout p) = buf p /\ ready (timeout p) = ready p) /\
  (in_paste p = false ->
   buf (timeout p) = [] /\
   ready (timeout p) = ready p ++
     match buf p with
     | [] => []
     | b :: rest => if to_u8 b =? 0x1b then key_of KEscape 0 0 :: ((fun c => key_of KChar c 0) <$> rest)
                    else [key_of KChar replacement 0]
     end).
Proof.
  cbv zeta. destruct (feeds_ok chunks) as (Hok & [Hq _] & _). set (p := fold_left feed chunks input_new) in *.
  unfold timeout. cbv zeta. cbn [buf ready in_paste paste_scanned paste_scan_bytes].
  unfold input_ok in Hok. destruct (in_paste p); cbn [orb]; [done|]. rewrite Hok in Hq. cbn [app] in Hq.
  destruct (buf p) as [|b s] eqn:Eb; [cbn; by rewrite app_nil_r|]. cbn [length Nat.eqb].
  change (byte_at (b :: s) 0) with (to_u8 b). destruct (Z.eqb_spec (to_u8 b) 27) as [E27|Hb]; cbn [negb]; [done|].
  rewrite read_plain in Hq by done. cbv zeta in Hq.
  destruct (Nat.eqb_spec (used (plain_step (b :: s))) 0) as [E|E].
  - rewrite waiting_char by done. cbn [erase_front esc_pending buf ready]. by rewrite drop_all.
  - destruct (plain_step_used (b :: s) ltac:(done)) as [Hu _].
    pose proof (reference_rest (S (length (drop (used (plain_step (b :: s))) (b :: s))))
      (starts_paste (plain_step (b :: s))) (drop (used (plain_step (b :: s))) (b :: s))) as Hr.
    fold (read_stream (starts_paste (plain_step (b :: s))) (drop (used (plain_step (b :: s))) (b :: s))) in Hr.
    destruct (read_stream _ (drop _ _)) as [[evs i] r]. cbn [before snd] in *. injection Hq as _ _ ->.
    rewrite length_drop in Hr. cbn [length] in *. lia.
Qed.
