(* ===== verification/InputEncode.v ===== *)
(** * Keys to bytes: [src/input/encode.hpp], [src/input/encode.cpp]

    What the terminal window writes to its guest for a key.  The round trip with
    the input parser is proved for every key the parser can tell apart; the
    control bytes it cannot give back are listed by [control_bytes_echo]. *)

From S2P Require Import Prelude StdString Utf8 Input InputParser.

Inductive plain := Csi | Ss3Always | Ss3WhenApplication.

#[export] Instance plain_eq_dec : EqDecision plain. Proof. solve_decision. Defined.

Definition kFinals : list (key * Z * plain) :=
  [(KUp, 65, Ss3WhenApplication); (KDown, 66, Ss3WhenApplication); (KRight, 67, Ss3WhenApplication);
   (KLeft, 68, Ss3WhenApplication); (KHome, 72, Ss3WhenApplication); (KEnd, 70, Ss3WhenApplication);
   (KF1, 80, Ss3Always); (KF2, 81, Ss3Always); (KF3, 82, Ss3Always); (KF4, 83, Ss3Always);
   (KBackTab, 90, Csi)].

Definition kTildes : list (key * Z) :=
  [(KInsert, 2); (KDelete, 3); (KPgUp, 5); (KPgDn, 6); (KF5, 15); (KF6, 17); (KF7, 18); (KF8, 19);
   (KF9, 20); (KF10, 21); (KF11, 23); (KF12, 24)].

Definition mod_param (mods : Z) : bytes := to_string (Z.land mods 0x07 + 1).

Definition find_final (k : key) : option (key * Z * plain) :=
  List.find (fun f => bool_decide (f.1.1 = k)) kFinals.

Definition find_tilde (k : key) : option (key * Z) :=
  List.find (fun t => bool_decide (t.1 = k)) kTildes.

Definition control_byte (ch : Z) : option Z :=
  if (97 <=? ch) && (ch <=? 122) then Some (ch - 97 + 1)
  else if (65 <=? ch) && (ch <=? 90) then Some (ch - 65 + 1)
  else if ch =? 32 then Some 0
  else None.

Definition encode_char (k : key_event) : bytes :=
  let body :=
    if negb (Z.land (ke_mods k) Ctrl =? 0) then
      match control_byte (ke_ch k) with Some c => [c] | None => encode_utf8 (ke_ch k) end
    else encode_utf8 (ke_ch k) in
  if negb (Z.land (ke_mods k) Alt =? 0) then 27 :: body else body.

(** The four keys that are one ASCII byte. *)
Definition ascii_key (k : key) : option Z :=
  match k with
  | KEnter => Some 13 | KTab => Some 9 | KBackspace => Some 127 | KEscape => Some 27
  | _ => None
  end.

Definition encode_key (k : key_event) (cursor_keys_application : bool) : bytes :=
  if decide (ke_key k = KChar) then encode_char k
  else match ascii_key (ke_key k) with
  | Some a => if negb (Z.land (ke_mods k) Alt =? 0) then [27; a] else [a]
  | None =>
      let mods := Z.land (ke_mods k) 0x07 in
      match find_final (ke_key k) with
      | Some (_, final_byte, pl) =>
          if negb (mods =? 0) then 27 :: str "[1;" ++ mod_param mods ++ [final_byte]
          else
            let ss3 := bool_decide (pl = Ss3Always) ||
                       (bool_decide (pl = Ss3WhenApplication) && cursor_keys_application) in
            (27 :: if ss3 then str "O" else str "[") ++ [final_byte]
      | None =>
          match find_tilde (ke_key k) with
          | Some (_, c) =>
              let code := to_string c in
              if negb (mods =? 0) then 27 :: str "[" ++ code ++ str ";" ++ mod_param mods ++ str "~"
              else 27 :: str "[" ++ code ++ str "~"
          | None => []
          end
      end
  end.

(** ** Keys the wire can carry

    A character is alone, under Ctrl when it is a letter with a byte of its own
    (not H, I, J or M, which are other keys), or under Alt when ASCII (not O or
    [[], which open sequences).  Escape alone needs the timeout. *)
Definition typable (k : key_event) : bool :=
  let m := ke_mods k in
  let c := ke_ch k in
  match ke_key k with
  | KChar =>
      if m =? 0 then bool_decide (scalar c) && (0x20 <=? c) && negb (c =? 0x7f)
      else if m =? Ctrl then
        (c =? 32) || ((97 <=? c) && (c <=? 122) && negb (c =? 104) && negb (c =? 105) && negb (c =? 106) && negb (c =? 109))
      else (m =? Alt) && (0x20 <=? c) && (c <? 0x7f) && negb (c =? 79) && negb (c =? 91)
  | KEnter | KTab | KBackspace => (m =? 0) && (c =? 0)
  | KNone | KUnknown | KEscape => false
  | _ => (c =? 0) && (0 <=? m) && (m <? 8)
  end.

(** ** One key *)

Definition one_key (k : key_event) (s : bytes) : Prop :=
  s <> [] /\ plain_step s = Turn (length s) [EvKey k] false false.

Definition special_keys : list key :=
  [KBackTab; KUp; KDown; KLeft; KRight; KHome; KEnd; KPgUp; KPgDn; KInsert; KDelete;
   KF1; KF2; KF3; KF4; KF5; KF6; KF7; KF8; KF9; KF10; KF11; KF12].

Definition one_key_b (k : key_event) (s : bytes) : bool :=
  let t := plain_step s in
  negb (length s =? 0)%nat && (used t =? length s)%nat && bool_decide (pushed t = [EvKey k]) &&
  negb (starts_paste t) && negb (pending t).

Lemma one_key_check k s : one_key_b k s = true -> one_key k s.
Proof.
  unfold one_key_b, one_key. destruct (plain_step s) as [u ps st pe]. cbn [used pushed starts_paste pending].
  intros H. rewrite !andb_true_iff in H. destruct H as [[[[H1 H2] H3] H4] H5].
  apply Nat.eqb_eq in H2. apply bool_decide_eq_true in H3. destruct st, pe; try done. subst. split; [by destruct s|done].
Qed.

Lemma special_key_one k m app :
  k ∈ special_keys -> 0 <= m < 8 -> one_key (KeyEvent k 0 m) (encode_key (KeyEvent k 0 m) app).
Proof.
  intros Hk Hm. apply one_key_check.
  assert (forallb (fun k => forallb (fun m => forallb (fun app =>
    one_key_b (KeyEvent k 0 m) (encode_key (KeyEvent k 0 m) app)) [true; false]) [0; 1; 2; 3; 4; 5; 6; 7])
    special_keys = true) as H by (vm_compute; reflexivity).
  rewrite forallb_forall in H. specialize (H k ltac:(by apply list_elem_of_In)).
  rewrite forallb_forall in H. specialize (H m ltac:(cbn; lia)).
  rewrite forallb_forall in H. apply H. destruct app; cbn; auto.
Qed.

Lemma encode_lead c :
  scalar c -> 0x80 <= c ->
  0xC0 <= byte_at (encode_utf8 c) 0 /\ utf8_seq_len (byte_at (encode_utf8 c) 0) = length (encode_utf8 c).
Proof.
  intros Hs Hc. rewrite encode_utf8_arith by done. destruct Hs as [Hr _]. unfold encode_arith.
  zrw_false (c <? 0x80). destruct (Z.ltb_spec c 0x800); [|destruct (Z.ltb_spec c 0x10000)];
    (erewrite byte_at_lookup; [|reflexivity|unfold byte_ok; Z.div_mod_to_equations; lia]);
    rewrite utf8_seq_len_lead, lead_arith by (unfold byte_ok; Z.div_mod_to_equations; lia);
    (split; [Z.div_mod_to_equations; lia|]).
  - zrw_false (192 + c / 64 <? 128).
    assert ((192 <=? 192 + c / 64) && (192 + c / 64 <? 224) = true) as -> by (Z.div_mod_to_equations; lia). done.
  - zrw_false (224 + c / 4096 <? 128).
    assert ((192 <=? 224 + c / 4096) && (224 + c / 4096 <? 224) = false) as -> by (Z.div_mod_to_equations; lia).
    assert ((224 <=? 224 + c / 4096) && (224 + c / 4096 <? 240) = true) as -> by (Z.div_mod_to_equations; lia). done.
  - zrw_false (240 + c / 262144 <? 128).
    assert ((192 <=? 240 + c / 262144) && (240 + c / 262144 <? 224) = false) as -> by (Z.div_mod_to_equations; lia).
    assert ((224 <=? 240 + c / 262144) && (240 + c / 262144 <? 240) = false) as -> by (Z.div_mod_to_equations; lia).
    assert ((240 <=? 240 + c / 262144) && (240 + c / 262144 <? 248) = true) as -> by (Z.div_mod_to_equations; lia). done.
Qed.

Lemma wide_char_one c :
  scalar c -> 0x80 <= c -> one_key (KeyEvent KChar c 0) (encode_utf8 c).
Proof.
  intros Hs Hc. destruct (encode_lead c Hs Hc) as [H0 Hl]. pose proof (encode_utf8_nonempty c) as Hn.
  split; [by destruct (encode_utf8 c); cbn in *; [lia|]|].
  unfold plain_step, char_step. set (b := byte_at (encode_utf8 c) 0) in *.
  zrw_false (b =? 0x1b). zrw_false (b =? 13). zrw_false (b =? 10). zrw_false (b =? 9). zrw_false (b =? 0x7f).
  zrw_false (b =? 0x08). zrw_false (b <? 0x20). cbn [negb orb]. rewrite Hl, Nat.ltb_irrefl.
  pose proof (utf8_decode_encode_0 c [] Hs) as Hd. rewrite app_nil_r in Hd. by rewrite Hd.
Qed.

(** The ASCII characters, plain, under Ctrl and under Alt, by evaluation. *)
Lemma ascii_one c m :
  c ∈ all_bytes -> m ∈ [0; Alt; Ctrl] -> c < 0x80 -> typable (KeyEvent KChar c m) = true ->
  one_key (KeyEvent KChar c m) (encode_char (KeyEvent KChar c m)).
Proof.
  intros Hc Hm Hlt Ht. apply one_key_check.
  assert (forallb (fun c => forallb (fun m => negb ((c <? 0x80) && typable (KeyEvent KChar c m)) ||
    one_key_b (KeyEvent KChar c m) (encode_char (KeyEvent KChar c m))) [0; Alt; Ctrl]) all_bytes = true) as H
    by (vm_compute; reflexivity).
  rewrite forallb_forall in H. specialize (H c ltac:(by apply list_elem_of_In)).
  rewrite forallb_forall in H. specialize (H m ltac:(by apply list_elem_of_In)).
  rewrite Ht in H. rewrite (proj2 (Z.ltb_lt _ _) Hlt) in H. exact H.
Qed.

Lemma typable_one k app : typable k = true -> one_key k (encode_key k app).
Proof.
  destruct k as [k c m]. intros Ht. destruct (decide (k = KChar)) as [->|Hk].
  - unfold encode_key. cbn [ke_key]. destruct (decide (KChar = KChar)); [|done].
    assert (m = 0 /\ scalar c \/ m ∈ [Alt; Ctrl] /\ c < 0x80 \/ False) as Hcase.
    { unfold typable in Ht. cbn [ke_key ke_mods ke_ch] in Ht. destruct (Z.eqb_spec m 0); [left; zbool|right; left].
      - split; [done|]. by eapply bool_decide_eq_true.
      - destruct (Z.eqb_spec m Ctrl) as [->|]; [split; [set_solver|lia]|]. zbool. subst m. split; [set_solver|lia]. }
    assert (0 <= c) as H0.
    { unfold typable in Ht. cbn [ke_key ke_mods ke_ch] in Ht. destruct (m =? 0); [zbool; lia|]. destruct (m =? Ctrl); [lia|zbool; lia]. }
    destruct (decide (0x80 <= c)) as [Hw|Hw].
    + destruct Hcase as [[-> Hs]|[[_ ?]|[]]]; [|lia]. by apply wide_char_one.
    + apply ascii_one; [apply elem_of_all_bytes; unfold byte_ok; lia| |lia|done].
      destruct Hcase as [[-> _]|[[Hm _]|[]]]; set_solver.
  - unfold typable in Ht. cbn [ke_key ke_mods ke_ch] in Ht.
    destruct k; try done; zbool; subst; try (apply special_key_one; [set_solver|lia]); by apply one_key_check.
Qed.

(** ** Streams of keys *)

Lemma read_keys ks :
  Forall (fun k => typable k.1 = true) ks ->
  read_stream false (concat ((fun k => encode_key k.1 k.2) <$> ks)) = ((fun k => EvKey k.1) <$> ks, false, []).
Proof.
  induction 1 as [|k ks Hk _ IH]; [reflexivity|]. rewrite !fmap_cons. cbn [concat].
  destruct (typable_one k.1 k.2 Hk) as [Hne Ht]. set (s := encode_key k.1 k.2) in *.
  assert (used (plain_step s) <> 0%nat) as Hu by (rewrite Ht; cbn; by destruct s).
  rewrite read_plain by (by destruct s). cbv zeta. rewrite (plain_step_app s) by done. rewrite Ht.
  cbn [used pushed starts_paste]. destruct (Nat.eqb_spec (length s) 0); [by destruct s|].
  rewrite drop_app_length, IH. done.
Qed.

(** C33: a key goes through the wire unchanged.  Any sequence of keys the wire can
    carry, each encoded under either cursor mode, and delivered in any cut,
    comes out of the parser as the same keys, and nothing is left waiting. *)
Theorem keys_roundtrip ks chunks :
  Forall (fun k => typable k.1 = true) ks ->
  concat chunks = concat ((fun k => encode_key k.1 k.2) <$> ks) ->
  let p := fold_left feed chunks input_new in
  (merge [] (ready p)).1 = (fun k => EvKey k.1) <$> ks /\ buf p = [] /\ in_paste p = false.
Proof.
  intros Hk Hc. cbv zeta. destruct (feeds_ok chunks) as (Hok & [H1 _] & H3).
  set (p := fold_left feed chunks input_new) in *. unfold total in H3. rewrite H1, Hc, read_keys in H3 by done.
  cbn [before] in H3. rewrite app_nil_r in H3. injection H3 as Hg Hi Hb.
  apply app_nil in Hb as [_ Hb]. split_and!; done.
Qed.

(** Alt+x, Ctrl+Right, é and F5, cut in the middle of everything. *)
Lemma keys_roundtrip_witness :
  let ks := [(KeyEvent KChar 120 Alt, false); (KeyEvent KRight 0 Ctrl, true); (KeyEvent KChar 0xE9 0, false);
             (KeyEvent KF5 0 0, true)] in
  let chunks := [[27]; [120; 27; 91; 49; 59]; [53; 67; 0xC3]; [0xA9; 27; 91; 49]; [53; 126]] in
  Forall (fun k => typable k.1 = true) ks /\
  (merge [] (ready (fold_left feed chunks input_new))).1 = (fun k => EvKey k.1) <$> ks /\
  buf (fold_left feed chunks input_new) = [] /\ in_paste (fold_left feed chunks input_new) = false.
Proof.
  cbv zeta. assert (Forall (fun k : key_event * bool => typable k.1 = true)
    [(KeyEvent KChar 120 Alt, false); (KeyEvent KRight 0 Ctrl, true); (KeyEvent KChar 0xE9 0, false);
     (KeyEvent KF5 0 0, true)]) as H by (repeat constructor).
  split; [exact H|].
  exact (keys_roundtrip _ [[27]; [120; 27; 91; 49; 59]; [53; 67; 0xC3]; [0xA9; 27; 91; 49]; [53; 126]] H eq_refl).
Defined.

(** What a control byte becomes on its way to the guest.  Every control byte
    but escape is read as one key; encoding that key gives the byte back, except
    that backspace (8) becomes delete (127), line feed (10) carriage return, and
    the four bytes 28 to 31 -- Ctrl with the backslash, the bracket, the caret
    and the underscore -- become the characters 124 to 127: the guest never
    receives the quit character. *)
Theorem control_bytes_echo b app :
  0 <= b < 0x20 -> b <> 0x1b ->
  exists k, ready (feed input_new [b]) = [EvKey k] /\ buf (feed input_new [b]) = [] /\
    encode_key k app =
      if b =? 8 then [127] else if b =? 10 then [13] else if 28 <=? b then [b + 0x60] else [b].
Proof.
  intros Hb Hn.
  assert (forallb (fun b => (b =? 0x1b) || negb (b <? 0x20) || match ready (feed input_new [b]) with
    | [EvKey k] => bool_decide (buf (feed input_new [b]) = []) && forallb (fun app => bool_decide (encode_key k app =
       if b =? 8 then [127] else if b =? 10 then [13] else if 28 <=? b then [b + 0x60] else [b])) [true; false]
    | _ => false end) all_bytes = true) as H by (vm_compute; reflexivity).
  pose proof (byte_check _ b H ltac:(unfold byte_ok; lia)) as Hc. cbv beta in Hc.
  rewrite (proj2 (Z.eqb_neq _ _) Hn), (proj2 (Z.ltb_lt b 0x20)) in Hc by lia. cbn [orb negb] in Hc.
  destruct (ready (feed input_new [b])) as [|[k|m|t f|f] [|]]; try done. exists k.
  apply andb_true_iff in Hc as [Hc1 Hc2]. apply bool_decide_eq_true in Hc1. rewrite forallb_forall in Hc2.
  split_and!; [done|done|]. specialize (Hc2 app ltac:(destruct app; cbn; auto)). by apply bool_decide_eq_true in Hc2.
Qed.

(** Ctrl with the backslash. *)
Lemma control_bytes_echo_witness :
  0 <= 28 < 0x20 /\ 28 <> 0x1b /\
  exists k, ready (feed input_new [28]) = [EvKey k] /\ buf (feed input_new [28]) = [] /\
    encode_key k false = str "|".
Proof. split; [lia|split; [lia|]]. exact (control_bytes_echo 28 false ltac:(lia) ltac:(lia)). Defined.
