(* ===== verification/Shortcuts.v ===== *)
(** * The leader key: [src/input/shortcuts.hpp], [src/input/shortcuts.cpp]

    Two-stroke commands.  The theorem says which history makes a command fire; the
    coverage of the help table is checked by evaluation. *)

From S2P Require Import Prelude Input.

Inductive action :=
  | MoveLeft | MoveRight | MoveUp | MoveDown | GrowWidth | ShrinkWidth | GrowHeight | ShrinkHeight
  | SnapLeft | SnapRight | SnapUp | SnapDown | NextWindow | PrevWindow | Close | Minimize
  | MaximizeToggle | FullscreenToggle | OpenMenu | Detach | ForceRepaint | ShowHelp | LiteralLeader.

#[export] Instance action_eq_dec : EqDecision action. Proof. solve_decision. Defined.

Definition kBindings : list (Z * action) :=
  [(104, MoveLeft); (108, MoveRight); (107, MoveUp); (106, MoveDown);
   (72, ShrinkWidth); (76, GrowWidth); (75, ShrinkHeight); (74, GrowHeight);
   (110, NextWindow); (112, PrevWindow); (119, Close); (45, Minimize);
   (122, MaximizeToggle); (102, FullscreenToggle); (32, OpenMenu); (114, ForceRepaint);
   (100, Detach); (63, ShowHelp)].

Record key_binding := KeyBinding { kb_key : key; kb_shift : bool; kb_ctrl : bool; kb_action : action }.

Definition kKeyBindings : list key_binding :=
  [KeyBinding KLeft false false MoveLeft; KeyBinding KRight false false MoveRight;
   KeyBinding KUp false false MoveUp; KeyBinding KDown false false MoveDown;
   KeyBinding KLeft true false ShrinkWidth; KeyBinding KRight true false GrowWidth;
   KeyBinding KUp true false ShrinkHeight; KeyBinding KDown true false GrowHeight;
   KeyBinding KTab false false NextWindow; KeyBinding KTab true false PrevWindow].

Inductive leader_phase := Idle | Armed | Repeating.

#[export] Instance leader_phase_eq_dec : EqDecision leader_phase. Proof. solve_decision. Defined.

Record leader_dispatch := LeaderDispatch { leader : Z; phase : leader_phase }.

Record leader_result := LeaderResult { consumed : bool; la_action : option action }.

Definition lookup_action (k : key_event) : option action :=
  if decide (ke_key k <> KChar) then
    let shift := negb (Z.land (ke_mods k) Shift =? 0) in
    let '(key, shift) := if decide (ke_key k = KBackTab) then (KTab, true) else (ke_key k, shift) in
    let ctrl := negb (Z.land (ke_mods k) Ctrl =? 0) in
    kb_action <$> List.find (fun b => bool_decide (kb_key b = key) && eqb (kb_shift b) shift && eqb (kb_ctrl b) ctrl)
                    kKeyBindings
  else snd <$> List.find (fun b => fst b =? ke_ch k) kBindings.

Definition is_repeatable (a : action) : bool :=
  match a with
  | MoveLeft | MoveRight | MoveUp | MoveDown | GrowWidth | ShrinkWidth | GrowHeight | ShrinkHeight
  | NextWindow | PrevWindow => true
  | _ => false
  end.

Definition is_leader (d : leader_dispatch) (k : key_event) : bool :=
  bool_decide (ke_key k = KChar) && (ke_ch k =? leader d) && negb (Z.land (ke_mods k) Ctrl =? 0).

Definition with_phase (d : leader_dispatch) (p : leader_phase) : leader_dispatch := LeaderDispatch (leader d) p.

Definition repeats (a : option action) : bool := match a with Some a => is_repeatable a | None => false end.

Definition feed (d : leader_dispatch) (k : key_event) : leader_dispatch * leader_result :=
  match phase d with
  | Idle =>
      if is_leader d k then (with_phase d Armed, LeaderResult true None) else (d, LeaderResult false None)
  | _ =>
      if is_leader d k then
        if decide (phase d = Armed) then (with_phase d Idle, LeaderResult true (Some LiteralLeader))
        else (with_phase d Armed, LeaderResult true None)
      else
        let a := lookup_action k in
        if decide (phase d = Repeating) then
          if repeats a then (d, LeaderResult true a)
          else (with_phase d Idle, LeaderResult false None)
        else (with_phase d (if repeats a then Repeating else Idle), LeaderResult true a)
  end.

Definition reset (d : leader_dispatch) : leader_dispatch := with_phase d Idle.

(** ** The help *)

Record help_row := HelpRow { hr_keys : bytes; hr_what : bytes; hr_actions : list action }.

Definition binding_help : list help_row :=
  [HelpRow (str "Flèches / hjkl") (str "Déplacer la fenêtre") [MoveLeft; MoveRight; MoveUp; MoveDown];
   HelpRow (str "Maj+flèches / HJKL") (str "Redimensionner") [ShrinkWidth; GrowWidth; ShrinkHeight; GrowHeight];
   HelpRow (str "Tab, Maj+Tab / n, p") (str "Fenêtre suivante, précédente") [NextWindow; PrevWindow];
   HelpRow (str "w") (str "Fermer la fenêtre") [Close];
   HelpRow (str "-") (str "Réduire") [Minimize];
   HelpRow (str "z") (str "Maximiser (bascule)") [MaximizeToggle];
   HelpRow (str "f") (str "Plein écran (bascule)") [FullscreenToggle];
   HelpRow (str "Espace") (str "Ouvrir le menu") [OpenMenu];
   HelpRow (str "r") (str "Tout repeindre") [ForceRepaint];
   HelpRow (str "d") (str "Détacher (la session survit)") [Detach];
   HelpRow (str "?") (str "Cette aide") [ShowHelp];
   HelpRow (str "<leader>") (str "L'envoyer à l'application") [LiteralLeader]].

Definition bound_actions : list action :=
  (snd <$> kBindings) ++ (kb_action <$> kKeyBindings) ++ [LiteralLeader].

(** Every action a key reaches is in the help, and the help cites no other. *)
Lemma help_covers :
  Forall (fun a => a ∈ concat (hr_actions <$> binding_help)) bound_actions /\
  Forall (fun a => a ∈ bound_actions) (concat (hr_actions <$> binding_help)).
Proof. split; apply (bool_decide_unpack _); vm_compute; exact I. Qed.

(** ** Histories *)

Definition run (d : leader_dispatch) (ks : list key_event) : leader_dispatch :=
  fold_left (fun d k => (feed d k).1) ks d.

Definition is_series (d : leader_dispatch) (k : key_event) : Prop :=
  is_leader d k = false /\ repeats (lookup_action k) = true.

(** What the keys struck so far say of the phase: the leader and nothing since, or
    the leader and then repeatable keys only. *)
Definition phase_says (d : leader_dispatch) (ks : list key_event) (p : leader_phase) : Prop :=
  match p with
  | Idle => True
  | Armed => exists rest l, ks = rest ++ [l] /\ is_leader d l = true
  | Repeating => exists rest l mid, ks = rest ++ l :: mid /\ is_leader d l = true /\ mid <> [] /\ Forall (is_series d) mid
  end.

Lemma feed_leader d k : leader (feed d k).1 = leader d.
Proof. unfold feed. by repeat case_match. Qed.

Lemma run_leader d ks : leader (run d ks) = leader d.
Proof. revert d. induction ks as [|k ks IH]; intros d; [done|]. change (leader (run (feed d k).1 ks) = leader d). by rewrite IH, feed_leader. Qed.

Lemma is_leader_eq d d' k : leader d = leader d' -> is_leader d k = is_leader d' k.
Proof. unfold is_leader. by intros ->. Qed.

Lemma run_phase d ks : phase d = Idle -> phase_says d ks (phase (run d ks)).
Proof.
  intros Hd. induction ks as [|k ks IH] using rev_ind; [by cbn; rewrite Hd|].
  unfold run. rewrite fold_left_app. fold (run d ks). cbn [fold_left].
  pose proof (is_leader_eq (run d ks) d k (run_leader d ks)) as El. unfold feed. rewrite El.
  destruct (is_leader d k) eqn:Ek.
  - destruct (phase (run d ks)); [|destruct (decide _); [done|]|destruct (decide _); [done|]]; cbn; by exists ks, k.
  - destruct (phase (run d ks)) eqn:Ep.
    + cbn [fst]. by rewrite Ep.
    + destruct (decide (Armed = Repeating)); [done|]. cbn [fst with_phase phase].
      destruct (repeats (lookup_action k)) eqn:Er; [|done]. destruct IH as (rest & l & -> & Hl).
      exists rest, l, [k]. rewrite <- app_assoc. split_and!; [done|done|done|by repeat constructor].
    + destruct (decide (Repeating = Repeating)); [|done]. destruct (repeats (lookup_action k)) eqn:Er; [|done].
      cbn [fst]. rewrite Ep. destruct IH as (rest & l & mid & -> & Hl & Hm & Hf).
      exists rest, l, (mid ++ [k]). rewrite <- app_assoc. split_and!; [done|done|by destruct mid|].
      apply Forall_app; split; [done|by repeat constructor].
Qed.

(** A command takes the leader.  From rest, whatever the keys before, an action
    fires on a key only after the leader, with nothing since but repeatable
    moves; an action that is not repeatable only on the very next key; the
    literal leader only on the leader struck twice.  A key that fires nothing and
    is not consumed leaves the dispatcher at rest. *)
Theorem commands_need_leader d ks k :
  phase d = Idle ->
  let '(d', r) := feed (run d ks) k in
  match la_action r with
  | Some a => consumed r = true /\
      exists rest l mid, ks = rest ++ l :: mid /\ is_leader d l = true /\ Forall (is_series d) mid /\
        (mid <> [] -> is_repeatable a = true) /\
        (a = LiteralLeader <-> is_leader d k = true) /\ (is_leader d k = false -> lookup_action k = Some a)
  | None => consumed r = false -> is_leader d k = false /\ phase d' = Idle
  end.
Proof.
  intros Hd. pose proof (run_phase d ks Hd) as Hp. pose proof (is_leader_eq (run d ks) d k (run_leader d ks)) as El.
  unfold feed. rewrite El. assert (forall a, lookup_action k = Some a -> a <> LiteralLeader) as Hlit.
  { intros a Ha. unfold lookup_action in Ha. destruct (decide _).
    - destruct (if decide (ke_key k = KBackTab) then _ else _) as [key shift].
      apply fmap_Some in Ha as (b & [Hb _]%List.find_some & ->).
      repeat (destruct Hb as [<-|Hb]; [done|]). done.
    - apply fmap_Some in Ha as (b & [Hb _]%List.find_some & ->). repeat (destruct Hb as [<-|Hb]; [done|]). done. }
  destruct (phase (run d ks)) eqn:Ep.
  - destruct (is_leader d k); cbn; [done|by rewrite Ep].
  - destruct Hp as (rest & l & -> & Hl). destruct (is_leader d k) eqn:Ek.
    + destruct (decide (Armed = Armed)); [|done]. cbn. split; [done|]. exists rest, l, []. by split_and!.
    + destruct (decide (Armed = Repeating)); [done|]. cbn [la_action consumed].
      destruct (lookup_action k) as [a|] eqn:Ea; [|done]. split; [done|]. exists rest, l, [].
      split_and!; try done. split; [|done]. intros ->. by destruct (Hlit _ eq_refl).
  - destruct Hp as (rest & l & mid & -> & Hl & Hm & Hf). destruct (is_leader d k) eqn:Ek.
    + by destruct (decide (Repeating = Armed)).
    + destruct (decide (Repeating = Repeating)); [|done]. destruct (repeats (lookup_action k)) eqn:Er; [|done].
      cbn [la_action consumed]. destruct (lookup_action k) as [a|] eqn:Ea; [|done]. split; [done|].
      exists rest, l, mid. split_and!; try done. split; [|done]. intros ->. by destruct (Hlit _ eq_refl).
Qed.

(** Ctrl+A, then "l", then "w": the second fires in the series, the third is typed. *)
Lemma commands_need_leader_witness :
  let d := LeaderDispatch 97 Idle in
  let ks := [KeyEvent KChar 97 Ctrl] in
  let k := KeyEvent KChar 119 0 in
  phase d = Idle /\ (feed (run d ks) k).2 = LeaderResult true (Some Close) /\
  (feed (run d (ks ++ [KeyEvent KChar 108 0])) k).2 = LeaderResult false None /\
  (exists rest l mid, ks = rest ++ l :: mid /\ is_leader d l = true /\ Forall (is_series d) mid /\
     (mid <> [] -> is_repeatable Close = true) /\
     (Close = LiteralLeader <-> is_leader d k = true) /\ (is_leader d k = false -> lookup_action k = Some Close)).
Proof.
  cbv zeta. split; [reflexivity|split; [reflexivity|split; [reflexivity|]]].
  exact (proj2 (commands_need_leader (LeaderDispatch 97 Idle) [KeyEvent KChar 97 Ctrl] (KeyEvent KChar 119 0) eq_refl)).
Defined.
