(* ===== verification/UpdateState.v ===== *)
(** * The state of the update: [src/shell/update_state.hpp], [src/shell/update_state.cpp]

    The file a script writes and a user may edit, read into a state that is shown
    in a dialogue.  Whatever the bytes, what comes out is bounded and holds no
    control character where text is drawn; and the first line of a key wins. *)

From S2P Require Import Prelude StdString.

Inductive update_status :=
  | UIdle | Checking | Applying | UpToDate | Available | RestartPending | CheckFailed | ApplyFailed
  | HistoryRewritten | UpdatesDisabled.

#[export] Instance update_status_eq_dec : EqDecision update_status. Proof. solve_decision. Defined.

Record update_state := UpdateState {
  status : update_status;
  u_prefix : bytes;
  source : bytes;
  installed_commit : bytes;
  previous_commit : bytes;
  remote_commit : bytes;
  installed_version : bytes;
  remote_version : bytes;
  commits_ahead : Z;
  checked_at : Z;
  u_pid : Z;
  stage : bytes;
  progress : Z;
  u_message : bytes;
  restart_pending : bool;
  u_notes : list bytes;
}.

Definition update_state_new : update_state :=
  UpdateState UIdle [] [] [] [] [] [] [] 0 0 (-1) [] (-1) [] false [].

Definition kMaxStateBytes : nat := 4096.
Definition kMaxStateMessageBytes : nat := 200.
Definition kUpdateStateSchema : Z := 1.
Definition kMaxUpdateNotes : nat := 6.
Definition kMaxUpdateNoteChars : nat := 76.

Definition is_space (c : Z) : bool := (c =? 32) || (c =? 9) || (c =? 13).

Fixpoint trim_front (s : bytes) : bytes :=
  match s with [] => [] | c :: r => if is_space c then trim_front r else s end.

Definition trim (s : bytes) : bytes := List.rev (trim_front (List.rev (trim_front s))).

(** The loop of [read_int64]; the guard comes before the multiplication. *)
Fixpoint read_digits (s : bytes) (v : Z) : option Z :=
  match s with
  | [] => Some v
  | c :: s =>
      if (c <? 48) || (57 <? c) then None
      else
        let d := c - 48 in
        if Z.quot (9223372036854775807 - d) 10 <? v then None else read_digits s (v * 10 + d)
  end.

Definition read_int64 (s : bytes) : option Z :=
  match s with
  | [] => None
  | c :: r =>
      if (c =? 45) || (c =? 43) then
        match r with
        | [] => None
        | _ => match read_digits r 0 with Some v => Some (if c =? 45 then - v else v) | None => None end
        end
      else read_digits s 0
  end.

Definition clean_version (s : bytes) : bytes :=
  if bool_decide (s = []) || (12 <? length s)%nat then []
  else if forallb (fun c => negb ((c <? 48) || (57 <? c)) || (c =? 46)) s then s else [].

Definition kTable : list (bytes * update_status) :=
  [(str "idle", UIdle); (str "checking", Checking); (str "applying", Applying);
   (str "up-to-date", UpToDate); (str "available", Available); (str "restart-pending", RestartPending);
   (str "check-failed", CheckFailed); (str "apply-failed", ApplyFailed);
   (str "history-rewritten", HistoryRewritten); (str "updates-disabled", UpdatesDisabled)].

Definition read_status (s : bytes) : option update_status :=
  snd <$> List.find (fun row : bytes * update_status => bool_decide (row.1 = s)) kTable.

(** [while (!out.empty() && (out.back() & 0xc0) == 0x80) out.pop_back()], on the
    reversed bytes. *)
Fixpoint pop_conts (r : bytes) : bytes :=
  match r with
  | [] => []
  | c :: r' => if Z.land c 0xC0 =? 0x80 then pop_conts r' else r
  end.

Definition clean_note (v : bytes) : bytes :=
  let out := List.filter (fun u => (0x20 <=? u) && negb (u =? 0x7F)) v in
  if (kMaxUpdateNoteChars <? length out)%nat
  then List.rev (pop_conts (List.rev (take kMaxUpdateNoteChars out))) else out.

Fixpoint note_digits (s : bytes) (n : Z) : Z :=
  match s with
  | [] => n
  | c :: s =>
      if (c <? 48) || (57 <? c) then 0
      else let n := n * 10 + (c - 48) in if 10000 <? n then 0 else note_digits s n
  end.

Definition note_index (k : bytes) : Z :=
  if (length k <=? 5)%nat || negb (is_prefix (str "note_") k) then 0 else note_digits (drop 5 k) 0.

(** What the loop carries. *)
Record reading := Reading {
  seen : list bytes;
  schema_ok : bool;
  vu_restart : bool;
  parsed : update_state;
  rd_notes : list (Z * bytes);
}.

Definition reading_new : reading := Reading [] false false update_state_new [].

Definition with_parsed (r : reading) (u : update_state) : reading :=
  Reading (seen r) (schema_ok r) (vu_restart r) u (rd_notes r).

(** [static_cast<pid_t>] of a positive 64-bit value. *)
Definition to_pid (v : Z) : Z := let u := to_u32 v in if u <? 2147483648 then u else u - 4294967296.

(** One key and its value, the key seen for the first time. *)
Definition read_key (now : Z) (r : reading) (k v : bytes) : reading :=
  let u := parsed r in
  let '(UpdateState st pre src ic pc rc iv rv ca at_ pd sg pg ms rp ns) := u in
  if bool_decide (k = str "schema") then
    Reading (seen r) (match read_int64 v with Some n => n =? kUpdateStateSchema | None => false end)
      (vu_restart r) u (rd_notes r)
  else if bool_decide (k = str "prefix") then with_parsed r (UpdateState st v src ic pc rc iv rv ca at_ pd sg pg ms rp ns)
  else if bool_decide (k = str "source") then with_parsed r (UpdateState st pre v ic pc rc iv rv ca at_ pd sg pg ms rp ns)
  else if bool_decide (k = str "installed_commit") then
    with_parsed r (UpdateState st pre src v pc rc iv rv ca at_ pd sg pg ms rp ns)
  else if bool_decide (k = str "previous_commit") then
    with_parsed r (UpdateState st pre src ic v rc iv rv ca at_ pd sg pg ms rp ns)
  else if bool_decide (k = str "remote_commit") then
    with_parsed r (UpdateState st pre src ic pc v iv rv ca at_ pd sg pg ms rp ns)
  else if bool_decide (k = str "installed_version") then
    with_parsed r (UpdateState st pre src ic pc rc (clean_version v) rv ca at_ pd sg pg ms rp ns)
  else if bool_decide (k = str "remote_version") then
    with_parsed r (UpdateState st pre src ic pc rc iv (clean_version v) ca at_ pd sg pg ms rp ns)
  else if bool_decide (k = str "commits_ahead") then
    match read_int64 v with
    | Some n => if (0 <? n) && (n <? 1000000)
                then with_parsed r (UpdateState st pre src ic pc rc iv rv n at_ pd sg pg ms rp ns) else r
    | None => r
    end
  else if bool_decide (k = str "checked_at") then
    match read_int64 v with
    | Some n => if (0 <=? n) && (n <=? now)
                then with_parsed r (UpdateState st pre src ic pc rc iv rv ca n pd sg pg ms rp ns) else r
    | None => r
    end
  else if bool_decide (k = str "status") then
    match read_status v with
    | Some s => with_parsed r (UpdateState s pre src ic pc rc iv rv ca at_ pd sg pg ms rp ns)
    | None => r
    end
  else if bool_decide (k = str "restart_pending") then
    Reading (seen r) (schema_ok r) true
      (UpdateState st pre src ic pc rc iv rv ca at_ pd sg pg ms (bool_decide (v = str "1")) ns) (rd_notes r)
  else if bool_decide (k = str "pid") then
    match read_int64 v with
    | Some n => if 0 <? n
                then with_parsed r (UpdateState st pre src ic pc rc iv rv ca at_ (to_pid n) sg pg ms rp ns) else r
    | None => r
    end
  else if bool_decide (k = str "stage") then
    with_parsed r (UpdateState st pre src ic pc rc iv rv ca at_ pd (take 40 v) pg ms rp ns)
  else if bool_decide (k = str "progress") then
    match read_int64 v with
    | Some n => if (0 <=? n) && (n <=? 100)
                then with_parsed r (UpdateState st pre src ic pc rc iv rv ca at_ pd sg n ms rp ns) else r
    | None => r
    end
  else if bool_decide (k = str "message") then
    with_parsed r (UpdateState st pre src ic pc rc iv rv ca at_ pd sg pg (take kMaxStateMessageBytes v) rp ns)
  else
    let n := note_index k in
    if negb (n =? 0) then Reading (seen r) (schema_ok r) (vu_restart r) u (rd_notes r ++ [(n, clean_note v)]) else r.

(** The body of the loop, for one line. *)
Definition line_key (line : bytes) : option (bytes * bytes) :=
  match find_from line [61] 0 with
  | None => None
  | Some eq => Some (trim (take eq line), trim (drop (eq + 1) line))
  end.

Definition read_line (now : Z) (r : reading) (line : bytes) : reading :=
  match line_key line with
  | None => r
  | Some (k, v) =>
      if bool_decide (k = []) || bool_decide (k ∈ seen r) then r
      else read_key now (Reading (seen r ++ [k]) (schema_ok r) (vu_restart r) (parsed r) (rd_notes r)) k v
  end.

(** [for (rang = 1; rang <= 6; ++rang)], with its two exits. *)
Fixpoint collect_notes (fuel : nat) (rang : Z) (notes : list (Z * bytes)) : list bytes :=
  match fuel with
  | O => []
  | S fuel =>
      match List.find (fun p : Z * bytes => p.1 =? rang) notes with
      | None => []
      | Some p => if bool_decide (p.2 = []) then [] else p.2 :: collect_notes fuel (rang + 1) notes
      end
  end.

Definition finish (r : reading) : update_state :=
  if negb (schema_ok r) then update_state_new
  else
    let '(UpdateState st pre src ic pc rc iv rv ca at_ pd sg pg ms rp ns) := parsed r in
    let rp := if negb (vu_restart r) && bool_decide (st = RestartPending) then true else rp in
    UpdateState st pre src ic pc rc iv rv ca at_ pd sg pg ms rp (ns ++ collect_notes kMaxUpdateNotes 1 (rd_notes r)).

Definition parse_update_state (raw : bytes) (now_epoch : Z) : update_state :=
  if (kMaxStateBytes <? length raw)%nat then update_state_new
  else finish (fold_left (read_line now_epoch) (lines_from (S (length raw)) raw 0) reading_new).

Example parse_demo :
  let u := parse_update_state
    (str "schema=1" ++ [10] ++ str " status = available " ++ [10] ++ str "progress=137" ++ [10] ++ str "commits_ahead=7"
     ++ [10] ++ str "note_2=deux" ++ [10] ++ str "note_1=un" ++ [10] ++ str "note_4=quatre" ++ [10] ++ str "status=idle" ++ [10]) 1000 in
  status u = Available /\ progress u = -1 /\ commits_ahead u = 7 /\ u_notes u = [str "un"; str "deux"] /\
  parse_update_state (str "status=available") 1000 = update_state_new.
Proof. vm_compute. by split_and!. Qed.

(** ** Every state read is fit to be shown *)

(** A byte a dialogue can be given: no control character. *)
Definition drawable_byte (c : Z) : Prop := 0x20 <= c /\ c <> 0x7F.

(** Digits and points, a dozen at most. *)
Definition version_ok (s : bytes) : Prop := (length s <= 12)%nat /\ Forall (fun c => 48 <= c <= 57 \/ c = 46) s.

Record state_ok (now : Z) (u : update_state) : Prop := StateOk {
  ok_commits : 0 <= commits_ahead u < 1000000;
  ok_checked : 0 <= checked_at u <= now;
  ok_progress : -1 <= progress u <= 100;
  ok_pid : -2147483648 <= u_pid u < 2147483648;
  ok_stage : (length (stage u) <= 40)%nat;
  ok_message : (length (u_message u) <= kMaxStateMessageBytes)%nat;
  ok_installed : version_ok (installed_version u);
  ok_remote : version_ok (remote_version u);
  ok_notes : (length (u_notes u) <= kMaxUpdateNotes)%nat /\
    Forall (fun n => n <> [] /\ (length n <= kMaxUpdateNoteChars)%nat /\ Forall drawable_byte n) (u_notes u);
}.

Definition note_ok (n : bytes) : Prop := (length n <= kMaxUpdateNoteChars)%nat /\ Forall drawable_byte n.

Definition reading_ok (now : Z) (r : reading) : Prop :=
  state_ok now (parsed r) /\ u_notes (parsed r) = [] /\ Forall (fun p => note_ok p.2) (rd_notes r).

Lemma pop_conts_suffix r : exists l, r = l ++ pop_conts r.
Proof.
  induction r as [|c r [l IH]]; [by exists []|]. cbn. destruct (_ =? _); [|by exists []].
  exists (c :: l). cbn. by rewrite <- IH.
Qed.

Lemma clean_note_ok v : note_ok (clean_note v).
Proof.
  unfold clean_note, note_ok.
  set (out := List.filter _ v).
  assert (Forall drawable_byte out) as Ho.
  { apply Forall_forall. intros c Hc. apply List.filter_In in Hc as [_ Hc]. zbool.
    split; [lia|]. intros ->. done. }
  destruct (Nat.ltb_spec kMaxUpdateNoteChars (length out)); [|split; [lia|done]].
  set (t := take kMaxUpdateNoteChars out).
  assert (Forall drawable_byte t) as Ht by (by apply Forall_take).
  destruct (pop_conts_suffix (List.rev t)) as [l E].
  assert (t = List.rev (pop_conts (List.rev t)) ++ List.rev l) as Et
    by (rewrite <- (List.rev_involutive t) at 1; rewrite E at 1; apply List.rev_app_distr).
  split.
  - apply (f_equal length) in Et. rewrite length_app in Et. unfold t in Et at 1. rewrite length_take in Et. lia.
  - rewrite Et in Ht. by apply Forall_app in Ht as [? _].
Qed.

Lemma clean_version_ok s : version_ok (clean_version s).
Proof.
  unfold version_ok, clean_version. destruct (_ || _) eqn:E; [split; [cbn; lia|done]|].
  destruct (forallb _ s) eqn:Ef; [|split; [cbn; lia|done]].
  apply orb_false_iff in E as [_ E]. apply Nat.ltb_ge in E. split; [done|].
  apply Forall_forall. intros c Hc. rewrite List.forallb_forall in Ef. specialize (Ef c Hc).
  apply orb_true_iff in Ef as [Ef|Ef]; zbool; [left; lia|by right].
Qed.

Lemma to_pid_range v : -2147483648 <= to_pid v < 2147483648.
Proof.
  unfold to_pid. cbv zeta. assert (0 <= to_u32 v < 4294967296) by (unfold to_u32; apply Z.mod_pos_bound; lia).
  destruct (Z.ltb_spec (to_u32 v) 2147483648); lia.
Qed.

Lemma read_key_ok now r k v : reading_ok now r -> reading_ok now (read_key now r k v).
Proof.
  intros (Hs & Hns & Hn). pose proof Hs as [C1 C2 C3 C4 C5 C6 C7 C8 C9]. unfold read_key.
  assert (reading_ok now r) as Hr by done.
  destruct (parsed r) as [st pre src ic pc rc iv rv ca at_ pd sg pg ms rp ns] eqn:Ep.
  cbn [commits_ahead checked_at progress u_pid stage u_message installed_version remote_version u_notes] in *.
  assert (forall u', state_ok now u' -> u_notes u' = [] -> reading_ok now (with_parsed r u')) as Hw by done.
  pose proof (clean_version_ok v) as Hv. pose proof to_pid_range as Hpid.
  assert (forall n, (length (take n v) <= n)%nat) as Htk by (intros; rewrite length_take; lia).
  repeat match goal with
  | |- reading_ok _ (if ?b then _ else _) => destruct b eqn:?
  | |- reading_ok _ (match read_int64 v with _ => _ end) => destruct (read_int64 v)
  | |- reading_ok _ (match read_status v with _ => _ end) => destruct (read_status v)
  end; try exact Hr; zbool; cbv zeta;
  try (apply Hw; [|exact Hns]; constructor; cbn; solve [done|lia|apply Hpid|apply Htk]).
  unfold reading_ok. cbn. split_and!; try done. apply Forall_app. split; [done|].
  constructor; [apply clean_note_ok|constructor].
Qed.

Lemma read_line_ok now r line : reading_ok now r -> reading_ok now (read_line now r line).
Proof.
  intros Hr. unfold read_line. destruct (line_key line) as [[k v]|]; [|done]. destruct (_ || _); [done|].
  by apply read_key_ok.
Qed.

Lemma read_lines_ok now ls r : reading_ok now r -> reading_ok now (fold_left (read_line now) ls r).
Proof. revert r. induction ls as [|l ls IH]; intros r Hr; [done|]. cbn [fold_left]. by apply IH, read_line_ok. Qed.

Lemma state_new_ok now : 0 <= now -> state_ok now update_state_new.
Proof. intros H. constructor; cbn; try lia; try done; split; (done || cbn; lia). Qed.

Lemma collect_notes_ok fuel rang ns :
  Forall (fun p : Z * bytes => note_ok p.2) ns ->
  let l := collect_notes fuel rang ns in
  (length l <= fuel)%nat /\ Forall (fun n => n <> [] /\ (length n <= kMaxUpdateNoteChars)%nat /\ Forall drawable_byte n) l.
Proof.
  intros Hn. revert rang. induction fuel as [|fuel IH]; intros rang; cbn [collect_notes]; [split; [cbn; lia|done]|].
  destruct (List.find _ ns) as [p|] eqn:E; [|split; [cbn; lia|done]].
  apply List.find_some in E as [Hin _]. case_bool_decide as Ep; [split; [cbn; lia|done]|].
  destruct (IH (rang + 1)) as [H1 H2]. cbv zeta. cbn [length]. split; [lia|].
  constructor; [|done]. split; [done|]. rewrite Forall_forall in Hn. by apply Hn.
Qed.

(** Whatever bytes the state file holds -- a script's, a hand's, garbage -- the
    state read fits its limits: the counts in their ranges, a date
    that is not in the future, a progress that is unknown or a percentage, versions
    of digits and points, at most six notes of at most 76 bytes, none of them empty
    and none with a control character. *)
Theorem state_always_fit raw now : 0 <= now -> state_ok now (parse_update_state raw now).
Proof.
  intros Hnow. unfold parse_update_state. destruct (_ <? _)%nat; [by apply state_new_ok|].
  assert (reading_ok now reading_new) as H0 by (split_and!; [by apply state_new_ok|done|done]).
  pose proof (read_lines_ok now (lines_from (S (length raw)) raw 0) reading_new H0) as (Hs & Hns & Hn).
  set (r := fold_left _ _ _) in *. unfold finish. destruct (negb _); [by apply state_new_ok|].
  destruct (collect_notes_ok kMaxUpdateNotes 1 (rd_notes r) Hn) as [H1 H2].
  destruct Hs as [C1 C2 C3 C4 C5 C6 C7 C8 C9].
  destruct (parsed r) as [st pre src ic pc rc iv rv ca at_ pd sg pg ms rp ns]. cbn in *. subst ns.
  constructor; done.
Qed.

Lemma state_always_fit_witness :
  0 <= 1700000000 /\ state_ok 1700000000
    (parse_update_state (str "schema=1" ++ [10] ++ str "progress=101" ++ [10] ++ str "checked_at=99999999999999999999"
      ++ [10] ++ [110; 111; 116; 101; 95; 49; 61; 27; 91; 50; 74; 97]) 1700000000).
Proof. split; [lia|apply state_always_fit; lia]. Defined.

(** ** The first line of a key wins *)

(** The keys a run of lines has read. *)
Definition has_key (k : bytes) (line : bytes) : Prop := exists v, line_key line = Some (k, v).

Lemma read_key_seen now r k v : seen (read_key now r k v) = seen r.
Proof.
  unfold read_key. destruct (parsed r).
  repeat (match goal with
  | |- seen (if ?b then _ else _) = _ => destruct b
  | |- seen (match read_int64 v with _ => _ end) = _ => destruct (read_int64 v)
  | |- seen (match read_status v with _ => _ end) = _ => destruct (read_status v)
  end; try reflexivity); cbv zeta; destruct (negb _); reflexivity.
Qed.

Lemma read_line_seen now r line k :
  k <> [] -> k ∈ seen r \/ has_key k line -> k ∈ seen (read_line now r line).
Proof.
  intros Hk Hor. unfold read_line. destruct (line_key line) as [[k' v]|] eqn:E.
  - destruct (bool_decide (k' = []) || bool_decide (k' ∈ seen r)) eqn:Eb.
    + apply orb_true_iff in Eb as [Eb|Eb]; apply bool_decide_eq_true in Eb;
        (destruct Hor as [|[v' E']]; [done|]; rewrite E in E'; injection E' as -> ->; done).
    + rewrite read_key_seen. cbn [seen]. apply elem_of_app. destruct Hor as [|[v' E']]; [by left|right].
      rewrite E in E'. injection E' as -> ->. by apply list_elem_of_singleton.
  - destruct Hor as [|[v' E']]; [done|congruence].
Qed.

Lemma read_lines_seen now ls r k :
  k <> [] -> k ∈ seen r \/ Exists (has_key k) ls -> k ∈ seen (fold_left (read_line now) ls r).
Proof.
  intros Hk. revert r. induction ls as [|l ls IH]; intros r Hor; cbn [fold_left].
  - destruct Hor as [|H]; [done|by apply Exists_nil in H].
  - apply IH. destruct Hor as [H|H]; [left; apply read_line_seen; auto|].
    apply Exists_cons in H as [H|H]; [left; apply read_line_seen; auto|by right].
Qed.

(** A line added to the state file cannot overwrite what it already says.  When
    some line gives a key, appending another line for it -- to roll a status back, to
    move a prefix -- changes nothing in the state read. *)
Theorem first_line_wins raw line now k :
  no_newline line -> has_key k line -> Exists (has_key k) (lines_from (S (length raw)) raw 0) ->
  (length (raw ++ 10%Z :: line) <= kMaxStateBytes)%nat ->
  parse_update_state (raw ++ 10 :: line) now = parse_update_state raw now.
Proof.
  intros Hl [v Hv] Hex Hlen. assert (length raw <= kMaxStateBytes)%nat by (rewrite length_app in Hlen; lia).
  unfold parse_update_state.
  replace (kMaxStateBytes <? length (raw ++ 10%Z :: line))%nat with false by (symmetry; by apply Nat.ltb_ge).
  replace (kMaxStateBytes <? length raw)%nat with false by (symmetry; by apply Nat.ltb_ge). f_equal.
  assert (length (raw ++ 10%Z :: line) = (length raw + S (length line))%nat) as Elen by (by rewrite length_app).
  rewrite (lines_from_append (length (raw ++ 10%Z :: line)) raw line 0 Hl) by lia.
  rewrite (lines_from_fuel (length (raw ++ 10%Z :: line)) (S (length raw)) raw 0) by lia.
  rewrite fold_left_app. cbn [fold_left]. set (r := fold_left _ _ reading_new).
  unfold read_line. rewrite Hv. destruct (bool_decide_reflect (k = [])) as [|Hk]; [done|]. cbn [orb].
  rewrite bool_decide_true; [done|]. apply read_lines_seen; [done|by right].
Qed.

Lemma first_line_wins_witness :
  parse_update_state ((str "schema=1" ++ [10] ++ str "status=available") ++ 10 :: str " status = idle") 1000
  = parse_update_state (str "schema=1" ++ [10] ++ str "status=available") 1000.
Proof.
  apply (first_line_wins _ (str " status = idle") 1000 (str "status")).
  - apply (bool_decide_unpack _). by vm_compute.
  - by exists (str "idle").
  - apply Exists_exists. exists (str "status=available"). split; [vm_compute; by right; left|]. by exists (str "available").
  - apply Nat.leb_le. by vm_compute.
Defined.

(** ** Where the care taken falls short *)

(** The cut of a long note removes the continuation bytes at the end, and leaves the
    byte they followed: a note whose last kept character is whole loses it by half. *)
Lemma clean_note_halves_a_character :
  let note := replicate 74 97 ++ [0xC3; 0xA9] ++ [97] in
  clean_note note = replicate 74 97 ++ [0xC3].
Proof. by vm_compute. Qed.
