(* ===== verification/UpdateService.v ===== *)
(** * The update service: [src/shell/update_service.hpp], [src/shell/update_service.cpp]

    One worker process at a time, a daily check, and the entry of the menu that says
    what can be asked.  What the service sees of the machine -- the clocks, the bytes
    of the state file, whether a process lives, whether the running binary is the one
    installed, what launching returns -- is a [world], given to each call; the
    launches a call makes are returned with the new state. *)

From S2P Require Import Prelude StdString UpdateState.

Record world := World {
  wall : Z;                       (* seconds since the epoch *)
  steady : Z;                     (* the steady clock, in nanoseconds *)
  state_file : bytes;             (* [read_capped(state_path_)] *)
  alive : Z -> bool;              (* [kill(pid, 0)] finds the process *)
  same_inode : bytes -> bool;     (* [stat]: the path is the running binary *)
  spawn : list bytes -> Z;        (* [launch_]: the pid, or an error *)
}.

Record update_service := UpdateService {
  s_state : update_state;
  loaded : bool;
  stale_worker : bool;
  s_message : bytes;
  child : Z;
  child_is_manual : bool;
  report : bytes;
  have_deadline : bool;
  deadline : Z;
  s_wants_restart : bool;
  restart_needed : bool;
}.

Definition service_new : update_service :=
  UpdateService update_state_new false false [] (-1) false [] false 0 false false.

Record update_entry := UpdateEntry { e_label : bytes; e_enabled : bool; e_id : bytes }.

Definition kPeriodSeconds : Z := 86400.
Definition kFloorSeconds : Z := 30.
Definition kSecond : Z := 1000000000.

Definition pid_alive (w : world) (pid : Z) : bool := if pid <=? 0 then false else alive w pid.

Definition running_is_installed (w : world) (sv : update_service) : bool :=
  if bool_decide (u_prefix (s_state sv) = []) then false
  else same_inode w (u_prefix (s_state sv) ++ str "/libexec/termos").

Definition updater_path (sv : update_service) : bytes :=
  if bool_decide (u_prefix (s_state sv) = []) then [] else u_prefix (s_state sv) ++ str "/libexec/termos-update".

(** ** Field updates *)

Definition with_state (sv : update_service) (u : update_state) : update_service :=
  UpdateService u (loaded sv) (stale_worker sv) (s_message sv) (child sv) (child_is_manual sv) (report sv)
    (have_deadline sv) (deadline sv) (s_wants_restart sv) (restart_needed sv).
Definition with_stale (sv : update_service) (b : bool) (m : bytes) : update_service :=
  UpdateService (s_state sv) (loaded sv) b m (child sv) (child_is_manual sv) (report sv)
    (have_deadline sv) (deadline sv) (s_wants_restart sv) (restart_needed sv).
Definition with_deadline (sv : update_service) (h : bool) (d : Z) : update_service :=
  UpdateService (s_state sv) (loaded sv) (stale_worker sv) (s_message sv) (child sv) (child_is_manual sv) (report sv)
    h d (s_wants_restart sv) (restart_needed sv).
Definition with_child (sv : update_service) (c : Z) (manual : bool) : update_service :=
  UpdateService (s_state sv) (loaded sv) (stale_worker sv) (s_message sv) c manual (report sv)
    (have_deadline sv) (deadline sv) (s_wants_restart sv) (restart_needed sv).
Definition with_report (sv : update_service) (r : bytes) : update_service :=
  UpdateService (s_state sv) (loaded sv) (stale_worker sv) (s_message sv) (child sv) (child_is_manual sv) r
    (have_deadline sv) (deadline sv) (s_wants_restart sv) (restart_needed sv).
Definition with_loaded (sv : update_service) : update_service :=
  UpdateService (s_state sv) true (stale_worker sv) (s_message sv) (child sv) (child_is_manual sv) (report sv)
    (have_deadline sv) (deadline sv) (s_wants_restart sv) (restart_needed sv).
Definition with_restart (sv : update_service) (wants needed : bool) : update_service :=
  UpdateService (s_state sv) (loaded sv) (stale_worker sv) (s_message sv) (child sv) (child_is_manual sv) (report sv)
    (have_deadline sv) (deadline sv) wants needed.

Definition set_status (u : update_state) (s : update_status) : update_state :=
  UpdateState s (u_prefix u) (source u) (installed_commit u) (previous_commit u) (remote_commit u)
    (installed_version u) (remote_version u) (commits_ahead u) (checked_at u) (u_pid u) (stage u) (progress u)
    (u_message u) (restart_pending u) (u_notes u).

Definition in_progress (s : update_status) : bool :=
  bool_decide (s = Checking) || bool_decide (s = Applying).

(** ** Operations *)

Definition reload (w : world) (sv : update_service) : update_service :=
  let sv := with_state sv (parse_update_state (state_file w) (wall w)) in
  let u := s_state sv in
  let busy := in_progress (status u) in
  let sv :=
    if busy && (child sv <? 0) && negb (pid_alive w (u_pid u))
    then with_stale sv true (str "mise a jour interrompue")
    else if negb busy then with_stale sv false (u_message u)
    else with_stale sv false (s_message sv) in
  let needed := restart_pending u && negb (running_is_installed w sv) in
  let sv := with_restart sv (s_wants_restart sv) needed in
  if bool_decide (status u = RestartPending) && negb needed
  then with_state sv (set_status u UpToDate) else sv.

Definition schedule_from (w : world) (at_ : Z) (sv : update_service) : update_service :=
  let elapsed := if 0 <? at_ then wall w - at_ else kPeriodSeconds in
  let left := Z.min (Z.max (kPeriodSeconds - elapsed) 0) kPeriodSeconds in
  let delay := Z.max left kFloorSeconds in
  with_deadline sv true (steady w + delay * kSecond).

(** The launches made come back with the state. *)
Definition launch (w : world) (sv : update_service) (m : bytes) (manual : bool) : update_service * list (list bytes) :=
  let exe := updater_path sv in
  if bool_decide (exe = []) then (sv, [])
  else
    let argv := [exe; m] in
    let pid := spawn w argv in
    (if 0 <? pid then with_deadline (with_child sv pid manual) false (deadline sv) else sv, [argv]).

Definition tick (w : world) (sv : update_service) : update_service * list (list bytes) :=
  let sv := reload w sv in
  if bool_decide (status (s_state sv) = UpdatesDisabled) || (0 <? child sv) || bool_decide (updater_path sv = [])
  then (with_deadline sv false (deadline sv), [])
  else if negb (loaded sv) then (with_loaded (schedule_from w (checked_at (s_state sv)) sv), [])
  else
    let sv := if have_deadline sv then sv else schedule_from w (checked_at (s_state sv)) sv in
    if deadline sv <=? steady w then
      let '(sv, l) := launch w (with_deadline sv false (deadline sv)) (str "--check") false in
      (if child sv <? 0 then schedule_from w 0 sv else sv, l)
    else (sv, []).

Definition delay_ms (w : world) (sv : update_service) : Z :=
  if negb (have_deadline sv) then -1
  else
    let ms := Z.quot (deadline sv - steady w) 1000000 in
    if ms <=? 0 then 0 else ms.

Definition working (sv : update_service) : bool :=
  (0 <? child sv) || (negb (stale_worker sv) && in_progress (status (s_state sv))).

Definition entry (sv : update_service) : update_entry :=
  let u := s_state sv in
  if bool_decide (status u = UpdatesDisabled) then
    let why := if bool_decide (u_message u = []) then str "raison inconnue" else u_message u in
    UpdateEntry (str "Mise a jour indisponible (" ++ why ++ str ")") false (str "update:check")
  else if working sv then
    if bool_decide (status u = Applying) then UpdateEntry (str "Mise a jour en cours...") false (str "update:apply")
    else UpdateEntry (str "Verification en cours...") false (str "update:check")
  else if restart_needed sv then UpdateEntry (str "Redemarrer pour terminer") true (str "update:restart")
  else if bool_decide (status u = HistoryRewritten) || bool_decide (installed_commit u = str "unknown")
  then UpdateEntry (str "Reinstaller depuis GitHub") true (str "update:apply")
  else if bool_decide (status u = Available) then UpdateEntry (str "Mettre a jour") true (str "update:apply")
  else UpdateEntry (str "Verifier les mises a jour") true (str "update:check").

Definition badge (sv : update_service) : bool :=
  let e := entry sv in
  e_enabled e && (bool_decide (e_id e = str "update:apply") || bool_decide (e_id e = str "update:restart"))
  && (bool_decide (status (s_state sv) = Available) || restart_needed sv).

Definition run (w : world) (sv : update_service) (i : bytes) : update_service * list (list bytes) :=
  if negb (e_enabled (entry sv)) then (sv, [])
  else if 0 <? child sv then (sv, [])
  else if bool_decide (i = str "update:restart")
  then (if restart_needed sv then with_restart sv true (restart_needed sv) else sv, [])
  else if bool_decide (i = str "update:check") then launch w sv (str "--check") true
  else if bool_decide (i = str "update:apply") then launch w sv (str "--apply") true
  else (sv, []).

Definition short_commit (c : bytes) : bytes :=
  if bool_decide (c = []) || bool_decide (c = str "unknown") then [] else take 7 c.

Definition progress_line (sv : update_service) : bytes :=
  if negb (working sv) then []
  else
    let s := if bool_decide (status (s_state sv) = Checking) then str "Verification en cours" else str "Mise a jour en cours" in
    let s := if bool_decide (stage (s_state sv) = []) then s else s ++ str " : " ++ stage (s_state sv) in
    s ++ str "...".

Definition progress_percent (sv : update_service) : Z := if working sv then progress (s_state sv) else -1.

Definition news (sv : update_service) : bytes :=
  let n := commits_ahead (s_state sv) in
  if n <=? 0 then [] else to_string n ++ (if 1 <? n then str " nouveautes" else str " nouveaute").

Definition version_line (sv : update_service) : bytes :=
  let u := s_state sv in
  if negb (bool_decide (installed_version u = [])) && negb (bool_decide (remote_version u = []))
  then str "Version " ++ installed_version u ++ str " -> " ++ remote_version u
  else
    let a := short_commit (installed_commit u) in
    let b := short_commit (remote_commit u) in
    if bool_decide (a = []) || bool_decide (b = []) then [] else a ++ str " -> " ++ b.

Definition has_report (sv : update_service) : bool := negb (bool_decide (report sv = [])).
Definition take_report (sv : update_service) : bytes * update_service := (report sv, with_report sv []).

Definition build_report (sv : update_service) : bytes :=
  let u := s_state sv in
  let why := if bool_decide (s_message sv = []) then str "raison inconnue" else take 60 (s_message sv) in
  match status u with
  | UpToDate =>
      if bool_decide (installed_version u = []) then str "Vous etes a jour."
      else str "Vous etes a jour, en version " ++ installed_version u ++ str "."
  | Available =>
      str "Mise a jour disponible"
      ++ (if bool_decide (news sv = []) then [] else str " : " ++ news sv) ++ str "."
      ++ (if bool_decide (version_line sv = []) then [] else 10 :: version_line sv)
      ++ (if bool_decide (u_notes u = []) then []
          else 10 :: concat ((fun n => 10 :: str "  - " ++ n) <$> u_notes u))
  | RestartPending => str "Mise a jour installee. Redemarrez pour terminer."
  | HistoryRewritten => str "Historique reecrit : une reinstallation est necessaire."
  | CheckFailed => str "Verification impossible : " ++ why
  | ApplyFailed => str "Mise a jour echouee : " ++ why
  | UpdatesDisabled => str "Mise a jour indisponible : " ++ why
  | _ => str "Verification sans resultat, voir update.log"
  end.

Definition owns (sv : update_service) (pid : Z) : bool := (0 <? child sv) && (pid =? child sv).

Definition on_child_exit (w : world) (sv : update_service) (pid st : Z) : update_service :=
  if negb (owns sv pid) then sv
  else
    let before := status (s_state sv) in
    let sv := reload w (with_child sv (-1) (child_is_manual sv)) in
    let unchanged := bool_decide (status (s_state sv) = before) in
    let failed := negb (st =? 0) in
    let sv := if unchanged && failed
              then with_stale sv (stale_worker sv) (str "echec de la mise a jour, voir update.log") else sv in
    let sv := if child_is_manual sv
              then with_report sv (if unchanged && failed then str "Echec, voir update.log" else build_report sv)
              else sv in
    schedule_from w (checked_at (s_state sv)) (with_child sv (child sv) false).

Example service_demo :
  let file := str "schema=1" ++ [10] ++ str "prefix=/opt" ++ [10] ++ str "status=available" ++ [10] ++ str "commits_ahead=3" in
  let w t := World 100000 (t * kSecond) file (fun _ => false) (fun _ => true) (fun _ => 77) in
  let '(s1, l1) := tick (w 0) service_new in
  let '(s2, l2) := run (w 1) s1 (str "update:apply") in
  let s3 := on_child_exit (w 2) s2 77 0 in
  l1 = [] /\ e_id (entry s1) = str "update:apply" /\ badge s1 = true /\ delay_ms (w 0) s1 = 30000 /\
  l2 = [[str "/opt/libexec/termos-update"; str "--apply"]] /\ owns s2 77 = true /\ e_enabled (entry s2) = false /\
  child s3 = -1 /\ report s3 = str "Mise a jour disponible : 3 nouveautes.".
Proof. vm_compute. by split_and!. Qed.

(** ** Histories of the service *)

Inductive svc_op := Tick | Run (i : bytes) | Exit (pid st : Z).

Definition svc_step (w : world) (sv : update_service) (o : svc_op) : update_service * list (list bytes) :=
  match o with
  | Tick => tick w sv
  | Run i => run w sv i
  | Exit pid st => (on_child_exit w sv pid st, [])
  end.

Lemma reload_keeps w sv :
  child (reload w sv) = child sv /\ deadline (reload w sv) = deadline sv /\
  have_deadline (reload w sv) = have_deadline sv /\ loaded (reload w sv) = loaded sv.
Proof.
  unfold reload. cbv zeta.
  repeat match goal with |- context [if ?b then _ else _] => destruct b end; done.
Qed.

Lemma updater_path_some sv : updater_path sv <> [] -> updater_path sv = u_prefix (s_state sv) ++ str "/libexec/termos-update".
Proof. unfold updater_path. by case_bool_decide. Qed.

(** A launch is of the updater of the prefix, and leaves its pid. *)
Lemma launch_spec w sv m manual :
  let '(sv', l) := launch w sv m manual in
  (l = [] /\ sv' = sv \/
   l = [[u_prefix (s_state sv) ++ str "/libexec/termos-update"; m]] /\
   (0 < spawn w [updater_path sv; m] /\ child sv' = spawn w [updater_path sv; m] /\ have_deadline sv' = false \/
    spawn w [updater_path sv; m] <= 0 /\ sv' = sv)) /\
  s_state sv' = s_state sv /\ deadline sv' = deadline sv /\ loaded sv' = loaded sv.
Proof.
  unfold launch. case_bool_decide as E; [by split; [left|]|]. rewrite (updater_path_some sv) by done.
  cbv zeta. destruct (Z.ltb_spec 0 (spawn w [u_prefix (s_state sv) ++ str "/libexec/termos-update"; m]));
    (split; [right; split; [done|]|done]); [left; by cbn|right; done].
Qed.

(** One worker at a time.  While the service has a child, neither a timer nor a
    command of the user starts another, and only the death of that very child gives
    its place back; and what is started is an updater, with one of its two modes. *)
Theorem one_worker_at_a_time w sv o :
  let '(sv', l) := svc_step w sv o in
  (0 < child sv -> l = [] /\ (child sv' = child sv \/ exists st, o = Exit (child sv) st)) /\
  (length l <= 1)%nat /\
  Forall (fun argv => exists sv0 m, argv = [u_prefix (s_state sv0) ++ str "/libexec/termos-update"; m] /\
            (m = str "--check" \/ m = str "--apply")) l.
Proof.
  destruct o as [|i|pid st]; cbn [svc_step].
  - unfold tick. cbv zeta. destruct (reload_keeps w sv) as (Ec & _). set (r := reload w sv) in *.
    destruct (_ || _ || _) eqn:E1.
    { split_and!; [intros _; split; [done|left; by cbn]|cbn; lia|done]. }
    apply orb_false_iff in E1 as [E1 _]. apply orb_false_iff in E1 as [_ E1]. zbool. rewrite Ec in E1.
    destruct (negb (loaded r)); [split_and!; [lia|cbn; lia|done]|].
    set (r1 := if have_deadline r then r else _). destruct (_ <=? _); [|split_and!; [lia|cbn; lia|done]].
    pose proof (launch_spec w (with_deadline r1 false (deadline r1)) (str "--check") false) as H.
    destruct (launch _ _ _ _) as [sv' l]. destruct H as [[[-> _]|[-> _]] _]; (split_and!; [lia|cbn; lia|]); [done|].
    constructor; [|constructor]. exists (with_deadline r1 false (deadline r1)), (str "--check"). split; [done|by left].
  - unfold run. destruct (negb _); [by split_and!; [intros _; split; [|left]|cbn; lia|]|].
    destruct (Z.ltb_spec 0 (child sv)); [by split_and!; [intros _; split; [|left]|cbn; lia|]|].
    destruct (bool_decide _).
    { destruct (restart_needed sv); split_and!; try done; cbn; lia. }
    assert (forall m, m = str "--check" \/ m = str "--apply" ->
      let '(sv', l) := launch w sv m true in
      (0 < child sv -> l = [] /\ (child sv' = child sv \/ exists st, Run i = Exit (child sv) st)) /\
      (length l <= 1)%nat /\
      Forall (fun argv => exists sv0 m, argv = [u_prefix (s_state sv0) ++ str "/libexec/termos-update"; m] /\
            (m = str "--check" \/ m = str "--apply")) l) as Hl.
    { intros m Hm. pose proof (launch_spec w sv m true) as Hs. destruct (launch _ _ _ _) as [sv' l].
      destruct Hs as [[[-> _]|[-> _]] _]; (split_and!; [lia|cbn; lia|]); [done|].
      constructor; [|constructor]. by exists sv, m. }
    do 2 (destruct (bool_decide _); [apply Hl; auto|]). split_and!; [lia|cbn; lia|done].
  - split_and!; [intros Hc; split; [done|]|cbn; lia|done]. unfold on_child_exit, owns.
    zrw_true (0 <? child sv). cbn [andb]. destruct (Z.eqb_spec pid (child sv)) as [->|]; cbn [negb]; [right; by exists st|by left].
Qed.

(** C36: the menu is never stuck.  When a turn of the service leaves the entry of the
    menu inert, the updates are disabled, or a worker of the service is running, or
    the state file names a worker that is alive: a worker killed on the way, whatever
    it left in the file, costs the user nothing. *)
Theorem entry_never_stuck w sv :
  child sv <> 0 ->
  let sv' := (tick w sv).1 in
  e_enabled (entry sv') = false ->
  status (s_state sv') = UpdatesDisabled \/ 0 < child sv' \/
  (in_progress (status (s_state sv')) = true /\ pid_alive w (u_pid (s_state sv')) = true).
Proof.
  intros Hc. cbv zeta.
  assert (forall s, child s <> 0 -> child s < 0 \/ 0 < child s) as Hsign by (intros; lia).
  assert (let r := reload w sv in
    0 < child r \/ stale_worker r = true \/ in_progress (status (s_state r)) = false \/
    (in_progress (status (s_state r)) = true /\ pid_alive w (u_pid (s_state r)) = true)) as Hr.
  { cbv zeta. destruct (Hsign sv Hc) as [Hneg|Hpos]; [right|left; by rewrite (proj1 (reload_keeps w sv))].
    unfold reload. cbv zeta. cbn [with_state s_state child]. zrw_true (child sv <? 0).
    set (u := parse_update_state (state_file w) (wall w)).
    destruct (in_progress (status u)) eqn:Ep; cbn [andb negb].
    - destruct (pid_alive w (u_pid u)) eqn:Ea; cbn [negb];
        (destruct (bool_decide (status u = RestartPending)) eqn:Es;
         [apply bool_decide_eq_true in Es; by rewrite Es in Ep|]); cbn; [right; right; done|by left].
    - right; left. by destruct (_ && _). }
  set (r := reload w sv) in *.
  (* what follows the reading changes neither the state nor the mark *)
  assert (s_state (tick w sv).1 = s_state r /\ stale_worker (tick w sv).1 = stale_worker r /\
    (0 < child r -> 0 < child (tick w sv).1)) as (E1 & E2 & E3).
  { unfold tick. fold r. cbv zeta. destruct (_ || _ || _) eqn:E1; [done|].
    apply orb_false_iff in E1 as [E1 _]. apply orb_false_iff in E1 as [_ E1]. zbool.
    destruct (negb (loaded r)); [split_and!; [done..|lia]|]. set (r1 := if have_deadline r then r else _).
    assert (s_state r1 = s_state r /\ stale_worker r1 = stale_worker r) as [F1 F2] by (subst r1; by destruct (have_deadline r)).
    destruct (_ <=? _); [|cbn [fst]; split_and!; [done..|lia]].
    unfold launch. destruct (bool_decide _); [|destruct (0 <? spawn _ _)]; cbn [fst child with_child with_deadline];
      destruct (_ <? 0); cbn; (split_and!; [done..|lia]). }
  unfold entry, working. rewrite E1, E2. case_bool_decide; [by left|].
  destruct (Z.ltb_spec 0 (child (tick w sv).1)) as [|Hn]; cbn [orb]; [intros _; by right; left|].
  destruct Hr as [Hr|[Hr|[Hr|Hr]]]; [lia|rewrite Hr|rewrite Hr, andb_false_r|intros _; by right; right];
    cbn [negb andb]; repeat (destruct (_ : bool); [done|]); try done.
  all: destruct (restart_needed _); [done|]; destruct (_ || _); [done|]; by case_bool_decide.
Qed.

Lemma entry_never_stuck_witness :
  let w := World 100000 0 (str "schema=1" ++ [10] ++ str "status=applying" ++ [10] ++ str "pid=4242") (fun p => p =? 4242) (fun _ => true) (fun _ => -1) in
  let sv' := (tick w service_new).1 in
  e_enabled (entry sv') = false /\
  (status (s_state sv') = UpdatesDisabled \/ 0 < child sv' \/
   (in_progress (status (s_state sv')) = true /\ pid_alive w (u_pid (s_state sv')) = true)).
Proof. cbv zeta. split; [by vm_compute|]. apply entry_never_stuck; by vm_compute. Defined.

(** A deadline is never further than a day away. *)
Definition service_ok (now : Z) (sv : update_service) : Prop :=
  child sv <> 0 /\ (have_deadline sv = true -> deadline sv <= now + kPeriodSeconds * kSecond).

Lemma schedule_ok w at_ sv : child sv <> 0 -> service_ok (steady w) (schedule_from w at_ sv).
Proof.
  intros Hc. split; [done|]. intros _. unfold schedule_from, kPeriodSeconds, kFloorSeconds, kSecond. cbn [with_deadline deadline].
  destruct (0 <? at_); lia.
Qed.

Lemma service_ok_later n1 n2 sv : n1 <= n2 -> service_ok n1 sv -> service_ok n2 sv.
Proof. intros Hn [H1 H2]. split; [done|]. intros H. specialize (H2 H). lia. Qed.

Lemma reload_ok w now sv : service_ok now sv -> service_ok now (reload w sv).
Proof. unfold service_ok. destruct (reload_keeps w sv) as (-> & -> & -> & _). done. Qed.

Lemma launch_ok w now sv m manual : service_ok now sv -> service_ok now (launch w sv m manual).1.
Proof.
  intros Hs. pose proof (launch_spec w sv m manual) as H. destruct (launch _ _ _ _) as [sv' l]. cbn [fst].
  destruct H as [[[_ ->]|[_ [(Hp & Hc & Hd)|[_ ->]]]] _]; [done| |done].
  split; [lia|]. rewrite Hd. done.
Qed.

Lemma step_service_ok w sv o : service_ok (steady w) sv -> service_ok (steady w) (svc_step w sv o).1.
Proof.
  intros Hs. destruct o as [|i|pid st]; cbn [svc_step].
  - unfold tick. cbv zeta. pose proof (reload_ok w _ sv Hs) as Hr. set (r := reload w sv) in *.
    destruct (_ || _ || _); [split; [apply Hr|done]|].
    destruct (negb (loaded r)); [apply (schedule_ok w (checked_at (s_state r)) r), Hr|].
    set (r1 := if have_deadline r then r else _).
    assert (service_ok (steady w) r1) as H1 by (subst r1; destruct (have_deadline r); [done|apply schedule_ok, Hr]).
    destruct (_ <=? _); [|done].
    assert (service_ok (steady w) (with_deadline r1 false (deadline r1))) as H2 by (split; [apply H1|done]).
    pose proof (launch_ok w _ _ (str "--check") false H2) as H3. destruct (launch _ _ _ _) as [sv' l]. cbn [fst] in *.
    destruct (_ <? 0); [apply schedule_ok, H3|done].
  - unfold run. destruct (negb _); [done|]. destruct (0 <? _); [done|].
    destruct (bool_decide _); [by destruct (restart_needed sv)|].
    do 2 (destruct (bool_decide _); [by apply launch_ok|]). done.
  - cbn [fst]. unfold on_child_exit. destruct (negb _); [done|]. apply schedule_ok.
    set (r := reload w _). assert (child r = -1) as Er by apply reload_keeps.
    cbn [with_child child]. repeat match goal with |- context [if ?b then _ else _] => destruct b end; cbn; lia.
Qed.

(** A history: each step in its world, the steady clock never going back. *)
Fixpoint in_order (now : Z) (h : list (world * svc_op)) : Prop :=
  match h with
  | [] => True
  | (w, _) :: h => now <= steady w /\ in_order (steady w) h
  end.

Definition svc_run (sv : update_service) (h : list (world * svc_op)) : update_service :=
  fold_left (fun sv wo => (svc_step wo.1 sv wo.2).1) h sv.

Lemma tick_wakes w sv :
  service_ok (steady w) sv ->
  let sv' := (tick w sv).1 in
  status (s_state sv') = UpdatesDisabled \/ updater_path sv' = [] \/ 0 < child sv' \/
  0 <= delay_ms w sv' <= kPeriodSeconds * 1000.
Proof.
  intros Hs. pose proof (step_service_ok w sv Tick Hs) as [Hc Hd]. cbn [svc_step] in Hc, Hd. cbv zeta.
  assert (have_deadline (tick w sv).1 = true -> 0 <= delay_ms w (tick w sv).1 <= kPeriodSeconds * 1000) as Hdl.
  { intros H. specialize (Hd H). unfold delay_ms. rewrite H. cbn [negb]. unfold kPeriodSeconds, kSecond in *.
    destruct (Z.leb_spec (Z.quot (deadline (tick w sv).1 - steady w) 1000000) 0); [lia|].
    rewrite Z.quot_div_nonneg in * by (destruct (Z.le_gt_cases 0 (deadline (tick w sv).1 - steady w)); [lia|];
      exfalso; assert (Z.quot (deadline (tick w sv).1 - steady w) 1000000 <= 0) by (apply Z.quot_le_upper_bound; lia); lia).
    split; [lia|]. apply Z.div_le_upper_bound; lia. }
  revert Hc Hd Hdl. unfold tick. cbv zeta. set (r := reload w sv) in *.
  destruct (bool_decide (status (s_state r) = UpdatesDisabled)) eqn:E1; [intros; left; by apply bool_decide_eq_true in E1|].
  destruct (Z.ltb_spec 0 (child r)); [intros; by right; right; left|].
  destruct (bool_decide (updater_path r = [])) eqn:E3; [intros; right; left; by apply bool_decide_eq_true in E3|].
  cbn [orb]. destruct (negb (loaded r)); [intros _ _ Hdl; right; right; right; by apply Hdl|].
  set (r1 := if have_deadline r then r else _).
  assert (have_deadline r1 = true) as H1 by (subst r1; destruct (have_deadline r) eqn:E; [exact E|done]).
  destruct (_ <=? _); [|intros _ _ Hdl; right; right; right; by apply Hdl].
  destruct (launch _ _ _ _) as [sv' l]. intros Hc _ Hdl. destruct (Z.ltb_spec (child sv') 0) as [Hn|Hn].
  - right; right; right. by apply Hdl.
  - right; right; left. cbn [fst] in *. lia.
Qed.

(** C35: the daily check never falls asleep.  After any history of timers, commands and
    deaths, in any worlds whose steady clock does not go back, a turn of the service
    leaves it disabled, without an installed updater, busy with a worker, or with a
    deadline at most a day ahead -- also when launching failed. *)
Theorem update_always_wakes h w :
  in_order 0 (h ++ [(w, Tick)]) ->
  let sv := svc_run service_new (h ++ [(w, Tick)]) in
  status (s_state sv) = UpdatesDisabled \/ updater_path sv = [] \/ 0 < child sv \/
  0 <= delay_ms w sv <= kPeriodSeconds * 1000.
Proof.
  intros Ho. unfold svc_run. rewrite fold_left_app. cbn [fold_left fst snd svc_step].
  apply tick_wakes. assert (service_ok 0 service_new) as H0 by done. revert Ho H0.
  generalize 0 as now. generalize service_new as sv. induction h as [|[w' o] h IH]; intros sv now Ho H0.
  - cbn in Ho. eapply service_ok_later; [|exact H0]. lia.
  - cbn [app in_order] in Ho. destruct Ho as [Hn Ho]. cbn [fold_left fst snd].
    apply (IH _ (steady w') Ho). apply step_service_ok. by eapply service_ok_later.
Qed.

Lemma update_always_wakes_witness :
  let file := str "schema=1" ++ [10] ++ str "prefix=/opt" in
  let w t := World 100000 (t * kSecond) file (fun _ => false) (fun _ => true) (fun _ => -1) in
  let sv := svc_run service_new ([(w 0, Tick); (w 31, Tick); (w 40, Run (str "update:check"))] ++ [(w 90000, Tick)]) in
  status (s_state sv) = UpdatesDisabled \/ updater_path sv = [] \/ 0 < child sv \/
  0 <= delay_ms (w 90000) sv <= kPeriodSeconds * 1000.
Proof. intros file w. apply (update_always_wakes _ (w 90000)). cbn. unfold kSecond. lia. Defined.
