(* ===== verification/Modal.v ===== *)
(** * The dialogue: [src/shell/modal.hpp], [src/shell/modal.cpp]

    One box, which is a question, an answer or a work in progress; its geometry, what
    it draws, and what a click on it means. *)

From S2P Require Import Prelude StdString RowPairs Utf8 Cell Width Surface Theme.

Inductive modal_hit := MNone | MBody | MCancel | MConfirm.
Inductive modal_style := Question | Info | Progress.

#[export] Instance modal_hit_eq_dec : EqDecision modal_hit. Proof. solve_decision. Defined.
#[export] Instance modal_style_eq_dec : EqDecision modal_style. Proof. solve_decision. Defined.

Record modal := Modal {
  m_open : bool;
  m_style : modal_style;
  cancel_label : bytes;
  confirm_label : bytes;
  question : bytes;
  target : Z;
  confirm : bool;
  percent : Z;
  m_rect : rect;
}.

Definition modal_new : modal := Modal false Question [] [] [] 0 false (-1) (Rect 0 0 0 0).

Definition kCancel : bytes := str "Annuler".
Definition kConfirm : bytes := str "Confirmer".
Definition kAcknowledge : bytes := str "[ OK ]".
Definition kCancelW : Z := zlen kCancel + 1 + 3.
Definition kConfirmW : Z := zlen kConfirm + 1 + 3.

Definition button (label : bytes) : bytes := str "[ " ++ label ++ str " ]".

Definition kChromeHeight : Z := 5.
Definition kButtonsChrome : Z := 5.
Definition kMinWidth : Z := kCancelW + kConfirmW + kButtonsChrome.

Definition body_lines (s : bytes) : list bytes :=
  match lines_from (S (length s)) s 0 with [] => [[]] | ls => ls end.

(** A box that is not a work in progress is not replaced. *)
Definition taken (m : modal) : bool := m_open m && negb (bool_decide (m_style m = Progress)).

Definition ask_named (m : modal) (q : bytes) (tgt : Z) (cancel conf : bytes) : modal :=
  if taken m then m else Modal true Question cancel conf q tgt false (-1) (m_rect m).

Definition ask (m : modal) (q : bytes) (tgt : Z) : modal := ask_named m q tgt kCancel kConfirm.

Definition start_progress (m : modal) (msg : bytes) : modal :=
  if taken m then m else Modal true Progress (cancel_label m) (confirm_label m) msg 0 false (-1) (m_rect m).

Definition set_progress (m : modal) (p : Z) : modal :=
  Modal (m_open m) (m_style m) (cancel_label m) (confirm_label m) (question m) (target m) (confirm m) p (m_rect m).

Definition set_body (m : modal) (msg : bytes) : modal :=
  if negb (m_open m) then m
  else Modal (m_open m) (m_style m) (cancel_label m) (confirm_label m) msg (target m) (confirm m) (percent m) (m_rect m).

Definition inform (m : modal) (msg : bytes) : modal :=
  if taken m then m else Modal true Info (cancel_label m) (confirm_label m) msg 0 true (-1) (m_rect m).

Definition dismiss (m : modal) : modal := Modal false Question [] [] [] 0 false (-1) (m_rect m).

Definition focus_next (m : modal) : modal :=
  if bool_decide (m_style m = Question)
  then Modal (m_open m) (m_style m) (cancel_label m) (confirm_label m) (question m) (target m) (negb (confirm m)) (percent m) (m_rect m)
  else m.

(** ** Geometry *)

Definition min_width (m : modal) : Z :=
  if negb (bool_decide (m_style m = Question)) then kMinWidth
  else Z.max kMinWidth (zlen (button (cancel_label m)) + zlen (button (confirm_label m)) + kButtonsChrome).

Definition rect_for (m : modal) (cols rows : Z) : rect :=
  let ls := body_lines (question m) in
  let longest := fold_left (fun n l => Z.max n (zlen l)) ls 0 in
  let floor := min_width m in
  let want := longest + 4 in
  let w := Z.min (Z.min (Z.max floor want) (Z.max floor (cols - 4))) cols in
  let h := Z.min (kChromeHeight + zlen ls) rows in
  Rect (Z.quot (cols - w) 2) (Z.quot (rows - h) 2) w h.

Definition buttons_y (m : modal) : Z := ry (m_rect m) + zlen (body_lines (question m)) + 2.

Definition layout (m : modal) (cols rows : Z) : modal :=
  Modal (m_open m) (m_style m) (cancel_label m) (confirm_label m) (question m) (target m) (confirm m) (percent m)
    (rect_for m cols rows).

Definition button_widths (m : modal) : Z * Z :=
  let wa := zlen (button (cancel_label m)) in
  let wk := zlen (button (confirm_label m)) in
  let room := Z.max 0 (rw (m_rect m) - kButtonsChrome) in
  if wa + wk <=? room then (wa, wk)
  else
    let half := Z.quot room 2 in
    if wa <=? half then (wa, room - wa)
    else if wk <=? room - half then (room - wk, wk)
    else (half, room - half).

Definition confirm_rect (m : modal) : rect :=
  let w := (button_widths m).2 in
  Rect (rx (m_rect m) + rw (m_rect m) - 2 - w) (buttons_y m) w 1.

Definition cancel_rect (m : modal) : rect :=
  let w := button_widths m in
  Rect (rx (m_rect m) + rw (m_rect m) - 3 - w.2 - w.1) (buttons_y m) w.1 1.

Definition hit (m : modal) (x y : Z) : modal_hit :=
  if negb (m_open m) || negb (contains (m_rect m) x y) then MNone
  else match m_style m with
  | Progress => MBody
  | Info => if ry (confirm_rect m) =? y then MConfirm else MBody
  | Question =>
      if contains (cancel_rect m) x y then MCancel
      else if contains (confirm_rect m) x y then MConfirm else MBody
  end.

(** ** Drawing *)

Definition with_fg (s : style) (c : color) : style := Style c (bg s) (attrs s).

Definition modal_body (amb : bool) (m : modal) (v : view) (s : surface) (st : style) : surface :=
  let r := m_rect m in
  fold_left (fun s (il : nat * bytes) =>
    fst (text amb v s (rx r + 2) (ry r + 1 + Z.of_nat il.1) (elide_to_cells amb il.2 (rw r - 4) (str "~")) st))
    (zip (seq 0 (length (body_lines (question m)))) (body_lines (question m))) s.

Definition modal_bar (amb : bool) (m : modal) (v : view) (s : surface) (th : theme) (b : border) (st : style) : surface :=
  let r := m_rect m in
  if 0 <=? percent m then
    let pc := to_string (percent m) ++ str "%" in
    let figure := 4 in
    let bar := rw r - 4 - figure - 2 in
    if 4 <=? bar then
      let s := fst (text amb v s (rx r + 2) (buttons_y m) (gauge_bar (percent m) bar b) (with_fg st (accent th))) in
      fst (text amb v s (rx r + 2 + bar + 2 + (figure - zlen pc)) (buttons_y m) pc st)
    else s
  else s.

Definition draw_modal (amb : bool) (m : modal) (v : view) (s : surface) (th : theme) (b : border) : surface :=
  if negb (m_open m) then s
  else
    let r := m_rect m in
    let st := Style (modal_fg th) (modal_bg th) 0 in
    let s := fill v s r st in
    let s := box amb v s r b st in
    let hot := Style (modal_bg th) (accent th) 0 in
    let s := modal_body amb m v s st in
    match m_style m with
    | Progress => modal_bar amb m v s th b st
    | Info =>
        let w := zlen kAcknowledge in
        fst (text amb v s (rx r + Z.quot (rw r - w) 2) (ry (confirm_rect m)) kAcknowledge hot)
    | Question =>
        let c := cancel_rect m in
        let k := confirm_rect m in
        let s := fst (text amb v s (rx c) (ry c) (elide_to_cells amb (button (cancel_label m)) (rw c) (str "~"))
                        (if confirm m then st else hot)) in
        fst (text amb v s (rx k) (ry k) (elide_to_cells amb (button (confirm_label m)) (rw k) (str "~"))
               (if confirm m then hot else st))
    end.

Example modal_demo :
  let m := layout (ask modal_new (str "Fermer ?" ++ [10] ++ str "Sur") 7) 60 20 in
  m_rect m = Rect 15 6 29 7 /\ cancel_rect m = Rect 17 10 11 1 /\ confirm_rect m = Rect 29 10 13 1 /\
  hit m 17 10 = MCancel /\ hit m 41 10 = MConfirm /\ hit m 28 10 = MBody /\ hit m 14 10 = MNone /\
  ask m (str "autre") 9 = m.
Proof. vm_compute. by split_and!. Qed.

(** ** The buttons *)

Lemma body_lines_pos s : 1 <= zlen (body_lines s).
Proof. unfold body_lines. destruct (lines_from _ _ _); cbn; unfold zlen; cbn; lia. Qed.

Lemma button_pos l : 4 <= zlen (button l).
Proof. unfold button. autorewrite with termos. change (zlen (str "[ ")) with 2. change (zlen (str " ]")) with 2. pose proof (zlen_nonneg l). lia. Qed.

Lemma min_width_pos m : 29 <= min_width m.
Proof. unfold min_width. change kMinWidth with 29. destruct (negb _); lia. Qed.

(** The two widths share the room, and neither is given up. *)
Lemma button_widths_spec m :
  7 <= rw (m_rect m) ->
  let '(a, k) := button_widths m in 1 <= a /\ 1 <= k /\ a + k <= rw (m_rect m) - 5 /\
  a <= zlen (button (cancel_label m)) /\ k <= zlen (button (confirm_label m)).
Proof.
  intros Hw. unfold button_widths, kButtonsChrome. cbv zeta.
  pose proof (button_pos (cancel_label m)). pose proof (button_pos (confirm_label m)).
  rewrite Z.max_r by lia. rewrite Z.quot_div_nonneg by lia.
  zcases; split_and!; Z.div_mod_to_equations; lia.
Qed.

Lemma rect_for_spec m cols rows :
  7 <= cols -> 1 <= rows ->
  let r := rect_for m cols rows in
  0 <= rx r /\ rx r + rw r <= cols /\ 0 <= ry r /\ ry r + rh r <= rows /\ 7 <= rw r /\
  (min_width m <= cols -> min_width m <= rw r) /\
  (kChromeHeight + zlen (body_lines (question m)) <= rows -> rh r = kChromeHeight + zlen (body_lines (question m))).
Proof.
  intros Hc Hr. unfold rect_for, kChromeHeight. cbv zeta. cbn [rx ry rw rh].
  pose proof (min_width_pos m). pose proof (body_lines_pos (question m)).
  set (longest := fold_left _ _ _). set (w := Z.min _ cols). set (h := Z.min _ rows).
  assert (w <= cols) by lia. assert (7 <= w) by lia.
  rewrite !Z.quot_div_nonneg by lia. split_and!; try (Z.div_mod_to_equations; lia).
Qed.

Definition inside_frame (r f : rect) : Prop :=
  rx f < rx r /\ rx r + rw r < rx f + rw f /\ ry f < ry r /\ ry r + rh r < ry f + rh f.

(** A question can always be answered with the mouse.  On a screen high enough for
    its text and at least seven columns wide, both buttons have a cell, stand apart,
    strictly inside the frame and on the screen; a click on a cell of one of them is
    the answer drawn there, any other cell of the box is the box, and when the screen
    is as wide as the two labels, neither is cut. *)
Theorem question_answerable m cols rows :
  m_open m = true -> m_style m = Question ->
  7 <= cols -> kChromeHeight + zlen (body_lines (question m)) <= rows ->
  let m' := layout m cols rows in
  let c := cancel_rect m' in
  let k := confirm_rect m' in
  1 <= rw c /\ 1 <= rw k /\ rx c + rw c < rx k /\ inside_frame c (m_rect m') /\ inside_frame k (m_rect m') /\
  0 <= rx (m_rect m') /\ rx (m_rect m') + rw (m_rect m') <= cols /\
  0 <= ry (m_rect m') /\ ry (m_rect m') + rh (m_rect m') <= rows /\
  (forall x y, hit m' x y =
     if contains c x y then MCancel else if contains k x y then MConfirm
     else if contains (m_rect m') x y then MBody else MNone) /\
  (min_width m <= cols -> rw c = zlen (button (cancel_label m)) /\ rw k = zlen (button (confirm_label m))).
Proof.
  intros Ho Hst Hc Hr. pose proof (body_lines_pos (question m)) as Hl. cbv zeta.
  destruct (rect_for_spec m cols rows Hc ltac:(unfold kChromeHeight in *; lia)) as (R1 & R2 & R3 & R4 & R5 & R6 & R7).
  specialize (R7 Hr). set (m' := layout m cols rows).
  pose proof (button_widths_spec m' R5) as Hbw.
  assert (ry (cancel_rect m') = ry (m_rect m') + zlen (body_lines (question m)) + 2 /\
          ry (confirm_rect m') = ry (m_rect m') + zlen (body_lines (question m)) + 2) as [Y1 Y2] by done.
  assert (rh (m_rect m') = 5 + zlen (body_lines (question m))) as Eh by exact R7.
  unfold inside_frame. unfold cancel_rect, confirm_rect in *. destruct (button_widths m') as [a k] eqn:Eb.
  cbn [rx ry rw rh fst snd] in *. destruct Hbw as (Ha & Hk & Hak & _).
  split_and!; try lia.
  - exact R1.
  - exact R2.
  - exact R3.
  - exact R4.
  - intros x y. unfold hit. change (m_open m') with (m_open m). change (m_style m') with (m_style m). rewrite Ho, Hst.
    unfold cancel_rect, confirm_rect. rewrite Eb. cbn [negb orb fst snd].
    destruct (contains (m_rect m') x y) eqn:Ef; cbn [negb]; [done|].
    assert (forall r, rx (m_rect m') < rx r -> rx r + rw r < rx (m_rect m') + rw (m_rect m') ->
      ry (m_rect m') < ry r -> ry r + rh r < ry (m_rect m') + rh (m_rect m') -> contains r x y = false) as Hout.
    { intros r A B C D. apply not_true_is_false. intros E. apply not_true_iff_false in Ef. apply Ef.
      unfold contains in *. rewrite !andb_true_iff, !Z.leb_le, !Z.ltb_lt in *. lia. }
    rewrite !Hout by (cbn [rx ry rw rh]; lia). done.
  - intros Hmin. specialize (R6 Hmin). unfold button_widths in Eb. cbv zeta in Eb. unfold kButtonsChrome in Eb.
    change (cancel_label m') with (cancel_label m) in Eb. change (confirm_label m') with (confirm_label m) in Eb.
    change (m_rect m') with (rect_for m cols rows) in Eb.
    unfold min_width, kButtonsChrome in R6. rewrite Hst in R6. cbn [bool_decide negb] in R6.
    rewrite bool_decide_true in R6 by done. cbn [negb] in R6.
    replace (zlen (button (cancel_label m)) + zlen (button (confirm_label m)) <=? Z.max 0 (rw (rect_for m cols rows) - 5)) with true in Eb
      by (symmetry; apply Z.leb_le; lia).
    by injection Eb as <- <-.
Qed.

Lemma question_answerable_witness :
  let m := ask_named modal_new (str "Mise a jour disponible" ++ [10] ++ str "abc -> def") 0 (str "Plus tard") (str "Reinstaller depuis GitHub") in
  let m' := layout m 40 12 in
  let c := cancel_rect m' in
  let k := confirm_rect m' in
  1 <= rw c /\ 1 <= rw k /\ rx c + rw c < rx k /\ inside_frame c (m_rect m') /\ inside_frame k (m_rect m') /\
  0 <= rx (m_rect m') /\ rx (m_rect m') + rw (m_rect m') <= 40 /\
  0 <= ry (m_rect m') /\ ry (m_rect m') + rh (m_rect m') <= 12 /\
  (forall x y, hit m' x y =
     if contains c x y then MCancel else if contains k x y then MConfirm
     else if contains (m_rect m') x y then MBody else MNone) /\
  (min_width m <= 40 -> rw c = zlen (button (cancel_label m)) /\ rw k = zlen (button (confirm_label m))).
Proof. intros m. apply (question_answerable m 40 12); by vm_compute. Defined.

(** A second question never takes the place of the one under the eyes, and the answer
    that Enter gives to a new question is no. *)
Lemma first_question_stays m q t c k :
  taken m = true -> ask_named m q t c k = m /\ inform m q = m /\ start_progress m q = m.
Proof. intros H. unfold ask_named, inform, start_progress. by rewrite H. Qed.

Lemma question_starts_on_no m q t c k : taken m = false -> confirm (ask_named m q t c k) = false.
Proof. intros H. unfold ask_named. by rewrite H. Qed.
