(* ===== verification/Catalog.v ===== *)
(** * The catalogue: [src/app/catalog.hpp], [src/app/catalog.cpp]

    The applications the desktop can open, in the order of the bar.  The functions
    that make them are behind [make], given by the session's applications. *)

From S2P Require Import Prelude.

Record catalog_entry := CatalogEntry { cat_id : bytes; cat_label : bytes }.

Definition catalog : list catalog_entry :=
  [CatalogEntry (str "terminal") (str "Terminal");
   CatalogEntry (str "fichiers") (str "Fichiers");
   CatalogEntry (str "editeur") (str "Editeur")].

Definition catalog_find (i : bytes) : option catalog_entry :=
  List.find (fun e => bool_decide (cat_id e = i)) catalog.

Lemma catalog_find_id i e : catalog_find i = Some e -> cat_id e = i.
Proof. intros H. apply List.find_some in H as [_ H]. by apply bool_decide_eq_true in H. Qed.
