(* ===== verification/Menu.v ===== *)
(** * The launcher: [src/shell/menu.hpp], [src/shell/menu.cpp]

    A table of entries, a filter typed over it, a selection, and the window of the
    list that is drawn.  The theorem ties the three: whatever is typed, the selected
    entry exists, is drawn, and is the one a click on its line gives. *)

From S2P Require Import Prelude RowPairs Utf8 Cell Width Surface Theme Catalog.

Record menu_item := MenuItem { mi_id : bytes; mi_label : bytes; mi_enabled : bool }.

Inductive menu_hit := MNone | MBody | MSearch | MItem.
Record menu_hit_result := MenuHitResult { mh_what : menu_hit; mh_index : Z }.

Record menu := Menu {
  mn_open : bool;
  anchored : bool;
  anchor_x : Z;
  anchor_y : Z;
  query : bytes;
  extra : list menu_item;
  all : list menu_item;
  shown : list menu_item;
  sel : Z;
  mn_rect : rect;
}.

Definition menu_new : menu := Menu false false 0 0 [] [] [] [] 0 (Rect 0 0 0 0).

Definition kMenuWidth : Z := 34.
Definition kChrome : Z := 4.

Definition lower (c : Z) : Z := if (65 <=? c) && (c <=? 90) then c - 65 + 97 else c.

(** The inner loop: the needle at the front of the hay, letters folded. *)
Fixpoint fold_prefix (needle hay : bytes) : bool :=
  match needle, hay with
  | [], _ => true
  | _ :: _, [] => false
  | a :: needle, b :: hay => (lower b =? lower a) && fold_prefix needle hay
  end.

Fixpoint contains_fold (hay needle : bytes) : bool :=
  fold_prefix needle hay || match hay with [] => false | _ :: hay => contains_fold hay needle end.

Definition set_extra_items (m : menu) (items : list menu_item) : menu :=
  Menu (mn_open m) (anchored m) (anchor_x m) (anchor_y m) (query m) items (all m) (shown m) (sel m) (mn_rect m).

(** [std::max(0, std::min(sel, size - 1))]. *)
Definition refilter (m : menu) : menu :=
  let s := List.filter (fun it => contains_fold (mi_label it) (query m)) (all m) in
  Menu (mn_open m) (anchored m) (anchor_x m) (anchor_y m) (query m) (extra m) (all m) s
    (Z.max 0 (Z.min (sel m) (zlen s - 1))) (mn_rect m).

Definition own_items : list menu_item :=
  ((fun e => MenuItem (str "app:" ++ cat_id e) (cat_label e) true) <$> catalog)
  ++ [MenuItem (str "panel:top") (str "Panneau : haut") true;
      MenuItem (str "panel:bottom") (str "Panneau : bas") true;
      MenuItem (str "panel:left") (str "Panneau : gauche") true;
      MenuItem (str "panel:right") (str "Panneau : droite") true;
      MenuItem (str "wm:tile") (str "Ranger les fenetres") true;
      MenuItem (str "session:detach") (str "Quitter") true;
      MenuItem (str "session:quit") (str "Fermer la session") true].

Definition open (m : menu) : menu :=
  refilter (Menu true false (anchor_x m) (anchor_y m) [] (extra m) (own_items ++ extra m) (shown m) 0 (mn_rect m)).

Definition open_at (m : menu) (x y : Z) : menu :=
  let m := open m in
  Menu (mn_open m) true x y (query m) (extra m) (all m) (shown m) (sel m) (mn_rect m).

Definition close (m : menu) : menu :=
  Menu false (anchored m) (anchor_x m) (anchor_y m) [] (extra m) (all m) [] 0 (mn_rect m).

Definition with_query (m : menu) (q : bytes) : menu :=
  Menu (mn_open m) (anchored m) (anchor_x m) (anchor_y m) q (extra m) (all m) (shown m) (sel m) (mn_rect m).

Definition type_ (m : menu) (c : Z) : menu :=
  if (c <? 32) || (126 <? c) then m else refilter (with_query m (query m ++ [c])).

Definition backspace (m : menu) : menu :=
  if bool_decide (query m = []) then m else refilter (with_query m (take (length (query m) - 1) (query m))).

Definition with_sel (m : menu) (i : Z) : menu :=
  Menu (mn_open m) (anchored m) (anchor_x m) (anchor_y m) (query m) (extra m) (all m) (shown m) i (mn_rect m).

Definition move (m : menu) (delta : Z) : menu :=
  if bool_decide (shown m = []) then m
  else
    let n := zlen (shown m) in
    with_sel m (Z.rem (Z.rem (sel m + delta) n + n) n).

Definition selected (m : menu) : option menu_item :=
  if negb (mn_open m) || bool_decide (shown m = []) then None
  else if (sel m <? 0) || (zlen (shown m) <=? sel m) then None
  else shown m !! Z.to_nat (sel m).

(** ** Geometry *)

Definition rect_for (m : menu) (cols rows : Z) : rect :=
  let want := zlen (if bool_decide (shown m = []) then all m else shown m) in
  let h := Z.max (Z.min (rows - 1) (want + kChrome)) (kChrome + 1) in
  let w := Z.min cols kMenuWidth in
  if anchored m then
    let x := if cols <? anchor_x m + w then cols - w else anchor_x m in
    let y := if rows <? anchor_y m + h then rows - h else anchor_y m in
    Rect (if x <? 0 then 0 else x) (if y <? 0 then 0 else y) w h
  else
    let y := rows - 1 - h in
    Rect 0 (if y <? 0 then 0 else y) w h.

Definition layout (m : menu) (cols rows : Z) : menu :=
  Menu (mn_open m) (anchored m) (anchor_x m) (anchor_y m) (query m) (extra m) (all m) (shown m) (sel m)
    (rect_for m cols rows).

(** The first entry drawn: the window of the list follows the selection. *)
Definition first_row (m : menu) : Z :=
  let rows := rh (mn_rect m) - kChrome in
  if rows <=? sel m then sel m - rows + 1 else 0.

Definition hit (m : menu) (x y : Z) : menu_hit_result :=
  if negb (mn_open m) || negb (contains (mn_rect m) x y) then MenuHitResult MNone (-1)
  else if y =? ry (mn_rect m) + 1 then MenuHitResult MSearch (-1)
  else
    let rows := rh (mn_rect m) - kChrome in
    let row := y - (ry (mn_rect m) + 3) in
    if (0 <=? row) && (row <? rows) && (first_row m + row <? zlen (shown m))
    then MenuHitResult MItem (first_row m + row) else MenuHitResult MBody (-1).

(** ** Drawing *)

Definition menu_rows (amb : bool) (m : menu) (v : view) (s : surface) (st sel_st dim : style) : surface :=
  let r := mn_rect m in
  fold_left (fun s i =>
    let idx := first_row m + i in
    match shown m !! Z.to_nat idx with
    | None => s
    | Some it =>
        fst (text amb v s (rx r + 1) (ry r + 3 + i) (mi_label it)
               (if idx =? sel m then sel_st else if mi_enabled it then st else dim))
    end) (range 0 (rh r - kChrome)) s.

Definition draw_menu (amb : bool) (m : menu) (v : view) (s : surface) (th : theme) (b : border) : surface :=
  if negb (mn_open m) then s
  else
    let r := mn_rect m in
    let st := Style (modal_fg th) (modal_bg th) 0 in
    let s := fill v s r st in
    let s := box amb v s r b st in
    let inner_x := rx r + 1 in
    let inner_w := rw r - 2 in
    if inner_w <=? 0 then s
    else
      let sel_st := Style (modal_bg th) (accent th) 0 in
      let dim := Style (border_blur th) (modal_bg th) 0 in
      let s := fst (text amb v s inner_x (ry r + 1) (str "> " ++ query m) st) in
      let s := fold_left (fun s i => put amb v s (inner_x + i) (ry r + 2) 45 st) (range 0 inner_w) s in
      menu_rows amb m v s st sel_st dim.

Example menu_demo :
  let m := layout (fold_left type_ (str "FERM") (open menu_new)) 80 24 in
  selected m = Some (MenuItem (str "session:quit") (str "Fermer la session") true) /\
  mn_rect m = Rect 0 18 34 5 /\ hit m 3 21 = MenuHitResult MItem 0 /\
  selected (move (open menu_new) (-1)) = Some (MenuItem (str "session:quit") (str "Fermer la session") true) /\
  selected (type_ (open menu_new) 122) = None.
Proof. vm_compute. by split_and!. Qed.

(** ** Histories *)

Inductive menu_op :=
  | OpExtra (items : list menu_item) | OpOpen | OpOpenAt (x y : Z) | OpClose | OpType (c : Z) | OpBackspace
  | OpMove (delta : Z) | OpLayout (cols rows : Z).

Definition menu_step (m : menu) (o : menu_op) : menu :=
  match o with
  | OpExtra items => set_extra_items m items
  | OpOpen => open m
  | OpOpenAt x y => open_at m x y
  | OpClose => close m
  | OpType c => type_ m c
  | OpBackspace => backspace m
  | OpMove d => move m d
  | OpLayout c r => layout m c r
  end.

Definition sel_ok (m : menu) : Prop := 0 <= sel m /\ (shown m = [] -> sel m = 0) /\ (shown m <> [] -> sel m < zlen (shown m)).

Lemma refilter_ok m : sel_ok (refilter m).
Proof.
  unfold sel_ok, refilter. cbn [sel shown]. set (s := List.filter _ _). pose proof (zlen_nonneg s).
  split_and!; [lia| |].
  - intros ->. change (zlen (@nil menu_item)) with 0. lia.
  - intros Hs. assert (zlen s <> 0) by (destruct s; [done|unfold zlen; cbn; lia]). lia.
Qed.

Lemma menu_step_ok m o : sel_ok m -> sel_ok (menu_step m o).
Proof.
  intros Hm. destruct o as [items| |x y| |c| |d|c r]; cbn [menu_step]; try done.
  - apply refilter_ok.
  - apply (refilter_ok _).
  - unfold type_. destruct (_ || _); [done|apply refilter_ok].
  - unfold backspace. destruct (bool_decide _); [done|apply refilter_ok].
  - unfold move. case_bool_decide as E; [done|]. unfold sel_ok, with_sel. cbn [sel shown].
    assert (0 < zlen (shown m)) by (destruct (shown m); [done|unfold zlen; cbn; lia]).
    set (n := zlen (shown m)) in *. pose proof (Z.rem_bound_abs (sel m + d) n ltac:(lia)).
    assert (0 <= Z.rem (Z.rem (sel m + d) n + n) n < n) by (apply Z.rem_bound_pos; lia).
    split_and!; [lia|done|lia].
Qed.

(** What is selected in the menu is what is seen and what is clicked.  After any
    typing, erasing and moving, in any screen of at least six rows, an open menu with
    an entry left has a selected one, drawn on a line of the box, and a click
    anywhere on that line gives it back; a menu with none left has no selection. *)
Theorem menu_selection_is_clickable ops cols rows :
  let m := layout (fold_left menu_step ops menu_new) cols rows in
  mn_open m = true -> 6 <= rows -> 3 <= cols ->
  match selected m with
  | None => shown m = []
  | Some it =>
      shown m !! Z.to_nat (sel m) = Some it /\
      let y := ry (mn_rect m) + 3 + (sel m - first_row m) in
      ry (mn_rect m) + 2 < y < ry (mn_rect m) + rh (mn_rect m) - 1 /\
      forall x, rx (mn_rect m) <= x < rx (mn_rect m) + rw (mn_rect m) -> hit m x y = MenuHitResult MItem (sel m)
  end.
Proof.
  intros m Ho Hr Hc.
  assert (sel_ok m) as (S0 & S1 & S2).
  { subst m. apply (menu_step_ok _ (OpLayout cols rows)). assert (sel_ok menu_new) as H by (unfold sel_ok; cbn; split_and!; [lia|done|done]).
    clear Ho. revert H. generalize menu_new. induction ops as [|o ops IH]; intros m' H; [done|]. by apply IH, menu_step_ok. }
  unfold selected. rewrite Ho. cbn [negb orb]. case_bool_decide as E; [done|]. specialize (S2 E).
  zrw_false (sel m <? 0). zrw_false (zlen (shown m) <=? sel m). cbn [orb].
  destruct (lookup_lt_is_Some_2 (shown m) (Z.to_nat (sel m))) as [it Hit]; [unfold zlen in S2; lia|].
  rewrite Hit. split; [done|].
  assert (5 <= rh (mn_rect m)) as Hh.
  { subst m. unfold layout, rect_for. cbn [mn_rect]. destruct (anchored _); cbn [rh]; unfold kChrome; lia. }
  assert (0 <= sel m - first_row m < rh (mn_rect m) - kChrome) as Hrow.
  { unfold first_row, kChrome. destruct (Z.leb_spec (rh (mn_rect m) - 4) (sel m)); lia. }
  unfold kChrome in Hrow. cbv zeta. split; [lia|]. intros x Hx. unfold hit. rewrite Ho. cbn [negb orb].
  assert (contains (mn_rect m) x (ry (mn_rect m) + 3 + (sel m - first_row m)) = true) as ->.
  { unfold contains. rewrite !andb_true_iff, !Z.leb_le, !Z.ltb_lt. lia. }
  cbn [negb]. zrw_false (ry (mn_rect m) + 3 + (sel m - first_row m) =? ry (mn_rect m) + 1). unfold kChrome.
  replace (ry (mn_rect m) + 3 + (sel m - first_row m) - (ry (mn_rect m) + 3)) with (sel m - first_row m) by lia.
  zrw_true (0 <=? sel m - first_row m). zrw_true (sel m - first_row m <? rh (mn_rect m) - 4).
  replace (first_row m + (sel m - first_row m)) with (sel m) by lia. by zrw_true (sel m <? zlen (shown m)).
Qed.

Lemma menu_selection_is_clickable_witness :
  let m := layout (fold_left menu_step [OpOpenAt 70 20; OpType 101; OpMove 3] menu_new) 80 24 in
  match selected m with
  | None => shown m = []
  | Some it =>
      shown m !! Z.to_nat (sel m) = Some it /\
      let y := ry (mn_rect m) + 3 + (sel m - first_row m) in
      ry (mn_rect m) + 2 < y < ry (mn_rect m) + rh (mn_rect m) - 1 /\
      forall x, rx (mn_rect m) <= x < rx (mn_rect m) + rw (mn_rect m) -> hit m x y = MenuHitResult MItem (sel m)
  end.
Proof. apply (menu_selection_is_clickable [OpOpenAt 70 20; OpType 101; OpMove 3] 80 24); by vm_compute. Defined.
