(* ===== verification/Help.v ===== *)
(** * The help: [src/shell/help.hpp], [src/shell/help.cpp], [direct_help]

    The two tables of gestures in one frame, cut to the screen.  The widths of the
    columns are measured on the tables. *)

From S2P Require Import Prelude RowPairs Utf8 Cell Width Surface Theme Shortcuts.

Record direct_row := DirectRow { dr_keys : bytes; dr_what : bytes }.

Definition direct_help : list direct_row :=
  [DirectRow (str "Ctrl+Q") (str "Détacher (la session survit)");
   DirectRow (str "Ctrl+flèches") (str "Ancrer sur une moitié d'écran");
   DirectRow (str "Alt+t / w / flèches") (str "Terminal : onglet neuf, fermé, suivant, préc.");
   DirectRow (str "F2") (str "Terminal : renommer l'onglet")].

Record help := Help { h_open : bool; h_rect : rect }.

Definition help_new : help := Help false (Rect 0 0 0 0).
Definition open (hp : help) : help := Help true (h_rect hp).
Definition close (hp : help) : help := Help false (h_rect hp).

Definition kChrome : Z := 4.
Definition kDirectChrome : Z := 1.
Definition kGutters : Z := 7.

Definition widest (amb : bool) (l : list bytes) (m : Z) : Z := fold_left (fun m s => Z.max m (text_cells amb s)) l m.

Definition keys_width (amb : bool) : Z := widest amb (dr_keys <$> direct_help) (widest amb (hr_keys <$> binding_help) 0).
Definition what_width (amb : bool) : Z := widest amb (dr_what <$> direct_help) (widest amb (hr_what <$> binding_help) 0).

Definition maybe_fold (s : bytes) (utf8 : bool) : bytes := if utf8 then s else fold_to_ascii s.

Definition rect_for (amb : bool) (cols rows : Z) : rect :=
  let w := Z.min (keys_width amb + what_width amb + kGutters) cols in
  let h := Z.min (zlen binding_help + zlen direct_help + kChrome + kDirectChrome) rows in
  Rect (Z.quot (cols - w) 2) (Z.quot (rows - h) 2) w h.

Definition layout (amb : bool) (hp : help) (cols rows : Z) : help := Help (h_open hp) (rect_for amb cols rows).

(** The columns of both tables, from the frame. *)
Definition help_x (r : rect) : Z := rx r + 2.
Definition help_right (r : rect) : Z := rx r + rw r - 1.
Definition help_kw (amb : bool) (r : rect) : Z := Z.min (keys_width amb) (Z.max 0 (help_right r - help_x r)).

(** One line of the first table, at [y]. *)
Definition draw_binding (amb utf8 : bool) (v : view) (r : rect) (st keys : style) (s : surface) (y : Z) (row : help_row) : surface :=
  let mark := if utf8 then [0xE2; 0x80; 0xA6] else str "~" in
  let chain := if utf8 then [0xE2; 0x88; 0x99] else str "+" in
  let x := help_x r in
  let kw := help_kw amb r in
  let flag_x := x + kw + 1 in
  let what_x := x + kw + 3 in
  let what_room := Z.max 0 (help_right r - what_x) in
  let s := fst (text amb v s x y (elide_to_cells amb (maybe_fold (hr_keys row) utf8) kw mark) keys) in
  let s := match hr_actions row with
           | a :: _ => if is_repeatable a then fst (text amb v s flag_x y chain keys) else s
           | [] => s
           end in
  fst (text amb v s what_x y (elide_to_cells amb (maybe_fold (hr_what row) utf8) what_room mark) st).

Fixpoint draw_bindings (amb utf8 : bool) (v : view) (r : rect) (st keys : style) (bottom : Z) (s : surface) (y : Z)
    (rows : list help_row) : surface * Z :=
  match rows with
  | [] => (s, y)
  | row :: rows =>
      if y <? bottom then draw_bindings amb utf8 v r st keys bottom (draw_binding amb utf8 v r st keys s y row) (y + 1) rows
      else (s, y)
  end.

Fixpoint draw_directs (amb utf8 : bool) (v : view) (r : rect) (st keys : style) (bottom : Z) (s : surface) (y : Z)
    (rows : list direct_row) : surface :=
  match rows with
  | [] => s
  | row :: rows =>
      if bottom <=? y then s
      else
        let mark := if utf8 then [0xE2; 0x80; 0xA6] else str "~" in
        let x := help_x r in
        let kw := help_kw amb r in
        let what_room := Z.max 0 (help_right r - (x + kw + 3)) in
        let s := fst (text amb v s x y (elide_to_cells amb (maybe_fold (dr_keys row) utf8) kw mark) keys) in
        let s := fst (text amb v s (x + kw + 3) y (elide_to_cells amb (maybe_fold (dr_what row) utf8) what_room mark) st) in
        draw_directs amb utf8 v r st keys bottom s (y + 1) rows
  end.

Definition draw_help (amb : bool) (hp : help) (v : view) (s : surface) (th : theme) (b : border) (leader_label : bytes)
    (utf8 : bool) : surface :=
  if negb (h_open hp) then s
  else
    let r := h_rect hp in
    let st := Style (modal_fg th) (modal_bg th) 0 in
    let s := fill v s r st in
    let s := box amb v s r b st in
    let head := Style (accent th) (modal_bg th) 0 in
    let x := help_x r in
    let head_room := Z.max 0 (rx r + rw r - 1 - x) in
    let mark := if utf8 then [0xE2; 0x80; 0xA6] else str "~" in
    let chain := if utf8 then [0xE2; 0x88; 0x99] else str "+" in
    let s := fst (text amb v s x (ry r + 1) (elide_to_cells amb (leader_label ++ str " puis :") head_room mark) head) in
    let room := Z.max 0 (rh r - kChrome) in
    let n := Z.min (zlen binding_help) room in
    let kw := help_kw amb r in
    let what_room := Z.max 0 (help_right r - (x + kw + 3)) in
    let s := if 0 <? what_room
      then fst (text amb v s (x + kw + 1) (ry r + 1)
                  (elide_to_cells amb (chain ++ maybe_fold (str " s'enchaîne") utf8) (what_room + 2) mark) st)
      else s in
    let bottom := ry r + rh r - 1 in
    let '(s, y) := draw_bindings amb utf8 v r st head bottom s (ry r + 3) (take (Z.to_nat n) binding_help) in
    if bottom <=? y then s
    else
      let s := fst (text amb v s x y (maybe_fold (str "Sans accord :") utf8) head) in
      draw_directs amb utf8 v r st head bottom s (y + 1) direct_help.

(** On 80 columns and 24 rows nothing is cut, with three rows to spare. *)
Lemma help_fits_standard_screen amb : rect_for amb 80 24 = Rect (Z.quot (80 - (keys_width amb + what_width amb + kGutters)) 2) 1 (keys_width amb + what_width amb + kGutters) 21.
Proof. destruct amb; by vm_compute. Qed.

(** The frame stays on the screen. *)
Lemma help_on_screen amb cols rows : 0 <= cols -> 0 <= rows ->
  let r := rect_for amb cols rows in 0 <= rx r /\ rx r + rw r <= cols /\ 0 <= ry r /\ ry r + rh r <= rows.
Proof.
  intros Hc Hr. cbv zeta. unfold rect_for. cbn [rx ry rw rh].
  set (w := Z.min _ cols). set (h := Z.min _ rows). rewrite !Z.quot_div_nonneg by lia. Z.div_mod_to_equations. lia.
Qed.
