(* ===== verification/SnapAssist.v ===== *)
(** * The docking proposal: [src/shell/snapassist.hpp], [src/shell/snapassist.cpp]

    A window took half of the screen: the others are offered in the free half, one
    line each.  Opening computes the box once; drawing and clicking read it. *)

From S2P Require Import Prelude RowPairs Utf8 Cell Width Surface Theme.

Record snap_candidate := SnapCandidate { sc_win : Z; sc_title : bytes }.

Record snap_assist := SnapAssist { sa_open : bool; sa_rect : rect; choices : list snap_candidate }.

Definition snap_assist_new : snap_assist := SnapAssist false (Rect 0 0 0 0) [].

Definition kChromeRows : Z := 3.
Definition kMinCols : Z := 12.
Definition kHeading : bytes := str "Ancrer ici :".

Definition close (a : snap_assist) : snap_assist := SnapAssist false (Rect 0 0 0 0) [].

Definition widest (amb : bool) (l : list snap_candidate) : Z :=
  fold_left (fun m c => Z.max m (text_cells amb (sc_title c))) l (text_cells amb kHeading).

Definition open (amb : bool) (a : snap_assist) (free : rect) (l : list snap_candidate) : snap_assist :=
  let a := close a in
  let w := Z.min (rw free - 2) (widest amb l + 4) in
  let rows := Z.min (zlen l) (rh free - 2 - kChromeRows) in
  if (rows <=? 0) || (w <? kMinCols) then a
  else
    let h := rows + kChromeRows in
    SnapAssist true
      (Rect (rx free + Z.quot (rw free - w) 2) (ry free + Z.quot (rh free - h) 2) w h)
      (take (Z.to_nat rows) l).

Definition row_of (a : snap_assist) (i : Z) : Z := ry (sa_rect a) + 2 + i.

(** The ellipsis, in UTF-8. *)
Definition kEllipsis : bytes := [0xE2; 0x80; 0xA6].

Definition draw_assist (amb : bool) (a : snap_assist) (v : view) (s : surface) (th : theme) (b : border) : surface :=
  if negb (sa_open a) then s
  else
    let r := sa_rect a in
    let st := Style (modal_fg th) (modal_bg th) 0 in
    let s := fill v s r st in
    let s := box amb v s r b st in
    let head := Style (accent th) (modal_bg th) 0 in
    let x := rx r + 2 in
    let room := Z.max 0 (rx r + rw r - 1 - x) in
    let s := fst (text amb v s x (ry r + 1) (elide_to_cells amb kHeading room kEllipsis) head) in
    fold_left (fun s i =>
      match choices a !! Z.to_nat i with
      | None => s
      | Some c => fst (text amb v s x (row_of a i) (elide_to_cells amb (sc_title c) room kEllipsis) st)
      end) (range 0 (zlen (choices a))) s.

(** The window proposed at a cell, or zero. *)
Fixpoint hit_from (a : snap_assist) (y i : Z) (l : list snap_candidate) : Z :=
  match l with
  | [] => 0
  | c :: l => if y =? row_of a i then sc_win c else hit_from a y (i + 1) l
  end.

Definition hit (a : snap_assist) (x y : Z) : Z :=
  let r := sa_rect a in
  if negb (sa_open a) then 0
  else if (x <=? rx r) || (rx r + rw r - 1 <=? x) then 0
  else hit_from a y 0 (choices a).

Lemma hit_from_spec a y l i :
  hit_from a y i l = match l !! Z.to_nat (y - row_of a i) with
                     | Some c => if row_of a i <=? y then sc_win c else 0 | None => 0 end.
Proof.
  revert i. induction l as [|c l IH]; intros i; cbn [hit_from]; [done|].
  destruct (Z.eqb_spec y (row_of a i)) as [->|N].
  - rewrite Z.sub_diag. cbn. by zrw_true (row_of a i <=? row_of a i).
  - rewrite IH. unfold row_of in *. destruct (Z.leb_spec (ry (sa_rect a) + 2 + i) y).
    + replace (Z.to_nat (y - (ry (sa_rect a) + 2 + i))) with (S (Z.to_nat (y - (ry (sa_rect a) + 2 + (i + 1))))) by lia.
      cbn [lookup list_lookup]. by zrw_true (ry (sa_rect a) + 2 + (i + 1) <=? y).
    + zrw_false (ry (sa_rect a) + 2 + (i + 1) <=? y).
      destruct (l !! _); destruct ((c :: l) !! _); done.
Qed.

(** What is proposed is in the free half and answers to the mouse.  Whatever half
    is free and whatever windows remain, the box of an open proposal lies inside that
    half with a cell to spare on each side, its choices are the first ones of the list
    in order, each on its own line strictly inside the frame, and a click gives the
    window whose line it is on -- never one for the frame, the heading or outside. *)
Theorem proposal_inside_and_clickable amb a free l :
  let a' := open amb a free l in
  let r := sa_rect a' in
  sa_open a' = true ->
  rx free < rx r /\ rx r + rw r < rx free + rw free /\ ry free < ry r /\ ry r + rh r < ry free + rh free /\
  choices a' <> [] /\ (exists rest, l = choices a' ++ rest) /\
  (forall i c, choices a' !! i = Some c -> ry r + 1 < row_of a' (Z.of_nat i) < ry r + rh r - 1) /\
  (forall x y, hit a' x y =
     if (rx r <? x) && (x <? rx r + rw r - 1) && (row_of a' 0 <=? y)
     then match choices a' !! Z.to_nat (y - row_of a' 0) with Some c => sc_win c | None => 0 end else 0).
Proof.
  cbv zeta. unfold open. set (w := Z.min (rw free - 2) _). set (rows := Z.min (zlen l) _).
  destruct (Z.leb_spec rows 0) as [|Hr]; [intros E; discriminate E|].
  destruct (Z.ltb_spec w kMinCols) as [|Hw]; [intros E; discriminate E|].
  cbn [orb sa_open sa_rect choices rx ry rw rh]. intros _. unfold kChromeRows, kMinCols in *.
  rewrite !Z.quot_div_nonneg by lia.
  assert (length (take (Z.to_nat rows) l) = Z.to_nat rows) as Hlen by (rewrite length_take; unfold zlen in rows; lia).
  split_and!.
  1-4: Z.div_mod_to_equations; lia.
  - intros E. rewrite E in Hlen. cbn in Hlen. lia.
  - exists (drop (Z.to_nat rows) l). by rewrite take_drop.
  - intros i c Hi. apply lookup_lt_Some in Hi. unfold row_of. cbn [sa_rect ry]. lia.
  - intros x y. unfold hit. cbn [sa_open sa_rect choices rx rw negb]. rewrite hit_from_spec.
    destruct (Z.leb_spec x (rx free + (rw free - w) / 2)); cbn [orb].
    { by zrw_false (rx free + (rw free - w) / 2 <? x). }
    zrw_true (rx free + (rw free - w) / 2 <? x). cbn [andb].
    destruct (Z.leb_spec (rx free + (rw free - w) / 2 + w - 1) x).
    { by zrw_false (x <? rx free + (rw free - w) / 2 + w - 1). }
    zrw_true (x <? rx free + (rw free - w) / 2 + w - 1). cbn [andb].
    destruct (_ !! _); by destruct (_ <=? y).
Qed.

Lemma proposal_inside_and_clickable_witness :
  let a' := open false snap_assist_new (Rect 40 0 40 24) [SnapCandidate 3 (str "notes"); SnapCandidate 7 (str "build")] in
  let r := sa_rect a' in
  sa_open a' = true /\ rx r + rw r < 80 /\ hit a' (rx r + 1) (row_of a' 1) = 7.
Proof.
  cbv zeta. split; [by vm_compute|].
  destruct (proposal_inside_and_clickable false snap_assist_new (Rect 40 0 40 24)
    [SnapCandidate 3 (str "notes"); SnapCandidate 7 (str "build")] ltac:(by vm_compute)) as (H1 & H2 & _ & _ & _ & _ & _ & H).
  split; [exact H2|]. rewrite H. by vm_compute.
Defined.
