(* ===== verification/Panel.v ===== *)
(** * The bar: [src/shell/panel.hpp], [src/shell/panel.cpp]

    One entry per application of the catalogue and one per window of no application,
    laid out once along an edge of the screen: drawing and clicking read the same
    items.  The two theorems are what that discipline is for: every window is counted
    in the bar, and a click on what is drawn answers for it. *)

From S2P Require Import Prelude RowPairs Utf8 Cell Width Surface Theme Window Catalog.

Inductive panel_hit := PNone | PBody | PMenuButton | PPinned | PTask | POverflow | PClock | PHint | PUpdate.
#[export] Instance panel_hit_eq_dec : EqDecision panel_hit. Proof. solve_decision. Defined.

Record panel_hit_result := PanelHitResult { ph_what : panel_hit; ph_index : Z; ph_win : window_id }.

Record panel_entry := PanelEntry {
  catalog_index : Z;
  label : bytes;
  target : window_id;
  count : Z;
  e_focused : bool;
  e_minimized : bool;
}.

Record item := Item {
  it_what : panel_hit; it_index : Z; it_win : window_id; it_focused : bool; it_r : rect; it_text : bytes }.

Record panel := Panel {
  edge : panel_edge;
  p_rect : rect;
  p_utf8 : bool;
  hint : bytes;
  update_badge : bool;
  items : list item;
}.

Definition panel_new : panel := Panel EdgeBottom (Rect 0 0 0 0) false [] false [].

Definition kLabelCells : Z := 8.
Definition kClockCells : Z := 5.
Definition kVerticalCols : Z := 16.

Definition update_glyph (utf8 : bool) : bytes := if utf8 then [0xE2; 0x86; 0x91] else str "^".
Definition elide (amb : bool) (s : bytes) (cells : Z) (utf8 : bool) : bytes :=
  elide_to_cells amb s cells (if utf8 then [0xE2; 0x80; 0xA6] else str "~").

Definition set_edge (p : panel) (e : panel_edge) : panel :=
  Panel e (p_rect p) (p_utf8 p) (hint p) (update_badge p) (items p).
Definition set_hint (p : panel) (h : bytes) : panel :=
  Panel (edge p) (p_rect p) (p_utf8 p) h (update_badge p) (items p).
Definition set_update_badge (p : panel) (on : bool) : panel :=
  Panel (edge p) (p_rect p) (p_utf8 p) (hint p) on (items p).

Definition horizontal (p : panel) : bool := match edge p with EdgeTop | EdgeBottom => true | _ => false end.

Definition thickness (p : panel) : Z := if horizontal p then 1 else kVerticalCols.

Definition rect_for (p : panel) (cols rows : Z) : rect :=
  match edge p with
  | EdgeTop => Rect 0 0 cols 1
  | EdgeBottom => Rect 0 (rows - 1) cols 1
  | EdgeLeft => Rect 0 0 kVerticalCols rows
  | EdgeRight => Rect (cols - kVerticalCols) 0 kVerticalCols rows
  end.

(** ** Entries *)

(** What one pass over the stack gathers of the windows that belong. *)
Record gathered := Gathered { g_ids : list window_id; g_at : Z; g_all_min : bool; g_last : option bytes }.

Section Entries.
Context {A : Type}.
Implicit Types (l stack : list (window A)) (wd : window A) (wm : manager A).

Definition gather_one (cur : window_id) (belongs : window A -> bool) (g : gathered) wd : gathered :=
  if negb (belongs wd) then g
  else
    Gathered (g_ids g ++ [id wd])
      (if id wd =? cur then zlen (g_ids g) else g_at g)
      (g_all_min g && bool_decide (mode wd = Minimized))
      (Some (title wd)).

Definition gather (cur : window_id) (stack : list (window A)) (e : panel_entry) (belongs : window A -> bool) : panel_entry :=
  let g := fold_left (gather_one cur belongs) stack (Gathered [] (-1) true None) in
  let n := zlen (g_ids g) in
  if n =? 0 then PanelEntry (catalog_index e) (label e) (target e) n (e_focused e) (e_minimized e)
  else
    PanelEntry (catalog_index e)
      (match g_last g with Some t => if (n =? 1) && negb (bool_decide (t = [])) then t else label e | None => label e end)
      (default 0 (if 0 <=? g_at g then g_ids g !! Z.to_nat (Z.rem (g_at g + 1) n) else g_ids g !! Nat.pred (length (g_ids g))))
      n (0 <=? g_at g) (g_all_min g).

Definition known wd : bool := existsb (fun c => bool_decide (app_id wd = cat_id c)) catalog.

Fixpoint catalog_entries (cur : window_id) (stack : list (window A)) (ci : Z) (cs : list catalog_entry) : list panel_entry :=
  match cs with
  | [] => []
  | c :: cs =>
      gather cur stack (PanelEntry ci (cat_label c) 0 0 false false) (fun wd => bool_decide (app_id wd = cat_id c))
      :: catalog_entries cur stack (ci + 1) cs
  end.

Definition other_entry (cur : window_id) (stack : list (window A)) wd : panel_entry :=
  gather cur stack (PanelEntry (-1) (title wd) 0 0 false false) (fun other => id other =? id wd).

Definition build_entries wm : list panel_entry :=
  catalog_entries (focused wm) (stack wm) 0 catalog
  ++ (other_entry (focused wm) (stack wm) <$> List.filter (fun wd => negb (known wd)) (stack wm)).

End Entries.

Definition entry_mark (utf8 : bool) (e : panel_entry) : bytes :=
  if 0 <? count e then
    if e_minimized e then str "_"
    else if e_focused e then (if utf8 then [0xE2; 0x97; 0x8F] else str "*")
    else (if utf8 then [0xE2; 0x97; 0x8B] else str "o")
  else str " ".

Definition entry_text (amb utf8 : bool) (e : panel_entry) (label_cells : Z) : bytes :=
  let t := entry_mark utf8 e ++ elide amb (label e) label_cells utf8 in
  if 1 <? count e then t ++ str "(" ++ to_string (count e) ++ str ")" else t.

(** ** Layout *)

Definition menu_text (utf8 : bool) : bytes := (if utf8 then [0xE2; 0x98; 0xB0] ++ str " " else []) ++ str "termos".

(** How many entries stand before a column. *)
Fixpoint fits (amb utf8 : bool) (end_ cells cx : Z) (entries : list panel_entry) : nat :=
  match entries with
  | [] => 0
  | e :: entries =>
      let w := text_cells amb (entry_text amb utf8 e cells) in
      if end_ <? cx + w then 0 else S (fits amb utf8 end_ cells (cx + w + 1) entries)
  end.

(** The widest labels that cost no entry; the fuel is the number of widths tried. *)
Fixpoint stretch (fuel : nat) (fit : Z -> nat) (shown : nat) (label c : Z) : Z :=
  match fuel with
  | O => label
  | S fuel => if Nat.ltb (fit c) shown then label else stretch fuel fit shown c (c + 1)
  end.

Definition entry_item (amb utf8 : bool) (i : Z) (e : panel_entry) (r : rect) (t : bytes) : item :=
  let live := 0 <? count e in
  Item (if live then PTask else PPinned) (if live then i else catalog_index e) (target e) (e_focused e) r t.

Fixpoint place (amb utf8 : bool) (label y x i : Z) (entries : list panel_entry) : list item :=
  match entries with
  | [] => []
  | e :: entries =>
      let t := entry_text amb utf8 e label in
      let cw := text_cells amb t in
      entry_item amb utf8 i e (Rect x y cw 1) t :: place amb utf8 label y (x + cw + 1) (i + 1) entries
  end.

Definition overflow_text (utf8 : bool) (hidden : Z) : bytes := (if utf8 then [0xC2; 0xBB] else str ">") ++ to_string hidden.

Definition longest_label (amb : bool) (entries : list panel_entry) : Z :=
  fold_left (fun m e => Z.max m (text_cells amb (label e))) entries kLabelCells.

Definition layout_horizontal (amb : bool) (p : panel) (entries : list panel_entry) : list item :=
  let y := ry (p_rect p) in
  let utf8 := p_utf8 p in
  let right := rx (p_rect p) + rw (p_rect p) in
  let clock_x := right - kClockCells - 1 in
  let clock := Item PClock (-1) 0 false (Rect clock_x y kClockCells 1) [] in
  let clock_left := if update_badge p then clock_x - 2 else clock_x in
  let badge := if update_badge p
    then [Item PUpdate (-1) 0 false (Rect (clock_x - 2) y 1 1) (update_glyph utf8)] else [] in
  let x := rx (p_rect p) + 1 in
  let menu := menu_text utf8 in
  let menu_w := text_cells amb menu in
  let button := Item PMenuButton (-1) 0 false (Rect x y menu_w 1) menu in
  let start_x := x + menu_w + 1 in
  let total := length entries in
  let fit end_ cells := fits amb utf8 end_ cells start_x entries in
  let hint_w := if bool_decide (hint p = []) then 0 else text_cells amb (hint p) in
  let show_hint := (0 <? hint_w) && Nat.eqb (fit (clock_left - 1 - hint_w - 1) kLabelCells) total in
  let end0 := if show_hint then clock_left - 1 - hint_w - 1 else clock_left - 1 in
  let folded := Nat.ltb (fit end0 kLabelCells) total in
  let over_w := 1 + zlen (to_string (Z.of_nat total)) in
  let end_ := if folded then clock_left - 1 - over_w - 1 else end0 in
  let shown := fit end_ kLabelCells in
  let longest := longest_label amb entries in
  let label := stretch (Z.to_nat (longest - kLabelCells)) (fit end_) shown kLabelCells (kLabelCells + 1) in
  let hidden := Z.of_nat total - Z.of_nat shown in
  let t := overflow_text utf8 hidden in
  let w := text_cells amb t in
  (clock :: badge) ++ button :: place amb utf8 label y start_x 0 (take shown entries)
  ++ (if 0 <? hidden then [Item POverflow hidden 0 false (Rect (clock_left - 1 - w) y w 1) t] else [])
  ++ (if show_hint then [Item PHint (-1) 0 false (Rect (clock_left - 1 - hint_w) y hint_w 1) (hint p)] else []).

Fixpoint place_rows (amb utf8 : bool) (cells x w y i : Z) (entries : list panel_entry) : list item :=
  match entries with
  | [] => []
  | e :: entries =>
      entry_item amb utf8 i e (Rect x y w 1) (entry_text amb utf8 e cells)
      :: place_rows amb utf8 cells x w (y + 1) (i + 1) entries
  end.

Definition layout_vertical (amb : bool) (p : panel) (entries : list panel_entry) : list item :=
  let x := rx (p_rect p) in
  let w := rw (p_rect p) in
  let utf8 := p_utf8 p in
  let bottom := ry (p_rect p) + rh (p_rect p) in
  let clock_h := if 3 <=? rh (p_rect p) then 2 else 1 in
  let clock := Item PClock (-1) 0 false (Rect x (bottom - clock_h) w clock_h) [] in
  let badge_h := if update_badge p && (clock_h + 2 <=? rh (p_rect p)) then 1 else 0 in
  let badge := if 0 <? badge_h
    then [Item PUpdate (-1) 0 false (Rect x (bottom - clock_h - 1) w 1) (update_glyph utf8)] else [] in
  let y := ry (p_rect p) in
  let button := Item PMenuButton (-1) 0 false (Rect x y w 1) (menu_text utf8) in
  let y := y + 1 in
  let total := zlen entries in
  let room := Z.max 0 (bottom - clock_h - badge_h - y) in
  let hint_w := if bool_decide (hint p = []) then 0 else text_cells amb (hint p) in
  let show_hint := (0 <? hint_w) && (hint_w <=? w) && (total <=? room - 1) in
  let room := if show_hint then room - 1 else room in
  let room := if room <? total then Z.max 0 (room - 1) else room in
  let shown := Z.min total room in
  let hidden := total - shown in
  (clock :: badge) ++ button :: place_rows amb utf8 (w - 2) x w y 0 (take (Z.to_nat shown) entries)
  ++ (if 0 <? hidden then [Item POverflow hidden 0 false (Rect x (y + shown) w 1) (overflow_text utf8 hidden)] else [])
  ++ (if show_hint then [Item PHint (-1) 0 false (Rect x (bottom - clock_h - badge_h - 1) w 1) (hint p)] else []).

Definition with_items (p : panel) (r : rect) (utf8 : bool) (l : list item) : panel :=
  Panel (edge p) r utf8 (hint p) (update_badge p) l.

Definition layout {A} (amb : bool) (p : panel) (wm : manager A) (cols rows : Z) (utf8 : bool) : panel :=
  let r := rect_for p cols rows in
  let p := with_items p r utf8 [] in
  if (rw r <=? 0) || (rh r <=? 0) then p
  else
    with_items p r utf8
      (if horizontal p then layout_horizontal amb p (build_entries wm) else layout_vertical amb p (build_entries wm)).

(** ** Drawing and clicking *)

Definition draw_item (amb : bool) (v : view) (base hot : style) (clock_text date_text : bytes) (s : surface) (it : item) : surface :=
  let r := it_r it in
  if bool_decide (it_what it = PClock) then
    if 2 <=? rh r then
      fst (text amb v (fst (text amb v s (rx r + 1) (ry r) date_text base)) (rx r + 1) (ry r + 1) clock_text base)
    else fst (text amb v s (rx r + Z.max 0 (kClockCells - text_cells amb clock_text)) (ry r) clock_text base)
  else
    let highlit := it_focused it || bool_decide (it_what it = PHint) || bool_decide (it_what it = PUpdate) in
    fst (text amb v s (rx r) (ry r) (it_text it) (if highlit then hot else base)).

Definition draw_panel (amb : bool) (p : panel) (v : view) (s : surface) (th : theme) (clock_text date_text : bytes) : surface :=
  let base := Style (panel_fg th) (panel_bg th) 0 in
  let hot := Style (accent th) (panel_bg th) 0 in
  fold_left (draw_item amb v base hot clock_text date_text) (items p) (fill v s (p_rect p) base).

Definition hit (p : panel) (x y : Z) : panel_hit_result :=
  if negb (contains (p_rect p) x y) then PanelHitResult PNone (-1) 0
  else
    match List.find (fun it => contains (it_r it) x y) (items p) with
    | Some it => PanelHitResult (it_what it) (it_index it) (it_win it)
    | None => PanelHitResult PBody (-1) 0
    end.

Definition demo_bar : manager unit :=
  let w i t a := Window i t a (Rect 0 0 10 5) (Rect 0 0 10 5) Normal Normal tt (Size 8 3) false in
  Manager [w 1 (str "build") (str "terminal"); w 2 (str "notes.txt") (str "editeur"); w 3 (str "logs") (str "terminal")] 4 3 0.

Example panel_demo :
  let p := layout false (set_hint panel_new (str "Ctrl+A ?")) demo_bar 80 24 false in
  it_text <$> items p = [[]; str "termos"; str "*Terminal(2)"; str " Fichiers"; str "onotes.txt"; str "Ctrl+A ?"] /\
  hit p 10 23 = PanelHitResult PTask 0 1 /\ hit p 24 23 = PanelHitResult PPinned 1 0 /\ hit p 24 22 = PanelHitResult PNone (-1) 0.
Proof. vm_compute. by split_and!. Qed.

(** ** Every window is in the bar *)

Section Accounts.
Context {A : Type}.
Implicit Types (l stack : list (window A)) (wd : window A) (wm : manager A).

Lemma gather_ids cur belongs l g :
  g_ids (fold_left (gather_one cur belongs) l g) = g_ids g ++ ids (List.filter belongs l).
Proof.
  revert g. induction l as [|wd l IH]; intros g; cbn [fold_left List.filter]; [by rewrite app_nil_r|].
  rewrite IH. unfold gather_one. destruct (belongs wd); cbn [negb g_ids]; [|done]. by rewrite <- app_assoc.
Qed.

(** The count of an entry is the number of its windows, and its target is one. *)
Lemma gather_spec cur stack e belongs :
  let e' := gather cur stack e belongs in
  count e' = zlen (List.filter belongs stack) /\
  (0 < count e' -> exists wd, wd ∈ stack /\ belongs wd = true /\ id wd = target e').
Proof.
  cbv zeta. unfold gather. set (g := fold_left _ _ _).
  assert (g_ids g = ids (List.filter belongs stack)) as Hids by (subst g; by rewrite gather_ids).
  assert (g_at g < zlen (g_ids g) \/ g_at g < 0) as Hat.
  { assert (forall g0, (g_at g0 < zlen (g_ids g0) \/ g_at g0 < 0) ->
      let g1 := fold_left (gather_one cur belongs) stack g0 in g_at g1 < zlen (g_ids g1) \/ g_at g1 < 0) as H.
    { clear. induction stack as [|wd l IH]; intros g Hg; cbn [fold_left]; [done|]. apply IH.
      unfold gather_one. destruct (belongs wd); cbn [negb g_ids g_at]; [|done]. rewrite zlen_app, zlen_cons, zlen_nil.
      destruct (_ =? _); lia. }
    apply H. right. by cbn. }
  assert (zlen (g_ids g) = zlen (List.filter belongs stack)) as Hn by (unfold zlen, ids in *; by rewrite Hids, length_fmap).
  pose proof (zlen_nonneg (g_ids g)) as H0.
  destruct (Z.eqb_spec (zlen (g_ids g)) 0) as [E|N]; cbn [count target]; [split; [done|lia]|].
  split; [done|]. intros _.
  assert (exists i, (if 0 <=? g_at g then g_ids g !! Z.to_nat (Z.rem (g_at g + 1) (zlen (g_ids g)))
    else g_ids g !! Nat.pred (length (g_ids g))) = Some i) as [i Hi].
  { destruct (Z.leb_spec 0 (g_at g)); apply lookup_lt_is_Some_2; unfold zlen in *; [|lia].
    pose proof (Z.rem_bound_pos (g_at g + 1) (Z.of_nat (length (g_ids g)))). lia. }
  rewrite Hi. assert (i ∈ g_ids g) as Hin by (destruct (0 <=? g_at g); by eapply list_elem_of_lookup_2).
  rewrite Hids in Hin. unfold ids in Hin. apply list_elem_of_fmap in Hin as (wd & -> & Hw).
  apply list_elem_of_In, List.filter_In in Hw as [Hw Hb]. exists wd. split_and!; [by apply list_elem_of_In|done|done].
Qed.

Definition total_count (es : list panel_entry) : Z := fold_right (fun e n => count e + n) 0 es.

Lemma total_count_app a b : total_count (a ++ b) = total_count a + total_count b.
Proof. unfold total_count. induction a as [|e a IH]; cbn in *; [done|]. lia. Qed.

(** A window of the catalogue is counted by exactly one of its entries. *)
Lemma catalog_counts cur stack ci cs :
  NoDup (cat_id <$> cs) ->
  total_count (catalog_entries cur stack ci cs)
  = zlen (List.filter (fun wd => existsb (fun c => bool_decide (app_id wd = cat_id c)) cs) stack).
Proof.
  revert ci. induction cs as [|c cs IH]; intros ci Hnd; cbn [catalog_entries total_count fold_right].
  { induction stack; [done|]. done. }
  cbn [fmap list_fmap] in Hnd. apply list.NoDup_cons in Hnd as [Hc Hnd].
  fold (total_count (catalog_entries cur stack (ci + 1) cs)). rewrite IH by done. rewrite (proj1 (gather_spec _ _ _ _)).
  clear IH. induction stack as [|wd l IHl]; [done|]. cbn [List.filter existsb] in *.
  case_bool_decide as E; cbn [orb].
  - replace (existsb _ cs) with false; [rewrite !zlen_cons; lia|]. symmetry. apply not_true_is_false. intros H.
    apply existsb_exists in H as (c' & Hin & H). apply bool_decide_eq_true in H. apply Hc.
    rewrite <- E, H. apply list_elem_of_fmap. exists c'. split; [done|]. by apply list_elem_of_In.
  - destruct (existsb _ cs); [rewrite !zlen_cons|]; lia.
Qed.

Lemma filter_id l wd : NoDup (ids l) -> wd ∈ l -> List.filter (fun o => id o =? id wd) l = [wd].
Proof.
  intros Hnd Hin. apply list_elem_of_split in Hin as (l1 & l2 & ->). unfold ids in Hnd. rewrite fmap_app, fmap_cons in Hnd.
  apply list.NoDup_app in Hnd as (_ & H1 & H2). apply list.NoDup_cons in H2 as [H2 _].
  assert (forall l', id wd ∉ id <$> l' -> List.filter (fun o => id o =? id wd) l' = []) as H.
  { induction l' as [|o l' IH]; [done|]. cbn. rewrite not_elem_of_cons. intros [Ho Hl']. zrw_false (id o =? id wd). by apply IH. }
  rewrite List.filter_app. cbn [List.filter]. rewrite Z.eqb_refl, (H l2 H2), H; [done|].
  intros Hi. apply (H1 _ Hi). by left.
Qed.

Lemma other_counts cur stack sub : NoDup (ids stack) -> incl sub stack ->
  total_count (other_entry cur stack <$> sub) = zlen sub.
Proof.
  intros Hnd. induction sub as [|wd sub IH]; intros Hs; [done|]. cbn [fmap list_fmap total_count fold_right].
  fold (total_count (other_entry cur stack <$> sub)). apply incl_cons_inv in Hs as [Hw Hs].
  rewrite IH by done. unfold other_entry. rewrite (proj1 (gather_spec _ _ _ _)), filter_id; [|done|by apply list_elem_of_In].
  by rewrite !zlen_cons.
Qed.

Lemma filter_partition (f : window A -> bool) l :
  zlen (List.filter f l) + zlen (List.filter (fun wd => negb (f wd)) l) = zlen l.
Proof. induction l as [|wd l IH]; [done|]. cbn. destruct (f wd); cbn [negb]; rewrite !zlen_cons; lia. Qed.

Lemma catalog_no_dup : NoDup (cat_id <$> catalog).
Proof. apply (bool_decide_unpack (NoDup (cat_id <$> catalog))). by vm_compute. Qed.

(** C39: no window is missing from the bar and none is there twice.  When identifiers
    are unique, as the manager keeps them, the counts of the entries add up to the
    number of windows; every entry of the catalogue is in it, at its own place,
    whatever is open; and an entry that counts a window targets one of the desktop. *)
Theorem bar_accounts_for_windows wm :
  NoDup (ids (stack wm)) ->
  let es := build_entries wm in
  total_count es = zlen (stack wm) /\
  (forall i c, catalog !! i = Some c -> exists e, es !! i = Some e /\ catalog_index e = Z.of_nat i) /\
  Forall (fun e => 0 < count e -> target e ∈ ids (stack wm)) es.
Proof.
  intros Hnd. cbv zeta. unfold build_entries. split_and!.
  - rewrite total_count_app, catalog_counts, other_counts by (done || apply catalog_no_dup || apply List.incl_filter).
    apply (filter_partition known).
  - assert (forall cs ci i c, cs !! i = Some c -> exists e,
      catalog_entries (focused wm) (stack wm) ci cs !! i = Some e /\ catalog_index e = ci + Z.of_nat i) as H.
    { induction cs as [|c' cs IH]; intros ci i c Hi; [done|]. destruct i as [|i]; cbn [catalog_entries].
      - eexists. split; [done|]. unfold gather. destruct (_ =? 0); cbn; lia.
      - destruct (IH (ci + 1) i c Hi) as (e & He & E). exists e. split; [done|lia]. }
    intros i c Hi. destruct (H catalog 0 i c Hi) as (e & He & E). exists e. split; [|done].
    by apply lookup_app_l_Some.
  - assert (forall e b, 0 < count (gather (focused wm) (stack wm) e b) ->
      target (gather (focused wm) (stack wm) e b) ∈ ids (stack wm)) as H.
    { intros e b He. destruct (proj2 (gather_spec _ _ _ _) He) as (wd & Hw & _ & <-). unfold ids. apply list_elem_of_fmap. by exists wd. }
    apply Forall_app. split.
    + assert (forall cs ci, Forall (fun e => 0 < count e -> target e ∈ ids (stack wm))
        (catalog_entries (focused wm) (stack wm) ci cs)) as Hc; [|apply Hc].
      induction cs as [|c cs IH]; intros ci; constructor; [apply H|apply IH].
    + apply List.Forall_forall. intros e He. apply in_map_iff in He as (wd & <- & _). apply H.
Qed.


Lemma build_entries_length wm :
  (length catalog <= length (build_entries wm) <= length catalog + length (stack wm))%nat.
Proof.
  unfold build_entries. rewrite length_app, length_fmap.
  assert (forall cs ci, length (catalog_entries (focused wm) (stack wm) ci cs) = length cs) as ->.
  { induction cs as [|c cs IH]; intros ci; cbn; [done|]. by rewrite IH. }
  pose proof (List.filter_length_le (fun wd => negb (known wd)) (stack wm)). lia.
Qed.

End Accounts.

(** ** What is clicked is what is drawn *)

(** No cell in common. *)
Definition apart (a b : item) : Prop := forall x y, contains (it_r a) x y = true -> contains (it_r b) x y = false.

Definition left_of (a b : item) : Prop := rx (it_r a) + rw (it_r a) <= rx (it_r b).
Definition above (a b : item) : Prop := ry (it_r a) + rh (it_r a) <= ry (it_r b).

Lemma apart_sym a b : apart a b -> apart b a.
Proof. intros H x y Hb. destruct (contains (it_r a) x y) eqn:E; [|done]. by rewrite (H x y E) in Hb. Qed.

Lemma left_apart a b : left_of a b -> apart a b.
Proof.
  unfold left_of, apart, contains. intros H x y. rewrite !andb_true_iff, !andb_false_iff, !Z.leb_le, !Z.ltb_lt, !Z.leb_gt. lia.
Qed.

Lemma above_apart a b : above a b -> apart a b.
Proof.
  unfold above, apart, contains. intros H x y. rewrite !andb_true_iff, !andb_false_iff, !Z.leb_le, !Z.ltb_lt, !Z.leb_gt, !Z.ltb_ge. lia.
Qed.

Definition separated (l : list item) : Prop := forall a b, a ∈ l -> b ∈ l -> a = b \/ apart a b.

(** An item drawn among items apart is the one a click finds. *)
Lemma find_separated l it x y :
  separated l -> it ∈ l -> contains (it_r it) x y = true ->
  List.find (fun it => contains (it_r it) x y) l = Some it.
Proof.
  intros Hs Hin Hc. destruct (List.find _ l) as [it'|] eqn:E.
  - apply List.find_some in E as [Hin' E]. apply list_elem_of_In in Hin'.
    destruct (Hs it' it Hin' Hin) as [->|H]; [done|]. by rewrite (H x y E) in Hc.
  - apply list_elem_of_In in Hin. by rewrite (List.find_none _ _ E it Hin) in Hc.
Qed.

(** Items one after the other, between two lines or two columns. *)
Section Chains.
Context (from upto : item -> Z).

Fixpoint chain (x end_ : Z) (l : list item) : Prop :=
  match l with
  | [] => x <= end_
  | it :: l => x <= from it /\ from it <= upto it /\ chain (upto it) end_ l
  end.

Lemma chain_le x e l : chain x e l -> x <= e.
Proof. revert x. induction l as [|it l IH]; intros x; cbn; [done|]. intros (H1 & H2 & H). apply IH in H. lia. Qed.

Lemma chain_from x x' e l : x' <= x -> chain x e l -> chain x' e l.
Proof. destruct l; cbn; [lia|]. intros Hx (? & ? & ?). split_and!; [lia|done..]. Qed.

Lemma chain_app x e x' e' l1 l2 : chain x e l1 -> e <= x' -> chain x' e' l2 -> chain x e' (l1 ++ l2).
Proof.
  intros H1 He H2. revert x H1. induction l1 as [|it l1 IH]; intros x H1; cbn in H1 |- *.
  - apply (chain_from x'); [lia|done].
  - destruct H1 as (? & ? & H1). split_and!; [done..|]. by apply IH.
Qed.

Lemma chain_in x e l it : chain x e l -> it ∈ l -> x <= from it /\ from it <= upto it /\ upto it <= e.
Proof.
  revert x. induction l as [|a l IH]; intros x Hc Hin; [by apply not_elem_of_nil in Hin|].
  destruct Hc as (H1 & H2 & Hc). apply elem_of_cons in Hin as [->|Hin].
  - apply chain_le in Hc. lia.
  - apply (IH _ Hc) in Hin. lia.
Qed.

Lemma chain_separated x e l : (forall a b, upto a <= from b -> apart a b) -> chain x e l -> separated l.
Proof.
  intros Hap. revert x. induction l as [|it l IH]; intros x; [intros _ a b Ha; by apply not_elem_of_nil in Ha|].
  intros (_ & _ & Hc) a b Ha Hb. apply elem_of_cons in Ha as [->|Ha]; apply elem_of_cons in Hb as [->|Hb].
  - by left.
  - right. apply Hap. by apply (chain_in _ _ _ _ Hc Hb).
  - right. apply apart_sym, Hap. by apply (chain_in _ _ _ _ Hc Ha).
  - by apply (IH _ Hc).
Qed.
End Chains.

Lemma separated_perm l l' : l ≡ₚ l' -> separated l -> separated l'.
Proof. intros Hp H a b Ha Hb. apply H; by rewrite Hp. Qed.

Definition it_left (it : item) : Z := rx (it_r it).
Definition it_right (it : item) : Z := rx (it_r it) + rw (it_r it).
Definition it_top (it : item) : Z := ry (it_r it).
Definition it_bottom (it : item) : Z := ry (it_r it) + rh (it_r it).

(** ** Along a row *)

Lemma place_chain amb utf8 end_ label y x0 x i es :
  (length es <= fits amb utf8 end_ label x es)%nat -> x0 <= x -> x0 <= end_ ->
  chain it_left it_right x0 end_ (place amb utf8 label y x i es).
Proof.
  revert x0 x i. induction es as [|e es IH]; intros x0 x i Hf Hx He; cbn [place fits length] in *; [done|].
  set (cw := text_cells amb (entry_text amb utf8 e label)) in *. pose proof (text_cells_nonneg amb (entry_text amb utf8 e label)).
  destruct (Z.ltb_spec end_ (x + cw)); [lia|]. split_and!; unfold it_left, it_right; cbn [entry_item it_r rx rw]; [lia|fold cw; lia|].
  apply IH; fold cw; lia.
Qed.

Lemma fits_take amb utf8 end_ label x es k :
  (k <= fits amb utf8 end_ label x es)%nat -> (length (take k es) <= fits amb utf8 end_ label x (take k es))%nat.
Proof.
  revert x k. induction es as [|e es IH]; intros x k Hk; [by rewrite take_nil|].
  destruct k as [|k]; [cbn; lia|]. cbn [take fits length] in *. destruct (_ <? _); [lia|]. apply le_n_S, IH. lia.
Qed.

Lemma fits_le amb utf8 end_ label x es : (fits amb utf8 end_ label x es <= length es)%nat.
Proof. revert x. induction es as [|e es IH]; intros x; cbn; [lia|]. destruct (_ <? _); [lia|]. specialize (IH (x + text_cells amb (entry_text amb utf8 e label) + 1)). lia. Qed.

Lemma fits_all_le amb utf8 end_ label x e es : fits amb utf8 end_ label x (e :: es) <> 0%nat -> x <= end_.
Proof.
  cbn. pose proof (text_cells_nonneg amb (entry_text amb utf8 e label)).
  destruct (Z.ltb_spec end_ (x + text_cells amb (entry_text amb utf8 e label))); [done|lia].
Qed.

Lemma stretch_keeps fuel (fit : Z -> nat) shown label c :
  (shown <= fit label)%nat -> (shown <= fit (stretch fuel fit shown label c))%nat.
Proof.
  revert label c. induction fuel as [|fuel IH]; intros label c Hl; cbn [stretch]; [done|].
  destruct (Nat.ltb_spec (fit c) shown); [done|]. by apply IH.
Qed.

(** The bar holds at most [kMaxWindows] windows and three applications. *)
Definition kMaxEntries : nat := 67.

Lemma menu_text_cells amb utf8 : 0 <= text_cells amb (menu_text utf8) <= 9.
Proof. destruct amb, utf8; by vm_compute. Qed.

Lemma overflow_cells amb utf8 h t : 0 <= h <= t -> t <= Z.of_nat kMaxEntries ->
  text_cells amb (overflow_text utf8 h) <= 2 + zlen (to_string t) /\ zlen (to_string t) <= 2.
Proof.
  intros Hh Ht.
  assert (forallb (fun t => forallb (fun h => text_cells amb (overflow_text utf8 (Z.of_nat h)) <=? 2 + zlen (to_string (Z.of_nat t))) (seq 0 (S t))
    && (zlen (to_string (Z.of_nat t)) <=? 2)) (seq 0 (S kMaxEntries)) = true) as H by (destruct amb, utf8; by vm_compute).
  rewrite forallb_forall in H. specialize (H (Z.to_nat t) ltac:(apply in_seq; lia)). apply andb_true_iff in H as [H H2].
  rewrite forallb_forall in H. specialize (H (Z.to_nat h) ltac:(apply in_seq; lia)).
  rewrite !Z2Nat.id in H by lia. rewrite !Z2Nat.id in H2 by lia. lia.
Qed.

Definition bar_item (p : panel) (it : item) : Prop := inside_rect (it_r it) (p_rect p) /\ it_what it <> PNone.

Lemma place_items amb utf8 label y x i es :
  Forall (fun it => ry (it_r it) = y /\ rh (it_r it) = 1 /\ it_what it <> PNone) (place amb utf8 label y x i es).
Proof.
  revert x i. induction es as [|e es IH]; intros x i; cbn [place]; constructor; [|apply IH].
  cbn [entry_item it_r ry rh it_what]. by destruct (0 <? count e).
Qed.

Lemma in_row p x e l :
  chain it_left it_right x e l -> rx (p_rect p) <= x -> e <= rx (p_rect p) + rw (p_rect p) -> rh (p_rect p) = 1 ->
  Forall (fun it => ry (it_r it) = ry (p_rect p) /\ rh (it_r it) = 1 /\ it_what it <> PNone) l -> Forall (bar_item p) l.
Proof.
  intros Hc Hx He Hh Hl. rewrite List.Forall_forall in Hl |- *. intros it Hin. destruct (Hl it Hin) as (H1 & H2 & H3).
  apply list_elem_of_In in Hin. apply (chain_in _ _ _ _ _ _ Hc) in Hin. unfold it_left, it_right in Hin.
  split; [|done]. unfold inside_rect. lia.
Qed.

Lemma horizontal_separated amb p es :
  horizontal p = true -> rh (p_rect p) = 1 -> 24 <= rw (p_rect p) -> (1 <= length es <= kMaxEntries)%nat ->
  separated (layout_horizontal amb p es) /\ Forall (bar_item p) (layout_horizontal amb p es).
Proof.
  intros _ Hh Hw Hes. unfold layout_horizontal. cbv zeta.
  pose proof (menu_text_cells amb (p_utf8 p)) as Hm. set (menu_w := text_cells amb (menu_text (p_utf8 p))) in *.
  set (X := rx (p_rect p)). set (Y := ry (p_rect p)). set (W := rw (p_rect p)) in *. unfold kClockCells.
  set (clock_left := if update_badge p then X + W - 5 - 1 - 2 else X + W - 5 - 1).
  assert (X + W - 8 <= clock_left <= X + W - 6) as Hcl by (subst clock_left; destruct (update_badge p); lia).
  set (fit := fits amb (p_utf8 p)).
  set (hint_w := if bool_decide (hint p = []) then 0 else text_cells amb (hint p)).
  set (show := (0 <? hint_w) && _).
  set (end0 := if show then clock_left - 1 - hint_w - 1 else clock_left - 1). set (folded := Nat.ltb (fit end0 kLabelCells _ es) (length es)).
  set (end_ := if folded then clock_left - 1 - (1 + zlen (to_string (Z.of_nat (length es)))) - 1 else end0). set (shown := fit end_ kLabelCells _ es).
  set (hidden := Z.of_nat (length es) - Z.of_nat shown).
  assert (shown <= length es)%nat as Hsh by apply fits_le.
  destruct (overflow_cells amb (p_utf8 p) hidden (Z.of_nat (length es)) ltac:(lia) ltac:(lia)) as [Ho1 Ho2].
  set (label := stretch _ _ _ _ _).
  assert (shown <= fit end_ label (X + 1 + menu_w + 1)%Z es)%nat as Hlab.
  { by apply (stretch_keeps _ (fun cells => fit end_ cells (X + 1 + menu_w + 1) es)). }
  assert (X + 1 + menu_w + 1 <= end_ /\ end_ <= clock_left - 1 /\
    (0 < hidden -> show = false /\ end_ <= clock_left - 1 - text_cells amb (overflow_text (p_utf8 p) hidden)) /\
    (show = true -> end_ = clock_left - 1 - hint_w - 1 /\ 0 < hint_w)) as (E1 & E2 & E3 & E4).
  { pose proof (zlen_nonneg (to_string (Z.of_nat (length es)))).
    destruct es as [|e0 es0]; [cbn in Hes; lia|].
    destruct (Bool.bool_dec show true) as [Es|Es].
    - assert (end0 = clock_left - 1 - hint_w - 1) as E0 by (unfold end0; by rewrite Es).
      pose proof Es as Es'. unfold show in Es'. apply andb_true_iff in Es' as [Eh Ef]. zbool. apply Nat.eqb_eq in Ef.
      assert (folded = false) as Efo by (unfold folded; rewrite E0, Ef; apply Nat.ltb_irrefl).
      assert (end_ = clock_left - 1 - hint_w - 1) as Ee by (unfold end_; by rewrite Efo).
      assert (shown = length (e0 :: es0)) as Esh by (unfold shown; by rewrite Ee).
      split_and!; [|lia|unfold hidden; rewrite Esh; lia|lia].
      rewrite Ee. apply (fits_all_le amb (p_utf8 p) (clock_left - 1 - hint_w - 1) kLabelCells _ e0 es0).
      change (fit (clock_left - 1 - hint_w - 1) kLabelCells (X + 1 + menu_w + 1) (e0 :: es0) <> 0%nat). by rewrite Ef.
    - apply not_true_is_false in Es. assert (end0 = clock_left - 1) as E0 by (unfold end0; by rewrite Es).
      destruct folded eqn:Efo.
      + assert (end_ = clock_left - 1 - (1 + zlen (to_string (Z.of_nat (length (e0 :: es0))))) - 1) as Ee by done.
        split_and!; [lia|lia| |by rewrite Es]. intros _. split; [done|lia].
      + assert (end_ = end0) as Ee by done.
        assert (hidden <= 0) as Hh0.
        { apply Nat.ltb_ge in Efo. assert (shown = fit end0 kLabelCells (X + 1 + menu_w + 1) (e0 :: es0)) as Esh by done.
          unfold hidden. rewrite Esh. lia. }
        split_and!; [lia|lia|lia|by rewrite Es]. }
  set (over := if 0 <? hidden then [Item POverflow _ _ _ _ _] else []). set (hints := if show then [Item PHint _ _ _ _ _] else []).
  set (placed := place _ _ _ _ _ _ _). set (badge := if update_badge p then [Item PUpdate _ _ _ _ _] else []).
  set (clock := Item PClock _ _ _ _ _). set (button := Item PMenuButton _ _ _ _ _).
  assert (chain it_left it_right (X + 1) (X + W) (button :: placed ++ over ++ hints ++ badge ++ [clock])) as Hc.
  { split_and!; unfold it_left, it_right; cbn [button it_r rx rw]; [lia|lia|].
    apply (chain_app _ _ _ end_ end_); [apply place_chain; [apply fits_take, Hlab|lia|lia]|lia|].
    rewrite app_assoc. apply (chain_app _ _ _ (clock_left - 1) (clock_left - 1)); [|lia|].
    { subst over hints. destruct show.
      - destruct (E4 eq_refl). assert (hidden <= 0) by (destruct (Z_lt_le_dec 0 hidden) as [Hp|]; [by destruct (E3 Hp)|done]).
        zrw_false (0 <? hidden).
        cbn. lia.
      - rewrite app_nil_r. destruct (Z.ltb_spec 0 hidden) as [Hp|Hp]; [|cbn; lia]. destruct (E3 Hp).
        cbn.
        pose proof (text_cells_nonneg amb (overflow_text (p_utf8 p) hidden)). lia. }
    subst badge clock clock_left. destruct (update_badge p); cbn; lia. }
  assert (button :: placed ++ over ++ hints ++ badge ++ [clock] ≡ₚ (clock :: badge) ++ button :: placed ++ over ++ hints) as Hp.
  { transitivity ((badge ++ [clock]) ++ button :: placed ++ over ++ hints).
    - rewrite (Permutation_app_comm (badge ++ [clock])), <- app_comm_cons, <- !(assoc_L (++)). done.
    - by rewrite <- Permutation_cons_append. }
  split; [eapply separated_perm; [exact Hp|]; eapply (chain_separated it_left it_right); [|exact Hc]; intros a b; apply left_apart|].
  rewrite <- Hp. eapply in_row; [exact Hc|unfold X; lia|done|done|].
  constructor; [done|]. repeat apply Forall_app_2.
  - apply place_items.
  - subst over. destruct (0 <? hidden); repeat constructor; done.
  - subst hints. destruct show; repeat constructor; done.
  - subst badge. destruct (update_badge p); repeat constructor; done.
  - repeat constructor; done.
Qed.

(** ** Along a column *)

Lemma place_rows_chain amb utf8 cells x w y i es :
  chain it_top it_bottom y (y + zlen es) (place_rows amb utf8 cells x w y i es).
Proof.
  revert y i. induction es as [|e es IH]; intros y i; cbn [place_rows chain]; [rewrite zlen_nil; lia|].
  unfold it_top, it_bottom. cbn [entry_item it_r ry rh]. split_and!; [lia|lia|]. rewrite zlen_cons.
  replace (y + (1 + zlen es)) with (y + 1 + zlen es) by lia. apply IH.
Qed.

Lemma place_rows_items amb utf8 cells x w y i es :
  Forall (fun it => rx (it_r it) = x /\ rw (it_r it) = w /\ it_what it <> PNone) (place_rows amb utf8 cells x w y i es).
Proof.
  revert y i. induction es as [|e es IH]; intros y i; cbn [place_rows]; constructor; [|apply IH].
  cbn [entry_item it_r rx rw it_what]. by destruct (0 <? count e).
Qed.

Lemma in_column p l :
  chain it_top it_bottom (ry (p_rect p)) (ry (p_rect p) + rh (p_rect p)) l ->
  Forall (fun it => rx (it_r it) = rx (p_rect p) /\ rw (it_r it) = rw (p_rect p) /\ it_what it <> PNone) l -> Forall (bar_item p) l.
Proof.
  intros Hc Hl. rewrite List.Forall_forall in Hl |- *. intros it Hin. destruct (Hl it Hin) as (H1 & H2 & H3).
  apply list_elem_of_In in Hin. apply (chain_in _ _ _ _ _ _ Hc) in Hin. unfold it_top, it_bottom in Hin.
  split; [|done]. unfold inside_rect. lia.
Qed.

Lemma vertical_separated amb p es :
  5 <= rh (p_rect p) ->
  separated (layout_vertical amb p es) /\ Forall (bar_item p) (layout_vertical amb p es).
Proof.
  intros Hh. unfold layout_vertical. cbv zeta. zrw_true (3 <=? rh (p_rect p)). zrw_true (2 + 2 <=? rh (p_rect p)).
  rewrite andb_true_r. set (X := rx (p_rect p)). set (Y := ry (p_rect p)). set (W := rw (p_rect p)). set (H := rh (p_rect p)) in *.
  set (badge_h := if update_badge p then 1 else 0).
  assert (badge_h = 0 \/ badge_h = 1) as Hb by (subst badge_h; destruct (update_badge p); auto).
  set (hint_w := if bool_decide (hint p = []) then 0 else text_cells amb (hint p)).
  set (room0 := Z.max 0 (Y + H - 2 - badge_h - (Y + 1))).
  set (show := (0 <? hint_w) && (hint_w <=? W) && (zlen es <=? room0 - 1)).
  set (room1 := if show then room0 - 1 else room0). set (room := if room1 <? zlen es then Z.max 0 (room1 - 1) else room1).
  set (shown := Z.min (zlen es) room). set (hidden := zlen es - shown). pose proof (zlen_nonneg es) as Hn.
  assert (room0 = H - 3 - badge_h) as Er by lia.
  assert (0 <= shown /\ (0 < hidden -> show = false /\ 1 + shown + 1 <= H - 2 - badge_h) /\
          (show = true -> 1 + shown + 1 <= H - 2 - badge_h) /\ 1 + shown <= H - 2 - badge_h) as (E1 & E2 & E3 & E4).
  { subst hidden shown room room1. destruct show eqn:Es.
    - subst show. zbool. destruct (Z.ltb_spec (room0 - 1) (zlen es)); lia.
    - destruct (Z.ltb_spec room0 (zlen es)); split_and!; try lia; try done; intros; split; done || lia. }
  assert (zlen (take (Z.to_nat shown) es) = shown) as El by (unfold zlen in *; rewrite length_take; lia).
  set (over := if 0 <? hidden then [Item POverflow _ _ _ _ _] else []). set (hints := if show then [Item PHint _ _ _ _ _] else []).
  set (placed := place_rows _ _ _ _ _ _ _ _). set (badge := if 0 <? badge_h then [Item PUpdate _ _ _ _ _] else []).
  set (clock := Item PClock _ _ _ _ _). set (button := Item PMenuButton _ _ _ _ _).
  assert (chain it_top it_bottom Y (Y + H) (button :: placed ++ over ++ hints ++ badge ++ [clock])) as Hc.
  { split_and!; unfold it_top, it_bottom; cbn [button it_r ry rh]; [lia|lia|].
    apply (chain_app _ _ _ (Y + 1 + shown) (Y + 1 + shown)); [|lia|].
    { pose proof (place_rows_chain amb (p_utf8 p) (W - 2) X W (Y + 1) 0 (take (Z.to_nat shown) es)) as Hpr.
      rewrite El in Hpr. exact Hpr. }
    rewrite (assoc_L (++)). apply (chain_app _ _ _ (Y + H - 2 - badge_h) (Y + H - 2 - badge_h)); [|lia|].
    { subst over hints. destruct show.
      - assert (hidden <= 0) by (destruct (Z_lt_le_dec 0 hidden) as [Hp|]; [by destruct (E2 Hp)|done]).
        specialize (E3 eq_refl). zrw_false (0 <? hidden). cbn. lia.
      - rewrite app_nil_r. destruct (Z.ltb_spec 0 hidden) as [Hp|Hp]; [|cbn; lia]. destruct (E2 Hp). cbn. lia. }
    subst badge clock. destruct Hb as [-> | ->]; cbn; lia. }
  assert (button :: placed ++ over ++ hints ++ badge ++ [clock] ≡ₚ (clock :: badge) ++ button :: placed ++ over ++ hints) as Hp.
  { transitivity ((badge ++ [clock]) ++ button :: placed ++ over ++ hints).
    - rewrite (Permutation_app_comm (badge ++ [clock])), <- app_comm_cons, <- !(assoc_L (++)). done.
    - by rewrite <- Permutation_cons_append. }
  split; [eapply separated_perm; [exact Hp|]; eapply (chain_separated it_top it_bottom); [|exact Hc]; intros a b; apply above_apart|].
  rewrite <- Hp. eapply in_column; [exact Hc|].
  constructor; [done|]. repeat apply Forall_app_2.
  - apply place_rows_items.
  - subst over. destruct (0 <? hidden); repeat constructor; done.
  - subst hints. destruct show; repeat constructor; done.
  - subst badge. destruct (0 <? badge_h); repeat constructor; done.
  - repeat constructor; done.
Qed.

(** C38: what is clicked in the bar is what is drawn there.  On every edge of a screen
    of at least 24 columns and 5 rows, however many of the 64 windows are open and
    whatever the hint and the badge, each item lies inside the bar and a click on any
    of its cells answers with it and no other; and no click in the bar goes through
    to the desktop. *)
Theorem clicked_is_drawn {A} amb p (wm : manager A) cols rows utf8 :
  (length (stack wm) <= kMaxWindows)%nat -> 24 <= cols -> 5 <= rows ->
  let p' := layout amb p wm cols rows utf8 in
  (forall it, it ∈ items p' ->
     inside_rect (it_r it) (p_rect p') /\
     forall x y, contains (it_r it) x y = true -> hit p' x y = PanelHitResult (it_what it) (it_index it) (it_win it)) /\
  (forall x y, ph_what (hit p' x y) = PNone <-> contains (p_rect p') x y = false).
Proof.
  intros Hs Hc Hr. cbv zeta. set (p' := layout amb p wm cols rows utf8).
  pose proof (build_entries_length wm) as Hlen. change (length catalog) with 3%nat in Hlen. unfold kMaxWindows in Hs.
  assert (separated (items p') /\ Forall (bar_item p') (items p')) as [Hsep Hbar].
  { subst p'. unfold layout. set (q := with_items p (rect_for p cols rows) utf8 []).
    assert ((rw (rect_for p cols rows) <=? 0) = false /\ (rh (rect_for p cols rows) <=? 0) = false) as [-> ->].
    { unfold rect_for, kVerticalCols. destruct (edge p); cbn [rw rh]; rewrite !Z.leb_gt; lia. }
    cbn [orb]. change (horizontal q) with (horizontal p). destruct (horizontal p) eqn:Eh; cbn [items with_items].
    - apply (horizontal_separated amb q); [done|..].
      + cbn [q with_items p_rect]. unfold rect_for, horizontal in *. by destruct (edge p).
      + cbn [q with_items p_rect]. unfold rect_for, horizontal in *. by destruct (edge p); cbn.
      + unfold kMaxEntries. lia.
    - apply (vertical_separated amb q). cbn [q with_items p_rect]. unfold rect_for, horizontal in *. by destruct (edge p); cbn. }
  rewrite List.Forall_forall in Hbar. split.
  - intros it Hin. destruct (Hbar it (proj1 (list_elem_of_In _ _) Hin)) as [Hi _]. split; [done|]. intros x y Hcon.
    unfold hit. rewrite (find_separated _ it x y Hsep Hin Hcon).
    replace (contains (p_rect p') x y) with true; [done|]. symmetry. unfold inside_rect in Hi. unfold contains in *.
    rewrite !andb_true_iff, !Z.leb_le, !Z.ltb_lt in *. lia.
  - intros x y. unfold hit. destruct (contains (p_rect p') x y); cbn [negb]; [|done]. split; [|done].
    destruct (List.find _ _) as [it|] eqn:E; [|done]. apply List.find_some in E as [Hin _].
    cbn [ph_what]. intros H. by destruct (Hbar it Hin).
Qed.

Lemma clicked_is_drawn_witness :
  let p' := layout false (set_hint panel_new (str "Ctrl+A ?")) demo_bar 80 24 true in
  exists it, it ∈ items p' /\ hit p' 12 23 = PanelHitResult (it_what it) (it_index it) (it_win it) /\ it_win it = 1.
Proof.
  cbv zeta. destruct (clicked_is_drawn false (set_hint panel_new (str "Ctrl+A ?")) demo_bar 80 24 true
    ltac:(apply Nat.leb_le; by vm_compute) ltac:(lia) ltac:(lia)) as [H _].
  set (p' := layout _ _ _ _ _ _) in *. set (it := nth 2 (items p') (Item PNone 0 0 false (Rect 0 0 0 0) [])).
  assert (it ∈ items p') as Hin by (apply list_elem_of_In, nth_In, Nat.ltb_lt; by vm_compute).
  exists it. split; [exact Hin|]. split; [apply (H it Hin); by vm_compute|by vm_compute].
Defined.

Lemma bar_accounts_for_windows_witness :
  NoDup (ids (stack demo_bar)) /\ total_count (build_entries demo_bar) = 3.
Proof.
  assert (NoDup (ids (stack demo_bar))) as H by (apply (bool_decide_unpack (NoDup (ids (stack demo_bar)))); by vm_compute).
  split; [exact H|]. apply (bar_accounts_for_windows demo_bar H).
Defined.
