(* ===== verification/Drawn.v ===== *)
(** * Every component draws with the primitives

    [drawn]: a surface that comes from another by drawing on a view.  Each component
    of the desktop is shown to draw so, in the colours of the program; what is known
    of drawings (Surface, Desktop) then holds of all of them. *)

From S2P Require Import Prelude RowPairs Utf8 Cell Width Surface Desktop Theme Shortcuts.
From S2P Require Window Decor Modal Menu Help SnapAssist Panel SysInfo Profile ProcStat.

Section Drawn.
Context (amb : bool).

Definition drawn (v : view) (s s' : surface) : Prop :=
  exists ops, Forall op_ok ops /\ s' = fold_left (draw amb v) ops s.

#[export] Instance drawn_preorder v : PreOrder (drawn v).
Proof.
  split.
  - intros s. exists []. split; [constructor|done].
  - intros s1 s2 s3 (o1 & H1 & ->) (o2 & H2 & ->). exists (o1 ++ o2). rewrite fold_left_app. split; [by apply Forall_app|done].
Qed.

Lemma drawn_one v s o : op_ok o -> drawn v s (draw amb v s o).
Proof. intros Ho. exists [o]. split; [by constructor|done]. Qed.

Lemma drawn_sub v r s s' : drawn (sub v r) s s' -> drawn v s s'.
Proof.
  intros (ops & Ho & ->). apply (drawn_one v s (DrawSub r ops)). cbn [op_ok].
  induction Ho as [|o ops H _ IH]; [done|]. by split.
Qed.

Lemma drawn_text v x s cx cy t st : style_ok st -> drawn v x s -> drawn v x (text amb v s cx cy t st).1.
Proof. intros Hs Hd. etrans; [exact Hd|]. by apply (drawn_one v s (DrawText cx cy t st)). Qed.

Lemma drawn_text_sub v r x s cx cy t st : style_ok st -> drawn v x s -> drawn v x (text amb (sub v r) s cx cy t st).1.
Proof. intros Hs Hd. etrans; [exact Hd|]. eapply drawn_sub. by apply drawn_text. Qed.

Lemma drawn_fill v x s r st : style_ok st -> drawn v x s -> drawn v x (fill v s r st).
Proof. intros Hs Hd. etrans; [exact Hd|]. by apply (drawn_one v s (DrawFill r st)). Qed.

Lemma drawn_box v x s r b st : style_ok st -> drawn v x s -> drawn v x (box amb v s r b st).
Proof. intros Hs Hd. etrans; [exact Hd|]. by apply (drawn_one v s (DrawBox r b st)). Qed.

Lemma drawn_put v x s cx cy ch st : scalar ch -> style_ok st -> drawn v x s -> drawn v x (put amb v s cx cy ch st).
Proof. intros Hc Hs Hd. etrans; [exact Hd|]. by apply (drawn_one v s (DrawPut cx cy ch st)). Qed.

Lemma drawn_fold {B} v x (f : surface -> B -> surface) l s :
  (forall s y, drawn v s (f s y)) -> drawn v x s -> drawn v x (fold_left f l s).
Proof.
  intros Hf. revert s. induction l as [|y l IH]; intros s Hs; [done|]. cbn [fold_left]. apply IH. etrans; [exact Hs|apply Hf].
Qed.

Lemma drawn_ops v x s ops : Forall op_ok ops -> drawn v x s -> drawn v x (fold_left (draw amb v) ops s).
Proof. intros Ho Hd. etrans; [exact Hd|]. by exists ops. Qed.

(** ** What a drawing keeps *)

Lemma drawn_fit v s s' : drawn v s s' -> fit amb s -> fit amb s'.
Proof.
  intros (ops & Ho & ->). revert s. induction Ho as [|o ops H _ IH]; intros s Hs; [done|]. cbn [fold_left].
  by apply IH, fit_draw.
Qed.

Lemma drawn_dims v s s' : drawn v s s' -> surface_ok s -> surface_pairs s ->
  surface_ok s' /\ surface_pairs s' /\ s_w s' = s_w s /\ s_h s' = s_h s.
Proof.
  intros (ops & _ & ->) Hok Hp.
  assert (rtc (write1 v) s (fold_left (draw amb v) ops s)) as H by (apply fold_writes; intros; apply draw_writes).
  induction H as [|s1 s2 s3 Hs _ IH]; [done|].
  destruct (write1_keeps _ _ _ Hs Hok Hp) as (Hok2 & Hp2 & <- & <-). by apply IH.
Qed.

(** ** The colours of the program *)

Definition theme_ok (th : theme) : Prop :=
  Forall color_ok [desktop_bg th; desktop_sign th; panel_bg th; panel_fg th; accent th; title_focus_bg th; title_focus_fg th;
    title_blur_bg th; title_blur_fg th; border_focus th; border_blur th; modal_bg th; modal_fg th].

Lemma theme_ok_profile p : theme_ok (for_profile defaults p).
Proof. unfold for_profile. destruct (Profile.depth p); by apply (bool_decide_unpack _). Qed.

Lemma style_of_colors f b a : color_ok f -> color_ok b -> 0 <= a < 256 -> style_ok (Style f b a).
Proof. intros Hf Hb Ha. split; [exact Hf|]. split; [exact Hb|exact Ha]. Qed.

End Drawn.

(** Draws from the last primitive back to the surface it started from. *)
Ltac color1 := first [assumption | done | cbn; unfold byte_ok; lia].
Ltac style1 :=
  match goal with
  | |- style_ok (if ?b then _ else _) => destruct b; style1
  | |- style_ok (Style _ _ _) => apply style_of_colors; repeat case_match; color1
  | |- _ => assumption
  end.

Ltac drawing1 :=
  match goal with
  | |- drawn _ _ ?s ?s => reflexivity
  | |- drawn _ _ _ (text _ _ _ _ _ _ _).1 => apply drawn_text; [style1|]
  | |- drawn _ ?v _ (text _ (sub ?v _) _ _ _ _ _).1 => apply drawn_text_sub; [style1|]
  | |- drawn _ _ _ (fill _ _ _ _) => apply drawn_fill; [style1|]
  | |- drawn _ _ _ (box _ _ _ _ _ _) => apply drawn_box; [style1|]
  | |- drawn _ _ _ (put _ _ _ _ _ _ _) => apply drawn_put; [by repeat case_match|style1|]
  | |- drawn _ _ _ (fold_left _ _ _) => apply drawn_fold; [intros|]
  | |- drawn _ _ _ (if ?b then _ else _) => destruct b
  | |- drawn _ _ _ (match ?x with _ => _ end) => destruct x
  | H : drawn _ _ ?s ?s' |- drawn _ _ ?s ?s' => exact H
  end.

Ltac drawing := cbv zeta; repeat (drawing1; cbv zeta).

Ltac styles H :=
  let Hc := fresh in pose proof H as Hc; unfold theme_ok in Hc; rewrite !List.Forall_cons_iff in Hc; destruct_and? Hc.

Section Components.
Context (amb : bool) (th : theme) (Hth : theme_ok th).

Abbreviation drawn := (drawn amb).



Lemma drawn_modal m v s b : drawn v s (Modal.draw_modal amb m v s th b).
Proof. styles Hth. unfold Modal.draw_modal, Modal.modal_body, Modal.modal_bar, Modal.with_fg. drawing. Qed.

Lemma drawn_menu m v s b : drawn v s (Menu.draw_menu amb m v s th b).
Proof. styles Hth. unfold Menu.draw_menu, Menu.menu_rows. drawing. Qed.

Lemma drawn_assist a v s b : drawn v s (SnapAssist.draw_assist amb a v s th b).
Proof. styles Hth. unfold SnapAssist.draw_assist. drawing. Qed.

Lemma drawn_panel p v s c d : drawn v s (Panel.draw_panel amb p v s th c d).
Proof. styles Hth. unfold Panel.draw_panel, Panel.draw_item. drawing. Qed.


Lemma drawn_bindings u v r st keys bottom rows x s y : style_ok st -> style_ok keys -> drawn v x s ->
  drawn v x (Help.draw_bindings amb u v r st keys bottom s y rows).1.
Proof.
  intros Hst Hk. revert s y. induction rows as [|row rows IH]; intros s y Hs; [done|]. cbn [Help.draw_bindings].
  destruct (y <? bottom); [|done]. apply IH. unfold Help.draw_binding. drawing.
Qed.

Lemma drawn_directs u v r st keys bottom rows x s y : style_ok st -> style_ok keys -> drawn v x s ->
  drawn v x (Help.draw_directs amb u v r st keys bottom s y rows).
Proof.
  intros Hst Hk. revert s y. induction rows as [|row rows IH]; intros s y Hs; [done|]. cbn [Help.draw_directs].
  destruct (bottom <=? y); [done|]. cbv zeta. apply IH. drawing.
Qed.

Lemma drawn_help hp v s b l u : drawn v s (Help.draw_help amb hp v s th b l u).
Proof.
  styles Hth. unfold Help.draw_help. destruct (negb _); [done|]. cbv zeta.
  match goal with |- context [Help.draw_bindings ?a ?u ?v ?r ?st ?k ?b ?s1 ?y ?l] =>
    assert (drawn v s (Help.draw_bindings a u v r st k b s1 y l).1) as Hb
      by (apply drawn_bindings; [style1|style1|drawing]);
    destruct (Help.draw_bindings a u v r st k b s1 y l) as [s2 y2] end.
  cbn [fst] in Hb. destruct (_ <=? _); [done|]. apply drawn_directs; [style1|style1|drawing].
Qed.

Lemma drawn_decor {A} (wd : Window.window A) v s f b : drawn v s (Decor.draw_decor amb v s wd f th b).
Proof. styles Hth. unfold Decor.draw_decor. cbn [fg bg attrs]. drawing. Qed.

Lemma style_gauge p c : style_ok c -> style_ok (Style (SysInfo.gauge_color p) (bg c) (attrs c)).
Proof. intros (_ & Hb & Ha). apply style_of_colors; [|done..]. unfold SysInfo.gauge_color. by repeat case_match. Qed.

Lemma drawn_frame v x s r t st bg b : style_ok st -> style_ok bg -> drawn v x s -> drawn v x (SysInfo.frame amb v s r t st bg b).
Proof. intros Hst Hbg Hs. unfold SysInfo.frame, SysInfo.put_text. drawing. Qed.

Lemma drawn_counter v x s r t l p st body bg b : style_ok st -> style_ok body -> style_ok bg -> drawn v x s ->
  drawn v x (SysInfo.counter_box amb v s r t l p st body bg b).
Proof.
  intros Hst Hbody Hbg Hs. unfold SysInfo.counter_box, SysInfo.put_text. cbv zeta. pose proof (style_gauge p body Hbody).
  destruct (_ || _); [by apply drawn_frame|]. drawing. by apply drawn_frame.
Qed.

Lemma drawn_rows v x st body bottom s y l : style_ok st -> style_ok body -> drawn v x s ->
  drawn v x (SysInfo.draw_rows amb v st body bottom s y l).
Proof.
  intros Hst Hb. revert s y. induction l as [|r l IH]; intros s y Hs; [done|]. cbn [SysInfo.draw_rows].
  destruct (bottom <=? y); [done|]. apply IH. unfold SysInfo.draw_row, SysInfo.put_text.
  pose proof (style_gauge (ProcStat.r_cpu r) body Hb). drawing.
Qed.

Lemma drawn_sysinfo si v s b : drawn v s (SysInfo.draw_sysinfo amb si v s th b).
Proof.
  styles Hth. unfold SysInfo.draw_sysinfo, SysInfo.put_text. destruct (_ || _); [done|]. cbv zeta.
  repeat (case_match; simplify_eq).
  all: repeat first [apply drawn_rows; [style1|style1|] | apply drawn_frame; [style1|style1|]
    | apply drawn_counter; [style1|style1|style1|] | drawing1].
Qed.

Lemma drawn_banner v s b : drawn v s (SysInfo.draw_banner amb v s th b).
Proof. styles Hth. unfold SysInfo.draw_banner, SysInfo.put_text. drawing. Qed.

End Components.
