(* ===== verification/Config.v ===== *)
(** * The settings: [src/daemon/config.hpp], [src/daemon/config.cpp]

    A file of [key = value] lines, read once and rewritten when a setting changes.
    The disk is what the operating system answers to the three calls of a save and
    the two files it touches. *)

From S2P Require Import Prelude StdString.

Record desktop_config := DesktopConfig { start_dir : bytes }.

Definition blank_front (c : Z) : bool := (c =? 32) || (c =? 9).
Definition blank_back (c : Z) : bool := (c =? 32) || (c =? 9) || (c =? 13).

Fixpoint drop_while (f : Z -> bool) (s : bytes) : bytes :=
  match s with c :: s' => if f c then drop_while f s' else s | [] => [] end.

Definition trim (s : bytes) : bytes :=
  List.rev (drop_while blank_back (List.rev (drop_while blank_front s))).

(** One line; the last assignment of a key wins. *)
Definition parse_line (out : desktop_config) (ligne : bytes) : desktop_config :=
  let net := trim ligne in
  match net with
  | [] => out
  | c :: _ =>
      if c =? 35 then out
      else
        match find_from net [61] 0 with
        | None => out
        | Some egal =>
            let cle := trim (take egal net) in
            let valeur := trim (drop (egal + 1) net) in
            if bool_decide (cle = []) then out
            else if bool_decide (cle = str "start_dir") then DesktopConfig valeur else out
        end
  end.

Definition parse_config (texte : bytes) : desktop_config :=
  fold_left parse_line (lines_from (S (length texte)) texte 0) (DesktopConfig []).

Definition config_header : bytes :=
  str "# Reglages du bureau termos. Modifiable a la main ; le demon le relit" ++ [10]
  ++ str "# a son demarrage et le reecrit quand on change un reglage depuis le" ++ [10]
  ++ str "# bureau. Une ligne inconnue est ignoree, pas effacee au prochain tour." ++ [10].

Definition render_config (c : desktop_config) : bytes :=
  config_header
  ++ (if bool_decide (start_dir c = []) then [] else str "start_dir = " ++ start_dir c ++ [10]).

(** ** The file *)

Record disk := Disk { d_file : option bytes; d_tmp : option bytes }.

(** What the system and the stream answer: the temporary can be opened; how many bytes
    the disk takes; whether the stream writes at the insertion, which is tested, or holds
    the text until its destructor, which tells nothing; the rename succeeds. *)
Record answers := Answers { can_open : bool; stored : nat; at_once : bool; can_rename : bool }.

Definition kMaxConfig : nat := Z.to_nat 65536.

Definition load_config (path : bytes) (d : disk) : desktop_config :=
  if bool_decide (path = []) then DesktopConfig []
  else match d_file d with None => DesktopConfig [] | Some s => parse_config (take kMaxConfig s) end.

(** The directories created on the way: every prefix of the directory that ends a segment. *)
Definition dirs_of (path : bytes) : list bytes :=
  let slashes := List.filter (fun i => byte_at path i =? 47) (seq 0 (length path)) in
  match List.rev slashes with
  | slash :: _ =>
      if (0 <? slash)%nat then
        let dir := take slash path in
        (fun i => take i dir) <$> List.filter (fun i => negb ((i <? length dir)%nat && negb (byte_at dir i =? 47))) (seq 1 (length dir))
      else []
  | [] => []
  end.

Definition save_config (path : bytes) (c : desktop_config) (a : answers) (d : disk) : bool * disk :=
  if bool_decide (path = []) then (false, d)
  else if negb (can_open a) then (false, d)
  else
    let text := render_config c in
    let tmp := take (stored a) text in
    if at_once a && (stored a <? length text)%nat then (false, Disk (d_file d) (Some tmp))
    else if negb (can_rename a) then (false, Disk (d_file d) None)
    else (true, Disk (Some tmp) None).

(** ** The living settings *)

Definition expand_home (p home : bytes) : bytes :=
  match p with
  | 126 :: rest => match rest with [] => home | c :: _ => if c =? 47 then home ++ rest else p end
  | _ => p
  end.

Record settings := Settings { set_path : bytes; set_home : bytes; set_config : desktop_config }.

Definition settings_new (path home : bytes) (d : disk) : settings := Settings path home (load_config path d).

Definition configured (s : settings) : bytes := start_dir (set_config s).

Definition effective_dir (s : settings) : bytes :=
  if bool_decide (configured s = []) then set_home s else expand_home (configured s) (set_home s).

Definition set_start_dir (s : settings) (dir : bytes) (a : answers) (d : disk) : (bool * settings) * disk :=
  let c := DesktopConfig dir in
  let '(ok, d) := save_config (set_path s) c a d in
  ((ok, Settings (set_path s) (set_home s) c), d).

Example config_demo :
  start_dir (parse_config (str "# rien" ++ [10] ++ str "theme = nuit" ++ [10] ++ str " start_dir= ~/dev " ++ [13; 10])) = str "~/dev" /\
  dirs_of (str "/home/u/.config/termos/config") = [str "/home"; str "/home/u"; str "/home/u/.config"; str "/home/u/.config/termos"] /\
  effective_dir (Settings [] (str "/home/u") (DesktopConfig (str "~/dev"))) = str "/home/u/dev".
Proof. vm_compute. by split_and!. Qed.

(** ** What is saved is what is read back *)

Lemma lines_cons fuel line raw pos pre :
  no_newline line -> (length pre = pos)%nat ->
  lines_from (S fuel) (pre ++ line ++ 10 :: raw) pos
  = line :: lines_from fuel (pre ++ line ++ 10 :: raw) (pos + length line + 1).
Proof.
  intros Hl Hp. remember (pre ++ line ++ 10 :: raw) as s eqn:Es.
  assert (length s = (pos + length line + S (length raw))%nat) as El.
  { subst s. rewrite !length_app. cbn [length]. lia. }
  assert (drop pos s = line ++ 10 :: raw) as Ed by (subst s pos; by rewrite drop_app_length).
  cbn [lines_from]. replace (length s <? pos)%nat with false by (symmetry; apply Nat.ltb_ge; lia).
  rewrite (find_from_first s [10] pos (pos + length line)); [|lia| |].
  - rewrite Ed. replace (pos + length line - pos)%nat with (length line) by lia. f_equal. by rewrite take_app_length.
  - rewrite <- drop_drop, Ed, drop_app_length. done.
  - intros m Hm. replace m with (pos + (m - pos))%nat by lia. rewrite <- drop_drop, Ed, drop_app_le by lia.
    rewrite is_prefix_app.
    + apply newline_free; [done|lia].
    + rewrite length_drop. cbn. lia.
Qed.

(** A text of whole lines is cut at its newlines, with an empty last line. *)
Lemma lines_of_lines ls fuel pre :
  Forall no_newline ls -> (length ls < fuel)%nat ->
  lines_from fuel (pre ++ concat ((fun l => l ++ [10]) <$> ls)) (length pre) = ls ++ [[]].
Proof.
  revert fuel pre. induction ls as [|l ls IH]; intros fuel pre Hl Hf; (destruct fuel as [|fuel]; [cbn in Hf; lia|]).
  - cbn [fmap list_fmap concat]. rewrite app_nil_r. cbn [lines_from].
    replace (length pre <? length pre)%nat with false by (symmetry; apply Nat.ltb_irrefl).
    rewrite find_from_none; [by rewrite drop_all|]. intros m Hm. replace m with (length pre) by lia. by rewrite drop_all.
  - apply Forall_cons_1 in Hl as [Hl Hls]. cbn [fmap list_fmap concat]. rewrite <- app_assoc. cbn [app].
    rewrite lines_cons by done. cbn [app]. f_equal.
    replace (pre ++ l ++ 10 :: concat ((fun l => l ++ [10]) <$> ls)) with ((pre ++ l ++ [10]) ++ concat ((fun l => l ++ [10]) <$> ls))
      by (by rewrite <- !app_assoc).
    replace (length pre + length l + 1)%nat with (length (pre ++ l ++ [10])) by (rewrite !length_app; cbn; lia).
    apply IH; [done|]. cbn [length] in Hf. lia.
Qed.

Definition header_lines : list bytes :=
  [str "# Reglages du bureau termos. Modifiable a la main ; le demon le relit";
   str "# a son demarrage et le reecrit quand on change un reglage depuis le";
   str "# bureau. Une ligne inconnue est ignoree, pas effacee au prochain tour."].

Lemma drop_while_id f s : match s with c :: _ => f c = false | [] => True end -> drop_while f s = s.
Proof. destruct s as [|c s]; [done|]. cbn. by intros ->. Qed.

(** A value without blanks at its ends is its own trim, and stays whole behind a key. *)
Definition trimmed (s : bytes) : Prop :=
  match s with c :: _ => blank_front c = false | [] => True end /\
  match List.rev s with c :: _ => blank_back c = false | [] => True end.

Lemma trim_trimmed s : trimmed s -> trim s = s.
Proof. intros [H1 H2]. unfold trim. rewrite (drop_while_id blank_front s), drop_while_id by done. apply List.rev_involutive. Qed.

Lemma trim_key_value s : s <> [] -> trimmed s -> trim (str "start_dir = " ++ s) = str "start_dir = " ++ s.
Proof.
  intros Hs [_ H2]. apply trim_trimmed. split; [by vm_compute|]. rewrite List.rev_app_distr.
  destruct (List.rev s) as [|c r] eqn:E; [|done]. exfalso. apply Hs. by rewrite <- (List.rev_involutive s), E.
Qed.

Lemma parse_start_dir out s :
  s <> [] -> trimmed s -> parse_line out (str "start_dir = " ++ s) = DesktopConfig s.
Proof.
  intros Hs Ht. unfold parse_line. rewrite trim_key_value by done.
  assert (find_from (str "start_dir = " ++ s) [61] 0 = Some 10%nat) as E by reflexivity. rewrite E.
  change (drop (10 + 1) (str "start_dir = " ++ s)) with (32 :: s).
  change (trim (32 :: s)) with (trim s). rewrite (trim_trimmed s) by done. reflexivity.
Qed.

(** What is set is what is found again, when it can be.  A directory with no newline and
    no blank at its ends, of a file within the limit, on a disk that takes the whole text:
    a save that succeeds leaves one file from which the next daemon reads that very
    directory, and one that fails leaves the file as it was. *)
Theorem settings_survive s dir a d (c := DesktopConfig dir) :
  no_newline dir -> trimmed dir -> (length (render_config c) <= kMaxConfig)%nat -> (length (render_config c) <= stored a)%nat ->
  let '((ok, s'), d') := set_start_dir s dir a d in
  configured s' = dir /\
  (if ok then load_config (set_path s) d' = c else d_file d' = d_file d) /\
  (ok = true <-> set_path s <> [] /\ can_open a = true /\ can_rename a = true).
Proof.
  intros Hn Ht Hlen Hst. unfold set_start_dir, save_config. fold c.
  assert (forall P : Prop, (P -> False) -> false = true <-> P) as Hno by (intros P HP; split; [done|intros H; by destruct (HP H)]).
  case_bool_decide as Ep; [split_and!; [done|done|apply Hno; intros (? & ? & ?); congruence]|].
  destruct (can_open a); cbn [negb]; [|split_and!; [done|done|apply Hno; intros (? & ? & ?); congruence]].
  replace (stored a <? length (render_config c))%nat with false by (symmetry; by apply Nat.ltb_ge). rewrite andb_false_r. cbv zeta.
  destruct (can_rename a); cbn [negb]; [|split_and!; [done|done|apply Hno; intros (? & ? & ?); congruence]].
  split_and!; [done| |done]. unfold load_config. rewrite bool_decide_false by done. cbn [d_file].
  rewrite (take_ge _ (stored a)), take_ge by done. clear Hst Hlen.
  unfold parse_config, render_config, c. cbn [start_dir].
  assert (Forall no_newline header_lines) as Hh
    by (apply (bool_decide_unpack (Forall (Forall (fun c => c <> 10)) header_lines)); by vm_compute).
  assert (config_header = concat ((fun l => l ++ [10]) <$> header_lines)) as -> by (by vm_compute).
  case_bool_decide as Ed.
  - subst dir. rewrite app_nil_r. set (s0 := concat _).
    pose proof (lines_of_lines header_lines (S (length s0)) [] Hh ltac:(apply Nat.ltb_lt; by vm_compute)) as E.
    cbn [app length] in E. fold s0 in E. rewrite E. by vm_compute.
  - set (body := str "start_dir = " ++ dir).
    assert (no_newline body) as Hb.
    { apply Forall_app. split; [|done]. apply (bool_decide_unpack (Forall (fun c => c <> 10) _)). by vm_compute. }
    assert (concat ((fun l => l ++ [10]) <$> header_lines) ++ str "start_dir = " ++ dir ++ [10]
            = concat ((fun l => l ++ [10]) <$> (header_lines ++ [body]))) as ->.
    { rewrite fmap_app, concat_app. f_equal. change (str "start_dir = " ++ dir ++ [10] = (body ++ [10]) ++ []).
      rewrite app_nil_r. unfold body. by rewrite <- app_assoc. }
    set (s0 := concat _).
    assert (4 < S (length s0))%nat as Hf.
    { subst s0. rewrite fmap_app, concat_app, length_app. apply Nat.lt_le_trans with (S (length (concat ((fun l => l ++ [10]) <$> header_lines))));
        [apply Nat.ltb_lt; by vm_compute|lia]. }
    assert (Forall no_newline (header_lines ++ [body])) as Hall by (apply Forall_app; split; [done|by constructor]).
    pose proof (lines_of_lines (header_lines ++ [body]) (S (length s0)) [] Hall Hf) as E.
    cbn [app length] in E. fold s0 in E. rewrite E. rewrite <- app_assoc, fold_left_app.
    replace (fold_left parse_line header_lines (DesktopConfig [])) with (DesktopConfig []) by (by vm_compute).
    cbn [fold_left app].
    rewrite (parse_start_dir _ dir Ed Ht). by vm_compute.
Qed.

Lemma settings_survive_witness :
  let s := Settings (str "/home/u/c/config") (str "/home/u") (DesktopConfig []) in
  let '((ok, s'), d') := set_start_dir s (str "~/dev = 1") (Answers true 4096 false true) (Disk None None) in
  ok = true /\ load_config (set_path s) d' = DesktopConfig (str "~/dev = 1").
Proof.
  assert (no_newline (str "~/dev = 1")) as H1
    by (apply (bool_decide_unpack (Forall (fun c => c <> 10) (str "~/dev = 1"))); by vm_compute).
  assert (trimmed (str "~/dev = 1")) as H2 by (split; by vm_compute).
  pose proof (settings_survive (Settings (str "/home/u/c/config") (str "/home/u") (DesktopConfig [])) (str "~/dev = 1")
    (Answers true 4096 false true) (Disk None None) H1 H2 ltac:(apply Nat.leb_le; by vm_compute) ltac:(apply Nat.leb_le; by vm_compute)) as H.
  cbv zeta. destruct (set_start_dir _ _ _ _) as [[ok s'] d'] eqn:E.
  assert (ok = true) as -> by (vm_compute in E; congruence). destruct H as (_ & H & _). split; [done|exact H].
Defined.

(** A line the parser ignores is gone after the next save, against what the file says
    of itself. *)
Lemma unknown_line_is_erased :
  let d := Disk (Some (str "theme = nuit" ++ [10])) None in
  let s := settings_new (str "/c/config") (str "/home/u") d in
  let '(_, d') := set_start_dir s (str "/tmp") (Answers true 4096 false true) d in
  d_file d' = Some (render_config (DesktopConfig (str "/tmp"))).
Proof. by vm_compute. Qed.

(** A disk that fills up is not seen: the stream holds a text this short until its
    destructor, and the rename puts in the place of the old file what was written of the
    new one -- the setting is lost on both sides, and the save is said to be done. *)
Lemma full_disk_erases_settings :
  let d := Disk (Some (render_config (DesktopConfig (str "/srv")))) None in
  let s := settings_new (str "/c/config") (str "/home/u") d in
  let '((ok, _), d') := set_start_dir s (str "/tmp") (Answers true 0 false true) d in
  configured s = str "/srv" /\ ok = true /\ load_config (set_path s) d' = DesktopConfig [].
Proof. by vm_compute. Qed.
