(* ===== verification/Host.v ===== *)
(** * Applications and their host: [src/app/app.hpp], [src/daemon/host.hpp], [src/daemon/host.cpp]

    What a window's application may ask of the desktop, and the interface it offers
    in return.  A handler of an application takes the host as it finds it and gives
    it back: the interface's laws say that it got there by calls of the host only.
    Everything of the desktop is proved against this interface. *)

From stdpp Require Import gmap.
From S2P Require Import Prelude Input Cell Surface Desktop Window Config.

Record close_check := CloseCheck { allowed : bool; question : bytes }.
Definition allow : close_check := CloseCheck true [].
Definition ask (q : bytes) : close_check := CloseCheck false q.

Inductive io_status := IoOk | IoClosed.

Record child_watch := ChildWatch { cw_pid : Z; cw_win : window_id }.

(** What goes to the daemon's epoll. *)
Inductive reg_call := RegWatch (key fd events : Z) | RegUnwatch (fd : Z).

(** What the daemon's epoll then watches: a descriptor has one key, the last. *)
Definition epoll (calls : list reg_call) : gmap Z Z :=
  fold_left (fun m c => match c with RegWatch key fd _ => <[fd := key]> m | RegUnwatch fd => delete fd m end) calls ∅.

(** A key is a window and a generation, 32 bits each. *)
Definition make_key (win : window_id) (gen : Z) : Z := Z.lor (Z.shiftl win 32) gen.
Definition key_window (key : Z) : window_id := Z.shiftr key 32.

Definition kGenFirstDynamic : Z := 16.

(** The desktop as one application sees it through [HostImpl]: its own window, and
    what all windows share. *)
Record host (A : Type) := Host {
  h_win : window_id;
  h_title : bytes;
  h_close : bool;
  h_dirty : bool;
  h_gen : Z;
  h_children : list child_watch;
  h_pending : list (A * bytes);
  h_watched : list (Z * Z);
  h_fds : list reg_call;
  h_settings : settings;
  h_answers : answers;
  h_disk : disk;
}.
Arguments Host {A}.
Arguments h_win {A}.
Arguments h_title {A}.
Arguments h_close {A}.
Arguments h_dirty {A}.
Arguments h_gen {A}.
Arguments h_children {A}.
Arguments h_pending {A}.
Arguments h_watched {A}.
Arguments h_fds {A}.
Arguments h_settings {A}.
Arguments h_answers {A}.
Arguments h_disk {A}.

Section Host.
Context {A : Type}.
Implicit Types h : host A.

Definition set_title h (t : bytes) : host A := {| h with h_title := t |}.
Definition request_close h : host A := {| h with h_close := true |}.
Definition invalidate h : host A := {| h with h_dirty := true |}.

Definition watch h (fd events : Z) : host A * Z :=
  let key := make_key (h_win h) (h_gen h) in
  ({| h with h_gen := to_u32 (h_gen h + 1); h_watched := h_watched h ++ [(key, fd)];
             h_fds := h_fds h ++ [RegWatch key fd events] |}, key).

(** The first entry of the token, taken out. *)
Fixpoint erase_token (token : Z) (l : list (Z * Z)) : list (Z * Z) :=
  match l with
  | [] => []
  | p :: l => if fst p =? token then l else p :: erase_token token l
  end.

Definition unwatch h (token : Z) : host A :=
  match List.find (fun p => fst p =? token) (h_watched h) with
  | None => h
  | Some p => {| h with h_fds := h_fds h ++ [RegUnwatch (snd p)]; h_watched := erase_token token (h_watched h) |}
  end.

Definition watch_child h (pid : Z) : host A := {| h with h_children := h_children h ++ [ChildWatch pid (h_win h)] |}.

Definition open_app h (a : A) (i : bytes) : host A :=
  {| h with h_pending := h_pending h ++ [(a, i)]; h_dirty := true |}.

Definition host_start_dir h : bytes := effective_dir (h_settings h).
Definition configured_start_dir h : bytes := configured (h_settings h).

Definition host_set_start_dir h (dir : bytes) : host A :=
  let '((_, s), d) := set_start_dir (h_settings h) dir (h_answers h) (h_disk h) in
  {| h with h_settings := s; h_disk := d |}.

Definition owns h (key : Z) : bool := existsb (fun p => fst p =? key) (h_watched h).

Definition unwatch_all h : host A :=
  {| h with h_fds := h_fds h ++ (RegUnwatch ∘ snd <$> h_watched h); h_watched := [] |}.

(** One call of an application. *)
Inductive host_call : host A -> host A -> Prop :=
  | CallTitle h t : host_call h (set_title h t)
  | CallClose h : host_call h (request_close h)
  | CallInvalidate h : host_call h (invalidate h)
  | CallWatch h fd ev : host_call h (fst (watch h fd ev))
  | CallUnwatch h k : host_call h (unwatch h k)
  | CallChild h pid : host_call h (watch_child h pid)
  | CallOpen h a i : host_call h (open_app h a i)
  | CallStart h d : host_call h (host_set_start_dir h d).

End Host.

(** The contract of an application, with its laws: what it does to the host is a
    sequence of calls, and [render] draws with its view only, texts of bytes and
    styles of the program.  Its destructor is not in it: it may only give up watches,
    and [unwatch_all] has given them up before. *)
Class Application (A : Type) := {
  app_min :: App A;
  attach : A -> host A -> A * host A;
  app_key : key_event -> A -> host A -> A * host A;
  app_mouse : mouse_event -> A -> host A -> A * host A;
  app_paste : bytes -> bool -> A -> host A -> A * host A;
  app_resize : size -> A -> host A -> A * host A;
  app_child_exit : Z -> A -> host A -> A * host A;
  app_command : bytes -> A -> host A -> A * host A;
  app_io : Z -> Z -> A -> host A -> (A * host A) * io_status;
  app_refresh : A -> host A -> A * host A;
  app_render : bool -> size -> A -> host A -> (A * host A) * list draw_op;
  wants_cursor : A -> option pos;
  refresh_ms : A -> Z;
  can_close : A -> close_check;
  attach_calls a h : rtc host_call h (snd (attach a h));
  key_calls k a h : rtc host_call h (snd (app_key k a h));
  mouse_calls m a h : rtc host_call h (snd (app_mouse m a h));
  paste_calls t c a h : rtc host_call h (snd (app_paste t c a h));
  resize_calls z a h : rtc host_call h (snd (app_resize z a h));
  child_calls st a h : rtc host_call h (snd (app_child_exit st a h));
  command_calls c a h : rtc host_call h (snd (app_command c a h));
  io_calls t e a h : rtc host_call h (snd (fst (app_io t e a h)));
  refresh_calls a h : rtc host_call h (snd (app_refresh a h));
  render_calls b z a h : rtc host_call h (snd (fst (app_render b z a h)));
  render_ops b z a h : Forall op_ok (snd (app_render b z a h));
}.

Definition deliver {A} `{Application A} (a : A) (h : host A) (key events : Z) : (A * host A) * io_status :=
  if negb (owns h key) then ((a, h), IoOk) else app_io key events a h.

(** ** What a host call leaves alone *)

Lemma key_window_make win gen : 0 <= gen < 2 ^ 32 -> key_window (make_key win gen) = win.
Proof.
  intros Hg. unfold key_window, make_key. rewrite Z.shiftr_lor, Z.shiftr_shiftl_l, Z.sub_diag, Z.shiftl_0_r by lia.
  replace (Z.shiftr gen 32) with 0; [apply Z.lor_0_r|]. rewrite Z.shiftr_div_pow2 by lia. symmetry. by apply Z.div_small.
Qed.

(** A watch of a window is keyed by it. *)
Definition host_ok {A} (h : host A) : Prop :=
  0 <= h_gen h < 2 ^ 32 /\ Forall (fun p => key_window (fst p) = h_win h) (h_watched h).

Lemma erase_token_sub t l p : p ∈ erase_token t l -> p ∈ l.
Proof.
  induction l as [|q l IH]; [done|]. cbn. destruct (_ =? _); [by right|].
  intros [->|Hp]%elem_of_cons; [by left|right; by apply IH].
Qed.

(** What a sequence of calls does to the host. *)
Definition host_changes {A} (h h' : host A) : Prop :=
  h_win h' = h_win h /\ (host_ok h -> host_ok h') /\
  (exists l, h_children h' = h_children h ++ l /\ Forall (fun c => cw_win c = h_win h) l) /\
  (h_dirty h = true -> h_dirty h' = true).

Lemma host_changes_trans {A} (h1 h2 h3 : host A) : host_changes h1 h2 -> host_changes h2 h3 -> host_changes h1 h3.
Proof.
  intros (W1 & O1 & (l1 & C1 & F1) & D1) (W2 & O2 & (l2 & C2 & F2) & D2). split_and!; [congruence|auto| |auto].
  exists (l1 ++ l2). rewrite C2, C1, app_assoc. split; [done|]. apply Forall_app. rewrite W1 in F2. by split.
Qed.

Lemma host_call_changes {A} (h h' : host A) : host_call h h' -> host_changes h h'.
Proof.
  assert (forall h1 h2 : host A, h_win h2 = h_win h1 -> h_gen h2 = h_gen h1 -> h_watched h2 = h_watched h1 ->
    h_children h2 = h_children h1 -> (h_dirty h1 = true -> h_dirty h2 = true) -> host_changes h1 h2) as Hsame.
  { intros h1 h2 E1 E2 E3 E4 E5. unfold host_changes, host_ok. rewrite E1, E2, E3, E4. split_and!; [done|done| |done].
    exists []. by rewrite app_nil_r. }
  assert (forall h1 : host A, exists l, h_children h1 = h_children h1 ++ l /\ Forall (fun c => cw_win c = h_win h1) l) as Hnil
    by (intros h1; exists []; by rewrite app_nil_r).
  intros [].
  - by apply Hsame.
  - by apply Hsame.
  - by apply Hsame.
  - unfold watch. cbn [fst]. split_and!; [done| |exact (Hnil h0)|done]. intros [Hg Hw]. unfold host_ok. cbn [h_gen h_watched h_win].
    split; [unfold to_u32; apply Z.mod_pos_bound; lia|]. apply Forall_app. split; [done|]. constructor; [|done].
    by apply key_window_make.
  - unfold unwatch. destruct (List.find _ _) as [p|]; [|by apply Hsame]. split_and!; [done| |exact (Hnil h0)|done].
    intros [Hg Hw]. split; [done|]. cbn [h_watched h_win]. rewrite List.Forall_forall in Hw |- *.
    intros q Hq. apply Hw, list_elem_of_In. apply list_elem_of_In in Hq. by eapply erase_token_sub.
  - split_and!; [done|done| |done]. exists [ChildWatch pid (h_win h0)]. split; [done|by repeat constructor].
  - by apply Hsame.
  - unfold host_set_start_dir. destruct (set_start_dir _ _ _ _) as [[ok s] d']. by apply Hsame.
Qed.

Lemma host_calls_change {A} (h h' : host A) : rtc host_call h h' -> host_changes h h'.
Proof.
  induction 1 as [h|h1 h2 h3 H _ IH].
  - split_and!; [done|done| |done]. exists []. by rewrite app_nil_r.
  - eapply host_changes_trans; [by apply host_call_changes|done].
Qed.

(** ** What epoll watches *)

Lemma epoll_snoc l c :
  epoll (l ++ [c]) = match c with RegWatch key fd _ => <[fd := key]> (epoll l) | RegUnwatch fd => delete fd (epoll l) end.
Proof. unfold epoll. by rewrite fold_left_app. Qed.

(** Every descriptor watched is in the list of the window, or accounted for elsewhere. *)
Definition accounted {A} (P : Z -> Z -> Prop) (h : host A) : Prop :=
  forall fd key, epoll (h_fds h) !! fd = Some key -> (key, fd) ∈ h_watched h \/ P key fd.

Lemma erase_token_other t l p q : List.find (fun p => fst p =? t) l = Some p -> q ∈ l -> q <> p -> q ∈ erase_token t l.
Proof.
  induction l as [|x l IH]; [done|]. cbn. destruct (_ =? _).
  - intros [= ->] [->|Hq]%elem_of_cons Hn; [done|exact Hq].
  - intros Hf [->|Hq]%elem_of_cons Hn; [by left|right; by apply IH].
Qed.

Lemma host_call_accounted {A} P (h h' : host A) : host_call h h' -> accounted P h -> accounted P h'.
Proof.
  intros [] Ha; try exact Ha; intros fd0 key.
  - cbn [watch fst h_fds h_watched]. rewrite epoll_snoc. destruct (decide (fd0 = fd)) as [->|N].
    + rewrite lookup_insert_eq. intros [= <-]. left. apply elem_of_app. right. by left.
    + rewrite lookup_insert_ne by done. intros [Hk|Hk]%Ha; [left; apply elem_of_app; by left|by right].
  - unfold unwatch. destruct (List.find _ _) as [p|] eqn:E; [|apply Ha]. cbn [h_fds h_watched]. rewrite epoll_snoc.
    destruct (decide (fd0 = snd p)) as [->|N]; [by rewrite lookup_delete_eq|]. rewrite lookup_delete_ne by done.
    intros [Hk|Hk]%Ha; [left|by right]. eapply erase_token_other; [exact E|exact Hk|]. intros <-. by apply N.
  - unfold host_set_start_dir. destruct (set_start_dir _ _ _ _) as [[ok s] d']. apply Ha.
Qed.

Lemma host_calls_accounted {A} P (h h' : host A) : rtc host_call h h' -> accounted P h -> accounted P h'.
Proof. induction 1 as [|h1 h2 h3 H _ IH]; [done|]. intros Ha. by apply IH, (host_call_accounted P h1). Qed.

Lemma epoll_unwatch_all {A} (h : host A) fd :
  epoll (h_fds (unwatch_all h)) !! fd = if decide (fd ∈ (snd <$> h_watched h)) then None else epoll (h_fds h) !! fd.
Proof.
  cbn [unwatch_all h_fds]. generalize (h_fds h) as l. induction (h_watched h) as [|p w IH]; intros l; [by rewrite app_nil_r|].
  rewrite !fmap_cons, cons_middle, app_assoc, IH, epoll_snoc. cbn [compose].
  destruct (decide (fd ∈ snd <$> w)) as [Hw|Hw].
  - rewrite decide_True; [done|by right].
  - destruct (decide (fd = snd p)) as [->|N]; [rewrite lookup_delete_eq, decide_True; [done|by left]|].
    rewrite lookup_delete_ne, decide_False; [done| |done]. intros [|]%elem_of_cons; done.
Qed.
