(* ===== verification/Clock.v ===== *)
(** * The clock of the bar: [src/shell/clock.hpp], [src/shell/clock.cpp]

    What is shown, and whether it changed.  The two texts of the instant come from the
    system ([localtime_r], [strftime]). *)

From S2P Require Import Prelude.

Record clock := Clock { c_text : bytes; c_date : bytes; primed : bool }.

Definition clock_new : clock := Clock [] [] false.

Definition update (c : clock) (buf day : bytes) : clock * bool :=
  (Clock buf day true, negb (primed c) || negb (bool_decide (c_text c = buf)) || negb (bool_decide (c_date c = day))).

(** The clock asks for a repaint once, then only when a text moves. *)
Lemma clock_quiet c buf day : snd (update (fst (update c buf day)) buf day) = false.
Proof. unfold update. cbn. by rewrite !bool_decide_true. Qed.
