(* ===== verification/Session.v ===== *)
(** * The session: [src/daemon/session.hpp], [src/daemon/session.cpp]

    The desktop as a state and its reactions to keys, mouse, pastes, child deaths and
    file descriptors, for applications given by the interface of Host.  [desk] is what
    windows and their hosts share; [env] is what the system answers during one event
    (clocks, disk, processes).  [run_menu] takes the identifier by value: the source
    takes a reference into the table that its first line empties. *)

From stdpp Require Import gmap.
From S2P Require Import Prelude StdString Input Cell Surface Theme Shortcuts Window Config Host.
From S2P Require UpdateService Catalog Menu Modal SnapAssist Help Panel Tile Decor Profile Clock SysInfo.

#[local] Existing Instances Decor.win_hit_eq_dec Panel.panel_hit_eq_dec.

Inductive modal_kind := CloseWindow | QuitSession | ApplyUpdate | ApplyRunning | RestartForUpdate | Information.
#[export] Instance modal_kind_eq_dec : EqDecision modal_kind. Proof. solve_decision. Defined.

Inductive drag_state :=
  | DragIdle
  | Moving (win : window_id) (grab_dx grab_dy : Z) (origin : rect)
  | Resizing (win : window_id) (outline : rect).
#[export] Instance drag_state_eq_dec : EqDecision drag_state. Proof. solve_decision. Defined.

(** Durations of the steady clock, in nanoseconds. *)
Definition kDragWatchdog : Z := 2000 * 1000000.
Definition kHelpDelay : Z := 500 * 1000000.
Definition kRepeatWindow : Z := 1500 * 1000000.
Definition kDoubleClick : Z := 600 * 1000000.

Record env := Env {
  e_world : UpdateService.world; e_answers : answers; e_time : bytes; e_date : bytes; e_ms : Z; e_proc : SysInfo.proc_files }.

Definition steady_now (e : env) : Z := UpdateService.steady (e_world e).

Record desk (A : Type) := Desk {
  wm : manager A;
  hosts : gmap Z (list (Z * Z));
  fd_gen : Z;
  children : list child_watch;
  pending : list (A * bytes);
  d_settings : settings;
  d_disk : disk;
  fds : list reg_call;
  dirty : bool;
}.
Arguments Desk {A}.
Arguments wm {A}.
Arguments hosts {A}.
Arguments fd_gen {A}.
Arguments children {A}.
Arguments pending {A}.
Arguments d_settings {A}.
Arguments d_disk {A}.
Arguments fds {A}.
Arguments dirty {A}.

Record session (A : Type) := Session {
  dk : desk A;
  drag : drag_state;
  drag_stamp : Z;
  out : Profile.output_profile;
  s_theme : theme;
  quit : bool;
  s_panel : Panel.panel;
  s_clock : Clock.clock;
  s_menu : Menu.menu;
  s_modal : Modal.modal;
  update_ : UpdateService.update_service;
  launched : list (list bytes);
  s_help : Help.help;
  ldr : leader_dispatch;
  leader_stamp : Z;
  repeat_until : Z;
  seeded : bool;
  last_click : Z;
  last_click_x : Z;
  last_click_y : Z;
  repaint : bool;
  detach : bool;
  s_modal_kind : modal_kind;
  s_sysinfo : SysInfo.sys_info;
  last_work : rect;
  s_cursor : option pos;
  mouse_grab : window_id;
  assist : SnapAssist.snap_assist;
  assist_rect : rect;
}.
Arguments Session {A}.
Arguments dk {A}.
Arguments drag {A}.
Arguments drag_stamp {A}.
Arguments out {A}.
Arguments s_theme {A}.
Arguments quit {A}.
Arguments s_panel {A}.
Arguments s_clock {A}.
Arguments s_menu {A}.
Arguments s_modal {A}.
Arguments update_ {A}.
Arguments launched {A}.
Arguments s_help {A}.
Arguments ldr {A}.
Arguments leader_stamp {A}.
Arguments repeat_until {A}.
Arguments seeded {A}.
Arguments last_click {A}.
Arguments last_click_x {A}.
Arguments last_click_y {A}.
Arguments repaint {A}.
Arguments detach {A}.
Arguments s_modal_kind {A}.
Arguments s_sysinfo {A}.
Arguments last_work {A}.
Arguments s_cursor {A}.
Arguments mouse_grab {A}.
Arguments assist {A}.
Arguments assist_rect {A}.

(** [cond] guards a change: the [if] without an [else] of the source. *)
Definition when {S} (b : bool) (f : S -> S) (s : S) : S := if b then f s else s.

Section Desk.
Context {A : Type} `{Application A}.
Implicit Types (d : desk A) (wd : window A).

Definition mark_dirty d : desk A := {| d with dirty := true |}.
Definition with_wm d (m : manager A) : desk A := {| d with wm := m |}.

(** The host of a window, as an application finds it. *)
Definition host_of (e : env) d wd : host A :=
  Host (id wd) (title wd) (close_requested wd) (dirty d) (fd_gen d) (children d) (pending d)
    (default [] (hosts d !! id wd)) (fds d) (d_settings d) (e_answers e) (d_disk d).

(** A handler runs: the window and the desktop take what it left of its host. *)
Definition after_call d wd (r : A * host A) : desk A :=
  let '(a, h) := r in
  Desk (with_stack (wm d) (update (id wd) (fun wd => {| wd with app := a; title := h_title h; close_requested := h_close h |}) (stack (wm d))))
    (<[id wd := h_watched h]> (hosts d)) (h_gen h) (h_children h) (h_pending h) (h_settings h) (h_disk h) (h_fds h) (h_dirty h).

Definition call_app (e : env) d wd (f : A -> host A -> A * host A) : desk A :=
  after_call d wd (f (app wd) (host_of e d wd)).

Definition set_app_id d (i : window_id) (a : bytes) : desk A :=
  with_wm d (with_stack (wm d) (update i (fun wd => {| wd with app_id := a |}) (stack (wm d)))).

(** A new window gets its identifier, then its host, then [attach]. *)
Definition open_window (e : env) d (a : A) (work : rect) (app : bytes) : desk A * window_id :=
  let '(m, o) := Window.open (wm d) a work in
  match o with
  | None => (with_wm d m, 0)
  | Some i =>
      let d := set_app_id {| d with wm := m; hosts := <[i := []]> (hosts d) |} i app in
      match Window.find (wm d) i with
      | Some wd => (call_app e d wd attach, i)
      | None => (d, i)
      end
  end.

Definition close_window (e : env) d wd : desk A :=
  let h := unwatch_all (host_of e d wd) in
  {| d with fds := h_fds h; hosts := delete (id wd) (hosts d);
            children := List.filter (fun c => negb (cw_win c =? id wd)) (children d);
            wm := fst (Window.close (wm d) (id wd)) |}.

Definition set_user_rect d (i : window_id) (r : rect) : desk A :=
  with_wm d (with_stack (wm d) (update i (fun wd => with_user wd r) (stack (wm d)))).

End Desk.

Section Session.
Context {A : Type} `{Application A} (make : bytes -> A) (amb : bool).
Implicit Types (s : session A) (wd : window A) (d : desk A).

Definition on_desk s (f : desk A -> desk A) : session A := {| s with dk := f (dk s) |}.
Definition on_wm s (f : manager A -> manager A) : session A := on_desk s (fun d => with_wm d (f (wm d))).
Definition soil s : session A := on_desk s mark_dirty.
Definition the_wm s : manager A := wm (dk s).
Definition focused_window s : option (window A) := Window.find (the_wm s) (focused (the_wm s)).

(** ** Gestures *)

Definition cancel_drag s : session A :=
  let s' := match drag s with
            | Moving i _ _ origin => on_desk s (fun d => set_user_rect d i origin)
            | _ => s
            end in
  {| s' with drag := DragIdle |}.

Definition finish_drag s : session A := {| s with drag := DragIdle |}.
Definition idle s : bool := bool_decide (drag s = DragIdle).

Definition watchdog (e : env) s : session A :=
  if idle s then s else if kDragWatchdog <=? steady_now e - drag_stamp s then cancel_drag s else s.

(** ** Windows *)

Definition open_from_catalog (e : env) s (i : bytes) : session A * window_id :=
  match Catalog.catalog_find i with
  | None => (s, 0)
  | Some c =>
      let '(d, w) := open_window e (dk s) (make (Catalog.cat_id c)) (last_work s) (Catalog.cat_id c) in
      ({| s with dk := d |}, w)
  end.

Definition request_close (e : env) s wd : session A :=
  let s := cancel_drag s in
  let c := can_close (app wd) in
  if allowed c then on_desk s (fun d => close_window e d wd)
  else soil {| s with s_modal := Modal.ask (s_modal s) (Host.question c) (id wd) |}.

Fixpoint candidates_from (snapped : window_id) (free : rect) (l : list (window A)) (acc : list SnapAssist.snap_candidate) :
    list SnapAssist.snap_candidate :=
  match l with
  | [] => acc
  | wd :: l =>
      if (id wd =? snapped) || bool_decide (mode wd = Minimized) then candidates_from snapped free l acc
      else if bool_decide (display_rect wd = free) then []
      else candidates_from snapped free l (acc ++ [SnapAssist.SnapCandidate (id wd) (title wd)])
  end.

Definition assist_candidates s (snapped : window_id) (free : rect) : list SnapAssist.snap_candidate :=
  candidates_from snapped free (List.rev (stack (the_wm s))) [].

Definition snap_focused s (dir : Tile.snap_dir) : session A :=
  match focused_window s with
  | None => s
  | Some wd =>
      let s := on_wm s (fun m => set_mode m (id wd) Normal (last_work s)) in
      let s := on_wm s (fun m => set_rect m (id wd) (Tile.snap_rect (last_work s) dir) (last_work s)) in
      let free := Tile.snap_opposite (last_work s) dir in
      soil {| s with assist_rect := free; assist := SnapAssist.open amb (assist s) free (assist_candidates s (id wd) free) |}
  end.

Definition dock_into_free_half s (i : window_id) : session A :=
  let o := Window.find (the_wm s) i in
  let s := {| s with assist := SnapAssist.close (assist s) |} in
  match o with
  | None => s
  | Some _ =>
      let s := on_wm s (fun m => set_mode m i Normal (last_work s)) in
      let s := on_wm s (fun m => set_rect m i (assist_rect s) (last_work s)) in
      soil (on_wm s (fun m => Window.focus m i))
  end.

Definition visible_ids (m : manager A) : list window_id :=
  id <$> List.filter (fun wd => negb (bool_decide (mode wd = Minimized))) (stack m).

Definition tile_windows s : session A :=
  let visible := visible_ids (the_wm s) in
  if bool_decide (visible = []) then s
  else
    let s := {| s with assist := SnapAssist.close (assist s) |} in
    let cells := Tile.tile_rects (last_work s) (zlen visible) in
    soil (on_wm s (fun m =>
      fold_left (fun m p => set_rect (set_mode m (fst p) Normal (last_work s)) (fst p) (snd p) (last_work s)) (zip visible cells) m)).

Definition focus_or_open (e : env) s (i : bytes) : session A :=
  match List.find (fun wd => bool_decide (app_id wd = i)) (stack (the_wm s)) with
  | Some wd =>
      let s := when (bool_decide (mode wd = Minimized)) (fun s => on_wm s (fun m => set_mode m (id wd) Normal (last_work s))) s in
      soil (on_wm s (fun m => Window.focus m (id wd)))
  | None => soil (fst (open_from_catalog e s i))
  end.

(** ** Updates *)

Definition svc s (r : UpdateService.update_service * list (list bytes)) : session A :=
  {| s with update_ := fst r; launched := launched s ++ snd r |}.

Definition modal_open s : bool := Modal.m_open (s_modal s).
Definition menu_is_open s : bool := Menu.mn_open (s_menu s).

Definition refresh_update_modal s : session A :=
  if negb (bool_decide (s_modal_kind s = ApplyRunning)) || negb (modal_open s) then s
  else
    let p := UpdateService.progress_line (update_ s) in
    let m := if bool_decide (p = []) then s_modal s else Modal.set_body (s_modal s) p in
    {| s with s_modal := Modal.set_progress m (UpdateService.progress_percent (update_ s)) |}.

Definition tick_update (e : env) s : session A :=
  soil (refresh_update_modal (svc s (UpdateService.tick (e_world e) (update_ s)))).

Definition refresh_menu_extras s : session A :=
  let en := UpdateService.entry (update_ s) in
  let items := Menu.MenuItem (UpdateService.e_id en) (UpdateService.e_label en) (UpdateService.e_enabled en)
    :: (if bool_decide (UpdateService.e_id en = str "update:restart") && UpdateService.e_enabled en
        then [Menu.MenuItem (str "update:check") (str "Verifier les mises a jour") true] else []) in
  {| s with s_menu := Menu.set_extra_items (s_menu s) items |}.

Definition restart_question s : bytes :=
  let windows := zlen (stack (the_wm s)) in
  let procs := zlen (children (dk s)) in
  str "Redemarrer maintenant ? " ++ to_string windows ++ (if 1 <? windows then str " fenetres" else str " fenetre")
  ++ (if 0 <? procs then str " et " ++ to_string procs ++ str " processus en cours" else [])
  ++ str " seront fermes.".

Definition apply_question s : bytes :=
  let n := UpdateService.news (update_ s) in
  let v := UpdateService.version_line (update_ s) in
  str "Installer la mise a jour ?" ++ (if bool_decide (n = []) then [] else str " " ++ n ++ str ".")
  ++ (if bool_decide (v = []) then [] else 10 :: v) ++ 10 :: str "Vos fenetres restent ouvertes.".

(** A kind of question and its text: the kind is set whether or not the modal takes it. *)
Definition ask_kind s (k : modal_kind) (q : bytes) : session A :=
  soil {| s with s_modal_kind := k; s_modal := Modal.ask (s_modal s) q 0 |}.

Definition run_update_command (e : env) s (i : bytes) : session A :=
  let en := UpdateService.entry (update_ s) in
  if negb (UpdateService.e_enabled en) then s
  else if negb (bool_decide (i = UpdateService.e_id en)) && negb (bool_decide (i = str "update:check")) then s
  else if bool_decide (i = str "update:check") then soil (svc s (UpdateService.run (e_world e) (update_ s) (str "update:check")))
  else if bool_decide (i = str "update:restart") then ask_kind s RestartForUpdate (restart_question s)
  else if bool_decide (i = str "update:apply") then ask_kind s ApplyUpdate (apply_question s)
  else s.

(** ** The menu *)

Definition starts (p i : bytes) : bool := (length p <? length i)%nat && is_prefix p i.

Definition quit_question : bytes := str "Fermer la session ? Toutes les fenetres seront perdues.".

Definition set_panel_edge s (e : panel_edge) : session A := {| s with s_panel := Panel.set_edge (s_panel s) e |}.

Definition run_menu (e : env) s (i : bytes) : session A :=
  let s := soil {| s with s_menu := Menu.close (s_menu s) |} in
  if starts (str "app:") i then fst (open_from_catalog e s (drop 4 i))
  else if starts (str "panel:") i then
    let where_ := drop 6 i in
    let s := when (bool_decide (where_ = str "top")) (fun s => set_panel_edge s EdgeTop) s in
    let s := when (bool_decide (where_ = str "bottom")) (fun s => set_panel_edge s EdgeBottom) s in
    let s := when (bool_decide (where_ = str "left")) (fun s => set_panel_edge s EdgeLeft) s in
    let s := when (bool_decide (where_ = str "right")) (fun s => set_panel_edge s EdgeRight) s in
    {| s with repaint := true |}
  else if starts (str "cmd:") i then
    match focused_window s with
    | Some wd => on_desk s (fun d => call_app e d wd (app_command (drop 4 i)))
    | None => s
    end
  else if bool_decide (i = str "wm:tile") then tile_windows s
  else if bool_decide (i = str "session:detach") then {| s with detach := true |}
  else if is_prefix (str "update:") i then run_update_command e s i
  else if bool_decide (i = str "session:quit") then ask_kind s QuitSession quit_question
  else s.

Definition with_menu s (m : Menu.menu) : session A := {| s with s_menu := m |}.

Definition menu_key (e : env) s (k : key_event) : session A :=
  match ke_key k with
  | KEscape => soil (with_menu s (Menu.close (s_menu s)))
  | KEnter =>
      match Menu.selected (s_menu s) with
      | Some it => run_menu e s (Menu.mi_id it)
      | None => soil (with_menu s (Menu.close (s_menu s)))
      end
  | KUp => soil (with_menu s (Menu.move (s_menu s) (-1)))
  | KDown => soil (with_menu s (Menu.move (s_menu s) 1))
  | KBackspace => soil (with_menu s (Menu.backspace (s_menu s)))
  | KChar =>
      if negb (Z.land (ke_mods k) Ctrl =? 0) then soil (with_menu s (Menu.close (s_menu s)))
      else soil (with_menu s (Menu.type_ (s_menu s) (ke_ch k)))
  | _ => soil s
  end.

Definition open_menu s : session A :=
  let s := refresh_menu_extras s in with_menu s (Menu.open (s_menu s)).

(** ** Commands *)

Definition toggle (m target : win_mode) : win_mode := if bool_decide (m = target) then Normal else target.

Definition set_focused_mode s wd (m : win_mode) : session A := on_wm s (fun m' => set_mode m' (id wd) m (last_work s)).

(** The eight moves, on the wanted geometry. *)
Definition nudge (a : action) (fmin : size) (r : rect) : option rect :=
  match a with
  | MoveLeft => Some (Rect (rx r - 1) (ry r) (rw r) (rh r))
  | MoveRight => Some (Rect (rx r + 1) (ry r) (rw r) (rh r))
  | MoveUp => Some (Rect (rx r) (ry r - 1) (rw r) (rh r))
  | MoveDown => Some (Rect (rx r) (ry r + 1) (rw r) (rh r))
  | GrowWidth => Some (Rect (rx r) (ry r) (rw r + 1) (rh r))
  | ShrinkWidth => Some (Rect (rx r) (ry r) (Z.max (w fmin) (rw r - 1)) (rh r))
  | GrowHeight => Some (Rect (rx r) (ry r) (rw r) (rh r + 1))
  | ShrinkHeight => Some (Rect (rx r) (ry r) (rw r) (Z.max (h fmin) (rh r - 1)))
  | _ => None
  end.

Definition do_action (e : env) s (a : action) : session A :=
  let s := soil s in
  match a with
  | SnapLeft => snap_focused s Tile.SnapLeft
  | SnapRight => snap_focused s Tile.SnapRight
  | SnapUp => snap_focused s Tile.SnapUp
  | SnapDown => snap_focused s Tile.SnapDown
  | OpenMenu => open_menu s
  | ForceRepaint => {| s with repaint := true |}
  | Detach => {| s with detach := true |}
  | ShowHelp => {| s with s_help := Help.open (s_help s) |}
  | NextWindow => on_wm s focus_next
  | PrevWindow => on_wm s focus_prev
  | _ =>
      match focused_window s with
      | None => s
      | Some wd =>
          match a with
          | LiteralLeader => on_desk s (fun d => call_app e d wd (app_key (KeyEvent KChar (leader (ldr s)) Ctrl)))
          | Close => request_close e s wd
          | Minimize => set_focused_mode s wd Minimized
          | MaximizeToggle => set_focused_mode s wd (toggle (mode wd) Maximized)
          | FullscreenToggle => let s := set_focused_mode s wd (toggle (mode wd) Fullscreen) in {| s with repaint := true |}
          | _ =>
              let fmin := frame_min (app wd) in
              match nudge a fmin (user_rect wd) with
              | Some r => on_desk s (fun d => set_user_rect d (id wd) (clamp_to r (last_work s) fmin))
              | None => s
              end
          end
      end
  end.

Definition dismiss_modal s : session A := {| s with s_modal := Modal.dismiss (s_modal s) |}.
Definition with_kind s (k : modal_kind) : session A := {| s with s_modal_kind := k |}.

Definition answer_modal (e : env) s (confirmed : bool) : session A :=
  let close_dialog s := soil (dismiss_modal (with_kind s CloseWindow)) in
  if confirmed then
    match s_modal_kind s with
    | QuitSession => close_dialog {| s with quit := true |}
    | ApplyUpdate =>
        let s := svc s (UpdateService.run (e_world e) (update_ s) (str "update:apply")) in
        let s := with_kind (dismiss_modal s) ApplyRunning in
        soil {| s with s_modal := Modal.start_progress (s_modal s) (UpdateService.progress_line (update_ s)) |}
    | RestartForUpdate => close_dialog (svc s (UpdateService.run (e_world e) (update_ s) (str "update:restart")))
    | Information => close_dialog s
    | _ =>
        match Window.find (the_wm s) (Modal.target (s_modal s)) with
        | Some t => close_dialog (on_desk s (fun d => close_window e d t))
        | None => close_dialog s
        end
    end
  else close_dialog s.

(** ** The mouse *)

Definition local_mouse (m : mouse_event) (x y : Z) : mouse_event := MouseEvent (m_action m) (m_button m) x y (m_mods m).

Definition moving (e : env) s (m : mouse_event) (win : window_id) (dx dy : Z) (origin : rect) : session A :=
  match Window.find (the_wm s) win with
  | None => cancel_drag s
  | Some wd =>
      let s := {| s with drag_stamp := steady_now e |} in
      let r := Rect (m_x m - dx) (m_y m - dy) (rw (user_rect wd)) (rh (user_rect wd)) in
      let s := on_desk s (fun d => set_user_rect d win r) in
      if decide (m_action m = MRelease) then
        finish_drag (when (negb (bool_decide (r = origin))) (fun s => on_desk s (fun d => set_user_rect d win (snap r (last_work s) 1))) s)
      else s
  end.

Definition resizing (e : env) s (m : mouse_event) (win : window_id) (o : rect) : session A :=
  match Window.find (the_wm s) win with
  | None => cancel_drag s
  | Some wd =>
      let o := Rect (rx o) (ry o) (m_x m - rx o + 1) (m_y m - ry o + 1) in
      let s := {| s with drag_stamp := steady_now e; drag := Resizing win o |} in
      if decide (m_action m = MRelease) then finish_drag (on_desk s (fun d => set_user_rect d win o)) else s
  end.

Definition wheel (e : env) s (m : mouse_event) : session A :=
  if modal_open s || menu_is_open s then s
  else
    match Window.hit (the_wm s) (m_x m) (m_y m) with
    | None => s
    | Some wd =>
        let h := Decor.hit_window wd (m_x m) (m_y m) in
        if negb (bool_decide (Decor.what h = Decor.HitClient)) then s
        else soil (on_desk s (fun d => call_app e d wd (app_mouse (local_mouse m (Decor.lx h) (Decor.ly h)))))
    end.

Definition grabbed (e : env) s (m : mouse_event) : session A :=
  let s :=
    match Window.find (the_wm s) (mouse_grab s) with
    | Some wd =>
        let cr := client_rect (display_rect wd) in
        soil (on_desk s (fun d => call_app e d wd (app_mouse (local_mouse m (m_x m - rx cr) (m_y m - ry cr)))))
    | None => s
    end in
  if decide (m_action m = MRelease) then {| s with mouse_grab := 0 |} else s.

Definition press_modal (e : env) s (m : mouse_event) : session A :=
  match Modal.hit (s_modal s) (m_x m) (m_y m) with
  | Modal.MConfirm => soil (answer_modal e s true)
  | Modal.MCancel => soil (answer_modal e s false)
  | _ => soil s
  end.

Definition press_menu (e : env) s (m : mouse_event) : session A :=
  let mh := Menu.hit (s_menu s) (m_x m) (m_y m) in
  match Menu.mh_what mh with
  | Menu.MItem =>
      let items := Menu.shown (s_menu s) in
      if (0 <=? Menu.mh_index mh) && (Menu.mh_index mh <? zlen items) then
        match items !! Z.to_nat (Menu.mh_index mh) with
        | Some it => run_menu e s (Menu.mi_id it)
        | None => s
        end
      else s
  | Menu.MNone => soil (with_menu s (Menu.close (s_menu s)))
  | _ => soil s
  end.

Definition press_pinned (e : env) s (m : mouse_event) (index : Z) : session A :=
  if (0 <=? index) && (index <? zlen Catalog.catalog) then
    match Catalog.catalog !! Z.to_nat index with
    | Some c => if m_button m =? 2 then fst (open_from_catalog e s (Catalog.cat_id c)) else focus_or_open e s (Catalog.cat_id c)
    | None => s
    end
  else s.

Definition press_task (e : env) s (m : mouse_event) (win : window_id) : session A :=
  match Window.find (the_wm s) win with
  | None => s
  | Some t =>
      if m_button m =? 2 then (if bool_decide (app_id t = []) then s else fst (open_from_catalog e s (app_id t)))
      else if bool_decide (mode t = Minimized) then
        on_wm (on_wm s (fun m => set_mode m (id t) Normal (last_work s))) (fun m => Window.focus m (id t))
      else if focused (the_wm s) =? id t then on_wm s (fun m => set_mode m (id t) Minimized (last_work s))
      else on_wm s (fun m => Window.focus m (id t))
  end.

Definition press_panel (e : env) s (m : mouse_event) (ph : Panel.panel_hit_result) : session A :=
  let s := soil s in
  match Panel.ph_what ph with
  | Panel.PMenuButton => open_menu s
  | Panel.PUpdate => run_update_command e s (UpdateService.e_id (UpdateService.entry (update_ s)))
  | Panel.PHint => {| s with s_help := Help.open (s_help s) |}
  | Panel.PPinned => press_pinned e s m (Panel.ph_index ph)
  | Panel.PTask => press_task e s m (Panel.ph_win ph)
  | _ => s
  end.

Definition toggle_maximized s wd : session A := set_focused_mode s wd (toggle (mode wd) Maximized).

(** The second press of a double click, and what a press leaves for the next. *)
Definition doubled (e : env) s (m : mouse_event) : bool :=
  (m_x m =? last_click_x s) && (m_y m =? last_click_y s) && (steady_now e - last_click s <=? kDoubleClick).

Definition record_click (e : env) s (m : mouse_event) : session A :=
  {| s with drag_stamp := steady_now e; last_click := steady_now e;
            last_click_x := (if doubled e s m then -1 else m_x m); last_click_y := m_y m |}.

(** A press on a window, after it has the focus; [wd] as [focus] left it. *)
Definition press_window (e : env) s (m : mouse_event) wd : session A :=
  let h := Decor.hit_window wd (m_x m) (m_y m) in
  let twice := doubled e s m in
  let s := record_click e s m in
  match Decor.what h with
  | Decor.HitTitleBar =>
      if twice then toggle_maximized s wd
      else if negb (bool_decide (mode wd = Normal)) then s
      else {| s with drag := Moving (id wd) (m_x m - rx (display_rect wd)) (m_y m - ry (display_rect wd)) (user_rect wd) |}
  | Decor.HitMinimize => set_focused_mode s wd Minimized
  | Decor.HitMaximize => toggle_maximized s wd
  | Decor.HitClose => request_close e s wd
  | Decor.HitEdgeRight | Decor.HitEdgeBottom | Decor.HitCornerBR => {| s with drag := Resizing (id wd) (display_rect wd) |}
  | Decor.HitClient =>
      on_desk {| s with mouse_grab := id wd |}
        (fun d => call_app e d wd (app_mouse (local_mouse m (Decor.lx h) (Decor.ly h))))
  | _ => s
  end.

Definition press_desktop (e : env) s (m : mouse_event) : session A :=
  let ph := Panel.hit (s_panel s) (m_x m) (m_y m) in
  if negb (bool_decide (Panel.ph_what ph = Panel.PNone)) then press_panel e s m ph
  else
    match Window.hit (the_wm s) (m_x m) (m_y m) with
    | None =>
        if m_button m =? 2 then
          let s := refresh_menu_extras s in soil (with_menu s (Menu.open_at (s_menu s) (m_x m) (m_y m)))
        else s
    | Some wd =>
        let s := when (negb (focused (the_wm s) =? id wd)) (fun s => on_wm s (fun m => Window.focus m (id wd))) s in
        match Window.find (the_wm s) (id wd) with
        | Some wd => press_window e s m wd
        | None => s
        end
    end.

Definition press (e : env) s (m : mouse_event) : session A :=
  if modal_open s then press_modal e s m
  else if Help.h_open (s_help s) then soil {| s with s_help := Help.close (s_help s) |}
  else if menu_is_open s then press_menu e s m
  else if SnapAssist.sa_open (assist s) then
    let picked := SnapAssist.hit (assist s) (m_x m) (m_y m) in
    if negb (picked =? 0) then dock_into_free_half s picked
    else press_desktop e (soil {| s with assist := SnapAssist.close (assist s) |}) m
  else press_desktop e s m.

Definition on_mouse (e : env) s (m : mouse_event) : session A :=
  if bool_decide (m_action m = MMotion) && (m_button m =? 3) then cancel_drag s
  else if bool_decide (m_action m = MPress) && negb (idle s) then cancel_drag s
  else
    match drag s with
    | Moving win dx dy origin => moving e s m win dx dy origin
    | Resizing win o => resizing e s m win o
    | DragIdle =>
        if bool_decide (m_action m = MWheelUp) || bool_decide (m_action m = MWheelDown) then wheel e s m
        else if negb (mouse_grab s =? 0) && negb (bool_decide (m_action m = MPress)) then grabbed e s m
        else if negb (bool_decide (m_action m = MPress)) then s
        else press e s m
    end.

(** ** The keyboard *)

Definition modal_key (e : env) s (k : key_event) : session A :=
  soil match ke_key k with
       | KEscape => dismiss_modal s
       | KTab | KBackTab | KLeft | KRight => {| s with s_modal := Modal.focus_next (s_modal s) |}
       | KEnter => answer_modal e s (Modal.confirm (s_modal s))
       | _ => s
       end.

Definition arrow (k : key) : option Tile.snap_dir :=
  match k with
  | KLeft => Some Tile.SnapLeft | KRight => Some Tile.SnapRight
  | KUp => Some Tile.SnapUp | KDown => Some Tile.SnapDown | _ => None
  end.

Definition with_leader s (l : leader_dispatch) : session A := {| s with ldr := l |}.
Definition repeating s : bool := bool_decide (phase (ldr s) = Repeating).
Definition armed s : bool := bool_decide (phase (ldr s) = Armed).

Definition leader_key (e : env) s (k : key_event) : session A :=
  let '(l, r) := feed (ldr s) k in
  let s := with_leader s l in
  match la_action r with
  | Some a =>
      let s := do_action e s a in
      if repeating s then {| s with repeat_until := steady_now e + kRepeatWindow |} else s
  | None =>
      if consumed r then (if armed s then {| s with leader_stamp := steady_now e |} else s)
      else
        match focused_window s with
        | Some wd => on_desk s (fun d => call_app e d wd (app_key k))
        | None => s
        end
  end.

(** What the first key takes away, keeping its effect. *)
Definition first_key (e : env) s : session A :=
  let s := when (repeating s && (repeat_until s <? steady_now e)) (fun s => with_leader s (reset (ldr s))) s in
  let s := when (Help.h_open (s_help s)) (fun s => soil {| s with s_help := Help.close (s_help s) |}) s in
  when (SnapAssist.sa_open (assist s)) (fun s => soil {| s with assist := SnapAssist.close (assist s) |}) s.

Definition is_detach (k : key_event) : bool :=
  bool_decide (ke_key k = KChar) && (ke_ch k =? 113) && negb (Z.land (ke_mods k) Ctrl =? 0).

Definition on_key (e : env) s (k : key_event) : session A :=
  if negb (idle s) then cancel_drag s
  else if is_detach k then {| s with detach := true |}
  else if modal_open s then modal_key e s k
  else if menu_is_open s then menu_key e s k
  else
    let s := first_key e s in
    match arrow (ke_key k) with
    | Some dir =>
        if Z.land (ke_mods k) 7 =? Ctrl then snap_focused (with_leader s (reset (ldr s))) dir else leader_key e s k
    | None => leader_key e s k
    end.

Definition on_paste (e : env) s (text : bytes) (complete : bool) : session A :=
  let s := when (negb (idle s)) cancel_drag s in
  if modal_open s || menu_is_open s then s
  else
    match focused_window s with
    | None => s
    | Some wd => soil (on_desk s (fun d => call_app e d wd (app_paste text complete)))
    end.

Definition on_focus s (f : bool) : session A := when (negb f) cancel_drag s.

Definition on_input (e : env) s (ev : input_event) : session A :=
  let s := watchdog e s in
  match ev with
  | EvKey k => on_key e s k
  | EvMouse m => on_mouse e s m
  | EvPaste t c => on_paste e s t c
  | EvFocus f => on_focus s f
  end.

(** ** What the daemon brings *)

Definition report_modal s : session A :=
  if negb (UpdateService.has_report (update_ s)) then s
  else
    let '(report, u) := UpdateService.take_report (update_ s) in
    let s := {| s with update_ := u |} in
    let en := UpdateService.entry u in
    if bool_decide (s_modal_kind s = ApplyRunning) && UpdateService.restart_needed u then
      {| s with s_modal_kind := RestartForUpdate;
                s_modal := Modal.ask_named (s_modal s) (report ++ 10 :: restart_question s) 0 (str "Plus tard") (str "Redemarrer") |}
    else if UpdateService.e_enabled en && bool_decide (UpdateService.e_id en = str "update:apply") then
      {| s with s_modal_kind := ApplyUpdate;
                s_modal := Modal.ask_named (s_modal s) report 0 (str "Plus tard") (UpdateService.e_label en) |}
    else {| s with s_modal_kind := Information; s_modal := Modal.inform (s_modal s) report |}.

Fixpoint erase_child (pid : Z) (l : list child_watch) : list child_watch :=
  match l with
  | [] => []
  | c :: l => if cw_pid c =? pid then l else c :: erase_child pid l
  end.

Definition on_child_exit (e : env) s (pid st : Z) : session A :=
  if UpdateService.owns (update_ s) pid then
    soil (report_modal {| s with update_ := UpdateService.on_child_exit (e_world e) (update_ s) pid st |})
  else
    match List.find (fun c => cw_pid c =? pid) (children (dk s)) with
    | None => s
    | Some c =>
        let s := on_desk s (fun d => {| d with children := erase_child pid (children d) |}) in
        match Window.find (the_wm s) (cw_win c) with
        | None => s
        | Some wd => soil (on_desk s (fun d => call_app e d wd (app_child_exit st)))
        end
    end.

Definition on_fd_event (e : env) s (key events : Z) : session A :=
  match Window.find (the_wm s) (key_window key) with
  | None => s
  | Some wd =>
      match hosts (dk s) !! id wd with
      | None => s
      | Some _ => on_desk s (fun d => call_app e d wd (fun a h => fst (deliver a h key events)))
      end
  end.

Definition help_delay_ms (e : env) s : Z :=
  if negb (armed s) || Help.h_open (s_help s) then -1
  else
    let due := leader_stamp s + kHelpDelay in
    if due <=? steady_now e then 0 else Z.quot (due - steady_now e) 1000000.

Definition refresh_delay_ms s : Z :=
  fold_left (fun best wd =>
    let want := refresh_ms (app wd) in
    if want <? 0 then best else if (best <? 0) || (want <? best) then want else best) (stack (the_wm s)) 1000.

(** The windows are walked as they are when their turn comes. *)
Definition refresh_one (e : env) d (i : window_id) : desk A :=
  match Window.find (wm d) i with
  | None => d
  | Some wd => if 0 <=? refresh_ms (app wd) then call_app e d wd app_refresh else d
  end.

Definition mark_refresh_due (e : env) s : session A :=
  let s := refresh_update_modal (svc (soil s) (UpdateService.tick (e_world e) (update_ s))) in
  on_desk s (fun d => fold_left (refresh_one e) (id <$> stack (wm d)) d).

Definition take_dirty (e : env) s : session A * bool :=
  let '(c, changed) := Clock.update (s_clock s) (e_time e) (e_date e) in
  let s := when changed soil {| s with s_clock := c |} in
  let s := when (help_delay_ms e s =? 0) (fun s => soil {| s with s_help := Help.open (s_help s) |}) s in
  (on_desk s (fun d => {| d with dirty := false |}), dirty (dk s)).

Definition take_repaint s : session A * bool := ({| s with repaint := false |}, repaint s).
Definition take_detach s : session A * bool := ({| s with detach := false |}, detach s).

Definition update_delay_ms (e : env) s : Z := UpdateService.delay_ms (e_world e) (update_ s).
Definition wants_update_restart s : bool := UpdateService.s_wants_restart (update_ s).

Definition set_output s (p : Profile.output_profile) : session A :=
  {| s with out := p; s_theme := for_profile defaults p |}.

(** A new session, after its first reading of the update state. *)
Definition session_new (e : env) (st : settings) (dsk : disk) : session A :=
  let r := UpdateService.tick (e_world e) UpdateService.service_new in
  Session (Desk manager_new ∅ kGenFirstDynamic [] [] st dsk [] false) DragIdle 0
    (Profile.OutputProfile Profile.Mono16 false) (for_profile defaults (Profile.OutputProfile Profile.Mono16 false))
    false Panel.panel_new Clock.clock_new Menu.menu_new Modal.modal_new (fst r) (snd r) Help.help_new
    (LeaderDispatch 97 Idle) 0 0 false 0 (-1) (-1) false false CloseWindow SysInfo.sys_info_new (Rect 0 0 80 23) None 0 SnapAssist.snap_assist_new (Rect 0 0 0 0).

End Session.
