(* ===== verification/SessionRender.v ===== *)
(** * The composition of the session: [src/daemon/session.cpp], [render]

    What one frame does to the session -- it opens what applications asked to open,
    closes what they asked to close, seeds the first window, lays the windows out --
    and what it paints, in the order of the source.  The factory that the tests put in
    place of the first application is not modelled. *)

From stdpp Require Import gmap.
From S2P Require Import Prelude StdString Input Cell Width Surface Desktop Theme Shortcuts Window Config Host Session.
From S2P Require UpdateService Catalog Menu Modal SnapAssist Help Panel Tile Decor Profile Clock SysInfo.

Definition kMinCols : Z := 40.
Definition kMinRows : Z := 12.
Definition kFullWarning : bytes := str "terminal trop petit - 40x12 minimum".
Definition kShortWarning : bytes := str "trop petit".
Definition kDefaultApp : bytes := str "terminal".
Definition kCountersW : Z := 36.
Definition kCountersTop : Z := 3.

Section Render.
Context {A : Type} `{Application A} (make : bytes -> A) (amb : bool).
Implicit Types (s : session A) (wd : window A) (d : desk A).

(** ** What a frame reads *)

Definition session_border s : border := if Profile.p_utf8 (out s) then BorderUnicode else BorderAscii.

Definition leader_up s : Z := let c := leader (ldr s) in if (97 <=? c) && (c <=? 122) then c - 97 + 65 else c.
Definition leader_label s : bytes := str "Ctrl+" ++ [to_u8 (leader_up s)].
Definition panel_hint s : bytes := str "^" ++ [to_u8 (leader_up s)] ++ str " = aide".

Definition ensure_window (e : env) s : session A :=
  if seeded s then s else fst (open_from_catalog make e {| s with seeded := true |} kDefaultApp).

(** ** What applications asked for *)

Definition serve_pending (e : env) s : session A :=
  match pending (dk s) with
  | [] => s
  | (a, i) :: rest =>
      soil (on_desk s (fun d => fst (open_window e {| d with pending := rest |} a (last_work s) i)))
  end.

Definition clear_close wd : window A := {| wd with close_requested := false |}.

Definition serve_closes (e : env) s : session A :=
  match List.find close_requested (stack (the_wm s)) with
  | None => s
  | Some wd =>
      request_close e (on_wm s (fun m => with_stack m (update (id wd) clear_close (stack m)))) (clear_close wd)
  end.

(** ** Painting *)

Definition draw_empty_hint s (v : view) (sf : surface) (work : rect) : surface :=
  let burger := if Profile.p_utf8 (out s) then [0xE2; 0x98; 0xB0] else str "=" in
  let st := Style (panel_fg (s_theme s)) (desktop_bg (s_theme s)) 0 in
  let top := ry work + Z.quot (rh work - 2) 2 in
  let line sf i t :=
    let txt := elide_to_cells amb t (rw work) [] in
    let x := rx work + Z.quot (rw work - text_cells amb txt) 2 in
    fst (text amb v sf (if x <? rx work then rx work else x) (top + i) txt st) in
  let sf := line sf 0 (str "Bureau vide") in
  line sf 1 (str "Clic droit ici, ou " ++ burger ++ str " en bas, pour ouvrir le menu").

Definition size_of (r : rect) : size := Size (rw r) (rh r).

(** The window hears of its size if it has changed. *)
Definition announce_size (e : env) d wd : desk A :=
  let cs := size_of (client_rect (display_rect wd)) in
  if decide (cs = sent_size wd) then d
  else
    let d := call_app e d wd (app_resize cs) in
    with_wm d (with_stack (wm d) (update (id wd) (fun wd => {| wd with sent_size := cs |}) (stack (wm d)))).

(** Where the caret of a window goes on the screen; outside of its view, nowhere. *)
Definition caret_at (cr : rect) (a : A) : option pos :=
  match wants_cursor a with
  | Some p => if contains cr (rx cr + px p) (ry cr + py p) then Some (Pos (rx cr + px p) (ry cr + py p)) else None
  | None => None
  end.

Record canvas := Canvas { cv_desk : desk A; cv_surface : surface; cv_cursor : option pos }.

Definition paint_window (e : env) (v : view) (foc : window_id) (th : theme) (b : border) (c : canvas) (i : window_id) : canvas :=
  match Window.find (wm (cv_desk c)) i with
  | None => c
  | Some wd =>
      if decide (mode wd = Minimized) then c
      else
        let cr := client_rect (display_rect wd) in
        let d := announce_size e (cv_desk c) wd in
        match Window.find (wm d) i with
        | None => c
        | Some wd =>
            let sf := Decor.draw_decor amb v (cv_surface c) wd (id wd =? foc) th b in
            let r := app_render amb (size_of (sub v cr)) (app wd) (host_of e d wd) in
            let d := after_call d wd (fst r) in
            let sf := fold_left (draw amb (sub v cr)) (snd r) sf in
            Canvas d sf
              (if id wd =? foc then match caret_at cr (fst (fst r)) with Some p => Some p | None => cv_cursor c end
               else cv_cursor c)
        end
  end.

Definition paint_windows (e : env) (v : view) (th : theme) (b : border) d (sf : surface) : canvas :=
  fold_left (paint_window e v (focused (wm d)) th b) (ids (stack (wm d))) (Canvas d sf None).

Definition draw_outline s (v : view) (sf : surface) (work : rect) : surface :=
  match drag s with
  | Resizing win o =>
      match Window.find (the_wm s) win with
      | Some wd =>
          box amb v sf (clamp_to o work (frame_min (app wd))) (session_border s)
            (Style (accent (s_theme s)) (desktop_bg (s_theme s)) 0)
      | None => sf
      end
  | _ => sf
  end.

(** The bar is laid out as it would be, and drawn unless the front window hides it. *)
Definition lay_panel s (cols rows : Z) : Panel.panel :=
  let p := Panel.set_update_badge (Panel.set_hint (s_panel s) (panel_hint s)) (UpdateService.badge (update_ s)) in
  Panel.layout amb p (the_wm s) cols rows (Profile.p_utf8 (out s)).

Definition panel_hidden s : bool :=
  match Window.find (the_wm s) (focused (the_wm s)) with Some wd => bool_decide (mode wd = Fullscreen) | None => false end.

Definition covered s : bool := menu_is_open s || Help.h_open (s_help s) || modal_open s.

Definition tick_clock (e : env) s : session A :=
  let '(c, changed) := Clock.update (s_clock s) (e_time e) (e_date e) in
  when changed soil {| s with s_clock := c |}.

(** What a frame changes before anything is painted over the desktop. *)
Definition settle (e : env) s (cols rows : Z) : session A :=
  let s := tick_clock e s in
  let s := serve_closes e (serve_pending e s) in
  let work := work_area cols rows (Panel.edge (s_panel s)) (Panel.thickness (s_panel s)) in
  let s := ensure_window e {| s with last_work := work |} in
  let s := on_wm s (fun m => relayout m work cols rows) in
  {| s with s_sysinfo := SysInfo.refresh (e_ms e) (e_proc e) (s_sysinfo s) |}.

(** The background: the signature, the counters if they fit, the hint of an empty desktop. *)
Definition paint_background s (v : view) (sf : surface) (work : rect) : surface :=
  let th := s_theme s in
  let b := session_border s in
  let sf := SysInfo.draw_banner amb (sub v work) sf th b in
  let cw := Z.min kCountersW (Z.quot (rw work) 2) in
  let sf :=
    if (24 <=? cw) && (kCountersTop + 8 <? rh work)
    then SysInfo.draw_sysinfo amb (s_sysinfo s)
           (sub v (Rect (rx work + rw work - cw - 1) (ry work + kCountersTop) cw (rh work - kCountersTop))) sf th b
    else sf in
  match stack (the_wm s) with [] => draw_empty_hint s v sf work | _ => sf end.

(** What lies over the windows, from the outline to the modal. *)
Definition lay_overlays s (cols rows : Z) : session A :=
  {| s with s_menu := Menu.layout (s_menu s) cols rows; s_help := Help.layout amb (s_help s) cols rows;
            s_modal := Modal.layout (s_modal s) cols rows |}.

Definition paint_overlays s (v : view) (sf : surface) (work : rect) : surface :=
  let th := s_theme s in
  let b := session_border s in
  let sf := draw_outline s v sf work in
  let sf := SnapAssist.draw_assist amb (assist s) v sf th b in
  let sf := if panel_hidden s then sf
            else Panel.draw_panel amb (s_panel s) v sf th (Clock.c_text (s_clock s)) (Clock.c_date (s_clock s)) in
  let sf := Menu.draw_menu amb (s_menu s) v sf th b in
  let sf := Help.draw_help amb (s_help s) v sf th b (leader_label s) (Profile.p_utf8 (out s)) in
  Modal.draw_modal amb (s_modal s) v sf th b.

Definition too_small (cols rows : Z) : bool := (cols <? kMinCols) || (rows <? kMinRows).

Definition paint_warning s (v : view) (sf : surface) : surface :=
  fst (text amb v sf 0 0 (if zlen kFullWarning <=? s_w sf then kFullWarning else kShortWarning)
         (Style (panel_fg (s_theme s)) CDefault 0)).

(** A frame starts from an idle gesture that has waited too long, and from no caret. *)
Definition before_frame (e : env) s : session A :=
  let s := watchdog e s in
  {| s with s_cursor := None |}.

Definition paint_ground s (v : view) (sf : surface) : surface :=
  fill v sf (Rect 0 0 (s_w sf) (s_h sf)) (Style CDefault (desktop_bg (s_theme s)) 0).

(** The layouts of a frame once its windows are painted: the bar, the caret, the overlays. *)
Definition lay_desktop s (cols rows : Z) (cursor : option pos) : session A :=
  let s := {| s with s_panel := lay_panel s cols rows |} in
  let s := {| s with s_cursor := if covered s then None else cursor |} in
  lay_overlays s cols rows.

(** The painting of a settled desktop. *)
Definition paint_desktop (e : env) s (v : view) (sf : surface) (cols rows : Z) : session A * surface :=
  let work := last_work s in
  let sf := paint_background s v sf work in
  let c := paint_windows e v (s_theme s) (session_border s) (dk s) sf in
  let s := {| s with dk := cv_desk c |} in
  let s := lay_desktop s cols rows (cv_cursor c) in
  (s, paint_overlays s v (cv_surface c) work).

Definition render (e : env) s (sf : surface) : session A * surface :=
  let s := before_frame e s in
  let v := root sf in
  let cols := s_w sf in
  let rows := s_h sf in
  let sf := paint_ground s v sf in
  if too_small cols rows then (s, paint_warning s v sf)
  else paint_desktop e (settle e s cols rows) v sf cols rows.

End Render.
