(* ===== verification/SessionDemo.v ===== *)
(** * A small application, and sessions to try the theorems on

    An application that only knows whether it may be closed, counts the keys it gets
    and sets its title; a session with a terminal-sized desktop and such windows. *)

From stdpp Require Import gmap.
From S2P Require Import Prelude StdString Input Cell Surface Desktop Theme Window Config Host Session SessionRender.
From S2P Require UpdateService SysInfo.

Record toy := Toy { toy_free : bool; toy_keys : Z }.

#[export] Program Instance toy_app : Application toy := {
  app_min := {| min_size := fun _ => Size 10 3 |};
  attach := fun a h => (a, set_title h (str "jouet"));
  app_key := fun k a h => (Toy (toy_free a) (toy_keys a + 1), invalidate h);
  app_mouse := fun m a h => (a, h);
  app_paste := fun t c a h => (a, h);
  app_resize := fun z a h => (a, h);
  app_child_exit := fun st a h => (a, h);
  app_command := fun c a h => (a, h);
  app_io := fun t e a h => ((a, h), IoOk);
  app_refresh := fun a h => (a, h);
  app_render := fun b z a h => ((a, h), [DrawText 0 0 (str "jouet") style_default]);
  wants_cursor := fun a => Some (Pos 1 1);
  refresh_ms := fun a => -1;
  can_close := fun a => if toy_free a then allow else ask (str "Travail non enregistre. Fermer ?");
}.
Next Obligation. intros. apply rtc_once, CallTitle. Qed.
Next Obligation. intros. apply rtc_once, CallInvalidate. Qed.
Next Obligation. intros. apply rtc_refl. Qed.
Next Obligation. intros. apply rtc_refl. Qed.
Next Obligation. intros. apply rtc_refl. Qed.
Next Obligation. intros. apply rtc_refl. Qed.
Next Obligation. intros. apply rtc_refl. Qed.
Next Obligation. intros. apply rtc_refl. Qed.
Next Obligation. intros. apply rtc_refl. Qed.
Next Obligation. intros. apply rtc_refl. Qed.
Next Obligation. intros. constructor; [|constructor]. split; by apply (bool_decide_unpack _). Qed.

Definition demo_make (_ : bytes) : toy := Toy false 0.

Definition demo_env (t : Z) : env :=
  Env (UpdateService.World 100000 (t * 1000000) [] (fun _ => false) (fun _ => true) (fun _ => 77))
    (Answers true 4096 false true) (str "12:34") (str "lun. 3") t (SysInfo.ProcFiles [] [] [] [] [] 4).

Definition demo_new : session toy := session_new (demo_env 0) (settings_new (str "/c/config") (str "/home/u") (Disk None None)) (Disk None None).

(** After one frame of 80 by 24: the first window is there. *)
Definition demo_first : session toy := fst (render demo_make false (demo_env 1) demo_new (resize 80 24)).

Example demo_has_a_window : ids (stack (the_wm demo_first)) = [1] /\ focused (the_wm demo_first) = 1.
Proof. by vm_compute. Qed.

(** The user has asked to quit the session, by the menu. *)
Definition demo_quitting : session toy := run_menu demo_make (demo_env 10) demo_first (str "session:quit").
