(* ===== verification/SessionSteps.v ===== *)
(** * What a reaction of the session does to its windows

    The desk seen as an abstract machine: windows are arranged, an application is
    called through its host, a window is opened or closed.  Every reaction of the
    session is shown to be a sequence of such steps, which step by step keep the
    invariant; what closes a window, and what reaches an application, is read off
    the sequence. *)

From stdpp Require Import gmap.
From S2P Require Import Prelude StdString Input Cell Surface Theme Shortcuts Window Config Host Session.
From S2P Require UpdateService Catalog Menu Modal SnapAssist Help Panel Tile Decor Profile Clock.

Section Steps.
Context {A : Type} `{Application A} (make : bytes -> A) (amb : bool).
Implicit Types (s : session A) (wd : window A) (d : desk A) (m : manager A).

(** ** The machine *)

(** A window that has only been moved, sized or named. *)
Definition same_window wd wd' : Prop :=
  id wd' = id wd /\ app wd' = app wd /\ mode wd' = mode wd /\ before_fullscreen wd' = before_fullscreen wd.

(** What moves windows about and changes neither their number nor their applications. *)
Inductive arrange : manager A -> manager A -> Prop :=
  | ArrangeFocus m i : i ∈ ids (stack m) -> arrange m (Window.focus m i)
  | ArrangeMode m i md work : arrange m (set_mode m i md work)
  | ArrangeRect m i r work : arrange m (set_rect m i r work)
  | ArrangeNext m : arrange m (focus_next m)
  | ArrangePrev m : arrange m (focus_prev m)
  | ArrangeOne m i f : (forall wd, same_window wd (f wd)) -> arrange m (with_stack m (update i f (stack m)))
  | ArrangeAll m f : (forall wd, same_window wd (f wd)) -> arrange m (with_stack m (f <$> stack m)).

Inductive arr : desk A -> desk A -> Prop :=
  | ArrDirty d b : arr d {| d with dirty := b |}
  | ArrWm d m : arrange (wm d) m -> arr d (with_wm d m).

(** A step that closes nothing. *)
Inductive quiet : desk A -> desk A -> Prop :=
  | QuietArr d d' : arr d d' -> quiet d d'
  | QuietCall e d wd f : wd ∈ stack (wm d) -> (forall a h, rtc host_call h (snd (f a h))) -> quiet d (call_app e d wd f)
  | QuietOpen e d a work i : next_id (wm d) + 1 < 2 ^ 32 -> quiet d (fst (open_window e d a work i))
  | QuietChild d pid : quiet d {| d with children := erase_child pid (children d) |}
  | QuietPending d rest : quiet d {| d with pending := rest |}.

(** A reaction: steps of some kind, or arrangements around the close of one window
    that could be closed. *)
Inductive reaction (Q : desk A -> desk A -> Prop) (e : env) (closable : window A -> Prop) d : desk A -> Prop :=
  | ReactQuiet d' : rtc Q d d' -> reaction Q e closable d d'
  | ReactClose d1 wd d' :
      rtc arr d d1 ->
      (exists wd', wd' ∈ stack (wm d1) /\ id wd' = id wd /\ app wd' = app wd) -> closable wd ->
      rtc arr (close_window e d1 wd) d' -> reaction Q e closable d d'.

(** ** What an arrangement keeps *)

Definition sig m : list (window_id * A) := (fun wd => (id wd, app wd)) <$> stack m.

Lemma ids_sig m : ids (stack m) = fst <$> sig m.
Proof. unfold ids, sig. rewrite <- list_fmap_compose. done. Qed.

Lemma sig_fmap m (f : window A -> window A) :
  (forall wd, id (f wd) = id wd) -> (forall wd, app (f wd) = app wd) -> sig (with_stack m (f <$> stack m)) = sig m.
Proof.
  intros Hi Ha. unfold sig. cbn [with_stack stack]. rewrite <- list_fmap_compose. apply list_fmap_ext.
  intros k wd _. cbn. by rewrite Hi, Ha.
Qed.

Lemma sig_update l i (f : window A -> window A) :
  (forall wd, id (f wd) = id wd) -> (forall wd, app (f wd) = app wd) ->
  (fun wd => (id wd, app wd)) <$> update i f l = (fun wd => (id wd, app wd)) <$> l.
Proof.
  intros Hi Ha. induction l as [|wd l IH]; [done|]. cbn [update]. destruct (_ =? _); cbn [fmap list_fmap].
  - by rewrite Hi, Ha.
  - by f_equal.
Qed.

Lemma sig_focus m i : sig (Window.focus m i) ≡ₚ sig m.
Proof.
  unfold sig. rewrite focus_stack, to_end_perm, <- list_fmap_compose.
  rewrite (list_fmap_ext _ (fun wd => (id wd, app wd))); [done|].
  intros k wd _. unfold compose, leave_fullscreen. by destruct (_ && _).
Qed.

Lemma sig_step m delta : sig (step m delta) ≡ₚ sig m.
Proof.
  unfold step. destruct (_ =? _)%nat; [done|]. cbv zeta.
  generalize (Z.of_nat (default (length (stack m) - 1)%nat (start_from 0 (focused m) (stack m)))) as start.
  generalize (length (stack m)) as fuel. intros fuel start. generalize 1 as k.
  induction fuel as [|fuel IH]; intros k; [done|]. cbn [step_from].
  destruct (stack m !! _) as [wd|]; [|done]. case_bool_decide; [apply IH|apply sig_focus].
Qed.

Lemma arrange_sig m m' : arrange m m' -> sig m' ≡ₚ sig m.
Proof.
  intros [m0 i Hi|m0 i md work|m0 i r work|m0|m0|m0 i f Hf|m0 f Hf].
  - apply sig_focus.
  - unfold set_mode. destruct (Window.find m0 i) as [wd|]; [|done]. cbv zeta. unfold sig. cbn [with_stack stack].
    rewrite sig_update; [|intros x; by destruct md..].
    destruct (_ && _); [|done]. rewrite <- list_fmap_compose.
    rewrite (list_fmap_ext _ (fun wd => (id wd, app wd))).
    + by rewrite sig_update.
    + intros k x _. unfold compose, leave_fullscreen. by destruct (_ && _).
  - unfold set_rect, sig. cbn [with_stack stack]. by rewrite sig_update.
  - apply sig_step.
  - apply sig_step.
  - unfold sig. cbn [with_stack stack]. by rewrite sig_update; [|intros x; apply Hf..].
  - rewrite sig_fmap; [done|intros x; apply Hf..].
Qed.

Lemma step_next_id m delta : next_id (step m delta) = next_id m.
Proof.
  unfold step. destruct (_ =? _)%nat; [done|]. cbv zeta. generalize 1 as k.
  generalize (Z.of_nat (default (length (stack m) - 1)%nat (start_from 0 (focused m) (stack m)))) as start.
  generalize (length (stack m)) as fuel.
  induction fuel as [|fuel IH]; intros start k; [done|]. cbn [step_from].
  destruct (stack m !! _) as [wd|]; [|done]. case_bool_decide; [apply IH|done].
Qed.

Lemma arrange_next_id m m' : arrange m m' -> next_id m' = next_id m.
Proof.
  intros [m0 i Hi|m0 i md work|m0 i r work|m0|m0|m0 i f Hf|m0 f Hf]; try done; try apply step_next_id.
  unfold set_mode. by destruct (Window.find m0 i).
Qed.

Lemma arrange_ok m m' : arrange m m' -> manager_ok m -> manager_ok m'.
Proof.
  intros [m0 i Hi|m0 i md work|m0 i r work|m0|m0|m0 i f Hf|m0 f Hf] Hok.
  - apply manager_ok_focus; [apply Hok|apply Hok|done].
  - by apply manager_ok_set_mode.
  - by apply manager_ok_set_rect.
  - by apply manager_ok_step.
  - by apply manager_ok_step.
  - rewrite update_fmap by apply Hok. apply manager_ok_fmap; try done; intros x; (destruct (_ =? _); [apply Hf|done]).
  - apply manager_ok_fmap; try done; intros x; apply Hf.
Qed.

(** ** The invariant of the desk *)

(** What epoll watches is in the list of a host. *)
Definition watched_by_hosts d : Prop :=
  forall fd key, epoll (fds d) !! fd = Some key -> exists i l, hosts d !! i = Some l /\ (key, fd) ∈ l.

(** Every host, child and watch belongs to a window of the desktop. *)
Record desk_ok d : Prop := DeskOk {
  ok_wm : manager_ok (wm d);
  ok_hosts : forall i, is_Some (hosts d !! i) -> i ∈ ids (stack (wm d));
  ok_children : Forall (fun c => cw_win c ∈ ids (stack (wm d))) (children d);
  ok_watched : forall i l, hosts d !! i = Some l -> Forall (fun p => key_window (fst p) = i) l;
  ok_gen : 0 <= fd_gen d < 2 ^ 32;
  ok_fds : watched_by_hosts d;
}.

Lemma desk_ok_wm d m :
  manager_ok m -> (forall i, i ∈ ids (stack (wm d)) -> i ∈ ids (stack m)) -> desk_ok d -> desk_ok (with_wm d m).
Proof.
  intros Hm Hi []. constructor; cbn; try done; [auto|]. eapply List.Forall_impl; [|exact ok_children0]. cbn. auto.
Qed.

Lemma arr_ok d d' : arr d d' -> desk_ok d -> desk_ok d'.
Proof.
  intros [d0 b|d0 m0 Hm] Hok; [by destruct Hok|]. apply desk_ok_wm; [|intros i|done].
  - eapply arrange_ok; [done|apply Hok].
  - rewrite !ids_sig. by rewrite (arrange_sig _ _ Hm).
Qed.

Lemma update_ids (i : window_id) (f : window A -> window A) (l : list (window A)) :
  (forall wd, id (f wd) = id wd) -> ids (update i f l) = ids l.
Proof. intros Hf. unfold ids. induction l as [|x l IH]; [done|]. cbn [update]. destruct (_ =? _); cbn; [by rewrite Hf|by f_equal]. Qed.

Lemma after_call_ok d wd a h h0 :
  id wd ∈ ids (stack (wm d)) -> host_changes h0 h -> h_win h0 = id wd -> h_gen h0 = fd_gen d ->
  h_children h0 = children d -> h_watched h0 = default [] (hosts d !! id wd) -> h_fds h0 = fds d ->
  (forall P, accounted P h0 -> accounted P h) ->
  desk_ok d -> desk_ok (after_call d wd (a, h)).
Proof.
  intros Hin (W & O & (l & C & F) & _) E1 E2 E3 E4 E5 Hacc [K1 K2 K3 K4 K5 K6]. cbn [after_call].
  assert (host_ok h0) as Hh0.
  { split; [by rewrite E2|]. rewrite E1, E4. destruct (hosts d !! id wd) eqn:E; [|constructor]. by apply (K4 (id wd)). }
  destruct (O Hh0) as [Hg Hw].
  assert (forall g, (forall x, id (g x) = id x) -> ids (update (id wd) g (stack (wm d))) = ids (stack (wm d))) as Hids
    by (intros g Hg'; by apply update_ids).
  constructor; cbn [wm hosts children fd_gen].
  - rewrite update_fmap by apply K1. apply manager_ok_fmap; try done; intros x; by destruct (_ =? _).
  - cbn [with_stack stack]. rewrite Hids by done. intros i. destruct (decide (i = id wd)) as [->|]; [done|].
    rewrite lookup_insert_ne by done. apply K2.
  - cbn [with_stack stack]. rewrite Hids by done. rewrite C, E3. apply Forall_app. split; [done|].
    eapply List.Forall_impl; [|exact F]. cbn. intros c ->. by rewrite E1.
  - intros i l'. destruct (decide (i = id wd)) as [->|].
    + rewrite lookup_insert_eq. intros [= <-]. by rewrite <- E1, <- W.
    + rewrite lookup_insert_ne by done. apply K4.
  - done.
  - intros fd key Hk. set (P := fun key fd => exists i l, i <> id wd /\ hosts d !! i = Some l /\ (key, fd) ∈ l).
    assert (accounted P h) as Ha.
    { apply Hacc. intros fd0 key0. rewrite E5, E4. intros (i & l0 & Hl & Hi)%K6.
      destruct (decide (i = id wd)) as [->|N]; [left; by rewrite Hl|right; by exists i, l0]. }
    destruct (Ha fd key Hk) as [Hl|(i & l0 & N & Hl & Hi)]; [exists (id wd), (h_watched h)|exists i, l0]; cbn [hosts].
    + by rewrite lookup_insert_eq.
    + by rewrite lookup_insert_ne.
Qed.

Lemma call_app_ok e d wd f :
  wd ∈ stack (wm d) -> (forall a h, rtc host_call h (snd (f a h))) -> desk_ok d -> desk_ok (call_app e d wd f).
Proof.
  intros Hin Hf Hok. unfold call_app. pose proof (host_calls_change _ _ (Hf (app wd) (host_of e d wd))) as Hc.
  pose proof (fun P => host_calls_accounted P _ _ (Hf (app wd) (host_of e d wd))) as Ha.
  destruct (f _ _) as [a h]. eapply after_call_ok; [|exact Hc|done..|exact Ha|done]. unfold ids. apply list_elem_of_fmap. by exists wd.
Qed.

Lemma open_sig m a work m' o :
  Window.open m a work = (m', o) ->
  match o with None => m' = m | Some i => i = next_id m /\ sig m' ≡ₚ sig m ++ [(i, a)] end.
Proof.
  unfold Window.open. destruct (_ <=? _)%nat; intros [= <- <-]; [done|]. split; [done|].
  rewrite sig_focus. unfold sig. cbn [stack]. by rewrite fmap_app.
Qed.

Lemma find_some_in m i : i ∈ ids (stack m) -> exists wd, Window.find m i = Some wd.
Proof. intros Hi. destruct (Window.find m i) as [wd|] eqn:E; [by exists wd|]. by apply find_none in E. Qed.

Lemma set_app_id_ok d i a : desk_ok d -> desk_ok (set_app_id d i a).
Proof.
  intros Hok. apply desk_ok_wm; [|intros j|done].
  - rewrite update_fmap by apply Hok. apply manager_ok_fmap; try done; try (intros x; by destruct (_ =? _)). apply Hok.
  - cbn [with_stack stack]. by rewrite update_ids.
Qed.

Lemma open_window_ok e d a work i :
  next_id (wm d) + 1 < 2 ^ 32 -> desk_ok d -> desk_ok (fst (open_window e d a work i)).
Proof.
  intros Hn Hok. unfold open_window. pose proof (manager_ok_open (wm d) a work Hn (ok_wm d Hok)) as Hm.
  destruct (Window.open (wm d) a work) as [m o] eqn:Eo. apply open_sig in Eo. cbn [fst] in Hm.
  destruct o as [j|]; cbn [fst]; [|subst m; apply desk_ok_wm; auto].
  destruct Eo as [-> Hs]. set (j := next_id (wm d)) in *.
  assert (forall k, k ∈ ids (stack m) <-> k ∈ ids (stack (wm d)) \/ k = j) as Hids.
  { intros k. rewrite !ids_sig, Hs, fmap_app, elem_of_app. cbn [fmap list_fmap fst]. by rewrite list_elem_of_singleton. }
  assert (desk_ok {| d with wm := m; hosts := <[j := []]> (hosts d) |}) as Hd.
  { destruct Hok as [K1 K2 K3 K4 K5 K6]. constructor; cbn; [done| | | |done|].
    - intros k. destruct (decide (k = j)) as [->|]; [intros _; apply Hids; by right|].
      rewrite lookup_insert_ne by done. intros Hk. apply Hids. left. by apply K2.
    - eapply List.Forall_impl; [|exact K3]. cbn. intros c Hc. apply Hids. by left.
    - intros k l. destruct (decide (k = j)) as [->|]; [rewrite lookup_insert_eq; by intros [= <-]|].
      rewrite lookup_insert_ne by done. apply K4.
    - intros fd key (k & l & Hl & Hk)%K6. exists k, l. split; [|done]. cbn [hosts]. rewrite lookup_insert_ne; [done|].
      intros <-. assert (j ∈ ids (stack (wm d))) as Hj by (apply K2; by exists l).
      destruct K1 as (_ & (_ & Hlt & _) & _). unfold ids in Hj. apply list_elem_of_fmap in Hj as (wd & Ej & Hwd).
      pose proof (proj1 (list.Forall_forall _ _) Hlt) as Hlt'. specialize (Hlt' wd Hwd). destruct Hlt'; unfold j in Ej; lia. }
  apply (set_app_id_ok _ j i) in Hd. set (d1 := set_app_id _ _ _) in *.
  destruct (Window.find (wm d1) j) as [wd|] eqn:Ef; cbn [fst]; [|done].
  apply find_ids in Ef as [_ Hin]. apply call_app_ok; [done|apply attach_calls|done].
Qed.

Lemma erase_app i (l : list (window A)) : NoDup (ids l) -> i ∈ ids l ->
  exists l1 wd l2, l = l1 ++ wd :: l2 /\ id wd = i /\ erase_window i l = l1 ++ l2 /\ i ∉ ids (l1 ++ l2).
Proof.
  intros Hn Hi. destruct (ids_split i l Hi) as (l1 & wd & l2 & -> & Hw & H1). exists l1, wd, l2.
  split_and!; [done|done|by apply erase_window_app|]. unfold ids in *. rewrite fmap_app, fmap_cons in Hn.
  apply list.NoDup_app in Hn as (_ & _ & H2). apply list.NoDup_cons in H2 as [H2 _]. rewrite Hw in H2.
  rewrite fmap_app, elem_of_app. by intros [|].
Qed.

(** What a close leaves: all the windows but the one. *)
Lemma close_sig m i : manager_ok m -> i ∈ ids (stack m) ->
  exists a, sig m ≡ₚ (i, a) :: sig (fst (Window.close m i)) /\ i ∉ ids (stack (fst (Window.close m i))).
Proof.
  intros (_ & (Hn & _) & _) Hi. unfold Window.close. destruct (find_some_in m i Hi) as [wd ->]. cbn [fst].
  destruct (erase_app i (stack m) Hn Hi) as (l1 & x & l2 & E1 & E2 & E3 & E4). exists (app x). cbn [stack]. rewrite E3. split; [|done].
  unfold sig. cbn [stack]. rewrite E1. rewrite !fmap_app, fmap_cons, E2. by rewrite Permutation_middle.
Qed.

Lemma close_window_ok e d wd :
  id wd ∈ ids (stack (wm d)) -> desk_ok d -> desk_ok (close_window e d wd).
Proof.
  intros Hi [K1 K2 K3 K4 K5 K6]. unfold close_window. cbv zeta.
  destruct (close_sig (wm d) (id wd) K1 Hi) as (a & Hs & Hout).
  assert (forall j, j ∈ ids (stack (wm d)) -> j <> id wd -> j ∈ ids (stack (fst (Window.close (wm d) (id wd))))) as Hids.
  { intros j. rewrite !ids_sig, Hs. cbn [fmap list_fmap fst]. rewrite elem_of_cons. by intros [|]. }
  constructor; cbn [wm hosts children fd_gen]; [by apply manager_ok_close| | | |done|].
  - intros j [l Hl]. destruct (decide (j = id wd)) as [->|N]; [by rewrite lookup_delete_eq in Hl|].
    rewrite lookup_delete_ne in Hl by done. apply Hids; [apply K2; by exists l|done].
  - rewrite List.Forall_forall in K3 |- *. intros c Hc. apply List.filter_In in Hc as [Hc Hw]. zbool. apply Hids; auto.
  - intros j l Hl. destruct (decide (j = id wd)) as [->|N]; [by rewrite lookup_delete_eq in Hl|].
    rewrite lookup_delete_ne in Hl by done. by apply K4.
  - intros fd key. cbn [fds hosts]. rewrite epoll_unwatch_all. destruct (decide _) as [|Hn]; [done|]. cbn [host_of h_fds h_watched] in *.
    intros (i & l & Hl & Hk)%K6. exists i, l. split; [|done]. rewrite lookup_delete_ne; [done|]. intros <-.
    apply Hn. rewrite Hl. apply list_elem_of_fmap. by exists (key, fd).
Qed.

Lemma quiet_ok d d' : quiet d d' -> desk_ok d -> desk_ok d'.
Proof.
  intros [d0 d1 Ha|e d0 wd f Hin Hf|e d0 a work i Hn|d0 pid|d0 rest] Hok; [..|by destruct Hok].
  - by eapply arr_ok.
  - by apply call_app_ok.
  - by apply open_window_ok.
  - destruct Hok as [K1 K2 K3 K4 K5 K6]. constructor; cbn; try done.
    rewrite List.Forall_forall in K3 |- *. intros c Hc. apply K3. clear -Hc.
    induction (children d0) as [|x l IH]; [done|]. cbn in Hc. destruct (_ =? _); [by right|].
    destruct Hc as [->|Hc]; [by left|right; by apply IH].
Qed.

Lemma arrs_ok d d' : rtc arr d d' -> desk_ok d -> desk_ok d'.
Proof. induction 1; [done|]. intros Hok. apply IHrtc. by eapply arr_ok. Qed.

Lemma quiets_ok d d' : rtc quiet d d' -> desk_ok d -> desk_ok d'.
Proof. induction 1; [done|]. intros Hok. apply IHrtc. by eapply quiet_ok. Qed.

Lemma reaction_ok e c d d' : reaction quiet e c d d' -> desk_ok d -> desk_ok d'.
Proof.
  intros [d1 Hq|d1 wd d2 H1 (wd' & Hin & Hid & _) _ H2] Hok; [by eapply quiets_ok|].
  apply (arrs_ok _ _ H2), close_window_ok; [|by apply (arrs_ok _ _ H1)].
  unfold ids. apply list_elem_of_fmap. by exists wd'.
Qed.

(** An arrangement leaves everything but the places of the windows. *)
Lemma arrs_keep d d' : rtc arr d d' ->
  sig (wm d') ≡ₚ sig (wm d) /\ hosts d' = hosts d /\ fd_gen d' = fd_gen d /\ children d' = children d /\
  pending d' = pending d /\ d_settings d' = d_settings d /\ d_disk d' = d_disk d /\ fds d' = fds d /\ next_id (wm d') = next_id (wm d).
Proof.
  induction 1 as [d|d1 d2 d3 Ha _ IH]; [done|]. destruct IH as (S & E1 & E2 & E3 & E4 & E5 & E6 & E7 & E8).
  rewrite S, E1, E2, E3, E4, E5, E6, E7, E8. destruct Ha as [d0 b|d0 m Hm]; cbn; [done|].
  split_and!; try done; [by apply arrange_sig|by apply arrange_next_id].
Qed.

Lemma quiet_arrs d d' : rtc arr d d' -> rtc quiet d d'.
Proof. induction 1; [done|]. eapply rtc_l; [by apply QuietArr|done]. Qed.

End Steps.
