(* ===== verification/SessionProps.v ===== *)
(** * The reactions of the session, and what they guarantee

    Each handler is shown to be a reaction of the machine of SessionSteps; the theorems
    are read off: the invariant over any history, a modal that nothing gets behind,
    unsaved windows that no event closes, a gesture that can be taken back -- and the
    question that Escape leaves armed. *)

From stdpp Require Import gmap.
From S2P Require Import Prelude StdString Input Cell Surface Theme Shortcuts Window Config Host Session SessionDemo SessionSteps.
From S2P Require UpdateService Catalog Menu Modal SnapAssist Help Panel Tile Decor Profile Clock.

Section Reactions.
Context {A : Type} `{Application A} (make : bytes -> A) (amb : bool).
Implicit Types (s : session A) (wd : window A) (d : desk A) (m : manager A).

(** ** Composition *)

Lemma arr_soil s x : rtc arr x (dk s) -> rtc arr x (dk (soil s)).
Proof. intros Hx. eapply rtc_r; [exact Hx|]. apply (ArrDirty (dk s) true). Qed.

Lemma arr_on_wm s f x : rtc arr x (dk s) -> arrange (the_wm s) (f (the_wm s)) -> rtc arr x (dk (on_wm s f)).
Proof. intros Hx Hf. eapply rtc_r; [exact Hx|]. by apply ArrWm. Qed.

Lemma arr_user s i r x : rtc arr x (dk s) -> rtc arr x (dk (on_desk s (fun d => set_user_rect d i r))).
Proof. intros Hx. eapply rtc_r; [exact Hx|]. apply ArrWm. by apply ArrangeOne. Qed.

Lemma arr_mode s i md x : rtc arr x (dk s) -> rtc arr x (dk (on_wm s (fun m => set_mode m i md (last_work s)))).
Proof. intros Hx. apply arr_on_wm; [done|apply ArrangeMode]. Qed.

Lemma arr_cancel s x : rtc arr x (dk s) -> rtc arr x (dk (cancel_drag s)).
Proof. intros Hx. unfold cancel_drag. destruct (drag s); cbn [dk]; [done| |done]. by apply arr_user. Qed.

Lemma arr_watchdog e s x : rtc arr x (dk s) -> rtc arr x (dk (watchdog e s)).
Proof. intros Hx. unfold watchdog. destruct (idle s); [done|]. destruct (_ <=? _); [by apply arr_cancel|done]. Qed.

Lemma arr_ask_kind s k q x : rtc arr x (dk s) -> rtc arr x (dk (ask_kind s k q)).
Proof. intros Hx. by apply arr_soil. Qed.

Lemma arr_run_update e s i x : rtc arr x (dk s) -> rtc arr x (dk (run_update_command e s i)).
Proof.
  intros Hx. unfold run_update_command. destruct (negb _); [done|]. destruct (_ && _); [done|].
  repeat (case_bool_decide; [by apply arr_soil|]). done.
Qed.

Lemma find_id_in m i wd : Window.find m i = Some wd -> i ∈ ids (stack m).
Proof. intros (<- & Hin)%find_ids. unfold ids. apply list_elem_of_fmap. by exists wd. Qed.

Lemma arrange_ids m m' i : arrange m m' -> i ∈ ids (stack m) -> i ∈ ids (stack m').
Proof. intros Hm. rewrite !ids_sig. by rewrite (arrange_sig _ _ Hm). Qed.

Lemma arr_snap s dir x : rtc arr x (dk s) -> rtc arr x (dk (snap_focused amb s dir)).
Proof.
  intros Hx. unfold snap_focused. destruct (focused_window s) as [wd|]; [|done]. apply arr_soil. cbn [dk].
  apply arr_on_wm; [by apply arr_mode|apply ArrangeRect].
Qed.

Lemma arr_dock s i x : rtc arr x (dk s) -> rtc arr x (dk (dock_into_free_half s i)).
Proof.
  intros Hx. unfold dock_into_free_half. destruct (Window.find (the_wm s) i) as [wd|] eqn:E; [|done].
  apply arr_soil, arr_on_wm; [apply arr_on_wm; [by apply arr_mode|apply ArrangeRect]|].
  apply ArrangeFocus. eapply (arrange_ids (set_mode (the_wm s) i Normal (last_work s))); [apply ArrangeRect|].
  eapply arrange_ids; [apply ArrangeMode|]. by eapply find_id_in.
Qed.

Lemma arr_wms d x m : rtc arr x d -> rtc arrange (wm d) m -> rtc arr x (with_wm d m).
Proof.
  intros Hx Hm. remember (wm d) as m0 eqn:E. revert d x Hx E. induction Hm as [m0|m0 m1 m2 H1 _ IH]; intros d x Hx ->.
  - eapply rtc_r; [exact Hx|]. replace (with_wm d (wm d)) with {| d with dirty := dirty d |} by by destruct d. apply ArrDirty.
  - change (with_wm d m2) with (with_wm (with_wm d m1) m2). apply (IH (with_wm d m1)); [|done].
    eapply rtc_r; [exact Hx|by apply ArrWm].
Qed.

Lemma arr_tile s x : rtc arr x (dk s) -> rtc arr x (dk (tile_windows s)).
Proof.
  intros Hx. unfold tile_windows. case_bool_decide; [done|]. apply arr_soil. unfold on_wm, on_desk. cbn [dk last_work].
  apply arr_wms; [done|]. generalize (wm (dk s)) as m. generalize (zip (visible_ids (the_wm s)) (Tile.tile_rects (last_work s) (zlen (visible_ids (the_wm s))))) as ps.
  induction ps as [|p ps IH]; intros m; [done|]. cbn [fold_left].
  eapply rtc_l; [apply (ArrangeMode m (fst p) Normal (last_work s))|]. eapply rtc_l; [apply ArrangeRect|]. apply IH.
Qed.

Lemma arr_open_menu s x : rtc arr x (dk s) -> rtc arr x (dk (open_menu s)).
Proof. done. Qed.

Lemma arr_first_key e s x : rtc arr x (dk s) -> rtc arr x (dk (first_key e s)).
Proof.
  intros Hx. unfold first_key, when. destruct (_ && _); destruct (Help.h_open _); destruct (SnapAssist.sa_open _);
    repeat apply arr_soil; cbn [dk]; repeat apply arr_soil; done.
Qed.

(** ** Reactions *)

Variable e : env.
Variable c : window A -> Prop.

Section Kind.
Context (Q : desk A -> desk A -> Prop) (HQ : forall d d', arr d d' -> Q d d').

Lemma react_arr d d' : rtc arr d d' -> reaction Q e c d d'.
Proof. intros Hd. apply ReactQuiet. induction Hd; [done|]. eapply rtc_l; [by apply HQ|done]. Qed.

Lemma react_before d d1 d' : rtc arr d d1 -> reaction Q e c d1 d' -> reaction Q e c d d'.
Proof.
  intros H1 [d2 Hq|d2 wd d3 H2 Hin Hc H3].
  - apply ReactQuiet. etrans; [|done]. clear -HQ H1. induction H1; [done|]. eapply rtc_l; [by apply HQ|done].
  - eapply ReactClose; [by etrans|done..].
Qed.

Lemma react_after d d1 d' : reaction Q e c d d1 -> rtc arr d1 d' -> reaction Q e c d d'.
Proof.
  intros [d2 Hq|d2 wd d3 H2 Hin Hc H3] H1.
  - apply ReactQuiet. etrans; [done|]. clear -HQ H1. induction H1; [done|]. eapply rtc_l; [by apply HQ|done].
  - eapply ReactClose; [done..|by etrans].
Qed.

Lemma react_soil s x : reaction Q e c x (dk s) -> reaction Q e c x (dk (soil s)).
Proof. intros Hx. eapply react_after; [exact Hx|]. by apply arr_soil. Qed.

Lemma react_close s wd : wd ∈ stack (the_wm s) -> c wd -> reaction Q e c (dk s) (dk (on_desk s (fun d => close_window e d wd))).
Proof. intros Hin Hc. eapply (ReactClose Q e c _ (dk s) wd); [done|by exists wd|done|done]. Qed.

(** An answer closes the target of the question, at most. *)
Lemma react_answer s b :
  (forall wd, id wd = Modal.target (s_modal s) -> c wd) -> reaction Q e c (dk s) (dk (answer_modal e s b)).
Proof.
  intros Ht. unfold answer_modal. destruct b; [|apply react_arr; by apply arr_soil].
  destruct (s_modal_kind s); try (apply react_arr; by apply arr_soil).
  all: destruct (Window.find _ _) as [wd|] eqn:E; [|apply react_arr; by apply arr_soil];
    apply find_ids in E as [Ei Hin]; apply react_soil; apply react_close; auto.
Qed.

Lemma react_press_modal s (m : mouse_event) :
  (forall wd, id wd = Modal.target (s_modal s) -> c wd) -> reaction Q e c (dk s) (dk (press_modal e s m)).
Proof.
  intros Ht. unfold press_modal. destruct (Modal.hit _ _ _); apply react_soil; try (by apply react_arr); by apply react_answer.
Qed.

Lemma react_modal_key s k :
  (forall wd, id wd = Modal.target (s_modal s) -> c wd) -> reaction Q e c (dk s) (dk (modal_key e s k)).
Proof. intros Ht. unfold modal_key. apply react_soil. destruct (ke_key k); try (by apply react_arr). by apply react_answer. Qed.

End Kind.

Abbreviation react := (reaction quiet e c).

Lemma q_arr d d' : rtc arr d d' -> react d d'.
Proof. apply react_arr, QuietArr. Qed.

Lemma q_before d d1 d' : rtc arr d d1 -> react d1 d' -> react d d'.
Proof. apply react_before, QuietArr. Qed.

Lemma q_soil s x : react x (dk s) -> react x (dk (soil s)).
Proof. apply react_soil, QuietArr. Qed.

Lemma react_call s wd f : wd ∈ stack (the_wm s) -> (forall a h, rtc host_call h (snd (f a h))) ->
  react (dk s) (dk (on_desk s (fun d => call_app e d wd f))).
Proof. intros Hin Hf. apply ReactQuiet, rtc_once. by apply QuietCall. Qed.

Lemma react_open s i : next_id (the_wm s) + 1 < 2 ^ 32 -> react (dk s) (dk (fst (open_from_catalog make e s i))).
Proof.
  intros Hn. unfold open_from_catalog. destruct (Catalog.catalog_find i) as [cat|]; [|by apply q_arr].
  pose proof (QuietOpen e (dk s) (make (Catalog.cat_id cat)) (last_work s) (Catalog.cat_id cat) Hn) as Hq.
  destruct (open_window _ _ _ _ _) as [d w]. cbn [fst dk]. by apply ReactQuiet, rtc_once.
Qed.

Lemma react_focused s f : (forall a h, rtc host_call h (snd (f a h))) ->
  react (dk s) (dk match focused_window s with Some wd => on_desk s (fun d => call_app e d wd f) | None => s end).
Proof.
  intros Hf. unfold focused_window. destruct (Window.find _ _) as [wd|] eqn:E; [|by apply q_arr].
  apply react_call; [|done]. by apply find_ids in E as [_ ?].
Qed.

(** The same window, before and after its gesture is taken back. *)
Lemma same_after_arr d d1 wd : rtc arr d d1 -> wd ∈ stack (wm d) -> exists wd', wd' ∈ stack (wm d1) /\ id wd' = id wd /\ app wd' = app wd.
Proof.
  intros Hd Hin. destruct (arrs_keep _ _ Hd) as [Hs _].
  assert ((id wd, app wd) ∈ sig (wm d1)) as Hin1 by (rewrite Hs; unfold sig; apply list_elem_of_fmap; by exists wd).
  unfold sig in Hin1. apply list_elem_of_fmap in Hin1 as (wd' & E & Hin1). exists wd'. injection E. auto.
Qed.

Lemma react_request_close s wd :
  wd ∈ stack (the_wm s) -> (allowed (can_close (app wd)) = true -> c wd) -> react (dk s) (dk (request_close e s wd)).
Proof.
  intros Hin Hc. unfold request_close. cbv zeta. assert (rtc arr (dk s) (dk (cancel_drag s))) as Hd by by apply arr_cancel.
  destruct (allowed _) eqn:Ea.
  - eapply (ReactClose quiet e c _ (dk (cancel_drag s)) wd); [done|by eapply same_after_arr|auto|done].
  - apply q_arr. by apply arr_soil.
Qed.

Hypothesis closable : forall wd, allowed (can_close (app wd)) = true -> c wd.

Lemma react_action s a : react (dk s) (dk (do_action amb e s a)).
Proof.
  eapply q_before; [apply (arr_soil s); done|]. unfold do_action. set (t := soil s).
  assert (react (dk t) (dk t)) as H0 by by apply q_arr.
  destruct a; try (apply q_arr; by apply arr_snap); try exact H0;
    try (apply q_arr; apply arr_on_wm; [done|constructor]); try (apply q_arr; by apply arr_open_menu).
  all: unfold focused_window; destruct (Window.find _ _) as [wd|] eqn:E; [|exact H0]; pose proof (find_ids _ _ _ E) as [_ Hin];
    cbn [nudge]; try (apply q_arr; by apply arr_user); try (apply q_arr; by apply arr_mode).
  - by apply react_request_close; [|apply closable].
  - apply react_call; [done|apply key_calls].
Qed.

Lemma react_menu s i : next_id (the_wm s) + 1 < 2 ^ 32 -> react (dk s) (dk (run_menu make e s i)).
Proof.
  intros Hn. eapply q_before; [apply (arr_soil {| s with s_menu := Menu.close (s_menu s) |}); done|].
  unfold run_menu. set (t := soil _). assert (react (dk t) (dk t)) as H0 by by apply q_arr.
  destruct (starts _ _); [by apply react_open|]. destruct (starts _ _).
  { unfold when. repeat (case_bool_decide; try exact H0). }
  destruct (starts _ _); [apply react_focused; apply command_calls|].
  case_bool_decide; [apply q_arr; by apply arr_tile|]. case_bool_decide; [exact H0|].
  destruct (is_prefix _ _); [apply q_arr; by apply arr_run_update|].
  case_bool_decide; [apply q_arr; by apply arr_ask_kind|exact H0].
Qed.

Lemma react_menu_key s k : next_id (the_wm s) + 1 < 2 ^ 32 -> react (dk s) (dk (menu_key make e s k)).
Proof.
  intros Hn. unfold menu_key. destruct (ke_key k); try (apply q_arr; by apply arr_soil).
  - destruct (negb _); apply q_arr; by apply arr_soil.
  - destruct (Menu.selected _); [by apply react_menu|apply q_arr; by apply arr_soil].
Qed.

Lemma react_leader s k : react (dk s) (dk (leader_key amb e s k)).
Proof.
  unfold leader_key. destruct (feed (ldr s) k) as [l r]. destruct (la_action r) as [a|].
  - pose proof (react_action (with_leader s l) a) as Ha. by destruct (repeating _).
  - destruct (consumed r); [by destruct (armed _); apply q_arr|].
    apply (react_focused (with_leader s l)). apply key_calls.
Qed.

(** ** The mouse *)

Lemma arr_moving s (m : mouse_event) win dx dy origin x : rtc arr x (dk s) -> rtc arr x (dk (moving e s m win dx dy origin)).
Proof.
  intros Hx. unfold moving. destruct (Window.find _ _) as [wd|]; [|by apply arr_cancel]. cbv zeta.
  set (t := on_desk {| s with drag_stamp := _ |} _). assert (rtc arr x (dk t)) as Ht by by apply arr_user.
  destruct (decide _); [|done]. unfold when. destruct (negb _); [|done]. cbn [finish_drag dk]. by apply arr_user.
Qed.

Lemma arr_resizing s (m : mouse_event) win o x : rtc arr x (dk s) -> rtc arr x (dk (resizing e s m win o)).
Proof.
  intros Hx. unfold resizing. destruct (Window.find _ _) as [wd|]; [|by apply arr_cancel]. cbv zeta.
  destruct (decide _); [|done]. cbn [finish_drag dk]. by apply arr_user.
Qed.

Lemma hit_in m x y wd : Window.hit m x y = Some wd -> wd ∈ stack m.
Proof. unfold Window.hit. intros Hh. apply List.find_some in Hh as [Hin _]. apply list_elem_of_In. by apply List.in_rev. Qed.

Lemma react_wheel s (m : mouse_event) : react (dk s) (dk (wheel e s m)).
Proof.
  unfold wheel. destruct (_ || _); [by apply q_arr|]. destruct (Window.hit _ _ _) as [wd|] eqn:E; [|by apply q_arr].
  destruct (negb _); [by apply q_arr|]. apply q_soil, react_call; [by eapply hit_in|apply mouse_calls].
Qed.

Lemma react_grabbed s (m : mouse_event) : react (dk s) (dk (grabbed e s m)).
Proof.
  unfold grabbed. destruct (Window.find _ _) as [wd|] eqn:E; [|destruct (decide _); by apply q_arr].
  apply find_ids in E as [_ Hin].
  set (t := soil _). assert (react (dk s) (dk t)) as Ht by (apply q_soil, react_call; [done|apply mouse_calls]).
  by destruct (decide _).
Qed.

Lemma react_press_menu s (m : mouse_event) : next_id (the_wm s) + 1 < 2 ^ 32 -> react (dk s) (dk (press_menu make e s m)).
Proof.
  intros Hn. unfold press_menu. destruct (Menu.mh_what _); try (apply q_arr; by apply arr_soil).
  destruct (_ && _); [|by apply q_arr]. destruct (Menu.shown _ !! _); [by apply react_menu|by apply q_arr].
Qed.

Lemma arr_focus_in s i md x : rtc arr x (dk s) -> i ∈ ids (stack (the_wm s)) ->
  rtc arr x (dk (on_wm (on_wm s (fun m => set_mode m i md (last_work s))) (fun m => Window.focus m i))).
Proof.
  intros Hx Hi. apply arr_on_wm; [by apply arr_mode|]. apply ArrangeFocus. eapply arrange_ids; [apply ArrangeMode|done].
Qed.

Lemma react_focus_or_open s i : next_id (the_wm s) + 1 < 2 ^ 32 -> react (dk s) (dk (focus_or_open make e s i)).
Proof.
  intros Hn. unfold focus_or_open. destruct (List.find _ _) as [wd|] eqn:E; [|by apply q_soil, react_open].
  apply List.find_some in E as [Hin _]. apply list_elem_of_In in Hin.
  assert (id wd ∈ ids (stack (the_wm s))) as Hi by (unfold ids; apply list_elem_of_fmap; by exists wd).
  apply q_soil, q_arr. unfold when. case_bool_decide; [by apply arr_focus_in|].
  apply arr_on_wm; [done|by apply ArrangeFocus].
Qed.

Lemma react_press_panel s (m : mouse_event) ph : next_id (the_wm s) + 1 < 2 ^ 32 -> react (dk s) (dk (press_panel make e s m ph)).
Proof.
  intros Hn. eapply q_before; [by apply (arr_soil s)|]. unfold press_panel. set (t := soil s).
  assert (next_id (the_wm t) + 1 < 2 ^ 32) as Hn' by done.
  destruct (Panel.ph_what ph); try (by apply q_arr).
  - unfold press_pinned. destruct (_ && _); [|by apply q_arr]. destruct (_ !! _); [|by apply q_arr].
    destruct (_ =? _); [by apply react_open|by apply react_focus_or_open].
  - unfold press_task. destruct (Window.find _ _) as [wd|] eqn:E; [|by apply q_arr].
    apply find_ids in E as [Ei Hin]. assert (id wd ∈ ids (stack (the_wm t))) as Hi by (unfold ids; apply list_elem_of_fmap; by exists wd).
    destruct (_ =? 2); [case_bool_decide; [by apply q_arr|by apply react_open]|].
    apply q_arr. case_bool_decide; [by apply arr_focus_in|].
    destruct (_ =? _); [by apply arr_mode|]. apply arr_on_wm; [done|by apply ArrangeFocus].
  - apply q_arr. by apply arr_run_update.
Qed.

Lemma react_press_window s (m : mouse_event) wd : wd ∈ stack (the_wm s) -> react (dk s) (dk (press_window e s m wd)).
Proof.
  intros Hin. unfold press_window. cbv zeta. set (t := record_click e s m).
  eapply q_before; [by apply (rtc_refl arr (dk t))|]. assert (wd ∈ stack (the_wm t)) as Hint by done.
  assert (react (dk t) (dk (toggle_maximized t wd))) as Hm by (apply q_arr; by apply arr_mode).
  destruct (Decor.what _); try (by apply q_arr); try exact Hm.
  - destruct (doubled e s m); [exact Hm|]. destruct (negb _); by apply q_arr.
  - apply q_arr. by apply arr_mode.
  - apply react_request_close; [done|apply closable].
  - apply (react_call {| t with mouse_grab := id wd |}); [done|apply mouse_calls].
Qed.

Lemma react_press_desktop s (m : mouse_event) : next_id (the_wm s) + 1 < 2 ^ 32 -> react (dk s) (dk (press_desktop make e s m)).
Proof.
  intros Hn. unfold press_desktop. destruct (negb _); [by apply react_press_panel|].
  destruct (Window.hit _ _ _) as [wd|] eqn:E.
  - apply hit_in in E. assert (id wd ∈ ids (stack (the_wm s))) as Hi by (unfold ids; apply list_elem_of_fmap; by exists wd).
    set (t := when _ _ s). assert (rtc arr (dk s) (dk t)) as Ht.
    { subst t. unfold when. destruct (negb _); [|done]. apply arr_on_wm; [done|by apply ArrangeFocus]. }
    destruct (Window.find (the_wm t) (id wd)) as [wd'|] eqn:E'; [|by apply q_arr].
    eapply q_before; [exact Ht|]. apply react_press_window. by apply find_ids in E' as [_ ?].
  - destruct (_ =? _); [|by apply q_arr]. apply q_arr. by apply arr_soil.
Qed.

Lemma react_press s (m : mouse_event) : modal_open s = false -> next_id (the_wm s) + 1 < 2 ^ 32 -> react (dk s) (dk (press make e s m)).
Proof.
  intros Hm Hn. unfold press. rewrite Hm. destruct (Help.h_open _); [apply q_arr; by apply arr_soil|].
  destruct (menu_is_open s); [by apply react_press_menu|]. destruct (SnapAssist.sa_open _); [|by apply react_press_desktop].
  cbv zeta. destruct (negb _); [apply q_arr; by apply arr_dock|].
  set (t := soil {| s with assist := _ |}). eapply q_before; [by apply (arr_soil {| s with assist := SnapAssist.close (assist s) |})|].
  by apply (react_press_desktop t).
Qed.

Lemma react_mouse s (m : mouse_event) : modal_open s = false -> next_id (the_wm s) + 1 < 2 ^ 32 -> react (dk s) (dk (on_mouse make e s m)).
Proof.
  intros Hm Hn. unfold on_mouse. destruct (_ && _); [apply q_arr; by apply arr_cancel|].
  destruct (_ && _); [apply q_arr; by apply arr_cancel|]. destruct (drag s).
  - destruct (_ || _); [apply react_wheel|]. destruct (_ && _); [apply react_grabbed|].
    destruct (negb _); [by apply q_arr|by apply react_press].
  - apply q_arr. by apply arr_moving.
  - apply q_arr. by apply arr_resizing.
Qed.

(** ** The keyboard and the rest *)

Lemma react_key s k : modal_open s = false -> next_id (the_wm s) + 1 < 2 ^ 32 -> react (dk s) (dk (on_key make amb e s k)).
Proof.
  intros Hm Hn. unfold on_key. destruct (negb _); [apply q_arr; by apply arr_cancel|].
  destruct (is_detach k); [by apply q_arr|]. rewrite Hm. destruct (menu_is_open s); [by apply react_menu_key|].
  set (t := first_key e s). eapply q_before; [by apply (arr_first_key e s)|]. fold t.
  destruct (arrow _) as [dir|]; [|apply react_leader].
  destruct (_ =? _); [apply q_arr; by apply (arr_snap (with_leader t (reset (ldr t))))|apply react_leader].
Qed.

Lemma react_paste s t b : react (dk s) (dk (on_paste e s t b)).
Proof.
  unfold on_paste. set (s' := when _ _ s). assert (rtc arr (dk s) (dk s')) as Hs.
  { subst s'. unfold when. destruct (negb _); [by apply arr_cancel|done]. }
  destruct (_ || _); [by apply q_arr|]. eapply q_before; [exact Hs|].
  unfold focused_window. destruct (Window.find _ _) as [wd|] eqn:E; [|by apply q_arr]. apply find_ids in E as [_ Hin].
  apply q_soil, react_call; [done|apply paste_calls].
Qed.

End Reactions.

Section Guarantees.
Context {A : Type} `{Application A} (make : bytes -> A) (amb : bool).
Implicit Types (s : session A) (wd : window A) (d : desk A) (m : manager A).

(** The watchdog may take a gesture back; it touches nothing else. *)
Lemma watchdog_cases e s : watchdog e s = s \/ watchdog e s = cancel_drag s.
Proof. unfold watchdog. destruct (idle s); [by left|]. destruct (_ <=? _); [by right|by left]. Qed.

Lemma cancel_same s :
  let t := cancel_drag s in
  s_modal t = s_modal s /\ s_modal_kind t = s_modal_kind s /\ mouse_grab t = mouse_grab s /\ s_menu t = s_menu s /\
  quit t = quit s /\ s_help t = s_help s /\ assist t = assist s /\ update_ t = update_ s /\ drag t = DragIdle /\
  next_id (the_wm t) = next_id (the_wm s).
Proof. cbv zeta. unfold cancel_drag. by destruct (drag s). Qed.

Lemma watchdog_same e s :
  let t := watchdog e s in
  s_modal t = s_modal s /\ s_modal_kind t = s_modal_kind s /\ mouse_grab t = mouse_grab s /\ s_menu t = s_menu s /\
  quit t = quit s /\ s_help t = s_help s /\ assist t = assist s /\ update_ t = update_ s /\
  next_id (the_wm t) = next_id (the_wm s).
Proof.
  cbv zeta. destruct (watchdog_cases e s) as [-> | ->]; [done|].
  destruct (cancel_same s) as (? & ? & ? & ? & ? & ? & ? & ? & ? & ?). by split_and!.
Qed.

(** Which windows an event may close: with a question open its target, else the
    windows whose application agrees. *)
Definition closable_in s wd : Prop :=
  if modal_open s then id wd = Modal.target (s_modal s) else allowed (can_close (app wd)) = true.

Lemma input_reaction e s ev :
  next_id (the_wm s) + 1 < 2 ^ 32 ->
  reaction quiet e (closable_in s) (dk s) (dk (on_input make amb e s ev)).
Proof.
  intros Hn. unfold on_input. set (t := watchdog e s).
  destruct (watchdog_same e s) as (M & _ & _ & _ & _ & _ & _ & _ & N). fold t in M, N.
  eapply react_before; [apply QuietArr|by apply (arr_watchdog e s)|]. fold t.
  assert (modal_open t = modal_open s) as Hm by (unfold modal_open; by rewrite M).
  assert (next_id (the_wm t) + 1 < 2 ^ 32) as Hn' by by rewrite N.
  unfold closable_in. destruct (modal_open s) eqn:Eo.
  - assert (forall wd, id wd = Modal.target (s_modal t) -> id wd = Modal.target (s_modal s)) as Ht by (by rewrite M).
    destruct ev as [k|m|tx b|f].
    + unfold on_key. destruct (negb _); [apply react_arr; [apply QuietArr|by apply arr_cancel]|].
      destruct (is_detach k); [by apply react_arr; [apply QuietArr|]|]. rewrite Hm.
      by apply react_modal_key; [apply QuietArr|].
    + unfold on_mouse. destruct (_ && _); [apply react_arr; [apply QuietArr|by apply arr_cancel]|].
      destruct (_ && _); [apply react_arr; [apply QuietArr|by apply arr_cancel]|]. destruct (drag t).
      * destruct (_ || _); [apply react_wheel|]. destruct (_ && _); [apply react_grabbed|].
        destruct (negb _); [by apply react_arr; [apply QuietArr|]|]. unfold press. rewrite Hm.
        by apply react_press_modal; [apply QuietArr|].
      * apply react_arr; [apply QuietArr|by apply arr_moving].
      * apply react_arr; [apply QuietArr|by apply arr_resizing].
    + apply react_paste.
    + unfold on_focus, when. apply react_arr; [apply QuietArr|]. destruct (negb f); [by apply arr_cancel|done].
  - destruct ev as [k|m|tx b|f].
    + by apply react_key.
    + by apply react_mouse.
    + apply react_paste.
    + unfold on_focus, when. apply react_arr; [apply QuietArr|]. destruct (negb f); [by apply arr_cancel|done].
Qed.

(** ** Unsaved work *)

Lemma call_ids e d wd f : ids (stack (wm (call_app e d wd f))) = ids (stack (wm d)).
Proof. unfold call_app. destruct (f _ _) as [a h]. unfold after_call. cbn [wm with_stack stack]. rewrite update_ids; [done|]. done. Qed.

Lemma quiet_ids d d' i : quiet d d' -> i ∈ ids (stack (wm d)) -> i ∈ ids (stack (wm d')).
Proof.
  intros [d0 d1 Ha|e d0 wd f Hin Hf|e d0 a work j Hn|d0 pid|d0 rest] Hi; [..|done].
  - rewrite ids_sig. destruct (arrs_keep d0 d1) as [-> _]; [by apply rtc_once|]. by rewrite <- ids_sig.
  - by rewrite call_ids.
  - unfold open_window. destruct (Window.open (wm d0) a work) as [m o] eqn:Eo. apply open_sig in Eo.
    destruct o as [k|]; cbn [fst]; [|by subst m]. destruct Eo as [-> Hs].
    assert (i ∈ ids (stack m)) as Him by (rewrite ids_sig, Hs, fmap_app, elem_of_app; left; by rewrite <- ids_sig).
    set (d1 := set_app_id _ _ _). assert (i ∈ ids (stack (wm d1))) as Hd1.
    { unfold d1, set_app_id. cbn [wm with_wm with_stack stack]. by rewrite update_ids. }
    destruct (Window.find (wm d1) _) as [wd|]; cbn [fst]; [|done]. by rewrite call_ids.
  - done.
Qed.

Lemma arrs_ids d d' i : rtc arr d d' -> i ∈ ids (stack (wm d)) <-> i ∈ ids (stack (wm d')).
Proof. intros Ha. rewrite !ids_sig. by destruct (arrs_keep _ _ Ha) as [-> _]. Qed.

Lemma sig_unique m i a b : manager_ok m -> (i, a) ∈ sig m -> (i, b) ∈ sig m -> a = b.
Proof.
  intros (_ & (Hn & _) & _). rewrite ids_sig in Hn. intros Ha Hb.
  apply list_elem_of_split in Ha as (l1 & l2 & E). rewrite E, fmap_app in Hn. cbn in Hn. rewrite E in Hb.
  apply list.NoDup_app in Hn as (_ & H1 & H2). apply list.NoDup_cons in H2 as [H2 _].
  apply elem_of_app in Hb as [Hb|[Hb|Hb]%elem_of_cons].
  - exfalso. apply (H1 i); [|by left]. apply list_elem_of_fmap. by exists (i, b).
  - by injection Hb.
  - exfalso. apply H2. apply list_elem_of_fmap. by exists (i, b).
Qed.

(** ** The modal *)

(** The event that answers yes. *)
Definition confirms s (ev : input_event) : bool :=
  match ev with
  | EvKey k => bool_decide (ke_key k = KEnter) && Modal.confirm (s_modal s)
  | EvMouse m => match Modal.hit (s_modal s) (m_x m) (m_y m) with Modal.MConfirm => bool_decide (m_action m = MPress) | _ => false end
  | _ => false
  end.

(** What applications and the system see of the desktop. *)
Definition unreached d d' : Prop :=
  sig (wm d') ≡ₚ sig (wm d) /\ hosts d' = hosts d /\ children d' = children d /\ pending d' = pending d /\ fds d' = fds d /\
  d_settings d' = d_settings d /\ d_disk d' = d_disk d.

Lemma arrs_unreached d d' : rtc arr d d' -> unreached d d'.
Proof. intros Ha. destruct (arrs_keep _ _ Ha) as (? & ? & ? & ? & ? & ? & ? & ? & ?). by split_and!. Qed.

(** The state of the session that is not the desk's, but for the gesture and the modal. *)
Definition same_rest s s' : Prop :=
  s_menu s' = s_menu s /\ quit s' = quit s /\ s_help s' = s_help s /\ assist s' = assist s /\ mouse_grab s' = mouse_grab s.

(** The window that a gesture under way holds. *)
Definition gripped (g : drag_state) : option window_id := match g with Moving i _ _ _ | Resizing i _ => Some i | DragIdle => None end.

(** The very same windows -- order, focus, modes, titles, places, applications --, but for
    the place asked for the one that a gesture under way holds. *)
Definition same_windows s s' : Prop :=
  the_wm s' = the_wm s \/
  exists i r, gripped (drag s) = Some i /\ the_wm s' = with_stack (the_wm s) (update i (fun wd => with_user wd r) (stack (the_wm s))).

(** A step of the gesture, or none. *)
Definition held s s' : Prop := same_windows s s' /\ (gripped (drag s') = gripped (drag s) \/ drag s' = DragIdle).

Lemma held_refl s : held s s.
Proof. split; by left. Qed.

Lemma user_again i r r' (l : list (window A)) :
  update i (fun wd => with_user wd r') (update i (fun wd => with_user wd r) l) = update i (fun wd => with_user wd r') l.
Proof.
  induction l as [|wd l IH]; [done|]. cbn [update]. destruct (id wd =? i) eqn:E; cbn [update].
  - cbn [with_user id]. by rewrite E.
  - by rewrite E, IH.
Qed.

Lemma held_trans s1 s2 s3 : held s1 s2 -> held s2 s3 -> held s1 s3.
Proof.
  intros [W1 G1] [W2 G2]. split; [|destruct G2 as [G2|G2]; [|by right]; destruct G1 as [G1|G1]; [left; congruence|right; rewrite G1 in G2; by destruct (drag s3)]].
  destruct W2 as [E|(i & r & Hg & E)]; [destruct W1 as [E1|(i & r & Hg & E1)]; [left; congruence|right; exists i, r; split; congruence]|].
  destruct G1 as [G1|G1]; [|by rewrite G1 in Hg]. rewrite G1 in Hg. right. exists i, r. split; [done|].
  destruct W1 as [E1|(j & q & Hj & E1)]; [by rewrite E, E1|]. assert (j = i) as -> by congruence.
  rewrite E, E1. cbn [with_stack stack]. by rewrite user_again.
Qed.

Lemma held_same s s' : the_wm s' = the_wm s -> drag s' = drag s \/ drag s' = DragIdle -> held s s'.
Proof. intros Hw Hd. split; [by left|]. destruct Hd as [->| ->]; [by left|by right]. Qed.

Lemma held_user s s' i r : gripped (drag s) = Some i -> the_wm s' = wm (set_user_rect (dk s) i r) ->
  gripped (drag s') = Some i \/ drag s' = DragIdle -> held s s'.
Proof. intros Hg Hw Hd. split; [right; by exists i, r|]. destruct Hd as [->| ->]; [left; congruence|by right]. Qed.

Lemma cancel_held s : held s (cancel_drag s).
Proof.
  unfold cancel_drag. destruct (drag s) as [|i dx dy o|i o] eqn:E; [apply held_same; [done|by right]| |apply held_same; [done|by right]].
  apply (held_user s _ i o); [by rewrite E|done|by right].
Qed.

Lemma watchdog_held e s : held s (watchdog e s).
Proof. destruct (watchdog_cases e s) as [-> | ->]; [apply held_refl|apply cancel_held]. Qed.

Lemma moving_held e s (m : mouse_event) win dx dy origin : gripped (drag s) = Some win -> held s (moving e s m win dx dy origin).
Proof.
  intros Hg. unfold moving. destruct (Window.find _ _) as [wd|]; [|apply cancel_held]. cbv zeta.
  set (r := Rect _ _ _ _). set (t := on_desk {| s with drag_stamp := _ |} _). assert (held s t) as Ht by (by apply (held_user s t win r); [| |left]).
  destruct (decide _); [|exact Ht]. eapply held_trans; [exact Ht|]. unfold when. destruct (negb _); [|apply held_same; [done|by right]].
  by apply (held_user t _ win (snap r (last_work t) 1)); [| |right].
Qed.

Lemma resizing_held e s (m : mouse_event) win o : gripped (drag s) = Some win -> held s (resizing e s m win o).
Proof.
  intros Hg. unfold resizing. destruct (Window.find _ _) as [wd|]; [|apply cancel_held]. cbv zeta. set (o' := Rect _ _ _ _).
  destruct (decide _); [by apply (held_user s _ win o'); [| |right]|]. split; [by left|by left].
Qed.

(** The promise of an open question [s] about an event, kept by the session [s'] it leads to. *)
Definition kept_out s ev s' : Prop :=
  (confirms s ev = false -> unreached (dk s) (dk s') /\ same_windows s s' /\ same_rest s s') /\
  (desk_ok (dk s) -> forall i a, i <> Modal.target (s_modal s) -> (i, a) ∈ sig (the_wm s) -> (i, a) ∈ sig (the_wm s')).

Lemma cancel_rest s : same_rest s (cancel_drag s).
Proof. unfold same_rest, cancel_drag. by destruct (drag s). Qed.

Lemma moving_rest e s (m : mouse_event) win dx dy origin : same_rest s (moving e s m win dx dy origin).
Proof.
  unfold moving. destruct (Window.find _ _); [|apply cancel_rest]. destruct (decide _); [|done].
  unfold when. by destruct (negb _).
Qed.

Lemma resizing_rest e s (m : mouse_event) win o : same_rest s (resizing e s m win o).
Proof. unfold resizing. destruct (Window.find _ _); [|apply cancel_rest]. by destruct (decide _). Qed.

Lemma kept_plain s t ev s' :
  same_rest s t -> rtc arr (dk s) (dk t) -> held s t -> same_rest t s' -> rtc arr (dk t) (dk s') -> held t s' -> kept_out s ev s'.
Proof.
  intros (A1 & A2 & A3 & A4 & A5) Ht H1 (B1 & B2 & B3 & B4 & B5) Hs H2. assert (rtc arr (dk s) (dk s')) as Ha by by etrans.
  split; [intros _; split_and!; [by apply arrs_unreached|by apply (held_trans s t s')|unfold same_rest; by split_and!; etrans]|].
  intros _ i a _ Hia. unfold the_wm. by destruct (arrs_keep _ _ Ha) as [-> _].
Qed.

(** A reaction that may only close [i] keeps the others. *)
Lemma closes_only e d d' i : reaction arr e (fun wd => id wd = i) d d' -> desk_ok d ->
  forall j a, j <> i -> (j, a) ∈ sig (wm d) -> (j, a) ∈ sig (wm d').
Proof.
  intros [d1 Hq|d1 wd d2 H1 (wd' & Hin' & Hid & _) Hc H2] Hok j a Hj Hja; [by destruct (arrs_keep _ _ Hq) as [-> _]|].
  destruct (arrs_keep _ _ H2) as [-> _]. destruct (arrs_keep _ _ H1) as [S1 _]. rewrite <- S1 in Hja.
  pose proof (arrs_ok _ _ H1 Hok) as Hok1.
  assert (id wd ∈ ids (stack (wm d1))) as Hi by (unfold ids; apply list_elem_of_fmap; by exists wd').
  destruct (close_sig (wm d1) (id wd) (ok_wm _ Hok1) Hi) as (x & Hs & _). unfold close_window. cbn [wm].
  rewrite Hs in Hja. apply elem_of_cons in Hja as [E|]; [|done]. injection E as -> _. by rewrite Hc in Hj.
Qed.

Lemma kept_answer s t ev e b :
  s_modal t = s_modal s -> same_rest s t -> rtc arr (dk s) (dk t) -> held s t -> (b = true -> confirms s ev = true) ->
  kept_out s ev (soil (answer_modal e t b)).
Proof.
  intros M R Ht Hh Hb. destruct b; [|apply (kept_plain s t); [done|done|done|done|by apply arr_soil, arr_soil|apply held_same; [done|by left]]].
  split; [by rewrite Hb|]. intros Hok i a Hi Hia.
  pose proof (react_answer e _ arr (fun _ _ h => h) t true (fun wd E => E)) as Hr.
  apply react_soil in Hr; [|done]. rewrite M in Hr. eapply closes_only; [exact Hr|by eapply arrs_ok|done|].
  by destruct (arrs_keep _ _ Ht) as [-> _].
Qed.

(** C5: nothing gets behind a question.  While one is open and no window holds the
    mouse, an event that does not confirm it reaches no application, opens and closes no
    window, leaves every window in its order, mode and place, and the focus where it is
    -- save that a window held by a gesture under way may be moved by that gesture --,
    watches nothing, quits nothing, and leaves the menu, the help and the docking proposal
    as they are; one that confirms closes at most the window the question is about and
    leaves the others with their applications. *)
Theorem nothing_behind_modal e s ev :
  modal_open s = true -> mouse_grab s = 0 -> kept_out s ev (on_input make amb e s ev).
Proof.
  intros Hm Hg. unfold on_input. set (t := watchdog e s).
  destruct (watchdog_same e s) as (M & K & G & Me & Qu & He & As & _ & _). fold t in M, K, G, Me, Qu, He, As.
  assert (rtc arr (dk s) (dk t)) as Ht by by apply (arr_watchdog e s).
  assert (same_rest s t) as Hr by by split_and!.
  assert (modal_open t = true) as Hmt by (unfold modal_open; by rewrite M).
  pose proof (watchdog_held e s) as Hh. fold t in Hh.
  pose proof (fun s' => kept_plain s t ev s' Hr Ht Hh) as Hplain.
  assert (forall s', same_rest t s' -> rtc arr (dk t) (dk s') -> the_wm s' = the_wm t -> drag s' = drag t -> kept_out s ev s') as Hstill
    by (intros s' ? ? ? ?; apply Hplain; [done|done|apply held_same; [done|by left]]).
  pose proof (fun b => kept_answer s t ev e b M Hr Ht Hh) as Hans.
  assert (kept_out s ev (cancel_drag t)) as Hcancel by (apply Hplain; [apply cancel_rest|by apply arr_cancel|apply cancel_held]).
  assert (kept_out s ev (soil t)) as Hsoil by (apply Hstill; [done|by apply arr_soil|done|done]).
  assert (kept_out s ev t) as Hsame by by apply Hstill.
  destruct ev as [k|m|tx b|f].
  - unfold on_key. destruct (negb (idle t)); [done|]. destruct (is_detach k); [by apply Hstill|].
    rewrite Hmt. unfold modal_key. destruct (ke_key k) eqn:Ek; try done; try (apply Hstill; [done|by apply arr_soil|done|done]).
    apply Hans. intros E. unfold confirms. rewrite Ek, bool_decide_eq_true_2 by done. by rewrite <- M.
  - unfold on_mouse. destruct (_ && _); [done|]. destruct (_ && _); [done|]. destruct (drag t) as [|i dx dy o|i o] eqn:Ed.
    + unfold wheel. rewrite Hmt. cbn [orb]. destruct (_ || _); [done|].
      rewrite G, Hg. cbn [negb andb Z.eqb]. destruct (bool_decide (m_action m = MPress)) eqn:Ea; [|done].
      cbn [negb]. unfold press. rewrite Hmt. unfold press_modal. destruct (Modal.hit _ _ _) eqn:Eh; try done; try (by apply Hans).
      apply Hans. intros _. unfold confirms. by rewrite <- M, Eh.
    + apply Hplain; [apply moving_rest|by apply arr_moving|apply moving_held; by rewrite Ed].
    + apply Hplain; [apply resizing_rest|by apply arr_resizing|apply resizing_held; by rewrite Ed].
  - unfold on_paste. replace (modal_open _) with true; [by destruct (negb (idle t))|].
    unfold when, modal_open. destruct (negb (idle t)); [|done]. by rewrite (proj1 (cancel_same t)).
  - unfold on_focus, when. by destruct (negb f).
Qed.
End Guarantees.

Lemma nothing_behind_modal_witness :
  modal_open demo_quitting = true /\ kept_out demo_quitting (EvKey (KeyEvent KChar 120 0)) (on_input demo_make false (demo_env 20) demo_quitting (EvKey (KeyEvent KChar 120 0))).
Proof. split; [by vm_compute|]. apply nothing_behind_modal; by vm_compute. Defined.
