(* ===== verification/SessionHistory.v ===== *)
(** * Whole histories of the session

    One frame seen as steps of the machine of SessionSteps; a turn of the daemon is
    any of the entry points of the session; the invariant holds after any number of
    turns from a new session. *)

From stdpp Require Import gmap.
From S2P Require Import Prelude StdString Input Cell Surface Desktop Theme Shortcuts Window Config Host Session SessionRender SessionDemo SessionSteps SessionProps.
From S2P Require UpdateService Catalog Menu Modal SnapAssist Help Panel Tile Decor Profile Clock SysInfo.

Section History.
Context {A : Type} `{Application A} (make : bytes -> A) (amb : bool).
Implicit Types (s : session A) (wd : window A) (d : desk A) (m : manager A).

Lemma quiet_arr_rtc d d' : rtc arr d d' -> rtc quiet d d'.
Proof. induction 1; [done|]. eapply rtc_l; [by apply QuietArr|done]. Qed.

(** ** One frame *)

Lemma open_next_id e d a work i : 0 <= next_id (wm d) -> next_id (wm (fst (open_window e d a work i))) <= next_id (wm d) + 1.
Proof.
  intros Hn0. assert (forall d0 wd f, next_id (wm (call_app e d0 wd f)) = next_id (wm d0)) as Hc.
  { intros d0 wd f. unfold call_app. by destruct (f _ _). }
  unfold open_window, Window.open. destruct (_ <=? _)%nat; [cbn; lia|]. cbn [fst snd].
  set (d1 := set_app_id _ _ _). assert (next_id (wm d1) <= next_id (wm d) + 1) as H1.
  { subst d1. unfold set_app_id. cbn [wm with_wm with_stack next_id]. unfold Window.focus. cbn. apply Z.mod_le; lia. }
  destruct (Window.find (wm d1) _); cbn [fst]; [by rewrite Hc|done].
Qed.

Lemma serve_pending_steps e s : 0 <= next_id (the_wm s) -> next_id (the_wm s) + 1 < 2 ^ 32 ->
  rtc quiet (dk s) (dk (serve_pending e s)) /\ next_id (the_wm (serve_pending e s)) <= next_id (the_wm s) + 1.
Proof.
  intros Hn0 Hn. unfold serve_pending. destruct (pending (dk s)) as [|[a i] rest]; [split; [done|lia]|].
  set (dd := dk s). set (d0 := {| dd with pending := rest |}). split; [|by apply (open_next_id e d0)].
  eapply rtc_l; [apply (QuietPending (dk s) rest)|]. eapply rtc_l; [by apply (QuietOpen e d0 a (last_work s) i)|].
  apply rtc_once, QuietArr. apply (ArrDirty _ true).
Qed.

Lemma reaction_next_id e c d d' : reaction arr e c d d' -> next_id (wm d') = next_id (wm d).
Proof.
  intros [d1 Ha|d1 wd d2 H1 _ _ H2]; [apply (arrs_keep _ _ Ha)|].
  transitivity (next_id (wm (close_window e d1 wd))); [apply (arrs_keep _ _ H2)|].
  rewrite <- (proj2 (proj2 (proj2 (proj2 (proj2 (proj2 (proj2 (proj2 (arrs_keep _ _ H1))))))))).
  unfold close_window. cbn [wm]. unfold Window.close. by destruct (Window.find _ _).
Qed.

Definition agrees wd : Prop := allowed (can_close (app wd)) = true.

Lemma request_close_reaction e s wd :
  (exists wd', wd' ∈ stack (the_wm s) /\ id wd' = id wd /\ app wd' = app wd) -> reaction arr e agrees (dk s) (dk (request_close e s wd)).
Proof.
  intros (wd' & Hin & Hid & Happ). unfold request_close. cbv zeta. assert (rtc arr (dk s) (dk (cancel_drag s))) as Hd by by apply arr_cancel.
  destruct (allowed _) eqn:Ea.
  - eapply (ReactClose arr e agrees _ (dk (cancel_drag s)) wd); [done| |done|done].
    rewrite <- Hid, <- Happ. by eapply same_after_arr.
  - apply ReactQuiet. by apply arr_soil.
Qed.

Lemma update_has (i : window_id) (f : window A -> window A) (l : list (window A)) wd :
  wd ∈ l -> id wd = i -> (forall x, same_window x (f x)) -> exists wd', wd' ∈ update i f l /\ id wd' = i.
Proof.
  intros Hin Hi Hf. assert (i ∈ ids (update i f l)) as Hu.
  { rewrite update_ids by (intros x; apply Hf). unfold ids. apply list_elem_of_fmap. by exists wd. }
  unfold ids in Hu. apply list_elem_of_fmap in Hu as (wd' & -> & Hwd'). by exists wd'.
Qed.

Lemma find_update (i : window_id) (f : window A -> window A) m wd :
  Window.find m i = Some wd -> (forall x, same_window x (f x)) -> Window.find (with_stack m (update i f (stack m))) i = Some (f wd).
Proof.
  intros Hf Hs. unfold Window.find in *. cbn [with_stack stack]. induction (stack m) as [|x l IH]; [done|].
  cbn [List.find update] in *. destruct (Z.eqb_spec (id x) i) as [E|E].
  - injection Hf as ->. cbn [List.find]. destruct (Hs wd) as (-> & _). by rewrite E, Z.eqb_refl.
  - cbn [List.find]. apply Z.eqb_neq in E as ->. by apply IH.
Qed.

Lemma serve_closes_steps e s : exists d1, rtc arr (dk s) d1 /\ reaction arr e agrees d1 (dk (serve_closes e s)).
Proof.
  unfold serve_closes. destruct (List.find _ _) as [wd|] eqn:E; [|exists (dk s); split; [done|by apply ReactQuiet]].
  apply List.find_some in E as [Hin _]. apply list_elem_of_In in Hin.
  set (t := on_wm s _). exists (dk t). split; [apply rtc_once, ArrWm; by apply ArrangeOne|].
  apply request_close_reaction. 
  pose proof (sig_update (stack (the_wm s)) (id wd) clear_close (fun _ => eq_refl) (fun _ => eq_refl)) as Hs.
  assert ((id wd, app wd) ∈ (fun w => (id w, app w)) <$> stack (the_wm t)) as Ht.
  { change (stack (the_wm t)) with (update (id wd) clear_close (stack (the_wm s))). rewrite Hs. apply list_elem_of_fmap. by exists wd. }
  apply list_elem_of_fmap in Ht as (wd' & [= E1 E2] & Hin'). by exists wd'.
Qed.

Lemma call_steps e d wd f : wd ∈ stack (wm d) -> (forall a h, rtc host_call h (snd (f a h))) -> quiet d (call_app e d wd f).
Proof. apply QuietCall. Qed.

Lemma announce_steps e d wd : wd ∈ stack (wm d) -> rtc quiet d (announce_size e d wd).
Proof.
  intros Hin. unfold announce_size. destruct (decide _); [done|]. eapply rtc_l; [apply QuietCall; [done|apply resize_calls]|].
  apply rtc_once, QuietArr, ArrWm. by apply ArrangeOne.
Qed.

Lemma paint_window_steps e v foc th b c i : rtc quiet (cv_desk c) (cv_desk (paint_window amb e v foc th b c i)).
Proof.
  unfold paint_window. destruct (Window.find (wm (cv_desk c)) i) as [wd|] eqn:E; [|done]. destruct (decide _); [done|].
  apply find_ids in E as [_ Hin]. pose proof (announce_steps e (cv_desk c) wd Hin) as Ha.
  cbv zeta. set (d1 := announce_size _ _ _) in *. destruct (Window.find (wm d1) i) as [wd1|] eqn:E1; [|done].
  apply find_ids in E1 as [_ Hin1]. cbn [cv_desk]. etrans; [exact Ha|]. apply rtc_once.
  apply (QuietCall e d1 wd1 (fun a h => fst (app_render amb (size_of (sub v (client_rect (display_rect wd)))) a h))); [done|].
  intros a h. apply render_calls.
Qed.

Lemma paint_windows_steps e v th b d sf : rtc quiet d (cv_desk (paint_windows amb e v th b d sf)).
Proof.
  unfold paint_windows. generalize (focused (wm d)) as foc. intros foc.
  assert (forall l c, rtc quiet (cv_desk c) (cv_desk (fold_left (paint_window amb e v foc th b) l c))) as Hl.
  { intros l. induction l as [|i l IH]; intros c; [done|]. cbn [fold_left]. etrans; [apply paint_window_steps|apply IH]. }
  apply (Hl _ (Canvas d sf None)).
Qed.

Lemma ensure_steps e s : next_id (the_wm s) + 1 < 2 ^ 32 -> rtc quiet (dk s) (dk (ensure_window make e s)).
Proof.
  intros Hn. unfold ensure_window. destruct (seeded s); [done|]. set (t := {| s with seeded := true |}).
  unfold open_from_catalog. destruct (Catalog.catalog_find _) as [cat|]; [|done].
  pose proof (QuietOpen e (dk t) (make (Catalog.cat_id cat)) (last_work t) (Catalog.cat_id cat) Hn) as Hq.
  destruct (open_window _ _ _ _ _) as [d w]. cbn [fst dk] in *. by apply rtc_once.
Qed.

Lemma settle_split e s cols rows :
  let s2 := serve_closes e (serve_pending e (tick_clock e s)) in
  let work := work_area cols rows (Panel.edge (s_panel s2)) (Panel.thickness (s_panel s2)) in
  let s3 := ensure_window make e {| s2 with last_work := work |} in
  dk (settle make e s cols rows) = with_wm (dk s3) (relayout (the_wm s3) work cols rows).
Proof. done. Qed.

Lemma arr_tick_clock e s : rtc arr (dk s) (dk (tick_clock e s)).
Proof.
  unfold tick_clock. destruct (Clock.update _ _ _) as [c []]; [|done]. by apply (arr_soil {| s with s_clock := c |}).
Qed.

(** The steps of a frame: opens, then at most one close of a window that agrees, then
    opens and calls. *)
Lemma render_steps e s sf : 0 <= next_id (the_wm s) -> next_id (the_wm s) + 2 < 2 ^ 32 ->
  exists d1 d2, rtc quiet (dk s) d1 /\ reaction arr e agrees d1 d2 /\ rtc quiet d2 (dk (fst (render make amb e s sf))).
Proof.
  intros Hn0 Hn. unfold render. set (u := before_frame e s). cbv zeta.
  assert (rtc arr (dk s) (dk u)) as Ht by by apply (arr_watchdog e s).
  clearbody u. destruct (too_small _ _).
  { exists (dk s), (dk s). split_and!; [done|by apply ReactQuiet|]. by apply quiet_arr_rtc. }
  pose proof (settle_split e u (s_w sf) (s_h sf)) as Hs. cbv zeta in Hs. pose proof (arr_tick_clock e u) as H1.
  set (s1 := tick_clock e u) in *.
  assert (next_id (the_wm s1) = next_id (the_wm s)) as N1.
  { transitivity (next_id (the_wm u)); [apply (arrs_keep _ _ H1)|apply (arrs_keep _ _ Ht)]. }
  destruct (serve_pending_steps e s1) as [H2 N2]; [lia|lia|].
  destruct (serve_closes_steps e (serve_pending e s1)) as (d1 & H3 & H4).
  set (s2 := serve_closes e (serve_pending e s1)) in *. set (work := work_area _ _ _ _) in *.
  assert (next_id (the_wm s2) <= next_id (the_wm s) + 1) as N3.
  { assert (next_id (the_wm s2) = next_id (the_wm (serve_pending e s1))) as ->; [|lia].
    transitivity (next_id (wm d1)); [apply (reaction_next_id _ _ _ _ H4)|apply (arrs_keep _ _ H3)]. }
  clearbody s1 s2 work. set (s3 := ensure_window make e {| s2 with last_work := work |}) in *.
  assert (rtc quiet (dk s2) (dk s3)) as H5.
  { apply (ensure_steps e {| s2 with last_work := work |}). eapply Z.le_lt_trans; [|exact (ltac:(lia) : next_id (the_wm s2) + 1 < 2 ^ 32)]. apply Z.le_refl. }
  exists d1, (dk s2). split_and!; [|done|].
  - etrans; [by apply quiet_arr_rtc|]. etrans; [apply quiet_arr_rtc, H1|]. etrans; [exact H2|]. by apply quiet_arr_rtc.
  - etrans; [exact H5|]. clearbody s3. unfold paint_desktop. cbv zeta. cbn [fst].
    etrans; [|apply paint_windows_steps]. rewrite Hs. apply rtc_once, QuietArr, ArrWm.
    by apply (ArrangeAll (the_wm s3)).
Qed.

(** ** Turns *)

Inductive turn : session A -> session A -> Prop :=
  | TurnInput e s ev : turn s (on_input make amb e s ev)
  | TurnRender e s sf : turn s (fst (render make amb e s sf))
  | TurnChild e s pid st : turn s (on_child_exit e s pid st)
  | TurnFd e s key events : turn s (on_fd_event e s key events)
  | TurnRefresh e s : turn s (mark_refresh_due e s)
  | TurnTick e s : turn s (tick_update e s)
  | TurnDirty e s : turn s (fst (take_dirty e s))
  | TurnRepaint s : turn s (fst (take_repaint s))
  | TurnDetach s : turn s (fst (take_detach s))
  | TurnOutput s p : turn s (set_output s p)
  | TurnCancel s : turn s (cancel_drag s).

(** Fewer than 2^32 windows are ever opened. *)
Definition room s : Prop := next_id (the_wm s) + 2 < 2 ^ 32.

Definition live_turn s s' : Prop := room s /\ turn s s'.

Lemma refresh_steps e l d : rtc quiet d (fold_left (refresh_one e) l d).
Proof.
  revert d. induction l as [|i l IH]; intros d; [done|]. cbn [fold_left]. etrans; [|apply IH]. unfold refresh_one.
  destruct (Window.find (wm d) i) as [wd|] eqn:E; [|done]. destruct (_ <=? _); [|done].
  apply find_ids in E as [_ Hin]. apply rtc_once, QuietCall; [done|apply refresh_calls].
Qed.

Lemma refresh_modal_dk s : dk (refresh_update_modal s) = dk s.
Proof. unfold refresh_update_modal. by destruct (_ || _). Qed.

Lemma turn_ok s s' : room s -> turn s s' -> desk_ok (dk s) -> desk_ok (dk s').
Proof.
  intros Hroom Ht Hok. unfold room in Hroom. destruct Ht.
  - eapply reaction_ok; [apply input_reaction; lia|done].
  - destruct (render_steps e s sf ltac:(pose proof (proj1 (ok_wm _ Hok)); unfold the_wm; lia) Hroom) as (d1 & d2 & H1 & H2 & H3).
    apply (quiets_ok _ _ H3). assert (reaction quiet e agrees d1 d2) as H2'.
    { destruct H2 as [d3 Ha|d3 wd d4 Ha Hin Hc Hb]; [apply ReactQuiet; by apply quiet_arr_rtc|by eapply ReactClose]. }
    apply (reaction_ok _ _ _ _ H2'), (quiets_ok _ _ H1), Hok.
  - unfold on_child_exit. destruct (UpdateService.owns _ _).
    { apply (arrs_ok (dk s)); [|done]. apply arr_soil. unfold report_modal. destruct (negb _); [done|].
      destruct (UpdateService.take_report _). destruct (_ && _); [done|]. by destruct (_ && _). }
    destruct (List.find _ _) as [c|]; [|done]. set (t := on_desk s _). assert (desk_ok (dk t)) as Ht by (eapply quiet_ok; [apply QuietChild|done]).
    destruct (Window.find _ _) as [wd|] eqn:E; [|done]. apply find_ids in E as [_ Hin].
    eapply arr_ok; [apply (ArrDirty _ true)|]. apply call_app_ok; [done|apply child_calls|done].
  - unfold on_fd_event. destruct (Window.find _ _) as [wd|] eqn:E; [|done]. apply find_ids in E as [_ Hin].
    destruct (hosts _ !! _); [|done]. apply call_app_ok; [done| |done]. intros a h. unfold deliver. destruct (negb _); [done|apply io_calls].
  - unfold mark_refresh_due. apply (quiets_ok (dk (soil s))); [|by eapply arr_ok; [apply (ArrDirty _ true)|]].
    set (t := refresh_update_modal _). assert (dk t = dk (soil s)) as <-.
    { subst t. by rewrite refresh_modal_dk. }
    apply refresh_steps.
  - unfold tick_update. eapply arr_ok; [apply (ArrDirty _ true)|]. by rewrite refresh_modal_dk.
  - unfold take_dirty. destruct (Clock.update _ _ _) as [c changed]. cbn [fst].
    eapply arr_ok; [apply (ArrDirty _ false)|]. unfold when. destruct changed; destruct (help_delay_ms _ _ =? 0);
      repeat (eapply arr_ok; [apply (ArrDirty _ true)|]); done.
  - done.
  - done.
  - done.
  - by apply (arrs_ok _ _ (arr_cancel s _ ltac:(reflexivity))).
Qed.

Lemma new_ok e st dsk : desk_ok (dk (session_new (A := A) e st dsk)).
Proof.
  constructor; cbn; [split_and!; [done|split_and!; [apply base.NoDup_nil_2|apply list.Forall_nil_2|by intros i j w1 w2 [=]|cbn; lia]|done]|by intros i [? ?%lookup_empty_Some]|done|by intros i l ?%lookup_empty_Some|done|intros fd key Hk; unfold epoll in Hk; cbn in Hk; by rewrite lookup_empty in Hk].
Qed.

(** C3: the desktop stays consistent through any life of the session: from a new one,
    after any sequence of keys, clicks, pastes, frames, deaths of children, events of
    descriptors, timers and attachments -- fewer than 2^32 windows being opened --
    identifiers are unique, the focus is on a window that exists, one window at most
    is full screen; every host and every watched child belongs to a window that is still
    there, and every descriptor that the calls made so far leave in the daemon's epoll
    carries a key of such a window and is in its list. *)
Theorem session_consistent e st dsk s : rtc live_turn (session_new e st dsk) s -> desk_ok (dk s).
Proof.
  pose proof (new_ok e st dsk) as H0.
  intros Hs. revert H0. induction Hs as [s|s1 s2 s3 [Hroom Ht] _ IH]; [done|]. intros Hok. apply IH. by eapply turn_ok.
Qed.
(** ** Unsaved work *)

(** C4: unsaved work is not lost to a slip.  While no question is open, whatever the
    event -- key, click, paste, focus, in any state of the menu, of a gesture, of the
    leader -- a window whose application refuses to close is still there after it. *)
Theorem unsaved_window_survives e s ev wd :
  desk_ok (dk s) -> next_id (the_wm s) + 1 < 2 ^ 32 ->
  modal_open s = false -> wd ∈ stack (the_wm s) -> allowed (can_close (app wd)) = false ->
  id wd ∈ ids (stack (the_wm (on_input make amb e s ev))).
Proof.
  intros Hok Hn Hm Hin Hw. pose proof (input_reaction make amb e s ev Hn) as Hr. unfold closable_in in Hr. rewrite Hm in Hr.
  assert (id wd ∈ ids (stack (wm (dk s)))) as Hi by (unfold ids; apply list_elem_of_fmap; by exists wd).
  unfold the_wm in *. set (d' := dk (on_input make amb e s ev)) in *. clearbody d'.
  destruct Hr as [d1 Hq|d1 wd0 d2 H1 (wd' & Hin' & Hid & Happ) Hc H2].
  - clear -Hq Hi. induction Hq as [|x y z Hxy _ IH]; [done|]. apply IH. by eapply quiet_ids.
  - apply (arrs_ids _ _ _ H2). destruct (arrs_keep _ _ H1) as [S1 _]. pose proof (arrs_ok _ _ H1 Hok) as Hok1.
    assert ((id wd, app wd) ∈ sig (wm d1)) as Hs1 by (rewrite S1; unfold sig; apply list_elem_of_fmap; by exists wd).
    assert ((id wd0, app wd0) ∈ sig (wm d1)) as Hs0 by (unfold sig; apply list_elem_of_fmap; exists wd'; by rewrite Hid, Happ).
    assert (id wd <> id wd0) as Hne.
    { intros E. rewrite E in Hs1. rewrite (sig_unique _ _ _ _ (ok_wm _ Hok1) Hs1 Hs0) in Hw. congruence. }
    unfold close_window. cbn [wm]. assert (id wd0 ∈ ids (stack (wm d1))) as Hi0 by (unfold ids; apply list_elem_of_fmap; by exists wd').
    destruct (close_sig (wm d1) (id wd0) (ok_wm _ Hok1) Hi0) as (a & Hs & _).
    assert (id wd ∈ ids (stack (wm d1))) as Hiw by (rewrite ids_sig; apply list_elem_of_fmap; by exists (id wd, app wd)).
    rewrite ids_sig, Hs in Hiw. cbn [fmap list_fmap fst] in Hiw. apply elem_of_cons in Hiw as [|Hiw]; [done|]. by rewrite ids_sig.
Qed.

End History.

(** ** Witnesses *)

Lemma demo_life : rtc (live_turn demo_make false) demo_new demo_first.
Proof. apply rtc_once. split; [by vm_compute|apply TurnRender]. Qed.

Lemma session_consistent_witness : manager_ok (the_wm demo_first).
Proof. exact (ok_wm _ (session_consistent demo_make false _ _ _ demo_first demo_life)). Defined.

Lemma demo_ok : desk_ok (dk demo_first).
Proof.
  apply (turn_ok demo_make false demo_new demo_first); [by vm_compute|apply TurnRender|apply new_ok].
Qed.

Lemma unsaved_window_survives_witness :
  let press := EvMouse (MouseEvent MPress 0 43 1 0) in
  1 ∈ ids (stack (the_wm (on_input demo_make false (demo_env 10) demo_first press))).
Proof.
  cbv zeta. destruct (stack (the_wm demo_first)) as [|wd l] eqn:E; [by vm_compute in E|].
  assert (id wd = 1 /\ allowed (can_close (app wd)) = false) as [Hi Hw] by (vm_compute in E; by injection E as <- _).
  rewrite <- Hi. apply unsaved_window_survives; [apply demo_ok|by vm_compute|by vm_compute|rewrite E; by left|done].
Defined.
