(* ===== verification/SessionGestures.v ===== *)
(** * Gestures and questions of the session

    A window being moved can be put back by anything that is not the end of the
    gesture; and what Escape leaves behind of the question it dismisses. *)

From stdpp Require Import gmap.
From S2P Require Import Prelude StdString Input Cell Surface Desktop Theme Shortcuts Window Config Host Session SessionRender SessionDemo SessionSteps SessionProps SessionHistory.
From S2P Require UpdateService Catalog Menu Modal SnapAssist Help Panel Tile Decor Profile Clock SysInfo.

Section Gestures.
Context {A : Type} `{Application A} (make : bytes -> A) (amb : bool).
Implicit Types (s : session A) (wd : window A) (d : desk A) (m : manager A).

(** ** A window put back *)

Lemma update_update (i : window_id) (f g : window A -> window A) (l : list (window A)) :
  (forall x, id (g x) = id x) -> update i f (update i g l) = update i (f ∘ g) l.
Proof.
  intros Hg. induction l as [|x l IH]; [done|]. cbn [update]. destruct (id x =? i) eqn:E; cbn [update].
  - by rewrite Hg, E.
  - by rewrite E, IH.
Qed.

Lemma update_same (i : window_id) (f : window A -> window A) m wd :
  Window.find m i = Some wd -> f wd = wd -> update i f (stack m) = stack m.
Proof.
  unfold Window.find. intros Hf He. induction (stack m) as [|x l IH]; [done|]. cbn [List.find update] in *.
  destruct (id x =? i); [injection Hf as ->; by rewrite He|by rewrite IH].
Qed.

Lemma user_twice d i r o : set_user_rect (set_user_rect d i r) i o = set_user_rect d i o.
Proof. unfold set_user_rect, with_wm, with_stack. cbn. by rewrite update_update. Qed.

Lemma user_same d i wd : Window.find (wm d) i = Some wd -> set_user_rect d i (user_rect wd) = d.
Proof.
  intros Hf. unfold set_user_rect. rewrite (update_same i _ (wm d) wd); [by destruct d as [[] ? ? ? ? ? ? ? ?]|done|by destruct wd].
Qed.

Lemma find_user d i r wd : Window.find (wm d) i = Some wd -> Window.find (wm (set_user_rect d i r)) i = Some (with_user wd r).
Proof. intros Hf. by apply (find_update i (fun w => with_user w r) (wm d) wd). Qed.

(** Each event comes less than the watchdog's delay after the one before. *)
Fixpoint in_time (last : Z) (es : list env) : bool :=
  match es with
  | [] => true
  | e :: es => (steady_now e - last <? kDragWatchdog) && in_time (steady_now e) es
  end.

(** What ends a gesture without being its end. *)
Definition takes_back (ev : input_event) : bool :=
  match ev with
  | EvKey _ => true
  | EvMouse m => bool_decide (m_action m = MPress) || (bool_decide (m_action m = MMotion) && (m_button m =? 3))
  | EvFocus f => negb f
  | EvPaste _ _ => false
  end.

Definition drags (m : mouse_event) : bool := bool_decide (m_action m = MMotion) && negb (m_button m =? 3).

Lemma watchdog_waits e s : steady_now e - drag_stamp s < kDragWatchdog -> watchdog e s = s.
Proof. intros Hn. unfold watchdog. destruct (idle s); [done|]. by zrw_false (kDragWatchdog <=? steady_now e - drag_stamp s). Qed.

Lemma drag_step e s (m : mouse_event) i dx dy o wd :
  drag s = Moving i dx dy o -> Window.find (the_wm s) i = Some wd -> steady_now e - drag_stamp s < kDragWatchdog -> drags m = true ->
  let s' := on_input make amb e s (EvMouse m) in
  drag s' = Moving i dx dy o /\ drag_stamp s' = steady_now e /\ exists r, dk s' = set_user_rect (dk s) i r.
Proof.
  intros Hd Hf Ht Hm. cbv zeta. unfold on_input. rewrite watchdog_waits by done. unfold on_mouse.
  unfold drags in Hm. apply andb_true_iff in Hm as [Hm Hb]. apply bool_decide_eq_true in Hm. rewrite Hm.
  apply negb_true_iff in Hb. rewrite Hb. cbn [andb bool_decide]. rewrite andb_false_r.
  rewrite (bool_decide_eq_false_2 (MMotion = MPress)) by done. cbn [andb]. rewrite Hd. unfold moving. rewrite Hf, Hm. cbv zeta.
  rewrite decide_False by done. split_and!; [exact Hd|done|]. by eexists.
Qed.

Lemma take_back s e ev i dx dy o :
  drag s = Moving i dx dy o -> steady_now e - drag_stamp s < kDragWatchdog -> takes_back ev = true ->
  on_input make amb e s ev = cancel_drag s.
Proof.
  intros Hd Ht Hev. unfold on_input. rewrite watchdog_waits by done.
  assert (idle s = false) as Hi by (unfold idle; apply bool_decide_eq_false; by rewrite Hd).
  destruct ev as [k|m|t b|f]; cbn in Hev.
  - unfold on_key. by rewrite Hi.
  - unfold on_mouse. rewrite Hi. destruct (bool_decide (m_action m = MMotion) && _) eqn:E; [done|].
    rewrite orb_false_r in Hev. by rewrite Hev.
  - done.
  - unfold on_focus, when. by rewrite Hev.
Qed.

(** Along the path the desktop changes by the place of the window alone. *)
Lemma path_steps (path : list (env * mouse_event)) i dx dy o wd d0 : forall s r es,
  Window.find (wm d0) i = Some wd -> drag s = Moving i dx dy o -> dk s = set_user_rect d0 i r ->
  Forall (fun p => drags (snd p) = true) path -> in_time (drag_stamp s) ((fst <$> path) ++ es) = true ->
  let sp := fold_left (fun s p => on_input make amb (fst p) s (EvMouse (snd p))) path s in
  drag sp = Moving i dx dy o /\ (exists r', dk sp = set_user_rect d0 i r') /\ in_time (drag_stamp sp) es = true.
Proof.
  intros s r es Hf Hd Hr Hp. revert s r Hd Hr. induction Hp as [|[e1 m] path Hm Hp IH]; intros s r Hd Hr Ht; cbn [fold_left].
  - split_and!; [done|by exists r|exact Ht].
  - cbn [fst snd] in *. cbn [fmap list_fmap fst app in_time] in Ht. apply andb_true_iff in Ht as [Ht1 Ht2]. zbool.
    assert (Window.find (the_wm s) i = Some (with_user wd r)) as Hw1 by (unfold the_wm; rewrite Hr; by apply find_user).
    destruct (drag_step e1 s m i dx dy o _ Hd Hw1 ltac:(lia) Hm) as (D & S & r' & E).
    apply (IH _ r'); [done|by rewrite E, Hr, user_twice|by rewrite S].
Qed.

(** C6: a move can be taken back.  From the press on the title bar, along any path of
    the mouse whose events come less than the two seconds of the watchdog one after the
    other, no frame being composed meanwhile: a key, another press, the loss of the focus
    or a motion without button that comes in that delay too, and the watchdog itself once
    the delay has passed, end the gesture and put the desktop back exactly as it was:
    every window, in every field, its stacking, every application, every watch. *)
Theorem gesture_taken_back s i dx dy wd (path : list (env * mouse_event)) e ev :
  drag s = Moving i dx dy (user_rect wd) -> Window.find (the_wm s) i = Some wd ->
  Forall (fun p => drags (snd p) = true) path -> in_time (drag_stamp s) (fst <$> path) = true ->
  let sp := fold_left (fun s p => on_input make amb (fst p) s (EvMouse (snd p))) path s in
  (steady_now e - drag_stamp sp < kDragWatchdog -> takes_back ev = true ->
    let s' := on_input make amb e sp ev in dk s' = dk s /\ drag s' = DragIdle) /\
  (kDragWatchdog <= steady_now e - drag_stamp sp ->
    let s' := watchdog e sp in dk s' = dk s /\ drag s' = DragIdle).
Proof.
  intros Hd Hf Hp Ht. cbv zeta. set (sp := fold_left _ path s).
  destruct (path_steps path i dx dy (user_rect wd) wd (dk s) s (user_rect wd) []) as (D & (r & E) & _);
    [done|done|by rewrite (user_same (dk s) i wd)|done|by rewrite app_nil_r|].
  fold sp in D, E. assert (dk (cancel_drag sp) = dk s /\ drag (cancel_drag sp) = DragIdle) as Hc.
  { unfold cancel_drag. rewrite D. cbn [dk drag]. split; [|done]. unfold on_desk. cbn [dk]. rewrite E, user_twice. by apply user_same. }
  split; intros Hn; [intros Hev; by rewrite (take_back sp e ev i dx dy (user_rect wd))|].
  unfold watchdog, idle. rewrite D, bool_decide_eq_false_2 by done. by zrw_true (kDragWatchdog <=? steady_now e - drag_stamp sp).
Qed.

(** ** A question that Escape dismisses *)

Definition plain_key (k : key) : key_event := KeyEvent k 0 0.

Lemma modal_key_event e s k :
  idle s = true -> modal_open s = true -> k <> KChar -> on_input make amb e s (EvKey (plain_key k)) = modal_key e s (plain_key k).
Proof.
  intros Hi Hm Hk. unfold on_input, watchdog. rewrite Hi. unfold on_key. rewrite Hi. cbn [negb].
  replace (is_detach (plain_key k)) with false; [by rewrite Hm|]. symmetry. unfold is_detach. cbn [plain_key ke_key].
  by rewrite bool_decide_eq_false_2.
Qed.

(** C37: an escaped question stays armed.  Escape closes the question of quitting the
    session and forgets that it was asked; when a window that holds unsaved work is
    then asked to close, the question on the screen is that of the window, and
    answering yes to it quits the whole session, the window left as it was. *)
Theorem escaped_question_stays_armed e1 e2 e3 e4 s wd :
  idle s = true -> modal_open s = true -> Modal.m_style (s_modal s) = Modal.Question -> s_modal_kind s = QuitSession ->
  allowed (can_close (app wd)) = false ->
  let s1 := on_input make amb e1 s (EvKey (plain_key KEscape)) in
  let s2 := request_close e2 s1 wd in
  let s3 := on_input make amb e3 s2 (EvKey (plain_key KTab)) in
  let s4 := on_input make amb e4 s3 (EvKey (plain_key KEnter)) in
  modal_open s1 = false /\
  Modal.question (s_modal s2) = Host.question (can_close (app wd)) /\ Modal.target (s_modal s2) = id wd /\ modal_open s2 = true /\
  quit s4 = true /\ the_wm s4 = the_wm s.
Proof.
  intros Hi Hm Hst Hk Hw. cbv zeta. rewrite (modal_key_event e1) by done.
  set (s1 := modal_key e1 s (plain_key KEscape)).
  assert (request_close e2 s1 wd = soil {| s1 with s_modal := Modal.ask (s_modal s1) (Host.question (can_close (app wd))) (id wd); drag := DragIdle |}) as E2.
  { unfold request_close. cbv zeta. rewrite Hw. unfold cancel_drag.
    assert (drag s1 = DragIdle) as -> by (apply bool_decide_eq_true in Hi; exact Hi). done. }
  rewrite E2. set (s2 := soil _). rewrite (modal_key_event e3) by done.
  set (s3 := modal_key e3 s2 (plain_key KTab)). rewrite (modal_key_event e4) by done.
  split_and!; try done. 1: unfold modal_key; cbn [plain_key ke_key].
  - cbn. unfold answer_modal. cbn. by rewrite Hk.
  - unfold modal_key. cbn. unfold answer_modal. cbn. by rewrite Hk.
Qed.

(** A report that arrives while a window asks to be closed changes what the answer
    means, and not what is asked. *)
Lemma report_changes_the_answer s :
  modal_open s = true -> Modal.m_style (s_modal s) = Modal.Question -> UpdateService.has_report (update_ s) = true ->
  s_modal_kind s = CloseWindow ->
  s_modal (report_modal s) = s_modal s /\ s_modal_kind (report_modal s) <> CloseWindow.
Proof.
  intros Hm Hst Hr Hk. unfold report_modal. rewrite Hr. cbn [negb].
  destruct (UpdateService.take_report _) as [report u]. cbv zeta. rewrite Hk. rewrite bool_decide_eq_false_2 by done. cbn [andb].
  assert (Modal.taken (s_modal s) = true) as Ht.
  { unfold Modal.taken. unfold modal_open in Hm. rewrite Hm, Hst. by rewrite bool_decide_eq_false_2. }
  destruct (_ && _); cbn; unfold Modal.ask_named, Modal.inform; by rewrite Ht.
Qed.

End Gestures.

(** ** Witnesses *)

Definition demo_moving : session toy :=
  on_input demo_make false (demo_env 10) demo_first (EvMouse (MouseEvent MPress 0 6 1 0)).

Lemma gesture_taken_back_witness :
  let s := demo_moving in
  let path := [(demo_env 100, MouseEvent MMotion 0 30 9 0); (demo_env 900, MouseEvent MMotion 0 50 12 0)] in
  let s' := on_input demo_make false (demo_env 1000) (fold_left (fun s p => on_input demo_make false (fst p) s (EvMouse (snd p))) path s)
              (EvKey (plain_key KEscape)) in
  idle s = false /\ dk s' = dk s.
Proof.
  cbv zeta. destruct (Window.find (the_wm demo_moving) 1) as [wd|] eqn:E; [|by vm_compute in E].
  split; [by vm_compute|].
  refine (proj1 (proj1 (gesture_taken_back demo_make false demo_moving 1 4 0 wd
           [(demo_env 100, MouseEvent MMotion 0 30 9 0); (demo_env 900, MouseEvent MMotion 0 50 12 0)] (demo_env 1000) (EvKey (plain_key KEscape))
           _ E _ _) _ _)); [|by repeat constructor|by vm_compute..].
  vm_compute in E. injection E as <-. by vm_compute.
Defined.

Lemma escaped_question_stays_armed_witness :
  exists wd, Window.find (the_wm demo_quitting) 1 = Some wd /\ allowed (can_close (app wd)) = false /\
  let s1 := on_input demo_make false (demo_env 20) demo_quitting (EvKey (plain_key KEscape)) in
  let s2 := request_close (demo_env 30) s1 wd in
  let s3 := on_input demo_make false (demo_env 40) s2 (EvKey (plain_key KTab)) in
  let s4 := on_input demo_make false (demo_env 50) s3 (EvKey (plain_key KEnter)) in
  quit s4 = true /\ the_wm s4 = the_wm demo_quitting.
Proof.
  destruct (Window.find (the_wm demo_quitting) 1) as [wd|] eqn:E; [|by vm_compute in E]. exists wd.
  assert (allowed (can_close (app wd)) = false) as Hw by (vm_compute in E; by injection E as <-).
  split_and!; [done|done|..];
    apply (escaped_question_stays_armed demo_make false (demo_env 20) (demo_env 30) (demo_env 40) (demo_env 50) demo_quitting wd);
    done || by vm_compute.
Defined.
