(* ===== verification/SessionFrame.v ===== *)
(** * What a frame of the session shows

    A frame paints with the primitives and in the colours of the program, an
    application with its own part of the window only; the cursor it asks for is on the
    screen.  So each frame is one the differ can send, and the client's page shows it. *)

From stdpp Require Import gmap.
From S2P Require Import Prelude StdString Input RowPairs Cell Width Surface Desktop Theme Shortcuts Drawn Window Config Host Session SessionRender SessionDemo SessionSteps SessionProps SessionHistory.
From S2P Require UpdateService Catalog Menu Modal SnapAssist Help Panel Tile Decor Profile Clock SysInfo Differ VtParser Emulator Frames.

Section Look.
Context {A : Type} `{Application A} (make : bytes -> A) (amb : bool).
Implicit Types (s : session A) (wd : window A) (d : desk A) (m : manager A).

(** ** The palette *)

(** What an attachment sets, and the cursor of the last frame: reactions change neither. *)
Definition palette s : Profile.output_profile * theme := (out s, s_theme s).
Definition look s : (Profile.output_profile * theme) * option pos := (palette s, s_cursor s).

Ltac same_look := intros; cbv zeta; repeat (case_match; simplify_eq); done.

Lemma look_cancel s : look (cancel_drag s) = look s.
Proof. unfold cancel_drag. by destruct (drag s). Qed.

Lemma look_watchdog e s : look (watchdog e s) = look s.
Proof. destruct (watchdog_cases e s) as [-> | ->]; [done|apply look_cancel]. Qed.

Lemma look_open e s i : look (fst (open_from_catalog make e s i)) = look s.
Proof. unfold open_from_catalog. destruct (Catalog.catalog_find i); [|done]. by destruct (open_window _ _ _ _ _). Qed.

Lemma look_close e s wd : look (request_close e s wd) = look s.
Proof. unfold request_close. cbv zeta. rewrite <- (look_cancel s). by destruct (allowed _). Qed.

Lemma look_snap s dir : look (snap_focused amb s dir) = look s.
Proof. unfold snap_focused. by destruct (focused_window s). Qed.

Lemma look_dock s i : look (dock_into_free_half s i) = look s.
Proof. unfold dock_into_free_half. by destruct (Window.find _ _). Qed.

Lemma look_tile s : look (tile_windows s) = look s.
Proof. unfold tile_windows. by case_bool_decide. Qed.

Lemma look_focus_or_open e s i : look (focus_or_open make e s i) = look s.
Proof.
  unfold focus_or_open, when. destruct (List.find _ _) as [wd|]; [by case_bool_decide|]. apply (look_open e s i).
Qed.

Lemma look_modal s : look (refresh_update_modal s) = look s.
Proof. unfold refresh_update_modal. by destruct (_ || _). Qed.

Lemma look_run_update e s i : look (run_update_command e s i) = look s.
Proof.
  unfold run_update_command. destruct (negb _); [done|]. destruct (_ && _); [done|]. by repeat case_bool_decide.
Qed.

Lemma look_run_menu e s i : look (run_menu make e s i) = look s.
Proof.
  unfold run_menu. set (t := soil _). assert (look t = look s) as <- by done. destruct (starts _ _); [apply look_open|].
  destruct (starts _ _); [unfold when; by repeat case_bool_decide|]. destruct (starts _ _); [by destruct (focused_window t)|].
  case_bool_decide; [apply look_tile|]. case_bool_decide; [done|]. destruct (is_prefix _ _); [apply look_run_update|].
  by case_bool_decide.
Qed.

Lemma look_menu_key e s k : look (menu_key make e s k) = look s.
Proof.
  unfold menu_key. destruct (ke_key k); try done; [by destruct (negb _)|]. destruct (Menu.selected _); [apply look_run_menu|done].
Qed.

Lemma look_action e s a : look (do_action amb e s a) = look s.
Proof.
  unfold do_action. set (t := soil s). assert (look t = look s) as <- by done.
  destruct a; try done; try apply look_snap; destruct (focused_window t); try done; apply look_close.
Qed.

Lemma look_answer e s b : look (answer_modal e s b) = look s.
Proof. unfold answer_modal. destruct b; [|done]. destruct (s_modal_kind s); try done; by destruct (Window.find _ _). Qed.

Lemma look_modal_key e s k : look (modal_key e s k) = look s.
Proof. unfold modal_key. destruct (ke_key k); try done. apply (look_answer e s (Modal.confirm (s_modal s))). Qed.

Lemma look_leader e s k : look (leader_key amb e s k) = look s.
Proof.
  unfold leader_key. destruct (feed (ldr s) k) as [l r]. set (t := with_leader s l).
  assert (look t = look s) as <- by done. destruct (la_action r) as [a|].
  - rewrite <- (look_action e t a). by destruct (repeating _).
  - destruct (consumed r); [by destruct (armed t)|by destruct (focused_window t)].
Qed.

Lemma look_key e s k : look (on_key make amb e s k) = look s.
Proof.
  unfold on_key. destruct (negb _); [apply look_cancel|]. destruct (is_detach k); [done|].
  destruct (modal_open s); [apply look_modal_key|]. destruct (menu_is_open s); [apply look_menu_key|].
  assert (look (first_key e s) = look s) as <-.
  { unfold first_key, when. by destruct (_ && _); destruct (Help.h_open _); destruct (SnapAssist.sa_open _). }
  destruct (arrow (ke_key k)) as [dir|]; [|apply look_leader].
  destruct (_ =? _); [|apply look_leader]. apply (look_snap (with_leader (first_key e s) _)).
Qed.

Lemma look_press_panel e s (m : mouse_event) ph : look (press_panel make e s m ph) = look s.
Proof.
  unfold press_panel. set (t := soil s). assert (look t = look s) as <- by done.
  assert (look (press_pinned make e t m (Panel.ph_index ph)) = look t) as H1.
  { unfold press_pinned. destruct (_ && _); [|done]. destruct (Catalog.catalog !! _); [|done].
    destruct (_ =? _); [apply look_open|apply look_focus_or_open]. }
  assert (look (press_task make e t m (Panel.ph_win ph)) = look t) as H2.
  { unfold press_task. destruct (Window.find _ _) as [wd|]; [|done]. destruct (_ =? _).
    - case_bool_decide; [done|apply look_open].
    - case_bool_decide; [done|]. by destruct (_ =? _). }
  destruct (Panel.ph_what ph); try done. apply look_run_update.
Qed.

Lemma look_press_window e s (m : mouse_event) wd : look (press_window e s m wd) = look s.
Proof.
  unfold press_window. cbv zeta. set (t := record_click e s m). assert (look t = look s) as <- by done.
  destruct (Decor.what _); try done; [|apply look_close]. destruct (doubled _ _ _); [done|]. by destruct (negb _).
Qed.

Lemma look_press_desktop e s (m : mouse_event) : look (press_desktop make e s m) = look s.
Proof.
  unfold press_desktop. cbv zeta. destruct (negb _); [apply look_press_panel|].
  destruct (Window.hit _ _ _) as [wd|]; [|by destruct (_ =? 2)]. unfold when.
  destruct (negb _); (destruct (Window.find _ _) as [wd'|]; [|done]); rewrite look_press_window; done.
Qed.

Lemma look_press e s (m : mouse_event) : look (press make e s m) = look s.
Proof.
  unfold press. destruct (modal_open s).
  { unfold press_modal. destruct (Modal.hit _ _ _); first [done|apply (look_answer e s true)|apply (look_answer e s false)]. }
  destruct (Help.h_open _); [done|]. destruct (menu_is_open s).
  { unfold press_menu. cbv zeta. destruct (Menu.mh_what _); try done. destruct (_ && _); [|done].
    destruct (Menu.shown _ !! _); [apply look_run_menu|done]. }
  destruct (SnapAssist.sa_open _); [|apply look_press_desktop]. destruct (negb _); [apply look_dock|].
  by rewrite look_press_desktop.
Qed.

Lemma look_mouse e s (m : mouse_event) : look (on_mouse make e s m) = look s.
Proof.
  unfold on_mouse. destruct (_ && _); [apply look_cancel|]. destruct (_ && _); [apply look_cancel|].
  destruct (drag s) as [|win dx dy origin|win o].
  - destruct (_ || _).
    { unfold wheel. destruct (_ || _); [done|]. destruct (Window.hit _ _ _); [|done]. by destruct (negb _). }
    destruct (_ && _).
    { unfold grabbed. destruct (Window.find _ _); by destruct (decide _). }
    destruct (negb _); [done|apply look_press].
  - unfold moving. destruct (Window.find _ _); [|apply look_cancel]. destruct (decide _); [|done]. unfold when. by destruct (negb _).
  - unfold resizing. destruct (Window.find _ _); [|apply look_cancel]. by destruct (decide _).
Qed.

Lemma look_input e s ev : look (on_input make amb e s ev) = look s.
Proof.
  unfold on_input. rewrite <- (look_watchdog e s). set (t := watchdog e s). destruct ev as [k|m|x b|f].
  - apply look_key.
  - apply look_mouse.
  - unfold on_paste. set (u := when _ _ _). assert (look u = look t) as <-.
    { subst u. unfold when. destruct (negb _); [apply look_cancel|done]. }
    destruct (_ || _); [done|]. by destruct (focused_window u).
  - unfold on_focus, when. destruct (negb f); [apply look_cancel|done].
Qed.

Lemma look_settle e s cols rows : look (settle make e s cols rows) = look s.
Proof.
  assert (look (tick_clock e s) = look s) as <-.
  { unfold tick_clock, when. by destruct (Clock.update _ _ _) as [c []]. }
  unfold settle. set (s1 := tick_clock e s). clearbody s1. cbv zeta.
  assert (look (serve_pending e s1) = look s1) as <- by (unfold serve_pending; by destruct (pending _) as [|[]]).
  set (s0 := serve_pending e s1). clearbody s0.
  assert (look (serve_closes e s0) = look s0) as <-.
  { unfold serve_closes. destruct (List.find _ _); [|done]. by rewrite look_close. }
  set (s2 := serve_closes e s0). clearbody s2. set (s3 := {| s2 with last_work := _ |}).
  change (look (ensure_window make e s3) = look s3).
  unfold ensure_window. destruct (seeded s3); [done|]. by rewrite look_open.
Qed.

Lemma palette_before e s : palette (before_frame e s) = palette s.
Proof. exact (f_equal fst (look_watchdog e s)). Qed.

Lemma palette_settle e s cols rows : palette (settle make e s cols rows) = palette s.
Proof. exact (f_equal fst (look_settle e s cols rows)). Qed.

Lemma palette_paint e s v sf cols rows : palette (fst (paint_desktop amb e s v sf cols rows)) = palette s.
Proof. done. Qed.

Lemma palette_render e s sf : palette (fst (render make amb e s sf)) = palette s.
Proof.
  rewrite <- (palette_before e s). unfold render. generalize (before_frame e s) as t. intros t. cbv zeta.
  destruct (too_small _ _); [done|]. rewrite <- (palette_settle e t (s_w sf) (s_h sf)). apply palette_paint.
Qed.

(** The palette is the one of the profile, through any life of the session. *)
Definition look_ok s : Prop := s_theme s = for_profile defaults (out s).

Lemma look_ok_output s p : look_ok (set_output s p).
Proof. done. Qed.

Lemma look_kept s s' : palette s' = palette s -> look_ok s -> look_ok s'.
Proof. unfold palette, look_ok. by intros [= -> ->]. Qed.

Lemma look_child e s pid st : look (on_child_exit e s pid st) = look s.
Proof.
  unfold on_child_exit. destruct (UpdateService.owns _ _).
  { unfold report_modal. destruct (negb _); [done|]. destruct (UpdateService.take_report _). by repeat case_match. }
  destruct (List.find _ _); [|done]. by destruct (Window.find _ _).
Qed.

Lemma look_fd e s key events : look (on_fd_event e s key events) = look s.
Proof. unfold on_fd_event. destruct (Window.find _ _); [|done]. by destruct (hosts _ !! _). Qed.

Lemma look_refresh e s : look (mark_refresh_due e s) = look s.
Proof. exact (look_modal (svc (soil s) (UpdateService.tick (e_world e) (update_ (soil s))))). Qed.

Lemma look_tick e s : look (tick_update e s) = look s.
Proof. exact (look_modal (svc s (UpdateService.tick (e_world e) (update_ s)))). Qed.

Lemma look_dirty e s : look (fst (take_dirty e s)) = look s.
Proof. unfold take_dirty, when. destruct (Clock.update _ _ _) as [c changed]. by destruct changed; destruct (_ =? 0). Qed.

Lemma look_turn s s' : turn make amb s s' -> look_ok s -> look_ok s'.
Proof.
  intros [e s0 ev|e s0 sf|e s0 pid st|e s0 key events|e s0|e s0|e s0|s0|s0|s0 p|s0]; try done; apply look_kept.
  - apply (f_equal fst (look_input e s0 ev)).
  - apply palette_render.
  - apply (f_equal fst (look_child e s0 pid st)).
  - apply (f_equal fst (look_fd e s0 key events)).
  - apply (f_equal fst (look_refresh e s0)).
  - apply (f_equal fst (look_tick e s0)).
  - apply (f_equal fst (look_dirty e s0)).
  - apply (f_equal fst (look_cancel s0)).
Qed.

(** ** The surface *)

Context (th : theme) (Hth : theme_ok th).

Lemma drawn_paint_window e v foc b (c : canvas) i :
  drawn amb v (cv_surface c) (cv_surface (paint_window amb e v foc th b c i)).
Proof.
  unfold paint_window. destruct (Window.find _ i) as [wd|]; [|done]. destruct (decide _); [done|]. cbv zeta.
  set (d := announce_size _ _ _). destruct (Window.find (wm d) i) as [wd1|]; [|done]. cbn [cv_surface].
  etrans; [apply (drawn_decor amb th Hth wd1 v _ (id wd1 =? foc) b)|].
  eapply drawn_sub, drawn_ops; [apply render_ops|reflexivity].
Qed.

Lemma drawn_paint_windows e v b d sf : drawn amb v sf (cv_surface (paint_windows amb e v th b d sf)).
Proof.
  unfold paint_windows. generalize (focused (wm d)) as foc. intros foc. generalize (ids (stack (wm d))) as l.
  change sf with (cv_surface (Canvas d sf None)) at 1. generalize (Canvas d sf None) as c. intros c l. revert c.
  induction l as [|i l IH]; intros c; [done|]. cbn [fold_left]. etrans; [apply (drawn_paint_window e v foc b c i)|apply IH].
Qed.

Lemma drawn_background s v sf work : s_theme s = th -> drawn amb v sf (paint_background amb s v sf work).
Proof.
  intros E. styles Hth. unfold paint_background. rewrite E. cbv zeta.
  set (sf1 := SysInfo.draw_banner _ _ _ _ _).
  assert (drawn amb v sf sf1) as Hs1 by (eapply drawn_sub, drawn_banner, Hth).
  set (sf2 := if _ && _ then _ else sf1). assert (drawn amb v sf sf2) as Hs2.
  { subst sf2. destruct (_ && _); [|done]. etrans; [exact Hs1|]. eapply drawn_sub, drawn_sysinfo, Hth. }
  destruct (stack (the_wm s)); [|done]. etrans; [exact Hs2|]. unfold draw_empty_hint. rewrite E. cbv zeta. drawing.
Qed.

Lemma drawn_outline s v sf work : s_theme s = th -> drawn amb v sf (draw_outline amb s v sf work).
Proof.
  intros E. styles Hth. unfold draw_outline. rewrite E. destruct (drag s); [done|done|].
  destruct (Window.find _ _); [|done]. drawing.
Qed.

Lemma drawn_overlays s v sf work : s_theme s = th -> drawn amb v sf (paint_overlays amb s v sf work).
Proof.
  intros E. unfold paint_overlays. rewrite E. cbv zeta.
  etrans; [apply (drawn_outline s v sf work E)|]. etrans; [apply (drawn_assist amb th Hth (assist s) v _ (session_border s))|].
  etrans; [|apply drawn_modal, Hth]. etrans; [|apply drawn_help, Hth]. etrans; [|apply drawn_menu, Hth].
  destruct (panel_hidden s); [done|]. apply drawn_panel, Hth.
Qed.

Lemma drawn_desktop e u v sf cols rows : s_theme u = th -> drawn amb v sf (snd (paint_desktop amb e u v sf cols rows)).
Proof.
  intros Eu. unfold paint_desktop. cbv zeta. cbn [snd].
  etrans; [apply (drawn_background u v sf (last_work u) Eu)|].
  rewrite Eu. etrans; [apply drawn_paint_windows|]. by apply drawn_overlays.
Qed.

Lemma drawn_render e s sf : s_theme s = th -> drawn amb (root sf) sf (snd (render make amb e s sf)).
Proof.
  intros E. assert (s_theme (before_frame e s) = th) as Et by (etrans; [exact (f_equal snd (palette_before e s))|exact E]).
  revert Et. unfold render. generalize (before_frame e s) as t. intros t Et. cbv zeta. styles Hth.
  etrans; [instantiate (1 := paint_ground t (root sf) sf); unfold paint_ground; rewrite Et; drawing|].
  destruct (too_small _ _).
  { cbn [snd]. unfold paint_warning. rewrite Et. drawing. }
  apply drawn_desktop. etrans; [exact (f_equal snd (palette_settle e t (s_w sf) (s_h sf)))|exact Et].
Qed.

(** ** The cursor *)

(** Every window one can see is on the screen. *)
Definition on_screen (cols rows : Z) m : Prop :=
  Forall (fun wd => mode wd <> Minimized -> inside_rect (display_rect wd) (Rect 0 0 cols rows)) (stack m).

Lemma on_screen_update cols rows m i (f : window A -> window A) :
  (forall wd, mode (f wd) = mode wd /\ display_rect (f wd) = display_rect wd) ->
  on_screen cols rows m -> on_screen cols rows (with_stack m (update i f (stack m))).
Proof.
  intros Hf. unfold on_screen. cbn [with_stack stack]. induction (stack m) as [|x l IH]; [done|].
  intros [Hx Hl]%list.Forall_cons. cbn [update]. destruct (_ =? _); constructor; try done.
  - destruct (Hf x) as [-> ->]. exact Hx.
  - by apply IH.
Qed.

Lemma on_screen_call cols rows e d wd f : on_screen cols rows (wm d) -> on_screen cols rows (wm (call_app e d wd f)).
Proof. intros Hd. unfold call_app. destruct (f _ _) as [a h]. cbn [after_call wm]. by apply on_screen_update. Qed.

Lemma caret_inside cols rows wd a p :
  inside_rect (display_rect wd) (Rect 0 0 cols rows) -> caret_at (client_rect (display_rect wd)) a = Some p ->
  0 <= px p < cols /\ 0 <= py p < rows.
Proof.
  unfold inside_rect, caret_at, contains, client_rect. cbn [rx ry rw rh]. intros Hin.
  destruct (wants_cursor a) as [q|]; [|done]. destruct (_ && _) eqn:E; [|done]. intros [= <-]. cbn [px py]. zbool. lia.
Qed.

Definition on_surface (cols rows : Z) (o : option pos) : Prop :=
  match o with Some p => 0 <= px p < cols /\ 0 <= py p < rows | None => True end.

Lemma paint_window_cursor cols rows e v foc b (c : canvas) i :
  on_screen cols rows (wm (cv_desk c)) -> on_surface cols rows (cv_cursor c) ->
  let c' := paint_window amb e v foc th b c i in on_screen cols rows (wm (cv_desk c')) /\ on_surface cols rows (cv_cursor c').
Proof.
  intros Hs Hc. cbv zeta. unfold paint_window. destruct (Window.find _ i) as [wd|] eqn:E; [|done].
  destruct (decide (mode wd = Minimized)) as [|Hm]; [done|]. cbv zeta. set (d := announce_size _ _ _).
  assert (on_screen cols rows (wm d)) as Hd.
  { subst d. unfold announce_size. destruct (decide _); [done|]. apply on_screen_update; [done|]. by apply on_screen_call. }
  destruct (Window.find (wm d) i) as [wd1|]; [|done]. cbn [cv_desk cv_cursor].
  split; [by apply (on_screen_call cols rows e d wd1 (fun a h => fst (app_render amb (size_of (sub v (client_rect (display_rect wd)))) a h)))|].
  destruct (_ =? foc); [|done]. destruct (caret_at _ _) as [p|] eqn:Ec; [|done]. eapply caret_inside; [|exact Ec].
  apply find_ids in E as [_ Hin]. unfold on_screen in Hs. rewrite List.Forall_forall in Hs. apply Hs; [by apply list_elem_of_In|done].
Qed.

Lemma paint_windows_cursor cols rows e v b d sf :
  on_screen cols rows (wm d) -> on_surface cols rows (cv_cursor (paint_windows amb e v th b d sf)).
Proof.
  unfold paint_windows. intros Hs. generalize (focused (wm d)) as foc. intros foc. generalize (ids (stack (wm d))) as l.
  assert (on_surface cols rows (cv_cursor (Canvas d sf None))) as Hc by done. change d with (cv_desk (Canvas d sf None)) in Hs.
  revert Hs Hc. generalize (Canvas d sf None) as c. intros c Hs Hc l. revert c Hs Hc.
  induction l as [|i l IH]; intros c Hs Hc; [done|]. cbn [fold_left].
  destruct (paint_window_cursor cols rows e v foc b c i Hs Hc). by apply IH.
Qed.

(** ** The frame *)

(** The size the terminal of a client can have for every window to fit, whatever the
    edge the bar is on: either nothing but the warning is shown, or the bar leaves 26
    columns by 8 rows, which is what the largest application of the program asks for. *)
Definition roomy (cols rows : Z) : Prop := (cols < 40 \/ 42 <= cols) /\ 0 <= rows.

Hypothesis small : forall a : A, Cell.w (frame_min a) <= 26 /\ Cell.h (frame_min a) <= 8.

Lemma settle_on_screen e s cols rows :
  roomy cols rows -> too_small cols rows = false -> on_screen cols rows (the_wm (settle make e s cols rows)).
Proof.
  intros [Hc Hr] Ht. unfold too_small, kMinCols, kMinRows in Ht. apply orb_false_iff in Ht as [Ht1 Ht2]. zbool.
  pose proof (settle_split make e s cols rows) as Hs. cbv zeta in Hs.
  set (s2 := serve_closes e _) in *. set (m := the_wm (ensure_window _ _ _)) in *. unfold the_wm at 1. rewrite Hs. cbn [wm with_wm].
  unfold on_screen, relayout. cbn [with_stack stack]. rewrite List.Forall_forall. intros wd Hin Hm. apply list_elem_of_In in Hin.
  apply list_elem_of_fmap in Hin as (x & -> & _). cbn [mode display_rect with_display] in *. unfold display_rect_for.
  assert (let work := work_area cols rows (Panel.edge (s_panel s2)) (Panel.thickness (s_panel s2)) in
    inside_rect work (Rect 0 0 cols rows) /\ 26 <= rw work /\ 8 <= rh work) as (Hw1 & Hw2 & Hw3).
  { unfold inside_rect, work_area, Panel.thickness, Panel.horizontal, Panel.kVerticalCols.
    destruct (Panel.edge (s_panel s2)); cbn; lia. }
  set (work := work_area _ _ _ _) in *. clearbody work. clear -Hw1 Hw2 Hw3 small. destruct (mode x); try done; try (unfold inside_rect; cbn; lia).
  all: destruct (small (app x)) as [S1 S2]; pose proof (clamp_to_inside (user_rect x) work (frame_min (app x))
    (Z.le_trans _ _ _ S1 Hw2) (Z.le_trans _ _ _ S2 Hw3)) as Hk; unfold inside_rect in *; cbn [rx ry rw rh] in *; lia.
Qed.

Lemma cursor_desktop e u v sf cols rows : on_screen cols rows (the_wm u) -> s_theme u = th ->
  on_surface cols rows (s_cursor (fst (paint_desktop amb e u v sf cols rows))).
Proof.
  intros Hs Eu. unfold paint_desktop, lay_desktop. cbv zeta. cbn [fst lay_overlays s_cursor].
  destruct (covered _); [done|]. rewrite Eu. by apply paint_windows_cursor.
Qed.

Lemma render_cursor e s sf : s_theme s = th -> roomy (s_w sf) (s_h sf) ->
  on_surface (s_w sf) (s_h sf) (s_cursor (fst (render make amb e s sf))).
Proof.
  intros Eth Hr. assert (s_theme (before_frame e s) = th) as Et by (etrans; [exact (f_equal snd (palette_before e s))|exact Eth]).
  assert (s_cursor (before_frame e s) = None) as Ec by done.
  revert Et Ec. unfold render. generalize (before_frame e s) as t. intros t Et Ec. cbv zeta.
  destruct (too_small _ _) eqn:E; [cbn [fst]; by rewrite Ec|].
  pose proof (settle_on_screen e t (s_w sf) (s_h sf) Hr E) as Hs.
  pose proof (f_equal snd (palette_settle e t (s_w sf) (s_h sf))) as Hu. cbn [palette snd] in Hu. rewrite Et in Hu.
  revert Hs Hu. generalize (settle make e t (s_w sf) (s_h sf)) as u. intros u. apply cursor_desktop.
Qed.

End Look.

(** ** What the client sees *)

Section Shown.
Context {A : Type} `{Application A} (make : bytes -> A) (amb : bool).
Hypothesis small : forall a : A, Cell.w (frame_min a) <= 26 /\ Cell.h (frame_min a) <= 8.

Definition screen_ok (sf : surface) : Prop :=
  fit amb sf /\ surface_pairs sf /\ 1 <= s_w sf <= 65535 /\ 1 <= s_h sf <= 65535 /\ roomy (s_w sf) (s_h sf).

Lemma screen_new w h : 1 <= w <= 65535 -> 1 <= h <= 65535 -> roomy w h -> screen_ok (resize w h).
Proof.
  intros Hw Hh Hr. destruct (surface_new_pairs w h) as [_ Hp]. unfold screen_ok.
  assert (s_w (resize w h) = w /\ s_h (resize w h) = h) as [-> ->] by (cbn; lia).
  split; [apply fit_new|]. split_and!; first [done|lia].
Qed.

Lemma render_screen e (s : session A) sf : look_ok s -> screen_ok sf ->
  let r := render make amb e s sf in screen_ok (snd r) /\ Frames.frame_ok amb (snd r, s_cursor (fst r)).
Proof.
  intros Hl (Hf & Hp & Hw & Hh & Hr). cbv zeta.
  assert (theme_ok (s_theme s)) as Hth by (rewrite Hl; apply theme_ok_profile).
  pose proof (drawn_render make amb (s_theme s) Hth e s sf eq_refl) as Hd.
  pose proof (render_cursor make amb (s_theme s) small e s sf eq_refl Hr) as Hc.
  pose proof (drawn_fit _ _ _ _ Hd Hf) as Hf'. destruct (drawn_dims _ _ _ _ Hd (proj1 Hf) Hp) as (Hok' & Hp' & Ew & Eh).
  unfold screen_ok, Frames.frame_ok, Frames.drawable, Frames.cursor_ok, Frames.in_cur. cbn [fst snd]. rewrite Ew, Eh.
  split_and!; try done; try lia; try apply Hc. intros x y. apply Hf'.
Qed.

(** A differ that forgets its frame is in step with any page. *)
Lemma in_sync_invalidate df (pt : VtParser.parser * Emulator.emu) : Frames.in_sync df pt -> Frames.in_sync (Differ.invalidate df) pt.
Proof. intros [(H1 & H2 & H3 & _) _]. split; [|done]. split; [exact H1|]. split; [exact H2|]. by split. Qed.

End Shown.

Lemma toy_small (a : toy) : Cell.w (frame_min a) <= 26 /\ Cell.h (frame_min a) <= 8.
Proof. by split. Qed.
