(* ===== verification/Daemon.v ===== *)
(** * The daemon: [src/daemon/daemon.cpp], [src/daemon/reap.cpp]

    The loop that holds the session: one client at most, one connection that has not
    said who it is, the descriptors of the applications.  A turn of the loop is a
    function of the state and of what the system answers during it: every clock
    reading ([t_at], one per place of the source), every [read], [send], [accept],
    [waitpid].  What it does to the outside is the log: epoll, the wires, the timer.
    A connection is named by its epoll key.  The journal and the protection from the
    memory killer are not modelled. *)

From S2P Require Import Prelude Input Cell Surface Window Config Host Session SessionRender.
From S2P Require Proto OutQueue FrameClock InputParser Differ Profile UpdateService.

Definition kBackpressureCeiling : Z := Z.shiftl 1 20.
Definition kFrameIntervalMs : Z := 33.
Definition kPendingHelloTimeout : Z := 5000 * 1000000.
Definition kEscAmbiguity : Z := 50 * 1000000.

Definition kGenListener : Z := 1.
Definition kGenTimer : Z := 2.
Definition kGenSignal : Z := 3.

Definition EPOLLIN : Z := 1.
Definition EPOLLOUT : Z := 4.
Definition EPOLLERR : Z := 8.
Definition EPOLLHUP : Z := 16.
Definition SIGINT : Z := 2.
Definition SIGTERM : Z := 15.
Definition SIGCHLD : Z := 17.

Definition kDetachReasonUpdate : bytes := str "mise a jour".

(** What [read] returned on a socket. *)
Inductive got := Data (bs : bytes) | Eof | Again | Intr | Failed.

Inductive accept_outcome := Empty | Rejected | TransientError | FatalError | Accepted.

(** What the daemon does outside; [Verdict] marks what a composition found in the queue. *)
Inductive effect :=
  | EpAdd (key events : Z) | EpMod (key events : Z) | EpDel (key : Z)
  | Wire (key : Z) (bs : bytes) | TimerSet (ms : Z) | CloseListener | Verdict (key : Z) (o : OutQueue.overflow).

Record client := Client {
  c_key : Z;
  c_dec : Proto.decoder;
  c_input : InputParser.input;
  c_out : OutQueue.outqueue;
  c_differ : option Differ.differ;
  c_cols : Z;
  c_rows : Z;
}.

(** One entry of the batch, with what the calls its handling makes are answered. *)
Record event := Event {
  ev_key : Z;
  ev_events : Z;
  ev_reads : list got;
  ev_sends : list OutQueue.sent;      (* the flush of [EPOLLOUT] *)
  ev_bye : list OutQueue.sent;        (* the flush of a last message *)
  ev_signals : list Z;
  ev_dead : list (Z * Z);             (* [waitpid]: pids and statuses *)
  ev_accept : accept_outcome;
  ev_at : nat -> nat -> env;          (* what reactions read: message, event *)
}.

Inductive wait_result := WaitIntr | WaitError | WaitEvents (l : list event).

(** The places of a turn that read the clock or call the session. *)
Inductive site :=
  | AtEsc | AtEscInput (k : nat) | AtDelay | AtPending | AtHelp | AtUpdate | AtTick | AtRefresh | AtMark | AtRefreshed
  | AtEscLeft | AtExpire | AtDirty | AtCompose | AtRender | AtNext.

Record turn_env := TurnEnv {
  t_at : site -> env;
  t_wait : wait_result;
  t_detach : list OutQueue.sent;
  t_flush : list OutQueue.sent;
  t_restart : list OutQueue.sent;
}.

Record daemon (A : Type) := Daemon {
  d_session : session A;
  d_screen : surface;
  d_clock : FrameClock.frameclock;
  d_client : option client;
  d_pending : option client;
  d_deadline : Z;
  d_next_gen : Z;
  d_closed : list Z;
  d_esc_armed : bool;
  d_esc_deadline : Z;
  d_last_refresh : Z;
  d_running : bool;
  d_listening : bool;
  d_reason : bytes;
  d_log : list effect;
}.
Arguments Daemon {A}.
Arguments d_session {A}.
Arguments d_screen {A}.
Arguments d_clock {A}.
Arguments d_client {A}.
Arguments d_pending {A}.
Arguments d_deadline {A}.
Arguments d_next_gen {A}.
Arguments d_closed {A}.
Arguments d_esc_armed {A}.
Arguments d_esc_deadline {A}.
Arguments d_last_refresh {A}.
Arguments d_running {A}.
Arguments d_listening {A}.
Arguments d_reason {A}.
Arguments d_log {A}.

(** ** The socket *)

(** [send] takes at most what it is given: an answer it cannot give is read as
    [EAGAIN], as is the end of the answers. *)
Fixpoint kernel (answers : list OutQueue.sent) (left : Z) : list OutQueue.sent :=
  match answers with
  | [] => [OutQueue.EAgain]
  | OutQueue.Sent n :: l => if (0 <? n) && (n <=? left) then OutQueue.Sent n :: kernel l (left - n) else [OutQueue.EAgain]
  | OutQueue.EIntr :: l => OutQueue.EIntr :: kernel l left
  | a :: _ => [a]
  end.

Definition send (answers : list OutQueue.sent) (q : OutQueue.outqueue) : OutQueue.outqueue * bytes * bool :=
  default (q, [], true) (OutQueue.flush (kernel answers (zlen (OutQueue.pending q))) q).

(** [shorten t x]: a timeout already chosen, and one more reason to wake. *)
Definition shorten (t x : Z) : Z := if t <? 0 then x else Z.min t x.

Definition client_new (key : Z) : client :=
  Client key Proto.decoder_init InputParser.input_new (OutQueue.outqueue_new kBackpressureCeiling) None 80 24.

Section Client.
Implicit Types c : client.

Definition with_dec c (x : Proto.decoder) : client := {| c with c_dec := x |}.
Definition with_input c (x : InputParser.input) : client := {| c with c_input := x |}.
Definition with_out c (x : OutQueue.outqueue) : client := {| c with c_out := x |}.
Definition push c (m : Proto.msg) : client := with_out c (OutQueue.push (c_out c) (Proto.encode m)).
Definition invalidate_differ c : client := {| c with c_differ := Differ.invalidate <$> c_differ c |}.
Definition has_differ c : bool := match c_differ c with Some _ => true | None => false end.

(** The client, what went on its wire, and whether the link still holds. *)
Definition flush_client (answers : list OutQueue.sent) c : client * list effect * bool :=
  let '(q, out, ok) := send answers (c_out c) in (with_out c q, [Wire (c_key c) out], ok).

End Client.

Section Daemon.
Context {A : Type} `{Application A} (make : bytes -> A) (grow : Z -> Z -> Z) (shrink : Z -> Z).
Implicit Types (d : daemon A) (c : client) (s : session A) (ev : event) (te : turn_env).

(** Wide characters of ambiguous width are never wide: nothing sets the flag. *)
Definition amb : bool := false.

Definition with_session d s : daemon A := {| d with d_session := s |}.
Definition with_client d (o : option client) : daemon A := {| d with d_client := o |}.
Definition with_pending d (o : option client) : daemon A := {| d with d_pending := o |}.
Definition with_clock d (k : FrameClock.frameclock) : daemon A := {| d with d_clock := k |}.
Definition dirty_frame d : daemon A := with_clock d (FrameClock.mark_dirty (d_clock d)).
Definition log d (l : list effect) : daemon A := {| d with d_log := d_log d ++ l |}.

Definition drop_client (answers : list OutQueue.sent) (reason : option bytes) d : daemon A :=
  match d_client d with
  | None => d
  | Some c =>
      let bye := match reason with
                 | Some r => snd (fst (flush_client answers (push c (Proto.MDetached r))))
                 | None => []
                 end in
      let d := log d (bye ++ [EpDel (c_key c)]) in
      {| d with d_client := None; d_closed := d_closed d ++ [c_key c]; d_clock := FrameClock.reset (d_clock d);
                d_session := cancel_drag (d_session d) |}
  end.

Definition drop_pending d : daemon A :=
  match d_pending d with
  | None => d
  | Some c => let d := log d [EpDel (c_key c)] in {| d with d_pending := None; d_closed := d_closed d ++ [c_key c] |}
  end.

(** Everything readable goes to the decoder; whether the peer is gone. *)
Fixpoint drain_socket (reads : list got) (x : Proto.decoder) : Proto.decoder * bool :=
  match reads with
  | [] => (x, false)
  | Data bs :: l => drain_socket l (Proto.feed grow shrink x bs)
  | Eof :: _ => (x, true)
  | Again :: _ => (x, false)
  | Intr :: l => drain_socket l x
  | Failed :: _ => (x, true)
  end.

(** [while (auto m = dec.next())]: the bodies of these loops leave the decoder alone. *)
Definition messages (x : Proto.decoder) : list Proto.msg * Proto.decoder :=
  Proto.drain shrink (S (length (Proto.buf x))) x.

(** [while (auto e = input.next()) session.on_input( *e)], from the [k]-th event on. *)
Fixpoint feed_session (fuel : nat) (at_ : nat -> env) (k : nat) (p : InputParser.input) s : InputParser.input * session A :=
  match fuel with
  | O => (p, s)
  | S fuel =>
      match InputParser.next p with
      | (None, p) => (p, s)
      | (Some e, p) => feed_session fuel at_ (S k) p (on_input make amb (at_ k) s e)
      end
  end.

Definition type_in (at_ : nat -> env) (p : InputParser.input) s : InputParser.input * session A :=
  feed_session (S (length (InputParser.ready p))) at_ 0 p s.

(** ** Events *)

(** [for (;;)] of [reap_children], as long as [waitpid] finds someone, and its count. *)
Fixpoint reap_children (at_ : nat -> env) (reaped : nat) (dead : list (Z * Z)) s : session A * nat :=
  match dead with
  | [] => (s, reaped)
  | (pid, st) :: dead =>
      if pid <=? 0 then (s, reaped)
      else reap_children at_ (S reaped) dead (on_child_exit (at_ reaped) s pid st)
  end.

Definition read_signal d (n : Z) : daemon A :=
  if n =? SIGTERM then {| d with d_reason := str "arret sur SIGTERM"; d_running := false |}
  else if n =? SIGINT then {| d with d_reason := str "arret sur SIGINT"; d_running := false |}
  else d.

Definition signal_event ev d : daemon A :=
  let d := fold_left read_signal (ev_signals ev) d in
  if existsb (Z.eqb SIGCHLD) (ev_signals ev)
  then with_session d (fst (reap_children (fun i => ev_at ev i 0%nat) 0 (ev_dead ev) (d_session d)))
  else d.

Definition accept_event ev d : daemon A :=
  match ev_accept ev with
  | Accepted =>
      let d := drop_pending d in
      let key := make_key 0 (d_next_gen d) in
      let d := log d [EpAdd key EPOLLIN] in
      {| d with d_pending := Some (client_new key); d_next_gen := to_u32 (d_next_gen d + 1);
                d_deadline := steady_now (ev_at ev 0%nat 0%nat) + kPendingHelloTimeout |}
  | _ => d
  end.

Definition client_message (at_ : nat -> env) d (m : Proto.msg) : daemon A :=
  match d_client d with
  | None => d
  | Some c =>
      match m with
      | Proto.MInput bs =>
          let '(p, s) := type_in at_ (InputParser.feed (c_input c) bs) (d_session d) in
          dirty_frame (with_session (with_client d (Some (with_input c p))) s)
      | Proto.MResize w h =>
          let c := {| c with c_cols := w; c_rows := h |} in
          let d := {| d with d_screen := resize w h |} in
          dirty_frame (with_client d (Some (invalidate_differ c)))
      | _ => d
      end
  end.

Definition client_messages (at_ : nat -> nat -> env) d (l : list Proto.msg) : daemon A :=
  fold_left (fun d p => client_message (at_ (fst p)) d (snd p)) (imap (fun i m => (i, m)) l) d.

Definition has (events flag : Z) : bool := negb (Z.land events flag =? 0).

(** The two ends of an event of the client: what it wrote, whether it is gone. *)
Definition client_read ev d c : daemon A :=
  let r := if has (ev_events ev) EPOLLIN then
      let '(x, closed) := drain_socket (ev_reads ev) (c_dec c) in
      let '(l, x) := messages x in
      let d := client_messages (ev_at ev) (with_client d (Some (with_dec c x))) l in
      (d, closed, Proto.failed x)
    else (d, false, false) in
  let '(d, closed, bad) := r in
  if bad then drop_client (ev_bye ev) (Some (str "message de protocole invalide")) d
  else if closed || has (ev_events ev) (Z.lor EPOLLHUP EPOLLERR) then drop_client [] None d
  else d.

Definition client_event ev d c : daemon A :=
  if has (ev_events ev) EPOLLOUT then
    let '(c, l, ok) := flush_client (ev_sends ev) c in
    let d := log (with_client d (Some c)) l in
    if negb ok then drop_client [] None d
    else
      let d := if OutQueue.wants_write (c_out c) then d else log d [EpMod (c_key c) EPOLLIN] in
      client_read ev d c
  else client_read ev d c.

Fixpoint first_hello (l : list Proto.msg) : option Proto.hello :=
  match l with
  | [] => None
  | Proto.MHello x :: _ => Some x
  | _ :: l => first_hello l
  end.

Definition refusal : bytes := str "version du demon differente : relancez `termos --kill`".

(** The connection [c] has said who it is: it takes the place of the client. *)
Definition promote (answers : list OutQueue.sent) d c (x : Proto.hello) : daemon A :=
  let d := drop_client answers (Some (str "un autre client a pris la main")) d in
  let prof := Profile.detect (Proto.term x) (Proto.colorterm x) (Proto.utf8 x) in
  let c := {| c with c_cols := Proto.cols x; c_rows := Proto.rows x; c_differ := Some (Differ.differ_new prof) |} in
  let d := {| d with d_screen := resize (Proto.cols x) (Proto.rows x); d_pending := None;
                     d_client := Some (push c Proto.MWelcome); d_session := cancel_drag (set_output (d_session d) prof) |} in
  dirty_frame d.

Definition pending_gone ev (closed : bool) d : daemon A :=
  if closed || has (ev_events ev) (Z.lor EPOLLHUP EPOLLERR) then drop_pending d else d.

Definition pending_event ev d c : daemon A :=
  if has (ev_events ev) EPOLLIN then
    let '(x, closed) := drain_socket (ev_reads ev) (c_dec c) in
    let '(l, x) := messages x in
    let c := with_dec c x in
    let d := with_pending d (Some c) in
    if Proto.failed x then drop_pending d
    else
      match first_hello l with
      | Some hl =>
          if negb (Proto.build_id hl =? Proto.kBuildId) then
            let '(c, l, _) := flush_client (ev_bye ev) (push c (Proto.MIncompatible refusal)) in
            drop_pending (log (with_pending d (Some c)) l)
          else promote (ev_bye ev) d c hl
      | None => pending_gone ev closed d
      end
  else pending_gone ev false d.

Definition is_key (key : Z) (o : option client) : bool := match o with Some c => key =? c_key c | None => false end.

Definition handle_event d ev : daemon A :=
  let key := ev_key ev in
  if key =? make_key 0 kGenSignal then signal_event ev d
  else if key =? make_key 0 kGenTimer then d
  else if key =? make_key 0 kGenListener then accept_event ev d
  else if existsb (Z.eqb key) (d_closed d) then d
  else
    match d_client d with
    | Some c =>
        if key =? c_key c then client_event ev d c
        else
          match d_pending d with
          | Some p => if key =? c_key p then pending_event ev d p
                      else with_session d (on_fd_event (ev_at ev 0%nat 0%nat) (d_session d) key (ev_events ev))
          | None => with_session d (on_fd_event (ev_at ev 0%nat 0%nat) (d_session d) key (ev_events ev))
          end
    | None =>
        match d_pending d with
        | Some p => if key =? c_key p then pending_event ev d p
                    else with_session d (on_fd_event (ev_at ev 0%nat 0%nat) (d_session d) key (ev_events ev))
        | None => with_session d (on_fd_event (ev_at ev 0%nat 0%nat) (d_session d) key (ev_events ev))
        end
    end.

(** ** Before the wait *)

Definition now te (a : site) : Z := steady_now (t_at te a).

(** A lone escape is the key once the delay is over. *)
Definition settle_escape te d : daemon A :=
  match d_client d with
  | Some c =>
      if InputParser.esc_pending (c_input c) then
        if negb (d_esc_armed d) then {| d with d_esc_armed := true; d_esc_deadline := now te AtEsc + kEscAmbiguity |}
        else if d_esc_deadline d <=? now te AtEsc then
          let '(p, s) := type_in (fun k => t_at te (AtEscInput k)) (InputParser.timeout (c_input c)) (d_session d) in
          let d := dirty_frame (with_session (with_client d (Some (with_input c p))) s) in
          {| d with d_esc_armed := false |}
        else d
      else {| d with d_esc_armed := false |}
  | None => {| d with d_esc_armed := false |}
  end.

Definition left_ms (deadline at_ : Z) : Z := FrameClock.to_int32 (Z.max 0 (FrameClock.ms_of_ns (deadline - at_))).

Definition attached d : bool := match d_client d with Some _ => true | None => false end.

(** The timeout as far as what is shown asks for it. *)
Definition show_timeout te d : Z :=
  let t := match d_client d with
           | Some c => if has_differ c then FrameClock.delay_ms (d_clock d) (now te AtDelay) else -1
           | None => -1
           end in
  let t := if attached d then shorten t 1000 else t in
  let t := match d_pending d with Some _ => shorten t (left_ms (d_deadline d) (now te AtPending)) | None => t end in
  let hd := help_delay_ms (t_at te AtHelp) (d_session d) in
  if 0 <=? hd then shorten t hd else t.

Definition update_timeout te d (t : Z) : daemon A * Z :=
  let u := update_delay_ms (t_at te AtUpdate) (d_session d) in
  if 0 <=? u then
    if u =? 0 then (with_session d (tick_update (t_at te AtTick) (d_session d)), t) else (d, shorten t u)
  else (d, t).

Definition refresh_timeout te d (t : Z) : daemon A * Z :=
  let r := if attached d then refresh_delay_ms (d_session d) else -1 in
  if 0 <=? r then
    let since := FrameClock.to_int32 (FrameClock.ms_of_ns (now te AtRefresh - d_last_refresh d)) in
    let left := Z.max 0 (r - since) in
    if left =? 0 then
      let d := dirty_frame (with_session d (mark_refresh_due (t_at te AtMark) (d_session d))) in
      ({| d with d_last_refresh := now te AtRefreshed |}, 0)
    else (d, shorten t left)
  else (d, t).

Definition escape_timeout te d (t : Z) : Z :=
  if d_esc_armed d then shorten t (left_ms (d_esc_deadline d) (now te AtEscLeft)) else t.

(** Up to [epoll_wait]: the state, and how long it may sleep. *)
Definition before_wait te d : daemon A * Z :=
  let d := {| d with d_closed := [] |} in
  let d := settle_escape te d in
  let t := show_timeout te d in
  let '(d, t) := update_timeout te d t in
  let '(d, t) := refresh_timeout te d t in
  (d, escape_timeout te d t).

(** ** After the events *)

Definition expire_pending te d : daemon A :=
  match d_pending d with
  | Some _ => if d_deadline d <=? now te AtExpire then drop_pending d else d
  | None => d
  end.

Definition see_dirty te d : daemon A :=
  let '(s, b) := take_dirty (t_at te AtDirty) (d_session d) in
  when b dirty_frame (with_session d s).

Definition see_detach te d : daemon A :=
  let '(s, b) := take_detach (d_session d) in
  when b (drop_client (t_detach te) (Some (str "detache, la session continue"))) (with_session d s).

(** One frame for the client [c], whose differ is [df]. *)
Definition compose te d c (df : Differ.differ) : daemon A :=
  let r := render make amb (t_at te AtRender) (d_session d) (d_screen d) in
  let '(s, again) := take_repaint (fst r) in
  let df := if again then Differ.invalidate df else df in
  let '(ansi, df) := Differ.frame df (snd r) (s_cursor s) in
  let c := {| c with c_differ := Some df |} in
  let c := if bool_decide (ansi = []) then c else push c (Proto.MFrame ansi) in
  let d := {| d with d_session := s; d_screen := snd r; d_clock := FrameClock.note_render (d_clock d) (now te AtCompose) |} in
  let '(o, q) := OutQueue.take_overflow (c_out c) in
  let c := with_out c q in
  let d := log d [Verdict (c_key c) o] in
  match o with
  | OutQueue.ODirty => drop_client [] None (with_client d (Some c))
  | _ =>
      let clean := match o with OutQueue.OClean => true | _ => false end in
      let c := if clean then invalidate_differ c else c in
      let d := when clean dirty_frame d in
      let '(c, l, ok) := flush_client (t_flush te) c in
      let d := log (with_client d (Some c)) l in
      if negb ok then drop_client [] None d
      else when (OutQueue.wants_write (c_out c)) (fun d => log d [EpMod (c_key c) (Z.lor EPOLLIN EPOLLOUT)]) d
  end.

Definition present_frame te d : daemon A :=
  match d_client d with
  | Some c =>
      match c_differ c with
      | Some df => if FrameClock.delay_ms (d_clock d) (now te AtCompose) =? 0 then compose te d c df else d
      | None => d
      end
  | None => d
  end.

Definition see_restart te d : daemon A :=
  if wants_update_restart (d_session d) then
    let d := log {| d with d_listening := false |} [CloseListener] in
    let d := drop_client (t_restart te) (Some kDetachReasonUpdate) d in
    {| d with d_reason := str "arret pour terminer une mise a jour"; d_running := false |}
  else d.

Definition see_quit d : daemon A :=
  if quit (d_session d) then {| d with d_reason := str "arret demande (quitter la session)"; d_running := false |} else d.

Definition set_timer te d : daemon A :=
  log d [TimerSet (Z.max 0 (FrameClock.delay_ms (d_clock d) (now te AtNext)))].

Definition after_events te d : daemon A :=
  set_timer te (see_quit (see_restart te (present_frame te (see_detach te (see_dirty te (expire_pending te d)))))).

(** One turn of [while (running)]; whether the loop goes on. *)
Definition turn te d : daemon A * bool :=
  let '(d, _) := before_wait te d in
  match t_wait te with
  | WaitIntr => (d, true)
  | WaitError => (d, false)
  | WaitEvents l => let d := after_events te (fold_left handle_event l d) in (d, d_running d)
  end.

(** The loop over the turns the system gives it, then the farewell. *)
Fixpoint run_turns (tes : list turn_env) d : daemon A * bool :=
  match tes with
  | [] => (d, true)
  | te :: tes => match turn te d with (d, true) => run_turns tes d | (d, false) => (d, false) end
  end.

Definition farewell (answers : list OutQueue.sent) d : daemon A := drop_client answers (Some (str "le demon s'arrete")) d.

Definition daemon_new (e : env) (st : settings) (dsk : disk) (start : Z) : daemon A :=
  Daemon (session_new e st dsk) (resize 80 24) (FrameClock.frameclock_new kFrameIntervalMs) None None 0 kGenFirstDynamic []
    false 0 start true true (str "arret (raison inconnue)")
    [EpAdd (make_key 0 kGenListener) EPOLLIN; EpAdd (make_key 0 kGenSignal) EPOLLIN; EpAdd (make_key 0 kGenTimer) EPOLLIN].

End Daemon.
