(* ===== verification/DaemonLife.v ===== *)
(** * The life of the daemon, and what its client sees

    The daemon drives the session by its entry points only.  For the client attached,
    what is on its wire and what still waits in its queue are the messages pushed, in
    order: a welcome, then frames; read back by any decoder and shown on any page, they
    are the desktop as the session last drew it. *)

From S2P Require Import Prelude RowPairs Input Cell Surface Desktop Theme Window Config Host Session SessionRender.
From S2P Require Import SessionDemo SessionSteps SessionProps SessionHistory SessionFrame Daemon.
From S2P Require Proto OutQueue FrameClock InputParser Differ Profile UpdateService Frames Emulator Screen VtParser.

Tactic Notation "fields" :=
  cbn [log with_session with_client with_pending with_clock dirty_frame d_session d_screen d_clock d_client d_pending d_deadline
    d_next_gen d_closed d_esc_armed d_esc_deadline d_last_refresh d_running d_listening d_reason d_log].
Tactic Notation "fields" "in" "*" :=
  cbn [log with_session with_client with_pending with_clock dirty_frame d_session d_screen d_clock d_client d_pending d_deadline
    d_next_gen d_closed d_esc_armed d_esc_deadline d_last_refresh d_running d_listening d_reason d_log] in *.

(** ** The ghosts of a connection *)

Definition wire (k : Z) (l : list effect) : bytes :=
  concat ((fun e => match e with Wire k' bs => if k' =? k then bs else [] | _ => [] end) <$> l).

(** No composition found the queue of the connection overflown. *)
Definition untroubled (k : Z) (l : list effect) : Prop :=
  Forall (fun e => match e with Verdict k' o => k' = k -> o = OutQueue.ONone | _ => True end) l.

(** A frame as it was sent: the size of the terminal, the bytes. *)
Record sent_frame := SentFrame { f_w : Z; f_h : Z; f_ansi : bytes }.

Definition frame_msgs (fs : list sent_frame) : list Proto.msg :=
  concat ((fun f => match f_ansi f with [] => [] | a => [Proto.MFrame a] end) <$> fs).

Definition stream (fs : list sent_frame) : bytes := concat (Proto.encode <$> (Proto.MWelcome :: frame_msgs fs)).

(** The page of a client that has read them all. *)
Definition page (capacity : nat) (fs : list sent_frame) : VtParser.parser * Emulator.emu :=
  fold_left (fun pt f =>
    Emulator.emu_feed amb (pt.1, Emulator.on_screen pt.2 (fun s => Screen.resize s (f_w f) (f_h f))) (f_ansi f))
    fs (VtParser.parser_init, Emulator.emu_new capacity).

Lemma wire_app k l1 l2 : wire k (l1 ++ l2) = wire k l1 ++ wire k l2.
Proof. unfold wire. by rewrite fmap_app, concat_app. Qed.

Lemma untroubled_app k l1 l2 : untroubled k (l1 ++ l2) <-> untroubled k l1 /\ untroubled k l2.
Proof. apply Forall_app. Qed.

Lemma stream_snoc fs f : stream (fs ++ [f]) = stream fs ++ match f_ansi f with [] => [] | a => Proto.encode (Proto.MFrame a) end.
Proof.
  assert (frame_msgs (fs ++ [f]) = frame_msgs fs ++ match f_ansi f with [] => [] | a => [Proto.MFrame a] end) as E.
  { unfold frame_msgs. rewrite fmap_app, concat_app. cbn [fmap list_fmap concat]. by rewrite app_nil_r. }
  unfold stream. rewrite E, app_comm_cons, fmap_app, concat_app. f_equal. destruct (f_ansi f); [done|].
  cbn [fmap list_fmap concat]. by rewrite app_nil_r.
Qed.

Lemma page_snoc capacity fs f :
  page capacity (fs ++ [f]) =
  Emulator.emu_feed amb ((page capacity fs).1, Emulator.on_screen (page capacity fs).2 (fun s => Screen.resize s (f_w f) (f_h f))) (f_ansi f).
Proof. unfold page. by rewrite fold_left_app. Qed.

(** ** The socket keeps the stream *)

Lemma kernel_ok answers left : OutQueue.answers_ok (kernel answers left) left.
Proof.
  revert left. induction answers as [|a l IH]; intros left; [done|]. cbn [kernel]. destruct a as [n| | | |]; try done.
  - destruct (_ && _) eqn:E; [|done]. zbool. split; [lia|apply IH].
  - apply IH.
Qed.

Lemma kernel_answers answers q :
  (OutQueue.q_off q <= length (OutQueue.q_buf q))%nat ->
  is_Some (OutQueue.flush (kernel answers (zlen (OutQueue.pending q))) q).
Proof.
  assert (forall l q, (OutQueue.q_off q <= length (OutQueue.q_buf q))%nat -> forall left, left = zlen (OutQueue.pending q) ->
    is_Some (OutQueue.flush (kernel l left) q)) as H; [|intros Hq; by apply H].
  clear. intros l. induction l as [|a l IH]; intros q Hq left ->; cbn [kernel].
  { cbn [OutQueue.flush]. by destruct (_ <? _)%nat. }
  destruct a as [n| | | |]; cbn [OutQueue.flush]; try (by destruct (_ <? _)%nat).
  - destruct (_ && _) eqn:E; cbn [OutQueue.flush]; [|by destruct (_ <? _)%nat].
    destruct (_ <? _)%nat eqn:Eq; [|done]. zbool. set (q1 := OutQueue.OutQueue _ _ _ _).
    unfold OutQueue.pending, zlen in *. rewrite length_drop in *.
    destruct (IH q1) with (left := Z.of_nat (length (OutQueue.q_buf q) - OutQueue.q_off q) - n) as [[[q2 o] ok] ->];
      [subst q1; cbn; lia|subst q1; unfold OutQueue.pending, zlen; rewrite length_drop; cbn; lia|done].
  - destruct (_ <? _)%nat; [|done]. by apply IH.
Qed.

Lemma send_spec answers q : OutQueue.queue_ok q ->
  let '(q', out, ok) := send answers q in
  OutQueue.pending q = out ++ OutQueue.pending q' /\ OutQueue.queue_ok q' /\
  OutQueue.q_ceiling q' = OutQueue.q_ceiling q /\ OutQueue.q_overflow q' = OutQueue.q_overflow q.
Proof.
  intros [Ho Hs]. unfold send. destruct (kernel_answers answers q Ho) as [[[q' out] ok] E]. rewrite E. cbn [default].
  destruct (OutQueue.flush_spec _ _ _ _ _ Ho (kernel_ok _ _) E) as (Hp & Hc & Hv & Ho' & _).
  pose proof (OutQueue.size_pending _ Ho) as S1. pose proof (OutQueue.size_pending _ Ho') as S2.
  rewrite Hp, zlen_app in S1. pose proof (zlen_nonneg out). pose proof (zlen_nonneg (OutQueue.pending q')).
  split; [done|]. split; [split; [done|lia]|done].
Qed.

Section Life.
Context {A : Type} `{Application A} (make : bytes -> A) (grow : Z -> Z -> Z) (shrink : Z -> Z) (capacity : nat).
Hypothesis small : forall a : A, Cell.w (frame_min a) <= 26 /\ Cell.h (frame_min a) <= 8.
Implicit Types (d : daemon A) (c : client) (s : session A) (ev : event) (te : turn_env).

(** ** The invariant *)

(** The differ of the client speaks its profile; unless its queue has overflown, what
    was sent and what waits is a welcome and frames, the page they make is the one the
    differ believes in, and it shows the last frame unless another one is due. *)
Record conn_ok s (sf : surface) (k : FrameClock.frameclock) (l : list effect) c : Prop := ConnOk {
  co_queue : OutQueue.queue_ok (c_out c);
  co_ceiling : OutQueue.q_ceiling (c_out c) = kBackpressureCeiling;
  co_overflow : OutQueue.q_overflow (c_out c) = OutQueue.ONone;
  co_differ : exists df, c_differ c = Some df /\ Differ.d_profile df = out s /\
    (untroubled (c_key c) l -> exists fs,
       wire (c_key c) l ++ OutQueue.pending (c_out c) = stream fs /\ Forall Proto.msg_wf (frame_msgs fs) /\
       Frames.in_sync df (page capacity fs) /\
       (FrameClock.dirty k = false -> Frames.presents (out s) sf (s_cursor s) (page capacity fs).2));
}.

Definition fresh_client c : Prop := c_out c = OutQueue.outqueue_new kBackpressureCeiling.

(** Keys are drawn once: nothing was ever sent under the next one. *)
Record keys_ok d : Prop := KeysOk {
  ko_gen : 0 <= d_next_gen d;
  ko_log : Forall (fun e => match e with Wire k _ => k < d_next_gen d | _ => True end) (d_log d);
  ko_client : forall c, d_client d = Some c -> c_key c < d_next_gen d;
  ko_pending : forall p, d_pending d = Some p ->
    c_key p < d_next_gen d /\ wire (c_key p) (d_log d) = [] /\ fresh_client p;
  ko_apart : forall c p, d_client d = Some c -> d_pending d = Some p -> c_key c <> c_key p;
}.

Record daemon_ok d : Prop := DaemonOk {
  do_look : look_ok (d_session d);
  do_fit : fit amb (d_screen d);
  do_pairs : surface_pairs (d_screen d);
  do_keys : keys_ok d;
  do_client : forall c, d_client d = Some c -> conn_ok (d_session d) (d_screen d) (d_clock d) (d_log d) c;
}.

(** ** What keeps it *)

Lemma conn_move s s' sf k k' l c : look s' = look s -> (FrameClock.dirty k' = false -> FrameClock.dirty k = false) ->
  conn_ok s sf k l c -> conn_ok s' sf k' l c.
Proof.
  intros [= E1 _ E2] Hk [H1 H2 H3 (df & H4 & H5 & H6)]. constructor; try done. exists df. rewrite E1, E2. split; [done|]. split; [done|].
  intros Hu. destruct (H6 Hu) as (fs & F1 & F2 & F3 & F4). exists fs. split_and!; auto.
Qed.

Lemma conn_client s sf k l c c' : c_key c' = c_key c -> c_out c' = c_out c -> c_differ c' = c_differ c ->
  conn_ok s sf k l c -> conn_ok s sf k l c'.
Proof. intros E1 E2 E3 [H1 H2 H3 H4]. constructor; by rewrite ?E1, ?E2, ?E3. Qed.

(** Effects that send nothing on the connection. *)
Definition silent_for (k : Z) (e : effect) : Prop :=
  match e with Wire k' _ => k' <> k | _ => True end.

Lemma silent_wire k l : Forall (silent_for k) l -> wire k l = [].
Proof.
  unfold wire. induction 1 as [|e l He _ IH]; [done|]. cbn [fmap list_fmap concat]. rewrite IH, app_nil_r.
  destruct e as [| | |k' bs| | |]; try done. cbn in He. by destruct (Z.eqb_spec k' k).
Qed.

Lemma conn_log s sf k l l' c : wire (c_key c) l' = [] -> conn_ok s sf k l c -> conn_ok s sf k (l ++ l') c.
Proof.
  intros Hs [H1 H2 H3 (df & H4 & H5 & H6)]. constructor; try done. exists df. split; [done|]. split; [done|].
  rewrite untroubled_app, wire_app, Hs, app_nil_r. intros [Hu _]. by apply H6.
Qed.

Lemma conn_flush answers s sf k l c :
  conn_ok s sf k l c -> let '(c', l', ok) := flush_client answers c in
  c_key c' = c_key c /\ conn_ok s sf k (l ++ l') c' /\ l' = [Wire (c_key c) (concat (omap (fun e => match e with Wire _ bs => Some bs | _ => None end) l'))].
Proof.
  intros [H1 H2 H3 (df & H4 & H5 & H6)]. unfold flush_client. pose proof (send_spec answers (c_out c) H1) as Hs.
  destruct (send answers (c_out c)) as [[q out] ok]. destruct Hs as (S1 & S2 & S3 & S4). split; [done|].
  split; [|cbn; by rewrite app_nil_r]. constructor; cbn [with_out c_out c_key c_differ]; [done|congruence|congruence|].
  exists df. split; [done|]. split; [done|]. rewrite untroubled_app. intros [Hu _]. destruct (H6 Hu) as (fs & F1 & F2).
  exists fs. split; [|done]. rewrite wire_app, <- F1, S1. unfold wire at 2. cbn. rewrite Z.eqb_refl. by rewrite app_nil_r, app_assoc.
Qed.

Lemma keys_log d l : Forall (fun e => match e with Wire k _ => k < d_next_gen d | _ => True end) l ->
  (forall p, d_pending d = Some p -> wire (c_key p) l = []) -> keys_ok d -> keys_ok (log d l).
Proof.
  intros Hl Hp [K1 K2 K3 K4 K5]. constructor; fields; try done.
  - by apply Forall_app.
  - intros p Ep. destruct (K4 p Ep) as (P1 & P2 & P3). rewrite wire_app, P2. split; [done|]. by rewrite Hp.
Qed.

Lemma look_messages (at_ : nat -> env) fuel k p s : look (snd (feed_session make fuel at_ k p s)) = look s.
Proof.
  revert k p s. induction fuel as [|fuel IH]; intros k p s; [done|]. cbn [feed_session].
  destruct (InputParser.next p) as [[e|] p']; [|done]. by rewrite IH, look_input.
Qed.

Lemma daemon_move d s k : look s = look (d_session d) ->
  (FrameClock.dirty k = false -> FrameClock.dirty (d_clock d) = false) ->
  daemon_ok d -> daemon_ok (with_clock (with_session d s) k).
Proof.
  intros Hs Hk [D1 D2 D3 D4 D5]. constructor; fields; try done.
  - eapply look_kept; [|exact D1]. by injection Hs as E1 E2 _; unfold palette; rewrite E1, E2.
  - by destruct D4.
  - intros c Hc. eapply conn_move; [exact Hs|exact Hk|by apply D5].
Qed.

Lemma daemon_session d s : look s = look (d_session d) -> daemon_ok d -> daemon_ok (with_session d s).
Proof. intros Hs Hd. apply (daemon_move d s (d_clock d)) in Hd; [|done|done]. by destruct d. Qed.

Lemma daemon_dirty d : daemon_ok d -> daemon_ok (dirty_frame d).
Proof. intros Hd. apply (daemon_move d (d_session d) (FrameClock.mark_dirty (d_clock d))) in Hd; [by destruct d|done|done]. Qed.

Lemma drop_client_ok answers r d : daemon_ok d -> daemon_ok (drop_client answers r d).
Proof.
  intros Hd. unfold drop_client. destruct (d_client d) as [c|] eqn:Ec; [|done]. destruct Hd as [D1 D2 D3 D4 D5]. constructor; fields; try done.
  - apply (look_kept (d_session d)); [exact (f_equal fst (look_cancel _))|exact D1].
  - set (bye := match r with Some _ => _ | None => _ end).
    assert (forall k, k <> c_key c -> wire k (bye ++ [EpDel (c_key c)]) = []) as Hw.
    { intros k Hk. rewrite wire_app. subst bye. destruct r as [r|]; [|done]. unfold flush_client.
      destruct (send _ _) as [[q o] ok]. unfold wire. cbn. by destruct (Z.eqb_spec (c_key c) k). }
    assert (Forall (fun e => match e with Wire k _ => k < d_next_gen d | _ => True end) (bye ++ [EpDel (c_key c)])) as Hl.
    { apply Forall_app. split; [|by repeat constructor]. subst bye. destruct r as [r|]; [|done]. unfold flush_client.
      destruct (send _ _) as [[q o] ok]. cbn. constructor; [|done]. by apply (ko_client _ D4). }
    assert (keys_ok (log d (bye ++ [EpDel (c_key c)]))) as [K1 K2 K3 K4 K5].
    { apply keys_log; [exact Hl| |exact D4]. intros p Hp. apply Hw. intros E. by apply (ko_apart _ D4 c p). }
    constructor; fields in *; try done.
Qed.

Lemma drop_pending_ok d : daemon_ok d -> daemon_ok (drop_pending d).
Proof.
  intros Hd. unfold drop_pending. destruct (d_pending d) as [p|] eqn:Ep; [|done]. destruct Hd as [D1 D2 D3 D4 D5]. constructor; fields; try done.
  - assert (keys_ok (log d [EpDel (c_key p)])) as [K1 K2 K3 K4 K5] by (apply keys_log; [by repeat constructor|done|done]).
    constructor; fields in *; try done.
  - intros c Hc. apply conn_log; [done|]. by apply D5.
Qed.

Lemma daemon_same d d' :
  d_session d' = d_session d -> d_screen d' = d_screen d -> d_clock d' = d_clock d -> d_client d' = d_client d ->
  d_pending d' = d_pending d -> d_next_gen d' = d_next_gen d -> d_log d' = d_log d -> daemon_ok d -> daemon_ok d'.
Proof.
  intros E1 E2 E3 E4 E5 E6 E7 [D1 D2 D3 [K1 K2 K3 K4 K5] D5].
  constructor; [..|constructor|]; rewrite ?E1, ?E2, ?E3, ?E4, ?E5, ?E6, ?E7; done.
Qed.

Lemma daemon_log d l : Forall (fun e => match e with Wire _ _ => False | _ => True end) l -> daemon_ok d -> daemon_ok (log d l).
Proof.
  intros Hl [D1 D2 D3 D4 D5]. assert (forall k, wire k l = []) as Hw.
  { intros k. unfold wire. induction Hl as [|e l He _ IH]; [done|]. cbn [fmap list_fmap concat]. rewrite IH. by destruct e. }
  constructor; fields; try done.
  - apply keys_log; [|by intros|done]. eapply List.Forall_impl; [|exact Hl]. by intros [].
  - intros c Hc. apply conn_log; [done|by apply D5].
Qed.

(** The client, its queue and its differ untouched. *)
Lemma daemon_client d c c' : d_client d = Some c -> c_key c' = c_key c -> c_out c' = c_out c -> c_differ c' = c_differ c ->
  daemon_ok d -> daemon_ok (with_client d (Some c')).
Proof.
  intros Ec E1 E2 E3 [D1 D2 D3 [K1 K2 K3 K4 K5] D5]. constructor; [..|constructor|]; fields; try done.
  - intros x [= <-]. rewrite E1. by apply K3.
  - intros x p [= <-]. rewrite E1. by apply K5.
  - intros x [= <-]. eapply conn_client; [done..|]. by apply D5.
Qed.

Lemma daemon_pending d p p' : d_pending d = Some p -> c_key p' = c_key p -> c_out p' = c_out p ->
  daemon_ok d -> daemon_ok (with_pending d (Some p')).
Proof.
  intros Ep E1 E2 [D1 D2 D3 [K1 K2 K3 K4 K5] D5]. constructor; [..|constructor|]; fields; try done.
  - intros x [= <-]. unfold fresh_client. rewrite E1, E2. by apply K4.
  - intros c x Hc [= <-]. rewrite E1. by apply K5.
Qed.

Lemma with_client_same d c : d_client d = Some c -> with_client d (Some c) = d.
Proof. destruct d. cbn. by intros ->. Qed.

(** What a flush sends is the stream's next bytes. *)
Lemma daemon_flush answers d c : d_client d = Some c -> daemon_ok d ->
  let '(c', l, _) := flush_client answers c in
  daemon_ok (log (with_client d (Some c')) l) /\ c_key c' = c_key c /\ d_client (log (with_client d (Some c')) l) = Some c'.
Proof.
  intros Ec [D1 D2 D3 [K1 K2 K3 K4 K5] D5]. pose proof (conn_flush answers _ _ _ _ _ (D5 c Ec)) as Hf.
  destruct (flush_client answers c) as [[c' l] ok]. destruct Hf as (F1 & F2 & F3). split; [|done].
  constructor; fields; try done.
  - constructor; fields; try done.
    + apply Forall_app. split; [done|]. rewrite F3. constructor; [|done]. by apply K3.
    + intros x [= <-]. rewrite F1. by apply K3.
    + intros p Hp. destruct (K4 p Hp) as (P1 & P2 & P3). rewrite wire_app, P2. split; [done|]. split; [|done]. cbn [app].
      apply silent_wire. rewrite F3. constructor; [|done]. cbn. by apply (K5 c p).
    + intros x p [= <-]. rewrite F1. by apply K5.
  - by intros x [= <-].
Qed.

(** ** Events *)

Lemma look_reap at_ n dead s : look (fst (reap_children at_ n dead s)) = look s.
Proof.
  revert n s. induction dead as [|[pid st] dead IH]; intros n s; [done|]. cbn [reap_children].
  destruct (_ <=? _); [done|]. by rewrite IH, look_child.
Qed.

Lemma signal_ok ev d : daemon_ok d -> daemon_ok (signal_event ev d).
Proof.
  intros Hd. unfold signal_event. assert (daemon_ok (fold_left read_signal (ev_signals ev) d)) as Hs.
  { revert d Hd. induction (ev_signals ev) as [|n l IH]; intros d Hd; [done|]. cbn [fold_left]. apply IH. unfold read_signal.
    by destruct (_ =? SIGTERM); [|destruct (_ =? SIGINT)]; try (eapply daemon_same; [..|exact Hd]). }
  destruct (existsb _ _); [|done]. apply daemon_session; [apply look_reap|done].
Qed.

Lemma make_key_0 g : make_key 0 g = g.
Proof. unfold make_key. by rewrite Z.shiftl_0_l. Qed.

Lemma accept_ok ev d : d_next_gen d + 1 < 2 ^ 32 -> daemon_ok d -> daemon_ok (accept_event ev d).
Proof.
  intros Hg Hd. unfold accept_event. destruct (ev_accept ev); try done. assert (d_next_gen (drop_pending d) = d_next_gen d) as Eg.
  { unfold drop_pending. by destruct (d_pending d). }
  apply drop_pending_ok in Hd. set (d1 := drop_pending d) in *. cbv zeta.
  apply (daemon_log _ [EpAdd (make_key 0 (d_next_gen d1)) EPOLLIN]) in Hd; [|by repeat constructor].
  destruct Hd as [D1 D2 D3 [K1 K2 K3 K4 K5] D5]. fields in *.
  assert (to_u32 (d_next_gen d1 + 1) = d_next_gen d1 + 1) as Eu by (unfold to_u32; apply Z.mod_small; lia).
  constructor; [..|constructor|]; fields; rewrite ?Eu; try done.
  - lia.
  - eapply List.Forall_impl; [|exact K2]. intros []; cbn; try done; lia.
  - intros c Hc. specialize (K3 c Hc). lia.
  - intros p [= <-]. cbn [client_new c_key]. rewrite make_key_0. split; [lia|]. split; [|done].
    apply silent_wire. eapply List.Forall_impl; [|exact K2]. intros []; cbn; try done; lia.
  - intros c p Hc [= <-]. cbn [client_new c_key]. rewrite make_key_0. specialize (K3 c Hc). lia.
Qed.

(** A message of the client changes neither its link nor its differ's profile; a resize
    asks for a whole frame. *)
Definition one_client d c : Prop := exists c', d_client d = Some c' /\ c_key c' = c_key c.

Lemma daemon_invalidate d c c' w h : d_client d = Some c -> c_key c' = c_key c -> c_out c' = c_out c ->
  c_differ c' = Differ.invalidate <$> c_differ c ->
  daemon_ok d -> daemon_ok (dirty_frame (with_client {| d with d_screen := resize w h |} (Some c'))).
Proof.
  intros Ec E1 E2 E3 [D1 D2 D3 [K1 K2 K3 K4 K5] D5]. constructor; [..|constructor|]; fields; try done.
  - apply fit_new.
  - apply surface_new_pairs.
  - intros x [= <-]. rewrite E1. by apply K3.
  - intros x p [= <-]. rewrite E1. by apply K5.
  - intros x [= <-]. destruct (D5 c Ec) as [H1 H2 H3 (df & H4 & H5 & H6)]. constructor; rewrite ?E1, ?E2; try done.
    exists (Differ.invalidate df). rewrite E3, H4. split; [done|]. split; [done|]. intros Hu.
    destruct (H6 Hu) as (fs & F1 & F2 & F3 & F4). exists fs. split_and!; try done. by apply in_sync_invalidate.
Qed.

Lemma client_message_ok at_ d m c : d_client d = Some c -> daemon_ok d ->
  daemon_ok (client_message make at_ d m) /\ one_client (client_message make at_ d m) c /\
  d_next_gen (client_message make at_ d m) = d_next_gen d.
Proof.
  intros Ec Hd. unfold client_message. rewrite Ec. assert (one_client d c) as Hone by by exists c.
  destruct m as [hl| |r|r|bs|w h|a]; try done.
  - unfold type_in. set (p0 := InputParser.feed _ _). pose proof (look_messages at_ (S (length (InputParser.ready p0))) 0 p0 (d_session d)) as Hl.
    destruct (feed_session _ _ _ _ _ _) as [p s]. cbn [snd] in Hl. split; [|split; [by exists (with_input c p)|done]].
    apply daemon_dirty, daemon_session; [done|]. by eapply daemon_client.
  - split; [by eapply daemon_invalidate|]. split; [by eexists|done].
Qed.

Lemma client_messages_ok at_ l d c : d_client d = Some c -> daemon_ok d ->
  daemon_ok (client_messages make at_ d l) /\ one_client (client_messages make at_ d l) c /\
  d_next_gen (client_messages make at_ d l) = d_next_gen d.
Proof.
  intros Ec Hd. unfold client_messages. generalize (imap (fun i m => (i, m)) l). intros ps.
  assert (one_client d c) as Hone by by exists c. clear Ec. revert d Hd Hone.
  induction ps as [|p ps IH]; intros d Hd Hone; [done|]. cbn [fold_left]. destruct Hone as (c' & Ec & Ek).
  destruct (client_message_ok (at_ (fst p)) d (snd p) c' Ec Hd) as (H1 & (c2 & Ec2 & Ek2) & H3).
  rewrite <- H3. apply IH; [done|]. exists c2. split; [done|congruence].
Qed.

Lemma drop_client_gen answers r d : d_next_gen (drop_client answers r d) = d_next_gen d.
Proof. unfold drop_client. by destruct (d_client d). Qed.

Lemma drop_pending_gen d : d_next_gen (drop_pending d) = d_next_gen d.
Proof. unfold drop_pending. by destruct (d_pending d). Qed.

(** A handler that draws no key. *)
Definition keeps d d' : Prop := daemon_ok d -> daemon_ok d' /\ d_next_gen d' = d_next_gen d.

Lemma keeps_trans d1 d2 d3 : keeps d1 d2 -> keeps d2 d3 -> keeps d1 d3.
Proof. intros H1 H2 Hd. destruct (H1 Hd) as [Hd2 <-]. by apply H2. Qed.

Lemma keeps_drop answers r d : keeps d (drop_client answers r d).
Proof. intros Hd. split; [by apply drop_client_ok|apply drop_client_gen]. Qed.

Lemma keeps_drop_pending d : keeps d (drop_pending d).
Proof. intros Hd. split; [by apply drop_pending_ok|apply drop_pending_gen]. Qed.

Lemma client_read_ok ev d c : d_client d = Some c -> keeps d (client_read make grow shrink ev d c).
Proof.
  intros Ec Hd. unfold client_read. destruct (has _ EPOLLIN).
  - destruct (drain_socket _ _ _ _) as [x closed]. destruct (messages shrink x) as [l y].
    assert (daemon_ok (with_client d (Some (with_dec c y)))) as Hd1 by by eapply daemon_client.
    destruct (client_messages_ok (ev_at ev) l (with_client d (Some (with_dec c y))) (with_dec c y) eq_refl Hd1) as (H1 & _ & H3).
    cbv zeta. set (d1 := client_messages _ _ _ _) in *. change (d_next_gen d) with (d_next_gen (with_client d (Some (with_dec c y)))). rewrite <- H3.
    destruct (Proto.failed y); [by apply keeps_drop|]. destruct (_ || _); [by apply keeps_drop|done].
  - destruct (_ || _); [by apply keeps_drop|done].
Qed.

Lemma client_event_ok ev d c : d_client d = Some c -> keeps d (client_event make grow shrink ev d c).
Proof.
  intros Ec Hd. unfold client_event. destruct (has _ EPOLLOUT); [|by apply client_read_ok].
  pose proof (daemon_flush (ev_sends ev) d c Ec Hd) as Hf. destruct (flush_client _ _) as [[c' l] ok].
  destruct Hf as (F1 & F2 & F3). cbv zeta. set (d1 := log _ l) in *. assert (d_next_gen d1 = d_next_gen d) as <- by done.
  destruct ok; cbn [negb]; [|by apply keeps_drop]. destruct (OutQueue.wants_write _); [by apply client_read_ok|].
  change (d_next_gen d1) with (d_next_gen (log d1 [EpMod (c_key c') EPOLLIN])). apply client_read_ok; [done|].
  apply daemon_log; [by repeat constructor|done].
Qed.

Lemma promote_ok answers d c hl : d_pending d = Some c -> keeps d (promote answers d c hl).
Proof.
  intros Ep Hd. unfold promote. destruct (keeps_drop answers (Some (str "un autre client a pris la main")) d Hd) as [Hd1 Hg].
  assert (d_pending (drop_client answers (Some (str "un autre client a pris la main")) d) = Some c) as Ep1.
  { unfold drop_client. by destruct (d_client d). }
  cbv zeta. set (d1 := drop_client _ _ _) in *. set (prof := Profile.detect _ _ _). split; [|done].
  destruct Hd1 as [D1 D2 D3 [K1 K2 K3 K4 K5] D5]. destruct (K4 c Ep1) as (P1 & P2 & P3).
  constructor; [..|constructor|]; fields; try done.
  - apply (look_kept (set_output (d_session d1) prof)); [exact (f_equal fst (look_cancel _))|done].
  - apply fit_new.
  - apply surface_new_pairs.
  - by intros x [= <-].
  - intros x [= <-]. unfold push. cbn [with_out c_out c_key c_differ]. rewrite P3.
    destruct (OutQueue.push_spec (OutQueue.outqueue_new kBackpressureCeiling) (Proto.encode Proto.MWelcome)) as (Q1 & Q2 & Q3).
    { by split. }
    change (OutQueue.rejects _ _) with false in Q3. destruct Q3 as (Q3 & _ & Q4).
    constructor; cbn [c_out c_key c_differ]; try done.
    exists (Differ.differ_new prof). split; [done|]. pose proof (look_cancel (set_output (d_session d1) prof)) as Hl.
    split; [exact (eq_sym (f_equal (fun x => fst (fst x)) Hl))|]. intros _. exists []. cbn [with_out c_key c_out]. rewrite P2, Q3. split; [done|]. split; [constructor|].
    split; [apply Frames.start_in_sync|done].
Qed.

Lemma pending_gone_ok ev b d : keeps d (pending_gone ev b d).
Proof. intros Hd. unfold pending_gone. destruct (_ || _); [by apply keeps_drop_pending|done]. Qed.

Lemma refuse_ok answers d p q : d_pending d = Some p -> c_key q = c_key p ->
  let '(c, l, _) := flush_client answers q in keeps d (drop_pending (log (with_pending d (Some c)) l)).
Proof.
  intros Ep Eq. unfold flush_client. destruct (send _ _) as [[q' o] ok]. intros [D1 D2 D3 [K1 K2 K3 K4 K5] D5].
  split; [|done]. destruct (K4 p Ep) as (P1 & P2 & P3).
  constructor; [..|constructor|]; cbn [drop_pending]; fields; try done.
  - apply Forall_app. split; [|by repeat constructor]. apply Forall_app. split; [done|]. constructor; [|done]. by rewrite Eq.
  - intros c Hc. apply conn_log; [done|]. apply conn_log; [|by apply D5]. apply silent_wire. repeat constructor. cbn.
    rewrite Eq. intros E. by apply (K5 c p).
Qed.

Lemma pending_event_ok ev d p : d_pending d = Some p -> keeps d (pending_event grow shrink ev d p).
Proof.
  intros Ep Hd. unfold pending_event. destruct (has _ EPOLLIN); [|by apply pending_gone_ok].
  destruct (drain_socket _ _ _ _) as [x closed]. destruct (messages shrink x) as [l y]. cbv zeta.
  assert (daemon_ok (with_pending d (Some (with_dec p y)))) as Hd1 by by eapply daemon_pending.
  set (d1 := with_pending d (Some (with_dec p y))) in *. change (d_next_gen d) with (d_next_gen d1).
  destruct (Proto.failed y); [by apply keeps_drop_pending|]. destruct (first_hello l) as [hl|]; [|by apply pending_gone_ok].
  destruct (negb _); [|by apply promote_ok].
  pose proof (refuse_ok (ev_bye ev) d1 (with_dec p y) (push (with_dec p y) (Proto.MIncompatible refusal)) eq_refl eq_refl) as Hr.
  destruct (flush_client _ _) as [[c l'] ok]. by apply Hr.
Qed.

Lemma handle_event_ok ev d : d_next_gen d + 1 < 2 ^ 32 -> daemon_ok d ->
  daemon_ok (handle_event make grow shrink d ev) /\ d_next_gen (handle_event make grow shrink d ev) <= d_next_gen d + 1.
Proof.
  intros Hg Hd. unfold handle_event. cbv zeta. destruct (_ =? make_key 0 kGenSignal).
  { split; [by apply signal_ok|]. unfold signal_event. set (d1 := fold_left _ _ _).
    assert (d_next_gen d1 = d_next_gen d) as E.
    { subst d1. generalize d. induction (ev_signals ev) as [|n l IH]; intros d0; [done|]. cbn [fold_left]. rewrite IH.
      unfold read_signal. by destruct (_ =? _); [|destruct (_ =? _)]. }
    destruct (existsb _ _); fields; lia. }
  destruct (_ =? make_key 0 kGenTimer); [split; [done|lia]|]. destruct (_ =? make_key 0 kGenListener).
  { split; [by apply accept_ok|]. unfold accept_event. destruct (ev_accept ev); try lia. fields. rewrite drop_pending_gen.
    unfold to_u32. rewrite Z.mod_small; [lia|]. pose proof (ko_gen _ (do_keys _ Hd)). lia. }
  destruct (existsb _ _); [split; [done|lia]|].
  assert (forall d', keeps d d' -> daemon_ok d' /\ d_next_gen d' <= d_next_gen d + 1) as Hk.
  { intros d' Hd'. destruct (Hd' Hd) as [? ->]. split; [done|lia]. }
  apply Hk. assert (keeps d (with_session d (on_fd_event (ev_at ev 0%nat 0%nat) (d_session d) (ev_key ev) (ev_events ev)))) as Ha.
  { intros _. split; [|done]. apply daemon_session; [apply look_fd|done]. }
  destruct (d_client d) as [c|] eqn:Ec; [destruct (_ =? c_key c); [by apply client_event_ok|]|];
    (destruct (d_pending d) as [p|] eqn:Ep; [|done]); (destruct (_ =? c_key p); [by apply pending_event_ok|done]).
Qed.

Lemma handle_events_ok l d : d_next_gen d + zlen l < 2 ^ 32 -> daemon_ok d ->
  daemon_ok (fold_left (handle_event make grow shrink) l d) /\
  d_next_gen (fold_left (handle_event make grow shrink) l d) <= d_next_gen d + zlen l.
Proof.
  revert d. induction l as [|ev l IH]; intros d Hg Hd; cbn [fold_left]; [split; [done|unfold zlen; cbn; lia]|].
  unfold zlen in *. cbn [length] in *. destruct (handle_event_ok ev d ltac:(lia) Hd) as [H1 H2].
  set (d1 := handle_event _ _ _ d ev) in *. destruct (IH d1 ltac:(lia) H1). split; [done|lia].
Qed.

(** ** Around the wait *)

Lemma settle_escape_ok te d : keeps d (settle_escape make te d).
Proof.
  intros Hd. unfold settle_escape. destruct (d_client d) as [c|] eqn:Ec; [|by split; [eapply daemon_same; [..|exact Hd]|]].
  destruct (InputParser.esc_pending _); [|by split; [eapply daemon_same; [..|exact Hd]|]].
  destruct (negb _); [by split; [eapply daemon_same; [..|exact Hd]|]|]. destruct (_ <=? _); [|done].
  unfold type_in. set (p0 := InputParser.timeout _).
  pose proof (look_messages (fun k => t_at te (AtEscInput k)) (S (length (InputParser.ready p0))) 0 p0 (d_session d)) as Hl.
  destruct (feed_session _ _ _ _ _ _) as [p s]. cbn [snd] in Hl. cbv zeta. split; [|done].
  set (d1 := dirty_frame _). apply (daemon_same d1); try done. apply daemon_dirty, daemon_session; [done|]. by eapply daemon_client.
Qed.

Lemma before_wait_ok te d : keeps d (fst (before_wait make te d)).
Proof.
  unfold before_wait. cbv zeta. set (d0 := {| d with d_closed := [] |}).
  assert (keeps d d0) as H0 by (intros Hd; split; [by eapply daemon_same; [..|exact Hd]|done]).
  eapply keeps_trans; [exact H0|]. eapply keeps_trans; [apply (settle_escape_ok te)|].
  set (d1 := settle_escape _ _ _). generalize (show_timeout te d1) as t. intros t.
  assert (keeps d1 (fst (update_timeout te d1 t))) as H1.
  { intros Hd. unfold update_timeout. destruct (0 <=? _); [|done]. destruct (_ =? 0); [|done]. split; [|done].
    apply daemon_session; [apply look_tick|done]. }
  destruct (update_timeout te d1 t) as [d2 t2]. cbn [fst] in H1. eapply keeps_trans; [exact H1|].
  intros Hd. unfold refresh_timeout. destruct (0 <=? _); [|done]. destruct (_ =? 0); [|done]. split; [|done]. cbn [fst].
  set (d3 := dirty_frame _). apply (daemon_same d3); try done. apply daemon_dirty, daemon_session; [apply look_refresh|done].
Qed.

(** ** One frame *)

Lemma frame_msgs_snoc fs f :
  frame_msgs (fs ++ [f]) = frame_msgs fs ++ match f_ansi f with [] => [] | a => [Proto.MFrame a] end.
Proof. unfold frame_msgs. rewrite fmap_app, concat_app. cbn [fmap list_fmap concat]. by rewrite app_nil_r. Qed.

Lemma encode_body m : zlen (Proto.body_of m).2 <= zlen (Proto.encode m).
Proof. unfold Proto.encode. destruct (Proto.body_of m) as [t b]. rewrite zlen_app. pose proof (zlen_nonneg (Proto.put_u32 (Proto.put_u8 [] (Proto.tag_code t)) (to_u32 (zlen b)))). cbn [snd]. lia. Qed.

(** A message the queue takes is within the cap of the decoder. *)
Lemma push_accepted q m : OutQueue.queue_ok q -> OutQueue.q_ceiling q = kBackpressureCeiling -> OutQueue.q_overflow q = OutQueue.ONone ->
  let q' := OutQueue.push q (Proto.encode m) in
  OutQueue.queue_ok q' /\ OutQueue.q_ceiling q' = kBackpressureCeiling /\
  (OutQueue.q_overflow q' = OutQueue.ONone ->
     OutQueue.pending q' = OutQueue.pending q ++ Proto.encode m /\ zlen (Proto.body_of m).2 <= Proto.kMaxMessageBytes).
Proof.
  intros Hq Hc Ho. destruct (OutQueue.push_spec q (Proto.encode m) Hq) as (P1 & P2 & P3). cbv zeta.
  split; [done|]. split; [congruence|]. intros Hn. destruct (OutQueue.rejects q (Proto.encode m)) eqn:E.
  - unfold OutQueue.push in Hn. unfold OutQueue.rejects in E. rewrite E in Hn. cbn in Hn. rewrite Ho in Hn. by destruct (OutQueue.q_off q).
  - split; [apply P3|]. unfold OutQueue.rejects in E. pose proof (encode_body m). destruct Hq as [_ Hs].
    rewrite Hc in *. change kBackpressureCeiling with 1048576 in *. change Proto.kMaxMessageBytes with 33554432. zbool. lia.
Qed.

Lemma compose_frame df fs sf cur :
  Frames.in_sync df (page capacity fs) -> Frames.frame_ok amb (sf, cur) ->
  let '(ansi, df') := Differ.frame df sf cur in let fs' := fs ++ [SentFrame (s_w sf) (s_h sf) ansi] in
  Frames.in_sync df' (page capacity fs') /\ Frames.presents (Differ.d_profile df) sf cur (page capacity fs').2 /\
  Differ.d_profile df' = Differ.d_profile df.
Proof.
  intros Hy Hf. pose proof (Frames.present_step amb (df, page capacity fs) (sf, cur) Hf Hy) as Hp.
  unfold Frames.present in Hp. cbn [fst snd] in Hp. destruct (Differ.frame df sf cur) as [ansi df']. cbv zeta. by rewrite page_snoc.
Qed.

(** The frame of [compose], up to the verdict of the queue. *)
Lemma conn_compose s sf k l c df s' sf' (again : bool) t :
  conn_ok s sf k l c -> c_differ c = Some df -> out s' = out s -> Frames.frame_ok amb (sf', s_cursor s') ->
  let df1 := if again then Differ.invalidate df else df in
  let '(ansi, df2) := Differ.frame df1 sf' (s_cursor s') in
  let c1 := {| c with c_differ := Some df2 |} in
  let c2 := if bool_decide (ansi = []) then c1 else push c1 (Proto.MFrame ansi) in
  let '(o, q) := OutQueue.take_overflow (c_out c2) in
  let c3 := with_out c2 q in
  c_key c3 = c_key c /\ c_differ c3 = Some df2 /\ conn_ok s' sf' (FrameClock.note_render k t) (l ++ [Verdict (c_key c) o]) c3.
Proof.
  intros [H1 H2 H3 (df0 & H4 & H5 & H6)] Ed Eo Hf. rewrite Ed in H4. injection H4 as <-. cbv zeta.
  set (df1 := if again then Differ.invalidate df else df).
  assert (forall pt, Frames.in_sync df pt -> Frames.in_sync df1 pt) as Hi.
  { intros pt Hpt. subst df1. destruct again; [by apply in_sync_invalidate|done]. }
  assert (Differ.d_profile df1 = out s) as Ep by (subst df1; by destruct again).
  pose proof (fun fs Hy => compose_frame df1 fs sf' (s_cursor s') Hy Hf) as Hc.
  destruct (Differ.frame df1 sf' (s_cursor s')) as [ansi df2] eqn:Ef. set (c1 := {| c with c_differ := Some df2 |}).
  assert (Differ.d_profile df2 = out s) as Ep2.
  { unfold Differ.frame in Ef. cbv zeta in Ef. destruct (_ && _) in Ef; injection Ef as _ <-; exact Ep. }
  set (c2 := if bool_decide (ansi = []) then c1 else push c1 (Proto.MFrame ansi)).
  assert (c_key c2 = c_key c /\ c_differ c2 = Some df2) as [K1 K2] by (subst c2; by case_bool_decide).
  assert (OutQueue.queue_ok (c_out c2) /\ OutQueue.q_ceiling (c_out c2) = kBackpressureCeiling /\
    (OutQueue.q_overflow (c_out c2) = OutQueue.ONone ->
       OutQueue.pending (c_out c2) = OutQueue.pending (c_out c) ++ match ansi with [] => [] | _ => Proto.encode (Proto.MFrame ansi) end /\
       Forall Proto.msg_wf match ansi with [] => [] | _ => [Proto.MFrame ansi] end)) as (Q1 & Q2 & Q3).
  { subst c2. case_bool_decide as E.
    - subst ansi. split; [done|]. split; [done|]. intros _. rewrite app_nil_r. split; [done|constructor].
    - destruct (push_accepted (c_out c) (Proto.MFrame ansi) H1 H2 H3) as (P1 & P2 & P3). split; [done|]. split; [done|].
      intros Hn. destruct (P3 Hn). destruct ansi; [done|]. split; [done|]. by repeat constructor. }
  cbn [OutQueue.take_overflow]. split; [done|]. split; [done|]. constructor; cbn [with_out c_out c_key c_differ]; try done.
  exists df2. split; [done|]. split; [congruence|]. rewrite K1, untroubled_app. intros [Hu Hv].
  assert (OutQueue.q_overflow (c_out c2) = OutQueue.ONone) as Hn by (apply list.Forall_cons in Hv as [Hv _]; by apply Hv).
  destruct (Q3 Hn) as [Q4 Q5]. destruct (H6 Hu) as (fs & F1 & F2 & F3 & F4).
  destruct (Hc fs (Hi _ F3)) as (C1 & C2 & C3). exists (fs ++ [SentFrame (s_w sf') (s_h sf') ansi]).
  split; [|split; [|split; [done|intros _; congruence]]].
  - rewrite wire_app, app_nil_r, stream_snoc, <- F1. cbn [f_ansi]. rewrite <- app_assoc. f_equal. etrans; [exact Q4|]. by destruct ansi.
  - rewrite frame_msgs_snoc. apply Forall_app. split; [done|]. by destruct ansi.
Qed.

Lemma compose_ok te d c df : d_client d = Some c -> c_differ c = Some df -> screen_ok amb (d_screen d) ->
  keeps d (compose make te d c df).
Proof.
  intros Ec Ed Hsc Hd. unfold compose. set (r := render _ _ _ _ _).
  destruct (render_screen make amb small (t_at te AtRender) (d_session d) (d_screen d) (do_look _ Hd) Hsc) as [Hs' Hf].
  pose proof (palette_render make amb (t_at te AtRender) (d_session d) (d_screen d)) as Hp. fold r in Hs', Hf, Hp. clearbody r.
  destruct r as [s1 sf']. cbn [fst snd] in *. unfold take_repaint.
  set (s' := {| s1 with repaint := false |}). assert (s_cursor s' = s_cursor s1) as Hcu by done. rewrite <- Hcu in Hf.
  assert (palette s' = palette (d_session d)) as Hp' by exact Hp.
  assert (out s' = out (d_session d)) as Ho by exact (f_equal fst Hp'). clearbody s'. clear Hp Hcu.
  destruct Hd as [D1 D2 D3 D4 D5].
  pose proof (conn_compose _ _ _ _ _ df s' sf' (repaint s1) (now te AtCompose) (D5 c Ec) Ed Ho Hf) as Hc. cbv zeta in Hc |- *.
  destruct (Differ.frame _ _ _) as [ansi df2]. set (c2 := if bool_decide (ansi = []) then _ else _) in *.
  destruct (OutQueue.take_overflow (c_out c2)) as [o q]. set (c3 := with_out c2 q) in *. destruct Hc as (K1 & K2 & Hc).
  rewrite !K1. set (d1 := @log A _ [Verdict (c_key c) o]).
  assert (daemon_ok (with_client d1 (Some c3))) as Hd1.
  { assert (keys_ok (log d [Verdict (c_key c) o])) as [G1 G2 G3 G4 G5] by (apply keys_log; [by repeat constructor|done|done]).
    fields in *. constructor; [..|constructor|]; subst d1; fields; try done.
    - by eapply look_kept.
    - apply Hs'.
    - apply Hs'.
    - intros x [= <-]. rewrite K1. by apply G3.
    - intros x p [= <-]. rewrite K1. by apply G5.
    - by intros x [= <-]. }
  change (d_next_gen d) with (d_next_gen (with_client d1 (Some c3))).
  assert (forall d2 c4, keeps (with_client d1 (Some c3)) (with_client d2 (Some c4)) -> d_client (with_client d2 (Some c4)) = Some c4 ->
    keeps (with_client d1 (Some c3)) (let '(c, l, ok) := flush_client (t_flush te) c4 in
      let d := log (with_client d2 (Some c)) l in
      if negb ok then drop_client [] None d
      else when (OutQueue.wants_write (c_out c)) (fun d => log d [EpMod (c_key c) (Z.lor EPOLLIN EPOLLOUT)]) d)) as Hflush.
  { intros d2 c4 Hk _ H0. destruct (Hk H0) as [H1 H2]. pose proof (daemon_flush (t_flush te) (with_client d2 (Some c4)) c4 eq_refl H1) as Hfl.
    destruct (flush_client _ _) as [[c5 l5] ok]. destruct Hfl as (F1 & _ & _). cbv zeta.
    change (log (with_client (with_client d2 (Some c4)) (Some c5)) l5) with (log (with_client d2 (Some c5)) l5) in F1.
    rewrite <- H2. set (d5 := log (with_client d2 (Some c5)) l5) in *. change (d_next_gen (with_client d2 (Some c4))) with (d_next_gen d5).
    destruct ok; cbn [negb]; [|by apply keeps_drop]. unfold when. destruct (OutQueue.wants_write _); [|done].
    split; [|done]. apply daemon_log; [by repeat constructor|done]. }
  destruct o; [|apply Hflush; [|done|done]|by apply keeps_drop].
  - apply (Hflush d1 c3); [by intros|done|done].
  - intros _. split; [|done]. destruct Hd1 as [E1 E2 E3 [G1 G2 G3 G4 G5] E5]. constructor; [..|constructor|]; fields in *; try done.
    { intros x [= <-]. by apply (G3 c3). }
    { intros x p [= <-]. by apply (G5 c3). }
    intros x [= <-]. destruct (E5 c3 eq_refl) as [H1 H2 H3 (df3 & H4 & H5 & H6)]. constructor; try done.
    exists (Differ.invalidate df3). cbn [invalidate_differ c_differ c_key]. rewrite H4. split; [done|]. split; [done|].
    intros Hu. exfalso. change (untroubled (c_key c3) (d_log d ++ [Verdict (c_key c) OutQueue.OClean])) in Hu.
    rewrite untroubled_app in Hu. destruct Hu as [_ Hu].
    apply list.Forall_cons in Hu as [Hu _]. specialize (Hu (eq_sym K1)). done.
Qed.

(** ** After the events *)

Lemma see_dirty_ok te d : keeps d (see_dirty te d) /\ d_screen (see_dirty te d) = d_screen d.
Proof.
  unfold see_dirty. pose proof (look_dirty (t_at te AtDirty) (d_session d)) as Hl. destruct (take_dirty _ _) as [s b]. cbn [fst] in Hl.
  unfold when. destruct b; (split; [|done]); intros Hd; (split; [|done]).
  - by apply daemon_dirty, daemon_session.
  - by apply daemon_session.
Qed.

Lemma drop_client_screen answers r d : d_screen (drop_client answers r d) = d_screen d.
Proof. unfold drop_client. by destruct (d_client d). Qed.

Lemma see_detach_ok te d : keeps d (see_detach te d) /\ d_screen (see_detach te d) = d_screen d.
Proof.
  unfold see_detach, take_detach. set (s0 := d_session d). set (s := {| s0 with detach := false |}).
  assert (keeps d (with_session d s)) as Hs by (intros Hd; split; [by apply daemon_session|done]).
  unfold when. destruct (detach s0); [|by split]. split; [|by rewrite drop_client_screen].
  eapply keeps_trans; [exact Hs|apply keeps_drop].
Qed.

Lemma expire_ok te d : keeps d (expire_pending te d) /\ d_screen (expire_pending te d) = d_screen d.
Proof.
  unfold expire_pending. destruct (d_pending d) eqn:E; [|done]. destruct (_ <=? _); [|done].
  split; [apply keeps_drop_pending|]. unfold drop_pending. by rewrite E.
Qed.

Lemma present_frame_ok te d : screen_ok amb (d_screen d) -> keeps d (present_frame make te d).
Proof.
  intros Hs. unfold present_frame. destruct (d_client d) as [c|] eqn:Ec; [|done].
  destruct (c_differ c) as [df|] eqn:Ed; [|done]. destruct (_ =? 0); [|done]. by apply compose_ok.
Qed.

Lemma stop_ok te d : keeps d (set_timer te (see_quit (see_restart te d))).
Proof.
  intros Hd. assert (keeps d (see_restart te d)) as Hr.
  { unfold see_restart. destruct (wants_update_restart _); [|done]. set (d1 := log _ _).
    assert (keeps d d1) as H1.
    { intros H0. split; [|done]. apply daemon_log; [by repeat constructor|]. by eapply daemon_same; [..|exact H0]. }
    eapply keeps_trans; [exact H1|]. eapply keeps_trans; [apply (keeps_drop (t_restart te) (Some kDetachReasonUpdate))|].
    intros H0. split; [|done]. by eapply daemon_same; [..|exact H0]. }
  destruct (Hr Hd) as [H1 H2]. rewrite <- H2. set (d1 := see_restart te d) in *.
  assert (daemon_ok (see_quit d1)) as H3.
  { unfold see_quit. destruct (quit _); [|done]. by eapply daemon_same; [..|exact H1]. }
  split; [|unfold see_quit; by destruct (quit _)]. unfold set_timer. apply daemon_log; [by repeat constructor|done].
Qed.

Definition sized (sf : surface) : Prop := 1 <= s_w sf <= 65535 /\ 1 <= s_h sf <= 65535 /\ roomy (s_w sf) (s_h sf).

Lemma after_events_ok te d : sized (d_screen d) -> keeps d (after_events make te d).
Proof.
  intros (S1 & S2 & S3) Hd. assert (screen_ok amb (d_screen d)) as Hs by (split; [apply Hd|]; split; [apply Hd|done]).
  unfold after_events. destruct (expire_ok te d) as [H1 E1]. set (d1 := expire_pending te d) in *.
  destruct (see_dirty_ok te d1) as [H2 E2]. set (d2 := see_dirty te d1) in *.
  destruct (see_detach_ok te d2) as [H3 E3]. set (d3 := see_detach te d2) in *.
  assert (keeps d3 (present_frame make te d3)) as H4 by (apply present_frame_ok; by rewrite E3, E2, E1).
  revert Hd. change (keeps d (set_timer te (see_quit (see_restart te (present_frame make te d3))))).
  eapply keeps_trans; [exact H1|]. eapply keeps_trans; [exact H2|]. eapply keeps_trans; [exact H3|].
  eapply keeps_trans; [exact H4|]. apply stop_ok.
Qed.

(** ** Turns *)

(** The state once the events of the turn have been handled. *)
Definition handled te d : daemon A :=
  let d := fst (before_wait make te d) in
  match t_wait te with WaitEvents l => fold_left (handle_event make grow shrink) l d | _ => d end.

Definition batch te : list event := match t_wait te with WaitEvents l => l | _ => [] end.

(** A turn of the loop: fewer than 2^32 connections are ever accepted, and the terminal
    has a size its windows fit in. *)
Inductive loop_step d : daemon A -> Prop :=
  | LoopStep te : d_next_gen d + zlen (batch te) < 2 ^ 32 -> sized (d_screen (handled te d)) ->
      loop_step d (fst (turn make grow shrink te d)).

Lemma loop_step_ok d d' : loop_step d d' -> daemon_ok d -> daemon_ok d'.
Proof.
  intros [te Hg Hs] Hd. unfold turn. destruct (before_wait_ok te d Hd) as [H1 H2]. unfold handled in Hs.
  destruct (before_wait make te d) as [d1 t]. cbn [fst] in *. unfold batch in Hg. destruct (t_wait te) as [| |l]; [done|done|].
  cbn [fst]. destruct (handle_events_ok l d1 ltac:(lia) H1) as [H3 _]. by apply after_events_ok.
Qed.

Lemma daemon_new_ok e st dsk start : daemon_ok (daemon_new e st dsk start).
Proof.
  constructor; [done|apply fit_new|apply surface_new_pairs| |done].
  constructor; try done. by repeat constructor.
Qed.

Lemma daemon_run_ok e st dsk start d : rtc loop_step (daemon_new e st dsk start) d -> daemon_ok d.
Proof.
  pose proof (daemon_new_ok e st dsk start) as H0. intros Hs. revert H0.
  induction Hs as [d|d1 d2 d3 Hstep _ IH]; [done|]. intros H0. by eapply IH, loop_step_ok.
Qed.

(** C1: the client of the daemon sees the desktop.  From its start, after any turns of the
    loop -- any batches of events, any answers of the system, clients attached, evicted,
    detached and back, fewer than 2^32 of them, with terminals of any size up to 65535 but
    40 or 41 columns wide, and applications that ask for windows of 26 by 8 at most --
    the bytes sent to the client attached and those that wait for it, in whatever pieces
    of at most 1 MiB they arrive, are read by a decoder of the protocol as a welcome and
    then frames; a page fed with these shows, unless a new frame is due, the last surface
    the session drew, cell by cell in the colours of this client, and its cursor --
    provided no queue of this connection has overflown. *)
Theorem client_sees_the_desktop e st dsk start d c chunks :
  rtc loop_step (daemon_new e st dsk start) d -> d_client d = Some c -> untroubled (c_key c) (d_log d) ->
  concat chunks = wire (c_key c) (d_log d) ++ OutQueue.pending (c_out c) -> Forall (fun x => zlen x <= 1024 * 1024) chunks ->
  exists fs,
    (Proto.receive grow shrink Proto.decoder_init chunks).1 = Proto.MWelcome :: frame_msgs fs /\
    (FrameClock.dirty (d_clock d) = false ->
     Frames.presents (out (d_session d)) (d_screen d) (s_cursor (d_session d)) (page capacity fs).2).
Proof.
  intros Hs Ec Hu Hch Hsize. destruct (do_client _ (daemon_run_ok _ _ _ _ _ Hs) c Ec) as [_ _ _ (df & _ & _ & Hc)].
  destruct (Hc Hu) as (fs & F1 & F2 & _ & F4). exists fs. split; [|done].
  assert (Forall Proto.msg_wf (Proto.MWelcome :: frame_msgs fs)) as Hwf by (constructor; [|done]; by split).
  rewrite F1 in Hch. pose proof (Proto.messages_survive_chunking grow shrink _ chunks Hwf Hch Hsize) as Hm.
  destruct (Proto.receive _ _ _ _) as [ms x]. by destruct Hm as [-> _].
Qed.

End Life.

(** ** A first attachment *)

#[export] Instance sized_dec sf : Decision (sized sf).
Proof. unfold sized, roomy. apply _. Defined.

#[export] Instance overflow_eq_dec : EqDecision OutQueue.overflow. Proof. solve_decision. Defined.
#[export] Instance untroubled_dec k l : Decision (untroubled k l).
Proof. apply Forall_dec. intros []; solve [left; exact I | apply impl_dec; apply _]. Defined.

Definition plain_event (key events : Z) (reads : list got) (a : accept_outcome) : event :=
  Event key events reads [] [] [] [] a (fun _ _ => demo_env 1).

(** A terminal of 12 by 4, too small for more than the warning, says who it is; the first frame goes out, or as much of it as the socket takes. *)
Definition demo_hello : Proto.msg := Proto.MHello (Proto.Hello Proto.kBuildId 12 4 (str "xterm-256color") [] true []).
Definition demo_turn : turn_env :=
  TurnEnv (fun _ => demo_env 1)
    (WaitEvents [plain_event kGenListener EPOLLIN [] Accepted; plain_event 16 EPOLLIN [Data (Proto.encode demo_hello)] Empty])
    [] [OutQueue.Sent 30; OutQueue.EIntr; OutQueue.Sent 5] [].

Definition demo_daemon : daemon toy :=
  daemon_new (demo_env 0) (settings_new (str "/c/config") (str "/home/u") (Disk None None)) (Disk None None) 0.

Definition demo_attached : daemon toy := fst (turn demo_make (fun _ n => n) (fun _ => 0) demo_turn demo_daemon).
Definition demo_client : client := default (client_new 0) (d_client demo_attached).

Lemma two_pieces {B} n (l : list B) : concat [take n l; drop n l] = l.
Proof. cbn [concat]. by rewrite app_nil_r, take_drop. Qed.

Lemma demo_step : loop_step demo_make (fun _ n => n) (fun _ => 0) demo_daemon demo_attached.
Proof.
  assert (sized (d_screen (handled demo_make (fun _ n => n) (fun _ => 0) demo_turn demo_daemon))) as Hs
    by (apply (bool_decide_unpack _); by vm_compute).
  exact (LoopStep demo_make (fun _ n => n) (fun _ => 0) demo_daemon demo_turn eq_refl Hs).
Qed.

Lemma client_sees_the_desktop_witness :
  let all := wire (c_key demo_client) (d_log demo_attached) ++ OutQueue.pending (c_out demo_client) in
  exists fs,
    (Proto.receive (fun _ n => n) (fun _ => 0) Proto.decoder_init [take 50 all; drop 50 all]).1 = Proto.MWelcome :: frame_msgs fs /\
    (FrameClock.dirty (d_clock demo_attached) = false ->
     Frames.presents (out (d_session demo_attached)) (d_screen demo_attached) (s_cursor (d_session demo_attached)) (page 10 fs).2).
Proof.
  intros all.
  apply (client_sees_the_desktop demo_make (fun _ n => n) (fun _ => 0) 10 toy_small
    (demo_env 0) (settings_new (str "/c/config") (str "/home/u") (Disk None None)) (Disk None None) 0 demo_attached demo_client).
  - exact (rtc_once _ _ demo_step).
  - by vm_compute.
  - apply (bool_decide_unpack _). by vm_compute.
  - exact (two_pieces 50 all).
  - apply (bool_decide_unpack _). by vm_compute.
Defined.

Example demo_is_shown : FrameClock.dirty (d_clock demo_attached) = false /\ wire 16 (d_log demo_attached) <> [].
Proof. split; by vm_compute. Qed.
