(* ===== verification/DaemonLoop.v ===== *)
(** * The loop of the daemon: who disturbs whom, when it ends, when it sleeps

    A connection that has not said who it is disturbs nobody; the inner loops end; the
    session moves by its entry points only.  And two places where the loop does not do
    what it means to: a check of updates it sleeps through, a frame it can never send. *)

From S2P Require Import Prelude Input Cell Surface Window Config Host Session SessionRender.
From S2P Require Import SessionDemo SessionSteps SessionProps SessionHistory SessionFrame Daemon DaemonLife.
From S2P Require Proto OutQueue FrameClock InputParser Differ Profile UpdateState UpdateService.

Section Loop.
Context {A : Type} `{Application A} (make : bytes -> A) (grow : Z -> Z -> Z) (shrink : Z -> Z).
Implicit Types (d : daemon A) (c : client) (s : session A) (ev : event) (te : turn_env).

(** ** A connection that has not said who it is *)

(** Nothing that is shown, nothing of the session, nothing of the client. *)
Definition undisturbed d d' : Prop :=
  d_session d' = d_session d /\ d_client d' = d_client d /\ d_screen d' = d_screen d /\ d_clock d' = d_clock d /\
  d_running d' = d_running d.

Lemma undisturbed_drop d : undisturbed d (drop_pending d).
Proof. unfold drop_pending. by destruct (d_pending d). Qed.

Lemma undisturbed_trans d1 d2 d3 : undisturbed d1 d2 -> undisturbed d2 d3 -> undisturbed d1 d3.
Proof. intros (A1 & A2 & A3 & A4 & A5) (B1 & B2 & B3 & B4 & B5). unfold undisturbed. split_and!; congruence. Qed.

Lemma undisturbed_gone ev b d : undisturbed d (pending_gone ev b d).
Proof. unfold pending_gone. destruct (_ || _); [apply undisturbed_drop|done]. Qed.

(** The greeting of this very version that the bytes of an event hold: nothing in them is
    ill-formed, and the first greeting is of this version. *)
Definition greeting ev d : option Proto.hello :=
  match d_pending d with
  | Some p =>
      let '(l, x) := messages shrink (drain_socket grow shrink (ev_reads ev) (c_dec p)).1 in
      if existsb (Z.eqb (ev_key ev)) (d_closed d) || negb (has (ev_events ev) EPOLLIN) || Proto.failed x then None
      else match first_hello l with Some hl => if Proto.build_id hl =? Proto.kBuildId then Some hl else None | None => None end
  | None => None
  end.

(** The connection [p] in the place of the client: its size, its palette, a welcome first
    in its queue, a page to draw anew, nobody waiting. *)
Definition takes_place (p : client) (hl : Proto.hello) d d' : Prop :=
  let prof := Profile.detect (Proto.term hl) (Proto.colorterm hl) (Proto.utf8 hl) in
  d_pending d' = None /\ d_running d' = d_running d /\ FrameClock.dirty (d_clock d') = true /\
  d_screen d' = resize (Proto.cols hl) (Proto.rows hl) /\ out (d_session d') = prof /\
  exists c, d_client d' = Some c /\ c_key c = c_key p /\ c_cols c = Proto.cols hl /\ c_rows c = Proto.rows hl /\
    c_differ c = Some (Differ.differ_new prof) /\ c_out c = OutQueue.push (c_out p) (Proto.encode Proto.MWelcome).

Lemma drop_client_running answers r d : d_running (drop_client answers r d) = d_running d.
Proof. unfold drop_client. by destruct (d_client d). Qed.

Lemma promote_takes answers d c hl : takes_place c hl d (promote answers d c hl).
Proof.
  unfold takes_place, promote. cbv zeta. cbn [d_pending dirty_frame with_clock d_running d_clock d_screen d_session d_client FrameClock.mark_dirty FrameClock.dirty].
  split_and!; [done|by rewrite drop_client_running|done|done|unfold cancel_drag; by destruct (drag _)|]. eexists. by split_and!.
Qed.

(** C7: whoever connects disturbs nobody before saying who it is.  An event of the
    listener, or of the connection that waits, leaves the session, the client, its
    screen and its pace as they were -- a probe that opens and closes, a peer that
    stammers, one of another version -- unless the bytes read, with nothing ill-formed in
    them, hold a greeting, and the first is of this very version: then, and only then, it
    takes the client's place, with its size and its palette, a welcome in its queue and
    the page to draw anew. *)
Theorem only_a_greeting_evicts ev d :
  is_key (ev_key ev) (d_client d) = false ->
  (ev_key ev = make_key 0 kGenListener -> undisturbed d (handle_event make grow shrink d ev)) /\
  (is_key (ev_key ev) (d_pending d) = true -> kGenFirstDynamic <= ev_key ev ->
   match greeting ev d with
   | None => undisturbed d (handle_event make grow shrink d ev)
   | Some hl => exists p, d_pending d = Some p /\ takes_place p hl d (handle_event make grow shrink d ev)
   end).
Proof.
  intros Hc. unfold handle_event. cbv zeta. split.
  { intros ->. cbn [Z.eqb make_key]. change (undisturbed d (accept_event ev d)). unfold accept_event.
    destruct (ev_accept ev); try done. apply (undisturbed_trans _ (drop_pending d)); [apply undisturbed_drop|done]. }
  intros Hk Hg. unfold kGenFirstDynamic in Hg.
  change (make_key 0 kGenSignal) with 3. change (make_key 0 kGenTimer) with 2. change (make_key 0 kGenListener) with 1.
  zrw_false (ev_key ev =? 3). zrw_false (ev_key ev =? 2). zrw_false (ev_key ev =? 1).
  unfold greeting. destruct (d_pending d) as [p|] eqn:Ep; [|done]. cbn [is_key] in Hk, Hc.
  destruct (messages _ _) as [l x] eqn:Em. destruct (existsb _ _); [done|]. cbn [orb].
  assert (match (if negb (has (ev_events ev) EPOLLIN) || Proto.failed x then None
      else match first_hello l with Some hl => if Proto.build_id hl =? Proto.kBuildId then Some hl else None | None => None end) with
    | None => undisturbed d (pending_event grow shrink ev d p)
    | Some hl => exists p0, Some p = Some p0 /\ takes_place p0 hl d (pending_event grow shrink ev d p) end) as Hp.
  2:{ rewrite Hk. destruct (d_client d) as [c|]; [cbn [is_key] in Hc; rewrite Hc|]; exact Hp. }
  unfold pending_event. destruct (has _ EPOLLIN); cbn [negb orb]; [|apply undisturbed_gone].
  destruct (drain_socket _ _ _ _) as [x0 closed] eqn:Ed. cbn [fst] in Em. rewrite Em. cbv zeta.
  set (d1 := with_pending d (Some (with_dec p x))). assert (undisturbed d d1) as H1 by done.
  destruct (Proto.failed x); [apply (undisturbed_trans _ d1); [done|apply undisturbed_drop]|].
  destruct (first_hello l) as [hl|]; [|apply (undisturbed_trans _ d1); [done|apply undisturbed_gone]].
  destruct (Proto.build_id hl =? Proto.kBuildId); cbn [negb].
  - exists p. split; [done|]. pose proof (promote_takes (ev_bye ev) d1 (with_dec p x) hl) as Ht. exact Ht.
  - destruct (flush_client _ _) as [[c' l'] ok].
    apply (undisturbed_trans _ (log (with_pending d1 (Some c')) l')); [done|apply undisturbed_drop].
Qed.

(** An event that comes too late falls on nobody.  No window has the number 0: an event
    still queued under the key of a connection that is neither the client nor the one
    that waits changes nothing at all -- whoever has been given its descriptor since. *)
Theorem late_event_is_nobodys ev d :
  desk_ok (dk (d_session d)) -> key_window (ev_key ev) = 0 -> kGenFirstDynamic <= ev_key ev ->
  is_key (ev_key ev) (d_client d) = false -> is_key (ev_key ev) (d_pending d) = false ->
  handle_event make grow shrink d ev = d.
Proof.
  intros Hok Hw Hg Hc Hp. assert (with_session d (on_fd_event (ev_at ev 0%nat 0%nat) (d_session d) (ev_key ev) (ev_events ev)) = d) as Hd.
  { unfold on_fd_event. rewrite Hw. destruct (Window.find _ 0) as [wd|] eqn:E; [|by destruct d].
    apply find_ids in E as [Ei Hin]. destruct (ok_wm _ Hok) as (_ & (_ & Hf & _) & _). rewrite List.Forall_forall in Hf.
    apply list_elem_of_In in Hin. destruct (Hf wd Hin). lia. }
  unfold handle_event. cbv zeta. rewrite !make_key_0. unfold kGenSignal, kGenTimer, kGenListener, kGenFirstDynamic in *.
  zrw_false (ev_key ev =? 3). zrw_false (ev_key ev =? 2). zrw_false (ev_key ev =? 1). destruct (existsb _ _); [done|].
  destruct (d_client d) as [c|]; [cbn [is_key] in Hc; rewrite Hc|];
    (destruct (d_pending d) as [p|]; [cbn [is_key] in Hp; rewrite Hp|]); exact Hd.
Qed.

(** ** The inner loops end *)

(** One more message, one more event. *)
Definition read_step (x' x : Proto.decoder) : Prop := exists m, Proto.next shrink x = (Some m, x').
Definition event_step (p' p : InputParser.input) : Prop := exists e, InputParser.next p = (Some e, p').

Lemma read_step_ok x x' : Proto.decoder_ok x -> read_step x' x ->
  Proto.decoder_ok x' /\ (length (Proto.unread x') < length (Proto.unread x))%nat.
Proof.
  intros Hx [m Hm]. unfold Proto.next in Hm. destruct (Proto.failed x) eqn:Ef; [done|].
  pose proof (Proto.next_loop_parse shrink (S (length (Proto.buf x))) x Hx Ef) as Hn. pose proof (Proto.length_unread x).
  rewrite Hm in Hn. destruct Hn as (H1 & r & Hv & Hl & _); [lia|]. destruct (Proto.view_unread _ _ Hv) as [_ Hu]. split; [done|]. by rewrite Hu.
Qed.

Lemma read_step_acc x : Proto.decoder_ok x -> Acc read_step x.
Proof.
  remember (length (Proto.unread x)) as n eqn:En. revert x En. induction n as [n IH] using lt_wf_ind. intros x -> Hx.
  constructor. intros x' Hs. destruct (read_step_ok x x' Hx Hs) as [H1 H2]. by eapply IH.
Qed.

Lemma event_step_acc p : Acc event_step p.
Proof.
  remember (length (InputParser.ready p)) as n eqn:En. revert p En. induction n as [n IH] using lt_wf_ind. intros p ->.
  constructor. intros p' [e He]. unfold InputParser.next in He. destruct (InputParser.ready p) as [|e0 r] eqn:Er; [done|].
  injection He as _ <-. apply (IH (length r)); [cbn; lia|done].
Qed.

Lemma drain_more fuel1 fuel2 x : Proto.decoder_ok x ->
  (length (Proto.unread x) < fuel1)%nat -> (length (Proto.unread x) < fuel2)%nat -> Proto.drain shrink fuel1 x = Proto.drain shrink fuel2 x.
Proof.
  revert fuel2 x. induction fuel1 as [|fuel1 IH]; intros fuel2 x Hx H1 H2; [lia|]. destruct fuel2 as [|fuel2]; [lia|].
  cbn [Proto.drain]. destruct (Proto.next shrink x) as [[m|] x'] eqn:En; [|done].
  destruct (read_step_ok x x' Hx) as [Hx' Hl]; [by exists m|]. by rewrite (IH fuel2 x') by (done || lia).
Qed.

Lemma feed_session_ready fuel at_ k p s : (length (InputParser.ready p) < fuel)%nat ->
  InputParser.ready (feed_session make fuel at_ k p s).1 = [].
Proof.
  revert k p s. induction fuel as [|fuel IH]; intros k p s Hf; [lia|]. cbn [feed_session]. unfold InputParser.next.
  destruct (InputParser.ready p) as [|e r] eqn:Er; [done|]. apply IH. cbn in *. lia.
Qed.

(** The inner loops of the daemon end, and the model runs them to their end.  However
    the bytes of a peer came, no infinite sequence of messages can be read out of what is
    buffered, nor of events out of what is decoded; more turns than the model allows
    itself would read the same messages, and leave no event unread. *)
Theorem reading_loops_end x p (at_ : nat -> env) s : Proto.decoder_ok x ->
  Acc read_step x /\ Acc event_step p /\
  (forall fuel, (length (Proto.buf x) < fuel)%nat -> Proto.drain shrink fuel x = messages shrink x) /\
  InputParser.ready (type_in make at_ p s).1 = [].
Proof.
  intros Hx. split; [by apply read_step_acc|]. split; [apply event_step_acc|]. split; [|by apply feed_session_ready; lia].
  intros fuel Hf. pose proof (Proto.length_unread x). apply drain_more; [done|lia..].
Qed.

(** ** The session is driven by its entry points *)

Abbreviation reacts := (rtc (SessionHistory.turn make amb)).

Lemma reacts_drop answers r d : reacts (d_session d) (d_session (drop_client answers r d)).
Proof. unfold drop_client. destruct (d_client d); [|done]. apply rtc_once, TurnCancel. Qed.

Lemma reacts_drop_pending d : d_session (drop_pending d) = d_session d.
Proof. unfold drop_pending. by destruct (d_pending d). Qed.

Lemma reacts_feed fuel at_ k p s : reacts s (feed_session make fuel at_ k p s).2.
Proof.
  revert k p s. induction fuel as [|fuel IH]; intros k p s; [done|]. cbn [feed_session].
  destruct (InputParser.next p) as [[e|] p']; [|done]. eapply rtc_l; [apply TurnInput|apply IH].
Qed.

Lemma reacts_message at_ d m : reacts (d_session d) (d_session (client_message make at_ d m)).
Proof.
  unfold client_message. destruct (d_client d) as [c|]; [|done]. destruct m; try done. unfold type_in.
  set (p0 := InputParser.feed _ _). pose proof (reacts_feed (S (length (InputParser.ready p0))) at_ 0 p0 (d_session d)) as Hr.
  by destruct (feed_session _ _ _ _ _ _).
Qed.

Lemma reacts_messages at_ d l : reacts (d_session d) (d_session (client_messages make at_ d l)).
Proof.
  unfold client_messages. generalize (imap (fun i m => (i, m)) l). intros ps. revert d.
  induction ps as [|p ps IH]; intros d; [done|]. cbn [fold_left]. etrans; [apply (reacts_message (at_ (fst p)) d (snd p))|apply IH].
Qed.

Lemma reacts_client_read ev d c : reacts (d_session d) (d_session (client_read make grow shrink ev d c)).
Proof.
  unfold client_read. destruct (has _ EPOLLIN).
  - destruct (drain_socket _ _ _ _) as [x closed]. destruct (messages shrink x) as [l y].
    pose proof (reacts_messages (ev_at ev) (with_client d (Some (with_dec c y))) l) as Hm. cbv zeta.
    set (d1 := client_messages _ _ _ _) in *. change (d_session d) with (d_session (with_client d (Some (with_dec c y)))).
    destruct (Proto.failed y); [etrans; [exact Hm|apply reacts_drop]|]. destruct (_ || _); [etrans; [exact Hm|apply reacts_drop]|done].
  - destruct (_ || _); [apply reacts_drop|done].
Qed.

Lemma reacts_client_event ev d c : reacts (d_session d) (d_session (client_event make grow shrink ev d c)).
Proof.
  unfold client_event. destruct (has _ EPOLLOUT); [|apply reacts_client_read]. destruct (flush_client _ _) as [[c' l] ok]. cbv zeta.
  set (d1 := log _ l). change (d_session d) with (d_session d1). destruct (negb ok); [apply reacts_drop|].
  destruct (OutQueue.wants_write _); [apply reacts_client_read|]. exact (reacts_client_read ev (log d1 [EpMod (c_key c') EPOLLIN]) c').
Qed.

Lemma reacts_gone ev b d : d_session (pending_gone ev b d) = d_session d.
Proof. unfold pending_gone. destruct (_ || _); [apply reacts_drop_pending|done]. Qed.

Lemma reacts_pending_event ev d p : reacts (d_session d) (d_session (pending_event grow shrink ev d p)).
Proof.
  unfold pending_event. destruct (has _ EPOLLIN); [|by rewrite reacts_gone]. destruct (drain_socket _ _ _ _) as [x closed].
  destruct (messages shrink x) as [l y]. cbv zeta. set (d1 := with_pending d _). change (d_session d) with (d_session d1).
  destruct (Proto.failed y); [by rewrite reacts_drop_pending|]. destruct (first_hello l) as [hl|]; [|by rewrite reacts_gone].
  destruct (negb _).
  - destruct (flush_client _ _) as [[c' l'] ok]. by rewrite reacts_drop_pending.
  - unfold promote. cbv zeta. etrans; [apply (reacts_drop (ev_bye ev) (Some (str "un autre client a pris la main")) d1)|].
    eapply rtc_l; [apply TurnOutput|]. apply rtc_once, TurnCancel.
Qed.

Lemma reacts_reap at_ n dead s : reacts s (reap_children at_ n dead s).1.
Proof.
  revert n s. induction dead as [|[pid st] dead IH]; intros n s; [done|]. cbn [reap_children]. destruct (_ <=? _); [done|].
  eapply rtc_l; [apply TurnChild|apply IH].
Qed.

Lemma reacts_event ev d : reacts (d_session d) (d_session (handle_event make grow shrink d ev)).
Proof.
  unfold handle_event. cbv zeta. destruct (_ =? make_key 0 kGenSignal).
  { unfold signal_event. set (d1 := fold_left _ _ _). assert (d_session d1 = d_session d) as E.
    { subst d1. generalize d. induction (ev_signals ev) as [|n l IH]; intros d0; [done|]. cbn [fold_left]. rewrite IH.
      unfold read_signal. by destruct (_ =? _); [|destruct (_ =? _)]. }
    clearbody d1. rewrite <- E. destruct (existsb _ _); [apply reacts_reap|done]. }
  destruct (_ =? make_key 0 kGenTimer); [done|]. destruct (_ =? make_key 0 kGenListener).
  { unfold accept_event. destruct (ev_accept ev); try done. fields. by rewrite reacts_drop_pending. }
  destruct (existsb _ _); [done|].
  assert (reacts (d_session d) (d_session (with_session d (on_fd_event (ev_at ev 0%nat 0%nat) (d_session d) (ev_key ev) (ev_events ev))))) as Ha
    by (apply rtc_once, TurnFd).
  destruct (d_client d) as [c|]; [destruct (_ =? c_key c); [apply reacts_client_event|]|];
    (destruct (d_pending d) as [p|]; [|exact Ha]); (destruct (_ =? c_key p); [apply reacts_pending_event|exact Ha]).
Qed.

Lemma reacts_before te d : reacts (d_session d) (d_session (before_wait make te d).1).
Proof.
  unfold before_wait. cbv zeta. set (d0 := {| d with d_closed := [] |}). change (d_session d) with (d_session d0).
  assert (reacts (d_session d0) (d_session (settle_escape make te d0))) as H1.
  { unfold settle_escape. destruct (d_client d0) as [c|]; [|done]. destruct (InputParser.esc_pending _); [|done].
    destruct (negb _); [done|]. destruct (_ <=? _); [|done]. unfold type_in. set (p0 := InputParser.timeout _).
    pose proof (reacts_feed (S (length (InputParser.ready p0))) (fun k => t_at te (AtEscInput k)) 0 p0 (d_session d0)) as Hr.
    by destruct (feed_session _ _ _ _ _ _). }
  set (d1 := settle_escape make te d0) in *. generalize (show_timeout te d1) as t. intros t.
  assert (reacts (d_session d1) (d_session (update_timeout te d1 t).1)) as H2.
  { unfold update_timeout. destruct (0 <=? _); [|done]. destruct (_ =? 0); [|done]. apply rtc_once, TurnTick. }
  destruct (update_timeout te d1 t) as [d2 t2]. cbn [fst] in H2.
  etrans; [exact H1|]. etrans; [exact H2|]. unfold refresh_timeout. destruct (0 <=? _); [|done]. destruct (_ =? 0); [|done].
  apply rtc_once, TurnRefresh.
Qed.

Lemma reacts_compose te d c df : reacts (d_session d) (d_session (compose make te d c df)).
Proof.
  unfold compose. cbv zeta. set (r := render _ _ _ _ _). assert (SessionHistory.turn make amb (d_session d) (fst r)) as Hr by apply TurnRender.
  clearbody r. destruct (take_repaint (fst r)) as [s again] eqn:Et. assert (reacts (d_session d) s) as Hs.
  { eapply rtc_l; [exact Hr|]. injection Et as <- _. apply rtc_once, TurnRepaint. }
  clear Et Hr. destruct (Differ.frame _ _ _) as [ansi df2]. destruct (OutQueue.take_overflow _) as [o q].
  assert (forall d1, d_session d1 = s -> reacts (d_session d) (d_session (drop_client [] None d1))) as Hdrop
    by (intros d1 <-; etrans; [exact Hs|apply reacts_drop]).
  destruct o; [| |by apply Hdrop]; destruct (flush_client _ _) as [[c5 l5] ok]; destruct ok; cbn [negb]; try (by apply Hdrop);
    unfold when; by destruct (OutQueue.wants_write _).
Qed.

Lemma reacts_expire te d : d_session (expire_pending te d) = d_session d.
Proof. unfold expire_pending. destruct (d_pending d); [|done]. destruct (_ <=? _); [apply reacts_drop_pending|done]. Qed.

Lemma reacts_dirty te d : reacts (d_session d) (d_session (see_dirty te d)).
Proof.
  unfold see_dirty. pose proof (TurnDirty make amb (t_at te AtDirty) (d_session d)) as Ht.
  destruct (take_dirty _ _) as [s b]. apply rtc_once. unfold when. by destruct b.
Qed.

Lemma reacts_detach te d : reacts (d_session d) (d_session (see_detach te d)).
Proof.
  unfold see_detach. pose proof (TurnDetach make amb (d_session d)) as Ht. destruct (take_detach _) as [s b]. cbn [fst] in Ht.
  unfold when. destruct b; [|by apply rtc_once]. eapply rtc_l; [exact Ht|]. exact (reacts_drop _ _ (with_session d s)).
Qed.

Lemma reacts_present te d : reacts (d_session d) (d_session (present_frame make te d)).
Proof.
  unfold present_frame. destruct (d_client d) as [c|]; [|done]. destruct (c_differ c); [|done].
  destruct (_ =? 0); [apply reacts_compose|done].
Qed.

Lemma reacts_stop te d : reacts (d_session d) (d_session (set_timer te (see_quit (see_restart te d)))).
Proof.
  assert (d_session (set_timer te (see_quit (see_restart te d))) = d_session (see_restart te d)) as ->.
  { unfold set_timer, see_quit. by destruct (quit _). }
  unfold see_restart. destruct (wants_update_restart _); [|done]. exact (reacts_drop _ _ (log {| d with d_listening := false |} [CloseListener])).
Qed.

Lemma reacts_after te d : reacts (d_session d) (d_session (after_events make te d)).
Proof.
  unfold after_events. rewrite <- (reacts_expire te d). generalize (expire_pending te d). intros d1.
  etrans; [apply (reacts_dirty te)|]. generalize (see_dirty te d1). intros d2.
  etrans; [apply (reacts_detach te)|]. generalize (see_detach te d2). intros d3.
  etrans; [apply (reacts_present te)|]. generalize (present_frame make te d3). intros d4. apply reacts_stop.
Qed.

(** The daemon is nothing but a way to run the session.  Whatever a turn of its loop
    meets -- events in any number, peers well formed or not, a client that leaves, is
    evicted or detached -- what happens to the session is a sequence of its own entry
    points: its invariants are those of its own histories. *)
Theorem daemon_runs_the_session te d : reacts (d_session d) (d_session (turn make grow shrink te d).1).
Proof.
  unfold turn. pose proof (reacts_before te d) as H1. destruct (before_wait make te d) as [d1 t]. cbn [fst] in H1.
  destruct (t_wait te) as [| |l]; [done|done|]. cbn [fst]. etrans; [exact H1|]. etrans; [|apply reacts_after]. clear H1.
  revert d1. induction l as [|ev l IH]; intros d1; [done|]. cbn [fold_left]. etrans; [apply reacts_event|apply IH].
Qed.

(** ** Sleeping through a check *)

Lemma reload_schedule w sv :
  let sv' := UpdateService.reload w sv in
  UpdateService.have_deadline sv' = UpdateService.have_deadline sv /\ UpdateService.deadline sv' = UpdateService.deadline sv /\
  UpdateService.loaded sv' = UpdateService.loaded sv /\ UpdateService.child sv' = UpdateService.child sv.
Proof.
  unfold UpdateService.reload. cbv zeta. repeat case_match; by split_and!.
Qed.

Lemma tick_waits w sv : let sv' := UpdateService.reload w sv in
  UpdateState.status (UpdateService.s_state sv') <> UpdateState.UpdatesDisabled -> UpdateService.updater_path sv' <> [] ->
  UpdateService.child sv < 0 -> UpdateService.loaded sv = true -> UpdateService.have_deadline sv = true ->
  UpdateService.steady w < UpdateService.deadline sv \/ (forall argv, UpdateService.spawn w argv <= 0) ->
  let r := UpdateService.tick w sv in UpdateService.have_deadline r.1 = true /\ UpdateService.child r.1 < 0.
Proof.
  cbv zeta. destruct (reload_schedule w sv) as (R1 & R2 & R3 & R4). intros Hst Hup Hch Hl Hh Hor. unfold UpdateService.tick. cbv zeta.
  set (sv1 := UpdateService.reload w sv) in *. rewrite (bool_decide_false _ Hst), (bool_decide_false _ Hup), R3, Hl, R1, Hh. cbn [orb negb].
  zrw_false (0 <? UpdateService.child sv1). cbn [orb].
  destruct (Z.leb_spec (UpdateService.deadline sv1) (UpdateService.steady w)) as [Hle|]; [|cbn [fst]; rewrite R1, R4; by split].
  destruct Hor as [|Hsp]; [lia|]. unfold UpdateService.launch. change (UpdateService.updater_path (UpdateService.with_deadline sv1 false _)) with (UpdateService.updater_path sv1).
  rewrite (bool_decide_false _ Hup). specialize (Hsp [UpdateService.updater_path sv1; str "--check"]).
  zrw_false (0 <? UpdateService.spawn w [UpdateService.updater_path sv1; str "--check"]).
  cbn [UpdateService.with_deadline UpdateService.child]. zrw_true (UpdateService.child sv1 <? 0). cbn [fst]. split; [done|]. cbn. lia.
Qed.

(** A desktop without a client sleeps through its daily check.  When less than a
    millisecond is left, the delay is 0 and the check is asked for at once; it is too
    early, nothing is launched, and the wait that follows has no end: with nobody
    attached, nothing wakes the loop for the check that is still due.  The same holds
    when the launch fails. *)
Theorem detached_check_is_slept_through te d :
  let sv := update_ (d_session d) in
  let w := e_world (t_at te AtTick) in
  d_client d = None -> d_pending d = None -> armed (d_session d) = false ->
  UpdateService.have_deadline sv = true -> UpdateService.loaded sv = true -> UpdateService.child sv < 0 ->
  UpdateService.deadline sv - UpdateService.steady (e_world (t_at te AtUpdate)) < 1000000 ->
  UpdateState.status (UpdateService.s_state (UpdateService.reload w sv)) <> UpdateState.UpdatesDisabled ->
  UpdateService.updater_path (UpdateService.reload w sv) <> [] ->
  UpdateService.steady w < UpdateService.deadline sv \/ (forall argv, UpdateService.spawn w argv <= 0) ->
  let '(d', t) := before_wait make te d in
  t = -1 /\ UpdateService.have_deadline (update_ (d_session d')) = true /\ UpdateService.child (update_ (d_session d')) < 0.
Proof.
  intros sv w Hc Hp Hldr Hh Hl Hch Hd Hst Hup Hor. unfold before_wait. cbv zeta.
  set (d0 := {| d with d_closed := [] |}).
  assert (exists b, settle_escape make te d0 = {| d0 with d_esc_armed := b |} /\ b = false) as (b & -> & ->).
  { exists false. split; [|done]. unfold settle_escape. change (d_client d0) with (d_client d). by rewrite Hc. }
  set (d1 := {| d0 with d_esc_armed := false |}).
  assert (show_timeout te d1 = -1) as ->.
  { unfold show_timeout, attached, help_delay_ms. change (d_client d1) with (d_client d). change (d_pending d1) with (d_pending d).
    change (d_session d1) with (d_session d). rewrite Hc, Hp, Hldr. done. }
  pose proof (tick_waits w sv Hst Hup Hch Hl Hh Hor) as [T1 T2]. fold w in T1, T2.
  unfold update_timeout, update_delay_ms, UpdateService.delay_ms. change (d_session d1) with (d_session d). fold sv. rewrite Hh. cbn [negb].
  assert (Z.quot (UpdateService.deadline sv - UpdateService.steady (e_world (t_at te AtUpdate))) 1000000 <= 0) as Hq.
  { set (x := UpdateService.deadline sv - _) in *. destruct (Z.le_gt_cases 0 x) as [Hx|Hx].
    - rewrite Z.quot_small by lia. lia.
    - pose proof (Z.quot_le_mono x 0 1000000 ltac:(lia) ltac:(lia)) as Hm. by rewrite Z.quot_0_l in Hm by lia. }
  apply Z.leb_le in Hq as ->. cbn [Z.leb Z.eqb Z.compare]. fold w.
  unfold refresh_timeout, attached, escape_timeout. subst d1 d0. fields. rewrite Hc. cbn [Z.leb Z.compare d_esc_armed]. split; [done|].
  unfold tick_update, refresh_update_modal. cbn [soil on_desk update_]. destruct (_ || _); cbn [svc update_]; by split.
Qed.

(** ** A frame that cannot be sent *)

Lemma send_nothing answers ceiling o : let q := OutQueue.OutQueue [] 0 ceiling o in send answers q = (q, [], true).
Proof.
  cbv zeta. unfold send. generalize (kernel answers (zlen (OutQueue.pending (OutQueue.OutQueue [] 0 ceiling o)))). by intros [|a l].
Qed.

(** A frame larger than the queue is never sent, and never given up.  If the repaint
    of the desktop does not fit in the queue of the client, even empty, the composition
    drops it, forgets what the client shows and asks for a frame again, with not one byte
    on the wire: the queue and the differ are again as the next composition needs them
    to do the same. *)
Theorem oversized_frame_never_leaves te d c df :
  let r := render make amb (t_at te AtRender) (d_session d) (d_screen d) in
  let df1 := if repaint r.1 then Differ.invalidate df else df in
  let ansi := (Differ.frame df1 r.2 (s_cursor r.1)).1 in
  c_differ c = Some df -> OutQueue.q_buf (c_out c) = [] -> OutQueue.q_off (c_out c) = 0%nat -> OutQueue.q_overflow (c_out c) = OutQueue.ONone ->
  ansi <> [] -> OutQueue.q_ceiling (c_out c) < zlen (Proto.encode (Proto.MFrame ansi)) ->
  let d' := compose make te d c df in
  exists c' df', d_client d' = Some c' /\ c_key c' = c_key c /\ c_differ c' = Some df' /\ Differ.d_valid df' = false /\
    c_out c' = c_out c /\ FrameClock.dirty (d_clock d') = true /\ wire (c_key c) (d_log d') = wire (c_key c) (d_log d).
Proof.
  intros r df1 ansi Hdf Hb Ho Hov Hne Hbig. unfold compose. cbv zeta. fold r. clearbody r. destruct r as [s1 sf1]. cbn [fst snd] in *.
  unfold take_repaint. fold df1. set (s2 := {| s1 with repaint := false |}). change (s_cursor s2) with (s_cursor s1).
  destruct (Differ.frame df1 sf1 (s_cursor s1)) as [a df2] eqn:Ef. subst ansi. cbn [fst] in *. rewrite (bool_decide_false _ Hne).
  assert (OutQueue.push (c_out c) (Proto.encode (Proto.MFrame a)) = OutQueue.OutQueue [] 0 (OutQueue.q_ceiling (c_out c)) OutQueue.OClean) as Hp.
  { unfold OutQueue.push, OutQueue.size. rewrite Hb, Ho, Hov. cbn [length zlen Z.of_nat]. rewrite (@zlen_nil Z).
    zrw_true (OutQueue.q_ceiling (c_out c) - (0 - Z.of_nat 0) <? zlen (Proto.encode (Proto.MFrame a))). done. }
  unfold push. cbn [with_out c_out]. rewrite Hp. cbn [OutQueue.take_overflow OutQueue.q_overflow OutQueue.q_buf OutQueue.q_off OutQueue.q_ceiling].
  unfold flush_client. cbn [with_out invalidate_differ c_out c_key c_differ]. rewrite send_nothing. cbn [negb].
  set (q := OutQueue.OutQueue [] 0 (OutQueue.q_ceiling (c_out c)) OutQueue.ONone).
  assert (c_out c = q) as Eq by (subst q; destruct (c_out c); cbn in *; congruence).
  eexists _, (Differ.invalidate df2). split; [reflexivity|]. cbn [c_key c_differ c_out with_out]. split_and!; try done.
  unfold when. change (OutQueue.wants_write q) with false. fields. rewrite !wire_app. unfold wire at 2 3. cbn. by rewrite Z.eqb_refl, !app_nil_r.
Qed.

End Loop.

(** ** Witnesses *)

Abbreviation demo_grow := (fun _ n : Z => n).
Abbreviation demo_shrink := (fun _ : Z => 0).

Lemma only_a_greeting_evicts_witness :
  let hi := Proto.MHello (Proto.Hello Proto.kBuildId 80 24 [] [] true []) in
  let ev bs := plain_event 16 (Z.lor EPOLLIN EPOLLHUP) [Data bs; Eof] Empty in
  let d := handle_event demo_make demo_grow demo_shrink demo_daemon (plain_event kGenListener EPOLLIN [] Accepted) in
  undisturbed d (handle_event demo_make demo_grow demo_shrink d (ev (Proto.encode (Proto.MInput (str "q"))))) /\
  exists p hl, d_pending d = Some p /\ takes_place p hl d (handle_event demo_make demo_grow demo_shrink d (ev (Proto.encode hi))).
Proof.
  intros hi ev d.
  assert (forall bs, is_key (ev_key (ev bs)) (d_client d) = false) as H1 by (intros bs; by vm_compute).
  assert (forall bs, is_key (ev_key (ev bs)) (d_pending d) = true) as H2 by (intros bs; by vm_compute).
  assert (forall bs, kGenFirstDynamic <= ev_key (ev bs)) as H3 by (intros bs; by vm_compute).
  split.
  - set (e := ev _). pose proof (proj2 (only_a_greeting_evicts demo_make demo_grow demo_shrink e d (H1 _)) (H2 _) (H3 _)) as H.
    assert (greeting demo_grow demo_shrink e d = None) as E by (by vm_compute). rewrite E in H. exact H.
  - set (e := ev _). pose proof (proj2 (only_a_greeting_evicts demo_make demo_grow demo_shrink e d (H1 _)) (H2 _) (H3 _)) as H.
    assert (is_Some (greeting demo_grow demo_shrink e d)) as [hl E] by (vm_compute; by eexists). rewrite E in H.
    destruct H as (p & E1 & H). exists p, hl. split; [exact E1|exact H].
Defined.

Lemma late_event_is_nobodys_witness :
  let ev := plain_event 20 EPOLLIN [Data (str "x")] Empty in
  handle_event demo_make demo_grow demo_shrink demo_daemon ev = demo_daemon.
Proof.
  intros ev. apply (late_event_is_nobodys demo_make demo_grow demo_shrink ev demo_daemon); [apply new_ok|done|by vm_compute|done|done].
Defined.

Lemma reading_loops_end_witness :
  let x := Proto.feed demo_grow demo_shrink Proto.decoder_init (Proto.encode (Proto.MInput (str "ab"))) in
  let p := InputParser.feed InputParser.input_new (str "ab") in
  Acc (read_step demo_shrink) x /\ Acc event_step p /\
  (forall fuel, (length (Proto.buf x) < fuel)%nat -> Proto.drain demo_shrink fuel x = messages demo_shrink x) /\
  InputParser.ready (type_in demo_make (fun _ => demo_env 1) p demo_new).1 = [].
Proof.
  intros x p. apply (reading_loops_end demo_make demo_shrink x p (fun _ => demo_env 1) demo_new).
  split; [apply Nat.le_0_l|]. split; [by vm_compute|left; by vm_compute].
Defined.

(** An installation under /opt whose check is due in half a millisecond, with no client. *)
Definition sleepy_world (t : Z) : UpdateService.world :=
  UpdateService.World 100000 t (str "schema=1" ++ [10] ++ str "prefix=/opt" ++ [10] ++ str "status=uptodate")
    (fun _ => false) (fun _ => true) (fun _ => 77).
Definition sleepy_env (t : Z) : env := let e := demo_env 0 in
  Env (sleepy_world t) (e_answers e) (e_time e) (e_date e) (e_ms e) (e_proc e).
Definition sleepy_service : UpdateService.update_service :=
  (UpdateService.tick (sleepy_world 0) UpdateService.service_new).1.
Definition sleepy_due : Z := UpdateService.deadline sleepy_service.
Definition sleepy_daemon : daemon toy :=
  let s := demo_new in with_session demo_daemon {| s with update_ := sleepy_service |}.
Definition sleepy_turn : turn_env := TurnEnv (fun _ => sleepy_env (sleepy_due - 500000)) (WaitEvents []) [] [] [].

Lemma detached_check_is_slept_through_witness :
  let '(d', t) := before_wait demo_make sleepy_turn sleepy_daemon in
  t = -1 /\ UpdateService.have_deadline (update_ (d_session d')) = true /\ UpdateService.child (update_ (d_session d')) < 0.
Proof.
  apply (detached_check_is_slept_through demo_make sleepy_turn sleepy_daemon); try (by vm_compute). left. by vm_compute.
Defined.

(** A queue of ten bytes, a terminal of 12 by 4. *)
Definition narrow_differ : Differ.differ := Differ.differ_new (Profile.OutputProfile Profile.Indexed256 true).
Definition narrow_daemon : daemon toy := let d := demo_daemon in {| d with d_screen := resize 12 4 |}.

Lemma oversized_frame_never_leaves_witness :
  let c := {| c_key := 16; c_dec := Proto.decoder_init; c_input := InputParser.input_new;
    c_out := OutQueue.outqueue_new 10; c_differ := Some narrow_differ; c_cols := 12; c_rows := 4 |} in
  let d' := compose demo_make demo_turn narrow_daemon c narrow_differ in
  exists c' df', d_client d' = Some c' /\ c_key c' = c_key c /\ c_differ c' = Some df' /\ Differ.d_valid df' = false /\
    c_out c' = c_out c /\ FrameClock.dirty (d_clock d') = true /\ wire (c_key c) (d_log d') = wire (c_key c) (d_log narrow_daemon).
Proof.
  intros c. pose proof (oversized_frame_never_leaves demo_make demo_turn narrow_daemon c narrow_differ eq_refl eq_refl eq_refl eq_refl) as Hf.
  cbv zeta in Hf |- *. apply Hf.
  - intros E. apply (f_equal (@length Z)) in E. by vm_compute in E.
  - by vm_compute.
Defined.
