(* ===== verification/Syscalls.v ===== *)
(** * The operating system, as the applications call it

    The system is a function of everything it was asked before: [answer h q] is what it
    replies to the request [q] after the history [h].  Nothing is supposed of it -- it
    may lie, forget, fail at will --, except where a theorem says so.  A program is a
    function of the history that gives a result and the history it leaves, in which each
    request stands with its reply: what a program does to the disk is read there.

    A call that a signal interrupts is made again by the code; its last reply is the one
    recorded.  An answer of another kind than the one a call has reads as an error. *)

From S2P Require Import Prelude.

(** [S_ISDIR], [S_ISREG], [S_ISLNK] of [st_mode], the permissions, and what [struct
    stat] says else. *)
Inductive file_type := TDir | TReg | TLink | TOther.
Record stat := Stat { st_type : file_type; st_perm : Z; st_size : Z; st_mtime : Z }.

#[export] Instance file_type_eq_dec : EqDecision file_type. Proof. solve_decision. Defined.
#[export] Instance stat_eq_dec : EqDecision stat. Proof. solve_decision. Defined.

(** What a guest is launched with: everything is decided before the fork, and the child
    only follows it, on the terminal of that name. *)
Record launch := Launch { l_path : bytes; l_argv : list bytes; l_env : list bytes; l_cwd : bytes; l_cols : Z; l_rows : Z }.
#[export] Instance launch_eq_dec : EqDecision launch. Proof. solve_decision. Defined.

Inductive request :=
  | QLstat (p : bytes) | QStat (p : bytes)
  | QReadDir (p : bytes)                        (* [opendir], every [readdir], [closedir] *)
  | QReadLink (p : bytes) (room : Z)
  | QMkdir (p : bytes) (mode : Z) | QRmdir (p : bytes) | QUnlink (p : bytes) | QRename (p q : bytes)
  | QOpenRead (p : bytes)                       (* [O_RDONLY] *)
  | QOpenNew (p : bytes) (mode : Z)             (* [O_WRONLY | O_CREAT | O_EXCL] *)
  | QOpenTrunc (p : bytes) (mode : Z)           (* [O_WRONLY | O_CREAT | O_TRUNC] *)
  | QRead (fd n : Z) | QWrite (fd : Z) (bs : bytes) | QClose (fd : Z)
  (* A pseudo-terminal, and the process in it. *)
  | QOpenPt | QGrantPt (fd : Z) | QUnlockPt (fd : Z) | QPtsName (fd : Z) | QPipe
  | QFork (s : launch) (name : bytes) (report : Z)
  | QWinsize (fd cols rows : Z)
  | QKill (group sig : Z)
  | QWait (pid : Z) (hang : bool)               (* [waitpid], without [WNOHANG] or with it *)
  (* A client of the daemon, on the terminal of its user. *)
  | QSocket | QConnect (fd : Z) (name : bytes) | QBlocking (fd : Z)
  | QClock | QSleep (ms : Z)
  | QTcGet (fd : Z) | QTcRaw (fd : Z) | QTcRestore (fd : Z)
  | QResized                                    (* was there a [SIGWINCH] since this was asked *)
  | QWinsizeOf (fd : Z)
  | QPoll (fd1 fd2 : Z).                        (* [POLLIN] on both, without end *)

(** A directory entry: its name, and [d_type] where the file system says it. *)
Record dirent := Dirent { d_name : bytes; d_type : option file_type }.

(** What [waitpid] says of the end of a child. *)
Inductive wait_status := WExited (c : Z) | WSignaled (sig : Z) | WOther.
#[export] Instance wait_status_eq_dec : EqDecision wait_status. Proof. solve_decision. Defined.

Inductive reply :=
  | ROk | RErr (errno : Z) | RCount (n : Z) | RBytes (bs : bytes) | RStat (st : stat) | RNames (l : list dirent)
  | RPair (a b : Z) | RWait (got : Z) (st : wait_status).

#[export] Instance dirent_eq_dec : EqDecision dirent. Proof. solve_decision. Defined.
#[export] Instance request_eq_dec : EqDecision request. Proof. solve_decision. Defined.
#[export] Instance reply_eq_dec : EqDecision reply. Proof. solve_decision. Defined.

Record event := Event { ev_q : request; ev_r : reply }.
Abbreviation history := (list event).

#[export] Instance event_eq_dec : EqDecision event. Proof. solve_decision. Defined.

Definition EIO : Z := 5.
Definition EEXIST : Z := 17.

(** What the C library and the accounts of the machine answer, beside the calls. *)
Class System := {
  answer : history -> request -> reply;
  strerror : Z -> bytes;
  home_of_user : option bytes;                  (* [getpwuid(getuid())], [pw_dir] *)
  shell_of_user : option bytes;                 (* the same, [pw_shell] *)
  environ : list bytes;
  localdate : Z -> option (Z * Z * Z);          (* [localtime_r]: day, month from 0, year since 1900 *)
}.

(** ** Programs *)

Definition io (A : Type) : Type := history -> A * history.
Definition ret {A} (a : A) : io A := fun h => (a, h).
Definition bind {A B} (m : io A) (f : A -> io B) : io B := fun h => let '(a, h) := m h in f a h.

Declare Scope io_scope.
Delimit Scope io_scope with io.
Notation "'let!' x := m 'in' k" := (bind m (fun x => k)) (at level 10, x pattern, k at level 200) : io_scope.
Notation "m ';!' k" := (bind m (fun _ => k)) (at level 199, right associativity) : io_scope.
Open Scope io_scope.

Inductive result (A : Type) := Done (a : A) | Error (errno : Z).
Arguments Done {A}.
Arguments Error {A}.

Section Calls.
Context `{System}.

Definition call (q : request) : io reply := fun h => let r := answer h q in (r, h ++ [Event q r]).

Definition errno_of (r : reply) : Z := match r with RErr e => e | _ => EIO end.

(** A call that only succeeds or fails. *)
Definition attempt (q : request) : io (result unit) :=
  let! r := call q in ret (match r with ROk => Done tt | _ => Error (errno_of r) end).

Definition sys_lstat (p : bytes) : io (result stat) :=
  let! r := call (QLstat p) in ret (match r with RStat st => Done st | _ => Error (errno_of r) end).
Definition sys_stat (p : bytes) : io (result stat) :=
  let! r := call (QStat p) in ret (match r with RStat st => Done st | _ => Error (errno_of r) end).
Definition sys_readdir (p : bytes) : io (result (list dirent)) :=
  let! r := call (QReadDir p) in ret (match r with RNames l => Done l | _ => Error (errno_of r) end).
Definition sys_readlink (p : bytes) (room : Z) : io bytes :=
  let! r := call (QReadLink p room) in ret (match r with RBytes bs => take (Z.to_nat room) bs | _ => [] end).

(** A descriptor is not negative. *)
Definition descriptor (r : reply) : result Z :=
  match r with RCount n => if 0 <=? n then Done n else Error EIO | _ => Error (errno_of r) end.
Definition sys_open (q : request) : io (result Z) := let! r := call q in ret (descriptor r).

(** [read] gives at most what it was asked; no byte is the end. *)
Definition delivered (n : Z) (r : reply) : result bytes :=
  match r with RBytes bs => Done (take (Z.to_nat n) bs) | _ => Error (errno_of r) end.
Definition sys_read (fd n : Z) : io (result bytes) := let! r := call (QRead fd n) in ret (delivered n r).

(** [write] takes one byte at least, if there is one, and at most what it is given. *)
Definition sys_write (fd : Z) (bs : bytes) : io (result Z) :=
  let! r := call (QWrite fd bs) in
  ret (match r with RCount n => if (0 <? n) || (bool_decide (bs = []) && (n =? 0)) then Done (Z.min n (zlen bs)) else Error EIO | _ => Error (errno_of r) end).

Definition sys_close (fd : Z) : io unit := let! _ := call (QClose fd) in ret tt.

End Calls.

Lemma bind_run {A B} (m : io A) (f : A -> io B) h a h' : m h = (a, h') -> bind m f h = f a h'.
Proof. intros E. unfold bind. by rewrite E. Qed.

Lemma reply_run `{System} {A} q (f : reply -> A) h :
  (let! r := call q in ret (f r)) h = (f (answer h q), h ++ [Event q (answer h q)]).
Proof. done. Qed.

Lemma open_run `{System} q h : sys_open q h = (descriptor (answer h q), h ++ [Event q (answer h q)]).
Proof. done. Qed.

Lemma read_run `{System} fd n h : sys_read fd n h = (delivered n (answer h (QRead fd n)), h ++ [Event (QRead fd n) (answer h (QRead fd n))]).
Proof. done. Qed.

Lemma descriptor_done r n : descriptor r = Done n -> r = RCount n /\ 0 <= n.
Proof. destruct r; try done. cbn. destruct (Z.leb_spec 0 n0); [|done]. by intros [= <-]. Qed.

(** ** Reasoning on what was asked

    [trace P m Q]: when the requests [l] made since some moment satisfy [P], running [m]
    gives a result and a longer list of requests that satisfy [Q]. *)
Definition trace {A} (P : history -> Prop) (m : io A) (Q : A -> history -> Prop) : Prop :=
  forall h l, P l -> exists l', (m (h ++ l)).2 = h ++ l' /\ Q (m (h ++ l)).1 l'.

(** Every request satisfies [P], given what was asked before it. *)
Definition each (P : history -> request -> Prop) (l : history) : Prop := forall l1 q r l2, l = l1 ++ Event q r :: l2 -> P l1 q.

Lemma each_nil P : each P [].
Proof. intros l1 q r l2 E. by destruct l1. Qed.

Lemma each_snoc P l q r : each P l -> P l q -> each P (l ++ [Event q r]).
Proof.
  intros Hl Hq l1 q1 r1 l2 E. destruct (List.exists_last (l := Event q1 r1 :: l2)) as (l3 & e & E3); [done|].
  rewrite E3, app_assoc in E. apply app_inj_tail in E as [-> <-]. destruct l3 as [|x l3]; cbn in E3.
  - injection E3 as -> -> ->. by rewrite app_nil_r in Hq.
  - injection E3 as <- E3. by apply (Hl l1 q1 r1 l3).
Qed.

Section Trace.
Implicit Types P : history -> Prop.

Lemma trace_ret {A} (a : A) P (Q : A -> history -> Prop) : (forall l, P l -> Q a l) -> trace P (ret a) Q.
Proof. intros Hp h l Hl. exists l. split; [done|]. by apply Hp. Qed.

Lemma trace_bind {A B} (m : io A) (f : A -> io B) P R Q :
  trace P m R -> (forall a, trace (R a) (f a) Q) -> trace P (bind m f) Q.
Proof.
  intros Hm Hf h l Hl. destruct (Hm h l Hl) as (l1 & E & Hr). unfold bind. destruct (m (h ++ l)) as [a h1]. cbn [fst snd] in *.
  subst h1. by apply Hf.
Qed.

Lemma trace_then {A B} (m : io A) (k : io B) P (R : history -> Prop) Q :
  trace P m (fun _ => R) -> trace R k Q -> trace P (bind m (fun _ => k)) Q.
Proof. intros Hm Hk. by apply (trace_bind m _ P (fun _ => R)). Qed.

Lemma trace_given {A} (F : Prop) (m : io A) P (Q : A -> history -> Prop) :
  (forall l, P l -> F) -> (F -> trace P m Q) -> trace P m Q.
Proof. intros Hf Hm h l Hl. by apply Hm; [eapply Hf|]. Qed.

Lemma trace_weaken {A} (m : io A) P P' (Q Q' : A -> history -> Prop) :
  trace P m Q -> (forall l, P' l -> P l) -> (forall a l, Q a l -> Q' a l) -> trace P' m Q'.
Proof. intros Hm Hp Hq h l Hl. destruct (Hm h l (Hp l Hl)) as (l' & E & Hr). exists l'. split; [done|]. by apply Hq. Qed.

Context `{System}.

Lemma trace_call (q : request) P (Q : reply -> history -> Prop) :
  (forall r l, P l -> Q r (l ++ [Event q r])) -> trace P (call q) Q.
Proof. intros Hq h l Hl. exists (l ++ [Event q (answer (h ++ l) q)]). split; [cbn; by rewrite app_assoc|]. by apply Hq. Qed.

(** A call, and what the code reads of its reply. *)
Lemma trace_reply {A} (q : request) (f : reply -> A) P (Q : A -> history -> Prop) :
  (forall r l, P l -> Q (f r) (l ++ [Event q r])) -> trace P (let! r := call q in ret (f r)) Q.
Proof.
  intros Hq. eapply trace_bind; [apply (trace_call q P (fun r l' => exists l, P l /\ l' = l ++ [Event q r])); by eauto|].
  intros r. apply trace_ret. intros l' (l & Hl & ->). by apply Hq.
Qed.
End Trace.
