(* ===== verification/Dir.v ===== *)
(** * A directory as the files application shows it: [src/apps/files/dir.hpp], [src/apps/files/dir.cpp]

    Read in one pass, sorted, filtered in memory; the paths.  The comparison of two
    entries is shown to be a strict total order on entries of different names, so the
    list the user sees is determined by what the disk holds and nothing else. *)

From stdpp Require Import sorting.
From S2P Require Import Prelude StdString Syscalls.

Inductive entry_kind := KDir | KFile | KLink | KOther.
#[export] Instance entry_kind_eq_dec : EqDecision entry_kind. Proof. solve_decision. Defined.

Record dir_entry := DirEntry { name : bytes; kind : entry_kind; size : Z; mtime : Z; links_to_dir : bool }.
#[export] Instance dir_entry_eq_dec : EqDecision dir_entry. Proof. solve_decision. Defined.

Inductive sort_by := SortName | SortSize | SortTime.
#[export] Instance sort_by_eq_dec : EqDecision sort_by. Proof. solve_decision. Defined.

Record dir_listing := DirListing { path : bytes; entries : list dir_entry; error : bytes }.

Definition kParent : bytes := [46; 46].
Definition slash : Z := 47.

(** [char] is signed: the bytes of a multibyte character come before those of ASCII. *)
Definition char_of (b : Z) : Z := if b <? 128 then b else b - 256.

Definition fold (c : Z) : Z := if (65 <=? c) && (c <=? 90) then c - 65 + 97 else c.

Fixpoint compare_folded (a b : bytes) : Z :=
  match a, b with
  | [], [] => 0
  | [], _ :: _ => -1
  | _ :: _, [] => 1
  | x :: a, y :: b =>
      let ca := char_of (fold x) in
      let cb := char_of (fold y) in
      if ca =? cb then compare_folded a b else if ca <? cb then -1 else 1
  end.

(** [operator<] of [std::string]: by [unsigned char]. *)
Fixpoint string_less (a b : bytes) : bool :=
  match a, b with
  | _, [] => false
  | [], _ :: _ => true
  | x :: a, y :: b => if x =? y then string_less a b else x <? y
  end.

Definition is_dir_like (e : dir_entry) : bool := bool_decide (kind e = KDir) || links_to_dir e.

(** ** Paths *)

Fixpoint strip_slashes_rev (r : bytes) : bytes :=
  match r with
  | [] => []
  | c :: r' => match r' with [] => r | _ => if c =? slash then strip_slashes_rev r' else r end
  end.

(** [while (p.size() > 1 && p.back() == '/') p.pop_back()] *)
Definition strip_slashes (p : bytes) : bytes := rev (strip_slashes_rev (rev p)).

Fixpoint rfind_from (c : Z) (p : bytes) (i : nat) (found : option nat) : option nat :=
  match p with [] => found | x :: p => rfind_from c p (S i) (if x =? c then Some i else found) end.
Definition rfind (c : Z) (p : bytes) : option nat := rfind_from c p 0 None.

Definition parent_path (p : bytes) : bytes :=
  let p := strip_slashes p in
  match rfind slash p with
  | None => [slash]
  | Some O => [slash]
  | Some cut => take cut p
  end.

Definition join_path (dir nm : bytes) : bytes :=
  match rev dir with
  | [] => nm
  | c :: _ => if c =? slash then dir ++ nm else dir ++ [slash] ++ nm
  end.

(** ** Reading *)

Section Read.
Context `{System}.

Definition kind_of_type (t : file_type) : entry_kind :=
  match t with TLink => KLink | TDir => KDir | TReg => KFile | TOther => KOther end.

(** [d_type] saves a call where the file system fills it. *)
Definition kind_of (full : bytes) (d : option file_type) : io entry_kind :=
  match d with
  | Some t => ret (kind_of_type t)
  | None =>
      let! r := sys_lstat full in
      ret (match r with Done st => kind_of_type (st_type st) | Error _ => KOther end)
  end.

Definition entry_of (p : bytes) (e : dirent) : io dir_entry :=
  let full := join_path p (d_name e) in
  let! k := kind_of full (d_type e) in
  let! r := sys_stat full in
  ret (match r with
       | Done st =>
           let dir := bool_decide (st_type st = TDir) in
           DirEntry (d_name e) k (if dir then 0 else st_size st mod 2 ^ 64) (st_mtime st mod 2 ^ 64) (bool_decide (k = KLink) && dir)
       | Error _ => DirEntry (d_name e) k 0 0 false
       end).

Definition is_dots (nm : bytes) : bool := bool_decide (nm = [46]) || bool_decide (nm = kParent).

Definition shown (show_hidden : bool) (nm : bytes) : bool :=
  negb (is_dots nm) && (show_hidden || negb (match nm with c :: _ => c =? 46 | [] => false end)).

Fixpoint read_entries (p : bytes) (show_hidden : bool) (l : list dirent) : io (list dir_entry) :=
  match l with
  | [] => ret []
  | e :: l =>
      if shown show_hidden (d_name e) then
        let! x := entry_of p e in
        let! r := read_entries p show_hidden l in
        ret (x :: r)
      else read_entries p show_hidden l
  end.

End Read.

(** ** Sorting *)

(** The comparison of [sort_entries]. *)
Definition before (by_ : sort_by) (descending : bool) (a b : dir_entry) : bool :=
  let pa := bool_decide (name a = kParent) in
  let pb := bool_decide (name b = kParent) in
  if negb (eqb pa pb) then pa
  else
    let da := is_dir_like a in
    let db := is_dir_like b in
    if negb (eqb da db) then da
    else if bool_decide (by_ = SortSize) && negb (size a =? size b)
    then if descending then size b <? size a else size a <? size b
    else if bool_decide (by_ = SortTime) && negb (mtime a =? mtime b)
    then if descending then mtime b <? mtime a else mtime a <? mtime b
    else
      let c := compare_folded (name a) (name b) in
      let down := bool_decide (by_ = SortName) && descending in
      if negb (c =? 0) then if down then 0 <? c else c <? 0
      else if down then string_less (name b) (name a) else string_less (name a) (name b).

(** [std::stable_sort], by insertion: each entry goes before the first that must come
    after it, from the last entry to the first. *)
Fixpoint insert_entry (lt : dir_entry -> dir_entry -> bool) (x : dir_entry) (l : list dir_entry) : list dir_entry :=
  match l with
  | [] => [x]
  | y :: l' => if lt y x then y :: insert_entry lt x l' else x :: l
  end.

Definition sort_entries (l : list dir_entry) (by_ : sort_by) (descending : bool) : list dir_entry :=
  List.fold_right (insert_entry (before by_ descending)) [] l.

Definition filter_entries (l : list dir_entry) (needle : bytes) : list dir_entry :=
  if bool_decide (needle = []) then l
  else
    let folded_needle := fold <$> needle in
    List.filter (fun e => bool_decide (name e = kParent) ||
                     match find_from (fold <$> name e) folded_needle 0 with Some _ => true | None => false end) l.

Definition read_dir `{System} (p : bytes) (show_hidden : bool) : io dir_listing :=
  let! r := sys_readdir p in
  match r with
  | Error e => ret (DirListing p [] (str "lecture impossible : " ++ strerror e))
  | Done l =>
      let up := if bool_decide (p = [slash]) then [] else [DirEntry kParent KDir 0 0 false] in
      let! es := read_entries p show_hidden l in
      ret (DirListing p (sort_entries (up ++ es) SortName false) [])
  end.

(** ** Comparators *)

(** A comparison that orders: reversing it opposes it, it is transitive, and what it
    does not separate compares alike. *)
Record comparator {A} (c : A -> A -> comparison) : Prop := {
  cmp_opp : forall a b, c b a = CompOpp (c a b);
  cmp_trans : forall a b d, c a b = Lt -> c b d = Lt -> c a d = Lt;
  cmp_same : forall a b d, c a b = Eq -> c a d = c b d;
}.

Definition then_by {A} (c1 c2 : A -> A -> comparison) (a b : A) : comparison :=
  match c1 a b with Eq => c2 a b | r => r end.

Lemma comparator_then {A} (c1 c2 : A -> A -> comparison) :
  comparator c1 -> comparator c2 -> comparator (then_by c1 c2).
Proof.
  intros [O1 T1 S1] [O2 T2 S2]. split; unfold then_by.
  - intros a b. rewrite (O1 a b). destruct (c1 a b); [apply O2|done|done].
  - intros a b d. destruct (c1 a b) eqn:E1; [|intros _|done].
    + rewrite (S1 _ _ d E1). destruct (c1 b d); [apply T2|done|done].
    + destruct (c1 b d) eqn:E2; [intros _|intros _|done].
      * assert (c1 a d = Lt) as ->; [|done]. pose proof (S1 d b a) as Hs. rewrite (O1 b d), E2 in Hs. specialize (Hs eq_refl).
        rewrite (O1 d a), Hs, (O1 a b), E1. done.
      * by rewrite (T1 _ _ _ E1 E2).
  - intros a b d. destruct (c1 a b) eqn:E1; [intros E2|done|done]. rewrite (S1 _ _ d E1). destruct (c1 b d); [by apply S2|done|done].
Qed.

Lemma comparator_opp {A} (c : A -> A -> comparison) : comparator c -> comparator (fun a b => c b a).
Proof.
  intros [O T S]. split; intros a b.
  - apply O.
  - intros d H1 H2. by eapply T.
  - intros d E. rewrite (O a d), (O b d). f_equal. apply S. by rewrite O, E.
Qed.

Lemma comparator_on {A B} (f : A -> B) c : comparator c -> comparator (fun a b => c (f a) (f b)).
Proof. intros [O T S]. split; intros a b; [apply O|intros d; apply T|intros d; apply S]. Qed.

Lemma comparator_Z : comparator Z.compare.
Proof.
  split; intros a b.
  - apply Z.compare_antisym.
  - intros d H1 H2. rewrite Z.compare_lt_iff in *. lia.
  - intros d E%Z.compare_eq_iff. by subst.
Qed.

(** The order of words. *)
Fixpoint words (a b : list Z) : comparison :=
  match a, b with
  | [], [] => Eq
  | [], _ => Lt
  | _, [] => Gt
  | x :: a, y :: b => match x ?= y with Eq => words a b | r => r end
  end.

Lemma words_eq a b : words a b = Eq -> a = b.
Proof.
  revert b. induction a as [|x a IH]; intros [|y b]; [done|done|done|]. cbn. destruct (x ?= y) eqn:E; [|done|done].
  apply Z.compare_eq_iff in E as ->. intros Hw. by rewrite (IH b Hw).
Qed.

Lemma words_refl a : words a a = Eq.
Proof. induction a as [|x a IH]; [done|]. cbn. by rewrite Z.compare_refl. Qed.

Lemma comparator_words : comparator words.
Proof.
  split.
  - intros a. induction a as [|x a IH]; intros [|y b]; [done|done|done|]. cbn. rewrite (Z.compare_antisym x y).
    destruct (x ?= y); [apply IH|done|done].
  - intros a. induction a as [|x a IH]; intros [|y b] [|z d]; try done. cbn.
    destruct (Z.compare_spec x y), (Z.compare_spec y z), (Z.compare_spec x z); subst; try lia; try done. apply IH.
  - intros a b d E. by rewrite (words_eq _ _ E).
Qed.

Lemma string_less_words a b : string_less a b = match words a b with Lt => true | _ => false end.
Proof.
  revert b. induction a as [|x a IH]; intros [|y b]; [done|done|done|]. cbn. rewrite IH.
  destruct (Z.compare_spec x y); [subst; by rewrite Z.eqb_refl|..].
  - zrw_false (x =? y). by apply Z.ltb_lt.
  - zrw_false (x =? y). apply Z.ltb_ge. lia.
Qed.

Definition folded (nm : bytes) : list Z := (fun x => char_of (fold x)) <$> nm.

Lemma compare_folded_words a b :
  compare_folded a b = match words (folded a) (folded b) with Eq => 0 | Lt => -1 | Gt => 1 end.
Proof.
  revert b. induction a as [|x a IH]; intros [|y b]; [done|done|done|]. cbn [compare_folded folded fmap list_fmap words]. rewrite IH.
  destruct (Z.compare_spec (char_of (fold x)) (char_of (fold y))) as [E|E|E].
  - by rewrite E, Z.eqb_refl.
  - zrw_false (char_of (fold x) =? char_of (fold y)). by zrw_true (char_of (fold x) <? char_of (fold y)).
  - zrw_false (char_of (fold x) =? char_of (fold y)). by zrw_false (char_of (fold x) <? char_of (fold y)).
Qed.

(** ** The order of the list *)

Definition rank (b : bool) : Z := if b then 0 else 1.

Definition by_key (by_ : sort_by) (e : dir_entry) : Z :=
  match by_ with SortName => 0 | SortSize => size e | SortTime => mtime e end.

Definition turned (down : bool) {A} (c : A -> A -> comparison) (a b : A) : comparison := if down then c b a else c a b.

(** The comparison as the comments describe it: the way out, the directories, the key
    asked for, then the names without case, then the names. *)
Definition order (by_ : sort_by) (descending : bool) : dir_entry -> dir_entry -> comparison :=
  let down := bool_decide (by_ = SortName) && descending in
  then_by (fun a b => rank (bool_decide (name a = kParent)) ?= rank (bool_decide (name b = kParent)))
  (then_by (fun a b => rank (is_dir_like a) ?= rank (is_dir_like b))
  (then_by (turned descending (fun a b => by_key by_ a ?= by_key by_ b))
  (then_by (turned down (fun a b => words (folded (name a)) (folded (name b))))
     (turned down (fun a b => words (name a) (name b)))))).

Lemma comparator_turned down {A} (c : A -> A -> comparison) : comparator c -> comparator (turned down c).
Proof. intros Hc. destruct down; [apply (comparator_opp _ Hc)|exact Hc]. Qed.

Lemma comparator_order by_ descending : comparator (order by_ descending).
Proof.
  unfold order. repeat apply comparator_then.
  - apply (comparator_on (fun e => rank (bool_decide (name e = kParent))) _ comparator_Z).
  - apply (comparator_on (fun e => rank (is_dir_like e)) _ comparator_Z).
  - apply comparator_turned, (comparator_on (by_key by_) _ comparator_Z).
  - apply comparator_turned, (comparator_on (fun e => folded (name e)) _ comparator_words).
  - apply comparator_turned, (comparator_on name _ comparator_words).
Qed.

Lemma then_by_eq {A} (c1 c2 : A -> A -> comparison) a b : then_by c1 c2 a b = Eq -> c2 a b = Eq.
Proof. unfold then_by. by destruct (c1 a b). Qed.

Lemma order_eq by_ descending a b : order by_ descending a b = Eq -> name a = name b.
Proof.
  intros E. unfold order in E. do 4 apply then_by_eq in E. revert E. unfold turned. destruct (_ && _); intros E; by apply words_eq in E.
Qed.

Lemma Zltb_compare x y : (x <? y) = match x ?= y with Lt => true | _ => false end.
Proof. unfold Z.ltb. by destruct (x ?= y). Qed.

Lemma Zeqb_compare x y : (x =? y) = match x ?= y with Eq => true | _ => false end.
Proof. destruct (Z.compare_spec x y); [by apply Z.eqb_eq|apply Z.eqb_neq; lia..]. Qed.

Lemma before_order by_ descending a b :
  before by_ descending a b = match order by_ descending a b with Lt => true | _ => false end.
Proof.
  unfold before, order, then_by, turned, rank.
  destruct (bool_decide (name a = kParent)), (bool_decide (name b = kParent)); try done; cbn [negb eqb Z.compare];
    destruct (is_dir_like a), (is_dir_like b); try done; cbn [negb eqb Z.compare];
    rewrite compare_folded_words, !string_less_words, (cmp_opp _ comparator_words (folded (name a))).
  all: rewrite !Zltb_compare, !Zeqb_compare, (Z.compare_antisym (size a)), (Z.compare_antisym (mtime a)).
  all: destruct by_, descending; cbn [by_key];
    repeat match goal with
    | |- context [bool_decide (?x = ?y :> sort_by)] =>
        let v := eval vm_compute in (bool_decide (x = y :> sort_by)) in change (bool_decide (x = y :> sort_by)) with v
    end; cbn [andb negb]; rewrite ?Z.compare_refl, ?(Z.compare_antisym (size a)), ?(Z.compare_antisym (mtime a)),
      ?(cmp_opp _ comparator_words (folded (name a)) (folded (name b))).
  all: try (destruct (size a ?= size b); try done); try (destruct (mtime a ?= mtime b); try done).
  all: by destruct (words (folded (name a)) (folded (name b))).
Qed.

(** ** The sorted list *)

Section Sorted.
Context (by_ : sort_by) (descending : bool).
Abbreviation cmp := (order by_ descending).
Abbreviation lt := (before by_ descending).

Definition not_after (a b : dir_entry) : Prop := cmp a b <> Gt.

Lemma not_after_trans a b d : not_after a b -> not_after b d -> not_after a d.
Proof.
  unfold not_after. destruct (comparator_order by_ descending) as [O T S]. intros H1 H2. destruct (cmp a b) eqn:E1; [|clear H1|done].
  - by rewrite (S _ _ d E1).
  - destruct (cmp b d) eqn:E2; [|by rewrite (T _ _ _ E1 E2)|done].
    assert (cmp a d = Lt) as ->; [|done]. pose proof (S b d a E2) as Hs. rewrite (O a b), E1 in Hs. rewrite (O d a), <- Hs. done.
Qed.

Lemma not_before a b : lt b a = false -> not_after a b.
Proof. rewrite before_order. unfold not_after. rewrite (cmp_opp _ (comparator_order by_ descending) a b). by destruct (cmp a b). Qed.

Lemma before_not_after a b : lt a b = true -> not_after a b.
Proof. rewrite before_order. unfold not_after. by destruct (cmp a b). Qed.

Lemma insert_entry_perm f x l : insert_entry f x l ≡ₚ x :: l.
Proof. induction l as [|y l IH]; [done|]. cbn. destruct (f y x); [|done]. rewrite IH. constructor. Qed.

Lemma sort_entries_perm l : sort_entries l by_ descending ≡ₚ l.
Proof. induction l as [|x l IH]; [done|]. cbn. rewrite insert_entry_perm. by f_equiv. Qed.

Lemma insert_entry_sorted x l : StronglySorted not_after l -> StronglySorted not_after (insert_entry lt x l).
Proof.
  induction 1 as [|y l Hl IH Hy]; cbn; [repeat constructor|]. destruct (lt y x) eqn:E.
  - constructor; [done|]. rewrite insert_entry_perm. constructor; [by apply before_not_after|done].
  - apply not_before in E. constructor; [by constructor|]. constructor; [done|].
    eapply list.Forall_impl; [exact Hy|]. intros z. by apply not_after_trans.
Qed.

Lemma sort_entries_sorted l : StronglySorted not_after (sort_entries l by_ descending).
Proof. induction l as [|x l IH]; [constructor|]. by apply insert_entry_sorted. Qed.

(** Entries of different names. *)
Lemma not_after_antisym l a b : NoDup (name <$> l) -> a ∈ l -> b ∈ l -> not_after a b -> not_after b a -> a = b.
Proof.
  unfold not_after. intros Hn Ha Hb H1 H2. rewrite (cmp_opp _ (comparator_order by_ descending) a b) in H2.
  assert (name a = name b) as En by (apply (order_eq by_ descending); by destruct (cmp a b)).
  apply list_elem_of_lookup in Ha as [i Hi], Hb as [j Hj].
  assert (i = j) as ->; [|congruence].
  eapply (NoDup_lookup _ _ _ (name a) Hn); rewrite list_lookup_fmap; [by rewrite Hi|by rewrite Hj, En].
Qed.

Lemma sort_entries_unique l l' : NoDup (name <$> l) -> l ≡ₚ l' -> sort_entries l by_ descending = sort_entries l' by_ descending.
Proof.
  intros Hn Hp. apply (StronglySorted_unique_strong not_after); [|apply sort_entries_sorted..|].
  - intros a b Ha Hb. rewrite sort_entries_perm in Ha, Hb. rewrite <- Hp in Hb. by apply (not_after_antisym l).
  - by rewrite !sort_entries_perm.
Qed.

Lemma sort_entries_lookup l i j a b : (i < j)%nat -> sort_entries l by_ descending !! i = Some a ->
  sort_entries l by_ descending !! j = Some b -> not_after a b.
Proof.
  intros Hij. pose proof (sort_entries_sorted l) as Hs. revert i j Hij. induction Hs as [|x s Hs IH Hx]; intros i j Hij Hi Hj; [done|].
  destruct i as [|i].
  - injection Hi as ->. destruct j as [|j]; [lia|]. rewrite List.Forall_forall in Hx. apply Hx, list_elem_of_In. by eapply list_elem_of_lookup_2.
  - destruct j as [|j]; [lia|]. by eapply (IH i j); [lia|..].
Qed.

End Sorted.

(** What the order says first. *)
Lemma not_after_parent by_ descending a b : not_after by_ descending a b -> name b = kParent -> name a = kParent.
Proof.
  unfold not_after, order, then_by. intros Hab Hb. rewrite (bool_decide_true (name b = kParent)) in Hab by done.
  destruct (bool_decide_reflect (name a = kParent)); [done|]. done.
Qed.

Lemma not_after_dir by_ descending a b :
  not_after by_ descending a b -> is_dir_like b = true -> is_dir_like a = true \/ name a = kParent.
Proof.
  unfold not_after, order, then_by. intros Hab Hb. destruct (bool_decide_reflect (name a = kParent)); [by right|].
  destruct (bool_decide _); [done|]. cbn in Hab. rewrite Hb in Hab. destruct (is_dir_like a); [by left|done].
Qed.

(** The order of the list is that of the names.  Whatever order the disk gives the
    entries of a directory in, and under every criterion, the list shown is the same
    one: a rearrangement of the entries, the way out first, then the directories and
    the links to one, each entry before those it precedes -- so nothing moves under the
    user's eyes when nothing has changed. *)
Theorem listing_is_determined l l' by_ descending : NoDup (name <$> l) -> l ≡ₚ l' ->
  let s := sort_entries l by_ descending in
  sort_entries l' by_ descending = s /\ s ≡ₚ l /\
  (forall i j a b, (i < j)%nat -> s !! i = Some a -> s !! j = Some b ->
     before by_ descending a b = true /\ (name b <> kParent) /\ (is_dir_like b = true -> is_dir_like a = true \/ name a = kParent)).
Proof.
  intros Hn Hp. cbv zeta. split; [by rewrite (sort_entries_unique _ _ l l')|]. split; [apply sort_entries_perm|].
  intros i j a b Hij Hi Hj. pose proof (sort_entries_lookup by_ descending l i j a b Hij Hi Hj) as Hab.
  assert (name a <> name b) as Hne.
  { intros E. assert (NoDup (name <$> sort_entries l by_ descending)) as Hs by (by rewrite sort_entries_perm).
    assert (i = j); [|lia]. eapply (NoDup_lookup _ _ _ (name a) Hs); rewrite list_lookup_fmap; [by rewrite Hi|by rewrite Hj, E]. }
  split; [|split].
  - rewrite before_order. unfold not_after in Hab. destruct (order by_ descending a b) eqn:E; [|done|done].
    by apply order_eq in E.
  - intros Eb. apply Hne. rewrite Eb. by eapply not_after_parent.
  - by apply (not_after_dir by_ descending).
Qed.

Lemma listing_is_determined_witness :
  let e1 := DirEntry (str "b") KFile 3 0 false in
  let e2 := DirEntry kParent KDir 0 0 false in
  let e3 := DirEntry (str "A") KLink 0 9 true in
  let e4 := DirEntry (str "B") KFile 3 0 false in
  sort_entries [e4; e3; e2; e1] SortSize true = [e2; e3; e4; e1] /\
  sort_entries [e1; e2; e3; e4] SortSize true = sort_entries [e4; e3; e2; e1] SortSize true.
Proof.
  cbv zeta. split; [by vm_compute|].
  refine (proj1 (listing_is_determined _ _ SortSize true _ _)).
  - by apply (bool_decide_unpack _).
  - apply (bool_decide_unpack _). by vm_compute.
Defined.

(** ** Paths *)

Definition plain_name (nm : bytes) : Prop := nm <> [] /\ slash ∉ nm.

(** A path of a directory as the application keeps it: the root, or no bar at its end. *)
Definition plain_dir (d : bytes) : Prop := d = [slash] \/ exists d0 nm, d = d0 ++ slash :: nm /\ plain_name nm.

Lemma rfind_from_free c p i f : c ∉ p -> rfind_from c p i f = f.
Proof.
  revert i f. induction p as [|x p IH]; intros i f Hc; [done|]. cbn. apply not_elem_of_cons in Hc as [Hx Hc].
  rewrite IH by done. destruct (Z.eqb_spec x c); [congruence|done].
Qed.

Lemma rfind_from_app c p q i f : rfind_from c (p ++ q) i f = rfind_from c q (i + length p) (rfind_from c p i f).
Proof.
  revert i f. induction p as [|x p IH]; intros i f; [cbn; by rewrite Nat.add_0_r|]. cbn. rewrite IH.
  by replace (S i + length p)%nat with (i + S (length p))%nat by lia.
Qed.

Lemma rfind_last c p nm : c ∉ nm -> rfind c (p ++ c :: nm) = Some (length p).
Proof. intros Hc. unfold rfind. rewrite rfind_from_app. cbn. rewrite Z.eqb_refl. by rewrite rfind_from_free. Qed.

Lemma strip_slashes_plain p nm : plain_name nm -> strip_slashes (p ++ nm) = p ++ nm.
Proof.
  intros [Hn Hs]. unfold strip_slashes. destruct (rev (p ++ nm)) as [|c r] eqn:E.
  { apply (f_equal (@length Z)) in E. rewrite List.length_rev, length_app in E. destruct nm; [done|cbn in E; lia]. }
  rewrite List.rev_app_distr in E. destruct (rev nm) as [|x y] eqn:Er.
  { apply (f_equal (@length Z)) in Er. rewrite List.length_rev in Er. by destruct nm. }
  cbn in E. injection E as -> E. assert (c <> slash) as Hc.
  { intros ->. apply Hs. apply list_elem_of_In, List.in_rev. rewrite Er. by left. }
  cbn. destruct r as [|z r]; [|destruct (Z.eqb_spec c slash); [done|]]; rewrite <- E at 1;
    change (c :: y ++ rev p) with ((c :: y) ++ rev p); rewrite <- Er, <- List.rev_app_distr; apply List.rev_involutive.
Qed.

(** A name is always set behind a bar. *)
Lemma join_path_bar d nm : plain_dir d -> exists d0, join_path d nm = d0 ++ slash :: nm /\ (d = [slash] /\ d0 = [] \/ d0 = d /\ d <> []).
Proof.
  intros [->|(d0 & n0 & -> & Hn0)]; [exists []; split; [done|by left]|]. exists (d0 ++ slash :: n0). split; [|right; split; [done|by destruct d0]].
  unfold join_path. destruct (rev (d0 ++ slash :: n0)) as [|c r] eqn:E.
  { apply (f_equal (@length Z)) in E. rewrite List.length_rev, length_app in E. cbn in E. lia. }
  destruct (Z.eqb_spec c slash) as [->|]; [|done]. exfalso. apply (proj2 Hn0). apply (f_equal (@rev Z)) in E.
  rewrite List.rev_involutive in E. cbn in E.
  destruct (List.exists_last (proj1 Hn0)) as (n1 & z & ->). rewrite app_comm_cons, app_assoc in E. apply app_inj_tail in E as [_ ->].
  apply elem_of_app. right. by left.
Qed.

Lemma parent_join d nm : plain_dir d -> plain_name nm -> parent_path (join_path d nm) = d.
Proof.
  intros Hd Hn. destruct (join_path_bar d nm Hd) as (d0 & -> & Hd0). unfold parent_path.
  replace (d0 ++ slash :: nm) with ((d0 ++ [slash]) ++ nm) by (by rewrite <- app_assoc).
  rewrite strip_slashes_plain by done. rewrite <- app_assoc. cbn [app]. rewrite rfind_last by apply Hn.
  destruct Hd0 as [[-> ->]|[-> Hd0]]; [done|]. destruct (length d) eqn:El; [by destruct d|]. rewrite <- El. by rewrite take_app_length.
Qed.
