(* ===== verification/FileJob.v ===== *)
(** * The work on files: [src/apps/files/job.hpp], [src/apps/files/job.cpp]

    Copying, moving and deleting trees, one slice at a time.  The stack of what is left
    has its top at the head of the list.  [step] is run by the application at each
    refresh; the history tells everything it asked of the disk. *)

From S2P Require Import Prelude StdString Syscalls Dir.

Inductive file_op := Copy | Move | Delete.
#[export] Instance file_op_eq_dec : EqDecision file_op. Proof. solve_decision. Defined.

Record item := Item { it_from : bytes; it_to : bytes; rmdir_only : bool }.

Record file_job := FileJob {
  active : bool;
  op : file_op;
  todo : list item;
  current : bytes;
  current_from : bytes;
  current_to : bytes;
  in_ : Z;
  out_ : Z;
  done_ : Z;
  failed_ : Z;
  error_ : bytes;
}.

Definition job_new : file_job := FileJob false Copy [] [] [] [] (-1) (-1) 0 0 [].

Definition base_name (p : bytes) : bytes :=
  let p := strip_slashes p in
  match rfind slash p with None => p | Some cut => drop (S cut) p end.

(** [st.st_mode & 07777] *)
Definition mode_of (st : stat) : Z := Z.land (st_perm st) 4095.

Definition kChunk : Z := 64 * 1024.

Section Job.
Context `{System}.
Implicit Type j : file_job.

Definition sys_close_if (fd : Z) : io unit := if 0 <=? fd then sys_close fd else ret tt.

(** Both descriptors closed, whichever are open. *)
Definition close_both j : io file_job :=
  let! _ := sys_close_if (in_ j) in
  let! _ := sys_close_if (out_ j) in
  ret {| j with in_ := -1; out_ := -1 |}.

Definition forget_current j : file_job := {| j with current := []; current_from := []; current_to := [] |}.

Definition cancel j : io file_job :=
  let! j := close_both j in
  ret (FileJob false (op j) [] [] [] [] (-1) (-1) 0 0 []).

Definition first_items (sources : list bytes) (dest : bytes) (k : file_op) : list item :=
  (fun p => Item p (if bool_decide (k = Delete) then [] else join_path dest (base_name p)) false) <$> sources.

Definition start (sources : list bytes) (dest : bytes) (k : file_op) j : io file_job :=
  let! j := cancel j in
  let l := first_items sources dest k in
  ret {| j with op := k; todo := l; active := negb (bool_decide (l = [])) |}.

Definition fail (what : bytes) j : file_job :=
  {| j with failed_ := failed_ j + 1; error_ := if bool_decide (error_ j = []) then what else error_ j |}.

Definition fail_on (p : bytes) (e : Z) j : file_job := fail (base_name p ++ str " : " ++ strerror e) j.

Definition count j : file_job := {| j with done_ := done_ j + 1 |}.

Definition finish_current j : io file_job :=
  let! j := close_both j in
  let! _ := if bool_decide (op j = Move) && negb (bool_decide (current_from j = []))
            then attempt (QUnlink (current_from j)) else ret (Done tt) in
  ret (forget_current (count j)).

(** The children of a directory, each put on top of the stack. *)
Fixpoint push_children (k : file_op) (it : item) (l : list dirent) (todo : list item) : list item :=
  match l with
  | [] => todo
  | e :: l =>
      push_children k it l
        (if is_dots (d_name e) then todo
         else Item (join_path (it_from it) (d_name e)) (if bool_decide (k = Delete) then [] else join_path (it_to it) (d_name e)) false :: todo)
  end.

(** The marker, whose directory is empty by now. *)
Definition take_marker it j : io file_job :=
  let! r := attempt (QRmdir (it_from it)) in
  ret (match r with
       | Error e => fail_on (it_from it) e j
       | Done _ => if bool_decide (op j = Delete) then count j else j
       end).

Definition make_dir it (st : stat) j : io (result unit) :=
  if bool_decide (op j = Delete) then ret (Done tt)
  else
    let! r := attempt (QMkdir (it_to it) (mode_of st)) in
    ret (match r with Error e => if e =? EEXIST then Done tt else Error e | Done _ => Done tt end).

Definition take_dir it (st : stat) j : io file_job :=
  let! r := make_dir it st j in
  match r with
  | Error e => ret (fail_on (it_from it) e j)
  | Done _ =>
      let j := if bool_decide (op j = Copy) then j else {| j with todo := Item (it_from it) [] true :: todo j |} in
      let! r := sys_readdir (it_from it) in
      ret (match r with
           | Error e => fail_on (it_from it) e j
           | Done l =>
               let j := {| j with todo := push_children (op j) it l (todo j) |} in
               if bool_decide (op j = Delete) then j else count j
           end)
  end.

Definition open_both it (st : stat) j : io file_job :=
  let! r := sys_open (QOpenRead (it_from it)) in
  match r with
  | Error e => ret (fail_on (it_from it) e j)
  | Done fdi =>
      let! r := sys_open (QOpenNew (it_to it) (mode_of st)) in
      match r with
      | Error e => let! _ := sys_close fdi in ret (fail_on (it_to it) e j)
      | Done fdo =>
          ret {| j with in_ := fdi; out_ := fdo; current := base_name (it_from it); current_from := it_from it; current_to := it_to it |}
      end
  end.

Definition take_file it (st : stat) j : io file_job :=
  if bool_decide (op j = Delete) then
    let! r := attempt (QUnlink (it_from it)) in
    ret (match r with Error e => fail_on (it_from it) e j | Done _ => count j end)
  else if bool_decide (op j = Move) then
    let! r := attempt (QRename (it_from it) (it_to it)) in
    match r with Done _ => ret (count j) | Error _ => open_both it st j end
  else open_both it st j.

Definition take_item it j : io file_job :=
  if rmdir_only it then take_marker it j
  else
    let! r := sys_lstat (it_from it) in
    match r with
    | Error e => ret (fail_on (it_from it) e j)
    | Done st => if bool_decide (st_type st = TDir) then take_dir it st j else take_file it st j
    end.

Definition take_next j : io (bool * file_job) :=
  match todo j with
  | [] => ret (false, j)
  | it :: l => let! j := take_item it {| j with todo := l |} in ret (true, j)
  end.

(** The incomplete does not stay. *)
Definition abandon (e : Z) j : io file_job :=
  let j := fail (current j ++ str " : " ++ strerror e) j in
  let! _ := sys_close (in_ j) in
  let! _ := sys_close (out_ j) in
  let! _ := attempt (QUnlink (current_to j)) in
  ret (forget_current {| j with in_ := -1; out_ := -1 |}).

(** [while (written < n)]: the bytes left to write. *)
Fixpoint write_all (fuel : nat) (fd : Z) (bs : bytes) : io (option Z) :=
  match fuel, bs with
  | O, _ | _, [] => ret None
  | S fuel, _ =>
      let! r := sys_write fd bs in
      match r with
      | Error e => ret (Some e)
      | Done w => write_all fuel fd (drop (Z.to_nat w) bs)
      end
  end.

(** [while (moved < budget)] *)
Fixpoint slice (fuel : nat) (budget moved : Z) j : io file_job :=
  match fuel with
  | O => ret j
  | S fuel =>
      if moved <? budget then
        let! r := sys_read (in_ j) (Z.min kChunk (budget - moved)) in
        match r with
        | Error e => abandon e j
        | Done [] => finish_current j
        | Done bs =>
            let! w := write_all (length bs) (out_ j) bs in
            match w with
            | Some e => abandon e j
            | None => slice fuel budget (moved + zlen bs) j
            end
        end
      else ret j
  end.

Definition step (budget : Z) j : io (bool * file_job) :=
  if negb (active j) then ret (false, j)
  else
    let! p := if in_ j <? 0 then take_next j else ret (true, j) in
    let '(more, j) := p in
    if negb more then ret (false, {| j with active := false |})
    else if in_ j <? 0 then ret (true, j)
    else let! j := slice (S (Z.to_nat budget)) budget 0 j in ret (true, j).

(** The steps an application makes, one per refresh, with their budgets. *)
Fixpoint steps (budgets : list Z) j : io file_job :=
  match budgets with
  | [] => ret j
  | b :: budgets => let! p := step b j in steps budgets p.2
  end.

End Job.
