(* ===== verification/FileJobTrace.v ===== *)
(** * What the work on files asks of the disk

    The requests of a work, from its start on, whatever the disk answers and wherever
    its slices are cut: a copy removes nothing but the file it has just created and
    failed to fill; a move removes a file only when every byte read from it, to its
    end, has been written to the new one. *)

From S2P Require Import Prelude StdString Syscalls Dir FileJob.

(** ** A transfer *)

(** The bytes a read delivered, those a write took. *)
Definition got (e : event) : bytes := match e with Event (QRead _ n) (RBytes bs) => take (Z.to_nat n) bs | _ => [] end.
Definition put (e : event) : bytes :=
  match e with Event (QWrite _ bs) (RCount n) => if 0 <? n then take (Z.to_nat n) bs else [] | _ => [] end.

Definition read_bytes (l : history) : bytes := concat (got <$> l).
Definition written (l : history) : bytes := concat (put <$> l).

Definition between (fi fo : Z) (e : event) : Prop :=
  match ev_q e with QRead fd _ => fd = fi | QWrite fd _ => fd = fo | _ => False end.

Definition opening (p q : bytes) (mode fi fo : Z) : history :=
  [Event (QOpenRead p) (RCount fi); Event (QOpenNew q mode) (RCount fo)].

(** The file [p] open on [fi], the new file [q] on [fo], and what was read but for [rest]
    written. *)
Definition copying (p q : bytes) (fi fo : Z) (rest : bytes) (l : history) : Prop :=
  exists l0 mode mid, l = l0 ++ opening p q mode fi fo ++ mid /\ Forall (between fi fo) mid /\ written mid ++ rest = read_bytes mid.

Lemma read_bytes_snoc l e : read_bytes (l ++ [e]) = read_bytes l ++ got e.
Proof. unfold read_bytes. rewrite fmap_app, concat_app. cbn. by rewrite app_nil_r. Qed.

Lemma written_snoc l e : written (l ++ [e]) = written l ++ put e.
Proof. unfold written. rewrite fmap_app, concat_app. cbn. by rewrite app_nil_r. Qed.

Lemma copying_snoc p q fi fo rest rest' l e :
  copying p q fi fo rest l -> between fi fo e -> put e ++ rest' = rest ++ got e -> copying p q fi fo rest' (l ++ [e]).
Proof.
  intros (l0 & mode & mid & -> & Hb & E) He Hr. exists l0, mode, (mid ++ [e]). split_and!.
  - by rewrite <- !app_assoc.
  - apply Forall_app. split; [done|by constructor].
  - rewrite read_bytes_snoc, written_snoc, <- app_assoc, Hr, app_assoc. by rewrite E.
Qed.

(** ** What a work may ask *)

Definition moved_whole (p : bytes) (l : history) : Prop :=
  exists q fi fo n r1 r2 l', copying p q fi fo [] l' /\
    l = l' ++ [Event (QRead fi n) (RBytes []); Event (QClose fi) r1; Event (QClose fo) r2].

Definition abandoned (q : bytes) (l : history) : Prop :=
  exists p fi fo rest r1 r2 l', copying p q fi fo rest l' /\ l = l' ++ [Event (QClose fi) r1; Event (QClose fo) r2].

Definition careful (k : file_op) (l : history) (q : request) : Prop :=
  match q with
  | QUnlink p => k = Delete \/ k = Move /\ moved_whole p l \/ abandoned p l
  | QRmdir _ => k <> Copy
  | QRename _ _ => k = Move
  | QMkdir _ _ | QOpenRead _ | QOpenNew _ _ => k <> Delete
  | QWrite fo _ => exists p q fi rest, copying p q fi fo rest l
  | QOpenTrunc _ _ => False
  | _ => True
  end.

Definition all_careful (k : file_op) : history -> Prop := each (careful k).

Lemma all_careful_nil k : all_careful k [].
Proof. apply each_nil. Qed.

Lemma all_careful_snoc k l q r : all_careful k l -> careful k l q -> all_careful k (l ++ [Event q r]).
Proof. apply each_snoc. Qed.

Section Trace.
Context `{System}.
Implicit Type j : file_job.

(** Between two slices: nothing open, or a copy that has written all it has read. *)
Definition unmarked (k : file_op) (l : list item) : Prop := k = Copy -> Forall (fun it => rmdir_only it = false) l.

Definition at_rest (k : file_op) (l : history) j : Prop :=
  op j = k /\ all_careful k l /\ in_ j = -1 /\ out_ j = -1 /\ unmarked k (todo j).

Definition in_copy (k : file_op) (rest : bytes) (l : history) j : Prop :=
  op j = k /\ all_careful k l /\ unmarked k (todo j) /\ k <> Delete /\ 0 <= in_ j /\ 0 <= out_ j /\ copying (current_from j) (current_to j) (in_ j) (out_ j) rest l.

Definition job_inv (k : file_op) (l : history) j : Prop := at_rest k l j \/ in_copy k [] l j.

(** A request that changes no file of its own. *)
Lemma at_rest_snoc k l j q r : at_rest k l j -> careful k l q -> at_rest k (l ++ [Event q r]) j.
Proof. intros (Ek & Hc & Hi & Ho & Hu) Hq. split_and!; [done|by apply all_careful_snoc|done..]. Qed.

Lemma at_rest_same k l j j' : op j' = op j -> in_ j' = in_ j -> out_ j' = out_ j -> unmarked k (todo j') -> at_rest k l j -> at_rest k l j'.
Proof. intros E1 E2 E3 Hu (Ek & Hc & Hi & Ho & _). split_and!; try done; congruence. Qed.

Ltac rested := eapply at_rest_same; [..|eassumption]; try done; match goal with H : at_rest _ _ _ |- _ => apply H end.

Lemma trace_cancel k j P : (forall l, P l -> all_careful k l) ->
  trace P (cancel j) (fun j' l => all_careful k l /\ in_ j' = -1 /\ out_ j' = -1).
Proof.
  intros Hp. unfold cancel, close_both. assert (forall fd, trace (all_careful k) (sys_close_if fd) (fun _ l => all_careful k l)) as Hclose.
  { intros fd. unfold sys_close_if. destruct (0 <=? fd); [|by apply trace_ret]. apply trace_reply. intros r l Hl. by apply all_careful_snoc. }
  apply (trace_bind _ _ _ (fun _ l => all_careful k l)); [|intros j'; by apply trace_ret].
  apply (trace_bind _ _ _ (fun _ l => all_careful k l)); [by apply (trace_weaken _ _ _ _ _ (Hclose (in_ j)))|]. intros _.
  apply (trace_bind _ _ _ (fun _ l => all_careful k l)); [apply Hclose|]. intros _. by apply trace_ret.
Qed.

Lemma trace_start sources dest k j : trace (fun l => l = []) (start sources dest k j) (fun j' l => at_rest k l j').
Proof.
  unfold start. eapply trace_bind; [apply (trace_cancel k); intros l ->; apply all_careful_nil|].
  intros j'. apply trace_ret. intros l (Hc & Hi & Ho). split_and!; try done. intros _. apply Forall_fmap. by apply Forall_true.
Qed.

(** One request that is careful, at rest, and a state as still. *)
Lemma trace_rest {A} k j q (f : reply -> A) (g : A -> file_job) :
  (forall l, at_rest k l j -> careful k l q) ->
  (forall r, op (g (f r)) = op j /\ in_ (g (f r)) = in_ j /\ out_ (g (f r)) = out_ j /\ todo (g (f r)) = todo j) ->
  trace (fun l => at_rest k l j) (let! r := call q in ret (f r)) (fun a l => at_rest k l (g a)).
Proof.
  intros Hq Hf. apply trace_reply. intros r l Hl. destruct (Hf r) as (E1 & E2 & E3 & E4).
  apply (at_rest_same k _ j); [done..|rewrite E4; apply Hl|]. apply at_rest_snoc; [done|by apply Hq].
Qed.

Lemma trace_attempt k j q : (forall l, at_rest k l j -> careful k l q) ->
  trace (fun l => at_rest k l j) (attempt q) (fun _ l => at_rest k l j).
Proof. intros Hq. by apply (trace_rest k j q _ (fun _ => j)). Qed.

Lemma unmarked_push k o it l t : unmarked k t -> unmarked k (push_children o it l t).
Proof.
  intros Hu Hk. specialize (Hu Hk). revert t Hu. induction l as [|e l IH]; intros t Hu; [done|]. cbn. apply IH.
  destruct (is_dots _); [done|by constructor].
Qed.

Lemma trace_marker k it j : k <> Copy -> trace (fun l => at_rest k l j) (take_marker it j) (fun j' l => at_rest k l j').
Proof.
  intros Hk. unfold take_marker. eapply trace_bind; [by apply trace_attempt|]. intros [u|e]; apply trace_ret; intros l Hl.
  - destruct (bool_decide _); [rested|done].
  - rested.
Qed.

Lemma trace_dir k it st j : op j = k -> trace (fun l => at_rest k l j) (take_dir it st j) (fun j' l => at_rest k l j').
Proof.
  intros Ek. unfold take_dir. eapply (trace_bind _ _ _ (fun _ l => at_rest k l j)).
  { unfold make_dir. destruct (bool_decide_reflect (op j = Delete)) as [|Hd]; [by apply trace_ret|].
    eapply trace_bind; [apply trace_attempt; intros l _; cbn; congruence|]. intros r. by apply trace_ret. }
  intros [u|e]; [|apply trace_ret; intros l Hl; rested]. cbv zeta. set (j1 := if bool_decide _ then j else _).
  assert (op j1 = op j) as E1 by (subst j1; by destruct (bool_decide _)).
  apply (trace_weaken _ (fun l => at_rest k l j1) _ (fun j' l => at_rest k l j')).
  2:{ intros l Hl. subst j1. destruct (bool_decide_reflect (op j = Copy)) as [|Hc]; [done|].
      eapply at_rest_same; [..|exact Hl]; try done. intros Hk. congruence. }
  2: done.
  eapply trace_bind; [by apply (trace_rest k j1 _ _ (fun _ => j1))|].
  intros [l0|e]; apply trace_ret; intros l Hl; [|rested].
  assert (unmarked k (push_children (op j1) it l0 (todo j1))) as Hu by (by apply unmarked_push, Hl).
  cbv zeta. clearbody j1. destruct (bool_decide _); by apply (at_rest_same k l j1).
Qed.

Lemma trace_open k it st j : op j = k -> k <> Delete -> trace (fun l => at_rest k l j) (open_both it st j) (fun j' l => job_inv k l j').
Proof.
  intros Ek Hk. unfold open_both.
  eapply (trace_bind _ _ _ (fun r l => match r with
    | Error _ => at_rest k l j
    | Done fi => 0 <= fi /\ exists l0, at_rest k l0 j /\ l = l0 ++ [Event (QOpenRead (it_from it)) (RCount fi)] end)).
  { apply trace_reply. intros r l Hl. assert (at_rest k (l ++ [Event (QOpenRead (it_from it)) r]) j) as Hl' by by apply at_rest_snoc.
    unfold descriptor. destruct r; try done. destruct (Z.leb_spec 0 n); [|done]. split; [done|]. by exists l. }
  intros [fi|e]; [|apply trace_ret; intros l Hl; left; rested].
  eapply (trace_bind _ _ _ (fun r l => match r with
    | Error _ => at_rest k l j
    | Done fo => 0 <= fi /\ 0 <= fo /\ unmarked k (todo j) /\ all_careful k l /\ copying (it_from it) (it_to it) fi fo [] l end)).
  { apply trace_reply. intros r l (Hfi & l0 & Hl & ->). assert (at_rest k (l0 ++ [Event (QOpenRead (it_from it)) (RCount fi)]) j) as Hl1 by by apply at_rest_snoc.
    pose proof (at_rest_snoc k _ j (QOpenNew (it_to it) (mode_of st)) r Hl1 Hk) as Hl2.
    unfold descriptor. destruct r; try done. destruct (Z.leb_spec 0 n); [|done]. split_and!; [done|done|apply Hl2|apply Hl2|].
    exists l0, (mode_of st), []. split_and!; [by rewrite <- app_assoc|constructor|done]. }
  intros [fo|e].
  - apply trace_ret. intros l (Hfi & Hfo & Hu & Hc & Hcp). right. by split_and!.
  - eapply trace_then; [by apply (trace_rest k j _ _ (fun _ => j))|]. apply trace_ret. intros l Hl. left. rested.
Qed.

Lemma trace_file k it st j : op j = k -> trace (fun l => at_rest k l j) (take_file it st j) (fun j' l => job_inv k l j').
Proof.
  intros Ek. unfold take_file. destruct (bool_decide_reflect (op j = Delete)) as [Hd|Hd].
  { eapply trace_bind; [apply trace_attempt; intros l _; left; congruence|]. intros [u|e]; apply trace_ret; intros l Hl; left; rested. }
  destruct (bool_decide_reflect (op j = Move)) as [Hm|Hm]; [|apply trace_open; congruence].
  eapply trace_bind; [apply trace_attempt; intros l _; cbn; congruence|].
  intros [u|e]; [apply trace_ret; intros l Hl; left; rested|]. apply trace_open; congruence.
Qed.

Lemma trace_item k it j : op j = k -> (k = Copy -> rmdir_only it = false) ->
  trace (fun l => at_rest k l j) (take_item it j) (fun j' l => job_inv k l j').
Proof.
  intros Ek Hm. unfold take_item. destruct (rmdir_only it).
  { eapply trace_weaken; [apply (trace_marker k); intros E; by specialize (Hm E)|done|by left]. }
  eapply trace_bind; [by apply (trace_rest k j _ _ (fun _ => j))|]. intros [st|e].
  - destruct (bool_decide _); [|by apply trace_file]. eapply trace_weaken; [by apply (trace_dir k)|done|by left].
  - apply trace_ret. intros l Hl. left. rested.
Qed.

Lemma trace_next k j : trace (fun l => at_rest k l j) (take_next j) (fun p l => job_inv k l p.2).
Proof.
  unfold take_next. destruct (todo j) as [|it t] eqn:Et; [apply trace_ret; intros l Hl; by left|].
  apply (trace_given (op j = k /\ unmarked k (it :: t))); [intros l (Ek & _ & _ & _ & Hu); by rewrite Et in Hu|]. intros [Ek Hu].
  apply (trace_bind _ _ _ (fun j l => job_inv k l j)); [|intros j'; by apply trace_ret].
  eapply trace_weaken; [apply (trace_item k); [done|]|..]; [intros E; specialize (Hu E); by inversion Hu| |done].
  intros l Hl. eapply at_rest_same; [..|exact Hl]; try done. intros E. specialize (Hu E). by inversion Hu.
Qed.

(** *** The bytes *)

(** What is left to write of what was read. *)
Lemma trace_write k j fuel bs : (length bs <= fuel)%nat ->
  trace (fun l => in_copy k bs l j) (write_all fuel (out_ j) bs)
    (fun r l => exists rest, in_copy k rest l j /\ (r = None -> rest = [])).
Proof.
  revert bs. induction fuel as [|fuel IH]; intros bs Hf.
  { destruct bs; [|cbn in Hf; lia]. apply trace_ret. intros l Hl. by exists []. }
  destruct bs as [|b bs]; [apply trace_ret; intros l Hl; by exists []|]. cbn [write_all].
  set (all := b :: bs) in *. assert (0 < zlen all) as Hlen by (unfold zlen; cbn; lia).
  apply (trace_bind _ _ _ (fun r l => match r with
    | Done w => 0 < w <= zlen all /\ in_copy k (drop (Z.to_nat w) all) l j | Error _ => in_copy k all l j end)).
  - apply trace_reply. intros r l (Ek & Hc & Hu & Hd & Hi & Ho & Hcp).
    assert (forall rest, put (Event (QWrite (out_ j) all) r) ++ rest = all -> in_copy k rest (l ++ [Event (QWrite (out_ j) all) r]) j) as Hnext.
    { intros rest Hr. split_and!; try done; [apply all_careful_snoc; [done|by exists (current_from j), (current_to j), (in_ j), all]|].
      eapply copying_snoc; [exact Hcp|done|]. cbn [got]. by rewrite app_nil_r. }
    destruct r; try (by apply Hnext). assert (bool_decide (all = []) = false) as E by by apply bool_decide_false. rewrite E. cbn [andb].
    rewrite orb_false_r. cbn [put] in Hnext. destruct (Z.ltb_spec 0 n); [|by apply Hnext]. split; [lia|]. apply Hnext.
    destruct (Z.le_gt_cases n (zlen all)).
    + rewrite Z.min_l by done. apply take_drop.
    + rewrite Z.min_r by lia. unfold zlen in *. rewrite take_ge, drop_ge by lia. apply app_nil_r.
  - intros [w|e].
    + intros h l [Hw Hl]. revert h l Hl. apply IH. rewrite length_drop. unfold zlen in *. lia.
    + apply trace_ret. intros l Hl. exists all. split; done.
Qed.

Lemma trace_close k fd P : (forall l, P l -> all_careful k l) ->
  trace P (sys_close fd) (fun _ l => exists l0 r, P l0 /\ l = l0 ++ [Event (QClose fd) r] /\ all_careful k l).
Proof.
  intros Hp. apply trace_reply. intros r l Hl. exists l, r. split; [done|]. split; [done|]. apply all_careful_snoc; [by apply Hp|done].
Qed.

(** Both descriptors closed, after what [P] says. *)
Definition closed (k : file_op) (P : history -> Prop) (fi fo : Z) (l : history) : Prop :=
  exists l0 r1 r2, P l0 /\ l = l0 ++ [Event (QClose fi) r1; Event (QClose fo) r2] /\ all_careful k l.

Lemma trace_closing {A} k P fi fo (m : io A) Q : (forall l, P l -> all_careful k l) -> trace (closed k P fi fo) m Q ->
  trace P (let! _ := sys_close fi in let! _ := sys_close fo in m) Q.
Proof.
  intros Hp Hm. eapply trace_then; [by apply (trace_close k)|]. eapply trace_then; [apply (trace_close k); by intros l (? & ? & _ & _ & Hc)|].
  eapply trace_weaken; [exact Hm| |done]. intros l (l1 & r2 & (l0 & r1 & H0 & -> & _) & -> & Hc).
  exists l0, r1, r2. split; [done|]. split; [by rewrite <- app_assoc|done].
Qed.

Lemma trace_unlink k p j P : (forall l, P l -> at_rest k l j /\ careful k l (QUnlink p)) ->
  trace P (attempt (QUnlink p)) (fun _ l => at_rest k l j).
Proof. intros Hp. apply trace_reply. intros r l Hl. destruct (Hp l Hl). by apply at_rest_snoc. Qed.

Definition at_end (k : file_op) j (l : history) : Prop :=
  exists l0 n, in_copy k [] l0 j /\ l = l0 ++ [Event (QRead (in_ j) n) (RBytes [])] /\ all_careful k l.

Lemma closed_rest k P j l : (forall l, P l -> exists rest l0, in_copy k rest l0 j) -> closed k P (in_ j) (out_ j) l ->
  at_rest k l {| j with in_ := -1; out_ := -1 |}.
Proof. intros Hp (l0 & r1 & r2 & H0 & -> & Hc). destruct (Hp l0 H0) as (rest & l1 & Ek & _ & Hu & _). by split_and!. Qed.

Lemma trace_finish k j : trace (at_end k j) (finish_current j) (fun j' l => at_rest k l j').
Proof.
  apply (trace_given (0 <= in_ j /\ 0 <= out_ j /\ op j = k)); [intros l (l0 & n & (Ek & _ & _ & _ & Hi & Ho & _) & _); done|]. intros (Hi & Ho & Ek).
  unfold finish_current, close_both, sys_close_if. zrw_true (0 <=? in_ j). zrw_true (0 <=? out_ j).
  set (j1 := {| j with in_ := -1; out_ := -1 |}). apply (trace_bind _ _ _ (fun j' l => j' = j1 /\ closed k (at_end k j) (in_ j) (out_ j) l)).
  { apply (trace_closing k); [by intros l (l0 & n & _ & _ & Hc)|]. apply trace_ret. by split. }
  intros j'. apply (trace_given (j' = j1)); [by intros l []|]. intros ->.
  assert (forall l, closed k (at_end k j) (in_ j) (out_ j) l -> at_rest k l j1) as Hrest.
  { intros l Hl. eapply closed_rest; [|exact Hl]. intros l' (l0 & n & Hcp & _). by exists [], l0. }
  apply (trace_then _ _ _ (fun l => at_rest k l j1)); [|apply trace_ret; intros l Hl; rested].
  destruct (bool_decide_reflect (op j1 = Move)) as [Hm|]; cbn [andb]; [|apply trace_ret; by intros l [_ Hl]; apply Hrest].
  destruct (negb _); [|apply trace_ret; by intros l [_ Hl]; apply Hrest].
  apply trace_unlink. intros l [_ Hl]. split; [by apply Hrest|]. right. left. split; [by rewrite <- Ek|].
  destruct Hl as (l1 & r1 & r2 & (l0 & n & (_ & _ & _ & _ & _ & _ & Hcp) & -> & _) & -> & _).
  exists (current_to j), (in_ j), (out_ j), n, r1, r2, l0. split; [done|]. by rewrite <- app_assoc.
Qed.

Lemma trace_abandon k e rest j : trace (fun l => in_copy k rest l j) (abandon e j) (fun j' l => at_rest k l j').
Proof.
  unfold abandon. cbn [in_ out_ current_to fail]. apply (trace_closing k); [by intros l (_ & Hc & _)|].
  set (j1 := {| j with in_ := -1; out_ := -1 |}). apply (trace_then _ _ _ (fun l => at_rest k l j1)); [|apply trace_ret; intros l Hl; rested].
  apply trace_unlink. intros l Hl. split; [eapply closed_rest; [|exact Hl]; intros l' Hcp; by exists rest, l'|]. right. right.
  destruct Hl as (l0 & r1 & r2 & (_ & _ & _ & _ & _ & _ & Hcp) & -> & _).
  by exists (current_from j), (in_ j), (out_ j), rest, r1, r2, l0.
Qed.

(** *** The slices *)

Lemma trace_slice k fuel budget moved j :
  trace (fun l => in_copy k [] l j) (slice fuel budget moved j) (fun j' l => job_inv k l j').
Proof.
  revert moved. induction fuel as [|fuel IH]; intros moved; [apply trace_ret; intros l Hl; by right|]. cbn [slice].
  destruct (Z.ltb_spec moved budget) as [Hb|]; [|apply trace_ret; intros l Hl; by right].
  set (want := Z.min kChunk (budget - moved)). assert (0 < want) as Hw by (unfold want, kChunk; lia).
  apply (trace_bind _ _ _ (fun r l => match r with Error _ => in_copy k [] l j | Done [] => at_end k j l | Done bs => in_copy k bs l j end)).
  - apply trace_reply. intros r l Hl. pose proof Hl as (Ek & Hc & Hu & Hd & Hi & Ho & Hcp).
    assert (all_careful k (l ++ [Event (QRead (in_ j) want) r])) as Hc' by by apply all_careful_snoc.
    assert (forall bs, got (Event (QRead (in_ j) want) r) = bs -> in_copy k bs (l ++ [Event (QRead (in_ j) want) r]) j) as Hnext.
    { intros bs E. split_and!; try done. eapply copying_snoc; [exact Hcp|done|]. cbn [put app]. by rewrite E. }
    unfold delivered. destruct r; try (by apply Hnext). cbn [got] in Hnext. destruct (take _ bs) as [|b bs'] eqn:E; [|by apply Hnext].
    exists l, want. split; [done|]. destruct bs; [done|]. destruct (Z.to_nat want) eqn:E'; [lia|done].
  - intros [[|b bs]|e].
    + eapply trace_weaken; [apply (trace_finish k)|done|by left].
    + eapply trace_bind; [by apply (trace_write k)|]. intros [e|].
      * intros h l (rest & Hl & _). destruct (trace_abandon k e rest j h l Hl) as (l' & E & Hq). exists l'. split; [done|by left].
      * eapply trace_weaken; [apply (IH (moved + zlen (b :: bs)))| |done]. intros l (rest & Hl & Hr). by rewrite Hr in Hl.
    + eapply trace_weaken; [apply (trace_abandon k e [])|done|by left].
Qed.

Lemma at_rest_inactive k l j : job_inv k l j -> job_inv k l {| j with active := false |}.
Proof. intros [Hl|Hl]; [left|right]; exact Hl. Qed.

Lemma trace_step k budget j : trace (fun l => job_inv k l j) (step budget j) (fun p l => job_inv k l p.2).
Proof.
  unfold step. destruct (active j); [|by apply trace_ret]. cbn [negb].
  apply (trace_bind _ _ _ (fun p l => job_inv k l p.2)).
  - destruct (Z.ltb_spec (in_ j) 0); [|by apply trace_ret]. eapply trace_weaken; [apply (trace_next k)| |done].
    intros l [Hl|(_ & _ & _ & _ & Hi & _)]; [done|lia].
  - intros [more j']. cbn [snd]. destruct (negb more); [apply trace_ret; intros l; apply at_rest_inactive|].
    destruct (Z.ltb_spec (in_ j') 0); [by apply trace_ret|].
    apply (trace_bind _ _ _ (fun j l => job_inv k l j)); [|intros j2; by apply trace_ret].
    eapply trace_weaken; [apply (trace_slice k)| |done]. intros l [(_ & _ & Hi & _)|Hl]; [lia|done].
Qed.

Lemma trace_steps k budgets j : trace (fun l => job_inv k l j) (steps budgets j) (fun j' l => job_inv k l j').
Proof.
  revert j. induction budgets as [|b budgets IH]; intros j; [by apply trace_ret|]. cbn [steps].
  eapply trace_bind; [apply trace_step|]. intros p. apply IH.
Qed.

End Trace.
