(* ===== verification/FileJobEnds.v ===== *)
(** * The work on files ends

    When the trees it is given are finite, and so are their files, each refresh brings
    the work closer to its end, even of a single byte; the number of refreshes is
    bounded by the size of the trees. *)

From S2P Require Import Prelude StdString Syscalls Dir FileJob.

(** The file last opened for reading, and how much of it was read. *)
Definition reading1 (o : option (bytes * Z)) (e : event) : option (bytes * Z) :=
  match e with
  | Event (QOpenRead p) (RCount fd) => if 0 <=? fd then Some (p, 0) else o
  | Event (QRead _ n) (RBytes bs) => (fun x => (fst x, snd x + zlen (take (Z.to_nat n) bs))) <$> o
  | _ => o
  end.
Definition reading (h : history) : option (bytes * Z) := fold_left reading1 h None.

Lemma reading_snoc h e : reading (h ++ [e]) = reading1 (reading h) e.
Proof. unfold reading. by rewrite fold_left_app. Qed.

Section Ends.
Context `{System}.
Implicit Type j : file_job.

(** [weight p]: what there is to do under [p]; for a file, the bytes it may give. *)
Context (weight : bytes -> Z).

Definition kids (p : bytes) (l : list dirent) : Z :=
  List.fold_right Z.add 0 ((fun e => if is_dots (d_name e) then 0 else weight (join_path p (d_name e)) + 1) <$> l).

Hypothesis weight_nonneg : forall p, 0 <= weight p.
Hypothesis finite_dirs : forall h p l, answer h (QReadDir p) = RNames l -> kids p l <= weight p.
Hypothesis finite_files : forall h fd n bs p k,
  answer h (QRead fd n) = RBytes bs -> take (Z.to_nat n) bs <> [] -> reading h = Some (p, k) -> k + zlen (take (Z.to_nat n) bs) <= weight p.

Definition cost (it : item) : Z := if rmdir_only it then 1 else 3 * weight (it_from it) + 2.
Definition todo_cost (l : list item) : Z := List.fold_right Z.add 0 (cost <$> l).

(** What is left of the file being read. *)
Definition in_flight (h : history) j : Z :=
  if in_ j <? 0 then 0 else match reading h with Some (p, k) => weight p - k + 1 | None => 0 end.
Definition left_to_do (h : history) j : Z := todo_cost (todo j) + in_flight h j.

(** What is open was opened last. *)
Definition in_step (h : history) j : Prop :=
  0 <= in_ j -> exists k, reading h = Some (current_from j, k) /\ 0 <= k <= weight (current_from j).

Lemma cost_pos it : 1 <= cost it.
Proof. unfold cost. destruct (rmdir_only it); [lia|]. pose proof (weight_nonneg (it_from it)). lia. Qed.

Lemma todo_cost_cons it l : todo_cost (it :: l) = cost it + todo_cost l.
Proof. done. Qed.

Lemma todo_cost_nonneg l : 0 <= todo_cost l.
Proof. induction l as [|it l IH]; [done|]. rewrite todo_cost_cons. pose proof (cost_pos it). lia. Qed.

Lemma push_children_cost k it l t :
  todo_cost (push_children k it l t) <= todo_cost t + 3 * kids (it_from it) l.
Proof.
  revert t. induction l as [|e l IH]; intros t; [change (kids (it_from it) []) with 0; cbn [push_children]; lia|]. cbn [push_children]. etrans; [apply IH|].
  change (kids (it_from it) (e :: l)) with ((if is_dots (d_name e) then 0 else weight (join_path (it_from it) (d_name e)) + 1) + kids (it_from it) l).
  destruct (is_dots (d_name e)); [lia|]. rewrite todo_cost_cons. unfold cost. cbn [rmdir_only it_from].
  pose proof (weight_nonneg (join_path (it_from it) (d_name e))). lia.
Qed.

(** Requests that read nothing. *)
Definition quiet (q : request) : bool := match q with QOpenRead _ | QRead _ _ => false | _ => true end.

Lemma reading_quiet h q r : quiet q = true -> reading (h ++ [Event q r]) = reading h.
Proof. intros Hq. rewrite reading_snoc. by destruct q. Qed.

(** A program that reads nothing and gives a state [ok]. *)
Definition quietly {A} (m : io A) (ok : A -> Prop) : Prop := forall h, reading (m h).2 = reading h /\ ok (m h).1.

Lemma quietly_ret {A} (a : A) ok : ok a -> quietly (ret a) ok.
Proof. by split. Qed.

Lemma quietly_bind {A B} (m : io A) (f : A -> io B) ok1 ok2 :
  quietly m ok1 -> (forall a, ok1 a -> quietly (f a) ok2) -> quietly (bind m f) ok2.
Proof.
  intros Hm Hf h. destruct (Hm h) as [E Ha]. unfold bind. destruct (m h) as [a h']. cbn [fst snd] in *. rewrite <- E. by apply Hf.
Qed.

Lemma quietly_call q : quiet q = true -> quietly (call q) (fun r => exists h, r = answer h q).
Proof. intros Hq h. split; [by apply reading_quiet|]. by exists h. Qed.

Lemma quietly_reply {A} q (f : reply -> A) (ok : A -> Prop) : quiet q = true -> (forall h, ok (f (answer h q))) ->
  quietly (let! r := call q in ret (f r)) ok.
Proof. intros Hq Hf. eapply quietly_bind; [by apply quietly_call|]. intros r [h ->]. by apply quietly_ret. Qed.

Lemma quietly_any {A} q (f : reply -> A) : quiet q = true -> quietly (let! r := call q in ret (f r)) (fun _ => True).
Proof. intros Hq. by apply quietly_reply. Qed.

Lemma quietly_attempt q : quiet q = true -> quietly (attempt q) (fun _ => True).
Proof. apply quietly_any. Qed.

Lemma quietly_close fd : quietly (sys_close fd) (fun _ => True).
Proof. by apply quietly_any. Qed.

Lemma quietly_close_if fd : quietly (sys_close_if fd) (fun _ => True).
Proof. unfold sys_close_if. destruct (0 <=? fd); [apply quietly_close|by apply quietly_ret]. Qed.

(** An item taken: nothing open, and less to do by the whole item. *)
Definition taken (it : item) (t : list item) j : Prop := in_ j < 0 /\ todo_cost (todo j) < cost it + todo_cost t.

Lemma taken_same it t j j' : in_ j' = in_ j -> todo j' = todo j -> taken it t j -> taken it t j'.
Proof. intros E1 E2 [H1 H2]. split; congruence. Qed.

Lemma taken_start it t j : in_ j < 0 -> todo j = t -> taken it t j.
Proof. intros E1 E2. split; [done|]. rewrite E2. pose proof (cost_pos it). lia. Qed.

Lemma quietly_marker it t j : in_ j < 0 -> todo j = t -> quietly (take_marker it j) (taken it t).
Proof.
  intros E1 E2. eapply quietly_bind; [by apply quietly_attempt|]. intros [u|e] _; apply quietly_ret.
  - destruct (bool_decide _); by apply taken_start.
  - by apply taken_start.
Qed.

Lemma quietly_dir it st t j : in_ j < 0 -> todo j = t -> rmdir_only it = false -> quietly (take_dir it st j) (taken it t).
Proof.
  intros E1 E2 Em. eapply (quietly_bind _ _ (fun _ => True)).
  { unfold make_dir. destruct (bool_decide _); [by apply quietly_ret|]. eapply quietly_bind; [by apply quietly_attempt|].
    intros r _. by apply quietly_ret. }
  intros [u|e] _; [|apply quietly_ret; by apply taken_start]. cbv zeta.
  set (j1 := if bool_decide _ then j else _).
  assert (in_ j1 < 0 /\ todo_cost (todo j1) <= 1 + todo_cost t) as [F1 F2].
  { subst j1. destruct (bool_decide _); [rewrite E2; split; [done|lia]|]. split; [done|]. cbn [todo]. rewrite E2. done. }
  clearbody j1. pose proof (weight_nonneg (it_from it)) as Hw. assert (cost it = 3 * weight (it_from it) + 2) as Ec by (unfold cost; by rewrite Em).
  eapply (quietly_bind _ _ (fun r => match r with Done l => kids (it_from it) l <= weight (it_from it) | Error _ => True end)).
  { apply quietly_reply; [done|]. intros h. destruct (answer h _) eqn:Ea; try done. by apply finite_dirs in Ea. }
  intros [l|e] Hl; apply quietly_ret; [|split; [done|cbn [todo fail_on fail]; lia]].
  pose proof (push_children_cost (op j1) it l (todo j1)). destruct (bool_decide _); (split; [done|]); cbn [todo count]; lia.
Qed.

(** A program that takes an item, or opens its file, which is being read from its start. *)
Definition opens (m : io file_job) it t : Prop := forall h,
  let j := (m h).1 in let h' := (m h).2 in
  taken it t j \/ 0 <= in_ j /\ todo j = t /\ current_from j = it_from it /\ reading h' = Some (it_from it, 0).

Lemma quietly_opens m it t : quietly m (taken it t) -> opens m it t.
Proof. intros Hm h. destruct (Hm h) as [R T]. by left. Qed.

Lemma opens_bind {A} (m : io A) f it t : (forall a, opens (f a) it t) -> opens (bind m f) it t.
Proof. intros Hf h. unfold bind. destruct (m h) as [a h']. apply Hf. Qed.

Lemma opens_both it st t j : in_ j < 0 -> todo j = t -> opens (open_both it st j) it t.
Proof.
  intros E1 E2 h. unfold open_both. cbv zeta.
  rewrite (bind_run _ _ _ _ _ (open_run (QOpenRead (it_from it)) h)).
  set (r1 := answer h _). set (h1 := h ++ [_]). destruct (descriptor r1) as [fi|e] eqn:D1.
  2:{ assert (reading h1 = reading h) as R1.
      { subst h1. rewrite reading_snoc. destruct r1; try done. revert D1. cbn. by destruct (0 <=? n). }
      left; by apply taken_start. }
  apply descriptor_done in D1 as [-> Hfi]. assert (reading h1 = Some (it_from it, 0)) as R1.
  { subst h1. rewrite reading_snoc. cbn [reading1]. by zrw_true (0 <=? fi). }
  rewrite (bind_run _ _ _ _ _ (open_run (QOpenNew (it_to it) (mode_of st)) h1)).
  set (r2 := answer h1 _). set (h2 := h1 ++ [_]). assert (reading h2 = Some (it_from it, 0)) as R2 by (subst h2; by rewrite reading_quiet).
  destruct (descriptor r2) as [fo|e].
  - right. by split_and!.
  - destruct (quietly_close fi h2) as [R3 _]. destruct (sys_close fi h2) as [u h3] eqn:E3. rewrite (bind_run _ _ _ _ _ E3).
    cbn [fst snd ret] in *. rewrite R2 in R3. left. by apply taken_start.
Qed.

Lemma opens_item it t j : in_ j < 0 -> todo j = t -> opens (take_item it j) it t.
Proof.
  intros E1 E2. unfold take_item. destruct (rmdir_only it) eqn:Em; [by apply quietly_opens, quietly_marker|].
  apply opens_bind. intros [st|e]; [|apply quietly_opens, quietly_ret; by apply taken_start].
  destruct (bool_decide _); [by apply quietly_opens, quietly_dir|]. unfold take_file. destruct (bool_decide _).
  { apply opens_bind. intros [u|e]; apply quietly_opens, quietly_ret; by apply taken_start. }
  destruct (bool_decide _); [|by apply opens_both]. apply opens_bind.
  intros [u|e]; [apply quietly_opens, quietly_ret; by apply taken_start|by apply opens_both].
Qed.

(** ** The bytes of a file *)

Lemma quietly_write fuel fd bs : quietly (write_all fuel fd bs) (fun _ => True).
Proof.
  revert bs. induction fuel as [|fuel IH]; intros [|b bs]; [by apply quietly_ret..|]. cbn [write_all].
  eapply quietly_bind; [by apply quietly_any|]. intros [w|e] _; [apply IH|by apply quietly_ret].
Qed.

(** Nothing is open any more, and what there was to do is the same. *)
Definition let_go (l : list item) j : Prop := in_ j < 0 /\ todo j = l.

Lemma quietly_abandon e j : quietly (abandon e j) (let_go (todo j)).
Proof.
  unfold abandon. eapply quietly_bind; [apply quietly_close|]. intros _ _. eapply quietly_bind; [apply quietly_close|]. intros _ _.
  eapply quietly_bind; [by apply quietly_attempt|]. intros _ _. by apply quietly_ret.
Qed.

Lemma quietly_finish j : quietly (finish_current j) (let_go (todo j)).
Proof.
  unfold finish_current, close_both. eapply (quietly_bind _ _ (let_go (todo j))).
  { eapply quietly_bind; [apply quietly_close_if|]. intros _ _. eapply quietly_bind; [apply quietly_close_if|]. intros _ _. by apply quietly_ret. }
  intros j' Hj'. eapply (quietly_bind _ _ (fun _ => True)).
  { destruct (_ && _); [by apply quietly_attempt|by apply quietly_ret]. }
  intros _ _. by apply quietly_ret.
Qed.

Lemma in_flight_closed h j : in_ j < 0 -> in_flight h j = 0.
Proof. intros Hi. unfold in_flight. by zrw_true (in_ j <? 0). Qed.

Lemma in_flight_open h j k : 0 <= in_ j -> reading h = Some (current_from j, k) -> in_flight h j = weight (current_from j) - k + 1.
Proof. intros Hi Hr. unfold in_flight. zrw_false (in_ j <? 0). by rewrite Hr. Qed.

Lemma in_flight_nonneg h j : in_step h j -> 0 <= in_flight h j.
Proof.
  intros Hs. unfold in_flight. destruct (Z.ltb_spec (in_ j) 0); [done|]. destruct Hs as (k & -> & Hk); [done|]. lia.
Qed.

Lemma slice_progress fuel budget moved j h : 0 <= in_ j -> in_step h j ->
  let j' := (slice fuel budget moved j h).1 in let h' := (slice fuel budget moved j h).2 in
  in_step h' j' /\ todo j' = todo j /\ in_flight h' j' <= in_flight h j /\
  (fuel <> 0%nat -> moved < budget -> in_flight h' j' < in_flight h j).
Proof.
  intros Hi. revert moved h. induction fuel as [|fuel IH]; intros moved h Hs; [by split_and!|]. cbn [slice].
  destruct (Z.ltb_spec moved budget); [|cbn [fst snd ret]; split_and!; [done|done|done|lia]].
  destruct (Hs Hi) as (k & Hr & Hk). pose proof (in_flight_open h j k Hi Hr) as Ef.
  assert (forall (m : io file_job) h1, quietly m (let_go (todo j)) ->
    in_step (m h1).2 (m h1).1 /\ todo (m h1).1 = todo j /\ in_flight (m h1).2 (m h1).1 = 0) as Hgo.
  { intros m h1 Hm. destruct (Hm h1) as [_ [Hn Ht]]. split; [intros Hi'; lia|]. split; [done|]. by apply in_flight_closed. }
  set (want := Z.min kChunk (budget - moved)).
  rewrite (bind_run _ _ _ _ _ (read_run (in_ j) want h)).
  set (h1 := h ++ [_]). unfold delivered. destruct (answer h (QRead (in_ j) want)) as [| | |bs| | | |] eqn:Ea;
    try (cbv zeta; match goal with |- context [abandon ?e j h1] => destruct (Hgo (abandon e j) h1 (quietly_abandon e j)) as (G1 & G2 & G3) end;
         split_and!; [done|done|lia|lia]).
  destruct (take (Z.to_nat want) bs) as [|b bs'] eqn:Eb.
  { cbv zeta. destruct (Hgo (finish_current j) h1 (quietly_finish j)) as (G1 & G2 & G3). split_and!; [done|done|lia|lia]. }
  set (all := b :: bs') in *. assert (0 < zlen all) as Hlen by (unfold zlen; cbn; lia).
  assert (k + zlen all <= weight (current_from j)) as Hw.
  { rewrite <- Eb. eapply finite_files; [exact Ea|by rewrite Eb|exact Hr]. }
  destruct (quietly_write (length all) (out_ j) all h1) as [R2 _]. destruct (write_all (length all) (out_ j) all h1) as [w h2] eqn:E2.
  rewrite (bind_run _ _ _ _ _ E2). cbn [fst snd] in R2.
  assert (reading h2 = Some (current_from j, k + zlen all)) as Hr2.
  { rewrite R2. subst h1. rewrite reading_snoc, Hr. cbn [reading1 fmap option_fmap option_map fst snd]. by rewrite Eb. }
  destruct w as [e|].
  - cbv zeta. destruct (Hgo (abandon e j) h2 (quietly_abandon e j)) as (G1 & G2 & G3). split_and!; [done|done|lia|lia].
  - destruct (IH (moved + zlen all) h2) as (I1 & I2 & I3 & _); [intros _; exists (k + zlen all); split; [done|lia]|].
    rewrite (in_flight_open h2 j _ Hi Hr2) in I3. cbv zeta. split_and!; [done|done|lia|lia].
Qed.

(** ** The whole work *)

Lemma step_progress b j h : 1 <= b -> in_step h j ->
  let j' := (step b j h).1.2 in let h' := (step b j h).2 in
  in_step h' j' /\ (active j' = false \/ left_to_do h' j' < left_to_do h j).
Proof.
  intros Hb Hs. unfold step. destruct (active j) eqn:Ea; cbn [negb]; [|split; [done|by left]].
  assert (forall j h, 0 <= in_ j -> in_step h j -> let r := slice (S (Z.to_nat b)) b 0 j h in
    in_step r.2 r.1 /\ left_to_do r.2 r.1 < left_to_do h j) as Hslice.
  { intros j0 h0 Hi0 Hs0. destruct (slice_progress (S (Z.to_nat b)) b 0 j0 h0 Hi0 Hs0) as (S1 & S2 & _ & S4).
    cbv zeta. split; [done|]. unfold left_to_do. rewrite S2. specialize (S4 ltac:(done) ltac:(lia)). lia. }
  destruct (Z.ltb_spec (in_ j) 0) as [Hi|Hi].
  - destruct (todo j) as [|it t] eqn:Et.
    { unfold take_next. rewrite Et. cbn [bind ret negb fst snd active]. split; [exact Hs|by left]. }
    set (j0 := {| j with todo := t |}). destruct (opens_item it t j0 Hi eq_refl h) as [[T1 T2]|(O1 & O2 & O3 & O4)];
      destruct (take_item it j0 h) as [j1 h1] eqn:E1; cbn [fst snd] in *;
      assert (take_next j h = ((true, j1), h1)) as En by (unfold take_next; rewrite Et; unfold bind; fold j0; by rewrite E1);
      rewrite (bind_run _ _ _ _ _ En); cbn [negb].
    + zrw_true (in_ j1 <? 0). cbn [ret fst snd]. split; [intros Hi'; lia|]. right. unfold left_to_do.
      rewrite (in_flight_closed h1 j1 T1), (in_flight_closed h j Hi), Et, todo_cost_cons. lia.
    + zrw_false (in_ j1 <? 0). assert (in_step h1 j1) as Hs1.
      { intros _. exists 0. rewrite O4, O3. split; [done|]. pose proof (weight_nonneg (it_from it)). lia. }
      destruct (Hslice j1 h1 O1 Hs1) as (S1 & S2). destruct (slice _ _ _ j1 h1) as [j2 h2] eqn:E2. rewrite (bind_run _ _ _ _ _ E2). cbn [ret fst snd] in *.
      split; [done|]. right. etrans; [exact S2|]. unfold left_to_do. rewrite (in_flight_closed h j Hi), Et, todo_cost_cons, O2.
      rewrite (in_flight_open h1 j1 0 O1) by (by rewrite O3). rewrite O3. pose proof (cost_pos it) as Hc.
      destruct (rmdir_only it) eqn:Em; [|unfold cost; rewrite Em; pose proof (weight_nonneg (it_from it)); lia].
      exfalso. unfold take_item in E1. rewrite Em in E1. destruct (quietly_marker it t j0 Hi eq_refl h) as [_ [Hn _]]. rewrite E1 in Hn. cbn in Hn. lia.
  - rewrite (bind_run _ _ _ _ _ (eq_refl : ret (true, j) h = _)). cbn [negb]. zrw_false (in_ j <? 0).
    destruct (Hslice j h Hi Hs) as (S1 & S2). destruct (slice _ _ _ j h) as [j2 h2] eqn:E2. rewrite (bind_run _ _ _ _ _ E2). cbn [ret fst snd] in *.
    split; [done|by right].
Qed.

Lemma steps_idle budgets j h : active j = false -> active (steps budgets j h).1 = false.
Proof.
  revert j h. induction budgets as [|b budgets IH]; intros j h Ea; [done|]. cbn [steps].
  assert (step b j h = ((false, j), h)) as E by (unfold step; by rewrite Ea). rewrite (bind_run _ _ _ _ _ E). by apply IH.
Qed.

Lemma steps_end budgets j h : Forall (Z.le 1) budgets -> in_step h j -> left_to_do h j < zlen budgets ->
  active (steps budgets j h).1 = false.
Proof.
  intros Hb. revert j h. induction Hb as [|b budgets Hb _ IH]; intros j h Hs Hl.
  { exfalso. pose proof (in_flight_nonneg h j Hs). pose proof (todo_cost_nonneg (todo j)). unfold left_to_do in Hl. rewrite zlen_nil in Hl. lia. }
  cbn [steps]. destruct (step_progress b j h Hb Hs) as [S1 S2]. destruct (step b j h) as [[more j'] h'] eqn:E. rewrite (bind_run _ _ _ _ _ E).
  cbn [fst snd] in *. destruct S2 as [Ha|Hlt]; [by apply steps_idle|]. apply IH; [done|]. unfold zlen in *. cbn [length] in Hl. lia.
Qed.

(** C18: the work on files ends.  When the directories it meets list no more than there is
    under them, and the files give no more bytes than they hold, a copy, a move or a
    deletion is over after a number of refreshes bounded by the size of the trees, of
    one byte at least each, whatever fails on the way. *)
Theorem work_ends sources dest k j0 h budgets : Forall (Z.le 1) budgets ->
  List.fold_right Z.add 0 ((fun p => 3 * weight p + 2) <$> sources) < zlen budgets ->
  active (bind (start sources dest k j0) (steps budgets) h).1 = false.
Proof.
  intros Hb Hl. destruct (start sources dest k j0 h) as [j h'] eqn:E. rewrite (bind_run _ _ _ _ _ E).
  assert (in_ j = -1 /\ todo j = first_items sources dest k) as [Ei Et].
  { unfold start in E. destruct (cancel j0 h) as [j1 h1] eqn:E1. rewrite (bind_run _ _ _ _ _ E1) in E. injection E as <- _. split; [|done].
    unfold cancel in E1. destruct (close_both j0 h) as [j2 h2] eqn:E2. rewrite (bind_run _ _ _ _ _ E2) in E1. by injection E1 as <- _. }
  apply steps_end; [done|intros Hi; lia|]. unfold left_to_do. rewrite in_flight_closed by lia. rewrite Et, Z.add_0_r.
  eapply Z.le_lt_trans; [|exact Hl]. apply Z.eq_le_incl. unfold todo_cost, first_items. f_equal. rewrite <- list_fmap_compose. done.
Qed.
End Ends.

(** A disk of files of three bytes, which takes them one by one. *)
Definition three_bytes : System := {|
  answer := fun h q =>
    match q with
    | QLstat _ | QStat _ => RStat (Stat TReg 420 3 0)
    | QReadDir _ => RNames []
    | QOpenRead _ => RCount 7
    | QOpenNew _ _ | QOpenTrunc _ _ => RCount 8
    | QRead _ _ => match reading h with Some (_, 0) => RBytes [1; 2; 3] | _ => RBytes [] end
    | QWrite _ _ => RCount 1
    | _ => ROk
    end;
  strerror := to_string;
  home_of_user := None; shell_of_user := None; environ := [];
  localdate := fun _ => None;
|}.

Lemma work_ends_witness :
  active (bind (@start three_bytes [str "/f"] (str "/d") Copy job_new) (@steps three_bytes (replicate 12 1)) []).1 = false.
Proof.
  refine (@work_ends three_bytes (fun _ => 3) _ _ _ [str "/f"] (str "/d") Copy job_new [] (replicate 12 1) _ _).
  - done.
  - intros h p l [= <-]. done.
  - intros h fd n bs p k Ha Hne Hr. cbn in Ha. rewrite Hr in Ha. destruct k as [|k|k]; injection Ha as <-; [|by rewrite take_nil in Hne..].
    unfold zlen. rewrite length_take. cbn. lia.
  - by apply (bool_decide_unpack _).
  - done.
Defined.
