(* ===== verification/FileJobReach.v ===== *)
(** * How far the work on files reaches

    Where the requests of a work go, whatever the disk answers: down from what it was
    given, by the names the directories list, and never through a link. *)

From S2P Require Import Prelude StdString Syscalls Dir FileJob.

(** The path from [p] down by [names]. *)
Definition down (p : bytes) (names : list bytes) : bytes := fold_left join_path names p.

(** [p] is in the tree of one of the sources, and [q] stands at the same place of the
    tree to be: below [dest]. *)
Definition mirrored (sources : list bytes) (dest p q : bytes) : Prop :=
  exists src names, In src sources /\ Forall (fun nm => is_dots nm = false) names /\
    p = down src names /\ q = down (join_path dest (base_name src)) names.

Definition in_source (sources : list bytes) (p : bytes) : Prop :=
  exists src names, In src sources /\ Forall (fun nm => is_dots nm = false) names /\ p = down src names.

Definition in_target (sources : list bytes) (dest q : bytes) : Prop := exists p, mirrored sources dest p q.

(** The disk has said of [p] that it is a directory, and no link to one. *)
Definition seen_dir (p : bytes) (l : history) : Prop := exists st, In (Event (QLstat p) (RStat st)) l /\ st_type st = TDir.

(** What a request may be after [l]. *)
Definition within (sources : list bytes) (dest : bytes) (k : file_op) (l : history) (q : request) : Prop :=
  match q with
  | QLstat p | QOpenRead p => in_source sources p
  | QReadDir p => in_source sources p /\ seen_dir p l
  | QRmdir p => k <> Copy /\ in_source sources p /\ seen_dir p l
  | QUnlink p => (k <> Copy /\ in_source sources p) \/ (k <> Delete /\ in_target sources dest p)
  | QRename p q => k = Move /\ mirrored sources dest p q
  | QMkdir q _ => k <> Delete /\ in_target sources dest q
  | QOpenNew q _ => k <> Delete /\ in_target sources dest q
  | QRead _ _ | QWrite _ _ | QClose _ => True
  | _ => False
  end.

Section Reach.
Context `{System} (sources : list bytes) (dest : bytes) (k : file_op).
Implicit Type j : file_job.

Abbreviation all_within := (each (within sources dest k)).

Lemma seen_dir_snoc p l e : seen_dir p l -> seen_dir p (l ++ [e]).
Proof. intros (st & Hi & Ht). exists st. split; [apply in_or_app; by left|done]. Qed.

(** What is left to do, after [l]. *)
Definition it_ok (l : history) (it : item) : Prop :=
  if rmdir_only it then k <> Copy /\ in_source sources (it_from it) /\ seen_dir (it_from it) l
  else in_source sources (it_from it) /\ (k <> Delete -> mirrored sources dest (it_from it) (it_to it)).

Lemma it_ok_snoc l it e : it_ok l it -> it_ok (l ++ [e]) it.
Proof. unfold it_ok. destruct (rmdir_only it); [|done]. intros (Hk & Hs & Hd). split_and!; [done..|by apply seen_dir_snoc]. Qed.

(** A file opened is one of the sources', and goes to its place. *)
Definition copying_ok j : Prop := k <> Delete /\ in_source sources (current_from j) /\ in_target sources dest (current_to j).

Definition reach (l : history) j : Prop :=
  op j = k /\ Forall (it_ok l) (todo j) /\ all_within l /\ (0 <= in_ j -> copying_ok j).

Lemma reach_snoc l j q r : reach l j -> within sources dest k l q -> reach (l ++ [Event q r]) j.
Proof.
  intros (Ek & Ht & Hw & Hc) Hq. split_and!; [done| |by apply each_snoc|done].
  eapply list.Forall_impl; [exact Ht|]. intros it. apply it_ok_snoc.
Qed.

(** The same work but for its counts and its error. *)
Definition same_work j j' : Prop := op j' = op j /\ todo j' = todo j /\ in_ j' = in_ j /\ current_from j' = current_from j /\ current_to j' = current_to j.

Lemma reach_same l j j' : same_work j j' -> reach l j -> reach l j'.
Proof. intros (E1 & E2 & E3 & E4 & E5) (Ek & Ht & Hw & Hc). unfold reach, copying_ok. rewrite E1, E2, E3, E4, E5. by split_and!. Qed.

Lemma reach_closed l j : in_ j < 0 -> reach l j -> reach l (forget_current j).
Proof. intros Hi (Ek & Ht & Hw & _). split_and!; [done..|]. cbn. lia. Qed.

(** One request. *)
Lemma trace_one {A} j q (f : reply -> A) (Q : A -> history -> Prop) (P : history -> Prop) :
  (forall l, P l -> reach l j /\ within sources dest k l q) ->
  (forall r l, reach (l ++ [Event q r]) j -> P l -> Q (f r) (l ++ [Event q r])) ->
  trace P (let! r := call q in ret (f r)) Q.
Proof. intros Hp Hq. apply trace_reply. intros r l Hl. destruct (Hp l Hl). apply Hq; [by apply reach_snoc|done]. Qed.

(** A close, whatever else holds. *)
Lemma close_reach fd (P : history -> Prop) : (forall l r, P l -> P (l ++ [Event (QClose fd) r])) -> trace P (sys_close fd) (fun _ l => P l).
Proof. intros Hp. apply trace_reply. intros r l Hl. by apply Hp. Qed.

Lemma close_if_reach fd (P : history -> Prop) : (forall l r, P l -> P (l ++ [Event (QClose fd) r])) -> trace P (sys_close_if fd) (fun _ l => P l).
Proof. intros Hp. unfold sys_close_if. case_match; [by apply close_reach|by apply trace_ret]. Qed.

Lemma closes_reach j P Q : (forall l fd r, P l -> P (l ++ [Event (QClose fd) r])) ->
  (forall l, P l -> Q {| j with in_ := -1; out_ := -1 |} l) -> trace P (close_both j) Q.
Proof.
  intros Hp Hq. unfold close_both. apply (trace_bind _ _ _ (fun _ l => P l)); [apply close_if_reach; by auto|]. intros _.
  apply (trace_bind _ _ _ (fun _ l => P l)); [apply close_if_reach; by auto|]. intros _. by apply trace_ret.
Qed.

Lemma reach_close l j fd r : reach l j -> reach (l ++ [Event (QClose fd) r]) j.
Proof. intros Hl. by apply reach_snoc. Qed.

(** ** The start *)

Lemma mirrored_top src : In src sources -> mirrored sources dest src (join_path dest (base_name src)).
Proof. intros Hs. by exists src, []. Qed.

Lemma mirrored_source p q : mirrored sources dest p q -> in_source sources p.
Proof. intros (src & names & Hs & Hn & Ep & _). by exists src, names. Qed.

Lemma start_reach j : trace (fun l => l = []) (start sources dest k j) (fun j' l => reach l j').
Proof.
  apply (trace_bind _ _ _ (fun j' l => all_within l /\ in_ j' = -1)).
  - apply (trace_bind _ _ _ (fun _ l => all_within l)); [|intros j'; by apply trace_ret].
    eapply trace_weaken; [apply (closes_reach j all_within (fun _ l => all_within l))| |done]; [|done|intros l ->; apply each_nil].
    intros l fd r Hl. by apply each_snoc.
  - intros j'. apply trace_ret. cbn. intros l [Hl Hi]. split_and!; [done| |done|cbn; lia].
    apply Forall_fmap, List.Forall_forall. intros src Hs. cbn.
    split; [by exists src, []|]. intros Hk. rewrite bool_decide_false by done. by apply mirrored_top.
Qed.

(** ** One item *)

Lemma down_snoc p names nm : down p (names ++ [nm]) = join_path (down p names) nm.
Proof. unfold down. by rewrite fold_left_app. Qed.

Lemma source_child p nm : is_dots nm = false -> in_source sources p -> in_source sources (join_path p nm).
Proof.
  intros Hd (src & names & Hs & Hn & ->). exists src, (names ++ [nm]). rewrite down_snoc. split_and!; [done| |done].
  apply Forall_app. by split; [|constructor].
Qed.

Lemma mirrored_child p q nm : is_dots nm = false -> mirrored sources dest p q -> mirrored sources dest (join_path p nm) (join_path q nm).
Proof.
  intros Hd (src & names & Hs & Hn & -> & ->). exists src, (names ++ [nm]). rewrite !down_snoc. split_and!; [done| |done..].
  apply Forall_app. by split; [|constructor].
Qed.

Lemma children_ok h l it todo : it_ok h it -> rmdir_only it = false -> Forall (it_ok h) todo ->
  Forall (it_ok h) (push_children k it l todo).
Proof.
  intros Hi Hr. revert todo. induction l as [|e l IH]; intros todo Ht; [done|]. cbn [push_children]. apply IH.
  destruct (is_dots (d_name e)) eqn:Ed; [done|]. constructor; [|done]. unfold it_ok in *. rewrite Hr in Hi. cbn [rmdir_only it_from it_to].
  destruct Hi as [Hs Hm]. split; [by apply source_child|]. intros Hk. rewrite bool_decide_false by done. apply mirrored_child; auto.
Qed.

Lemma attempt_reach j q (P : history -> Prop) :
  (forall l, P l -> reach l j /\ within sources dest k l q) -> trace P (attempt q) (fun _ l => reach l j).
Proof. intros Hp. by apply (trace_one j). Qed.

(** A request that only succeeds or fails, and the work as it was but for its counts. *)
Lemma trace_counted j q (P : history -> Prop) (g : result unit -> file_job) :
  (forall l, P l -> reach l j /\ within sources dest k l q) -> (forall r, same_work j (g r)) ->
  trace P (let! r := attempt q in ret (g r)) (fun j' l => reach l j').
Proof.
  intros Hp Hg. eapply trace_bind; [by apply (attempt_reach j)|]. intros r. apply trace_ret. intros l. by apply reach_same.
Qed.

Lemma marker_reach it j : trace (fun l => reach l j /\ rmdir_only it = true /\ it_ok l it) (take_marker it j) (fun j' l => reach l j').
Proof.
  apply (trace_counted j); [|intros [[]|e]; [by destruct (bool_decide _)|done]].
  intros l (Hl & Hr & Hi). split; [done|]. unfold it_ok in Hi. by rewrite Hr in Hi.
Qed.

(** An item that is no marker, and what [lstat] said of it. *)
Definition at_item it (st : stat) (l : history) j : Prop :=
  reach l j /\ in_ j < 0 /\ rmdir_only it = false /\ it_ok l it /\ In (Event (QLstat (it_from it)) (RStat st)) l.

Lemma at_item_source it st l j : at_item it st l j -> in_source sources (it_from it) /\ (k <> Delete -> mirrored sources dest (it_from it) (it_to it)).
Proof. intros (_ & _ & Hr & Hi & _). unfold it_ok in Hi. by rewrite Hr in Hi. Qed.

Lemma at_item_target it st l j : at_item it st l j -> k <> Delete -> in_target sources dest (it_to it).
Proof. intros Hl Hk. destruct (at_item_source _ _ _ _ Hl) as [_ Hm]. exists (it_from it). by apply Hm. Qed.

Lemma at_item_snoc it st l j q r : at_item it st l j -> within sources dest k l q -> at_item it st (l ++ [Event q r]) j.
Proof.
  intros (Hl & Hi & Hr & Ho & He) Hq. split_and!; [by apply reach_snoc|done|done|by apply it_ok_snoc|apply in_or_app; by left].
Qed.

Lemma trace_at_item {A} it st j q (f : reply -> A) :
  (forall l, at_item it st l j -> within sources dest k l q) ->
  trace (fun l => at_item it st l j) (let! r := call q in ret (f r)) (fun _ l => at_item it st l j).
Proof. intros Hq. apply trace_reply. intros r l Hl. apply at_item_snoc; auto. Qed.

Lemma trace_make_dir it st j : op j = k -> trace (fun l => at_item it st l j) (make_dir it st j) (fun _ l => at_item it st l j).
Proof.
  intros Ek. unfold make_dir. destruct (bool_decide_reflect (op j = Delete)); [by apply trace_ret|].
  apply (trace_bind _ _ _ (fun _ l => at_item it st l j)); [|intros r; by apply trace_ret].
  apply trace_at_item. intros l Hl. assert (k <> Delete) by congruence. split; [done|by eapply at_item_target].
Qed.

Lemma dir_reach it st j : op j = k -> st_type st = TDir ->
  trace (fun l => at_item it st l j) (take_dir it st j) (fun j' l => reach l j').
Proof.
  intros Ek Ed. unfold take_dir. apply (trace_bind _ _ _ (fun _ l => at_item it st l j)); [by apply trace_make_dir|].
  intros [[]|e]; [|apply trace_ret; intros l Hl; eapply reach_same; [|apply Hl]; done].
  set (j1 := if bool_decide (op j = Copy) then j else _).
  apply (trace_bind _ _ _ (fun _ l => at_item it st l j)).
  { apply trace_at_item. intros l Hl. split; [by eapply at_item_source|]. exists st. split; [apply Hl|done]. }
  assert (forall l, at_item it st l j -> reach l j1 /\ in_ j1 < 0) as Hj1.
  { intros l Hl. pose proof Hl as ((_ & Ht & Hw & Hc) & Hi & _ & _ & He). unfold j1. destruct (bool_decide_reflect (op j = Copy)); [by split; [apply Hl|]|].
    split; [|done]. split_and!; [done| |done|done]. constructor; [|done]. cbn. split_and!; [congruence|by eapply at_item_source|by exists st]. }
  intros r. apply trace_ret. intros l Hl. destruct (Hj1 l Hl) as [Hr Hi]. destruct r as [names|e]; [|by eapply reach_same].
  set (j2 := FileJob _ _ _ _ _ _ _ _ _ _ _). assert (reach l j2) as H2.
  { destruct Hr as (E1 & Ht & Hw & Hc). split_and!; [done| |done|done]. cbn [todo j2]. rewrite E1. apply children_ok; [apply Hl..|done]. }
  destruct (bool_decide (op j2 = Delete)); [done|]. by eapply reach_same.
Qed.

Lemma open_reach it st j : k <> Delete -> trace (fun l => at_item it st l j) (open_both it st j) (fun j' l => reach l j').
Proof.
  intros Hk. unfold open_both. apply (trace_bind _ _ _ (fun _ l => at_item it st l j)).
  { apply trace_at_item. intros l Hl. by eapply at_item_source. }
  intros [fdi|e]; [|apply trace_ret; intros l Hl; eapply reach_same; [|apply Hl]; done].
  apply (trace_bind _ _ _ (fun _ l => at_item it st l j)).
  { apply trace_at_item. intros l Hl. split; [done|by eapply at_item_target]. }
  intros [fdo|e].
  - apply trace_ret. intros l Hl. pose proof Hl as ((Ek & Ht & Hw & _) & _). split_and!; [done..|]. intros _. unfold copying_ok. cbn.
    split_and!; [done|by eapply at_item_source|by eapply at_item_target].
  - apply (trace_then _ _ _ (fun l => at_item it st l j)); [apply trace_at_item; done|]. apply trace_ret. intros l Hl.
    eapply reach_same; [|apply Hl]; done.
Qed.

Lemma file_reach it st j : op j = k -> trace (fun l => at_item it st l j) (take_file it st j) (fun j' l => reach l j').
Proof.
  intros Ek. unfold take_file. destruct (bool_decide_reflect (op j = Delete)) as [Ed|Ed].
  { apply (trace_counted j); [|by intros []]. intros l Hl. split; [apply Hl|]. left. split; [congruence|by eapply at_item_source]. }
  destruct (bool_decide_reflect (op j = Move)) as [Em|]; [|apply open_reach; congruence].
  apply (trace_bind _ _ _ (fun _ l => at_item it st l j)).
  { apply trace_at_item. intros l Hl. split; [congruence|]. destruct (at_item_source _ _ _ _ Hl) as [_ Hm]. apply Hm. congruence. }
  intros [[]|e]; [|apply open_reach; congruence]. apply trace_ret. intros l Hl. eapply reach_same; [|apply Hl]; done.
Qed.

Lemma item_reach it j : op j = k ->
  trace (fun l => reach l j /\ in_ j < 0 /\ it_ok l it) (take_item it j) (fun j' l => reach l j').
Proof.
  intros Ek. unfold take_item. destruct (rmdir_only it) eqn:Er.
  { eapply trace_weaken; [apply marker_reach| |done]. intros l (Hl & _ & Hi). by split_and!. }
  apply (trace_bind _ _ _ (fun r l => match r with Done st => at_item it st l j | Error _ => reach l j end)).
  - apply trace_reply. intros r l (Hl & Hi & Ho). assert (within sources dest k l (QLstat (it_from it))) as Hq.
    { unfold it_ok in Ho. rewrite Er in Ho. apply Ho. }
    destruct r; try by apply reach_snoc. split_and!; [by apply reach_snoc|done|done|by apply it_ok_snoc|].
    apply in_or_app. right. by left.
  - intros [st|e]; [|apply trace_ret; intros l; by apply reach_same].
    destruct (bool_decide_reflect (st_type st = TDir)); [by apply dir_reach|by apply file_reach].
Qed.

Lemma next_reach j : trace (fun l => reach l j /\ in_ j < 0) (take_next j) (fun p l => reach l p.2).
Proof.
  apply (trace_given (op j = k)); [by intros l [[Ek _] _]|]. intros Ek.
  unfold take_next. destruct (todo j) as [|it l0] eqn:Et; [by apply trace_ret; intros l [Hl _]|].
  set (j1 := FileJob _ _ _ _ _ _ _ _ _ _ _). apply (trace_bind _ _ _ (fun j' l => reach l j')); [|intros j'; by apply trace_ret].
  eapply trace_weaken; [by apply (item_reach it j1)| |done]. intros l ((E & Ht & Hw & Hc) & Hi).
  rewrite Et in Ht. inversion Ht as [|x y Hit Hl0]; subst. by split_and!.
Qed.

(** ** The slices *)

(** A copy in course. *)
Definition in_course (l : history) j : Prop := reach l j /\ copying_ok j.

Lemma in_course_snoc l j q r : in_course l j -> within sources dest k l q -> in_course (l ++ [Event q r]) j.
Proof. intros [Hl Hc] Hq. split; [by apply reach_snoc|done]. Qed.

Lemma trace_in_course {A} j q (f : reply -> A) : (forall l, in_course l j -> within sources dest k l q) ->
  trace (fun l => in_course l j) (let! r := call q in ret (f r)) (fun _ l => in_course l j).
Proof. intros Hq. apply trace_reply. intros r l Hl. apply in_course_snoc; auto. Qed.

Lemma in_course_closed l j : in_course l j -> reach l {| j with in_ := -1; out_ := -1 |}.
Proof. intros [(Ek & Ht & Hw & _) _]. split_and!; [done..|]. cbn. lia. Qed.

Lemma finish_reach j : trace (fun l => in_course l j) (finish_current j) (fun j' l => reach l j').
Proof.
  unfold finish_current. apply (trace_bind _ _ _ (fun j' l => in_course l j /\ j' = {| j with in_ := -1; out_ := -1 |})).
  { apply (closes_reach j (fun l => in_course l j)); [|done]. intros l fd r Hl. by apply in_course_snoc. }
  intros j'. apply (trace_given (j' = {| j with in_ := -1; out_ := -1 |})); [by intros l [_ E]|]. intros ->.
  apply (trace_then _ _ _ (fun l => in_course l j)).
  - destruct (_ && _) eqn:Em; [|by apply trace_ret; intros l [Hl _]].
    apply (trace_weaken _ (fun l => in_course l j) _ (fun _ l => in_course l j)); [|by intros l [Hl _]|done].
    apply trace_in_course. intros l [(Ek & _) (Hk & Hs & _)]. left. split; [|done]. cbn in Em.
    apply andb_prop in Em as [Em _]. apply bool_decide_eq_true_1 in Em. congruence.
  - apply trace_ret. intros l Hl. apply (reach_closed l (count {| j with in_ := -1; out_ := -1 |})); [cbn; lia|].
    eapply reach_same; [|by apply in_course_closed]. done.
Qed.

Lemma abandon_reach e j : trace (fun l => in_course l j) (abandon e j) (fun j' l => reach l j').
Proof.
  unfold abandon. set (j1 := fail _ j). assert (forall l, in_course l j -> in_course l j1) as H1.
  { intros l [Hl Hc]. split; [by eapply reach_same|done]. }
  apply (trace_weaken _ (fun l => in_course l j1) _ (fun j' l => reach l j')); [|done|done].
  apply (trace_then _ _ _ (fun l => in_course l j1)); [by apply trace_in_course|].
  apply (trace_then _ _ _ (fun l => in_course l j1)); [by apply trace_in_course|].
  apply (trace_then _ _ _ (fun l => in_course l j1)).
  { apply trace_in_course. intros l [_ (Hk & _ & Ht)]. by right. }
  apply trace_ret. intros l Hl. apply (reach_closed l {| j1 with in_ := -1; out_ := -1 |}); [cbn; lia|by apply in_course_closed].
Qed.

Lemma write_reach j fuel fd bs : trace (fun l => in_course l j) (write_all fuel fd bs) (fun _ l => in_course l j).
Proof.
  revert bs. induction fuel as [|fuel IH]; intros bs; [by apply trace_ret|]. destruct bs as [|b bs]; [by apply trace_ret|].
  cbn [write_all]. apply (trace_bind _ _ _ (fun _ l => in_course l j)); [by apply trace_in_course|].
  intros [w|e]; [apply IH|by apply trace_ret].
Qed.

Lemma slice_reach fuel budget moved j : trace (fun l => in_course l j) (slice fuel budget moved j) (fun j' l => reach l j').
Proof.
  revert moved. induction fuel as [|fuel IH]; intros moved; [by apply trace_ret; intros l [Hl _]|]. cbn [slice].
  destruct (moved <? budget); [|by apply trace_ret; intros l [Hl _]].
  apply (trace_bind _ _ _ (fun _ l => in_course l j)); [by apply trace_in_course|].
  intros [[|b bs]|e]; [apply finish_reach| |apply abandon_reach].
  apply (trace_bind _ _ _ (fun _ l => in_course l j)); [apply write_reach|]. intros [e|]; [apply abandon_reach|apply IH].
Qed.

Lemma step_reach budget j : trace (fun l => reach l j) (step budget j) (fun p l => reach l p.2).
Proof.
  unfold step. destruct (active j); [|by apply trace_ret]. cbn [negb]. apply (trace_bind _ _ _ (fun p l => reach l p.2)).
  - destruct (Z.ltb_spec (in_ j) 0); [|by apply trace_ret]. by eapply trace_weaken; [apply next_reach|..].
  - intros [more j']. cbn [snd]. destruct (negb more); [apply trace_ret; intros l Hl; exact Hl|].
    destruct (Z.ltb_spec (in_ j') 0); [by apply trace_ret|].
    apply (trace_bind _ _ _ (fun j l => reach l j)); [|intros j2; by apply trace_ret].
    eapply trace_weaken; [apply slice_reach| |done]. intros l Hl. split; [done|]. by apply Hl.
Qed.

Lemma steps_reach budgets j : trace (fun l => reach l j) (steps budgets j) (fun j' l => reach l j').
Proof.
  revert j. induction budgets as [|b budgets IH]; intros j; [by apply trace_ret|]. cbn [steps].
  eapply trace_bind; [apply step_reach|]. intros p. apply IH.
Qed.


End Reach.
