(* ===== verification/TreeDisk.v ===== *)
(** * A disk to run the programs on

    A [System] computed from the history: a tree of directories and files, with the
    answers POSIX gives on one where every call is allowed.  Links, permissions and
    other devices are left out.  The witnesses and the examples run on it; no theorem
    depends on it. *)

From S2P Require Import Prelude StdString Syscalls Dir.

Inductive node := NDir | NFile (content : bytes).

Record tree := Tree { nodes : list (bytes * node); fds : list (Z * (bytes * nat)) }.

#[export] Instance node_eq_dec : EqDecision node. Proof. solve_decision. Defined.

Fixpoint find_node (p : bytes) (l : list (bytes * node)) : option node :=
  match l with [] => None | (q, n) :: l => if bool_decide (p = q) then Some n else find_node p l end.

Definition drop_node (p : bytes) (l : list (bytes * node)) : list (bytes * node) :=
  List.filter (fun x => negb (bool_decide (fst x = p))) l.

Definition set_node (p : bytes) (n : node) (l : list (bytes * node)) : list (bytes * node) := drop_node p l ++ [(p, n)].

Definition child_of (p : bytes) (x : bytes * node) : bool :=
  negb (bool_decide (fst x = p)) && bool_decide (parent_path (fst x) = p).

Definition name_of (p : bytes) : bytes := match rfind slash p with Some i => drop (S i) p | None => p end.

Definition ENOENT : Z := 2.
Definition ENOTDIR : Z := 20.
Definition EISDIR : Z := 21.
Definition ENOTEMPTY : Z := 39.

Definition stat_of (n : node) : stat :=
  match n with NDir => Stat TDir 493 4096 0 | NFile c => Stat TReg 420 (zlen c) 0 end.

Definition free_fd (t : tree) : Z := zlen (fds t) + 3.

Definition open_in (t : tree) (p : bytes) (l : list (bytes * node)) : tree * reply :=
  (Tree l ((free_fd t, (p, 0%nat)) :: fds t), RCount (free_fd t)).

Fixpoint find_fd (fd : Z) (l : list (Z * (bytes * nat))) : option (bytes * nat) :=
  match l with [] => None | (f, x) :: l => if fd =? f then Some x else find_fd fd l end.

Definition seek (fd : Z) (p : bytes) (at_ : nat) (t : tree) : list (Z * (bytes * nat)) :=
  (fd, (p, at_)) :: List.filter (fun x => negb (fst x =? fd)) (fds t).

Definition apply_call (t : tree) (q : request) : tree * reply :=
  let dir p := bool_decide (find_node (parent_path p) (nodes t) = Some NDir) in
  match q with
  | QLstat p | QStat p => (t, match find_node p (nodes t) with Some n => RStat (stat_of n) | None => RErr ENOENT end)
  | QReadDir p =>
      (t, match find_node p (nodes t) with
          | Some NDir => RNames ((fun x => Dirent (name_of (fst x)) None) <$> List.filter (child_of p) (nodes t))
          | Some _ => RErr ENOTDIR
          | None => RErr ENOENT
          end)
  | QReadLink _ _ => (t, RErr ENOENT)
  | QMkdir p _ =>
      match find_node p (nodes t) with
      | Some _ => (t, RErr EEXIST)
      | None => if dir p then (Tree (set_node p NDir (nodes t)) (fds t), ROk) else (t, RErr ENOENT)
      end
  | QRmdir p =>
      match find_node p (nodes t) with
      | Some NDir => if existsb (child_of p) (nodes t) then (t, RErr ENOTEMPTY) else (Tree (drop_node p (nodes t)) (fds t), ROk)
      | Some _ => (t, RErr ENOTDIR)
      | None => (t, RErr ENOENT)
      end
  | QUnlink p =>
      match find_node p (nodes t) with
      | Some (NFile _) => (Tree (drop_node p (nodes t)) (fds t), ROk)
      | Some NDir => (t, RErr EISDIR)
      | None => (t, RErr ENOENT)
      end
  | QRename p q =>
      match find_node p (nodes t), find_node q (nodes t) with
      | Some (NFile c), Some (NFile _) | Some (NFile c), None =>
          if dir q then (Tree (set_node q (NFile c) (drop_node p (nodes t))) (fds t), ROk) else (t, RErr ENOENT)
      | Some _, _ => (t, RErr EISDIR)
      | None, _ => (t, RErr ENOENT)
      end
  | QOpenRead p =>
      match find_node p (nodes t) with Some (NFile _) => open_in t p (nodes t) | Some NDir => (t, RErr EISDIR) | None => (t, RErr ENOENT) end
  | QOpenNew p _ =>
      match find_node p (nodes t) with
      | Some _ => (t, RErr EEXIST)
      | None => if dir p then open_in t p (set_node p (NFile []) (nodes t)) else (t, RErr ENOENT)
      end
  | QOpenTrunc p _ =>
      match find_node p (nodes t) with
      | Some NDir => (t, RErr EISDIR)
      | _ => if dir p then open_in t p (set_node p (NFile []) (nodes t)) else (t, RErr ENOENT)
      end
  | QRead fd n =>
      match find_fd fd (fds t) with
      | Some (p, i) =>
          match find_node p (nodes t) with
          | Some (NFile c) =>
              let bs := take (Z.to_nat n) (drop i c) in (Tree (nodes t) (seek fd p (i + length bs) t), RBytes bs)
          | _ => (t, RErr EIO)
          end
      | None => (t, RErr EIO)
      end
  | QWrite fd bs =>
      match find_fd fd (fds t) with
      | Some (p, i) =>
          match find_node p (nodes t) with
          | Some (NFile c) =>
              (Tree (set_node p (NFile (take i c ++ bs ++ drop (i + length bs) c)) (nodes t)) (seek fd p (i + length bs) t), RCount (zlen bs))
          | _ => (t, RErr EIO)
          end
      | None => (t, RErr EIO)
      end
  | QClose fd => (Tree (nodes t) (List.filter (fun x => negb (fst x =? fd)) (fds t)), ROk)
  | _ => (t, RErr EIO)
  end.

Definition replay (t : tree) (h : history) : tree := fold_left (fun t e => fst (apply_call t (ev_q e))) h t.

Definition tree_disk (t : tree) : System := {|
  answer := fun h q => snd (apply_call (replay t h) q);
  strerror := fun e => str "erreur " ++ to_string e;
  home_of_user := Some (str "/home");
  shell_of_user := Some (str "/bin/sh");
  environ := [];
  localdate := fun _ => Some (1, 0, 100);
|}.

(** The tree after a program has run on it. *)
Definition after (t : tree) {A} (m : System -> io A) : list (bytes * node) := nodes (replay t (snd (m (tree_disk t) []))).
