(* ===== verification/FileJobFlaws.v ===== *)
(** * Where the work on files loses something *)

From S2P Require Import Prelude StdString Syscalls Dir FileJob FileJobTrace FileJobEnds TreeDisk.

(** ** Examples: a copy, a move and a deletion *)

Definition demo_tree : tree :=
  Tree [(str "/", NDir); (str "/a", NDir); (str "/a/f", NFile [1; 2; 3; 4; 5]); (str "/a/s", NDir); (str "/a/s/g", NFile []); (str "/d", NDir)] [].

Definition run_work (sources : list bytes) (dest : bytes) (k : file_op) (n : nat) (s : System) : io file_job :=
  let! j := start sources dest k job_new in steps (replicate n 3) j.

Example demo_copy :
  after demo_tree (run_work [str "/a"] (str "/d") Copy 10) =
    nodes demo_tree ++ [(str "/d/a", NDir); (str "/d/a/s", NDir); (str "/d/a/s/g", NFile []); (str "/d/a/f", NFile [1; 2; 3; 4; 5])].
Proof. by vm_compute. Qed.

Example demo_delete : after demo_tree (run_work [str "/a"] [] Delete 10) = [(str "/", NDir); (str "/d", NDir)].
Proof. by vm_compute. Qed.

(** ** Flaws *)

Lemma base_name_join d nm : plain_dir d -> plain_name nm -> base_name (join_path d nm) = nm.
Proof.
  intros Hd Hn. unfold base_name. destruct (join_path_bar d nm Hd) as (d0 & -> & _).
  replace (d0 ++ slash :: nm) with ((d0 ++ [slash]) ++ nm) by (by rewrite <- app_assoc).
  rewrite strip_slashes_plain by done. rewrite <- app_assoc. cbn [app]. rewrite rfind_last by apply Hn.
  replace (d0 ++ slash :: nm) with ((d0 ++ [slash]) ++ nm) by (by rewrite <- app_assoc).
  rewrite drop_app_length'; [done|]. rewrite length_app. cbn. lia.
Qed.

Section Flaws.
Context `{System}.
Implicit Type j : file_job.

(** A move of a file asks nothing of its target: [rename] is called at once, and what
    stood there is replaced without a word. *)
Lemma move_asks_nothing_of_its_target p q t st b j h :
  active j = true -> op j = Move -> in_ j = -1 -> todo j = Item p q false :: t ->
  answer h (QLstat p) = RStat st -> st_type st <> TDir -> answer (h ++ [Event (QLstat p) (RStat st)]) (QRename p q) = ROk ->
  exists j', step b j h = ((true, j'), h ++ [Event (QLstat p) (RStat st); Event (QRename p q) ROk]) /\
    todo j' = t /\ done_ j' = done_ j + 1 /\ failed_ j' = failed_ j /\ error_ j' = error_ j.
Proof.
  intros Ha Hop Hi Ht Hl Hst Hr. exists (count {| j with todo := t |}). split; [|by split_and!].
  unfold step. rewrite Ha, Hi. cbn [negb Z.ltb Z.compare]. unfold take_next. rewrite Ht.
  unfold bind, take_item, sys_lstat, bind, call, ret. cbn [rmdir_only it_from]. rewrite Hl. cbn [fst snd].
  rewrite bool_decide_false by done. unfold take_file. cbn [op]. rewrite Hop.
  rewrite (bool_decide_false (Move = Delete)), (bool_decide_true (Move = Move)) by done.
  unfold attempt, bind, call, ret. cbn [it_from it_to]. rewrite Hr. cbn [negb in_ count]. rewrite Hi. cbn [Z.ltb Z.compare].
  rewrite <- app_assoc, Ha. reflexivity.
Qed.

(** Moving an empty directory to where it already is deletes it.  Cut and pasted in
    the directory that holds it, the work meets [mkdir] saying that the directory exists
    -- it is the source --, takes it for the new one, finds nothing to move and removes
    the source: the only trace left is that nothing failed. *)
Theorem move_in_place_deletes d nm st l b1 b2 b3 h :
  plain_dir d -> plain_name nm ->
  let p := join_path d nm in
  let l1 := h ++ [Event (QLstat p) (RStat st)] in
  let l2 := l1 ++ [Event (QMkdir p (mode_of st)) (RErr EEXIST)] in
  let l3 := l2 ++ [Event (QReadDir p) (RNames l)] in
  answer h (QLstat p) = RStat st -> st_type st = TDir -> answer l1 (QMkdir p (mode_of st)) = RErr EEXIST ->
  answer l2 (QReadDir p) = RNames l -> Forall (fun e => is_dots (d_name e) = true) l -> answer l3 (QRmdir p) = ROk ->
  let '(j, h') := bind (start [p] d Move job_new) (steps [b1; b2; b3]) h in
  h' = l3 ++ [Event (QRmdir p) ROk] /\ active j = false /\ failed_ j = 0 /\ error_ j = [].
Proof.
  intros Hd Hn p l1 l2 l3 A1 Hst A2 A3 Hl A4.
  set (j1 := FileJob true Move [Item p p false] [] [] [] (-1) (-1) 0 0 []).
  assert (start [p] d Move job_new h = (j1, h)) as E1.
  { unfold start, cancel, close_both, bind, ret, sys_close_if, ret. cbn [job_new in_ out_ Z.leb Z.compare]. unfold first_items. cbn [fmap list_fmap].
    rewrite bool_decide_false by done. subst p. by rewrite base_name_join. }
  rewrite (bind_run _ _ _ _ _ E1). set (j2 := FileJob true Move [Item p [] true] [] [] [] (-1) (-1) 1 0 []).
  assert (step b1 j1 h = ((true, j2), l3)) as E2.
  { unfold step, j1. cbn [active negb in_ Z.ltb Z.compare]. unfold take_next. cbn [todo].
    unfold bind, take_item, sys_lstat, bind, call, ret. cbn [rmdir_only it_from]. rewrite A1. fold l1. rewrite bool_decide_true by done.
    unfold take_dir, make_dir, attempt, sys_readdir, bind, call, ret. cbn [op it_to it_from].
    rewrite (bool_decide_false (Move = Delete)), (bool_decide_false (Move = Copy)) by done.
    rewrite A2. fold l2. cbn [errno_of]. rewrite Z.eqb_refl. cbn [op todo]. rewrite A3. fold l3.
    assert (forall t it, push_children Move it l t = t) as Hp.
    { clear -Hl. induction Hl as [|e l He _ IH]; [done|]. intros t it. cbn. rewrite He. apply IH. }
    rewrite Hp. by rewrite (bool_decide_false (Move = Delete)) by done. }
  cbn [steps]. rewrite (bind_run _ _ _ _ _ E2). cbn [snd steps].
  set (j3 := FileJob true Move [] [] [] [] (-1) (-1) 1 0 []). set (l4 := l3 ++ [_]).
  assert (step b2 j2 l3 = ((true, j3), l4)) as E3.
  { unfold step, j2. cbn [active negb in_ Z.ltb Z.compare]. unfold take_next. cbn [todo].
    unfold bind, take_item, take_marker, attempt, bind, call, ret. cbn [rmdir_only it_from op]. rewrite A4. fold l4.
    by rewrite (bool_decide_false (Move = Delete)) by done. }
  rewrite (bind_run _ _ _ _ _ E3). by split_and!.
Qed.
End Flaws.

Definition empty_dir_tree : tree := Tree [(str "/", NDir); (str "/e", NDir)] [].

Lemma move_in_place_deletes_witness :
  let s := tree_disk empty_dir_tree in
  let '(j, h') := bind (start [str "/e"] [slash] Move job_new) (steps [9; 9; 9]) [] in
  find_node (str "/e") (nodes (replay empty_dir_tree h')) = None /\ failed_ j = 0 /\ error_ j = [].
Proof.
  cbv zeta. pose proof (@move_in_place_deletes (tree_disk empty_dir_tree) [slash] (str "e") (stat_of NDir) [] 9 9 9 []
    (or_introl eq_refl) ltac:(split; [done|by apply (bool_decide_unpack _)]) eq_refl eq_refl eq_refl eq_refl (Forall_nil _) eq_refl) as Hm.
  change (join_path [slash] (str "e")) with (str "/e") in Hm.
  destruct (bind _ _ _) as [j h']. destruct Hm as (-> & _ & Hf & He). by split.
Defined.

(** Of two files of the same name, the one that stood in the directory of arrival is lost. *)
Example move_replaces (a b : bytes) :
  after (Tree [(str "/", NDir); (str "/d", NDir); (str "/f", NFile a); (str "/d/f", NFile b)] []) (run_work [str "/f"] (str "/d") Move 3) =
    [(str "/", NDir); (str "/d", NDir); (str "/d/f", NFile a)].
Proof. by vm_compute. Qed.
