(* ===== verification/Editor.v ===== *)
(** * The editor: [src/apps/editor/editor.hpp], [src/apps/editor/editor.cpp]

    A buffer, a cursor, a window of rows on the text, and the file it comes from.  What
    it asks of the disk is in its history. *)

From S2P Require Import Prelude StdString Utf8 Syscalls TextBuffer Cell Surface Input Window Config Host.

Inductive mode := Normal | Searching | Confirming.
#[export] Instance mode_eq_dec : EqDecision mode. Proof. solve_decision. Defined.

Record editor := Editor {
  e_buf : text_buffer;
  e_cur : text_pos;
  e_top : nat;
  e_path : bytes;
  e_status : bytes;
  e_query : bytes;
  e_mode : mode;
  e_size : size;
  e_attached : bool;
  e_hist : history;
}.

Definition line_count (b : text_buffer) : nat := length (lines b).

Section Editor.
Context `{System}.
Implicit Types (e : editor) (k : key_event).

(** ** The file *)

(** The loop of reads, at most [blocks] of them. *)
Fixpoint read_blocks (blocks : nat) (fd : Z) (out : bytes) : io bytes :=
  match blocks with
  | O => ret out
  | S blocks =>
      let! r := sys_read fd 8192 in
      match r with
      | Done [] | Error _ => ret out
      | Done bs => read_blocks blocks fd (out ++ bs)
      end
  end.

Definition read_whole (blocks : nat) (p : bytes) : io bytes :=
  let! r := sys_open (QOpenRead p) in
  match r with
  | Error _ => ret []
  | Done fd =>
      let! out := read_blocks blocks fd [] in
      let! _ := sys_close fd in
      ret out
  end.

Definition editor_of (b : text_buffer) (p : bytes) (h : history) : editor :=
  Editor b (TextPos 0 0) 0 p [] [] Normal (Size 60 20) false h.

Definition editor_empty : editor := editor_of buffer_new [] [].
Definition editor_new (blocks : nat) (p : bytes) (h : history) : editor :=
  let '(t, h) := read_whole blocks p h in editor_of (load t) p h.

Definition tmp_of (p : bytes) : bytes := p ++ str ".termos-tmp".

Inductive save_outcome := Saved | SaveFailed (why : bytes).

Definition save_to (p t : bytes) : io save_outcome :=
  let tmp := tmp_of p in
  let! r := sys_open (QOpenTrunc tmp 384) in
  match r with
  | Error e => ret (SaveFailed (str "ecriture impossible : " ++ strerror e))
  | Done fd =>
      let! n := sys_write fd t in
      let! _ := sys_close fd in
      match n with
      | Done n =>
          if n =? zlen t then
            let! r := attempt (QRename tmp p) in
            match r with
            | Done _ => ret Saved
            | Error e => let! _ := attempt (QUnlink tmp) in ret (SaveFailed (str "remplacement impossible : " ++ strerror e))
            end
          else let! _ := attempt (QUnlink tmp) in ret (SaveFailed (str "ecriture incomplete"))
      | Error _ => let! _ := attempt (QUnlink tmp) in ret (SaveFailed (str "ecriture incomplete"))
      end
  end.

Definition save e : editor :=
  if bool_decide (e_path e = []) then {| e with e_status := str "aucun fichier" |}
  else
    let '(r, h) := save_to (e_path e) (TextBuffer.text (e_buf e)) (e_hist e) in
    let e := {| e with e_hist := h |} in
    match r with
    | Saved => {| e with e_buf := mark_saved (e_buf e); e_status := str "enregistre" |}
    | SaveFailed why => {| e with e_status := why |}
    end.

(** ** The window on the text *)

Definition rows_for_text e : Z := Z.max 1 (h (e_size e) - 1).

Definition settle e : editor :=
  let c := TextBuffer.clamp (e_buf e) (e_cur e) in
  let rows := Z.to_nat (rows_for_text e) in
  let n := line_count (e_buf e) in
  let top := e_top e in
  let top := if (line c <? top)%nat then line c else top in
  let top := if (top + rows <=? line c)%nat then (line c - rows + 1)%nat else top in
  let top := if (n <? top + rows)%nat then if (rows <? n)%nat then (n - rows)%nat else 0%nat else top in
  {| e with e_cur := c; e_top := top |}.

Definition on_resize e (s : size) : editor :=
  if (w s <=? 0) || (h s <=? 0) then e else settle {| e with e_size := s |}.

(** ** Keys *)

Definition move_to e (l c : nat) : editor := settle {| e with e_cur := TextPos l c |}.

(** An edition of the buffer that moves the cursor. *)
Definition edit_with e (f : text_buffer -> text_pos -> text_buffer * text_pos) : editor :=
  let '(b, p) := f (e_buf e) (e_cur e) in settle {| e with e_buf := b; e_cur := p |}.

Definition yes (ch : Z) : bool := (ch =? 111) || (ch =? 79) || (ch =? 121) || (ch =? 89).

Definition search e : editor :=
  let e := {| e with e_mode := Normal |} in
  match TextBuffer.find (e_buf e) (e_query e) (TextPos (line (e_cur e)) (col (e_cur e) + 1)) with
  | Some p => settle {| e with e_cur := p; e_status := [] |}
  | None => {| e with e_status := str "introuvable : " ++ e_query e |}
  end.

Definition search_key e k : editor :=
  match ke_key k with
  | KEnter => search e
  | KEscape => {| e with e_mode := Normal; e_query := [] |}
  | KBackspace => {| e with e_query := removelast (e_query e) |}
  | KChar => if 32 <=? ke_ch k then {| e with e_query := e_query e ++ encode_utf8 (ke_ch k) |} else e
  | _ => e
  end.

(** The state, and whether the window asks to be closed. *)
Definition char_key e k : editor * bool :=
  if negb (Z.land (ke_mods k) Ctrl =? 0) then
    if ke_ch k =? 115 then (save e, false)
    else if ke_ch k =? 120 then
      if modified (e_buf e) then ({| e with e_mode := Confirming |}, false) else (e, e_attached e)
    else if ke_ch k =? 102 then ({| e with e_mode := Searching; e_query := [] |}, false)
    else (e, false)
  else if ke_ch k <? 32 then (e, false)
  else
    let '(b, p) := TextBuffer.insert (e_buf e) (e_cur e) (encode_utf8 (ke_ch k)) in
    (settle {| e with e_buf := b; e_cur := p; e_status := [] |}, false).

Definition normal_key e k : editor * bool :=
  let rows := Z.to_nat (rows_for_text e) in
  let l := line (e_cur e) in
  let c := col (e_cur e) in
  let n := line_count (e_buf e) in
  match ke_key k with
  | KUp => (move_to e (if (0 <? l)%nat then l - 1 else l) c, false)
  | KDown => (move_to e (if (l + 1 <? n)%nat then l + 1 else l) c, false)
  | KLeft =>
      (if (0 <? c)%nat then move_to e l (c - 1)
       else if (0 <? l)%nat then move_to e (l - 1) (length (line_at (e_buf e) (l - 1))) else settle e, false)
  | KRight =>
      (if (c <? length (line_at (e_buf e) l))%nat then move_to e l (c + 1)
       else if (l + 1 <? n)%nat then move_to e (l + 1) 0 else settle e, false)
  | KHome => (move_to e l 0, false)
  | KEnd => (move_to e l (length (line_at (e_buf e) l)), false)
  | KPgUp => (move_to e (if (rows <? l)%nat then l - rows else 0) c, false)
  | KPgDn => (move_to e (Nat.min (l + rows) (n - 1)) c, false)
  | KEnter => (edit_with e split_line, false)
  | KBackspace => (edit_with e erase_before, false)
  | KDelete => (edit_with e erase_at, false)
  | KChar => char_key e k
  | _ => (e, false)
  end.

Definition on_key e k : editor * bool :=
  match e_mode e with
  | Searching => (search_key e k, false)
  | Confirming =>
      let e := {| e with e_mode := Normal |} in
      (e, bool_decide (ke_key k = KChar) && yes (ke_ch k) && e_attached e)
  | Normal => normal_key e k
  end.

Definition can_close e : close_check :=
  if modified (e_buf e) then ask (str "Le fichier a change. Fermer sans enregistrer ?") else allow.

(** ** Drawing *)

Definition wants_cursor e : option pos :=
  let l := line (e_cur e) in
  if (l <? e_top e)%nat then None
  else
    let y := Z.of_nat (l - e_top e) in
    if rows_for_text e <=? y then None else Some (Pos (Z.of_nat (col (e_cur e))) y).

Definition bottom_of e : bytes :=
  match e_mode e with
  | Searching => str "chercher: " ++ e_query e
  | Confirming => str "quitter sans enregistrer ? (o/n)"
  | Normal =>
      (if modified (e_buf e) then str "*" else str " ") ++
      (if bool_decide (e_path e = []) then str "(sans nom)" else e_path e) ++ str "  L" ++
      to_string (Z.of_nat (line (e_cur e)) + 1) ++ str " C" ++ to_string (Z.of_nat (col (e_cur e)) + 1) ++
      (if bool_decide (e_status e = []) then [] else str "  " ++ e_status e)
  end.

(** The lines from the top of the window on, as many as it has rows. *)
Definition shown_lines e : list bytes := take (Z.to_nat (rows_for_text e)) (drop (e_top e) (lines (e_buf e))).

Definition reversed : style := Style CDefault CDefault Reverse.

Definition render e (v : size) : list draw_op :=
  if (w v <=? 0) || (h v <=? 0) then []
  else
    imap (fun i l => DrawText 0 (Z.of_nat i) l style_default) (shown_lines e) ++
    [DrawFill (Rect 0 (h v - 1) (w v) 1) reversed; DrawText 0 (h v - 1) (bottom_of e) reversed].

End Editor.
