(* ===== verification/EditorProps.v ===== *)
(** * What the editor keeps: the cursor in its window, the text on the disk *)

From S2P Require Import Prelude StdString Utf8 Syscalls TextBuffer Cell Surface Input Window Config Host Editor TreeDisk.

Section Props.
Context `{System}.
Implicit Types (e : editor) (k : key_event).

(** What the desktop gives an editor. *)
Inductive input := Key (k : key_event) | Resize (s : size) | Attach.

Definition take_input e (i : input) : editor :=
  match i with Key k => (on_key e k).1 | Resize s => on_resize e s | Attach => {| e with e_attached := true |} end.
Definition run (e : editor) (l : list input) : editor := fold_left take_input l e.

(** ** The window follows the cursor *)

Definition rows e : nat := Z.to_nat (rows_for_text e).

Definition in_window e : Prop :=
  state_ok (e_buf e, e_cur e) /\ (e_top e <= line (e_cur e) < e_top e + rows e)%nat /\
  (e_top e + rows e <= Nat.max (rows e) (line_count (e_buf e)))%nat.

Lemma rows_pos e : (0 < rows e)%nat.
Proof. unfold rows, rows_for_text. lia. Qed.

Lemma settle_ok e : buffer_ok (e_buf e) -> in_window (settle e).
Proof.
  intros Hb. pose proof (TextBuffer.clamp_ok (e_buf e) (e_cur e) Hb) as Hc. unfold in_window, settle. cbv zeta. cbn [e_buf e_cur e_top fst snd].
  change (rows _) with (rows e). fold (rows e). split; [done|]. destruct Hc as (l & Hl & _). apply lookup_lt_Some in Hl.
  pose proof (rows_pos e). unfold line_count. set (c := line (clamp _ _)) in *. clearbody c.
  set (t1 := if (c <? e_top e)%nat then c else e_top e). assert (t1 <= c)%nat by (subst t1; destruct (Nat.ltb_spec c (e_top e)); lia).
  clearbody t1. set (t2 := if (t1 + rows e <=? c)%nat then _ else t1).
  assert (t2 <= c < t2 + rows e)%nat by (subst t2; destruct (Nat.leb_spec (t1 + rows e) c); lia). clearbody t2.
  destruct (Nat.ltb_spec (length (lines (e_buf e))) (t2 + rows e)); [|lia]. destruct (Nat.ltb_spec (rows e) (length (lines (e_buf e)))); lia.
Qed.

(** An edition of the text. *)
Lemma edit_ok (ed : edit) b p : state_ok (b, p) ->
  state_ok (run_edit ed (b, p)) /\ (modified (run_edit ed (b, p)).1 = false -> TextBuffer.text (run_edit ed (b, p)).1 = TextBuffer.text b).
Proof.
  intros Hok. destruct (run_edits_step [ed] (b, p) Hok) as (_ & Hs & Ht & Hm). cbn [run_edits foldl] in *. split; [done|].
  intros E. unfold TextBuffer.text. cbn [fst] in *. by rewrite (Hm E), Ht.
Qed.

Definition edits (f : text_buffer -> text_pos -> text_buffer * text_pos) : Prop := exists ed, forall b p, f b p = run_edit ed (b, p).

(** ** What is on the disk

    The file of the editor, as the calls of the editor leave it: what it last renamed
    over it. *)
Definition file_step (p : bytes) (st : bytes * bytes) (ev : event) : bytes * bytes :=
  let '(file, tmp) := st in
  match ev with
  | Event (QOpenTrunc q _) (RCount fd) => if 0 <=? fd then (file, []) else st
  | Event (QWrite _ bs) (RCount n) => (file, tmp ++ take (Z.to_nat n) bs)
  | Event (QRename _ _) ROk => (tmp, tmp)
  | _ => st
  end.
Definition file_after (p t : bytes) (l : history) : bytes * bytes := fold_left (file_step p) l (t, []).

(** Nothing but the renaming touches the file; the rest is done beside. *)
Definition beside (p : bytes) (q : request) : Prop :=
  match q with
  | QOpenTrunc q _ | QUnlink q => q = tmp_of p
  | QRename q q' => q = tmp_of p /\ q' = p
  | QWrite _ _ | QClose _ => True
  | _ => False
  end.

Lemma file_after_snoc p t l ev : file_after p t (l ++ [ev]) = file_step p (file_after p t l) ev.
Proof. unfold file_after. by rewrite fold_left_app. Qed.

Definition wrote (p t : bytes) (l : history) : Prop := Forall (fun ev => beside p (ev_q ev)) l.

Lemma wrote_snoc p t l q r : wrote p t l -> beside p q -> wrote p t (l ++ [Event q r]).
Proof. intros Hl Hq. apply Forall_app. split; [done|by constructor]. Qed.

(** The calls of a save, on the file of content [f]. *)
Lemma trace_save p t f x :
  trace (fun l => wrote p t l /\ (file_after p t l).1 = f) (save_to p x)
    (fun r l => wrote p t l /\ (file_after p t l).1 = match r with Saved => x | SaveFailed _ => f end).
Proof.
  set (K := fun l => wrote p t l /\ (file_after p t l).1 = f). unfold save_to.
  assert (forall q, beside p q -> (forall q1 q2, q <> QRename q1 q2) -> trace K (attempt q) (fun _ => K)) as Hstill.
  { intros q Hq Hr. apply trace_reply. intros r l [Hl Hf]. split; [by apply wrote_snoc|]. rewrite file_after_snoc.
    destruct (file_after p t l) as [fi tm]. cbn [fst] in Hf. subst fi. destruct q; try done; cbn [file_step]; [by edestruct Hr|destruct r; try done; by destruct (0 <=? n)|by destruct r]. }
  assert (forall why : bytes, trace K (let! _ := attempt (QUnlink (tmp_of p)) in ret (SaveFailed why))
    (fun r l => wrote p t l /\ (file_after p t l).1 = match r with Saved => x | SaveFailed _ => f end)) as Hfail.
  { intros e. eapply trace_then; [by apply Hstill|]. by apply trace_ret. }
  apply (trace_bind _ _ _ (fun r l => match r with Error _ => K l | Done _ => wrote p t l /\ file_after p t l = (f, []) end)).
  { apply trace_reply. intros r l [Hl Hf]. pose proof (wrote_snoc p t l (QOpenTrunc (tmp_of p) 384) r Hl eq_refl) as Hl'.
    pose proof (file_after_snoc p t l (Event (QOpenTrunc (tmp_of p) 384) r)) as Hs. destruct (file_after p t l) as [fi tm]. cbn [fst] in Hf. subst fi.
    unfold descriptor, K. destruct r; try (rewrite Hs; by split). cbn [file_step] in Hs. destruct (0 <=? n); rewrite Hs; by split. }
  intros [fd|e]; [|by apply trace_ret].
  apply (trace_bind _ _ _ (fun r l => wrote p t l /\ (file_after p t l).1 = f /\ (r = Done (zlen x) -> (file_after p t l).2 = x))).
  { apply trace_reply. intros r l [Hl Hf]. pose proof (wrote_snoc p t l (QWrite fd x) r Hl I) as Hl'. split; [done|].
    rewrite file_after_snoc, Hf. destruct r; try done. cbn [file_step fst snd app]. split; [done|].
    destruct (_ || _); [|done]. intros [= E]. apply take_ge. unfold zlen in *. lia. }
  intros n. apply (trace_then _ _ _ (fun l => wrote p t l /\ (file_after p t l).1 = f /\ (n = Done (zlen x) -> (file_after p t l).2 = x))).
  { apply trace_reply. intros r l (Hl & Hf & Hx). split; [by apply wrote_snoc|]. rewrite file_after_snoc.
    destruct (file_after p t l) as [fi tm]. by destruct r. }
  assert (forall m, trace (fun l => wrote p t l /\ (file_after p t l).1 = f /\ m l) (let! _ := attempt (QUnlink (tmp_of p)) in ret (SaveFailed (str "ecriture incomplete")))
    (fun r l => wrote p t l /\ (file_after p t l).1 = match r with Saved => x | SaveFailed _ => f end)) as Hf2.
  { intros m. eapply trace_weaken; [apply Hfail| |done]. by intros l (? & ? & _). }
  destruct n as [n|e]; [|apply (Hf2 (fun _ => _))]. destruct (Z.eqb_spec n (zlen x)) as [->|]; [|apply (Hf2 (fun _ => _))].
  apply (trace_bind _ _ _ (fun r l => wrote p t l /\ (file_after p t l).1 = match r with Done _ => x | Error _ => f end)).
  { apply trace_reply. intros r l (Hl & Hf & Hx). split; [by apply wrote_snoc|]. rewrite file_after_snoc. specialize (Hx eq_refl).
    destruct (file_after p t l) as [fi tm]. cbn [fst snd] in *. subst fi tm. by destruct r. }
  intros [u|e]; [by apply trace_ret|apply Hfail].
Qed.

(** ** The life of an editor *)

(** An editor on the file [p], which held [t] when it was opened after the history [h0]. *)
Definition keeps (p t : bytes) (h0 : history) e : Prop :=
  e_path e = p /\ in_window e /\
  exists l, e_hist e = h0 ++ l /\ wrote p t l /\ (modified (e_buf e) = false -> TextBuffer.text (e_buf e) = (file_after p t l).1).

Section Life.
Context (p t : bytes) (h0 : history) (p_named : p <> []).

(** A change of what is neither the text, nor its window, nor the file. *)
Lemma keeps_same e e' : e_path e' = e_path e -> e_buf e' = e_buf e -> e_cur e' = e_cur e -> e_top e' = e_top e ->
  rows_for_text e' = rows_for_text e -> e_hist e' = e_hist e -> keeps p t h0 e -> keeps p t h0 e'.
Proof. unfold keeps, in_window, rows. intros -> -> -> -> -> ->. done. Qed.

Lemma keeps_settle e : e_path e = p -> buffer_ok (e_buf e) ->
  (exists l, e_hist e = h0 ++ l /\ wrote p t l /\ (modified (e_buf e) = false -> TextBuffer.text (e_buf e) = (file_after p t l).1)) ->
  keeps p t h0 (settle e).
Proof. intros Hp Hb Hl. split; [done|]. split; [by apply settle_ok|done]. Qed.

Lemma keeps_buffer e : keeps p t h0 e -> buffer_ok (e_buf e).
Proof. intros (_ & (Hs & _) & _). by eapply pos_ok_buffer. Qed.

Lemma keeps_move e l c : keeps p t h0 e -> keeps p t h0 (move_to e l c).
Proof. intros Hk. pose proof (keeps_buffer e Hk). destruct Hk as (Hp & _ & Hl). by apply keeps_settle. Qed.

Lemma keeps_settled e : keeps p t h0 e -> keeps p t h0 (settle e).
Proof. intros Hk. pose proof (keeps_buffer e Hk). destruct Hk as (Hp & _ & Hl). by apply keeps_settle. Qed.

(** An edition, whatever else it changes. *)
Lemma keeps_edit e ed e' : keeps p t h0 e ->
  e_path e' = e_path e -> e_hist e' = e_hist e -> e_buf e' = (run_edit ed (e_buf e, e_cur e)).1 -> keeps p t h0 (settle e').
Proof.
  intros (Hp & (Hs & _) & l & Hh & Hw & Ht) E1 E2 E3. destruct (edit_ok ed (e_buf e) (e_cur e) Hs) as [Hs' Hm].
  rewrite <- E3 in Hm. apply keeps_settle.
  - congruence.
  - rewrite E3. unfold state_ok in Hs'. by eapply pos_ok_buffer.
  - exists l. rewrite E2. split; [done|]. split; [done|]. intros E. rewrite (Hm E). apply Ht.
    destruct (modified (e_buf e)) eqn:Em; [|done]. exfalso. rewrite E3 in E. revert E.
    unfold run_edit, insert, split_line, erase_before, erase_at, with_lines. cbn [fst snd]. destruct ed; repeat case_match; cbn; congruence.
Qed.

Lemma keeps_edit_with e f : edits f -> keeps p t h0 e -> keeps p t h0 (edit_with e f).
Proof.
  intros [ed Hf] Hk. unfold edit_with. rewrite Hf. destruct (run_edit ed _) as [b q] eqn:E.
  by eapply (keeps_edit e ed); [done..|]; cbn [e_buf]; rewrite E.
Qed.

Lemma keeps_save e : keeps p t h0 e -> keeps p t h0 (save e).
Proof.
  intros Hk. unfold save. destruct Hk as (Hp & Hwin & l & Hh & Hw & Ht). rewrite bool_decide_false by congruence. rewrite Hp, Hh.
  destruct (trace_save p t (file_after p t l).1 (TextBuffer.text (e_buf e)) h0 l) as (l' & E & Hw' & Hf); [done|].
  destruct (save_to _ _ _) as [r h1]. cbn [fst snd] in *. subst h1.
  destruct r as [|why]; (split; [done|split; [exact Hwin|]]); exists l'; (split; [done|]; split; [done|]); intros E; rewrite Hf; [done|by apply Ht].
Qed.

Lemma keeps_key e k : keeps p t h0 e -> keeps p t h0 (on_key e k).1.
Proof.
  intros Hk. unfold on_key. destruct (e_mode e).
  - unfold normal_key. destruct (ke_key k); cbn [fst]; try done; try (by apply keeps_move).
    + unfold char_key. destruct (negb _).
      { destruct (_ =? 115); [by apply keeps_save|]. destruct (_ =? 120); [by destruct (modified _)|]. by destruct (_ =? 102). }
      destruct (_ <? 32); [done|]. destruct (TextBuffer.insert _ _ _) as [b q] eqn:E. cbn [fst].
      by eapply (keeps_edit e (EInsert (encode_utf8 (ke_ch k)))); [done..|]; cbn [e_buf run_edit fst snd]; rewrite E.
    + apply keeps_edit_with; [by exists ESplit|done].
    + apply keeps_edit_with; [by exists EEraseBefore|done].
    + destruct (0 <? _)%nat; [by apply keeps_move|]. destruct (0 <? _)%nat; [by apply keeps_move|by apply keeps_settled].
    + destruct (_ <? _)%nat; [by apply keeps_move|]. destruct (_ <? _)%nat; [by apply keeps_move|by apply keeps_settled].
    + apply keeps_edit_with; [by exists EEraseAt|done].
  - cbn [fst]. unfold search_key. destruct (ke_key k); try done; [by destruct (_ <=? _)|].
    unfold search. destruct (TextBuffer.find _ _ _); [|done]. pose proof (keeps_buffer e Hk). destruct Hk as (Hp & _ & Hl). by apply keeps_settle.
  - done.
Qed.

Lemma keeps_input e i : keeps p t h0 e -> keeps p t h0 (take_input e i).
Proof.
  intros Hk. destruct i as [k|s|]; [by apply keeps_key| |by eapply keeps_same; [..|exact Hk]].
  cbn [take_input]. unfold on_resize. destruct (_ || _); [done|]. pose proof (keeps_buffer e Hk). destruct Hk as (Hp & _ & Hl). by apply keeps_settle.
Qed.

Lemma keeps_run e l : keeps p t h0 e -> keeps p t h0 (run e l).
Proof. revert e. induction l as [|i l IH]; intros e Hk; [done|]. by apply IH, keeps_input. Qed.
End Life.

Lemma keeps_new blocks p h : let e := editor_new blocks p h in keeps p (TextBuffer.text (e_buf e)) (e_hist e) e.
Proof.
  cbv zeta. unfold editor_new. destruct (read_whole blocks p h) as [t h']. split; [done|]. split.
  - pose proof (load_ok t) as Hb. destruct (TextBuffer.clamp_ok (load t) (TextPos 0 0) Hb) as (l & Hl & Hc).
    unfold in_window. cbn [editor_of e_buf e_cur e_top line]. split; [|split; [pose proof (rows_pos (editor_of (load t) p h')); lia|lia]].
    unfold state_ok, pos_ok. cbn [fst snd line col]. unfold buffer_ok in Hb. destruct (lines (load t)) as [|x y]; [done|]. exists x. split; [done|lia].
  - exists []. split; [by rewrite app_nil_r|]. split; [constructor|done].
Qed.


(** The caret is on its line.  Whatever is typed and whatever the sizes of the
    window, the editor always asks for a caret, on a row of the text and not on the line
    of the status, and the line drawn on that row is the one its cursor is on. *)
Theorem caret_on_its_line blocks p h l : p <> [] ->
  let e := run (editor_new blocks p h) l in
  exists at_, wants_cursor e = Some at_ /\ 0 <= py at_ < rows_for_text e /\
    shown_lines e !! Z.to_nat (py at_) = Some (line_at (e_buf e) (line (e_cur e))).
Proof.
  intros Hp e. destruct (keeps_run p _ _ Hp _ l (keeps_new blocks p h)) as (_ & Hwin & _). fold e in Hwin.
  destruct Hwin as ((ln & Hl & Hc) & [H1 H2] & _). cbn [fst snd] in *. unfold wants_cursor. unfold rows in *.
  destruct (Nat.ltb_spec (line (e_cur e)) (e_top e)); [lia|]. destruct (Z.leb_spec (rows_for_text e) (Z.of_nat (line (e_cur e) - e_top e))); [lia|].
  eexists. split; [done|]. cbn [py]. split; [lia|]. unfold shown_lines. rewrite lookup_take_lt by lia. rewrite lookup_drop.
  replace (e_top e + Z.to_nat (Z.of_nat (line (e_cur e) - e_top e)))%nat with (line (e_cur e)) by lia. by rewrite (line_at_ok _ _ _ Hl).
Qed.
End Props.

(** ** On a disk *)

Definition note_tree : tree := Tree [(str "/", NDir); (str "/n", NFile (str "ab"))] [].
Definition ch (c : Z) : input := Key (KeyEvent KChar c 0).
Definition ctrl (c : Z) : input := Key (KeyEvent KChar c Ctrl).


Example note_saved :
  let s := tree_disk note_tree in
  nodes (replay note_tree (e_hist (@run s (@editor_new s 9 (str "/n") []) [ch 120; ctrl 115]))) = [(str "/", NDir); (str "/n", NFile (str "xab"))].
Proof. by vm_compute. Qed.

Lemma caret_on_its_line_witness :
  let s := tree_disk note_tree in
  let e := @run s (@editor_new s 9 (str "/n") []) [Resize (Size 10 2); Key (KeyEvent KEnter 0 0); ch 120] in
  exists at_, wants_cursor e = Some at_ /\ 0 <= py at_ < rows_for_text e /\
    shown_lines e !! Z.to_nat (py at_) = Some (line_at (e_buf e) (line (e_cur e))).
Proof. by apply (@caret_on_its_line (tree_disk note_tree) 9 (str "/n") [] [Resize (Size 10 2); Key (KeyEvent KEnter 0 0); ch 120]). Defined.

(** ** Flaws *)

(** A letter of two bytes: one erasure leaves half of it, and the caret is a column too far. *)
Example half_a_letter :
  let s := tree_disk note_tree in
  let e := @run s (@editor_new s 9 (str "/n") []) [ch 233] in
  wants_cursor e = Some (Pos 2 0) /\
  line_at (e_buf (@run s e [Key (KeyEvent KBackspace 0 0)])) 0 = [0xC3] ++ str "ab".
Proof. by vm_compute. Qed.

(** Having said yes to leave without saving, the window asks again. *)
Example confirmed_and_asked_again :
  let s := tree_disk note_tree in
  let e := @run s (@editor_new s 9 (str "/n") []) [Attach; ch 120; ctrl 120] in
  let '(e', close) := @on_key s e (KeyEvent KChar 111 0) in
  close = true /\ allowed (can_close e') = false.
Proof. by vm_compute. Qed.
