(* ===== verification/Files.v ===== *)
(** * The files application: [src/apps/files/files.hpp], [src/apps/files/files.cpp]

    Two panes on the disk, a clipboard, one work at a time, a menu, the keyboard and the
    mouse.  The disk is read when the directory changes; every request goes to the
    history.  Of the back and forward vectors and of the stack of the work, the end is
    the head of the list; a [std::set] of names is the list of its elements in order. *)

From S2P Require Import Prelude StdString Utf8 Width Syscalls Dir FileJob Cell Surface Input Editor.

Definition kPlacesWidth : Z := 12.

Inductive fmode := FNormal | FRenaming | FConfirming | FCreating.
#[export] Instance fmode_eq_dec : EqDecision fmode. Proof. solve_decision. Defined.

Record pane := Pane {
  listing : dir_listing;
  visible : list dir_entry;
  filter : bytes;
  status : bytes;
  marked : list bytes;
  back : list bytes;
  forward : list bytes;
  sel : nat;
  top : nat;
  sorted_by : sort_by;
  sort_desc : bool;
}.

Record place := Place { pl_label : bytes; pl_path : bytes }.

Inductive cmd :=
  | COpen | CNewDir | CNewFile | CRename | CDelete | CCopy | CCut | CPaste | CSelectAll | CSplit | CPlaces | CHidden | CUp | CBack
  | CForward | CSortName | CSortSize | CSortTime | CStopJob.
#[export] Instance cmd_eq_dec : EqDecision cmd. Proof. solve_decision. Defined.

Record menu_item := MenuItem { mi_cmd : cmd; mi_label : bytes; mi_keys : bytes }.

Record columns_of := Columns { name_w : Z; size_x : Z; size_w : Z; date_x : Z; date_w : Z }.

Record segment := Segment { sg_x : Z; sg_w : Z; sg_path : bytes }.

Record files := Files {
  pane0 : pane;
  pane1 : pane;
  second : bool;                 (* [active_ == 1] *)
  split_ : bool;
  places_ : bool;
  pressed_ : bool;
  dragging_ : bool;
  press_x : Z;
  press_y : Z;
  drag_ : list bytes;
  menu_open_ : bool;
  menu_rect_ : rect;
  menu_shown : list menu_item;
  show_hidden : bool;
  f_mode : fmode;
  edit_ : bytes;
  creating_dir : bool;
  clipboard : list bytes;
  clipboard_cut : bool;
  job : file_job;
  f_size : size;
  f_attached : bool;
  f_hist : history;
}.

(** ** Names in order *)

Fixpoint set_insert (x : bytes) (l : list bytes) : list bytes :=
  match l with
  | [] => [x]
  | y :: l' => if string_less x y then x :: l else if string_less y x then y :: set_insert x l' else l
  end.
Definition set_erase (x : bytes) (l : list bytes) : list bytes := List.filter (fun y => negb (bool_decide (x = y))) l.
Definition set_mem (x : bytes) (l : list bytes) : bool := existsb (fun y => bool_decide (x = y)) l.

Fixpoint index_of_name (nm : bytes) (l : list dir_entry) : option nat :=
  match l with
  | [] => None
  | e :: l => if bool_decide (name e = nm) then Some 0%nat else S <$> index_of_name nm l
  end.

(** ** One pane *)

Section Pane.
Implicit Types p : pane.

Definition settle_pane (rows : nat) p : pane :=
  let n := length (visible p) in
  if (n =? 0)%nat then {| p with sel := 0%nat; top := 0%nat |}
  else
    let s := if (n <=? sel p)%nat then (n - 1)%nat else sel p in
    let t := if (s <? top p)%nat then s else top p in
    let t := if (t + rows <=? s)%nat then (s - rows + 1)%nat else t in
    let t := if (n <? t + rows)%nat then if (rows <? n)%nat then (n - rows)%nat else 0%nat else t in
    {| p with sel := s; top := t |}.

Definition name_at p (i : nat) : bytes := match visible p !! i with Some e => name e | None => [] end.

Definition select p (i : nat) : pane := {| p with sel := i |}.

(** The line of that name, if there is one, becomes the selection. *)
Definition select_name (nm : bytes) p : pane :=
  match index_of_name nm (visible p) with Some i => select p i | None => p end.

Definition refilter (rows : nat) p : pane :=
  let kept := name_at p (sel p) in
  let p := {| p with visible := sort_entries (filter_entries (entries (listing p)) (filter p)) (sorted_by p) (sort_desc p) |} in
  let p := if bool_decide (kept = []) then p else select_name kept p in
  let p := if negb (bool_decide (filter p = [])) && (sel p <? length (visible p))%nat &&
              bool_decide (name_at p (sel p) = kParent) && (1 <? length (visible p))%nat
           then select p 1 else p in
  settle_pane rows p.

Definition set_filter p (s : bytes) : pane := {| p with filter := s |}.
Definition set_status p (s : bytes) : pane := {| p with status := s |}.
Definition set_marked p (l : list bytes) : pane := {| p with marked := l |}.
Definition set_listing p (l : dir_listing) : pane := {| p with listing := l |}.
Definition set_history p (b f : list bytes) : pane := {| p with back := b; forward := f |}.

Definition sort_pane (rows : nat) (by_ : sort_by) p : pane :=
  refilter rows (if bool_decide (sorted_by p = by_) then {| p with sort_desc := negb (sort_desc p) |}
                 else {| p with sorted_by := by_; sort_desc := false |}).

(** The first step below [path] on the way to [came_from]. *)
Definition child_on_the_way (pth came_from : bytes) : option bytes :=
  if (length pth <? length came_from)%nat && is_prefix pth came_from then
    let rest := (fix strip (s : bytes) : bytes := match s with c :: s' => if c =? slash then strip s' else s | [] => [] end) (drop (length pth) came_from) in
    Some ((fix upto (s : bytes) : bytes := match s with c :: s' => if c =? slash then [] else c :: upto s' | [] => [] end) rest)
  else None.

(** A directory just read, shown from its top. *)
Definition show_listing (rows : nat) (l : dir_listing) (came_from : bytes) p : pane :=
  let p := {| p with listing := l; visible := []; filter := []; status := []; marked := []; sel := 0%nat; top := 0%nat |} in
  let p := refilter rows p in
  match child_on_the_way (path l) came_from with
  | Some child => settle_pane rows (select_name child p)
  | None => p
  end.

(** ** What is marked *)

Definition touchable p : bytes := let nm := name_at p (sel p) in if bool_decide (nm = kParent) then [] else nm.
Definition markable_at p (i : nat) : bytes := let nm := name_at p i in if bool_decide (nm = kParent) then [] else nm.

Definition toggle_mark p (i : nat) : pane :=
  let nm := markable_at p i in
  if bool_decide (nm = []) then p
  else set_marked p (if set_mem nm (marked p) then set_erase nm (marked p) else set_insert nm (marked p)).

Definition mark_one p (i : nat) : pane :=
  let nm := markable_at p i in
  if bool_decide (nm = []) then p else set_marked p (set_insert nm (marked p)).

Definition mark_range p (a b : nat) : pane :=
  let lo := Nat.min a b in
  let hi := Nat.min (Nat.max a b) (length (visible p) - 1) in
  if (length (visible p) =? 0)%nat then p else fold_left mark_one (seq lo (S hi - lo)) p.

Definition toggle_all p : pane :=
  if bool_decide (marked p = []) then mark_range p 0 (length (visible p) - 1) else set_marked p [].

Definition targets p : list bytes :=
  if negb (bool_decide (marked p = [])) then marked p
  else let one := touchable p in if bool_decide (one = []) then [] else [one].

Definition target_paths p : list bytes := join_path (path (listing p)) <$> targets p.

(** ** The path above the list *)

(** The segments of a path, each with what leads to it. *)
Fixpoint segments_from (fuel : nat) (s built : bytes) : list segment :=
  match fuel with
  | O => []
  | S fuel =>
      match s with
      | [] => []
      | c :: s' =>
          if c =? slash then segments_from fuel s' built
          else
            let nm := (fix upto (s : bytes) : bytes := match s with c :: s' => if c =? slash then [] else c :: upto s' | [] => [] end) s in
            let built := built ++ [slash] ++ nm in
            Segment 0 (zlen nm) built :: segments_from fuel (drop (length nm) s) built
      end
  end.

Definition seg_cost (s : segment) : Z := sg_w s + (if bool_decide (sg_path s = [slash]) then 0 else 1).

(** What does not fit falls from the left; whether something fell. *)
Fixpoint drop_segments (l : list segment) (total w : Z) (fell : bool) : list segment * bool :=
  match l with
  | [] => (l, fell)
  | s :: l' =>
      match l' with
      | [] => (l, fell)
      | _ => if w <? total then drop_segments l' (total - seg_cost s) w true else (l, fell)
      end
  end.

Fixpoint lay_segments (l : list segment) (x : Z) : list segment :=
  match l with
  | [] => []
  | s :: l => Segment x (sg_w s) (sg_path s) :: lay_segments l (x + seg_cost s)
  end.

Definition path_segments p (w : Z) : list segment :=
  let all := Segment 0 1 [slash] :: segments_from (length (path (listing p))) (path (listing p)) [] in
  let '(kept, fell) := drop_segments all (List.fold_right Z.add 0 (seg_cost <$> all)) w false in
  lay_segments kept (if fell then 1 else 0).

End Pane.

Definition kNameMin : Z := 12.
Definition kSizeW : Z := 9.
Definition kDateW : Z := 10.

Definition columns (w : Z) : columns_of :=
  if kNameMin + 1 + kSizeW + 1 + kDateW <=? w then
    let dx := w - kDateW in
    let sx := dx - 1 - kSizeW in
    Columns (sx - 1) sx kSizeW dx kDateW
  else if kNameMin + 1 + kSizeW <=? w then
    let sx := w - kSizeW in Columns (sx - 1) sx kSizeW 0 0
  else Columns w 0 0 0 0.

(** ** The application *)

Section Files.
Context `{System} (amb : bool) (blocks : nat).
Implicit Types (f : files) (p : pane).

Definition pane_of f : pane := if second f then pane1 f else pane0 f.
Definition with_pane f p : files := if second f then {| f with pane1 := p |} else {| f with pane0 := p |}.
Definition on_pane f (g : pane -> pane) : files := with_pane f (g (pane_of f)).

(** A request to the disk. *)
Definition ask {A} (m : io A) f : A * files := let '(a, h) := m (f_hist f) in (a, {| f with f_hist := h |}).

Definition rows_for_list f : Z := Z.max 1 (h (f_size f) - 3).
Definition list_rows f : nat := Z.to_nat (rows_for_list f).

Definition settle f : files := on_pane f (settle_pane (list_rows f)).
Definition refilter_pane f : files := on_pane f (refilter (list_rows f)).
Definition sort_on f (by_ : sort_by) : files := on_pane f (sort_pane (list_rows f) by_).
Definition say f (s : bytes) : files := on_pane f (fun p => set_status p s).

Definition reread f p : pane * files :=
  let '(l, f) := ask (read_dir (path (listing p)) (show_hidden f)) f in
  (refilter (list_rows f) (set_status (set_listing p l) (error l)), f).

Definition reload f : files :=
  let f := on_pane f (fun p => set_marked p []) in
  let '(p, f) := reread f (pane0 f) in
  let f := {| f with pane0 := p |} in
  let '(p, f) := reread f (pane1 f) in
  {| f with pane1 := p |}.

Definition pane_new (pth : bytes) : pane := Pane (DirListing pth [] []) [] [] [] [] [] [] 0 0 SortName false.

Definition files_new (start : bytes) (h0 : history) : files :=
  reload (Files (pane_new start) (pane_new []) false false false false false 0 0 [] false (Rect 0 0 0 0) [] false FNormal [] true [] false
            job_new (Size 40 12) false h0).

Definition on_resize f (s : size) : files :=
  if (w s <=? 0) || (h s <=? 0) then f else settle {| f with f_size := s |}.

(** ** Going around *)

Definition load f (pth came_from : bytes) : files * bool :=
  let '(l, f) := ask (read_dir pth (show_hidden f)) f in
  if negb (bool_decide (error l = [])) then (say f (error l), false)
  else (on_pane f (show_listing (list_rows f) l came_from), true).

Definition go_to f (pth : bytes) : files :=
  let from := path (listing (pane_of f)) in
  if bool_decide (pth = from) then f
  else
    let '(f, ok) := load f pth from in
    if ok then on_pane f (fun p => set_history p (from :: back p) []) else f.

Definition go_back f : files :=
  match back (pane_of f) with
  | [] => f
  | target :: rest =>
      let from := path (listing (pane_of f)) in
      let '(f, ok) := load f target from in
      if ok then on_pane f (fun p => set_history p rest (from :: forward p)) else f
  end.

Definition go_forward f : files :=
  match forward (pane_of f) with
  | [] => f
  | target :: rest =>
      let from := path (listing (pane_of f)) in
      let '(f, ok) := load f target from in
      if ok then on_pane f (fun p => set_history p (from :: back p) rest) else f
  end.

Definition go_up f : files :=
  let here := path (listing (pane_of f)) in
  let up := parent_path here in
  if bool_decide (up = here) then f else go_to f up.

(** The state, and the editor to open. *)
Definition activate f : files * option editor :=
  let p := pane_of f in
  match visible p !! sel p with
  | None => (f, None)
  | Some e =>
      if negb (is_dir_like e) then
        if f_attached f then (f, Some (editor_new blocks (join_path (path (listing p)) (name e)) (f_hist f))) else (f, None)
      else if bool_decide (name e = kParent) then (go_up f, None)
      else (go_to f (join_path (path (listing p)) (name e)), None)
  end.

(** ** Names typed *)

Definition with_mode f (m : fmode) : files := {| f with f_mode := m |}.

(** What was just named is under the cursor. *)
Definition settle_on f (nm : bytes) : files := settle (on_pane f (select_name nm)).

Definition commit_rename f : files :=
  let from := touchable (pane_of f) in
  let f := with_mode f FNormal in
  if bool_decide (from = []) || bool_decide (edit_ f = []) || bool_decide (edit_ f = from) then f
  else if existsb (Z.eqb slash) (edit_ f) then say f (str "un nom ne peut pas contenir de barre")
  else
    let here := path (listing (pane_of f)) in
    let src := join_path here from in
    let dst := join_path here (edit_ f) in
    let '(r, f) := ask (sys_lstat dst) f in
    match r with
    | Done _ => say f (str "ce nom est deja pris")
    | Error _ =>
        let '(r, f) := ask (attempt (QRename src dst)) f in
        match r with
        | Error e => say f (str "renommage impossible : " ++ strerror e)
        | Done _ => settle_on (reload (say f [])) (edit_ f)
        end
    end.

Definition create (directory : bool) (target : bytes) : io (result unit) :=
  if directory then attempt (QMkdir target 493)
  else
    let! r := sys_open (QOpenNew target 420) in
    match r with Done fd => let! _ := sys_close fd in ret (Done tt) | Error e => ret (Error e) end.

Definition commit_create f : files :=
  let nm := edit_ f in
  let f := {| f with f_mode := FNormal; edit_ := [] |} in
  if bool_decide (nm = []) then f
  else if existsb (Z.eqb slash) nm || is_dots nm then say f (str "nom invalide : " ++ nm)
  else
    let '(r, f) := ask (create (creating_dir f) (join_path (path (listing (pane_of f))) nm)) f in
    match r with
    | Error e => say f (str "creation impossible : " ++ strerror e)
    | Done _ => settle_on (reload f) nm
    end.

(** ** The work *)

Definition with_job f (j : file_job) : files := {| f with job := j |}.

Definition start_job f (sources : list bytes) (dest : bytes) (k : file_op) : files :=
  let '(j, f) := ask (start sources dest k (job f)) f in with_job f j.

Definition stop_job f : files :=
  if negb (active (job f)) then f
  else
    let n := done_ (job f) in
    let '(j, f) := ask (cancel (job f)) f in
    say (reload (with_job f j)) (str "arrete apres " ++ to_string n ++ str " elements").

Definition take_clipboard f (cut : bool) : files :=
  match targets (pane_of f) with
  | [] => f
  | _ =>
      let f := {| f with clipboard := target_paths (pane_of f); clipboard_cut := cut |} in
      say f (to_string (zlen (clipboard f)) ++ (if cut then str " a deplacer" else str " a copier"))
  end.

Definition paste_clipboard f : files :=
  if active (job f) then f
  else if bool_decide (clipboard f = []) then say f (str "rien a coller")
  else
    let f := start_job f (clipboard f) (path (listing (pane_of f))) (if clipboard_cut f then Move else Copy) in
    if clipboard_cut f then {| f with clipboard := [] |} else f.

Definition commit_delete f : files :=
  let victims := target_paths (pane_of f) in
  let f := with_mode f FNormal in
  if bool_decide (victims = []) || active (job f) then f
  else start_job (say f []) victims [] Delete.

Definition can_close f : Host.close_check :=
  if active (job f) then Host.ask (str "Un travail sur les fichiers est en cours. Fermer quand meme ?") else Host.allow.

Definition refresh_ms f : Z := if active (job f) then 10 else -1.

Definition reprobe f p : pane * files :=
  let '(l, f) := ask (read_dir (path (listing p)) (show_hidden f)) f in
  (if bool_decide (error l = []) then set_listing p l else p, f).

Definition on_refresh f : files :=
  if negb (active (job f)) then f
  else
    let '((more, j), f) := ask (step (1024 * 1024) (job f)) f in
    let f := with_job f j in
    if more then f
    else
      let said := if 0 <? failed_ j
                  then to_string (failed_ j) ++ str " sur " ++ to_string (done_ j + failed_ j) ++ str " ont echoue : " ++ error_ j
                  else [] in
      let '(j, f) := ask (cancel j) f in
      let f := with_job f j in
      let '(p, f) := reprobe f (pane0 f) in
      let f := {| f with pane0 := p |} in
      let '(p, f) := reprobe f (pane1 f) in
      let f := {| f with pane1 := p |} in
      say (refilter_pane f) said.

(** ** The menu *)

Definition kItems : list menu_item :=
  [MenuItem COpen (str "Ouvrir") (str "Entree"); MenuItem CNewDir (str "Nouveau dossier") (str "F7");
   MenuItem CNewFile (str "Nouveau fichier") (str "Maj+F7"); MenuItem CRename (str "Renommer") (str "F2");
   MenuItem CDelete (str "Supprimer") (str "Suppr"); MenuItem CCopy (str "Copier") (str "Ctrl+C");
   MenuItem CCut (str "Couper") (str "Ctrl+X"); MenuItem CPaste (str "Coller") (str "Ctrl+V");
   MenuItem CSelectAll (str "Tout selectionner") (str "Ctrl+A"); MenuItem CUp (str "Dossier parent") (str "Ret.arr.");
   MenuItem CBack (str "Precedent") (str "Alt+gauche"); MenuItem CForward (str "Suivant") (str "Alt+droite");
   MenuItem CSplit (str "Scinder la vue") (str "F3"); MenuItem CPlaces (str "Raccourcis") (str "F9");
   MenuItem CHidden (str "Fichiers caches") (str "."); MenuItem CSortName (str "Trier par nom") [];
   MenuItem CSortSize (str "Trier par taille") []; MenuItem CSortTime (str "Trier par date") []].

Definition menu_items f : list menu_item :=
  (if active (job f) then [MenuItem CStopJob (str "Arreter le travail") (str "Echap")] else []) ++ kItems.

Definition open_menu f (x y : Z) : files :=
  let items := menu_items f in
  let widest := fold_left (fun m i => Z.max m (text_cells amb (mi_label i) + 2 + text_cells amb (mi_keys i))) items 0 in
  let mw := Z.min (Z.max 1 (w (f_size f))) (widest + 4) in
  let mh := Z.min (Z.max 1 (h (f_size f))) (zlen items + 2) in
  let mx := Z.min (Z.max 0 x) (Z.max 0 (w (f_size f) - mw)) in
  let my := Z.min (Z.max 0 y) (Z.max 0 (h (f_size f) - mh)) in
  {| f with menu_shown := items; menu_rect_ := Rect mx my mw mh; menu_open_ := true |}.

Definition ask_name f (directory : bool) : files := {| f with creating_dir := directory; edit_ := []; f_mode := FCreating |}.

Definition ask_rename f : files :=
  let nm := touchable (pane_of f) in
  if bool_decide (nm = []) then f else {| f with edit_ := nm; f_mode := FRenaming |}.

Definition ask_delete f : files := if bool_decide (targets (pane_of f) = []) then f else with_mode f FConfirming.

Definition toggle_split f : files :=
  if split_ f then
    let f := if second f then {| f with pane0 := pane1 f |} else f in
    {| f with second := false; split_ := false |}
  else {| f with pane1 := set_marked (pane0 f) []; split_ := true |}.

Definition toggle_hidden f : files := reload {| f with show_hidden := negb (show_hidden f) |}.

Definition run_menu f (c : cmd) : files * option editor :=
  let f := {| f with menu_open_ := false |} in
  match c with
  | COpen => activate f
  | CNewDir => (ask_name f true, None)
  | CNewFile => (ask_name f false, None)
  | CRename => (ask_rename f, None)
  | CDelete => (ask_delete f, None)
  | CCopy => (take_clipboard f false, None)
  | CCut => (take_clipboard f true, None)
  | CPaste => (paste_clipboard f, None)
  | CSelectAll => (on_pane f toggle_all, None)
  | CUp => (go_up f, None)
  | CBack => (go_back f, None)
  | CForward => (go_forward f, None)
  | CSplit => (toggle_split f, None)
  | CPlaces => ({| f with places_ := negb (places_ f) |}, None)
  | CHidden => (toggle_hidden f, None)
  | CSortName => (sort_on f SortName, None)
  | CSortSize => (sort_on f SortSize, None)
  | CSortTime => (sort_on f SortTime, None)
  | CStopJob => (stop_job f, None)
  end.

(** ** The keyboard *)

Definition name_key f (k : key_event) : files :=
  match ke_key k with
  | KEnter => if bool_decide (f_mode f = FCreating) then commit_create f else commit_rename f
  | KEscape => {| f with f_mode := FNormal; edit_ := [] |}
  | KBackspace => {| f with edit_ := removelast (edit_ f) |}
  | KChar => if 32 <=? ke_ch k then {| f with edit_ := edit_ f ++ encode_utf8 (ke_ch k) |} else f
  | _ => f
  end.

Definition confirm_key f (k : key_event) : files :=
  if bool_decide (ke_key k = KChar) && yes (ke_ch k) then commit_delete f else with_mode f FNormal.

Definition held (k : key_event) (m : Z) : bool := negb (Z.land (ke_mods k) m =? 0).
Definition is_letter (k : key_event) (lower : Z) : bool := (ke_ch k =? lower) || (ke_ch k =? lower - 32).

(** The selection moved within the list, then settled. *)
Definition go_to_line f (i : nat) : files := on_pane f (fun p => settle_pane (list_rows f) (select p i)).

Definition last_line p : nat := (length (visible p) - 1)%nat.

(** [Shift] and an arrow: what one leaves and what one reaches are marked. *)
Definition arrow f (extend : bool) (move : pane -> nat) : files :=
  on_pane f (fun p =>
    let mark p := if extend then mark_range p (sel p) (sel p) else p in
    let p := mark p in
    settle_pane (list_rows f) (mark (select p (move p)))).

Definition line_up p : nat := if (0 <? sel p)%nat then (sel p - 1)%nat else sel p.
Definition line_down p : nat := if (sel p + 1 <? length (visible p))%nat then (sel p + 1)%nat else sel p.

Definition escape f : files :=
  if active (job f) then stop_job f
  else if negb (bool_decide (filter (pane_of f) = [])) then refilter_pane (on_pane f (fun p => set_filter p []))
  else on_pane f (fun p => set_marked p []).

Definition rub_out f : files :=
  if negb (bool_decide (filter (pane_of f) = [])) then refilter_pane (on_pane f (fun p => set_filter p (removelast (filter p))))
  else go_up f.

Definition filter_key f (k : key_event) : files :=
  if (ke_ch k =? 46) && bool_decide (filter (pane_of f) = []) then toggle_hidden f
  else if 32 <=? ke_ch k then refilter_pane (on_pane f (fun p => set_filter p (filter p ++ encode_utf8 (ke_ch k))))
  else f.

Definition list_key f (k : key_event) : files * option editor :=
  let rows := list_rows f in
  let p := pane_of f in
  match ke_key k with
  | KUp => (arrow f (held k Shift) line_up, None)
  | KDown => (arrow f (held k Shift) line_down, None)
  | KPgUp => (go_to_line f (if (rows <? sel p)%nat then sel p - rows else 0), None)
  | KPgDn => (go_to_line f (Nat.min (sel p + rows) (last_line p)), None)
  | KHome => (go_to_line f 0, None)
  | KEnd => (go_to_line f (last_line p), None)
  | KEnter => activate f
  | KF2 => (ask_rename f, None)
  | KF9 => ({| f with places_ := negb (places_ f) |}, None)
  | KF3 => (toggle_split f, None)
  | KTab => (if split_ f then {| f with second := negb (second f) |} else f, None)
  | KF7 => (ask_name f (negb (held k Shift)), None)
  | KDelete => (ask_delete f, None)
  | KEscape => (escape f, None)
  | KBackspace => (rub_out f, None)
  | KChar => (filter_key f k, None)
  | _ => (f, None)
  end.

Definition normal_key f (k : key_event) : files * option editor :=
  let char := bool_decide (ke_key k = KChar) in
  if char && held k Ctrl && is_letter k 99 then (take_clipboard f false, None)
  else if char && held k Ctrl && is_letter k 120 then (take_clipboard f true, None)
  else if char && held k Ctrl && is_letter k 118 then (paste_clipboard f, None)
  else if char && is_letter k 97 && held k Ctrl then (on_pane f toggle_all, None)
  else if char && (ke_ch k =? 32) && bool_decide (filter (pane_of f) = []) then
    (on_pane f (fun p => let p := toggle_mark p (sel p) in settle_pane (list_rows f) (select p (line_down p))), None)
  else if held k Alt && bool_decide (ke_key k = KLeft) then (go_back f, None)
  else if held k Alt && bool_decide (ke_key k = KRight) then (go_forward f, None)
  else list_key f k.

Definition on_key f (k : key_event) : files * option editor :=
  if menu_open_ f then (if bool_decide (ke_key k = KEscape) then {| f with menu_open_ := false |} else f, None)
  else
    match f_mode f with
    | FRenaming | FCreating => (name_key f k, None)
    | FConfirming => (confirm_key f k, None)
    | FNormal => normal_key f k
    end.

(** ** The mouse *)

Definition places : list place :=
  [Place (str "Racine") (str "/")] ++
  match home_of_user with Some (47 :: r) => [Place (str "Maison") (47 :: r)] | _ => [] end ++
  [Place (str "Temporaire") (str "/tmp"); Place (str "Etc") (str "/etc")].

(** The width of a pane: the window, or half of it but for the wall. *)
Definition pane_width f : Z :=
  let usable := Z.max 1 (w (f_size f) - (if places_ f then kPlacesWidth + 1 else 0)) in
  if negb (split_ f) then usable else Z.max 1 (Z.quot (usable - 1) 2).

(** Where what is dropped goes: nowhere when empty.  [y] is in the pane. *)
Definition drop_target f (y : Z) (sources : list bytes) : bytes :=
  let p := pane_of f in
  let here := path (listing p) in
  let elsewhere := if existsb (fun s => bool_decide (parent_path s = here)) sources then [] else here in
  let row := y - 2 in
  if 0 <=? row then
    match visible p !! (top p + Z.to_nat row)%nat with
    | Some over =>
        if bool_decide (kind over = KDir) then
          if bool_decide (name over = kParent) then parent_path here
          else
            let target := join_path here (name over) in
            if existsb (fun s => bool_decide (s = target)) sources then [] else target
        else elsewhere
    | None => elsewhere
    end
  else elsewhere.

Definition menu_press f (m : mouse_event) : files * option editor :=
  if negb (bool_decide (m_action m = MPress)) then (f, None)
  else
    let r := menu_rect_ f in
    let row := m_y m - ry r - 1 in
    if (rx r <? m_x m) && (m_x m <? rx r + rw r - 1) && (0 <=? row) && (row <? zlen (menu_shown f)) && (row <? rh r - 2) then
      match menu_shown f !! Z.to_nat row with Some it => run_menu f (mi_cmd it) | None => (f, None) end
    else ({| f with menu_open_ := false |}, None).

Definition places_press f (m : mouse_event) : files :=
  if bool_decide (m_action m = MPress) then
    let row := m_y m - 2 in
    if (0 <=? row) && (row <? zlen places) then
      match places !! Z.to_nat row with Some pl => go_to f (pl_path pl) | None => f end
    else f
  else f.

(** The drag: it starts when a pressed mouse leaves its cell. *)
Definition drag_motion f (m : mouse_event) : files :=
  if (m_x m =? press_x f) && (m_y m =? press_y f) then f
  else if dragging_ f then f
  else
    let l := target_paths (pane_of f) in
    {| f with drag_ := l; dragging_ := negb (bool_decide (l = [])) |}.

Definition drag_release f (y : Z) : files :=
  let was := dragging_ f in
  let taken := drag_ f in
  let f := {| f with pressed_ := false; dragging_ := false; drag_ := [] |} in
  if negb was || bool_decide (taken = []) then f
  else
    let dest := drop_target f y taken in
    if bool_decide (dest = []) || active (job f) then f else start_job f taken dest Move.

Definition press_path f (x : Z) : files :=
  match List.find (fun s => (sg_x s <=? x) && (x <? sg_x s + sg_w s)) (path_segments (pane_of f) (pane_width f)) with
  | Some s => go_to f (sg_path s)
  | None => f
  end.

Definition press_header f (x : Z) : files :=
  let c := columns (pane_width f) in
  if (0 <? date_w c) && (date_x c <=? x) then sort_on f SortTime
  else if (0 <? size_w c) && (size_x c <=? x) then sort_on f SortSize
  else sort_on f SortName.

(** A press in the list of the pane in hand, at the local [y]; [m] is in the window. *)
Definition press_list f (m : mouse_event) (y : Z) : files * option editor :=
  let p := pane_of f in
  let row := y - 2 in
  let in_list := (0 <=? row) && (row <? rows_for_list f) in
  let hit := if in_list then (top p + Z.to_nat row)%nat else length (visible p) in
  let on_line := (hit <? length (visible p))%nat in
  if m_button m =? 2 then
    let f := if on_line then go_to_line f hit else f in
    (open_menu f (m_x m) (m_y m), None)
  else if negb in_list || negb on_line then (f, None)
  else if negb (Z.land (m_mods m) Ctrl =? 0) then
    (on_pane f (fun p => settle_pane (list_rows f) (select (toggle_mark p hit) hit)), None)
  else if negb (Z.land (m_mods m) Shift =? 0) then
    (on_pane f (fun p => settle_pane (list_rows f) (select (mark_range p (sel p) hit) hit)), None)
  else
    let f := {| f with pressed_ := true; press_x := m_x m; press_y := m_y m |} in
    if (hit =? sel p)%nat then activate f else (go_to_line f hit, None).

(** The pane a point of the window falls in, and its column there. *)
Definition enter_pane f (x : Z) : option (files * Z) :=
  if split_ f then
    let left := pane_width f in
    if left <? x then Some ({| f with second := true |}, x - left - 1)
    else if x <? left then Some ({| f with second := false |}, x)
    else None
  else Some (f, x).

Definition pane_mouse f (m : mouse_event) (x y : Z) : files * option editor :=
  let p := pane_of f in
  match m_action m with
  | MMotion => (if pressed_ f then drag_motion f m else f, None)
  | MRelease => (drag_release f y, None)
  | MWheelUp => (go_to_line f (if (3 <? sel p)%nat then sel p - 3 else 0), None)
  | MWheelDown => (go_to_line f (Nat.min (sel p + 3) (last_line p)), None)
  | MPress =>
      if y =? 0 then (press_path f x, None)
      else if y =? 1 then (press_header f x, None)
      else press_list f m y
  end.

Definition on_mouse f (m : mouse_event) : files * option editor :=
  if menu_open_ f then menu_press f m
  else if places_ f && (m_x m <? kPlacesWidth) then (places_press f m, None)
  else if places_ f && (m_x m =? kPlacesWidth) then (f, None)
  else
    match enter_pane f (if places_ f then m_x m - kPlacesWidth - 1 else m_x m) with
    | Some (f, x) => pane_mouse f m x (m_y m)
    | None => (f, None)
    end.

(** The caret is at the start of the line chosen, in the pane in hand. *)
Definition wants_cursor f : option pos :=
  let p := pane_of f in
  if (length (visible p) =? 0)%nat then None
  else
    let x := if places_ f then kPlacesWidth + 1 else 0 in
    let x := if split_ f && second f then x + pane_width f + 1 else x in
    Some (Pos x (2 + (Z.of_nat (sel p) - Z.of_nat (top p)))).

End Files.
