(* ===== verification/FilesView.v ===== *)
(** * What the files application draws: [src/apps/files/files.cpp]

    The columns of a pane, the path above it, the line of the status, the menu and the
    shortcuts, as the operations of a view.  A pane reads the link under its selection
    while it is drawn: the drawing leaves a history. *)

From S2P Require Import Prelude StdString Utf8 Width Syscalls Dir FileJob Cell Surface Input Files.

Definition kEllipsis : bytes := [0xE2; 0x80; 0xA6].

Section View.
Context `{System} (amb : bool).
Implicit Types (f : files) (p : pane).

(** ** Texts *)

Fixpoint display_from (fuel : nat) (s : bytes) (i : nat) (acc : Z) : Z :=
  match fuel with
  | O => acc
  | S fuel =>
      if (i <? length s)%nat then
        let '(used, cp) := utf8_decode s i in
        if (used =? 0)%nat then acc else display_from fuel s (i + used) (acc + Z.max 0 (char_width amb cp))
      else acc
  end.
Definition display_width (s : bytes) : Z := display_from (length s) s 0 0.

(** A 64-bit integer as a [double]: 53 bits, to the nearest and the even. *)
Definition to_double (n : Z) : Z :=
  let e := Z.log2 n - 52 in
  if e <=? 0 then n
  else
    let u := 2 ^ e in
    let q := n / u in
    let r := n mod u in
    let q := if (u / 2 <? r) || ((r =? u / 2) && Z.odd q) then q + 1 else q in
    q * u.

Definition kUnits : list bytes := [str "o"; str "Ko"; str "Mo"; str "Go"; str "To"].

(** The divisions by 1024, exact in a [double]: the unit reached, and its size. *)
Fixpoint unit_of (fuel u : nat) (v size : Z) : nat * Z :=
  match fuel with
  | O => (u, size)
  | S fuel => if 1024 * size <=? v then unit_of fuel (S u) v (size * 1024) else (u, size)
  end.

(** [%.1f] of [v / size]: to the nearest, and the even. *)
Definition one_decimal (v size : Z) : bytes :=
  let q := v * 10 / size in
  let r := (v * 10) mod size in
  let q := if (size <? 2 * r) || ((2 * r =? size) && Z.odd q) then q + 1 else q in
  to_string (q / 10) ++ str "." ++ to_string (q mod 10).

Definition human_size (n : Z) : bytes :=
  let v := to_double n in
  let '(u, size) := unit_of 4 0 v 1 in
  (if (u =? 0)%nat then to_string v else one_decimal v size) ++ str " " ++ nth u kUnits [].

(** [%0wd] of a number that is not negative. *)
Definition zero_padded (width : nat) (n : Z) : bytes :=
  let s := to_string n in replicate (width - length s) 48 ++ s.

Definition to_time (n : Z) : Z := let n := n mod 2 ^ 64 in if n <? 2 ^ 63 then n else n - 2 ^ 64.

Definition human_date (mtime : Z) : bytes :=
  if mtime =? 0 then []
  else
    match localdate (to_time mtime) with
    | None => []
    | Some (d, m, y) => zero_padded 2 d ++ str "/" ++ zero_padded 2 (m + 1) ++ str "/" ++ zero_padded 4 (y + 1900)
    end.

Definition right_align (s : bytes) (width : Z) : bytes := replicate (Z.to_nat (width - display_width s)) 32 ++ s.

(** The bytes of the characters that fit in [room] cells. *)
Fixpoint cut_at (fuel : nat) (s : bytes) (i : nat) (w room : Z) : nat :=
  match fuel with
  | O => i
  | S fuel =>
      if (i <? length s)%nat then
        let '(used, cp) := utf8_decode s i in
        if (used =? 0)%nat then i
        else
          let cw := Z.max 0 (char_width amb cp) in
          if room <? w + cw then i else cut_at fuel s (i + used) (w + cw) room
      else i
  end.

Definition elide_right (s : bytes) (width : Z) : bytes :=
  if width <=? 0 then []
  else if display_width s <=? width then s
  else if width =? 1 then kEllipsis
  else take (cut_at (length s) s 0 0 (width - 1)) s ++ kEllipsis.

(** ** The shortcuts and the menu *)

Definition indexed (i : Z) (a : Z) : style := Style (CIndexed i) CDefault a.
Definition plain (a : Z) : style := Style CDefault CDefault a.

Definition draw_places f : list draw_op :=
  DrawText 0 0 (str "Raccourcis") (plain Underline) ::
  imap (fun i pl =>
    DrawText 0 (2 + Z.of_nat i) (elide_right (pl_label pl) kPlacesWidth)
      (indexed 4 (if bool_decide (pl_path pl = path (listing (pane_of f))) then Bold else 0))) places.

Definition draw_item (r : rect) (i : nat) (it : menu_item) : list draw_op :=
  let y := ry r + 1 + Z.of_nat i in
  let room := rw r - 2 in
  let kw := text_cells amb (mi_keys it) in
  if ry r + rh r - 1 <=? y then []
  else
    DrawText (rx r + 1) y (elide_right (mi_label it) room) (plain Reverse) ::
    (if (0 <? kw) && (kw <? room) then [DrawText (rx r + rw r - 1 - kw) y (mi_keys it) (plain (Z.lor Reverse Dim))] else []).

Definition draw_menu f : list draw_op :=
  if negb (menu_open_ f) then []
  else
    let r := menu_rect_ f in
    [DrawFill r (plain Reverse); DrawBox r BorderUnicode (plain Reverse)] ++ concat (imap (draw_item r) (menu_shown f)).

(** ** A pane *)

Definition segment_label (s : segment) : bytes :=
  if bool_decide (sg_path s = [slash]) then [slash]
  else match rfind slash (sg_path s) with Some i => drop (S i) (sg_path s) | None => sg_path s end.

Definition draw_segment (n i : nat) (focused : bool) (s : segment) : list draw_op :=
  DrawText (sg_x s) 0 (segment_label s) (plain (if focused then Bold else Dim)) ::
  (if (S i <? n)%nat && negb (bool_decide (sg_path s = [slash])) then [DrawText (sg_x s + sg_w s) 0 [slash] (plain Dim)] else []).

Definition draw_path p (w : Z) (focused : bool) : list draw_op :=
  let segs := path_segments p w in
  (match segs with s :: _ => if 0 <? sg_x s then [DrawText 0 0 kEllipsis (plain Dim)] else [] | [] => [] end) ++
  concat (imap (fun i s => draw_segment (length segs) i focused s) segs).

Definition heading (t : bytes) (by_ : sort_by) p : bytes :=
  if bool_decide (sorted_by p = by_) then t ++ str " " ++ (if sort_desc p then str "v" else str "^") else t.

Definition draw_header p (c : columns_of) : list draw_op :=
  [DrawText 0 1 (elide_right (heading (str "Nom") SortName p) (name_w c)) (plain Underline)] ++
  (if 0 <? size_w c then [DrawText (size_x c) 1 (right_align (heading (str "Taille") SortSize p) (size_w c)) (plain Underline)] else []) ++
  (if 0 <? date_w c then [DrawText (date_x c) 1 (heading (str "Date") SortTime p) (plain Underline)] else []).

Definition entry_color (k : entry_kind) : color :=
  match k with KDir => CIndexed 4 | KLink => CIndexed 6 | _ => CDefault end.

Definition draw_line p (c : columns_of) (w : Z) (i : nat) (e : dir_entry) : list draw_op :=
  let y := 2 + Z.of_nat i in
  let here := (top p + i =? sel p)%nat in
  let st := Style (entry_color (kind e)) CDefault (if here then Reverse else 0) in
  (if here then [DrawFill (Rect 0 y w 1) st] else []) ++
  (if set_mem (name e) (marked p) then
     [DrawText 0 y (str "*") (Style (CIndexed 3) CDefault (Z.lor (attrs st) Bold)); DrawText 1 y (elide_right (name e) (name_w c - 1)) st]
   else [DrawText 0 y (elide_right (name e) (name_w c)) st]) ++
  (if (0 <? size_w c) && negb (is_dir_like e) && negb (bool_decide (name e = kParent))
   then [DrawText (size_x c) y (right_align (human_size (Dir.size e)) (size_w c)) st] else []) ++
  (if (0 <? date_w c) && negb (bool_decide (name e = kParent)) then [DrawText (date_x c) y (human_date (mtime e)) st] else []).

(** ** The line of the status *)

Definition chosen p : option dir_entry := visible p !! sel p.

Definition last_name (s : bytes) : bytes := match rfind slash s with Some i => drop (S i) s | None => s end.

Definition delete_question p : bytes :=
  if bool_decide (marked p = []) then
    str "supprimer " ++ (match visible p with [] => [] | _ => name_at p (sel p) end) ++
    (match chosen p with Some e => if bool_decide (kind e = KDir) then str " + contenu" else [] | None => [] end) ++ str " ? (o/n)"
  else str "supprimer " ++ to_string (zlen (marked p)) ++ str " elements + contenu ? (o/n)".

Definition job_line (j : file_job) : bytes :=
  (match op j with Move => str "deplacement" | Delete => str "suppression" | Copy => str "copie" end) ++
  str " : " ++ current j ++ str " (" ++ to_string (done_ j) ++ str " faits, Echap pour arreter)".

Definition marked_size p : Z :=
  fold_left (fun n e => (n + (if set_mem (name e) (marked p) then Dir.size e else 0)) mod 2 ^ 64) (entries (listing p)) 0.

Definition marked_line p : bytes * style :=
  if bool_decide (marked p = []) then ([], style_default)
  else (to_string (zlen (marked p)) ++ str " selectionnes, " ++ human_size (marked_size p), indexed 3 Bold).

Definition status_line f p : io (bytes * style) :=
  match f_mode f with
  | FRenaming => ret (str "nouveau nom: " ++ edit_ f, plain Reverse)
  | FCreating => ret ((if creating_dir f then str "nouveau dossier: " else str "nouveau fichier: ") ++ edit_ f, plain Reverse)
  | FConfirming => ret (delete_question p, indexed 1 Reverse)
  | FNormal =>
      if negb (bool_decide (status p = [])) then ret (status p, indexed 1 0)
      else if negb (bool_decide (filter p = [])) then ret (str "filtre: " ++ filter p, plain Bold)
      else if dragging_ f && negb (bool_decide (drag_ f = [])) then
        ret (str "deplacer " ++
             (if 1 <? zlen (drag_ f) then to_string (zlen (drag_ f)) ++ str " elements" else last_name (default [] (head (drag_ f)))) ++
             str " vers...", plain Reverse)
      else if active (job f) then ret (job_line (job f), indexed 4 Bold)
      else
        match chosen p with
        | Some e =>
            if bool_decide (kind e = KLink) then
              let! target := sys_readlink (join_path (path (listing p)) (name e)) 511 in
              ret (if bool_decide (target = []) then ([], style_default) else (str "-> " ++ target, plain Dim))
            else ret (marked_line p)
        | None => ret (marked_line p)
        end
  end.

Definition draw_pane f p (v : Cell.size) (focused : bool) : io (list draw_op) :=
  if (Cell.w v <=? 0) || (Cell.h v <=? 0) then ret []
  else
    let c := columns (Cell.w v) in
    let lines := concat (imap (draw_line p c (Cell.w v)) (take (list_rows f) (drop (top p) (visible p)))) in
    let! s := status_line f p in
    let '(bottom, st) := s in
    ret (draw_path p (Cell.w v) focused ++ draw_header p c ++ lines ++
         (if bool_decide (bottom = []) then [] else [DrawText 0 (Cell.h v - 1) (elide_right bottom (Cell.w v)) st])).

(** The wall between two parts, as high as the view. *)
Definition draw_wall (x height : Z) : list draw_op :=
  (fun y => DrawPut x (Z.of_nat y) 0x2502 (plain Dim)) <$> seq 0 (Z.to_nat height).

Definition sub_size (v : Cell.size) (x w : Z) : Cell.size := Size (Z.min w (Z.max 0 (Cell.w v - x))) (Cell.h v).

Definition render_panes f (v : Cell.size) : io (list draw_op) :=
  if negb (split_ f) then draw_pane f (pane0 f) v true
  else
    let left := pane_width f in
    let! l0 := draw_pane f (pane0 f) (sub_size v 0 left) (negb (second f)) in
    let right := Cell.w v - left - 1 in
    let! l1 := if 0 <? right then draw_pane f (pane1 f) (sub_size v (left + 1) right) (second f) else ret [] in
    ret (DrawSub (Rect 0 0 left (Cell.h v)) l0 :: draw_wall left (Cell.h v) ++
         (if 0 <? right then [DrawSub (Rect (left + 1) 0 right (Cell.h v)) l1] else [])).

Definition render f (v : Cell.size) : io (list draw_op) :=
  if places_ f then
    let places := DrawSub (Rect 0 0 kPlacesWidth (Cell.h v)) (draw_places f) :: draw_wall kPlacesWidth (Cell.h v) in
    let rest := Cell.w v - kPlacesWidth - 1 in
    if rest <=? 0 then ret places
    else
      let! l := render_panes f (Size rest (Cell.h v)) in
      ret (places ++ DrawSub (Rect (kPlacesWidth + 1) 0 rest (Cell.h v)) l :: draw_menu f)
  else
    let! l := render_panes f v in
    ret (l ++ draw_menu f).

End View.
