(* ===== verification/FilesProps.v ===== *)
(** * The files application is safe

    Every handler is a step from one state to another.  [tame] gathers what all but three
    of them do to the panes, to the disk and to the work; the three -- naming, creating,
    deleting -- are looked at on their own. *)

From S2P Require Import Prelude StdString Syscalls Dir FileJob Cell Surface Input Editor Files.

(** ** What the application receives *)

Inductive files_event := FResize (s : size) | FKey (k : key_event) | FMouse (m : mouse_event) | FRefresh.

Definition handle `{System} (amb : bool) (blocks : nat) (f : files) (ev : files_event) : files * option editor :=
  match ev with
  | FResize s => (on_resize f s, None)
  | FKey k => on_key blocks f k
  | FMouse m => on_mouse amb blocks f m
  | FRefresh => (on_refresh f, None)
  end.

Definition after_events `{System} (amb : bool) (blocks : nat) (f : files) (l : list files_event) : files :=
  fold_left (fun f ev => (handle amb blocks f ev).1) l f.

(** ** The panes *)

(** The selection is a line of the list, or the list is empty; it is not above the first
    line shown. *)
Definition pane_ok (p : pane) : Prop := (sel p < Nat.max 1 (length (visible p)))%nat /\ (top p <= sel p)%nat.

Section Panes.
Implicit Type p : pane.

Lemma settle_pane_ok rows p : (0 < rows)%nat -> pane_ok (settle_pane rows p).
Proof.
  intros Hr. unfold settle_pane, pane_ok. destruct (Nat.eqb_spec (length (visible p)) 0); cbn [sel top visible]; [lia|].
  destruct (Nat.leb_spec (length (visible p)) (sel p)); repeat case_match; rewrite ?Nat.ltb_lt, ?Nat.ltb_ge, ?Nat.leb_le, ?Nat.leb_gt in *; lia.
Qed.

(** Once settled, the selection is on one of the rows shown. *)
Lemma settle_pane_shown rows p : (0 < rows)%nat -> (sel (settle_pane rows p) < top (settle_pane rows p) + rows)%nat.
Proof.
  intros Hr. unfold settle_pane. destruct (Nat.eqb_spec (length (visible p)) 0); cbn [sel top]; [lia|].
  destruct (Nat.leb_spec (length (visible p)) (sel p)); repeat case_match; rewrite ?Nat.ltb_lt, ?Nat.ltb_ge, ?Nat.leb_le, ?Nat.leb_gt in *; lia.
Qed.

Lemma refilter_settles rows p : (0 < rows)%nat -> pane_ok (refilter rows p).
Proof. intros Hr. by apply settle_pane_ok. Qed.

Lemma sort_pane_ok rows by_ p : (0 < rows)%nat -> pane_ok (sort_pane rows by_ p).
Proof. intros Hr. by apply settle_pane_ok. Qed.

Lemma show_listing_ok rows l from p : (0 < rows)%nat -> pane_ok (show_listing rows l from p).
Proof. intros Hr. unfold show_listing. destruct (child_on_the_way _ _); by apply settle_pane_ok. Qed.

(** The marks move neither the selection nor the list. *)
Definition same_lines p p' : Prop := visible p' = visible p /\ sel p' = sel p /\ top p' = top p.

Lemma same_lines_ok p p' : same_lines p p' -> pane_ok p -> pane_ok p'.
Proof. intros (Ev & Es & Et) Hp. unfold pane_ok. by rewrite Ev, Es, Et. Qed.

Lemma toggle_mark_lines p i : same_lines p (toggle_mark p i).
Proof. unfold toggle_mark. by destruct (bool_decide _). Qed.

Lemma mark_one_lines p i : same_lines p (mark_one p i).
Proof. unfold mark_one. by destruct (bool_decide _). Qed.

Lemma mark_range_lines p a b : same_lines p (mark_range p a b).
Proof.
  unfold mark_range. destruct (_ =? 0)%nat; [done|]. generalize (seq (Nat.min a b) (S (Nat.min (Nat.max a b) (length (visible p) - 1)) - Nat.min a b)).
  intros l. revert p. induction l as [|i l IH]; intros p; [done|]. cbn [fold_left].
  destruct (IH (mark_one p i)) as (Ev & Es & Et), (mark_one_lines p i) as (Ev' & Es' & Et'). split_and!; congruence.
Qed.

Lemma toggle_all_lines p : same_lines p (toggle_all p).
Proof. unfold toggle_all. destruct (bool_decide _); [apply mark_range_lines|done]. Qed.
End Panes.

(** ** What is asked of the disk *)

Definition changes (q : request) : bool :=
  match q with
  | QMkdir _ _ | QRmdir _ | QUnlink _ | QRename _ _ | QOpenNew _ _ | QOpenTrunc _ _ | QWrite _ _ => true
  | _ => false
  end.

Definition looks (e : event) : Prop := changes (ev_q e) = false.

(** [l] grew into [l'] by requests that only look. *)
Definition looked (l l' : history) : Prop := exists more, l' = l ++ more /\ Forall looks more.

#[export] Instance looked_preorder : PreOrder looked.
Proof.
  split.
  - intros l. exists []. by rewrite app_nil_r.
  - intros l1 l2 l3 (m1 & -> & H1) (m2 & -> & H2). exists (m1 ++ m2). by rewrite app_assoc, Forall_app.
Qed.

(** A program that only looks. *)
Definition quiet {A} (m : io A) : Prop := forall h, looked h (m h).2.

Lemma quiet_ret {A} (a : A) : quiet (ret a).
Proof. by intros h. Qed.

Lemma quiet_bind {A B} (m : io A) (f : A -> io B) : quiet m -> (forall a, quiet (f a)) -> quiet (bind m f).
Proof. intros Hm Hf h. specialize (Hm h). unfold bind. destruct (m h) as [a h1]. etrans; [exact Hm|apply Hf]. Qed.

Lemma quiet_call `{System} q : changes q = false -> quiet (call q).
Proof. intros Hq h. exists [Event q (answer h q)]. split; [done|]. by repeat constructor. Qed.

Create HintDb quiet.
#[export] Hint Resolve quiet_ret quiet_call : quiet.
Ltac quietly := repeat first [by eauto with quiet | apply quiet_bind; [|intros ?] | case_match].

Section Quiet.
Context `{System}.

Lemma quiet_entry p e : quiet (entry_of p e).
Proof. unfold entry_of, kind_of, sys_lstat, sys_stat. quietly. Qed.
Hint Resolve quiet_entry : quiet.

Lemma quiet_read_entries p hid l : quiet (read_entries p hid l).
Proof. induction l as [|e l IH]; cbn [read_entries]; quietly. Qed.
Hint Resolve quiet_read_entries : quiet.

Lemma quiet_read_dir p hid : quiet (read_dir p hid).
Proof. unfold read_dir, sys_readdir. quietly. Qed.

Lemma quiet_cancel j : quiet (cancel j).
Proof. unfold cancel, close_both, sys_close_if, sys_close. quietly. Qed.
Hint Resolve quiet_cancel : quiet.

Lemma quiet_start sources dest k j : quiet (start sources dest k j).
Proof. unfold start. quietly. Qed.
End Quiet.
#[export] Hint Resolve quiet_read_dir quiet_cancel quiet_start : quiet.

(** ** What most handlers do *)

Definition deleting (j : file_job) : Prop := active j = true /\ op j = Delete.
Definition files_ok (f : files) : Prop := pane_ok (pane0 f) /\ pane_ok (pane1 f).

Record tame (f f' : files) : Prop := Tame {
  tame_panes : files_ok f -> files_ok f';
  tame_disk : looked (f_hist f) (f_hist f');
  tame_work : deleting (job f') -> job f' = job f;
}.

#[export] Instance tame_preorder : PreOrder tame.
Proof.
  split; [by intros f; split|]. intros f1 f2 f3 [P1 D1 W1] [P2 D2 W2].
  split; [by auto|by etrans|]. intros Hd. specialize (W2 Hd). rewrite W2 in *. by apply W1.
Qed.

Section Handlers.
Context `{System} (amb : bool) (blocks : nat).
Implicit Types (f : files) (p : pane).

Lemma list_rows_pos f : (0 < list_rows f)%nat.
Proof. unfold list_rows, rows_for_list. lia. Qed.

(** Only what is not a pane, the disk or the work changes. *)
Lemma tame_same f f' : pane0 f' = pane0 f -> pane1 f' = pane1 f -> f_hist f' = f_hist f -> job f' = job f -> tame f f'.
Proof. intros E0 E1 Eh Ej. split; [unfold files_ok; by rewrite E0, E1|by rewrite Eh|done]. Qed.

Lemma tame_on_pane f (g : pane -> pane) : (forall p, pane_ok p -> pane_ok (g p)) -> tame f (on_pane f g).
Proof.
  intros Hg. unfold on_pane, with_pane, pane_of. split; [|by destruct (second f)|by destruct (second f)].
  intros [H0 H1]. destruct (second f); split; cbn [pane0 pane1]; auto.
Qed.

Lemma tame_say f s : tame f (say f s).
Proof. by apply tame_on_pane. Qed.

Lemma tame_marks f g : (forall p, same_lines p (g p)) -> tame f (on_pane f g).
Proof. intros Hg. apply tame_on_pane. intros p. by apply same_lines_ok. Qed.

Lemma tame_settled f (g : pane -> pane) : tame f (on_pane f (fun p => settle_pane (list_rows f) (g p))).
Proof. apply tame_on_pane. intros p _. apply settle_pane_ok, list_rows_pos. Qed.

Lemma tame_settle f : tame f (settle f).
Proof. exact (tame_settled f id). Qed.

Lemma tame_refilter f : tame f (refilter_pane f).
Proof. apply tame_on_pane. intros p _. apply refilter_settles, list_rows_pos. Qed.

Lemma tame_sort f by_ : tame f (sort_on f by_).
Proof. apply tame_on_pane. intros p _. apply sort_pane_ok, list_rows_pos. Qed.

Lemma tame_line f i : tame f (go_to_line f i).
Proof. exact (tame_settled f (fun p => select p i)). Qed.

Lemma tame_ask {A} (m : io A) f : quiet m -> tame f (ask m f).2.
Proof. intros Hm. specialize (Hm (f_hist f)). unfold ask. destruct (m (f_hist f)) as [a h]. by split. Qed.

(** A pane read again, then put in its place. *)
Lemma tame_reread f p : tame f (reread f p).2 /\ pane_ok (reread f p).1.
Proof.
  unfold reread. pose proof (tame_ask (read_dir (path (listing p)) (show_hidden f)) f ltac:(auto with quiet)) as Ht.
  destruct (ask _ f) as [l f1]. split; [exact Ht|apply refilter_settles, list_rows_pos].
Qed.

Lemma tame_put0 f f' p : tame f f' -> (files_ok f -> pane_ok p) -> tame f {| f' with pane0 := p |}.
Proof. intros [Hp Hd Hw] Hk. split; [|done|done]. intros Ho. split; [by apply Hk|by apply Hp]. Qed.
Lemma tame_put1 f f' p : tame f f' -> (files_ok f -> pane_ok p) -> tame f {| f' with pane1 := p |}.
Proof. intros [Hp Hd Hw] Hk. split; [|done|done]. intros Ho. split; [by apply Hp|by apply Hk]. Qed.

Lemma tame_reload f : tame f (reload f).
Proof.
  unfold reload. etrans; [by apply (tame_on_pane _ (fun p => set_marked p []))|]. set (f1 := on_pane f _).
  destruct (reread f1 (pane0 f1)) as [p0 f2] eqn:E0. destruct (tame_reread f1 (pane0 f1)) as [T0 O0]. rewrite E0 in T0, O0.
  cbn [fst snd] in T0, O0. etrans; [by apply (tame_put0 f1 f2 p0)|]. set (f3 := {| f2 with pane0 := p0 |}).
  destruct (reread f3 (pane1 f2)) as [p1 f4] eqn:E1. destruct (tame_reread f3 (pane1 f2)) as [T1 O1]. rewrite E1 in T1, O1.
  cbn [fst snd] in T1, O1. change (pane1 f3) with (pane1 f2). rewrite E1. by apply tame_put1.
Qed.

(** *** Going around *)

Lemma tame_load f pth from : tame f (load f pth from).1.
Proof.
  unfold load. pose proof (tame_ask (read_dir pth (show_hidden f)) f ltac:(auto with quiet)) as Ht.
  destruct (ask _ f) as [l f1]. cbn [snd] in Ht. case_match; cbn [fst]; (etrans; [exact Ht|]); [apply tame_say|].
  apply tame_on_pane. intros p _. apply show_listing_ok, list_rows_pos.
Qed.

Lemma tame_load_pane f pth from b (fw : pane -> list bytes) :
  tame f (let '(f', ok) := load f pth from in if ok : bool then on_pane f' (fun p => set_history p (b p) (fw p)) else f').
Proof.
  pose proof (tame_load f pth from) as Ht. destruct (load f pth from) as [f1 ok]. cbn [fst] in Ht. destruct ok; [|done].
  etrans; [exact Ht|]. by apply tame_on_pane.
Qed.

Lemma tame_go_to f pth : tame f (go_to f pth).
Proof. unfold go_to. case_match; [done|]. apply (tame_load_pane f pth _ (fun p => _ :: back p) (fun _ => [])). Qed.

Lemma tame_go_back f : tame f (go_back f).
Proof. unfold go_back. case_match; [done|]. apply (tame_load_pane f _ _ (fun _ => _) (fun p => _ :: forward p)). Qed.

Lemma tame_go_forward f : tame f (go_forward f).
Proof. unfold go_forward. case_match; [done|]. apply (tame_load_pane f _ _ (fun p => _ :: back p) (fun _ => _)). Qed.

Lemma tame_go_up f : tame f (go_up f).
Proof. unfold go_up. case_match; [done|apply tame_go_to]. Qed.

Lemma tame_activate f : tame f (activate blocks f).1.
Proof. unfold activate. repeat case_match; try done; [apply tame_go_up|apply tame_go_to]. Qed.

(** *** The work *)

Lemma start_work sources dest k j h : deleting (start sources dest k j h).1 -> k = Delete /\ todo (start sources dest k j h).1 = first_items sources [] Delete.
Proof.
  unfold start, bind. destruct (cancel j h) as [j1 h1]. unfold deleting. cbn. intros [_ ->]. split; [done|].
  unfold first_items. by apply list_fmap_ext.
Qed.

Lemma cancel_idle j h : active (cancel j h).1 = false.
Proof. unfold cancel, bind. by destruct (close_both j h). Qed.

Lemma tame_job f (m : io file_job) : quiet m -> (forall h, ~ deleting (m h).1) -> tame f (let '(j, f') := ask m f in with_job f' j).
Proof.
  intros Hm Hn. specialize (Hm (f_hist f)). specialize (Hn (f_hist f)). unfold ask. destruct (m (f_hist f)) as [j h].
  split; [done|done|]. intros Hd. by destruct Hn.
Qed.

Lemma tame_start f sources dest k : k <> Delete -> tame f (start_job f sources dest k).
Proof. intros Hk. apply tame_job; [auto with quiet|]. intros h Hd. by destruct (start_work _ _ _ _ _ Hd). Qed.

Lemma tame_stop f : tame f (stop_job f).
Proof.
  unfold stop_job. case_match; [done|]. pose proof (tame_job f (cancel (job f))) as Ht.
  destruct (ask (cancel (job f)) f) as [j f1]. etrans; [apply Ht; [auto with quiet|]|etrans; [apply tame_reload|apply tame_say]].
  intros h [Ha _]. by rewrite cancel_idle in Ha.
Qed.

Lemma tame_clipboard f cut : tame f (take_clipboard f cut).
Proof. unfold take_clipboard. case_match; [done|]. etrans; [|apply tame_say]. by apply tame_same. Qed.

Lemma tame_paste f : tame f (paste_clipboard f).
Proof.
  unfold paste_clipboard. destruct (active (job f)); [done|]. destruct (bool_decide _); [apply tame_say|].
  pose proof (tame_start f (clipboard f) (path (listing (pane_of f))) (if clipboard_cut f then Move else Copy) ltac:(by destruct (clipboard_cut f))) as Ht.
  set (f1 := start_job _ _ _ _) in *. destruct (clipboard_cut f1); [|done]. etrans; [exact Ht|by apply tame_same].
Qed.

(** *** The menu and the keyboard *)

Lemma tame_mode f m : tame f (with_mode f m).
Proof. by apply tame_same. Qed.

Lemma tame_ask_rename f : tame f (ask_rename f).
Proof. unfold ask_rename. case_match; [done|by apply tame_same]. Qed.

Lemma tame_ask_delete f : tame f (ask_delete f).
Proof. unfold ask_delete. case_match; [done|by apply tame_same]. Qed.

Lemma tame_split f : tame f (toggle_split f).
Proof.
  unfold toggle_split. destruct (split_ f); (split; [|by destruct (second f)|by destruct (second f)]); intros [H0 H1]; [destruct (second f)|]; by split.
Qed.

Lemma tame_hidden f : tame f (toggle_hidden f).
Proof. etrans; [|apply tame_reload]. by apply tame_same. Qed.

Lemma tame_menu f c : tame f (run_menu blocks f c).1.
Proof.
  unfold run_menu. set (f1 := {| f with menu_open_ := false |}). assert (tame f f1) as Ht by by apply tame_same.
  destruct c; cbn [fst]; (etrans; [exact Ht|]);
    first [ apply tame_activate | by apply tame_same | apply tame_ask_rename | apply tame_ask_delete | apply tame_clipboard | apply tame_paste
          | apply tame_marks, toggle_all_lines | apply tame_go_up | apply tame_go_back | apply tame_go_forward | apply tame_split
          | apply tame_hidden | apply tame_sort | apply tame_stop ].
Qed.

Lemma tame_arrow f extend move : tame f (arrow f extend move).
Proof. exact (tame_settled f _). Qed.

Lemma tame_filter f (s : bytes) : tame f (refilter_pane (on_pane f (fun p => set_filter p s))).
Proof. etrans; [|apply tame_refilter]. by apply tame_on_pane. Qed.

Lemma tame_escape f : tame f (escape f).
Proof. unfold escape. repeat case_match; [apply tame_stop|apply tame_filter|by apply tame_on_pane]. Qed.

Lemma tame_rub_out f : tame f (rub_out f).
Proof. unfold rub_out. case_match; [|apply tame_go_up]. etrans; [|apply tame_refilter]. by apply tame_on_pane. Qed.

Lemma tame_filter_key f k : tame f (filter_key f k).
Proof. unfold filter_key. repeat case_match; [apply tame_hidden| |done]. etrans; [|apply tame_refilter]. by apply tame_on_pane. Qed.

Lemma tame_list_key f k : tame f (list_key blocks f k).1.
Proof.
  unfold list_key. destruct (ke_key k); cbn [fst]; try done;
    first [ apply tame_arrow | apply tame_line | apply tame_activate | apply tame_ask_rename | by apply tame_same | apply tame_split
          | apply tame_ask_delete | apply tame_escape | apply tame_rub_out | apply tame_filter_key | case_match; [by apply tame_same|done] ].
Qed.

Lemma tame_normal_key f k : tame f (normal_key blocks f k).1.
Proof.
  unfold normal_key. repeat (case_match; [|]); cbn [fst];
    first [ apply tame_clipboard | apply tame_paste | apply tame_marks, toggle_all_lines | apply tame_go_back | apply tame_go_forward
          | apply tame_list_key | exact (tame_settled f (fun p => select (toggle_mark p (sel p)) (line_down (toggle_mark p (sel p))))) ].
Qed.

(** *** The mouse *)

Lemma tame_menu_press f m : tame f (menu_press blocks f m).1.
Proof. unfold menu_press. repeat case_match; cbn [fst]; first [done|apply tame_menu|by apply tame_same]. Qed.

Lemma tame_places f m : tame f (places_press f m).
Proof. unfold places_press. repeat case_match; first [done|apply tame_go_to]. Qed.

Lemma tame_motion f m : tame f (drag_motion f m).
Proof. unfold drag_motion. repeat case_match; first [done|by apply tame_same]. Qed.

Lemma tame_release f y : tame f (drag_release f y).
Proof.
  unfold drag_release. set (f1 := Files _ _ _ _ _ _ _ _ _ _ _ _ _ _ _ _ _ _ _ _ _ _ _). assert (tame f f1) by by apply tame_same.
  repeat case_match; [done|done|]. etrans; [done|by apply tame_start].
Qed.

Lemma tame_press_path f x : tame f (press_path f x).
Proof. unfold press_path. case_match; [apply tame_go_to|done]. Qed.

Lemma tame_press_header f x : tame f (press_header f x).
Proof. unfold press_header. repeat case_match; apply tame_sort. Qed.

Lemma tame_press_list f m y : tame f (press_list amb blocks f m y).1.
Proof.
  unfold press_list. cbv zeta. set (hit := if _ && _ then _ else _). destruct (m_button m =? 2); cbn [fst].
  { case_match; [etrans; [apply tame_line|]|]; by apply tame_same. }
  destruct (negb _ || negb _); [done|]. destruct (negb (Z.land (m_mods m) Ctrl =? 0)); [exact (tame_settled f (fun p => select (toggle_mark p hit) hit))|].
  destruct (negb (Z.land (m_mods m) Shift =? 0)); [exact (tame_settled f (fun p => select (mark_range p (sel p) hit) hit))|].
  case_match; [etrans; [|apply tame_activate]|cbn [fst]; etrans; [|apply tame_line]]; by apply tame_same.
Qed.

Lemma tame_pane_mouse f m x y : tame f (pane_mouse amb blocks f m x y).1.
Proof.
  unfold pane_mouse. destruct (m_action m); cbn [fst];
    [|apply tame_release|case_match; [apply tame_motion|done]|apply tame_line|apply tame_line].
  repeat case_match; cbn [fst]; [apply tame_press_path|apply tame_press_header|apply tame_press_list].
Qed.

Lemma tame_enter f x f' x' : enter_pane f x = Some (f', x') -> tame f f'.
Proof. unfold enter_pane. repeat case_match; intros [= <- <-]; by apply tame_same. Qed.

Lemma tame_mouse f m : tame f (on_mouse amb blocks f m).1.
Proof.
  unfold on_mouse. destruct (menu_open_ f); [apply tame_menu_press|]. destruct (places_ f && (m_x m <? kPlacesWidth)); [apply tame_places|].
  destruct (places_ f && (m_x m =? kPlacesWidth)); [done|]. destruct (enter_pane _ _) as [[f' x']|] eqn:E; [|done].
  etrans; [by eapply tame_enter|apply tame_pane_mouse].
Qed.

(** *** The three that change the disk, and the refresh *)

Lemma on_pane_twice f g k : on_pane (on_pane f g) k = on_pane f (fun p => k (g p)).
Proof. unfold on_pane, with_pane, pane_of. by destruct (second f). Qed.

Lemma list_rows_on_pane f g : list_rows (on_pane f g) = list_rows f.
Proof. unfold on_pane, with_pane. by destruct (second f). Qed.

Lemma tame_settle_on f nm : tame f (settle_on f nm).
Proof. unfold settle_on, settle. rewrite on_pane_twice, list_rows_on_pane. apply tame_settled. Qed.

(** The panes and the work, whatever is asked of the disk. *)
Definition orderly f f' : Prop := (files_ok f -> files_ok f') /\ (deleting (job f') -> job f' = job f).

Lemma tame_orderly f f1 f' : orderly f f1 -> tame f1 f' -> orderly f f'.
Proof. intros [P1 W1] [P2 _ W2]. split; [by auto|]. intros Hd. specialize (W2 Hd). rewrite W2 in *. by apply W1. Qed.

Lemma orderly_refl f : orderly f f.
Proof. done. Qed.

(** The state once the disk has answered [q]. *)
Definition heard f (q : request) : files := {| f with f_hist := f_hist f ++ [Event q (answer (f_hist f) q)] |}.

Lemma ask_lstat f pth :
  ask (sys_lstat pth) f = (match answer (f_hist f) (QLstat pth) with RStat st => Done st | r => Error (errno_of r) end, heard f (QLstat pth)).
Proof. unfold ask, sys_lstat, heard. rewrite reply_run. cbn. by destruct (answer _ _). Qed.

Lemma ask_attempt f q : exists r, ask (attempt q) f = (r, heard f q).
Proof. unfold ask, attempt, heard. rewrite reply_run. by eexists. Qed.

Lemma tame_said f (r : result unit) (why : Z -> bytes) (f1 : files) :
  tame f f1 -> tame f (match r with Error e => say f (why e) | Done _ => f1 end).
Proof. intros Ht. destruct r; [done|apply tame_say]. Qed.

(** [before], then one request of a change, then looks only. *)
Definition asked_once (before : history) (q : request) f f' : Prop :=
  exists r, looked (f_hist f ++ before ++ [Event q r]) (f_hist f').

Definition here f : bytes := path (listing (pane_of f)).

(** The line chosen takes the name typed, which the disk has just said nobody bears. *)
Definition renames f f' : Prop :=
  exists r, (forall st, r <> RStat st) /\
    asked_once [Event (QLstat (join_path (here f) (edit_ f))) r] (QRename (join_path (here f) (touchable (pane_of f))) (join_path (here f) (edit_ f))) f f'.

Lemma commit_rename_does f : orderly f (commit_rename f) /\ (looked (f_hist f) (f_hist (commit_rename f)) \/ renames f (commit_rename f)).
Proof.
  unfold commit_rename. set (f1 := with_mode f FNormal). assert (tame f f1) as T1 by apply tame_mode.
  assert (forall f', tame f f' -> orderly f f' /\ (looked (f_hist f) (f_hist f') \/ renames f f')) as Hl.
  { intros f' Ht. split; [by eapply tame_orderly; [apply orderly_refl|]|]. left. apply Ht. }
  destruct (_ || _); [by apply Hl|]. destruct (existsb _ _); [apply Hl; etrans; [exact T1|apply tame_say]|].
  cbv zeta. rewrite ask_lstat. set (f2 := heard f1 _).
  destruct (ask_attempt f2 (QRename (join_path (path (listing (pane_of f1))) (touchable (pane_of f))) (join_path (path (listing (pane_of f1))) (edit_ f1)))) as [r ->].
  set (f3 := heard f2 _). assert (orderly f f3) as O3 by done.
  assert (tame f3 (settle_on (reload (say f3 [])) (edit_ f3))) as T3
    by (etrans; [|apply tame_settle_on]; etrans; [|apply tame_reload]; apply tame_say).
  apply (tame_said f3 r (fun e => str "renommage impossible : " ++ strerror e)) in T3.
  destruct (answer (f_hist f1) _) as [| | | |st| | |] eqn:E.
  5:{ apply Hl. etrans; [exact T1|]. etrans; [|apply tame_say]. split; [done| |done]. eexists. split; [done|]. by repeat constructor. }
  all: split; [by eapply tame_orderly|right]; eexists; split; [|eexists; rewrite (app_assoc _ [_] [_]); apply T3].
  all: intros st'; cbn in E |- *; unfold here; congruence.
Qed.
(** A file or a directory of the name typed, that did not exist. *)
Definition creates f f' : Prop :=
  asked_once [] (if creating_dir f then QMkdir (join_path (here f) (edit_ f)) 493 else QOpenNew (join_path (here f) (edit_ f)) 420) f f'.

(** The request that creates, and the descriptor closed. *)
Lemma create_asks (directory : bool) target h :
  exists r, looked (h ++ [Event (if directory then QMkdir target 493 else QOpenNew target 420) r]) (create directory target h).2.
Proof.
  destruct directory; [exists (answer h (QMkdir target 493)); unfold create, attempt; by rewrite reply_run|]. unfold create, bind. rewrite open_run. set (r := answer h _). exists r.
  destruct (descriptor r) as [fd|e]; [|done]. exists [Event (QClose fd) (answer (h ++ [Event (QOpenNew target 420) r]) (QClose fd))].
  split; [done|]. by repeat constructor.
Qed.

Lemma commit_create_does f : orderly f (commit_create f) /\ (looked (f_hist f) (f_hist (commit_create f)) \/ creates f (commit_create f)).
Proof.
  unfold commit_create. cbv zeta. set (f1 := Files _ _ _ _ _ _ _ _ _ _ _ _ _ _ _ _ _ _ _ _ _ _ _). assert (tame f f1) as T1 by by apply tame_same.
  assert (forall f', tame f f' -> orderly f f' /\ (looked (f_hist f) (f_hist f') \/ creates f f')) as Hl.
  { intros f' Ht. split; [by eapply tame_orderly; [apply orderly_refl|]|]. left. apply Ht. }
  destruct (bool_decide _); [by apply Hl|]. destruct (_ || _); [apply Hl; etrans; [exact T1|apply tame_say]|].
  destruct (create_asks (creating_dir f1) (join_path (path (listing (pane_of f1))) (edit_ f)) (f_hist f1)) as [r Hr].
  unfold ask. destruct (create _ _ _) as [a h1]. cbn [snd] in Hr. set (f2 := Files _ _ _ _ _ _ _ _ _ _ _ _ _ _ _ _ _ _ _ _ _ _ _).
  assert (tame f2 (settle_on (reload f2) (edit_ f))) as T2 by (etrans; [apply tame_reload|apply tame_settle_on]).
  apply (tame_said f2 a (fun e => str "creation impossible : " ++ strerror e)) in T2.
  split; [by eapply (tame_orderly f f2)|]. right. exists r. etrans; [exact Hr|apply T2].
Qed.

(** What is to be deleted is what was marked, or else the line chosen. *)
Definition deletes f f' : Prop := op (job f') = Delete /\ todo (job f') = first_items (target_paths (pane_of f)) [] Delete.

Lemma commit_delete_does f : (files_ok f -> files_ok (commit_delete f)) /\ looked (f_hist f) (f_hist (commit_delete f)) /\
  (deleting (job (commit_delete f)) -> job (commit_delete f) = job f \/ deletes f (commit_delete f)).
Proof.
  unfold commit_delete. cbv zeta. set (f1 := with_mode f FNormal). assert (tame f f1) as T1 by apply tame_mode.
  destruct (_ || _); [split_and!; [apply T1..|by left]|].
  set (f2 := say f1 []). assert (tame f f2) as T2 by (etrans; [exact T1|apply tame_say]). unfold start_job.
  pose proof (tame_ask (start (target_paths (pane_of f)) [] Delete (job f2)) f2 ltac:(auto with quiet)) as T3.
  pose proof (start_work (target_paths (pane_of f)) [] Delete (job f2) (f_hist f2)) as Hs.
  unfold ask in *. destruct (start _ _ _ _ _) as [j h1]. cbn [fst snd] in *. split_and!.
  - intros Hf. by apply T3, T2.
  - etrans; [apply T2|apply T3].
  - intros Hd. right. destruct (Hs Hd). split; [apply Hd|done].
Qed.

(** *** The refresh *)

Lemma tame_reprobe f p : tame f (reprobe f p).2 /\ same_lines p (reprobe f p).1.
Proof.
  unfold reprobe. pose proof (tame_ask (read_dir (path (listing p)) (show_hidden f)) f ltac:(auto with quiet)) as Ht.
  destruct (ask _ f) as [l f1]. split; [exact Ht|]. cbn [fst]. by destruct (bool_decide _).
Qed.

Lemma refresh_idle f : active (job f) = false -> on_refresh f = f.
Proof. intros E. unfold on_refresh. by rewrite E. Qed.

(** A program whose work is of the kind [k] whatever the disk answers. *)
Definition of_kind (k : file_op) (m : io file_job) : Prop := forall h, op (m h).1 = k.

Lemma kind_ret k j : op j = k -> of_kind k (ret j).
Proof. by intros E h. Qed.

Lemma kind_bind k (m : io file_job) g : of_kind k m -> (forall j, op j = k -> of_kind k (g j)) -> of_kind k (bind m g).
Proof. intros Hm Hg h. specialize (Hm h). unfold bind. destruct (m h) as [j h1]. by apply Hg. Qed.

Lemma kind_then k {A} (m : io A) g : (forall a, of_kind k (g a)) -> of_kind k (bind m g).
Proof. intros Hg h. unfold bind. destruct (m h) as [a h1]. apply Hg. Qed.

Ltac kinds :=
  repeat first [ eassumption | apply kind_ret; cbn; solve [auto] | apply kind_bind; [|intros ? ?] | apply kind_then; intros ? | case_match ].

Section Kinds.
Context (k : file_op).
Implicit Type j : file_job.

Lemma kind_close j : op j = k -> of_kind k (close_both j).
Proof. intros E. unfold close_both. kinds. Qed.

Lemma kind_finish j : op j = k -> of_kind k (finish_current j).
Proof. intros E. unfold finish_current. apply kind_bind; [by apply kind_close|]. intros j' E'. kinds. Qed.

Lemma kind_abandon e j : op j = k -> of_kind k (abandon e j).
Proof. intros E. unfold abandon. kinds. Qed.

Lemma kind_slice fuel budget moved j : op j = k -> of_kind k (slice fuel budget moved j).
Proof.
  revert moved j. induction fuel as [|fuel IH]; intros moved j E; cbn [slice]; [by apply kind_ret|].
  destruct (moved <? budget); [|by apply kind_ret]. apply kind_then. intros [[|b bs]|e]; [by apply kind_finish| |by apply kind_abandon].
  apply kind_then. intros [e|]; [by apply kind_abandon|by apply IH].
Qed.

Lemma kind_take_item it j : op j = k -> of_kind k (take_item it j).
Proof.
  intros E. unfold take_item, take_marker, take_dir, take_file, open_both. kinds.
Qed.

Lemma step_kind budget j h : op j = k -> op (step budget j h).1.2 = k.
Proof.
  intros E. unfold step. destruct (negb (active j)); [done|].
  assert (forall h, op ((if in_ j <? 0 then take_next j else ret (true, j)) h).1.2 = k) as Hn.
  { intros h'. destruct (in_ j <? 0); [|done]. unfold take_next. destruct (todo j) as [|it l]; [done|].
    pose proof (kind_take_item it {| j with todo := l |} E h') as Hk. unfold bind. by destruct (take_item _ _ _). }
  specialize (Hn h). unfold bind. destruct ((if in_ j <? 0 then take_next j else ret (true, j)) h) as [[more j1] h1]. cbn [fst snd] in *.
  destruct (negb more); [done|]. destruct (in_ j1 <? 0); [done|].
  pose proof (kind_slice (S (Z.to_nat budget)) budget 0 j1 Hn h1) as Hk. by destruct (slice _ _ _ _ _).
Qed.
End Kinds.

Lemma refresh_does f : (files_ok f -> files_ok (on_refresh f)) /\ (deleting (job (on_refresh f)) -> deleting (job f)).
Proof.
  set (Q := fun f' => (files_ok f -> files_ok f') /\ (deleting (job f') -> deleting (job f))). change (Q (on_refresh f)).
  unfold on_refresh. destruct (active (job f)) eqn:Ea; [|done]. cbn [negb]. unfold ask at 1.
  pose proof (step_kind (op (job f)) (1024 * 1024) (job f) (f_hist f) eq_refl) as Hk.
  destruct (step _ _ _) as [[more j] h1]. cbn [fst snd] in Hk. cbv zeta.
  destruct more; [split; [done|]; intros [_ Hd]; cbn in Hd; split; congruence|].
  pose proof (cancel_idle j (f_hist (with_job {| f with f_hist := h1 |} j))) as Hc. unfold ask at 1. destruct (cancel _ _) as [j' h2]. cbn [fst] in Hc.
  set (f2 := with_job _ j').
  destruct (reprobe f2 (pane0 f2)) as [p0 f3] eqn:E0. destruct (tame_reprobe f2 (pane0 f2)) as [T0 O0]. rewrite E0 in T0, O0. cbn [fst snd] in T0, O0.
  set (f4 := Files p0 _ _ _ _ _ _ _ _ _ _ _ _ _ _ _ _ _ _ _ _ _ _).
  assert (tame f2 f4) as T1. { apply (tame_put0 f2 f3 p0 T0). intros [Hp _]. by eapply same_lines_ok. }
  destruct (reprobe f4 (pane1 f4)) as [p1 f5] eqn:E1. destruct (tame_reprobe f4 (pane1 f4)) as [T2 O2]. rewrite E1 in T2, O2. cbn [fst snd] in T2, O2.
  set (f6 := Files _ p1 _ _ _ _ _ _ _ _ _ _ _ _ _ _ _ _ _ _ _ _ _).
  assert (tame f4 f6) as T3. { apply (tame_put1 f4 f5 p1 T2). intros [_ Hp]. by eapply same_lines_ok. }
  set (f7 := say _ _). assert (tame f2 f7) as T by (etrans; [exact T1|]; etrans; [exact T3|]; etrans; [apply tame_refilter|apply tame_say]).
  split; [intros Ho; by apply T|]. intros Hd. pose proof (tame_work _ _ T Hd) as Ej. destruct Hd as [Hd _]. rewrite Ej in Hd. cbn in Hd. congruence.
Qed.
(** *** Every event *)

Definition typing (f : files) : Prop := f_mode f = FRenaming \/ f_mode f = FCreating.

(** A name typed is a line of text until [Enter]. *)
Lemma name_key_tame f k : ke_key k <> KEnter -> tame f (name_key f k).
Proof. intros Hk. unfold name_key. destruct (ke_key k); try done; [|by apply tame_same..]. case_match; by apply tame_same. Qed.

Lemma tame_resize f s : tame f (on_resize f s).
Proof. unfold on_resize. case_match; [done|]. etrans; [|apply tame_settle]. by apply tame_same. Qed.

(** What an event does, whole: it is tame, or it is one of these four. *)
Inductive deed f : files_event -> files -> Prop :=
  | DeedTame ev f' : tame f f' -> deed f ev f'
  | DeedRename k : menu_open_ f = false -> f_mode f = FRenaming -> ke_key k = KEnter -> deed f (FKey k) (commit_rename f)
  | DeedCreate k : menu_open_ f = false -> f_mode f = FCreating -> ke_key k = KEnter -> deed f (FKey k) (commit_create f)
  | DeedDelete k : menu_open_ f = false -> f_mode f = FConfirming -> ke_key k = KChar -> yes (ke_ch k) = true -> deed f (FKey k) (commit_delete f)
  | DeedWork : active (job f) = true -> deed f FRefresh (on_refresh f).

Lemma key_deed f k : deed f (FKey k) (on_key blocks f k).1.
Proof.
  unfold on_key. destruct (menu_open_ f) eqn:Em; [apply DeedTame; cbn [fst]; case_match; by apply tame_same|].
  destruct (f_mode f) eqn:Ef; cbn [fst]; [apply DeedTame, tame_normal_key| | |].
  - destruct (decide (ke_key k = KEnter)) as [Ek|]; [|by apply DeedTame, name_key_tame]. unfold name_key. rewrite Ek, Ef. by apply DeedRename.
  - unfold confirm_key. destruct (bool_decide_reflect (ke_key k = KChar)); [|apply DeedTame, tame_mode].
    destruct (yes (ke_ch k)) eqn:Ey; [by apply DeedDelete|apply DeedTame, tame_mode].
  - destruct (decide (ke_key k = KEnter)) as [Ek|]; [|by apply DeedTame, name_key_tame]. unfold name_key. rewrite Ek, Ef. by apply DeedCreate.
Qed.

Lemma every_deed f ev : deed f ev (handle amb blocks f ev).1.
Proof.
  destruct ev as [s|k|m|]; cbn [handle fst]; [apply DeedTame, tame_resize|apply key_deed|apply DeedTame, tame_mouse|].
  destruct (active (job f)) eqn:Ea; [by apply DeedWork|]. rewrite refresh_idle by done. by apply DeedTame.
Qed.

Lemma deed_panes f ev f' : deed f ev f' -> files_ok f -> files_ok f'.
Proof.
  intros [ev' f1 Ht|k _ _ _|k _ _ _|k _ _ _ _|_].
  - apply Ht.
  - apply commit_rename_does.
  - apply commit_create_does.
  - apply commit_delete_does.
  - apply refresh_does.
Qed.

Lemma files_new_ok start h0 : files_ok (files_new start h0).
Proof. apply tame_reload. split; split; cbn; lia. Qed.

Lemma events_ok l f : files_ok f -> files_ok (after_events amb blocks f l).
Proof.
  revert f. induction l as [|ev l IH]; intros f Hf; [done|]. apply IH. eapply deed_panes; [apply every_deed|done].
Qed.

(** The line under the selection. *)
Definition on_a_line (p : pane) : Prop :=
  (top p <= sel p)%nat /\ ((exists e, visible p !! sel p = Some e) \/ visible p = [] /\ sel p = 0%nat).

Lemma pane_ok_line p : pane_ok p -> on_a_line p.
Proof.
  intros [Hs Ht]. split; [done|]. destruct (visible p) as [|e l] eqn:E; cbn [length] in Hs; [right; split; [done|lia]|left].
  apply lookup_lt_is_Some_2. cbn. lia.
Qed.

(** The selection is always on a line of the list.  Started on any directory, with
    any answers of the disk -- directories that fail, empty out or shrink between two
    looks --, after any sequence of keys, of mouse events, of resizes and of refreshes:
    in each of the two panes, drawn or not, the selection is the index of a line, or the
    list is empty and the selection is zero; and it is never above the first line shown.
    The accesses of the code to the line chosen stay inside the vector. *)
Theorem selection_stays_on_a_line start h0 l :
  on_a_line (pane0 (after_events amb blocks (files_new start h0) l)) /\ on_a_line (pane1 (after_events amb blocks (files_new start h0) l)).
Proof. destruct (events_ok l _ (files_new_ok start h0)). split; by apply pane_ok_line. Qed.

End Handlers.
