(* ===== verification/FilesFlaws.v ===== *)
(** * Examples on a small disk, and where the files application surprises *)

From S2P Require Import Prelude StdString Syscalls Dir FileJob TreeDisk Cell Surface Input Editor Files FilesProps.

Definition small_tree : tree :=
  Tree [(str "/", NDir); (str "/a", NDir); (str "/a/b", NDir); (str "/a/x", NFile [1; 2]); (str "/a/y", NFile [3])] [].

Definition char_event (c : Z) : key_event := KeyEvent KChar c 0.
Definition key_of (k : key) : key_event := KeyEvent k 0 0.
Definition left_of (a : mouse_action) (x y : Z) : files_event := FMouse (MouseEvent a 0 x y 0).

(** The application opened on a directory of that disk, after some events. *)
Definition run_files (start : bytes) (l : list files_event) : files :=
  let s := tree_disk small_tree in after_events false 4 (files_new start []) l.

Definition tree_after (f : files) : list (bytes * node) := nodes (replay small_tree (f_hist f)).

Definition names_of (p : pane) : list bytes := name <$> visible p.

(** Directories first, the way out before them. *)
Example opened : names_of (pane0 (run_files (str "/a") [])) = [str ".."; str "b"; str "x"; str "y"].
Proof. by vm_compute. Qed.

(** [x] is renamed [z], and is under the cursor. *)
Example renamed :
  let f := run_files (str "/a") [FKey (key_of KDown); FKey (key_of KDown); FKey (key_of KF2); FKey (key_of KBackspace); FKey (char_event 122); FKey (key_of KEnter)] in
  names_of (pane0 f) = [str ".."; str "b"; str "y"; str "z"] /\ sel (pane0 f) = 3%nat.
Proof. by vm_compute. Qed.

(** [x], copied and pasted one directory above: the work takes three refreshes. *)
Example copied :
  let f := run_files (str "/a")
    ([FKey (key_of KEnd); FKey (KeyEvent KChar 99 Ctrl); FKey (key_of KBackspace); FKey (KeyEvent KChar 118 Ctrl)] ++ replicate 4 FRefresh) in
  names_of (pane0 f) = [str "a"; str "y"] /\ active (job f) = false.
Proof. by vm_compute. Qed.

(** A click on the way out, already chosen, with one cell of motion before the button is
    released: the press goes up and puts the cursor on the directory one leaves; the
    motion takes that directory; the release, on the row of the way out again, moves it
    into its grandparent. *)
Example a_shaken_click_moves_a_directory :
  let f := run_files (str "/a/b") [left_of MPress 3 2; left_of MMotion 4 2; left_of MRelease 4 2] in
  active (job f) = true /\ op (job f) = Move /\ todo (job f) = [Item (str "/a/b") (str "/b") false].
Proof. by vm_compute. Qed.

(** A drag released on the shortcuts is not over: a click of later ends it, and moves
    what was taken before. *)
Example a_drag_outlives_its_release :
  let f := run_files (str "/a")
    [FKey (key_of KF9); left_of MPress 15 4; left_of MMotion 16 4; left_of MRelease 2 4; FKey (key_of KHome); left_of MPress 15 3; left_of MRelease 15 3] in
  active (job f) = true /\ op (job f) = Move /\ todo (job f) = [Item (str "/a/x") (str "/a/b/x") false].
Proof. by vm_compute. Qed.

(** A name typed is given to the line chosen when [Enter] comes, which a click may have
    changed: [x], on its way to be [xz], leaves its name to [y]. *)
Example a_click_redirects_a_renaming :
  let f := run_files (str "/a")
    [FKey (key_of KDown); FKey (key_of KDown); FKey (key_of KF2); FKey (char_event 122); left_of MPress 3 5; left_of MRelease 3 5; FKey (key_of KEnter)] in
  names_of (pane0 f) = [str ".."; str "b"; str "x"; str "xz"] /\ tree_after f !! 4%nat = Some (str "/a/xz", NFile [3]).
Proof. by vm_compute. Qed.

(** The pane that was not in hand when the window shrank has its cursor below the last
    row: two rows of list, the caret on the sixth row of five. *)
Example a_stale_pane :
  let f := run_files (str "/a") [FKey (key_of KEnd); FKey (key_of KF3); FKey (key_of KTab); FResize (Size 40 5); FKey (key_of KTab)] in
  list_rows f = 2%nat /\ wants_cursor f = Some (Pos 0 5).
Proof. by vm_compute. Qed.
