(* ===== verification/GuestEnv.v ===== *)
(** * The environment of a guest: [src/pty/env.hpp], [src/pty/env.cpp]

    What the shell of a terminal inherits.  A [std::map] is the list of its pairs in the
    order of its keys.  The theorem says, key by key, what a guest sees. *)

From Stdlib Require Import Sorted.
From S2P Require Import Prelude StdString Syscalls Dir.

Abbreviation env_delta := (list (bytes * bytes)).

Definition kSessionVars : list bytes :=
  [str "SSH_AUTH_SOCK"; str "SSH_CONNECTION"; str "SSH_CLIENT"; str "SSH_TTY"; str "DISPLAY"; str "XDG_SESSION_ID"].

Definition kForced : env_delta :=
  [(str "TERM", str "xterm-256color"); (str "COLORTERM", str "truecolor"); (str "TERMOS", str "1")].

Definition kBanned : list bytes :=
  [str "LINES"; str "COLUMNS"; str "TERMOS_BOOT_ID"; str "TERMOS_EXE"; str "SSHOS_BOOT_ID"; str "SSHOS_EXE"].

Definition in_table (table : list bytes) (k : bytes) : bool := existsb (fun x => bool_decide (x = k)) table.

Definition is_session_variable (k : bytes) : bool := in_table kSessionVars k.

(** [env\[key\] = value] *)
Fixpoint env_set (k v : bytes) (l : env_delta) : env_delta :=
  match l with
  | [] => [(k, v)]
  | (k', v') :: l' =>
      if string_less k k' then (k, v) :: l
      else if string_less k' k then (k', v') :: env_set k v l'
      else (k', v) :: l'
  end.

(** An entry cut at its first [=]; no key, no entry. *)
Fixpoint cut_entry (e : bytes) : option (bytes * bytes) :=
  match e with
  | [] => None
  | c :: e => if c =? 61 then Some ([], e) else match cut_entry e with Some (k, v) => Some (c :: k, v) | None => None end
  end.

Definition entry_of (e : bytes) : option (bytes * bytes) :=
  match cut_entry e with Some ([], _) | None => None | Some kv => Some kv end.

Definition inherit (l : env_delta) (e : bytes) : env_delta :=
  match entry_of e with
  | None => l
  | Some (k, v) => if is_session_variable k || in_table kBanned k then l else env_set k v l
  end.

Definition refresh (l : env_delta) (kv : bytes * bytes) : env_delta :=
  if is_session_variable kv.1 then env_set kv.1 kv.2 l else l.

Definition child_map (base : list bytes) (delta : env_delta) : env_delta :=
  fold_left (fun l kv => env_set kv.1 kv.2 l) kForced (fold_left refresh delta (fold_left inherit base [])).

Definition child_env (base : list bytes) (delta : env_delta) : list bytes :=
  (fun kv => kv.1 ++ [61] ++ kv.2) <$> child_map base delta.

Section Accounts.
Context `{System}.

Definition login_shell : bytes := match shell_of_user with Some (47 :: r) => 47 :: r | _ => str "/bin/sh" end.
Definition home_dir : bytes := match home_of_user with Some (47 :: r) => 47 :: r | _ => str "/" end.
Definition daemon_env : list bytes := environ.
End Accounts.

(** ** What a guest sees under a key *)

Fixpoint env_get (k : bytes) (l : env_delta) : option bytes :=
  match l with [] => None | (k', v) :: l => if bool_decide (k = k') then Some v else env_get k l end.

(** The keys in strict order. *)
Definition ordered_keys (l : env_delta) : Prop := StronglySorted (fun a b => string_less a b = true) (fst <$> l).

Lemma string_less_irrefl k : string_less k k = false.
Proof. rewrite string_less_words, words_refl. done. Qed.

Lemma string_less_trans a b c : string_less a b = true -> string_less b c = true -> string_less a c = true.
Proof.
  rewrite !string_less_words. intros H1 H2. destruct (words a b) eqn:E1, (words b c) eqn:E2; try done.
  by rewrite (cmp_trans _ comparator_words _ _ _ E1 E2).
Qed.

Lemma string_less_total a b : string_less a b = false -> string_less b a = false -> a = b.
Proof.
  rewrite !string_less_words, (cmp_opp _ comparator_words a b). destruct (words a b) eqn:E; try done. intros _ _. by apply words_eq.
Qed.

Lemma env_get_set k v k' l : env_get k' (env_set k v l) = if bool_decide (k' = k) then Some v else env_get k' l.
Proof.
  induction l as [|[k0 v0] l IH]; [done|]. cbn [env_set]. destruct (string_less k k0) eqn:E1; [done|].
  destruct (string_less k0 k) eqn:E2; cbn [env_get].
  - rewrite IH. repeat case_bool_decide; subst; try done. by rewrite string_less_irrefl in E2.
  - assert (k = k0) as -> by by apply string_less_total. by repeat case_bool_decide.
Qed.

Lemma env_set_keys k v l x : In x (fst <$> env_set k v l) <-> x = k \/ In x (fst <$> l).
Proof.
  induction l as [|[k0 v0] l IH]; [cbn; naive_solver|]. cbn [env_set]. destruct (string_less k k0) eqn:E1; [cbn; naive_solver|].
  destruct (string_less k0 k) eqn:E2; cbn; [rewrite IH; naive_solver|].
  assert (k = k0) as -> by by apply string_less_total. naive_solver.
Qed.

Lemma env_set_ordered k v l : ordered_keys l -> ordered_keys (env_set k v l).
Proof.
  unfold ordered_keys. induction l as [|[k0 v0] l IH]; intros Hl; [by repeat constructor|]. cbn [env_set].
  apply StronglySorted_inv in Hl as [Hl Hk]. destruct (string_less k k0) eqn:E1.
  - constructor; [by constructor|]. constructor; [done|]. eapply list.Forall_impl; [exact Hk|]. intros x Hx. by eapply string_less_trans.
  - destruct (string_less k0 k) eqn:E2.
    + constructor; [by apply IH|]. apply List.Forall_forall. intros x Hx. apply env_set_keys in Hx as [->|Hx]; [done|].
      by apply (proj1 (List.Forall_forall _ _) Hk).
    + constructor; done.
Qed.

Lemma env_get_snoc k l x : env_get k (l ++ [x]) = match env_get k l with Some v => Some v | None => env_get k [x] end.
Proof. induction l as [|[k1 v1] l IH]; [done|]. cbn. by case_bool_decide. Qed.

Lemma inherit_get base : forall l k,
  env_get k (fold_left inherit base l) =
    if is_session_variable k || in_table kBanned k then env_get k l
    else match env_get k (List.rev (omap entry_of base)) with Some v => Some v | None => env_get k l end.
Proof.
  induction base as [|e base IH]; intros l k; [by destruct (_ || _)|]. cbn [fold_left omap list_omap]. rewrite IH. unfold inherit.
  destruct (entry_of e) as [[k0 v0]|]; [|done]. cbn [List.rev].
  rewrite env_get_snoc. cbn [env_get]. destruct (is_session_variable k || in_table kBanned k) eqn:Ek.
  - destruct (is_session_variable k0 || in_table kBanned k0) eqn:E0; [done|]. rewrite env_get_set. case_bool_decide; [subst; congruence|done].
  - destruct (env_get k (List.rev _)); [done|]. destruct (is_session_variable k0 || in_table kBanned k0) eqn:E0.
    + case_bool_decide; [subst; congruence|done].
    + rewrite env_get_set. by case_bool_decide.
Qed.

Lemma refresh_get delta : forall l k,
  env_get k (fold_left refresh delta l) =
    if is_session_variable k then match env_get k (List.rev delta) with Some v => Some v | None => env_get k l end else env_get k l.
Proof.
  induction delta as [|[k0 v0] delta IH]; intros l k; [by destruct (is_session_variable k)|]. cbn [fold_left]. rewrite IH. unfold refresh. cbn [fst snd List.rev].
  rewrite env_get_snoc. cbn [env_get]. destruct (is_session_variable k) eqn:Ek.
  - destruct (env_get k (List.rev delta)); [done|]. destruct (is_session_variable k0) eqn:E0; [rewrite env_get_set; by case_bool_decide|].
    case_bool_decide; [subst; congruence|done].
  - destruct (is_session_variable k0) eqn:E0; [|done]. rewrite env_get_set. case_bool_decide; [subst; congruence|done].
Qed.

Lemma force_get l k : env_get k (fold_left (fun l kv => env_set kv.1 kv.2 l) kForced l) =
  match env_get k kForced with Some v => Some v | None => env_get k l end.
Proof.
  cbn [fold_left kForced env_get fst snd]. rewrite !env_get_set. repeat case_bool_decide; subst; try done.
Qed.

Lemma child_map_ordered base delta : ordered_keys (child_map base delta).
Proof.
  unfold child_map. cbn [fold_left kForced fst snd]. do 3 apply env_set_ordered.
  assert (forall delta l, ordered_keys l -> ordered_keys (fold_left refresh delta l)) as Hr.
  { clear. induction delta as [|kv delta IH]; intros l Hl; [done|]. cbn [fold_left]. apply IH. unfold refresh.
    destruct (is_session_variable _); [by apply env_set_ordered|done]. }
  assert (forall base l, ordered_keys l -> ordered_keys (fold_left inherit base l)) as Hi.
  { clear. induction base as [|e base IH]; intros l Hl; [done|]. cbn [fold_left]. apply IH. unfold inherit.
    destruct (entry_of e) as [[k v]|]; [|done]. destruct (_ || _); [done|by apply env_set_ordered]. }
  apply Hr, Hi. constructor.
Qed.

