(* ===== verification/Pty.v ===== *)
(** * A pseudo-terminal and its process: [src/pty/pty.hpp], [src/pty/pty.cpp]

    The parent's side: what the daemon asks of the system, in order, and what it keeps.
    The child between the fork and its [execve] is another program, that only follows
    the launch it is given. *)

From S2P Require Import Prelude StdString Syscalls.

Record pty := Pty { master : Z; pid : Z; exited : bool; signalled : bool; eof : bool; code : Z }.

Definition pty_new : pty := Pty (-1) (-1) false false false 0.

Definition kNameMax : Z := 128.
Definition SIGHUP : Z := 1.
Definition SIGKILL : Z := 9.

Section Pty.
Context `{System}.
Implicit Type t : pty.

(** The errno the child reports: an [int] of four bytes, the least first. *)
Definition int_of (bs : bytes) : Z :=
  let n := List.fold_right (fun b acc => b + 256 * acc) 0 bs in if n <? 2 ^ 31 then n else n - 2 ^ 32.

Definition pipe_of (r : reply) : result (Z * Z) := match r with RPair a b => Done (a, b) | _ => Error (errno_of r) end.

(** The name of the slave, in a buffer of [kNameMax] bytes. *)
Definition name_of (r : reply) : result bytes := match r with RBytes bs => Done (take (Z.to_nat (kNameMax - 1)) bs) | _ => Error (errno_of r) end.

(** A step of [spawn] that failed: the master is closed, the reason told. *)
Definition spawn_failed (m : Z) (what : bytes) (e : Z) : io bytes := let! _ := sys_close m in ret (what ++ strerror e).

(** The child's report: [execve] that succeeds closes the pipe, and nothing is read. *)
Definition read_report t (m p r : Z) (path : bytes) : io (pty * bytes) :=
  let! got := sys_read r 4 in
  let! _ := sys_close r in
  match got with
  | Done ((_ :: _ :: _ :: [_]) as bs) =>
      let! _ := call (QWait p true) in
      let! _ := sys_close m in
      ret (t, str "impossible de lancer " ++ [0xC2; 0xAB; 32] ++ path ++ [32; 0xC2; 0xBB] ++ str " : " ++ strerror (int_of bs))
  | _ => ret ({| t with master := m; pid := p |}, [])
  end.

Definition fork_into t (s : launch) (m : Z) (name : bytes) : io (pty * bytes) :=
  let! r := call QPipe in
  match pipe_of r with
  | Error e => let! why := spawn_failed m (str "pipe2 a echoue : ") e in ret (t, why)
  | Done (rd, wr) =>
      let! r := call (QFork s name wr) in
      match descriptor r with
      | Error e =>
          let! why := spawn_failed m (str "fork a echoue : ") e in
          let! _ := sys_close rd in
          let! _ := sys_close wr in
          ret (t, why)
      | Done p => let! _ := sys_close wr in read_report t m p rd (l_path s)
      end
  end.

(** The message of the failure, empty on success. *)
Definition spawn (s : launch) t : io (pty * bytes) :=
  let! r := sys_open QOpenPt in
  match r with
  | Error e => ret (t, str "impossible d'ouvrir un pseudo-terminal : " ++ strerror e)
  | Done m =>
      let! r := attempt (QGrantPt m) in
      match r with
      | Error e => let! why := spawn_failed m (str "grantpt a echoue : ") e in ret (t, why)
      | Done _ =>
          let! r := attempt (QUnlockPt m) in
          match r with
          | Error e => let! why := spawn_failed m (str "unlockpt a echoue : ") e in ret (t, why)
          | Done _ =>
              let! r := call (QPtsName m) in
              match name_of r with
              | Error e => let! why := spawn_failed m (str "ptsname_r a echoue : ") e in ret (t, why)
              | Done name => fork_into t s m name
              end
          end
      end
  end.

Definition resize t (cols rows : Z) : io unit :=
  if master t <? 0 then ret tt else let! _ := call (QWinsize (master t) cols rows) in ret tt.

(** Nothing, the end, or bytes. *)
Definition read t (n : Z) : io (option bytes) :=
  if master t <? 0 then ret None
  else let! r := sys_read (master t) n in ret (match r with Done bs => Some bs | Error _ => None end).

(** What the system takes is told to nobody. *)
Definition write t (bs : bytes) : io unit :=
  if master t <? 0 then ret tt else let! _ := call (QWrite (master t) bs) in ret tt.

Definition close_master t : io pty :=
  if master t <? 0 then ret t else let! _ := sys_close (master t) in ret {| t with master := -1 |}.

Definition signal t (sig : Z) : io unit :=
  if (pid t <=? 0) || exited t then ret tt else let! _ := call (QKill (- pid t) sig) in ret tt.

Definition hangup t : io unit := signal t SIGHUP.
Definition kill_now t : io unit := signal t SIGKILL.

Definition shutdown t : io pty :=
  let! _ := hangup t in
  let! t := close_master t in
  let! _ := kill_now t in
  ret t.

Definition note_eof t : pty := {| t with eof := true |}.

(** The end of the child, if [waitpid] tells it. *)
Definition reaped t (r : reply) : option pty :=
  match r with
  | RWait got st =>
      if got =? pid t then
        Some (match st with
              | WExited c => {| t with exited := true; code := c |}
              | WSignaled sig => {| t with exited := true; signalled := true; code := sig |}
              | WOther => {| t with exited := true |}
              end)
      else None
  | _ => None
  end.

Definition try_reap t : io (pty * bool) :=
  if (pid t <=? 0) || exited t then ret (t, false)
  else
    let! r := call (QWait (pid t) false) in
    ret (match reaped t r with Some t => (t, true) | None => (t, false) end).

End Pty.
