(* ===== verification/PtyLedger.v ===== *)
(** * What a pseudo-terminal holds

    The descriptors and the processes the requests of [src/pty/pty.cpp] leave: [ledger]
    reads them in the history, [fds_of] and [procs_of] in the object.  Every operation
    keeps the two in step, and a signal goes only to a process still in the ledger. *)

From stdpp Require Import gmultiset.
From S2P Require Import Prelude StdString Syscalls Pty.

(** The descriptors open and the processes to wait for. *)
Definition accounts : Type := gmultiset Z * gmultiset Z.

(** What a request and its answer make of them.  A wait without [WNOHANG] comes back
    when there is nothing left to wait for. *)
Definition book (a : accounts) (ev : event) : accounts :=
  let '(f, p) := a in
  match ev with
  | Event QOpenPt (RCount n) => if 0 <=? n then (f ⊎ {[+ n +]}, p) else a
  | Event QPipe (RPair x y) => (f ⊎ {[+ x +]} ⊎ {[+ y +]}, p)
  | Event (QClose x) _ => (f ∖ {[+ x +]}, p)
  | Event (QFork _ _ _) (RCount n) => if 0 <? n then (f, p ⊎ {[+ n +]}) else a
  | Event (QWait n true) _ => if 0 <? n then (f, p ∖ {[+ n +]}) else a
  | Event (QWait n false) (RWait got _) => if got =? n then (f, p ∖ {[+ n +]}) else a
  | _ => a
  end.

Definition ledger (l : history) : accounts := fold_left book l (∅, ∅).

(** A signal is for the group of a process forked and not waited for. *)
Definition aim (a : accounts) (q : request) : Prop :=
  match q with QKill g _ => exists p, g = - p /\ 0 < p /\ p ∈ a.2 | _ => True end.
Definition aimed (l : history) : Prop := each (fun l q => aim (ledger l) q) l.

(** From the accounts [a], [m] ends in accounts that satisfy [Q], its signals well aimed. *)
Definition does {B} (a : accounts) (m : io B) (Q : B -> accounts -> Prop) : Prop :=
  forall h, ledger h = a -> aimed h -> Q (m h).1 (ledger (m h).2) /\ aimed (m h).2.

Lemma does_ret {B} a (b : B) (Q : B -> accounts -> Prop) : Q b a -> does a (ret b) Q.
Proof. intros Hq h <- Ha. by split. Qed.

Lemma does_bind {B C} a (m : io B) (f : B -> io C) R Q :
  does a m R -> (forall b a', R b a' -> does a' (f b) Q) -> does a (bind m f) Q.
Proof.
  intros Hm Hf h Hl Ha. destruct (Hm h Hl Ha) as [Hr Ha']. unfold bind. destruct (m h) as [b h']. cbn [fst snd] in *.
  by apply (Hf b _ Hr).
Qed.

Lemma does_weaken {B} a (m : io B) (Q R : B -> accounts -> Prop) : does a m Q -> (forall b a', Q b a' -> R b a') -> does a m R.
Proof. intros Hm Hq h Hl Ha. destruct (Hm h Hl Ha) as [Hb Ha']. split; [by apply Hq|done]. Qed.

Lemma ledger_snoc l ev : ledger (l ++ [ev]) = book (ledger l) ev.
Proof. unfold ledger. by rewrite fold_left_app. Qed.

Section Ledger.
Context `{System}.
Implicit Type t : pty.

Lemma does_call a q (Q : reply -> accounts -> Prop) : aim a q -> (forall r, Q r (book a (Event q r))) -> does a (call q) Q.
Proof.
  intros Hq Hr h Hl Ha. subst a. unfold call. cbv zeta. cbn [fst snd]. rewrite ledger_snoc. split; [apply Hr|]. by apply each_snoc.
Qed.

(** A request that changes no account. *)
Lemma does_same a q : aim a q -> (forall r, book a (Event q r) = a) -> does a (call q) (fun _ a' => a' = a).
Proof. intros Hq Hr. by apply does_call. Qed.

Lemma does_close a x : does a (sys_close x) (fun _ a' => a' = (a.1 ∖ {[+ x +]}, a.2)).
Proof.
  unfold sys_close. eapply does_bind; [by apply (does_call a (QClose x) (fun _ a' => a' = (a.1 ∖ {[+ x +]}, a.2))); [|intros r; by destruct a]|].
  intros ? a' Ha. by apply does_ret.
Qed.

Lemma does_read a x n : does a (sys_read x n) (fun _ a' => a' = a).
Proof.
  unfold sys_read. eapply does_bind; [by apply does_same; [|intros r; by destruct a]|]. intros r a' ->. by apply does_ret.
Qed.

(** ** What the object holds *)

Definition fds_of t : gmultiset Z := if master t <? 0 then ∅ else {[+ master t +]}.
Definition procs_of t : gmultiset Z := if (pid t <=? 0) || exited t then ∅ else {[+ pid t +]}.

(** From some accounts and what [t] holds, to the same and what the object then holds. *)
Definition keeps_step {B} (t : pty) (m : io B) (left_ : B -> pty) : Prop :=
  forall F P, does (F ⊎ fds_of t, P ⊎ procs_of t) m (fun b a => a = (F ⊎ fds_of (left_ b), P ⊎ procs_of (left_ b))).

Lemma drop_last (F : gmultiset Z) x : (F ⊎ {[+ x +]}) ∖ {[+ x +]} = F.
Proof. multiset_solver. Qed.

Lemma drop_two (F : gmultiset Z) x y z : (F ⊎ {[+ x +]} ⊎ {[+ y +]} ⊎ {[+ z +]}) ∖ {[+ z +]} ∖ {[+ y +]} = F ⊎ {[+ x +]}.
Proof. multiset_solver. Qed.

Lemma failed_does F P m what e : what <> [] ->
  does (F ⊎ {[+ m +]}, P) (spawn_failed m what e) (fun why a => why <> [] /\ a = (F, P)).
Proof.
  intros Hw. unfold spawn_failed. eapply does_bind; [apply does_close|]. intros ? a ->. apply does_ret. cbn [fst snd]. split.
  - by destruct what.
  - by rewrite drop_last.
Qed.

(** How [spawn] ends: nothing is left of a failure. *)
Definition spawned t (F P : gmultiset Z) (r : pty * bytes) (a : accounts) : Prop :=
  let '(t', why) := r in
  if bool_decide (why = []) then
    0 <= master t' /\ 0 <= pid t' /\ exited t' = exited t /\
    a = (F ⊎ {[+ master t' +]}, P ⊎ (if 0 <? pid t' then {[+ pid t' +]} else ∅))
  else t' = t /\ a = (F, P).

Lemma spawn_refused t F P m what e : what <> [] ->
  does (F ⊎ {[+ m +]}, P) (let! why := spawn_failed m what e in ret (t, why)) (spawned t F P).
Proof.
  intros Hw. eapply does_bind; [by apply failed_does|]. intros why a [Hy ->]. apply does_ret. unfold spawned. by rewrite bool_decide_false.
Qed.

Lemma report_does t F P m p rd path : 0 <= m -> 0 <= p ->
  does (F ⊎ {[+ m +]} ⊎ {[+ rd +]}, P ⊎ (if 0 <? p then {[+ p +]} else ∅)) (read_report t m p rd path) (spawned t F P).
Proof.
  intros Hm Hp. set (P' := P ⊎ _). unfold read_report. eapply does_bind; [apply does_read|]. intros got a ->.
  eapply does_bind; [apply does_close|]. intros ? a ->. cbn [fst snd]. rewrite drop_last.
  assert (does (F ⊎ {[+ m +]}, P') (ret ({| t with master := m; pid := p |}, @nil Z)) (spawned t F P)) as Hok by by apply does_ret.
  destruct got as [[|? [|? [|? [|? []]]]]|]; try exact Hok.
  eapply does_bind; [apply (does_call _ (QWait p true) (fun _ a => a = (F ⊎ {[+ m +]}, P))); [done|]|].
  { intros r. cbn [book]. subst P'. destruct (0 <? p); [by rewrite drop_last|]. by rewrite (right_id ∅ (⊎)). }
  intros ? a ->. eapply does_bind; [apply does_close|]. intros ? a ->. apply does_ret. unfold spawned. cbn [fst snd]. by rewrite drop_last.
Qed.

Lemma fork_does t s F P m name : 0 <= m -> does (F ⊎ {[+ m +]}, P) (fork_into t s m name) (spawned t F P).
Proof.
  intros Hm. unfold fork_into.
  eapply does_bind; [apply (does_call _ QPipe (fun r a => a =
    match pipe_of r with Done (rd, wr) => (F ⊎ {[+ m +]} ⊎ {[+ rd +]} ⊎ {[+ wr +]}, P) | Error _ => (F ⊎ {[+ m +]}, P) end)); [done|by intros []]|].
  intros r a ->. destruct (pipe_of r) as [[rd wr]|e]; [|by apply spawn_refused].
  eapply does_bind; [apply (does_call _ (QFork s name wr) (fun r a => a =
    (F ⊎ {[+ m +]} ⊎ {[+ rd +]} ⊎ {[+ wr +]}, P ⊎ match r with RCount n => if 0 <? n then {[+ n +]} else ∅ | _ => ∅ end))); [done|]|].
  { intros []; cbn [book]; try (by rewrite (right_id ∅ (⊎))). destruct (0 <? n); [done|by rewrite (right_id ∅ (⊎))]. }
  intros r' a ->. destruct (descriptor r') as [p|e] eqn:E.
  - apply descriptor_done in E as [-> Hp]. eapply does_bind; [apply does_close|]. intros ? a ->. cbn [fst snd]. rewrite drop_last.
    by apply report_does.
  - assert ((match r' with RCount n => if 0 <? n then {[+ n +]} else ∅ | _ => ∅ end : gmultiset Z) = ∅) as ->.
    { destruct r'; try done. cbn in E. destruct (Z.leb_spec 0 n); [done|]. by destruct (Z.ltb_spec 0 n); [lia|]. }
    rewrite (right_id ∅ (⊎)).
    replace (F ⊎ {[+ m +]} ⊎ {[+ rd +]} ⊎ {[+ wr +]}) with ((F ⊎ {[+ rd +]} ⊎ {[+ wr +]}) ⊎ {[+ m +]}) by multiset_solver.
    eapply does_bind; [by apply failed_does|]. intros why a [Hy ->].
    eapply does_bind; [apply does_close|]. intros ? a ->. eapply does_bind; [apply does_close|]. intros ? a ->. apply does_ret.
    unfold spawned. rewrite bool_decide_false by done. cbn [fst snd]. split; [done|]. f_equal. multiset_solver.
Qed.

Lemma spawn_does t s F P : does (F, P) (spawn s t) (spawned t F P).
Proof.
  unfold spawn, sys_open.
  eapply does_bind; [eapply does_bind|].
  - apply (does_call _ QOpenPt (fun r a => match descriptor r with Done m => a = (F ⊎ {[+ m +]}, P) | Error _ => a = (F, P) end)); [done|].
    intros []; try done. cbn. by destruct (0 <=? n).
  - intros r a Ha. apply (does_ret a (descriptor r) (fun r a => match r with Done m => 0 <= m /\ a = (F ⊎ {[+ m +]}, P) | Error _ => a = (F, P) end)).
    cbn beta in Ha |- *. destruct (descriptor r) eqn:E; [|exact Ha]. split; [|exact Ha]. by apply descriptor_done in E as [_ ?].
  - intros r a Ha. destruct r as [m|e]; [|subst a; by apply does_ret]. destruct Ha as [Hm ->].
    unfold attempt. eapply does_bind; [eapply does_bind; [by apply does_same|intros r a ->; by apply (does_ret _ _ (fun _ a' => a' = (F ⊎ {[+ m +]}, P)))]|].
    intros r a ->. destruct r; [|by apply spawn_refused].
    eapply does_bind; [eapply does_bind; [by apply does_same|intros r a' ->; by apply (does_ret _ _ (fun _ a' => a' = (F ⊎ {[+ m +]}, P)))]|].
    intros r a' ->. destruct r; [|by apply spawn_refused].
    eapply does_bind; [by apply does_same|]. intros r a' ->. destruct (name_of r); [by apply fork_does|by apply spawn_refused].
Qed.

(** On an object that holds nothing. *)
Lemma spawn_keeps s t : fds_of t = ∅ -> procs_of t = ∅ -> exited t = false -> keeps_step t (spawn s t) fst.
Proof.
  intros Hf Hp He F P. rewrite Hf, Hp, !(right_id ∅ (⊎)). eapply does_weaken; [apply spawn_does|]. intros [t' why] a. unfold spawned. cbn [fst].
  case_bool_decide.
  - intros (Hm & Hi & Hx & ->). unfold fds_of, procs_of. rewrite Hx, He, orb_false_r. zrw_false (master t' <? 0).
    by destruct (Z.ltb_spec 0 (pid t')), (Z.leb_spec (pid t') 0); try lia.
  - intros [-> ->]. by rewrite Hf, Hp, !(right_id ∅ (⊎)).
Qed.

(** ** The other operations *)

Lemma resize_keeps t c r : keeps_step t (resize t c r) (fun _ => t).
Proof.
  intros F P. unfold resize. destruct (master t <? 0) eqn:E; [by apply does_ret|].
  eapply does_bind; [by apply does_same|]. intros ? a ->. by apply does_ret.
Qed.

Lemma read_keeps t n : keeps_step t (read t n) (fun _ => t).
Proof.
  intros F P. unfold read. destruct (master t <? 0) eqn:E; [by apply does_ret|].
  eapply does_bind; [apply does_read|]. intros r a ->. by apply does_ret.
Qed.

Lemma write_keeps t bs : keeps_step t (write t bs) (fun _ => t).
Proof.
  intros F P. unfold write. destruct (master t <? 0) eqn:E; [by apply does_ret|].
  eapply does_bind; [by apply does_same|]. intros ? a ->. by apply does_ret.
Qed.

Lemma signal_does F P t sig : does (F, P ⊎ procs_of t) (signal t sig) (fun _ a => a = (F, P ⊎ procs_of t)).
Proof.
  unfold signal, procs_of. destruct (_ || _) eqn:E; [by apply does_ret|]. apply orb_false_iff in E as [E _]. apply Z.leb_gt in E.
  eapply does_bind; [apply does_same; [|by intros []]|].
  - exists (pid t). cbn [snd]. split_and!; [lia|done|multiset_solver].
  - intros ? a ->. by apply does_ret.
Qed.

Lemma close_master_does F P t :
  does (F ⊎ fds_of t, P) (close_master t) (fun t' a => a = (F, P) /\ fds_of t' = ∅ /\ master t' < 0 /\ pid t' = pid t /\ exited t' = exited t).
Proof.
  unfold close_master, fds_of. destruct (Z.ltb_spec (master t) 0).
  - apply does_ret. rewrite (right_id ∅ (⊎)). by zrw_true (master t <? 0).
  - eapply does_bind; [apply does_close|]. intros ? a ->. apply does_ret. cbn [fst snd master pid exited]. by rewrite drop_last.
Qed.

(** Told to end: its descriptor is closed, its process still to wait for. *)
Lemma shutdown_does F P t :
  does (F ⊎ fds_of t, P ⊎ procs_of t) (shutdown t)
    (fun t' a => a = (F, P ⊎ procs_of t') /\ master t' < 0 /\ pid t' = pid t /\ exited t' = exited t).
Proof.
  unfold shutdown. eapply does_bind; [apply signal_does|]. intros ? a ->.
  eapply does_bind; [apply close_master_does|]. intros t' a (-> & _ & Hm & Hp & He).
  assert (procs_of t = procs_of t') as -> by (unfold procs_of; by rewrite Hp, He).
  eapply does_bind; [apply signal_does|]. intros ? a ->. by apply does_ret.
Qed.

Lemma try_reap_keeps t : keeps_step t (try_reap t) fst.
Proof.
  intros F P. unfold try_reap. destruct (_ || _) eqn:E; [by apply does_ret|]. pose proof E as E'. apply orb_false_iff in E' as [E1 E2]. apply Z.leb_gt in E1.
  eapply does_bind; [apply (does_call _ (QWait (pid t) false) (fun r a => a = (F ⊎ fds_of t, P ⊎ match reaped t r with Some _ => ∅ | None => procs_of t end))); [done|]|].
  - intros []; try done. cbn [book reaped]. destruct (got =? pid t); [|done]. unfold procs_of. rewrite E, drop_last. by rewrite (right_id ∅ (⊎)).
  - intros r a ->. apply does_ret. destruct r; try done. cbn [reaped]. destruct (got =? pid t); [|done].
    destruct st; cbn [fst]; unfold procs_of, fds_of; cbn [pid exited master]; by rewrite orb_true_r.
Qed.

Lemma try_reap_master t h : master ((try_reap t h).1).1 = master t.
Proof. unfold try_reap. destruct (_ || _); [done|]. unfold bind, call, ret. cbv zeta. unfold reaped. cbn [fst snd]. by repeat case_match; simplify_eq. Qed.

Lemma try_reap_pid t h : pid ((try_reap t h).1).1 = pid t.
Proof. unfold try_reap. destruct (_ || _); [done|]. unfold bind, call, ret. cbv zeta. unfold reaped. cbn [fst snd]. by repeat case_match; simplify_eq. Qed.

(** Told that it ended, it has. *)
Lemma try_reap_exited t h : ((try_reap t h).1).2 = true -> exited ((try_reap t h).1).1 = true.
Proof. unfold try_reap. destruct (_ || _); [done|]. unfold bind, call, ret. cbv zeta. unfold reaped. cbn [fst snd]. by repeat case_match; simplify_eq. Qed.

End Ledger.
