(* ===== verification/Terminal.v ===== *)
(** * The terminal application: [src/apps/terminal.hpp], [src/apps/terminal.cpp]

    Tabs, each with its pseudo-terminal, its parser, its page and its history of lines;
    a bar of tabs; a name or a directory being typed; pastes in pieces.  A handler takes
    the host and gives it back: the tests that run without a host are not modelled.  The
    sink of the parser is [emu_event] of Emulator, on the tab that is fed. *)

From S2P Require Import Prelude StdString Utf8 Width Cell Surface Input InputEncode VtParser VtModes Scrollback Screen Emulator Config Host Syscalls GuestEnv Pty.

Definition kBarRows : Z := 1.
Definition kMaxName : nat := 64.
Definition kMaxPath : nat := 512.
Definition kCross : bytes := [0xC3; 0x97].
Definition kGear : bytes := str "[*]".
Definition kGearCells : Z := 3.
Definition kDefaultScrollbackLines : nat := Z.to_nat 10000.
Definition EPOLLIN : Z := 1.

Inductive tmode := TNormal | TRenaming | TEditingPath.
#[export] Instance tmode_eq_dec : EqDecision tmode. Proof. solve_decision. Defined.

(** [guest_title] and the page are in [t_emu]; [e_out] is empty between two events of
    the parser. *)
Record tab := Tab {
  t_pty : pty;
  t_parser : parser;
  t_emu : emu;
  t_token : Z;
  t_watching : bool;
  t_pending : bytes;
  t_spawn_error : bytes;
  t_custom : bytes;
}.

Record terminal := Terminal {
  tabs : list tab;
  closing : list tab;
  active_ : nat;
  t_mode : tmode;
  pasting : bool;
  paste_bracketed : bool;
  edit_ : bytes;
  t_size : size;
  argv_ : list bytes;
  t_hist : Syscalls.history;
}.

Inductive slot_kind := SlotSelect | SlotClose | SlotNew | SlotSettings.
#[export] Instance slot_kind_eq_dec : EqDecision slot_kind. Proof. solve_decision. Defined.

Record slot := Slot { sl_x : Z; sl_w : Z; sl_tab : nat; sl_kind : slot_kind; sl_text : bytes }.

(** ** What goes to a guest *)

Definition encode_mouse_sgr (m : mouse_event) (x y : Z) : bytes :=
  let cb := match m_action m with MWheelUp => 64 | MWheelDown => 65 | MMotion => m_button m + 32 | _ => m_button m end in
  let cb := if negb (Z.land (m_mods m) Shift =? 0) then cb + 4 else cb in
  let cb := if negb (Z.land (m_mods m) Alt =? 0) then cb + 8 else cb in
  let cb := if negb (Z.land (m_mods m) Ctrl =? 0) then cb + 16 else cb in
  [27] ++ str "[<" ++ to_string cb ++ str ";" ++ to_string (x + 1) ++ str ";" ++ to_string (y + 1) ++
  (if bool_decide (m_action m = MRelease) then str "m" else str "M").

Definition paste_char (u : Z) : bool := negb (u =? 127) && ((32 <=? u) || (u =? 9) || (u =? 10) || (u =? 13)).
Definition clean_paste (text : bytes) : bytes := List.filter paste_char text.
Definition clean_paste_one_line (text : bytes) : bytes :=
  List.filter (fun c => negb ((c =? 10) || (c =? 13) || (c =? 9))) (clean_paste text).

Definition paste_open : bytes := 27 :: str "[200~".
Definition paste_close : bytes := 27 :: str "[201~".

(** ** The bar *)

Definition tab_new : tab := Tab pty_new parser_init (emu_new kDefaultScrollbackLines) 0 false [] [] [].

Definition terminal_new (argv : list bytes) (h : Syscalls.history) : terminal :=
  Terminal [tab_new] [] 0 TNormal false false [] (Size 80 24) argv h.

Definition tab_name (tb : tab) : bytes := if bool_decide (t_custom tb = []) then e_title (t_emu tb) else t_custom tb.

Definition active (t : terminal) : tab := default tab_new (tabs t !! active_ t).

Definition grid_w (t : terminal) : Z := Z.max 1 (w (t_size t)).
Definition grid_h (t : terminal) : Z := Z.max 1 (h (t_size t) - kBarRows).

Section Bar.
Context (amb : bool).
Implicit Type t : terminal.

Definition kEllipsis : bytes := [0xE2; 0x80; 0xA6].

(** The box of the tab [i], its name cut to [name_max] cells. *)
Definition tab_text (name_max : Z) (i : nat) (raw : bytes) : bytes :=
  let num := to_string (Z.of_nat i + 1) in
  let body := if bool_decide (raw = []) then num
              else num ++ str ":" ++ elide_to_cells amb raw (Z.max 1 (name_max - text_cells amb num - 1)) kEllipsis in
  [32] ++ body ++ [32].

(** The boxes of the tabs from [i] on, at [x], as long as they fit. *)
Fixpoint tab_slots (names : list bytes) (name_max avail : Z) (crosses : bool) (i : nat) (x : Z) : list slot :=
  match names with
  | [] => []
  | raw :: names =>
      let text := tab_text name_max i raw in
      let n := text_cells amb text in
      if avail <? x + (n + (if crosses then 1 else 0)) then []
      else
        Slot x n i SlotSelect text ::
        (if crosses then Slot (x + n) 1 i SlotClose kCross :: tab_slots names name_max avail crosses (S i) (x + n + 1)
         else tab_slots names name_max avail crosses (S i) (x + n))
  end.

(** What each box shows: the name being typed, for the tab that is renamed. *)
Definition shown_names t : list bytes :=
  imap (fun i tb => if bool_decide (t_mode t = TRenaming) && (i =? active_ t)%nat then edit_ t else tab_name tb) (tabs t).

Definition bar_slots t : list slot :=
  let bw := grid_w t in
  if bool_decide (t_mode t = TEditingPath) then [Slot 0 bw 0 SlotSettings (kGear ++ [32] ++ edit_ t)]
  else
    let n := zlen (tabs t) in
    let avail := Z.max 1 (bw - (kGearCells + 3)) in
    let crosses := 1 <? n in
    let per := Z.max 3 (avail / n) in
    let name_max := Z.max 1 (per - (if crosses then 3 else 2)) in
    tab_slots (shown_names t) name_max avail crosses 0 0 ++
    (if kGearCells + 1 <? bw then [Slot (bw - 1 - kGearCells) kGearCells 0 SlotSettings kGear] else []) ++
    [Slot (bw - 1) 1 0 SlotNew (str "+")].

Definition slot_at (x : Z) (l : list slot) : option slot := List.find (fun s => (sl_x s <=? x) && (x <? sl_x s + sl_w s)) l.

End Bar.

(** ** The operations *)

Section Terminal.
Context {A : Type} `{System} (amb : bool) (blocks : nat).
Implicit Types (t : terminal) (o : host A) (tb : tab).

(** A request to the system. *)
Definition ask {B} (m : io B) t : B * terminal := let '(b, l) := m (t_hist t) in (b, {| t with t_hist := l |}).

Definition put_tab t (i : nat) tb : terminal := {| t with tabs := <[i := tb]> (tabs t) |}.
Definition tab_at t (i : nat) : tab := default tab_new (tabs t !! i).

(** What touches the process of the tab [i]. *)
Definition on_pty {B} t (i : nat) (f : pty -> io (pty * B)) : B * terminal :=
  let tb := tab_at t i in
  let '((p, b), t) := ask (f (t_pty tb)) t in
  (b, put_tab t i {| tb with t_pty := p |}).

Definition retitle t o : host A :=
  let nm := tab_name (active t) in
  set_title o (if bool_decide (nm = []) then str "Terminal" else str "Terminal (" ++ nm ++ str ")").

(** Bytes for the guest of the tab [i], kept when it has no master. *)
Definition to_guest t (i : nat) (bs : bytes) : terminal :=
  if bool_decide (bs = []) then t
  else
    let tb := tab_at t i in
    if master (t_pty tb) <? 0 then put_tab t i {| tb with t_pending := t_pending tb ++ bs |}
    else snd (ask (write (t_pty tb) bs) t).

(** *** The bytes of a guest *)

(** One call of the parser of the tab [i] on the sink: its page, the answer it asked
    for, the title of the window when it is the tab looked at. *)
Definition sink (i : nat) (p : terminal * host A) (e : VtParser.event) : terminal * host A :=
  let '(t, o) := p in
  let tb := tab_at t i in
  let em := emu_event amb (t_emu tb) e in
  let t := put_tab t i {| tb with t_emu := Emu (e_screen em) (e_modes em) (e_title em) [] |} in
  let t := to_guest t i (e_out em) in
  match e with
  | EOsc d => match osc_title d with Some _ => (t, if (i =? active_ t)%nat then retitle t o else o) | None => (t, o) end
  | _ => (t, o)
  end.

Definition feed_tab t o (i : nat) (bs : bytes) : terminal * host A :=
  let tb := tab_at t i in
  let '(p, es) := feed (t_parser tb) bs in
  fold_left (sink i) es (put_tab t i {| tb with t_parser := p |}, o).

(** The loop of reads, at most [fuel] of them; whether the guest has closed. *)
Fixpoint drain (fuel : nat) t o (i : nat) : (terminal * host A) * bool :=
  match fuel with
  | O => ((t, o), false)
  | S fuel =>
      let '(r, t) := ask (read (t_pty (tab_at t i)) 8192) t in
      match r with
      | Some (b :: bs) => let '(t, o) := feed_tab t o i (b :: bs) in drain fuel t o i
      | Some [] => let tb := tab_at t i in ((put_tab t i {| tb with t_pty := note_eof (t_pty tb) |}, o), true)
      | None => ((t, o), false)
      end
  end.

Fixpoint index_of_token (token : Z) (l : list tab) (i : nat) : option nat :=
  match l with
  | [] => None
  | tb :: l => if t_watching tb && (t_token tb =? token) then Some i else index_of_token token l (S i)
  end.

Definition on_io (token events : Z) t o : (terminal * host A) * io_status :=
  match index_of_token token (tabs t) 0 with
  | None => ((t, o), IoOk)
  | Some i => let '((t, o), closed) := drain blocks t o i in ((t, invalidate o), if closed then IoClosed else IoOk)
  end.

(** *** Tabs *)

Definition launch_of t o : launch :=
  let l := match argv_ t with [] => [login_shell; str "-l"] | l => l end in
  Launch (match l with p :: _ => p | [] => [] end) l (child_env daemon_env []) (host_start_dir o) (to_u16 (grid_w t)) (to_u16 (grid_h t)).

Definition open_tab_into t o (i : nat) : (terminal * host A) * bool :=
  let '(why, t) := on_pty t i (spawn (launch_of t o)) in
  let tb := tab_at t i in
  let t := put_tab t i {| tb with t_spawn_error := why |} in
  if negb (bool_decide (why = [])) then ((t, o), false)
  else
    let tb := tab_at t i in
    let '(o, key) := watch o (master (t_pty tb)) EPOLLIN in
    ((put_tab t i {| tb with t_token := key; t_watching := true |}, watch_child o (pid (t_pty tb))), true).

(** One tab at the size of the window. *)
Definition fit_tab (i : nat) t : terminal :=
  let tb := tab_at t i in
  let t := put_tab t i {| tb with t_emu := on_screen (t_emu tb) (fun s => Screen.resize s (grid_w t) (grid_h t)) |} in
  snd (ask (Pty.resize (t_pty tb) (to_u16 (grid_w t)) (to_u16 (grid_h t))) t).

Definition relayout t : terminal := fold_left (fun t i => fit_tab i t) (seq 0 (length (tabs t))) t.

Definition attach t o : terminal * host A :=
  let '((t, o), _) := open_tab_into t o (active_ t) in
  let t := relayout t in
  (t, retitle t o).

Definition open_tab t o : terminal * host A :=
  let i := length (tabs t) in
  let t := {| t with tabs := tabs t ++ [tab_new] |} in
  let '((t, o), ok) := open_tab_into t o i in
  if negb ok then ({| t with tabs := take i (tabs t) |}, o)
  else
    let t := relayout t in
    let t := {| t with active_ := i |} in
    (t, invalidate (retitle t o)).

Definition select_tab t o (i : nat) : terminal * host A :=
  if (length (tabs t) <=? i)%nat then (t, o)
  else let t := {| t with active_ := i |} in (t, invalidate (retitle t o)).

Definition cycle_tab t o (d : Z) : terminal * host A :=
  let n := zlen (tabs t) in
  select_tab t o (Z.to_nat (Z.rem (Z.rem (Z.of_nat (active_ t) + d) n + n) n)).

(** The end of a tab taken out of the list: its process told, its remains kept until
    they are reaped. *)
Definition bury tb t : terminal :=
  let '(p, t) := ask (shutdown (t_pty tb)) t in
  let '((p, got), t) := if 0 <? pid p then ask (try_reap p) t else ((p, true), t) in
  if (0 <? pid p) && negb got then {| t with closing := closing t ++ [{| tb with t_pty := p; t_watching := false |}] |} else t.

Definition close_tab t o (i : nat) : terminal * host A :=
  match tabs t !! i with
  | None => (t, o)
  | Some dying =>
      if (length (tabs t) =? 1)%nat then (t, request_close o)
      else
        let t := {| t with tabs := delete i (tabs t) |} in
        let n := length (tabs t) in
        let t := {| t with active_ := if (n <=? active_ t)%nat then (n - 1)%nat else active_ t |} in
        let o := if t_watching dying then unwatch o (t_token dying) else o in
        let t := bury dying t in
        (t, invalidate (retitle t o))
  end.

(** *** What is typed in the bar *)

Definition begin_rename t o : terminal * host A :=
  ({| t with t_mode := TRenaming; edit_ := t_custom (active t) |}, invalidate o).

Definition commit_rename t o : terminal * host A :=
  if negb (bool_decide (t_mode t = TRenaming)) then (t, o)
  else
    let tb := active t in
    let t := put_tab t (active_ t) {| tb with t_custom := edit_ t |} in
    let t := {| t with t_mode := TNormal; edit_ := [] |} in
    (t, invalidate (retitle t o)).

Definition begin_path_edit t o : terminal * host A :=
  ({| t with t_mode := TEditingPath; edit_ := configured_start_dir o |}, invalidate o).

Definition commit_path_edit t o : terminal * host A :=
  if negb (bool_decide (t_mode t = TEditingPath)) then (t, o)
  else ({| t with t_mode := TNormal; edit_ := [] |}, invalidate (host_set_start_dir o (edit_ t))).

(** The last character taken away, its bytes from the end. *)
Definition rub_char (s : bytes) : bytes :=
  let fix drop_tail (r : bytes) := match r with [] => [] | b :: r => if Z.land b 0xC0 =? 0x80 then drop_tail r else r end in
  rev (drop_tail (rev s)).

(** A key of a field: [limit] is on what it held before the character. *)
Definition field_key (k : key_event) (limit : nat) (commit : terminal -> host A -> terminal * host A) t o : terminal * host A :=
  let '(t, o) :=
    match ke_key k with
    | KEnter => commit t o
    | KEscape => ({| t with t_mode := TNormal; edit_ := [] |}, o)
    | KBackspace => ({| t with edit_ := rub_char (edit_ t) |}, o)
    | KChar => (if (length (edit_ t) <? limit)%nat then {| t with edit_ := edit_ t ++ encode_utf8 (ke_ch k) |} else t, o)
    | _ => (t, o)
    end in
  (t, invalidate o).

Definition path_key k t o : terminal * host A := field_key k kMaxPath commit_path_edit t o.
Definition rename_key k t o : terminal * host A := field_key k kMaxName commit_rename t o.

(** *** The events of the window *)

Definition reap_tab (i : nat) t : terminal := snd (on_pty t i try_reap).

(** The buried tabs whose process has ended are forgotten. *)
Fixpoint reap_closing (l : list tab) t : list tab * terminal :=
  match l with
  | [] => ([], t)
  | tb :: l =>
      let '((p, _), t) := ask (try_reap (t_pty tb)) t in
      let '(l, t) := reap_closing l t in
      (if exited p then l else {| tb with t_pty := p |} :: l, t)
  end.

Definition on_child_exit (status : Z) t o : terminal * host A :=
  let t := fold_left (fun t i => reap_tab i t) (seq 0 (length (tabs t))) t in
  let '(l, t) := reap_closing (closing t) t in
  ({| t with closing := l |}, invalidate o).

Definition on_resize (s : size) t o : terminal * host A :=
  if (w s <=? 0) || (h s <=? 0) then (t, o) else (relayout {| t with t_size := s |}, o).

(** The history of a tab. *)
Definition lines_of tb : scrollback := default (scrollback_new 0) (sb (e_screen (t_emu tb))).
Definition on_history t (f : scrollback -> scrollback) : terminal :=
  let tb := active t in
  put_tab t (active_ t) {| tb with t_emu := on_screen (t_emu tb) (fun s => with_sb s (f <$> sb s)) |}.

(** The gestures of the tabs. *)
Definition tab_key (k : key_event) t o : option (terminal * host A) :=
  if negb (Z.land (ke_mods k) Alt =? 0) && bool_decide (ke_key k = KChar) && (ke_ch k =? 116) then Some (open_tab t o)
  else if negb (Z.land (ke_mods k) Alt =? 0) && bool_decide (ke_key k = KChar) && (ke_ch k =? 119) then Some (close_tab t o (active_ t))
  else if negb (Z.land (ke_mods k) Alt =? 0) && bool_decide (ke_key k = KLeft) then Some (cycle_tab t o (-1))
  else if negb (Z.land (ke_mods k) Alt =? 0) && bool_decide (ke_key k = KRight) then Some (cycle_tab t o 1)
  else if bool_decide (ke_key k = KF2) then Some (begin_rename t o)
  else None.

Definition history_key (k : key_event) t : option terminal :=
  if negb (Z.land (ke_mods k) Shift =? 0) && negb (alt (e_screen (t_emu (active t)))) then
    let n := Z.to_nat (Z.max 1 (h (t_size t) / 2)) in
    match ke_key k with
    | KPgUp => Some (on_history t (fun s => scroll_back s n))
    | KPgDn => Some (on_history t (fun s => scroll_forward s n))
    | _ => None
    end
  else None.

Definition on_key (k : key_event) t o : terminal * host A :=
  match t_mode t with
  | TRenaming => rename_key k t o
  | TEditingPath => path_key k t o
  | TNormal =>
      match tab_key k t o with
      | Some to => to
      | None =>
          if exited (t_pty (active t)) then (t, if bool_decide (ke_key k = KEnter) then request_close o else o)
          else
            match history_key k t with
            | Some t => (t, invalidate o)
            | None =>
                let bs := encode_key k (cursor_keys_application (e_modes (t_emu (active t)))) in
                if bool_decide (bs = []) then (t, o) else (to_guest (on_history t scroll_to_bottom) (active_ t) bs, o)
            end
      end
  end.

Definition bar_click (x : Z) t o : terminal * host A :=
  match slot_at x (bar_slots amb t) with
  | None => (t, o)
  | Some s =>
      match sl_kind s with
      | SlotNew => open_tab t o
      | SlotSettings => begin_path_edit t o
      | SlotClose => close_tab t o (sl_tab s)
      | SlotSelect => if (sl_tab s =? active_ t)%nat then begin_rename t o else select_tab t o (sl_tab s)
      end
  end.

(** A pointer event on the page. *)
Definition page_mouse (m : mouse_event) t o : terminal * host A :=
  let em := t_emu (active t) in
  match m_action m, tracking (e_modes em), alt (e_screen em) with
  | MWheelUp, TrackNone, false => (on_history t (fun s => scroll_back s 3), invalidate o)
  | MWheelDown, TrackNone, false => (on_history t (fun s => scroll_forward s 3), invalidate o)
  | _, TrackNone, _ => (t, o)
  | MMotion, TrackClick, _ => (t, o)
  | _, _, _ => (to_guest t (active_ t) (encode_mouse_sgr m (m_x m) (m_y m - kBarRows)), o)
  end.

Definition on_mouse (m : mouse_event) t o : terminal * host A :=
  let press := bool_decide (m_action m = MPress) in
  let '(t, o) := if press then let '(t, o) := commit_rename t o in commit_path_edit t o else (t, o) in
  if m_y m <? kBarRows then if press then bar_click (m_x m) t o else (t, o)
  else if exited (t_pty (active t)) then (t, if press then request_close o else o)
  else page_mouse m t o.

(** The bracket before the first piece: whether there is one is decided here. *)
Definition open_paste t : terminal :=
  if pasting t then t
  else
    let t := {| t with paste_bracketed := bracketed_paste (e_modes (t_emu (active t))) |} in
    if paste_bracketed t then to_guest t (active_ t) paste_open else t.

Definition close_paste t : terminal := if paste_bracketed t then to_guest t (active_ t) paste_close else t.

(** A piece for the guest looked at. *)
Definition paste_piece (text : bytes) (complete : bool) t : terminal :=
  let t := open_paste (on_history t scroll_to_bottom) in
  let t := {| t with pasting := negb complete |} in
  let t := to_guest t (active_ t) (clean_paste text) in
  if complete then close_paste t else t.

(** A piece of a paste; [complete] on the last. *)
Definition on_paste (text : bytes) (complete : bool) t o : terminal * host A :=
  let field limit :=
    ({| t with edit_ := if (length (edit_ t) <? limit)%nat
                        then edit_ t ++ take (limit - length (edit_ t)) (clean_paste_one_line text) else edit_ t |}, invalidate o) in
  match t_mode t with
  | TRenaming => field kMaxName
  | TEditingPath => field kMaxPath
  | TNormal =>
      if exited (t_pty (active t)) then (t, o)
      else (paste_piece text complete t, o)
  end.

(** *** What is shown *)

Definition wants_cursor t : option pos :=
  match t_mode t with
  | TRenaming =>
      (fun s => Pos (sl_x s + sl_w s - 1) 0) <$>
      List.find (fun s => bool_decide (sl_kind s = SlotSelect) && (sl_tab s =? active_ t)%nat) (bar_slots amb t)
  | TEditingPath => Some (Pos (Z.min (kGearCells + 1 + text_cells amb (edit_ t)) (Z.max 0 (w (t_size t) - 1))) 0)
  | TNormal =>
      let tb := active t in
      if negb (cursor_visible (e_modes (t_emu tb))) || exited (t_pty tb) then None
      else if negb (offset (lines_of tb) =? 0)%nat then None
      else Some (Pos (cx (e_screen (t_emu tb))) (cy (e_screen (t_emu tb)) + kBarRows))
  end.

Definition can_close t : close_check :=
  if existsb (fun tb => negb (exited (t_pty tb)) && (0 <? pid (t_pty tb))) (tabs t)
  then Host.ask (str "Un processus tourne encore. Fermer quand meme ?") else allow.

Definition draw_slot t (s : slot) : list draw_op :=
  let fill st := [DrawFill (Rect (sl_x s) 0 (sl_w s) kBarRows) st] in
  let text st := [DrawText (sl_x s) 0 (sl_text s) st] in
  match sl_kind s with
  | SlotNew => text (Style (CIndexed 2) CDefault Bold)
  | SlotClose => text (Style (CIndexed 1) CDefault 0)
  | SlotSettings =>
      if bool_decide (t_mode t = TEditingPath) then let st := Style CDefault CDefault Reverse in fill st ++ text st
      else text style_default
  | SlotSelect =>
      if (sl_tab s =? active_ t)%nat then
        let st := Style CDefault CDefault (if bool_decide (t_mode t = TRenaming) then Z.lor Reverse Underline else Reverse) in
        fill st ++ text st
      else text (Style CDefault CDefault Dim)
  end.

Definition draw_bar t : list draw_op := mjoin (draw_slot t <$> bar_slots amb t).

(** The cells of a line, from the left, but the second halves of the wide ones. *)
Definition draw_row (y : Z) (l : line) : list draw_op :=
  omap (fun p : nat * screen_cell =>
          let '(x, c) := p in if sc_width c =? 0 then None else Some (DrawPut (Z.of_nat x) y (sc_ch c) (sc_style c)))
       (imap pair l).

(** The line shown [y] rows under the bar: the history looked at, then the page. *)
Definition shown_row tb (vw : Z) (y : nat) : option line :=
  let sc := e_screen (t_emu tb) in
  let back := offset (lines_of tb) in
  if (y <? back)%nat then Some (take (Z.to_nat vw) (sb_at (lines_of tb) (sb_size (lines_of tb) - back + y)))
  else
    let gy := Z.of_nat y - Z.of_nat back in
    if rows sc <=? gy then None else Some (take (Z.to_nat vw) (row_cells sc gy)).

Definition draw_page tb (v : size) : list draw_op :=
  mjoin ((fun y => match shown_row tb (w v) y with Some l => draw_row (kBarRows + Z.of_nat y) l | None => [] end) <$>
         seq 0 (Z.to_nat (h v - kBarRows))).

Definition end_message (p : pty) : bytes :=
  str "[processus " ++
  (if signalled p then str "tue par le signal " ++ to_string (code p) else str "termine (code " ++ to_string (code p) ++ str ")") ++
  str " - Entree ou clic pour fermer]".

Definition render (v : size) t : list draw_op :=
  let tb := active t in
  draw_bar t ++
  if negb (bool_decide (t_spawn_error tb = [])) then [DrawText 0 kBarRows (t_spawn_error tb) (Style (CIndexed 1) CDefault 0)]
  else
    draw_page tb v ++
    (if exited (t_pty tb) then [DrawText 0 (h v - 1) (end_message (t_pty tb)) (Style CDefault CDefault Reverse)] else []).

End Terminal.
