(* ===== verification/TerminalProps.v ===== *)
(** * What the terminal keeps: its tabs, its pages, its processes

    For any keys, clicks, pastes, sizes, outputs of the guests and ends of processes, and
    any answers of the system. *)

From stdpp Require Import gmultiset.
From S2P Require Import Prelude StdString Utf8 Width Cell Surface Input InputEncode VtParser VtModes Scrollback Screen Emulator Config Host Syscalls GuestEnv Pty PtyLedger Terminal.

Section Props.
Context {A : Type} `{System} (amb : bool) (blocks : nat).
Implicit Types (t : terminal) (o : host A) (tb : tab).

(** What the desktop gives a terminal, once attached. *)
Inductive input :=
  | IKey (k : key_event) | IMouse (m : mouse_event) | IPaste (text : bytes) (complete : bool) | IResize (s : size)
  | IChild (status : Z) | IIo (token events : Z).

Definition take_input (p : terminal * host A) (i : input) : terminal * host A :=
  let '(t, o) := p in
  match i with
  | IKey k => on_key k t o
  | IMouse m => on_mouse amb m t o
  | IPaste text complete => on_paste text complete t o
  | IResize s => on_resize s t o
  | IChild st => on_child_exit st t o
  | IIo token ev => fst (on_io amb blocks token ev t o)
  end.

Definition run (p : terminal * host A) (l : list input) : terminal * host A := fold_left take_input l p.

(** ** The invariant *)

Definition page_sound tb : Prop := flags_ok (t_emu tb) /\ geometry_ok (e_screen (t_emu tb)).

Definition page_fits (cw ch : Z) tb : Prop := page_sound tb /\ cols (e_screen (t_emu tb)) = cw /\ rows (e_screen (t_emu tb)) = ch.

Definition kNameRoom : nat := 67.

(** The accounts of a list of tabs. *)
Definition held (l : list tab) : accounts :=
  (List.fold_right (fun tb F => fds_of (t_pty tb) ⊎ F) ∅ l, List.fold_right (fun tb P => procs_of (t_pty tb) ⊎ P) ∅ l).

(** A buried tab has closed its descriptor. *)
Definition buried tb : Prop := master (t_pty tb) < 0.

(** What holds in the middle of an operation too. *)
Record core t : Prop := Core {
  core_pages : Forall page_sound (tabs t);
  core_names : Forall (fun tb => length (t_custom tb) <= kNameRoom)%nat (tabs t);
  core_edit : t_mode t = TRenaming -> (length (edit_ t) <= kNameRoom)%nat;
  core_buried : Forall buried (closing t);
  core_ledger : ledger (t_hist t) = held (tabs t ++ closing t);
  core_aimed : aimed (t_hist t);
}.

Record good t : Prop := Good {
  good_core : core t;
  good_active : (active_ t < length (tabs t))%nat;
  good_fit : Forall (page_fits (grid_w t) (grid_h t)) (tabs t);
}.

(** ** One tab among the others *)

Lemma held_app l1 l2 : held (l1 ++ l2) = ((held l1).1 ⊎ (held l2).1, (held l1).2 ⊎ (held l2).2).
Proof. unfold held. induction l1 as [|tb l1 IH]; cbn [app List.fold_right fst snd]; [f_equal; multiset_solver|]. injection IH as -> ->. f_equal; multiset_solver. Qed.

Lemma held_cons tb l : held (tb :: l) = (fds_of (t_pty tb) ⊎ (held l).1, procs_of (t_pty tb) ⊎ (held l).2).
Proof. done. Qed.

Lemma held_middle l1 tb l2 :
  held (l1 ++ tb :: l2) = ((held (l1 ++ l2)).1 ⊎ fds_of (t_pty tb), (held (l1 ++ l2)).2 ⊎ procs_of (t_pty tb)).
Proof. rewrite !held_app, held_cons. cbn [fst snd]. f_equal; multiset_solver. Qed.

Lemma tab_at_lookup t i : (i < length (tabs t))%nat -> tabs t !! i = Some (tab_at t i).
Proof. intros Hi. unfold tab_at. destruct (lookup_lt_is_Some_2 _ _ Hi) as [tb ->]. done. Qed.

Lemma active_at t : active t = tab_at t (active_ t).
Proof. done. Qed.

Lemma held_tab l i tb : l !! i = Some tb ->
  held l = ((held (delete i l)).1 ⊎ fds_of (t_pty tb), (held (delete i l)).2 ⊎ procs_of (t_pty tb)).
Proof. intros E. rewrite <- (take_drop_middle _ _ _ E) at 1. rewrite held_middle, delete_take_drop. done. Qed.

Lemma held_put l i tb tb' : l !! i = Some tb ->
  held (<[i := tb']> l) = ((held (delete i l)).1 ⊎ fds_of (t_pty tb'), (held (delete i l)).2 ⊎ procs_of (t_pty tb')).
Proof.
  intros E. rewrite insert_take_drop by by apply lookup_lt_Some in E. by rewrite held_middle, delete_take_drop.
Qed.

(** ** What is asked of the system *)

(** [m] makes requests of [W] only. *)
Definition asks (W : request -> Prop) {B} (m : io B) : Prop := forall h, exists ext, (m h).2 = h ++ ext /\ Forall (fun ev => W (ev_q ev)) ext.

Lemma asks_ret W {B} (b : B) : asks W (ret b).
Proof. intros h. exists []. by rewrite app_nil_r. Qed.

Lemma asks_call W q : W q -> asks W (call q).
Proof. intros Hq h. exists [Event q (answer h q)]. split; [done|by repeat constructor]. Qed.

Lemma asks_bind W {B C} (m : io B) (f : B -> io C) : asks W m -> (forall b, asks W (f b)) -> asks W (bind m f).
Proof.
  intros Hm Hf h. destruct (Hm h) as (e1 & E1 & W1). unfold bind. destruct (m h) as [b h1]. cbn in E1. subst h1.
  destruct (Hf b (h ++ e1)) as (e2 & E2 & W2). exists (e1 ++ e2). rewrite E2, app_assoc. split; [done|by apply Forall_app].
Qed.

Lemma asks_read (W : request -> Prop) p n : W (QRead (master p) n) -> asks W (read p n).
Proof.
  intros Hw. unfold read, sys_read. destruct (master p <? 0); [apply asks_ret|].
  apply asks_bind; [|intros ?; apply asks_ret]. apply asks_bind; [by apply asks_call|intros ?; apply asks_ret].
Qed.

Lemma asks_write (W : request -> Prop) p bs : W (QWrite (master p) bs) -> asks W (write p bs).
Proof.
  intros Hw. unfold write. destruct (master p <? 0); [apply asks_ret|]. apply asks_bind; [by apply asks_call|intros ?; apply asks_ret].
Qed.

(** What the history tells of a process, before and after. *)
Definition paid (l l' : history) (p p' : pty) : Prop :=
  forall F P, ledger l = (F ⊎ fds_of p, P ⊎ procs_of p) -> aimed l -> ledger l' = (F ⊎ fds_of p', P ⊎ procs_of p') /\ aimed l'.

Lemma paid_same l p p' : master p' = master p -> pid p' = pid p -> exited p' = exited p -> paid l l p p'.
Proof. intros Hm Hp He F P. unfold fds_of, procs_of. by rewrite Hm, Hp, He. Qed.

Lemma paid_trans l1 l2 l3 p1 p2 p3 : paid l1 l2 p1 p2 -> paid l2 l3 p2 p3 -> paid l1 l3 p1 p3.
Proof. intros H1 H2 F P Hl Ha. destruct (H1 F P Hl Ha). by apply H2. Qed.

Lemma paid_keeps {B} p (m : io B) (after : B -> pty) l : keeps_step p m after -> paid l (m l).2 p (after (m l).1).
Proof. intros Hm F P Hl Ha. by apply (Hm F P). Qed.

(** ** An operation on one tab *)

Definition fields t := (closing t, active_ t, t_mode t, pasting t, paste_bracketed t, edit_ t, t_size t, argv_ t).

Definition same_tab tb tb' : Prop :=
  (page_sound tb -> page_sound tb') /\ same_size (e_screen (t_emu tb)) (e_screen (t_emu tb')) /\ t_custom tb' = t_custom tb /\
  master (t_pty tb') = master (t_pty tb) /\ exited (t_pty tb') = exited (t_pty tb).

Record touches (W : request -> Prop) (i : nat) t t' : Prop := Touches {
  to_len : length (tabs t') = length (tabs t);
  to_others j : j <> i -> tabs t' !! j = tabs t !! j;
  to_fields : fields t' = fields t;
  to_tab : same_tab (tab_at t i) (tab_at t' i);
  to_paid : paid (t_hist t) (t_hist t') (t_pty (tab_at t i)) (t_pty (tab_at t' i));
  to_said : exists ext, t_hist t' = t_hist t ++ ext /\ Forall (fun ev => W (ev_q ev)) ext;
}.

Lemma same_tab_refl tb : same_tab tb tb.
Proof. done. Qed.

Lemma same_tab_trans a b c : same_tab a b -> same_tab b c -> same_tab a c.
Proof. intros (H1 & [H2 H3] & H4 & H5 & H6) (K1 & [K2 K3] & K4 & K5 & K6). split_and!; try congruence; [by auto|split; congruence]. Qed.

#[global] Instance touches_preorder W i : PreOrder (touches W i).
Proof.
  split.
  - intros t. split; try apply same_tab_refl; try (by apply paid_same); try done. exists []. by rewrite app_nil_r.
  - intros t1 t2 t3 [L1 O1 F1 T1 P1 (e1 & E1 & S1)] [L2 O2 F2 T2 P2 (e2 & E2 & S2)]. split; try congruence.
    + intros j Hj. by rewrite O2, O1. + by eapply same_tab_trans. + by eapply paid_trans.
    + exists (e1 ++ e2). rewrite E2, E1, app_assoc. split; [done|by apply Forall_app].
Qed.

Lemma tab_at_put t i tb : (i < length (tabs t))%nat -> tab_at (put_tab t i tb) i = tb.
Proof. intros Hi. unfold tab_at, put_tab. cbn [tabs]. by rewrite list_lookup_insert_eq. Qed.

Lemma touches_put W i t tb : (i < length (tabs t))%nat -> same_tab (tab_at t i) tb ->
  pid (t_pty tb) = pid (t_pty (tab_at t i)) -> touches W i t (put_tab t i tb).
Proof.
  intros Hi Hs Hp. split; rewrite ?tab_at_put by done; try done.
  - cbn. by rewrite length_insert.
  - intros j Hj. cbn. by rewrite list_lookup_insert_ne.
  - apply paid_same; [apply Hs|done|apply Hs].
  - exists []. by rewrite app_nil_r.
Qed.

Lemma ask_snd {B} (m : io B) t : (ask m t).2 = {| t with t_hist := (m (t_hist t)).2 |}.
Proof. unfold ask. by destruct (m (t_hist t)). Qed.

Lemma touches_ask W {B} i t (m : io B) : asks W m -> keeps_step (t_pty (tab_at t i)) m (fun _ => t_pty (tab_at t i)) ->
  touches W i t (ask m t).2.
Proof.
  intros Hw Hk. rewrite ask_snd. split; try done; [by apply (paid_keeps _ m (fun _ => t_pty (tab_at t i)))|by apply Hw].
Qed.

Lemma core_put t t' i tb' : (i < length (tabs t))%nat -> tabs t' = <[i := tb']> (tabs t) ->
  closing t' = closing t -> (t_mode t' = TRenaming -> (length (edit_ t') <= kNameRoom)%nat) ->
  page_sound tb' -> (length (t_custom tb') <= kNameRoom)%nat -> paid (t_hist t) (t_hist t') (t_pty (tab_at t i)) (t_pty tb') ->
  core t -> core t'.
Proof.
  intros Hi E F1 F3 Hp Hn HP [C1 C2 C3 C4 C5 C6]. pose proof (tab_at_lookup t i Hi) as Et.
  assert (ledger (t_hist t') = held (tabs t' ++ closing t') /\ aimed (t_hist t')) as [C5' C6'].
  { rewrite F1, E. rewrite held_app, (held_put _ _ _ _ Et). rewrite held_app, (held_tab _ _ _ Et) in C5. cbn [fst snd] in *.
    destruct (HP ((held (delete i (tabs t))).1 ⊎ (held (closing t)).1) ((held (delete i (tabs t))).2 ⊎ (held (closing t)).2)) as [-> ?]; [|done|].
    - rewrite C5. f_equal; multiset_solver.
    - split; [|done]. f_equal; multiset_solver. }
  split; rewrite ?E, ?F1; try done; try by apply Forall_insert. by rewrite E, F1 in C5'.
Qed.

Lemma good_put t t' i tb' : (i < length (tabs t))%nat -> tabs t' = <[i := tb']> (tabs t) ->
  closing t' = closing t -> active_ t' = active_ t -> t_size t' = t_size t -> (t_mode t' = TRenaming -> (length (edit_ t') <= kNameRoom)%nat) ->
  (page_sound (tab_at t i) -> page_sound tb') -> same_size (e_screen (t_emu (tab_at t i))) (e_screen (t_emu tb')) ->
  (length (t_custom tb') <= kNameRoom)%nat -> paid (t_hist t) (t_hist t') (t_pty (tab_at t i)) (t_pty tb') ->
  good t -> good t'.
Proof.
  intros Hi E F1 F2 F7 F3 Hp [S1 S2] Hn HP [Hc Ha Hf]. pose proof (tab_at_lookup t i Hi) as Et.
  destruct (proj1 (Forall_lookup _ _) Hf i _ Et) as (K1 & K2 & K3).
  split; [by apply (core_put t t' i tb'); auto|by rewrite F2, E, length_insert|].
  unfold grid_w, grid_h in *. rewrite F7, E. apply Forall_insert; [done|]. split_and!; [by auto|congruence|congruence].
Qed.

Lemma good_touch W i t t' : (i < length (tabs t))%nat -> touches W i t t' -> good t -> good t'.
Proof.
  intros Hi [HL HO HF (HT1 & HT2 & HT3 & _) HP _] Hg. unfold fields in HF. injection HF as F1 F2 F3 F4 F5 F6 F7 F8.
  pose proof (tab_at_lookup t i Hi) as Et. pose proof (tab_at_lookup t' i ltac:(congruence)) as Et'.
  apply (good_put t t' i (tab_at t' i)); try done.
  - apply list_eq. intros j. destruct (decide (j = i)) as [->|Hj]; [by rewrite list_lookup_insert_eq|]. rewrite list_lookup_insert_ne by done. by apply HO.
  - rewrite F3, F6. apply Hg.
  - rewrite HT3. apply (proj1 (Forall_lookup _ _) (core_names _ (good_core _ Hg)) i _ Et).
Qed.

(** ** The bytes of a guest *)

(** The traffic of one descriptor. *)
Definition traffic (fd : Z) (q : request) : Prop := match q with QRead x _ | QWrite x _ => x = fd | _ => False end.

Definition fd_of t (i : nat) : Z := master (t_pty (tab_at t i)).

Lemma touches_fd W i t t' : touches W i t t' -> fd_of t' i = fd_of t i.
Proof. intros Ht. apply (to_tab _ _ _ _ Ht). Qed.

Lemma to_guest_touches (W : request -> Prop) t i bs : (i < length (tabs t))%nat -> (bs <> [] -> W (QWrite (fd_of t i) bs)) ->
  touches W i t (to_guest t i bs).
Proof.
  intros Hi Hw. unfold to_guest. case_bool_decide as Hb; [done|]. destruct (master _ <? 0); [by apply touches_put|].
  apply touches_ask; [apply asks_write; by apply Hw|apply write_keeps].
Qed.

Lemma page_sound_event tb e : page_sound tb ->
  page_sound {| tb with t_emu := Emu (e_screen (emu_event amb (t_emu tb) e)) (e_modes (emu_event amb (t_emu tb) e)) (e_title (emu_event amb (t_emu tb) e)) [] |}.
Proof. intros Hp. destruct (event_keeps amb (t_emu tb) e Hp) as [Hf Hg]. by split. Qed.

Lemma sink_touches t o i e : (i < length (tabs t))%nat -> touches (traffic (fd_of t i)) i t (sink amb i (t, o) e).1.
Proof.
  intros Hi. unfold sink. set (t1 := put_tab t i _). set (out := e_out _).
  assert (touches (traffic (fd_of t i)) i t t1) as H1.
  { apply touches_put; try done. split_and!; try done; [|apply event_size]. apply page_sound_event. }
  assert (touches (traffic (fd_of t i)) i t (to_guest t1 i out)) as H2.
  { etrans; [exact H1|]. apply to_guest_touches; [by rewrite (to_len _ _ _ _ H1)|]. intros _. cbn. by eapply touches_fd. }
  repeat case_match; exact H2.
Qed.

Lemma to_guest_active t i bs : active_ (to_guest t i bs) = active_ t.
Proof. unfold to_guest. case_bool_decide; [done|]. case_match; [done|]. by rewrite ask_snd. Qed.

(** The window hears of the tab looked at only. *)
Lemma sink_host t o i e : i <> active_ t -> (sink amb i (t, o) e).2 = o.
Proof.
  intros Hi. unfold sink. assert (forall tb bs, ((i =? active_ (to_guest (put_tab t i tb) i bs))%nat = false)) as E.
  { intros tb bs. rewrite to_guest_active. by apply Nat.eqb_neq. }
  repeat case_match; try done; exfalso; by rewrite E in *.
Qed.

(** A part of an operation on the tab [i], with the host. *)
Definition part (i : nat) (p p' : terminal * host A) : Prop :=
  touches (traffic (fd_of p.1 i)) i p.1 p'.1 /\ (i <> active_ p.1 -> p'.2 = p.2).

#[global] Instance part_preorder i : PreOrder (part i).
Proof.
  split; [by split|]. intros a b c [T1 H1] [T2 H2]. rewrite (touches_fd _ _ _ _ T1) in T2. split; [by etrans|].
  intros Hi. pose proof (to_fields _ _ _ _ T1) as F. unfold fields in F. injection F as _ F2 _. rewrite H2, H1; [done|done|congruence].
Qed.

Lemma part_len i p p' : part i p p' -> length (tabs p'.1) = length (tabs p.1).
Proof. intros [T _]. apply (to_len _ _ _ _ T). Qed.

Lemma sinks_part es : forall p i, (i < length (tabs p.1))%nat -> part i p (fold_left (sink amb i) es p).
Proof.
  induction es as [|e es IH]; intros [t o] i Hi; [done|]. cbn [fold_left].
  assert (part i (t, o) (sink amb i (t, o) e)) as H1 by (split; [by apply sink_touches|apply sink_host]).
  etrans; [exact H1|]. apply IH. by rewrite (part_len _ _ _ H1).
Qed.

Lemma feed_part t o i bs : (i < length (tabs t))%nat -> part i (t, o) (feed_tab amb t o i bs).
Proof.
  intros Hi. unfold feed_tab. destruct (feed _ bs) as [p es].
  assert (part i (t, o) (put_tab t i (let tb := tab_at t i in {| tb with t_parser := p |}), o)) as H1 by (split; [by apply touches_put|done]).
  etrans; [exact H1|]. apply sinks_part. cbn. by rewrite length_insert.
Qed.

Lemma drain_part fuel : forall t o i, (i < length (tabs t))%nat -> part i (t, o) (drain amb fuel t o i).1.
Proof.
  induction fuel as [|fuel IH]; intros t o i Hi; [done|]. cbn [drain]. destruct (ask _ t) as [r t1] eqn:Er.
  assert (part i (t, o) (t1, o)) as H1.
  { split; [|done]. cbn [fst]. replace t1 with (ask (read (t_pty (tab_at t i)) 8192) t).2 by by rewrite Er.
    apply touches_ask; [by apply asks_read|apply read_keeps]. }
  assert (i < length (tabs t1))%nat as Hi1 by (pose proof (part_len _ _ _ H1) as L; cbn in L; lia).
  destruct r as [[|b bs]|]; [| |done].
  - etrans; [exact H1|]. split; [by apply touches_put|done].
  - pose proof (feed_part t1 o i (b :: bs) Hi1) as H2. destruct (feed_tab amb t1 o i (b :: bs)) as [t2 o2].
    etrans; [exact H1|]. etrans; [exact H2|]. apply IH. pose proof (part_len _ _ _ H2) as L. cbn in L. lia.
Qed.

Lemma index_of_token_bound token l : forall i j, index_of_token token l i = Some j -> (i <= j < i + length l)%nat.
Proof.
  induction l as [|tb l IH]; intros i j E; [done|]. cbn in *. case_match; [injection E as <-; lia|]. apply IH in E. lia.
Qed.

(** ** The operations of the terminal keep the invariant *)

Lemma good_io token ev t o : good t -> good (fst (fst (on_io amb blocks token ev t o))).
Proof.
  intros Hg. unfold on_io. destruct (index_of_token token (tabs t) 0) as [i|] eqn:Ei; [|done].
  apply index_of_token_bound in Ei. pose proof (drain_part blocks t o i ltac:(lia)) as [Ht _].
  destruct (drain _ _ _ _ _) as [[t' o'] closed]. cbn [fst snd] in *. eapply good_touch; [|exact Ht|exact Hg]. lia.
Qed.

(** A field typed, a place in the bar: nothing of the tabs. *)
Lemma good_with t t' : tabs t' = tabs t -> closing t' = closing t -> t_hist t' = t_hist t -> t_size t' = t_size t ->
  (active_ t' < length (tabs t))%nat -> (t_mode t' = TRenaming -> (length (edit_ t') <= kNameRoom)%nat) -> good t -> good t'.
Proof.
  intros E1 E2 E3 E4 Ha He [[C1 C2 C3 C4 C5 C6] _ Hf]. split; [split|by rewrite E1|]; rewrite ?E1, ?E2, ?E3; try done.
  unfold grid_w, grid_h in *. by rewrite E4.
Qed.

Lemma good_select t o i : good t -> good (select_tab t o i).1.
Proof.
  intros Hg. unfold select_tab. destruct (Nat.leb_spec (length (tabs t)) i); [done|]. by apply (good_with t); try done; apply Hg.
Qed.

Lemma good_cycle t o d : good t -> good (cycle_tab t o d).1.
Proof. apply good_select. Qed.

Lemma good_begin_rename t o : good t -> good (begin_rename t o).1.
Proof.
  intros Hg. apply (good_with t); try done; [apply Hg|]. intros _. cbn. rewrite active_at.
  apply (proj1 (Forall_lookup _ _) (core_names _ (good_core _ Hg)) (active_ t)), tab_at_lookup, Hg.
Qed.

Lemma good_commit_rename t o : good t -> good (commit_rename t o).1.
Proof.
  intros Hg. unfold commit_rename. case_bool_decide as Hm; [|done]. cbn [negb fst].
  apply (good_put t _ (active_ t) (let tb := active t in {| tb with t_custom := edit_ t |})); try done.
  - apply Hg.
  - by apply Hg.
Qed.

Lemma good_begin_path t o : good t -> good (begin_path_edit t o).1.
Proof. intros Hg. apply (good_with t); try done. apply Hg. Qed.

Lemma good_commit_path t o : good t -> good (commit_path_edit t o).1.
Proof. intros Hg. unfold commit_path_edit. destruct (negb _); [done|]. apply (good_with t); try done. apply Hg. Qed.

Lemma rub_char_length s : (length (rub_char s) <= length s)%nat.
Proof.
  unfold rub_char. rewrite <- (length_rev s). rewrite length_rev. induction (rev s) as [|b r IH]; [done|]. cbn. destruct (_ =? _); lia.
Qed.

Lemma good_field k limit commit t o : (t_mode t = TRenaming -> (limit <= kMaxName)%nat) ->
  good t -> good (commit t o).1 -> good (field_key k limit commit t o).1.
Proof.
  intros Hl Hg Hc. assert (active_ t < length (tabs t))%nat as Ha by apply Hg. unfold field_key. destruct (ke_key k); try exact Hg.
  - destruct (Nat.ltb_spec (length (edit_ t)) limit); [|exact Hg]. cbn [fst]. apply (good_with t); try done.
    intros Hm. cbn in *. rewrite length_app. pose proof (encode_utf8_nonempty (ke_ch k)). specialize (Hl Hm). unfold kMaxName, kNameRoom in *. lia.
  - destruct (commit t o) as [t' o']. exact Hc.
  - apply (good_with t); try done. intros Hm. cbn. pose proof (rub_char_length (edit_ t)). pose proof (core_edit _ (good_core _ Hg) Hm). lia.
  - by apply (good_with t).
Qed.

(** The history of the tab looked at. *)
Lemma history_page tb f : page_sound tb -> (forall s, scrollback_ok s -> scrollback_ok (f s)) ->
  page_sound {| tb with t_emu := on_screen (t_emu tb) (fun s => with_sb s (f <$> sb s)) |}.
Proof.
  intros [Hf Hg] Hs. split; [exact Hf|]. unfold geometry_ok in *. cbn. destruct Hg as (H1 & H2 & H3 & H4 & H5 & H6 & H7 & H8 & H9).
  split_and!; try done; try apply H5; try apply H6. destruct (sb _); [by apply Hs|done].
Qed.

Lemma history_touches W t f : (active_ t < length (tabs t))%nat -> (forall s, scrollback_ok s -> scrollback_ok (f s)) ->
  touches W (active_ t) t (on_history t f).
Proof. intros Ha Hs. apply touches_put; try done. split_and!; try done. intros Hp. by apply history_page. Qed.

(** *** Tabs opened and laid out *)

Lemma on_pty_run {B} t i (f : pty -> io (pty * B)) :
  on_pty t i f = let tb := tab_at t i in let '((p, b), l) := f (t_pty tb) (t_hist t) in
    (b, put_tab {| t with t_hist := l |} i {| tb with t_pty := p |}).
Proof. unfold on_pty, ask. cbv zeta. by destruct (f _ _) as [[p b] l]. Qed.

(** A request on one process, kept by [keeps_step]. *)
Lemma on_pty_core {B} t i (f : pty -> io (pty * B)) : (i < length (tabs t))%nat -> keeps_step (t_pty (tab_at t i)) (f (t_pty (tab_at t i))) fst ->
  core t -> core (on_pty t i f).2.
Proof.
  intros Hi Hk Hc. pose proof (tab_at_lookup t i Hi) as Et. rewrite on_pty_run. cbv zeta.
  pose proof (paid_keeps _ _ _ (t_hist t) Hk) as Hp. destruct (f _ _) as [[p b] l]. cbn [fst snd] in *.
  apply (core_put t _ i (let tb := tab_at t i in {| tb with t_pty := p |})); try done; try apply Hc.
  - apply (proj1 (Forall_lookup _ _) (core_pages _ Hc) i _ Et).
  - apply (proj1 (Forall_lookup _ _) (core_names _ Hc) i _ Et).
Qed.

Lemma on_pty_tabs {B} t i (f : pty -> io (pty * B)) :
  let t' := (on_pty t i f).2 in
  closing t' = closing t /\ active_ t' = active_ t /\ t_size t' = t_size t /\
  tabs t' = <[i := let tb := tab_at t i in {| tb with t_pty := (f (t_pty tb) (t_hist t)).1.1 |}]> (tabs t).
Proof. cbv zeta. rewrite on_pty_run. cbv zeta. by destruct (f _ _) as [[p b] l]. Qed.

(** A tab without a process yet. *)
Definition idle_tab tb : Prop := t_pty tb = pty_new.

(** Marks of a tab that count for nothing here. *)
Lemma core_marks t i tb : (i < length (tabs t))%nat -> t_emu tb = t_emu (tab_at t i) -> t_custom tb = t_custom (tab_at t i) ->
  t_pty tb = t_pty (tab_at t i) -> core t -> core (put_tab t i tb).
Proof.
  intros Hi He Hn Hp Hc. pose proof (tab_at_lookup t i Hi) as Et. apply (core_put t _ i tb); try done; try apply Hc.
  - unfold page_sound. rewrite He. apply (proj1 (Forall_lookup _ _) (core_pages _ Hc) i _ Et).
  - rewrite Hn. apply (proj1 (Forall_lookup _ _) (core_names _ Hc) i _ Et).
  - rewrite Hp. by apply paid_same.
Qed.

(** What [open_tab_into] leaves of the other tabs and of the page. *)
Definition launched (i : nat) t t' : Prop :=
  core t' /\ active_ t' = active_ t /\ t_size t' = t_size t /\ closing t' = closing t /\
  exists tb, tabs t' = <[i := tb]> (tabs t) /\ t_emu tb = t_emu (tab_at t i).

Lemma launched_marks i t t' tb : (i < length (tabs t))%nat -> launched i t t' -> t_emu tb = t_emu (tab_at t' i) -> t_custom tb = t_custom (tab_at t' i) ->
  t_pty tb = t_pty (tab_at t' i) -> launched i t (put_tab t' i tb).
Proof.
  intros Hi (Hc & Ha & Hz & Hl & tb0 & E & Ee) H1 H2 H3. assert (i < length (tabs t'))%nat as Hi' by by rewrite E, length_insert.
  split_and!; try done; [by apply core_marks|]. exists tb. cbn. rewrite E, list_insert_insert_eq. split; [done|].
  rewrite H1. unfold tab_at at 1. by rewrite E, list_lookup_insert_eq.
Qed.

Lemma open_into_launched t o i : (i < length (tabs t))%nat -> idle_tab (tab_at t i) -> core t -> launched i t (open_tab_into t o i).1.1.
Proof.
  intros Hi Hn Hc. unfold open_tab_into.
  assert (launched i t (on_pty t i (spawn (launch_of t o))).2) as H1.
  { destruct (on_pty_tabs t i (spawn (launch_of t o))) as (E1 & E2 & E3 & E4). split_and!; try done.
    - apply on_pty_core; [done| |done]. rewrite Hn. by apply spawn_keeps.
    - eexists. split; [exact E4|done]. }
  destruct (on_pty t i _) as [why t1]. cbn [snd] in H1. set (t2 := put_tab t1 i _).
  assert (launched i t t2) as H2 by by apply launched_marks.
  destruct (negb _); [exact H2|]. destruct (watch o _ EPOLLIN) as [o' key]. cbn [fst]. by apply launched_marks.
Qed.

Lemma core_ask {B} i t (m : io B) : (i < length (tabs t))%nat -> keeps_step (t_pty (tab_at t i)) m (fun _ => t_pty (tab_at t i)) ->
  core t -> core (ask m t).2.
Proof.
  intros Hi Hk Hc. pose proof (tab_at_lookup t i Hi) as Et. rewrite ask_snd.
  apply (core_put t _ i (tab_at t i)); try done; try apply Hc.
  - cbn. by rewrite list_insert_id.
  - apply (proj1 (Forall_lookup _ _) (core_pages _ Hc) i _ Et).
  - apply (proj1 (Forall_lookup _ _) (core_names _ Hc) i _ Et).
  - by apply (paid_keeps _ m (fun _ => t_pty (tab_at t i))).
Qed.

(** A page at the size of the window. *)
Lemma resized_fits tb cw ch : 1 <= cw -> 1 <= ch -> page_sound tb ->
  page_fits cw ch {| tb with t_emu := on_screen (t_emu tb) (fun s => Screen.resize s cw ch) |}.
Proof.
  intros Hw Hh [[F1 F2] Hg]. destruct (resize_flags (e_screen (t_emu tb)) cw ch) as [R1 R2].
  destruct (resize_size (e_screen (t_emu tb)) cw ch) as [R3 R4].
  split_and!; cbn; [|lia|lia]. split; [split; cbn; congruence|by apply geometry_resize].
Qed.

Lemma fit_tab_core i t : (i < length (tabs t))%nat -> core t ->
  core (fit_tab i t) /\ closing (fit_tab i t) = closing t /\ active_ (fit_tab i t) = active_ t /\ t_size (fit_tab i t) = t_size t /\
  exists tb, tabs (fit_tab i t) = <[i := tb]> (tabs t) /\ page_fits (grid_w t) (grid_h t) tb.
Proof.
  intros Hi Hc. pose proof (tab_at_lookup t i Hi) as Et. unfold fit_tab. set (tb0 := tab_at t i).
  set (tb := {| tb0 with t_emu := on_screen (t_emu tb0) (fun s => Screen.resize s (grid_w t) (grid_h t)) |}).
  assert (page_fits (grid_w t) (grid_h t) tb) as Hfit.
  { apply resized_fits; [unfold grid_w; lia|unfold grid_h; lia|]. apply (proj1 (Forall_lookup _ _) (core_pages _ Hc) i _ Et). }
  set (t1 := put_tab t i tb). assert (tab_at t1 i = tb) as E1 by by apply tab_at_put.
  assert (core t1) as H1.
  { apply (core_put t _ i tb); try done; try apply Hc; [apply Hfit|]. apply (proj1 (Forall_lookup _ _) (core_names _ Hc) i _ Et). }
  fold tb0 tb t1. change (tab_at t i) with tb0. cbv zeta. fold tb t1. split_and!; [|by rewrite ask_snd..|exists tb; by rewrite ask_snd].
  apply (core_ask i); [cbn; by rewrite length_insert| |done]. rewrite E1. apply resize_keeps.
Qed.

(** What the layout of some tabs makes, when the others already fit. *)
Lemma fit_tabs_core n : forall i t, (i + n = length (tabs t))%nat -> core t ->
  Forall (page_fits (grid_w t) (grid_h t)) (take i (tabs t)) ->
  let t' := fold_left (fun t i => fit_tab i t) (seq i n) t in
  core t' /\ length (tabs t') = length (tabs t) /\ closing t' = closing t /\ active_ t' = active_ t /\ t_size t' = t_size t /\
  Forall (page_fits (grid_w t) (grid_h t)) (tabs t').
Proof.
  induction n as [|n IH]; intros i t Hn Hc Hf; cbv zeta; cbn [seq fold_left].
  - rewrite take_ge in Hf by lia. by split_and!.
  - destruct (fit_tab_core i t ltac:(lia) Hc) as (Hc1 & E1 & E2 & E3 & tb & E4 & Hb).
    destruct (IH (S i) (fit_tab i t)) as (K1 & K2 & K3 & K4 & K5 & K6); [by rewrite E4, length_insert; lia|done| |].
    + unfold grid_w, grid_h. rewrite E3, E4. fold (grid_w t) (grid_h t). erewrite take_S_r by (apply list_lookup_insert_eq; lia).
      rewrite take_insert_ge by lia. apply Forall_app. split; [done|by constructor].
    + unfold grid_w, grid_h in *. rewrite E3 in *. split_and!; try congruence; try done. by rewrite K2, E4, length_insert.
Qed.

Lemma relayout_good t : core t -> (active_ t < length (tabs t))%nat ->
  good (relayout t) /\ length (tabs (relayout t)) = length (tabs t).
Proof.
  intros Hc Ha. destruct (fit_tabs_core (length (tabs t)) 0 t eq_refl Hc ltac:(by rewrite take_0)) as (K1 & K2 & K3 & K4 & K5 & K6).
  fold (relayout t) in *. split; [|done]. split; [done|by rewrite K4, K2|]. unfold grid_w, grid_h. by rewrite K5.
Qed.

Lemma page_new : page_sound tab_new.
Proof.
  split; [done|]. destruct (geometry_new 80 24) as (? & ? & ? & ? & ? & ? & ? & ? & _).
  unfold geometry_ok. split_and!; try done. apply scrollback_new_ok.
Qed.

Lemma held_empty tb : fds_of (t_pty tb) = ∅ -> procs_of (t_pty tb) = ∅ -> held [tb] = (∅, ∅).
Proof. intros Hf Hp. rewrite held_cons, Hf, Hp. done. Qed.

Lemma core_new t : core t -> core {| t with tabs := tabs t ++ [tab_new] |}.
Proof.
  intros [C1 C2 C3 C4 C5 C6]. split; cbn [tabs closing t_hist edit_ t_mode]; try done.
  - apply Forall_app. split; [done|]. constructor; [apply page_new|done].
  - apply Forall_app. split; [done|]. constructor; [cbn; unfold kNameRoom; lia|done].
  - rewrite C5, <- app_assoc, !held_app, (held_empty tab_new) by done. cbn [fst snd]. f_equal; multiset_solver.
Qed.

(** A guest that could not be launched leaves its tab as it was. *)
Lemma open_into_fails t o i : (i < length (tabs t))%nat -> core t -> (open_tab_into t o i).2 = false ->
  t_pty (tab_at (open_tab_into t o i).1.1 i) = t_pty (tab_at t i).
Proof.
  intros Hi Hc. unfold open_tab_into. rewrite on_pty_run. cbv zeta.
  destruct (ledger (t_hist t)) as [F P] eqn:El. destruct (spawn_does (t_pty (tab_at t i)) (launch_of t o) F P (t_hist t) El (core_aimed _ Hc)) as [Hs _].
  destruct (spawn _ _ _) as [[p why] l]. cbn [fst snd spawned] in Hs. destruct (bool_decide (why = [])); cbn [negb].
  - destruct (watch o _ EPOLLIN) as [o' key]. done.
  - intros _. destruct Hs as [-> _]. cbn [fst]. rewrite !tab_at_put; cbn; rewrite ?length_insert; done.
Qed.

Lemma good_open t o : good t -> good (open_tab t o).1.
Proof.
  intros Hg. destruct Hg as [Hc Ha Hf]. pose proof (core_new t Hc) as Hc1. unfold open_tab. set (t1 := {| t with tabs := tabs t ++ [tab_new] |}) in *.
  set (i := length (tabs t)). assert (i < length (tabs t1))%nat as Hi by (cbn; rewrite length_app; cbn; lia).
  assert (tab_at t1 i = tab_new) as En by (unfold tab_at; cbn; by rewrite list_lookup_middle).
  pose proof (open_into_launched t1 o i Hi ltac:(by rewrite En) Hc1) as Hl. pose proof (open_into_fails t1 o i Hi Hc1) as Hk.
  destruct (open_tab_into t1 o i) as [[t2 o2] ok]. cbn [fst snd] in *. destruct Hl as (Hc2 & E1 & E2 & E3 & tb & E4 & E5).
  destruct ok; cbn [negb fst].
  - destruct (relayout_good t2 Hc2) as [Hg2 Hl2]; [rewrite E1, E4, length_insert; change (active_ t1) with (active_ t); unfold i in Hi; lia|]. apply (good_with (relayout t2)); try done; [|apply Hg2].
    cbn. rewrite Hl2, E4, length_insert. done.
  - assert (take i (tabs t2) = tabs t) as Et.
    { rewrite E4, take_insert_ge by lia. cbn [tabs t1]. apply take_app_length. }
    assert (tabs t2 = tabs t ++ [tb]) as Et2.
    { rewrite E4. cbn [tabs t1]. rewrite insert_app_r_alt by done. unfold i. by rewrite Nat.sub_diag. }
    assert (t_pty tb = pty_new) as Ep.
    { specialize (Hk eq_refl). rewrite En in Hk. unfold tab_at in Hk. rewrite Et2, list_lookup_middle in Hk by done. exact Hk. }
    destruct Hc2 as [C1 C2 C3 C4 C5 C6].
    split; [split|cbn [tabs active_]; by rewrite Et, E1|]; cbn [tabs closing t_hist edit_ t_mode]; rewrite ?Et; try done; try apply Hc.
    + by rewrite C5, Et2, <- app_assoc, !held_app, (held_empty tb) by (by rewrite Ep); cbn [fst snd]; f_equal; multiset_solver.
    + unfold grid_w, grid_h. cbn [t_size]. by rewrite E2.
Qed.

(** *** Tabs closed, processes that end *)

Lemma no_fds p : master p < 0 -> fds_of p = ∅.
Proof. intros Hm. unfold fds_of. by zrw_true (master p <? 0). Qed.

Lemma ended_procs p : exited p = true -> procs_of p = ∅.
Proof. intros He. unfold procs_of. by rewrite He, orb_true_r. Qed.

(** A tab out of the list, still in the accounts. *)
Lemma bury_does t tb F P : ledger (t_hist t) = (F ⊎ fds_of (t_pty tb), P ⊎ procs_of (t_pty tb)) -> aimed (t_hist t) -> Forall buried (closing t) ->
  exists ext, let t' := bury tb t in
    t' = {| t with closing := closing t ++ ext; t_hist := t_hist t' |} /\ Forall buried ext /\
    ledger (t_hist t') = (F ⊎ (held ext).1, P ⊎ (held ext).2) /\ aimed (t_hist t').
Proof.
  intros El Ha Hb. unfold bury, ask.
  pose proof (shutdown_does F P (t_pty tb) (t_hist t) El Ha) as [(E1 & M1 & I1 & X1) A1].
  destruct (shutdown _ _) as [p1 l1]. cbn [fst snd] in *. destruct (Z.ltb_spec 0 (pid p1)) as [Hp|Hp]; cbn [t_hist].
  - assert (ledger l1 = (F ⊎ fds_of p1, P ⊎ procs_of p1)) as E1' by (rewrite E1, (no_fds p1), (right_id ∅ (⊎)) by done; done).
    pose proof (try_reap_keeps p1 F P l1 E1' A1) as [E2 A2]. pose proof (try_reap_master p1 l1) as M2. pose proof (try_reap_exited p1 l1) as X2.
    destruct (try_reap p1 l1) as [[p2 got] l2] eqn:Et. cbn [fst snd] in *. rewrite (no_fds p2), (right_id ∅ (⊎)) in E2 by lia.
    pose proof (try_reap_pid p1 l1) as I2. rewrite Et in I2. cbn [fst] in I2.
    destruct got; cbn [negb]; rewrite ?andb_false_r.
    + exists []. rewrite (ended_procs p2), (right_id ∅ (⊎)) in E2 by auto. cbn [t_hist]. rewrite app_nil_r. split_and!; try done.
      rewrite E2. cbn. f_equal; multiset_solver.
    + zrw_true (0 <? pid p2). cbn [andb closing t_hist]. exists [{| tb with t_pty := p2; t_watching := false |}]. split_and!; try done.
      * constructor; [|done]. unfold buried. cbn. lia.
      * rewrite E2, held_cons. cbn [t_pty]. rewrite (no_fds p2) by lia. cbn [held fst snd List.fold_right]. f_equal; multiset_solver.
  - zrw_false (0 <? pid p1). cbn [andb t_hist]. exists []. rewrite app_nil_r. split_and!; try done. rewrite E1.
    unfold procs_of. zrw_true (pid p1 <=? 0). cbn. f_equal; multiset_solver.
Qed.

Lemma good_close t o i : good t -> good (close_tab t o i).1.
Proof.
  intros Hg. unfold close_tab. destruct (tabs t !! i) as [dying|] eqn:Ei; [|done].
  destruct (Nat.eqb_spec (length (tabs t)) 1) as [|Hn]; [done|]. destruct Hg as [[C1 C2 C3 C4 C5 C6] Ha Hf].
  pose proof (lookup_lt_Some _ _ _ Ei) as Hi. set (act := if (_ <=? _)%nat then _ else _).
  set (t1 := {| t with tabs := delete i (tabs t); active_ := act |}). cbn [tabs] in *.
  destruct (bury_does t1 dying ((held (delete i (tabs t))).1 ⊎ (held (closing t)).1) ((held (delete i (tabs t))).2 ⊎ (held (closing t)).2)) as (ext & E & Hx & El & Hm); try done.
  { cbn [t_hist t1]. rewrite C5, held_app, (held_tab _ _ _ Ei). cbn [fst snd]. f_equal; multiset_solver. }
  change (good (bury dying t1)). rewrite E. assert (length (delete i (tabs t)) = length (tabs t) - 1)%nat as Hl by by apply length_delete.
  assert (act < length (delete i (tabs t)))%nat as Hact.
  { subst act. cbn [active_ tabs]. rewrite Hl. destruct (Nat.leb_spec (length (tabs t) - 1) (active_ t)); lia. }
  split; [split| |]; cbn [tabs closing t_hist edit_ t_mode active_ t1]; try done; try by apply Forall_delete.
  - by apply Forall_app.
  - rewrite El, !held_app. cbn [fst snd]. f_equal; multiset_solver.
Qed.

Lemma good_reap_tab t i : (i < length (tabs t))%nat -> good t -> good (reap_tab i t) /\ length (tabs (reap_tab i t)) = length (tabs t).
Proof.
  intros Hi Hg. pose proof (tab_at_lookup t i Hi) as Et. unfold reap_tab. rewrite on_pty_run. cbv zeta.
  pose proof (paid_keeps _ _ _ (t_hist t) (try_reap_keeps (t_pty (tab_at t i)))) as Hp. destruct (try_reap _ _) as [[p b] l]. cbn [fst snd] in *.
  split; [|cbn; by rewrite length_insert].
  apply (good_put t _ i (let tb := tab_at t i in {| tb with t_pty := p |})); try done; try apply Hg.
  apply (proj1 (Forall_lookup _ _) (core_names _ (good_core _ Hg)) i _ Et).
Qed.

Lemma good_reap_tabs n : forall i t, (i + n <= length (tabs t))%nat -> good t -> good (fold_left (fun t i => reap_tab i t) (seq i n) t).
Proof.
  induction n as [|n IH]; intros i t Hn Hg; [done|]. cbn [seq fold_left]. destruct (good_reap_tab t i ltac:(lia) Hg) as [Hg1 Hl].
  apply IH; [lia|done].
Qed.

Lemma reap_closing_does l : forall t F P, Forall buried l -> ledger (t_hist t) = (F ⊎ (held l).1, P ⊎ (held l).2) -> aimed (t_hist t) ->
  let '(l', t') := reap_closing l t in
  Forall buried l' /\ ledger (t_hist t') = (F ⊎ (held l').1, P ⊎ (held l').2) /\ aimed (t_hist t') /\ t' = {| t with t_hist := t_hist t' |}.
Proof.
  induction l as [|tb l IH]; intros t F P Hb El Ha; cbn [reap_closing]; [by destruct t; split_and!|]. unfold ask.
  apply Forall_cons_1 in Hb as [Hb Hl]. rewrite held_cons in El. cbn [fst snd] in El. unfold buried in Hb.
  assert (ledger (t_hist t) = ((F ⊎ (held l).1) ⊎ fds_of (t_pty tb), (P ⊎ (held l).2) ⊎ procs_of (t_pty tb))) as El' by (rewrite El; f_equal; multiset_solver).
  pose proof (try_reap_keeps (t_pty tb) _ _ (t_hist t) El' Ha) as [E2 A2]. pose proof (try_reap_master (t_pty tb) (t_hist t)) as M2.
  destruct (try_reap (t_pty tb) (t_hist t)) as [[p got] h1]. cbn [fst snd] in *. rewrite (no_fds p), (right_id ∅ (⊎)) in E2 by lia.
  pose proof (IH {| t with t_hist := h1 |} F (P ⊎ procs_of p) Hl) as IH1. destruct (reap_closing l _) as [l' t'].
  destruct IH1 as (B1 & E3 & A3 & F3); [cbn [t_hist]; rewrite E2; f_equal; multiset_solver|done|]. cbn in F3.
  destruct (exited p) eqn:Ex; split_and!; try done.
  - rewrite E3, (ended_procs p) by done. f_equal; multiset_solver.
  - constructor; [|done]. unfold buried. cbn. lia.
  - rewrite E3, held_cons. cbn [t_pty fst snd]. rewrite (no_fds p) by lia. f_equal; multiset_solver.
Qed.

Lemma good_child st t o : good t -> good (on_child_exit st t o).1.
Proof.
  intros Hg. unfold on_child_exit. pose proof (good_reap_tabs (length (tabs t)) 0 t ltac:(lia) Hg) as Hg1.
  set (t1 := fold_left _ _ t) in *. clearbody t1. clear Hg t. destruct Hg1 as [[C1 C2 C3 C4 C5 C6] Ha Hf].
  rewrite held_app in C5. pose proof (reap_closing_does (closing t1) t1 _ _ C4 C5 C6) as Hr.
  destruct (reap_closing (closing t1) t1) as [l t2]. destruct Hr as (B & E & A2 & F2). cbn [fst]. rewrite F2.
  split; [split| |]; cbn [tabs closing t_hist edit_ t_mode active_]; try done. by rewrite E, held_app.
Qed.

Lemma good_resize s t o : good t -> good (on_resize s t o).1.
Proof.
  intros Hg. unfold on_resize. destruct (_ || _); [done|]. cbn [fst]. destruct Hg as [[C1 C2 C3 C4 C5 C6] Ha Hf].
  by apply relayout_good.
Qed.

(** *** The gestures *)

Lemma good_press t o : good t -> good (let '(t, o) := commit_rename t o in commit_path_edit t o).1.
Proof. intros Hg. pose proof (good_commit_rename t o Hg) as H1. destruct (commit_rename t o) as [t1 o1]. by apply good_commit_path. Qed.

Lemma good_bar x t o : good t -> good (bar_click amb x t o).1.
Proof.
  intros Hg. unfold bar_click. destruct (slot_at x _) as [s|]; [|done]. destruct (sl_kind s).
  - case_match; [by apply good_begin_rename|by apply good_select].
  - by apply good_close.
  - by apply good_open.
  - by apply good_begin_path.
Qed.

Lemma good_history t f : (forall s, scrollback_ok s -> scrollback_ok (f s)) -> good t -> good (on_history t f).
Proof. intros Hs Hg. eapply (good_touch (fun _ => True)); [apply Hg|by apply history_touches; [apply Hg|]|done]. Qed.

Lemma good_guest t bs : good t -> good (to_guest t (active_ t) bs).
Proof. intros Hg. eapply (good_touch (fun _ => True)); [apply Hg|by apply to_guest_touches; [apply Hg|]|done]. Qed.

Lemma back_ok s n : scrollback_ok s -> scrollback_ok (scroll_back s n).
Proof. apply (sb_step_ok s (SbBack n)). Qed.
Lemma forward_ok s n : scrollback_ok s -> scrollback_ok (scroll_forward s n).
Proof. apply (sb_step_ok s (SbForward n)). Qed.
Lemma bottom_ok s : scrollback_ok s -> scrollback_ok (scroll_to_bottom s).
Proof. apply (sb_step_ok s SbBottom). Qed.

Create HintDb terminal.
Hint Resolve back_ok forward_ok bottom_ok good_history good_guest good_open good_close good_cycle good_begin_rename good_begin_path : terminal.

Lemma good_key k t o : good t -> good (on_key k t o).1.
Proof.
  intros Hg. unfold on_key. destruct (t_mode t) eqn:Em.
  - destruct (tab_key k t o) as [to|] eqn:Ek.
    { revert Ek. unfold tab_key. repeat case_match; (intros [= <-] || intros [=]); auto with terminal. }
    destruct (exited _); [done|]. destruct (history_key k t) as [t'|] eqn:Eh.
    { revert Eh. unfold history_key. repeat case_match; (intros [= <-] || intros [=]); apply good_history; auto with terminal. }
    case_bool_decide; [done|]. apply (good_guest (on_history t scroll_to_bottom)). auto with terminal.
  - apply good_field; [intros _; unfold kMaxName; lia|done|by apply good_commit_rename].
  - apply good_field; [congruence|done|by apply good_commit_path].
Qed.

Lemma good_mouse m t o : good t -> good (on_mouse amb m t o).1.
Proof.
  intros Hg. unfold on_mouse. set (p := if bool_decide _ then _ else _).
  assert (good p.1) as Hp by (subst p; case_bool_decide; [by apply good_press|done]). destruct p as [t1 o1]. cbn [fst] in Hp.
  destruct (_ <? _); [case_bool_decide; [by apply good_bar|done]|]. destruct (exited _); [done|].
  unfold page_mouse. repeat case_match; cbn [fst]; try apply good_history; auto with terminal.
Qed.

Lemma good_piece text complete t : good t -> good (paste_piece text complete t).
Proof.
  intros Hg. unfold paste_piece. cbv zeta. assert (good (on_history t scroll_to_bottom)) as H1 by auto with terminal.
  set (t1 := on_history t scroll_to_bottom) in *. assert (good (open_paste t1)) as H2.
  { unfold open_paste. destruct (pasting t1); [done|]. cbv zeta. set (t2 := Terminal _ _ _ _ _ _ _ _ _ _).
    assert (good t2) as H2 by (apply (good_with t1); try done; apply H1). destruct (paste_bracketed t2); auto with terminal. }
  set (t2 := open_paste t1) in *. set (t3 := {| t2 with pasting := negb complete |}).
  assert (good t3) as H3 by (apply (good_with t2); try done; apply H2).
  unfold close_paste. destruct complete; [|auto with terminal]. case_match; auto with terminal.
Qed.

Lemma good_paste text complete t o : good t -> good (on_paste text complete t o).1.
Proof.
  intros Hg. unfold on_paste. destruct (t_mode t) eqn:Em.
  - destruct (exited _); [done|]. by apply good_piece.
  - apply (good_with t); try done; [apply Hg|]. intros _. pose proof (core_edit _ (good_core _ Hg) Em) as He. cbn [fst edit_].
    destruct (Nat.ltb_spec (length (edit_ t)) kMaxName); [|done]. rewrite length_app, length_take. unfold kMaxName, kNameRoom in *. lia.
  - apply (good_with t); try done. apply Hg.
Qed.

Lemma good_input p i : good p.1 -> good (take_input p i).1.
Proof.
  destruct p as [t o]. intros Hg. destruct i; cbn [take_input fst]; [by apply good_key|by apply good_mouse|by apply good_paste|by apply good_resize|by apply good_child|by apply good_io].
Qed.

Lemma good_attach argv o : good (attach (terminal_new argv []) o).1.
Proof.
  assert (core (terminal_new argv [])) as Hc.
  { split; cbn [terminal_new tabs closing t_hist edit_ t_mode]; try done.
    - constructor; [apply page_new|done].
    - constructor; [cbn; unfold kNameRoom; lia|done].
    - by apply each_nil. }
  unfold attach. pose proof (open_into_launched (terminal_new argv []) o 0 ltac:(cbn; lia) eq_refl Hc) as Hl.
  change (active_ (terminal_new argv [])) with 0%nat. destruct (open_tab_into _ _ _) as [[t1 o1] ok]. cbn [fst snd] in *.
  destruct Hl as (Hc1 & E1 & _ & _ & tb & E4 & _). apply relayout_good; [done|]. rewrite E1, E4. cbn. lia.
Qed.


End Props.
