(* ===== verification/TerminalTalk.v ===== *)
(** * What the guests of a terminal are told *)

From S2P Require Import Prelude StdString Utf8 Width Cell Surface Input InputEncode VtParser VtModes Scrollback Screen Emulator Config Host Syscalls GuestEnv Pty PtyLedger Terminal TerminalProps.

Section Talk.
Context {A : Type} `{System} (amb : bool) (blocks : nat).
Implicit Types (t : terminal) (o : host A) (tb : tab) (W : request -> Prop).

(** ** Requests, event by event *)

Definition says W t t' : Prop := exists ext, t_hist t' = t_hist t ++ ext /\ Forall (fun ev => W (ev_q ev)) ext.

#[global] Instance says_preorder W : PreOrder (says W).
Proof.
  split; [intros t; exists []; by rewrite app_nil_r|]. intros t1 t2 t3 (e1 & E1 & S1) (e2 & E2 & S2).
  exists (e1 ++ e2). rewrite E2, E1, app_assoc. split; [done|by apply Forall_app].
Qed.

Lemma says_same W t t' : t_hist t' = t_hist t -> says W t t'.
Proof. intros E. exists []. by rewrite app_nil_r. Qed.

Lemma says_ask W {B} (m : io B) t : asks W m -> says W t (ask m t).2.
Proof. intros Hm. rewrite ask_snd. apply Hm. Qed.

(** Every request but the bytes for a guest. *)
Definition mute (q : request) : Prop := match q with QWrite _ _ => False | _ => True end.

Create HintDb mute.
Hint Resolve asks_ret asks_call : mute.
Hint Extern 1 (mute _) => exact I : mute.
Ltac muted := repeat first [by auto with mute | exact I | apply asks_bind; [|intros ?] | case_match].

Lemma mute_close fd : asks mute (sys_close fd).
Proof. unfold sys_close. muted. Qed.
Hint Resolve mute_close : mute.

Lemma mute_failed m what e : asks mute (spawn_failed m what e).
Proof. unfold spawn_failed. muted. Qed.
Hint Resolve mute_failed : mute.

Lemma mute_report p m c r path : asks mute (read_report p m c r path).
Proof. unfold read_report, sys_read. muted. Qed.
Hint Resolve mute_report : mute.

Lemma mute_spawn s p : asks mute (spawn s p).
Proof. unfold spawn, fork_into, sys_open, attempt. muted. Qed.

Lemma mute_resize p c r : asks mute (resize p c r).
Proof. unfold resize. muted. Qed.

Lemma mute_shutdown p : asks mute (shutdown p).
Proof. unfold shutdown, hangup, kill_now, signal, close_master. muted. Qed.

Lemma mute_reap p : asks mute (try_reap p).
Proof. unfold try_reap. muted. Qed.

Lemma says_pty {B} W t i (f : pty -> io (pty * B)) : asks W (f (t_pty (tab_at t i))) -> says W t (on_pty t i f).2.
Proof.
  intros Hf. rewrite on_pty_run. cbv zeta. destruct (Hf (t_hist t)) as (ext & E & Hw). destruct (f _ _) as [[p b] l]. cbn [fst snd] in *.
  by exists ext.
Qed.

Lemma says_open_into t o i : says mute t (open_tab_into t o i).1.1.
Proof.
  unfold open_tab_into. pose proof (says_pty mute t i (spawn (launch_of t o)) (mute_spawn _ _)) as H1.
  destruct (on_pty t i _) as [why t1]. cbn [snd] in H1. destruct (negb _); [exact H1|]. destruct (watch o _ EPOLLIN) as [o' key]. exact H1.
Qed.

Lemma says_fit i t : says mute t (fit_tab i t).
Proof. unfold fit_tab. etrans; [|apply says_ask, mute_resize]. by apply says_same. Qed.

Lemma says_relayout t : says mute t (relayout t).
Proof.
  unfold relayout. generalize (seq 0 (length (tabs t))). intros l. revert t. induction l as [|i l IH]; intros t; [done|].
  cbn [fold_left]. etrans; [apply says_fit|apply IH].
Qed.

Lemma says_open t o : says mute t (open_tab t o).1.
Proof.
  unfold open_tab. set (t1 := {| t with tabs := _ |}). pose proof (says_open_into t1 o (length (tabs t))) as H1.
  destruct (open_tab_into _ _ _) as [[t2 o2] ok]. cbn [fst] in H1. destruct (negb ok); [exact H1|].
  cbn [fst]. change (says mute t1 (relayout t2)). etrans; [exact H1|apply says_relayout].
Qed.

Lemma says_bury tb t : says mute t (bury tb t).
Proof.
  unfold bury. pose proof (says_ask mute (shutdown (t_pty tb)) t (mute_shutdown _)) as H1. destruct (ask _ t) as [p t1]. cbn [snd] in H1.
  pose proof (says_ask mute (try_reap p) t1 (mute_reap _)) as H2. destruct (ask (try_reap p) t1) as [[p2 got] t2]. cbn [snd] in H2.
  destruct (0 <? pid p).
  - case_match; (etrans; [exact H1|exact H2]).
  - case_match; exact H1.
Qed.

Lemma says_close t o i : says mute t (close_tab t o i).1.
Proof.
  unfold close_tab. destruct (tabs t !! i) as [dying|]; [|done]. destruct (_ =? _)%nat; [done|]. cbv zeta. cbn [fst].
  etrans; [|apply says_bury]. by apply says_same.
Qed.

Lemma says_select t o i : says mute t (select_tab t o i).1.
Proof. unfold select_tab. case_match; [done|]. by apply says_same. Qed.

Lemma says_commit_rename t o : says mute t (commit_rename t o).1.
Proof. unfold commit_rename. case_match; [done|]. by apply says_same. Qed.

Lemma says_commit_path t o : says mute t (commit_path_edit t o).1.
Proof. unfold commit_path_edit. case_match; [done|]. by apply says_same. Qed.

Lemma says_field k limit commit t o : says mute t (commit t o).1 -> says mute t (field_key k limit commit t o).1.
Proof.
  intros Hc. unfold field_key. destruct (ke_key k); try done; try (by apply says_same).
  - cbn [fst]. case_match; [by apply says_same|done].
  - by destruct (commit t o).
Qed.

Lemma says_child st t o : says mute t (on_child_exit st t o).1.
Proof.
  unfold on_child_exit. set (t1 := fold_left _ _ t).
  assert (says mute t t1) as H1.
  { subst t1. generalize (seq 0 (length (tabs t))). intros l. revert t. induction l as [|i l IH]; intros t; [done|].
    cbn [fold_left]. etrans; [apply (says_pty mute t i try_reap), mute_reap|apply IH]. }
  assert (forall l t, says mute t (reap_closing l t).2) as H2.
  { clear. induction l as [|tb l IH]; intros t; [done|]. cbn [reap_closing].
    pose proof (says_ask mute (try_reap (t_pty tb)) t (mute_reap _)) as H1. destruct (ask _ t) as [[p got] t1]. cbn [snd] in H1.
    pose proof (IH t1) as H2. destruct (reap_closing l t1) as [l' t2]. etrans; [exact H1|exact H2]. }
  specialize (H2 (closing t1) t1). destruct (reap_closing _ t1) as [l t2]. etrans; [exact H1|exact H2].
Qed.

Lemma says_bar x t o : says mute t (bar_click amb x t o).1.
Proof.
  unfold bar_click. destruct (slot_at x _) as [s|]; [|done]. destruct (sl_kind s).
  - case_match; [by apply says_same|apply says_select].
  - apply says_close.
  - apply says_open.
  - by apply says_same.
Qed.

Lemma says_tab_key k t o to : tab_key k t o = Some to -> says mute t to.1.
Proof.
  unfold tab_key. repeat case_match; (intros [= <-] || intros [=]);
    first [apply says_open | apply says_close | apply says_select | by apply says_same].
Qed.

Lemma says_weaken W W' t t' : (forall q, W q -> W' q) -> says W t t' -> says W' t t'.
Proof. intros Hw (ext & E & Hs). exists ext. split; [done|]. eapply list.Forall_impl; [exact Hs|]. intros ev. apply Hw. Qed.

(** ** The theorem *)

(** What may be written, and to whom. *)
Definition may_write t (i : input) (fd : Z) (bs : bytes) : Prop :=
  let em := t_emu (active t) in
  match i with
  | IKey k => t_mode t = TNormal /\ exited (t_pty (active t)) = false /\ fd = master (t_pty (active t)) /\
      bs = encode_key k (cursor_keys_application (e_modes em)) /\ forall o, tab_key k t o = None
  | IMouse m => exited (t_pty (active t)) = false /\ fd = master (t_pty (active t)) /\ kBarRows <= m_y m /\ tracking (e_modes em) <> TrackNone /\
      bs = encode_mouse_sgr m (m_x m) (m_y m - kBarRows)
  | IPaste text _ => t_mode t = TNormal /\ exited (t_pty (active t)) = false /\ fd = master (t_pty (active t)) /\
      (bs = paste_open \/ bs = clean_paste text \/ bs = paste_close)
  | IIo token _ => exists n, index_of_token token (tabs t) 0 = Some n /\ fd = master (t_pty (tab_at t n))
  | _ => False
  end.

Definition allowed t (i : input) (q : request) : Prop := match q with QWrite fd bs => may_write t i fd bs | _ => True end.

Lemma mute_allowed t i q : mute q -> allowed t i q.
Proof. by destruct q. Qed.

Lemma says_guest W t i bs : (bs <> [] -> W (QWrite (master (t_pty (tab_at t i))) bs)) -> says W t (to_guest t i bs).
Proof.
  intros Hw. unfold to_guest. case_bool_decide as Hb; [done|]. case_match; [by apply says_same|].
  apply says_ask, asks_write. by apply Hw.
Qed.

Lemma active_put t tb : (active_ t < length (tabs t))%nat -> active (put_tab t (active_ t) tb) = tb.
Proof. apply tab_at_put. Qed.

Lemma on_history_active t f : (active_ t < length (tabs t))%nat -> t_pty (active (on_history t f)) = t_pty (active t) /\ e_modes (t_emu (active (on_history t f))) = e_modes (t_emu (active t)).
Proof. intros Ha. unfold on_history. by rewrite !active_put. Qed.

Lemma tab_key_all k t : (exists o, tab_key k t o = None) -> forall o : host A, tab_key k t o = None.
Proof. intros [o E] o'. revert E. unfold tab_key. by repeat case_match. Qed.

Lemma key_says k t o : (active_ t < length (tabs t))%nat -> says (allowed t (IKey k)) t (on_key k t o).1.
Proof.
  intros Ha. assert (forall t', says mute t t' -> says (allowed t (IKey k)) t t') as Hm by (intros t'; apply says_weaken, mute_allowed).
  unfold on_key. destruct (t_mode t) eqn:Em.
  - destruct (tab_key k t o) as [to|] eqn:Ek; [by apply Hm, (says_tab_key k t o)|].
    destruct (exited _) eqn:Ex; [done|]. destruct (history_key k t) as [t'|] eqn:Eh.
    { revert Eh. unfold history_key. repeat case_match; (intros [= <-] || intros [=]); by apply says_same. }
    case_bool_decide; [done|]. cbn [fst]. etrans; [by apply (says_same _ _ (on_history t scroll_to_bottom))|].
    apply says_guest. intros _. cbn [allowed may_write]. destruct (on_history_active t scroll_to_bottom Ha) as [E1 _].
    change (tab_at _ (active_ t)) with (active (on_history t scroll_to_bottom)). rewrite E1. split_and!; try done. by apply tab_key_all; exists o.
  - apply Hm, says_field, says_commit_rename.
  - apply Hm, says_field, says_commit_path.
Qed.

Lemma commit_rename_active t o : (active_ t < length (tabs t))%nat ->
  let t' := (commit_rename t o).1 in
  (active_ t' < length (tabs t'))%nat /\ t_pty (active t') = t_pty (active t) /\ t_emu (active t') = t_emu (active t).
Proof.
  intros Ha. unfold commit_rename. destruct (negb _); [done|]. cbv zeta. cbn [fst]. set (t1 := put_tab t (active_ t) _).
  assert (t_pty (active t1) = t_pty (active t) /\ t_emu (active t1) = t_emu (active t)) as [E1 E2] by (subst t1; by rewrite active_put).
  split; [|by split]. cbn. by rewrite length_insert.
Qed.

Lemma page_says m t t1 o : exited (t_pty (active t)) = false -> t_pty (active t1) = t_pty (active t) -> t_emu (active t1) = t_emu (active t) ->
  kBarRows <= m_y m -> says (allowed t (IMouse m)) t1 (page_mouse m t1 o).1.
Proof.
  intros Hx Ep Ee Hy. unfold page_mouse. rewrite Ee.
  assert (tracking (e_modes (t_emu (active t))) <> TrackNone ->
    says (allowed t (IMouse m)) t1 (to_guest t1 (active_ t1) (encode_mouse_sgr m (m_x m) (m_y m - kBarRows)))) as Hw.
  { intros Ht. apply says_guest. intros _. cbn [allowed may_write]. change (tab_at t1 (active_ t1)) with (active t1). by rewrite Ep. }
  repeat case_match; cbn [fst]; first [done | by apply says_same | apply Hw; congruence].
Qed.

Lemma mouse_says m t o : (active_ t < length (tabs t))%nat -> says (allowed t (IMouse m)) t (on_mouse amb m t o).1.
Proof.
  intros Ha. assert (forall t1 t2, says mute t1 t2 -> says (allowed t (IMouse m)) t1 t2) as Hm by (intros t1 t2; apply says_weaken, mute_allowed).
  unfold on_mouse. set (p := if bool_decide _ then _ else _).
  assert (says mute t p.1 /\ t_pty (active p.1) = t_pty (active t) /\ t_emu (active p.1) = t_emu (active t)) as (Hp & E1 & E2).
  { subst p. case_bool_decide; [|done]. pose proof (commit_rename_active t o Ha) as (_ & K1 & K2). pose proof (says_commit_rename t o) as K3.
    destruct (commit_rename t o) as [t1 o1]. cbn [fst] in *. rewrite <- K1, <- K2. split.
    - etrans; [exact K3|apply says_commit_path].
    - unfold commit_path_edit. by destruct (negb _). }
  destruct p as [t1 o1]. cbn [fst] in *. etrans; [by apply Hm|]. destruct (Z.ltb_spec (m_y m) kBarRows).
  - case_bool_decide; [apply Hm, says_bar|done].
  - rewrite E1. destruct (exited (t_pty (active t))) eqn:Ex; [done|]. by apply page_says.
Qed.

Lemma paste_normal text complete t o : t_mode t = TNormal -> exited (t_pty (active t)) = false ->
  on_paste text complete t o = (paste_piece text complete t, o).
Proof. intros Hm He. unfold on_paste. by rewrite Hm, He. Qed.

Lemma fields_active t t' : fields t' = fields t -> active_ t' = active_ t.
Proof. unfold fields. by intros [= _ -> _]. Qed.

(** The descriptor of the tab looked at, wherever a paste is. *)
Definition listening (fd : Z) t : Prop := (active_ t < length (tabs t))%nat /\ master (t_pty (active t)) = fd.

Lemma guest_listening fd t bs : listening fd t -> listening fd (to_guest t (active_ t) bs).
Proof.
  intros [Ha Hm]. pose proof (to_guest_touches (fun _ => True) t (active_ t) bs Ha (fun _ => I)) as Ht.
  pose proof (fields_active _ _ (to_fields _ _ _ _ Ht)) as Ea. pose proof (touches_fd _ _ _ _ Ht) as Ef. unfold listening.
  rewrite Ea, (to_len _ _ _ _ Ht). split; [done|]. rewrite <- Hm. unfold active. rewrite Ea. exact Ef.
Qed.

Lemma history_listening fd t f : listening fd t -> listening fd (on_history t f).
Proof. intros [Ha Hm]. split; [cbn; by rewrite length_insert|]. destruct (on_history_active t f Ha) as [-> _]. done. Qed.

Lemma guest_says W fd t bs : listening fd t -> W (QWrite fd bs) -> says W t (to_guest t (active_ t) bs).
Proof. intros [_ Hm] Hw. apply says_guest. intros _. change (tab_at t (active_ t)) with (active t). by rewrite Hm. Qed.

Lemma open_says t fd W : listening fd t -> W (QWrite fd paste_open) -> says W t (open_paste t) /\ listening fd (open_paste t).
Proof.
  intros Hl Hw. unfold open_paste. destruct (pasting t); [done|]. cbv zeta. set (t1 := Terminal _ _ _ _ _ _ _ _ _ _).
  destruct (paste_bracketed t1); [|split; [by apply says_same|exact Hl]]. split; [by apply (guest_says W fd t1)|by apply (guest_listening fd t1)].
Qed.

Lemma close_says t fd W : listening fd t -> W (QWrite fd paste_close) -> says W t (close_paste t).
Proof. intros Hl Hw. unfold close_paste. case_match; [by apply (guest_says W fd)|done]. Qed.

Lemma piece_says text complete t fd W : listening fd t ->
  (forall bs, bs = paste_open \/ bs = clean_paste text \/ bs = paste_close -> W (QWrite fd bs)) -> says W t (paste_piece text complete t).
Proof.
  intros Hl Hw. unfold paste_piece. cbv zeta. set (t1 := on_history t _). assert (listening fd t1) as H1 by by apply history_listening.
  destruct (open_says t1 fd W H1 ltac:(auto)) as [S2 H2]. set (t2 := open_paste t1) in *. set (t3 := {| t2 with pasting := negb complete |}).
  assert (listening fd t3) as H3 by exact H2. set (t4 := to_guest t3 _ _). assert (says W t3 t4) as S4 by (apply (guest_says W fd); auto).
  assert (listening fd t4) as H4 by by apply guest_listening.
  assert (says W t t4) as S by (etrans; [exact S2|exact S4]).
  destruct complete; [|exact S]. etrans; [exact S|]. apply (close_says t4 fd); auto.
Qed.

Lemma paste_says text complete t o : (active_ t < length (tabs t))%nat -> says (allowed t (IPaste text complete)) t (on_paste text complete t o).1.
Proof.
  intros Ha. destruct (t_mode t) eqn:Em.
  - destruct (exited (t_pty (active t))) eqn:Ex; [unfold on_paste; by rewrite Em, Ex|]. rewrite paste_normal by done. cbn [fst].
    apply (piece_says text complete t (master (t_pty (active t)))); [done|]. intros bs Hbs. by split_and!.
  - unfold on_paste. rewrite Em. by apply says_same.
  - unfold on_paste. rewrite Em. by apply says_same.
Qed.

Lemma io_says token ev t o : says (allowed t (IIo token ev)) t (fst (fst (on_io amb blocks token ev t o))).
Proof.
  unfold on_io. destruct (index_of_token token (tabs t) 0) as [i|] eqn:Ei; [|done].
  pose proof (index_of_token_bound _ _ _ _ Ei) as Hi. pose proof (drain_part amb blocks t o i ltac:(lia)) as [Ht _].
  destruct (drain _ _ _ _ _) as [[t' o'] closed]. cbn [fst] in *. apply (says_weaken (traffic (fd_of t i))).
  - intros []; cbn; try done. intros ->. by exists i.
  - apply Ht.
Qed.

(** A key for the guest is written to it, once. *)
Lemma key_typed k t o (bs := encode_key k (cursor_keys_application (e_modes (t_emu (active t))))) : (active_ t < length (tabs t))%nat ->
  t_mode t = TNormal -> exited (t_pty (active t)) = false -> tab_key k t o = None -> history_key k t = None ->
  0 <= master (t_pty (active t)) -> bs <> [] ->
  exists r, t_hist (on_key k t o).1 = t_hist t ++ [Event (QWrite (master (t_pty (active t))) bs) r].
Proof.
  intros Ha Em Ex Ek Eh Hm Hb. unfold on_key. rewrite Em, Ek, Ex, Eh. fold bs. rewrite bool_decide_false by done. cbn [fst].
  set (t1 := on_history t scroll_to_bottom). destruct (on_history_active t scroll_to_bottom Ha) as [E1 _]. fold t1 in E1.
  unfold to_guest. rewrite bool_decide_false by done. change (tab_at t1 (active_ t)) with (active t1). rewrite E1.
  zrw_false (master (t_pty (active t)) <? 0). rewrite ask_snd. unfold write. zrw_false (master (t_pty (active t)) <? 0). by eexists.
Qed.

(** C11: what a guest is told.  Whatever happens to a terminal, from a state with a tab
    looked at, nothing is written but: the encoding of a key, to the guest looked at and
    alive, out of any field, for a key that is no gesture of the tabs; the report of a
    pointer event under the bar, to the same, if it asked for them; a piece of a paste
    without its controls and its two brackets, to the same, out of any field; and, when
    the output of a guest is read, to that guest alone.  A size, an end of process, a
    click in the bar, what is typed in a field write nothing.  And a key that is neither
    a gesture of the tabs nor one of the history, and that has an encoding, is written to
    a guest alive that has its terminal, whole and once. *)
Theorem guests_hear_their_own t o i : (active_ t < length (tabs t))%nat ->
  exists ext, t_hist (take_input amb blocks (t, o) i).1 = t_hist t ++ ext /\ Forall (fun ev => allowed t i (ev_q ev)) ext /\
    forall k bs, i = IKey k -> bs = encode_key k (cursor_keys_application (e_modes (t_emu (active t)))) -> bs <> [] ->
      t_mode t = TNormal -> exited (t_pty (active t)) = false -> 0 <= master (t_pty (active t)) -> tab_key k t o = None -> history_key k t = None ->
      exists r, ext = [Event (QWrite (master (t_pty (active t))) bs) r].
Proof.
  intros Ha. assert (says (allowed t i) t (take_input amb blocks (t, o) i).1) as (ext & E & Hf).
  { destruct i; cbn [take_input].
    - by apply key_says.
    - by apply mouse_says.
    - by apply paste_says.
    - unfold on_resize. destruct (_ || _); [done|]. cbn [fst]. eapply says_weaken; [apply mute_allowed|].
      match goal with |- says _ _ (relayout ?t1) => change (says mute t1 (relayout t1)) end. apply says_relayout.
    - eapply says_weaken; [apply mute_allowed|]. apply says_child.
    - apply io_says. }
  exists ext. split_and!; [exact E|exact Hf|]. intros k bs -> -> Hb Em Ex Hm Ek Eh.
  destruct (key_typed k t o Ha Em Ex Ek Eh Hm Hb) as [r Er]. exists r. change (take_input amb blocks (t, o) (IKey k)) with (on_key k t o) in E.
  rewrite Er in E. by apply (inj _) in E.
Qed.

(** C12: a guest is alone in its tab.  What comes from a guest changes neither the other
    tabs, nor which is looked at, nor what is being typed or pasted; it makes requests on
    the descriptor of that guest only; and when another tab is looked at, the desktop is
    told to draw, and nothing else -- not even a title. *)
Theorem guest_is_alone_in_its_tab token ev t o :
  let r := fst (on_io amb blocks token ev t o) in
  match index_of_token token (tabs t) 0 with
  | None => r = (t, o)
  | Some n =>
      (forall m, m <> n -> tabs r.1 !! m = tabs t !! m) /\ fields r.1 = fields t /\
      t_custom (tab_at r.1 n) = t_custom (tab_at t n) /\
      (exists ext, t_hist r.1 = t_hist t ++ ext /\ Forall (fun e => traffic (master (t_pty (tab_at t n))) (ev_q e)) ext) /\
      (n <> active_ t -> r.2 = invalidate o)
  end.
Proof.
  cbv zeta. unfold on_io. destruct (index_of_token token (tabs t) 0) as [n|] eqn:Ei; [|done].
  pose proof (index_of_token_bound _ _ _ _ Ei) as Hi. pose proof (drain_part amb blocks t o n ltac:(lia)) as [Ht Hh].
  destruct (drain _ _ _ _ _) as [[t' o'] closed]. cbn [fst snd] in *. split_and!.
  - intros m Hm. by apply (to_others _ _ _ _ Ht).
  - apply (to_fields _ _ _ _ Ht).
  - apply (to_tab _ _ _ _ Ht).
  - apply (to_said _ _ _ _ Ht).
  - intros Hn. by rewrite Hh.
Qed.

(** ** A whole paste *)

(** The bytes written, in order. *)
Definition told (l : history) : bytes := mjoin (omap (fun ev => match ev_q ev with QWrite _ bs => Some bs | _ => None end) l).

Lemma told_snoc l fd bs r : told (l ++ [Event (QWrite fd bs) r]) = told l ++ bs.
Proof. unfold told. rewrite omap_app, join_app. cbn. by rewrite app_nil_r. Qed.

(** To a guest that has its terminal. *)
Definition hears t t' (bs : bytes) : Prop := exists l, t' = {| t with t_hist := l |} /\ told l = told (t_hist t) ++ bs.

Lemma guest_hears t bs : 0 <= master (t_pty (active t)) -> hears t (to_guest t (active_ t) bs) bs.
Proof.
  intros Hm. unfold to_guest. case_bool_decide as Hb; [exists (t_hist t); split; [by destruct t|by rewrite Hb, app_nil_r]|].
  change (tab_at t (active_ t)) with (active t). zrw_false (master (t_pty (active t)) <? 0). rewrite ask_snd. unfold write. zrw_false (master (t_pty (active t)) <? 0).
  eexists. split; [done|]. apply told_snoc.
Qed.

Fixpoint paste_pieces (pieces : list bytes) t : terminal :=
  match pieces with
  | [] => t
  | [last] => paste_piece last true t
  | p :: pieces => paste_pieces pieces (paste_piece p false t)
  end.

Lemma open_hears t : 0 <= master (t_pty (active t)) ->
  let framed := if pasting t then paste_bracketed t else bracketed_paste (e_modes (t_emu (active t))) in
  hears {| t with paste_bracketed := framed |} (open_paste t) (if negb (pasting t) && framed then paste_open else []).
Proof.
  destruct t as [ts cl act md [] br ed sz av l]; unfold open_paste; cbn [pasting paste_bracketed negb andb]; intros Hm; cbv zeta.
  - exists l. by rewrite app_nil_r.
  - set (b := bracketed_paste _). set (t1 := Terminal ts cl act md false b ed sz av l).
    change (hears t1 (if b then to_guest t1 (active_ t1) paste_open else t1) (if b then paste_open else [])).
    destruct b; [by apply guest_hears|]. exists l. by rewrite app_nil_r.
Qed.

Lemma close_hears t : 0 <= master (t_pty (active t)) -> hears t (close_paste t) (if paste_bracketed t then paste_close else []).
Proof.
  intros Hm. unfold close_paste. destruct (paste_bracketed t); [by apply guest_hears|].
  exists (t_hist t). rewrite app_nil_r. by destruct t.
Qed.

(** What one piece is for the guest, and what is left for the next. *)
Lemma piece_hears text complete t :
  (active_ t < length (tabs t))%nat -> 0 <= master (t_pty (active t)) ->
  let framed := if pasting t then paste_bracketed t else bracketed_paste (e_modes (t_emu (active t))) in
  let t' := paste_piece text complete t in
  told (t_hist t') = told (t_hist t) ++ (if negb (pasting t) && framed then paste_open else []) ++ clean_paste text ++
                     (if complete && framed then paste_close else []) /\
  (active_ t' < length (tabs t'))%nat /\ (t_pty (active t') = t_pty (active t) /\ t_mode t' = t_mode t) /\
  pasting t' = negb complete /\ paste_bracketed t' = framed.
Proof.
  intros Ha Hm. cbv zeta. unfold paste_piece. cbv zeta. set (t1 := on_history t scroll_to_bottom).
  destruct (on_history_active t scroll_to_bottom Ha) as [Ep Ee]. fold t1 in Ep, Ee.
  assert (active_ t1 < length (tabs t1))%nat as Ha1 by (cbn; by rewrite length_insert).
  destruct (open_hears t1) as (l2 & E2 & T2); [by rewrite Ep|]. cbv zeta in E2, T2. rewrite Ee in E2, T2.
  change (pasting t1) with (pasting t) in E2, T2. change (paste_bracketed t1) with (paste_bracketed t) in E2, T2.
  set (framed := if pasting t then _ else _) in *. rewrite E2. cbn [tabs closing active_ t_mode pasting paste_bracketed edit_ t_size argv_ t_hist] in *.
  set (t3 := Terminal _ _ _ _ _ _ _ _ _ _). change (t_hist t1) with (t_hist t) in T2.
  assert (active t3 = active t1) as E3 by done. assert (0 <= master (t_pty (active t3))) as H3 by by rewrite E3, Ep.
  destruct (guest_hears t3 (clean_paste text) H3) as (l4 & E4 & T4). change (t_hist t3) with l2 in T4. rewrite T2 in T4.
  change (to_guest t3 (active_ t3) (clean_paste text)) with (to_guest t3 (active_ t1) (clean_paste text)) in E4. set (t4 := to_guest t3 _ (clean_paste text)) in *.
  assert (active t4 = active t1 /\ active_ t4 = active_ t1 /\ tabs t4 = tabs t1 /\ pasting t4 = negb complete /\ paste_bracketed t4 = framed /\ t_hist t4 = l4 /\ t_mode t4 = t_mode t) as (F1 & F2 & F3 & F4 & F5 & F6 & F7) by by rewrite E4.
  clearbody t4. destruct complete; cbn [andb].
  - destruct (close_hears t4) as (l5 & E5 & T5); [by rewrite F1, Ep|]. rewrite E5. rewrite F5, F6, T4 in T5.
    cbn [tabs closing active_ t_mode pasting paste_bracketed edit_ t_size argv_ t_hist].
    rewrite T5, <- !app_assoc, F2, F3. split_and!; try done; first [exact Ep|exact F7].
  - rewrite F6, T4, app_nil_r, <- !app_assoc, F1, F2, F3, F7, Ep. done.
Qed.

(** The text a guest may see of a paste: no control but tabs and ends of lines. *)
Lemma clean_no_escape text : Forall (fun c => c <> 27) (clean_paste text).
Proof.
  unfold clean_paste. apply List.Forall_forall. intros c Hc. apply List.filter_In in Hc as [_ Hc]. unfold paste_char in Hc. intros ->. discriminate.
Qed.

Lemma clean_app a b : clean_paste (a ++ b) = clean_paste a ++ clean_paste b.
Proof. unfold clean_paste. apply List.filter_app. Qed.

(** The pieces that follow the first. *)
Lemma pieces_hear pieces : forall t, pieces <> [] -> (active_ t < length (tabs t))%nat -> 0 <= master (t_pty (active t)) -> pasting t = true ->
  told (t_hist (paste_pieces pieces t)) = told (t_hist t) ++ clean_paste (mjoin pieces) ++ (if paste_bracketed t then paste_close else []) /\
  pasting (paste_pieces pieces t) = false.
Proof.
  induction pieces as [|p [|q pieces] IH]; intros t Hp Ha Hm Hpa; [done| |].
  - cbn [paste_pieces]. destruct (piece_hears p true t Ha Hm) as (E & _ & _ & K & _). rewrite E, Hpa, K. cbn. by rewrite app_nil_r.
  - destruct (piece_hears p false t Ha Hm) as (E & K1 & [K2 _] & K3 & K4). rewrite Hpa in E, K4. cbn [negb andb app] in E.
    change (paste_pieces (p :: q :: pieces) t) with (paste_pieces (q :: pieces) (paste_piece p false t)).
    destruct (IH (paste_piece p false t)) as [E2 K]; [done|done|by rewrite K2|done|]. rewrite E2, E, K4, app_nil_r. split; [|done].
    cbn [mjoin list_join]. rewrite !clean_app. by rewrite <- !app_assoc.
Qed.

(** The events that bring the pieces of a paste. *)
Fixpoint pasted (pieces : list bytes) (p : terminal * host A) : terminal * host A :=
  match pieces with
  | [] => p
  | [last] => on_paste last true p.1 p.2
  | x :: pieces => pasted pieces (on_paste x false p.1 p.2)
  end.

(** To a guest alive and out of any field they are pieces for the guest. *)
Lemma pasted_pieces pieces : forall t o, (active_ t < length (tabs t))%nat -> 0 <= master (t_pty (active t)) ->
  t_mode t = TNormal -> exited (t_pty (active t)) = false -> pasted pieces (t, o) = (paste_pieces pieces t, o).
Proof.
  induction pieces as [|p [|q pieces] IH]; intros t o Ha Hm Em Ex; [done| |].
  - cbn [pasted fst snd]. unfold on_paste. by rewrite Em, Ex.
  - change (pasted (p :: q :: pieces) (t, o)) with (pasted (q :: pieces) (on_paste p false t o)). unfold on_paste. rewrite Em, Ex.
    destruct (piece_hears p false t Ha Hm) as (_ & K1 & [K2 K3] & _ & _). rewrite IH; [done|done|by rewrite K2|by rewrite K3|by rewrite K2].
Qed.


End Talk.

(** ** A terminal at work *)

Section Demo.

(** A system whose guest asks for bracketed pastes, then where its cursor is. *)
Definition asking_guest : bytes := [27] ++ str "[?2004h" ++ [27] ++ str "[6n".

#[local] Instance demo_system : System := {|
  answer := fun h q =>
    match q with
    | QOpenPt => RCount 5
    | QPtsName _ => RBytes (str "/dev/pts/0")
    | QPipe => RPair 6 7
    | QFork _ _ _ => RCount 42
    | QRead 5 _ => if bool_decide (Exists (fun ev => ev_q ev = QRead 5 8192) h) then RErr 11 else RBytes asking_guest
    | QRead _ _ => RBytes []
    | QWrite _ bs => RCount (zlen bs)
    | _ => ROk
    end;
  strerror := fun e => str "erreur " ++ to_string e;
  home_of_user := Some (str "/home");
  shell_of_user := Some (str "/bin/sh");
  environ := [];
  localdate := fun _ => None;
|}.

Definition demo_host : host unit :=
  Host 1 [] false false 16 [] [] [] [] (settings_new [] (str "/home") (Disk None None)) (Answers false 0 false false) (Disk None None).

(** Attached, then woken by its guest. *)
Definition demo_attached : terminal * host unit := attach (terminal_new [] []) demo_host.
Definition demo_token : Z := t_token (active demo_attached.1).
Definition demo_read : terminal * host unit := take_input false 4 demo_attached (IIo demo_token 1).

Lemma demo_answered : told (t_hist demo_read.1) = [27] ++ str "[1;1R" /\ bracketed_paste (e_modes (t_emu (active demo_read.1))) = true.
Proof. by vm_compute. Qed.

Lemma guests_hear_their_own_witness :
  (active_ demo_attached.1 < length (tabs demo_attached.1))%nat /\
  exists ext, t_hist (take_input false 4 (demo_attached.1, demo_attached.2) (IIo demo_token 1)).1 = t_hist demo_attached.1 ++ ext /\
    Forall (fun ev => allowed (A := unit) demo_attached.1 (IIo demo_token 1) (ev_q ev)) ext.
Proof.
  split; [apply (bool_decide_unpack _); by vm_compute|].
  destruct (guests_hear_their_own false 4 demo_attached.1 demo_attached.2 (IIo demo_token 1)) as (ext & E & Hf & _); [apply (bool_decide_unpack _); by vm_compute|].
  exists ext. split; [exact E|exact Hf].
Defined.


End Demo.
