(* ===== verification/Client.v ===== *)
(** * The client: [src/client/client.cpp], [src/client/tty_guard.cpp], [src/client/restart.cpp]

    The process in front of the user: it joins the daemon, puts the terminal in raw mode,
    carries the bytes typed one way and the frames the other, and gives the terminal
    back.  It asks the system what it asks, in order; the loops without end of the code
    take [turns] turns at most, of any value. *)

From S2P Require Import Prelude StdString Syscalls GuestEnv Cell Proto.

Definition STDIN : Z := 0.
Definition STDOUT : Z := 1.
Definition STDERR : Z := 2.
Definition EINTR : Z := 4.
Definition EAGAIN : Z := 11.
Definition POLLIN : Z := 1.
Definition POLLHUP : Z := 16.

(** ** The terminal of the user *)

Definition csi_private (n : bytes) (f : bytes) : bytes := 27 :: str "[?" ++ n ++ f.

Definition tty_setup_sequence : bytes :=
  csi_private (str "1049") (str "h") ++ csi_private (str "1002") (str "h") ++ csi_private (str "1006") (str "h") ++
  csi_private (str "2004") (str "h") ++ csi_private (str "1004") (str "h") ++ csi_private (str "7") (str "l").

Definition tty_restore_sequence : bytes :=
  csi_private (str "25") (str "h") ++ csi_private (str "7") (str "h") ++ csi_private (str "1004") (str "l") ++
  csi_private (str "2004") (str "l") ++ csi_private (str "1006") (str "l") ++ csi_private (str "1002") (str "l") ++
  csi_private (str "1049") (str "l").

(** The same, as the handler of the fatal signals writes it. *)
Definition kCrashRestoreLiteral : bytes :=
  [27] ++ str "[?25h" ++ [27] ++ str "[?7h" ++ [27] ++ str "[?1004l" ++ [27] ++ str "[?2004l" ++ [27] ++ str "[?1006l" ++
  [27] ++ str "[?1002l" ++ [27] ++ str "[?1049l".

(** ** Whether a restart is worth it *)

Record restart_budget := RestartBudget { b_max : Z; b_sterile : Z }.

Definition budget_new (max_sterile : Z) : restart_budget := RestartBudget max_sterile 0.

Definition allow_restart (b : restart_budget) (fruitful : bool) : bool * restart_budget :=
  if fruitful then (true, RestartBudget (b_max b) 0)
  else let s := b_sterile b + 1 in (s <? b_max b, RestartBudget (b_max b) s).

(** ** The session *)

Definition kConnectTimeoutMs : Z := 5000.
Definition kConnectRetryIntervalMs : Z := 25.
Definition kClientRestartRequested : Z := 64.
Definition kDetachReasonUpdate : bytes := str "mise a jour".
Definition kReadBytes : Z := 65536.
Definition kNameRoomBytes : nat := 108.

Record session_trace := SessionTrace { desktop_shown : bool; user_acted : bool }.

(** The variables of [run_client]. *)
Record client := Client { c_sock : Z; c_dec : decoder; c_rc : Z; c_trace : session_trace }.

Section Client.
Context `{System} (turns : nat) (grow : Z -> Z -> Z) (shrink : Z -> Z).

(** What [%s] prints of a string: up to its first null byte. *)
Fixpoint c_str (s : bytes) : bytes := match s with [] => [] | b :: s => if b =? 0 then [] else b :: c_str s end.

(** A message on the terminal, as one write. *)
Definition say (text : bytes) : io unit := let! _ := call (QWrite STDERR text) in ret tt.
Definition crlf : bytes := [13; 10].
Definition complain (what : bytes) : io unit := say (crlf ++ str "termos: " ++ what ++ crlf).

(** Every byte, or the errno of the write that failed.  A write of some bytes to a socket or
    a terminal takes one at least or fails: an answer it cannot give is read as a failure. *)
Fixpoint write_loop (fuel : nat) (fd : Z) (s : bytes) : io (result unit) :=
  match fuel, s with
  | O, _ | _, [] => ret (Done tt)
  | S fuel, _ =>
      let! r := sys_write fd s in
      match r with
      | Done n => write_loop fuel fd (drop (Z.to_nat n) s)
      | Error e => ret (Error e)
      end
  end.
Definition write_all (fd : Z) (s : bytes) : io (result unit) := write_loop (S (length s)) fd s.

(** *** Joining the daemon *)

(** A socket, or why there is none; out of turns, nothing. *)
Fixpoint connect_loop (fuel : nat) (name : bytes) (deadline timeout_ms : Z) : io (option (Z + bytes)) :=
  match fuel with
  | O => ret None
  | S fuel =>
      let! r := sys_open QSocket in
      match r with
      | Error e => ret (Some (inr (str "socket: " ++ strerror e)))
      | Done fd =>
          if (kNameRoomBytes <? length name + 1)%nat then
            let! _ := sys_close fd in ret (Some (inr (str "nom de socket trop long")))
          else
            let! r := attempt (QConnect fd name) in
            match r with
            | Done _ =>
                let! r := attempt (QBlocking fd) in
                match r with
                | Done _ => ret (Some (inl fd))
                | Error e => let! _ := sys_close fd in ret (Some (inr (str "fcntl F_SETFL: " ++ strerror e)))
                end
            | Error e =>
                if e =? EINTR then let! _ := sys_close fd in connect_loop fuel name deadline timeout_ms
                else if negb (e =? EAGAIN) then let! _ := sys_close fd in ret (Some (inr (str "connect: " ++ strerror e)))
                else
                  let! now := call QClock in
                  let now := match now with RCount n => n | _ => 0 end in
                  if deadline <=? now then
                    let! _ := sys_close fd in
                    ret (Some (inr (str "delai de connexion au demon depasse (" ++ to_string timeout_ms ++
                                    str " ms) : file d'attente du demon probablement pleine")))
                  else
                    let! _ := call (QSleep (Z.min (deadline - now) kConnectRetryIntervalMs)) in
                    let! _ := sys_close fd in
                    connect_loop fuel name deadline timeout_ms
            end
      end
  end.

Definition connect_with_timeout (name : bytes) (timeout_ms : Z) : io (option (Z + bytes)) :=
  let! now := call QClock in
  connect_loop turns name (match now with RCount n => n | _ => 0 end + timeout_ms) timeout_ms.

(** *** The terminal taken and given back *)

(** Whether it was taken. *)
Definition guard_enter (fd : Z) : io bool :=
  let! r := attempt (QTcGet fd) in
  match r with
  | Error _ => ret false
  | Done _ =>
      let! r := attempt (QTcRaw fd) in
      match r with
      | Error _ => ret false
      | Done _ => let! _ := write_all fd tty_setup_sequence in ret true
      end
  end.

Definition guard_leave (fd : Z) (armed : bool) : io unit :=
  if negb armed then ret tt
  else
    let! _ := write_all fd tty_restore_sequence in
    let! _ := call (QTcRestore fd) in
    ret tt.

(** What the handler of a fatal signal does, while the guard is armed. *)
Definition crash_restore (fd : Z) : io unit :=
  if fd <? 0 then ret tt
  else
    let! _ := write_all fd kCrashRestoreLiteral in
    let! _ := call (QTcRestore fd) in
    ret tt.

(** *** The greeting *)

Definition term_size (fd : Z) : io size :=
  let! r := call (QWinsizeOf fd) in
  ret (match r with RPair c r => if c =? 0 then Size 80 24 else Size c r | _ => Size 80 24 end).

(** [getenv]: the first entry of that name. *)
Definition getenv (k : bytes) : option bytes := env_get k (omap entry_of environ).

Definition collect_env_delta : list (bytes * bytes) :=
  omap (fun k => match getenv k with Some v => Some (k, v) | None => None end) kSessionVars.

Definition hello_of (sz : size) : hello :=
  let lang := match getenv (str "LC_ALL") with Some l => Some l | None => getenv (str "LANG") end in
  Hello kBuildId (to_u16 (w sz)) (to_u16 (h sz)) (default [] (getenv (str "TERM"))) (default [] (getenv (str "COLORTERM")))
    (match lang with Some l => match find_from l (str "UTF-8") 0 with Some _ => true | None => false end | None => false end)
    collect_env_delta.

(** *** One turn of the relay *)

Definition with_rc (c : client) (rc : Z) : client := {| c with c_rc := rc |}.

(** What a failed call says: the loop ends. *)
Definition broken (c : client) (what : bytes) (e : Z) : io (client * bool) :=
  let! _ := complain (what ++ str " : " ++ strerror e) in ret (with_rc c 1, true).

(** The new size of the window, if it has one. *)
Definition relay_size (c : client) : io (client * bool) :=
  let! r := call QResized in
  if (match r with RCount n => n =? 0 | _ => true end) then ret (c, false)
  else
    let! sz := term_size STDIN in
    let! r := write_all (c_sock c) (encode (MResize (to_u16 (w sz)) (to_u16 (h sz)))) in
    match r with Done _ => ret (c, false) | Error e => broken c (str "envoi du redimensionnement au demon impossible") e end.

(** What was typed. *)
Definition relay_input (c : client) : io (client * bool) :=
  let! r := sys_read STDIN kReadBytes in
  match r with
  | Error _ | Done [] => ret (c, true)
  | Done bs =>
      let! r := write_all (c_sock c) (encode (MInput bs)) in
      match r with
      | Error e => broken c (str "envoi de l'entree au demon impossible") e
      | Done _ => ret ({| c with c_trace := SessionTrace (desktop_shown (c_trace c)) true |}, false)
      end
  end.

(** The messages in the decoder, until one ends the session. *)
Fixpoint relay_messages (fuel : nat) (c : client) : io (client * bool) :=
  match fuel with
  | O => ret (c, false)
  | S fuel =>
      let '(m, d) := next shrink (c_dec c) in
      let c := {| c with c_dec := d |} in
      match m with
      | None => ret (c, false)
      | Some (MFrame ansi) =>
          let! r := write_all STDOUT ansi in
          match r with
          | Error e => broken c (str "ecriture vers stdout impossible") e
          | Done _ => relay_messages fuel {| c with c_trace := SessionTrace true (user_acted (c_trace c)) |}
          end
      | Some (MDetached reason) =>
          if bool_decide (reason = kDetachReasonUpdate) then ret (with_rc c kClientRestartRequested, true)
          else let! _ := complain (str "detache (" ++ c_str reason ++ str ")") in ret (c, true)
      | Some (MIncompatible reason) => let! _ := complain (c_str reason) in ret (with_rc c 1, true)
      | Some _ => relay_messages fuel c
      end
  end.

(** What the daemon sent. *)
Definition relay_daemon (c : client) : io (client * bool) :=
  let! r := sys_read (c_sock c) kReadBytes in
  match r with
  | Error e => broken c (str "lecture depuis le demon impossible") e
  | Done [] => let! _ := complain (str "le demon a ferme la connexion sans annoncer de detachement") in ret (with_rc c 1, true)
  | Done bs =>
      let d := Proto.feed grow shrink (c_dec c) bs in
      let! (c, stop) := relay_messages (S (length (buf d))) {| c with c_dec := d |} in
      if negb stop && failed (c_dec c) then
        let! _ := complain (str "message de protocole invalide recu du demon") in ret (with_rc c 1, true)
      else ret (c, stop)
  end.

Definition turn (c : client) : io (client * bool) :=
  let! (c, stop) := relay_size c in
  if stop then ret (c, true)
  else
    let! r := call (QPoll STDIN (c_sock c)) in
    match r with
    | RPair in_ sock =>
        let! (c, stop) := if negb (Z.land in_ POLLIN =? 0) then relay_input c else ret (c, false) in
        if stop then ret (c, true)
        else if negb (Z.land sock (Z.lor POLLIN POLLHUP) =? 0) then relay_daemon c else ret (c, false)
    | r => if errno_of r =? EINTR then ret (c, false) else broken c (str "poll() a echoue") (errno_of r)
    end.

Fixpoint relay (fuel : nat) (c : client) : io client :=
  match fuel with
  | O => ret c
  | S fuel => let! (c, stop) := turn c in if stop then ret c else relay fuel c
  end.

(** The session on a socket: the terminal is taken before the greeting and given back
    at the end of the function, whichever way it ends. *)
Definition session (sock : Z) : io (Z * session_trace) :=
  let! armed := guard_enter STDIN in
  let! sz := term_size STDIN in
  let! r := write_all sock (encode (MHello (hello_of sz))) in
  let! c :=
    match r with
    | Error _ => ret (Client sock decoder_init 1 (SessionTrace false false))
    | Done _ => relay turns (Client sock decoder_init 0 (SessionTrace false false))
    end in
  let! _ := guard_leave STDIN armed in
  let! _ := sys_close sock in
  ret (c_rc c, c_trace c).

Definition run_client (name : bytes) : io (Z * session_trace) :=
  let! r := connect_with_timeout name kConnectTimeoutMs in
  match r with
  | Some (inl sock) => session sock
  | Some (inr what) =>
      let! _ := say (str "termos: connexion au demon impossible : " ++ what ++ [10]) in ret (1, SessionTrace false false)
  | None => ret (1, SessionTrace false false)
  end.

End Client.
