(* ===== verification/ClientProps.v ===== *)
(** * What the client carries, and how it leaves the terminal *)

From S2P Require Import Prelude StdString Syscalls GuestEnv Cell Proto Client.

(** ** What a run leaves in the history *)

(** [m] leaves [k] behind, and its result and [k] satisfy [Q]. *)
Definition runs {B} (m : io B) (Q : B -> history -> Prop) : Prop := forall h, exists k, (m h).2 = h ++ k /\ Q (m h).1 k.

Lemma runs_ret {B} (b : B) (Q : B -> history -> Prop) : Q b [] -> runs (ret b) Q.
Proof. intros Hq h. exists []. by rewrite app_nil_r. Qed.

Lemma runs_bind {B C} (m : io B) (f : B -> io C) R Q :
  runs m R -> (forall b k, R b k -> runs (f b) (fun c k' => Q c (k ++ k'))) -> runs (bind m f) Q.
Proof.
  intros Hm Hf h. destruct (Hm h) as (k1 & E1 & R1). unfold bind. destruct (m h) as [b h1]. cbn [fst snd] in *. subst h1.
  destruct (Hf b k1 R1 (h ++ k1)) as (k2 & E2 & Q2). exists (k1 ++ k2). by rewrite E2, app_assoc.
Qed.

Lemma runs_weaken {B} (m : io B) (Q R : B -> history -> Prop) : runs m Q -> (forall b k, Q b k -> R b k) -> runs m R.
Proof. intros Hm Hq h. destruct (Hm h) as (k & E & Hk). exists k. split; [done|by apply Hq]. Qed.

Section Traffic.
Context `{System}.

Lemma runs_call q (Q : reply -> history -> Prop) : (forall r, Q r [Event q r]) -> runs (call q) Q.
Proof. intros Hq h. exists [Event q (answer h q)]. split; [done|apply Hq]. Qed.

Lemma runs_reply {B} q (f : reply -> B) (Q : B -> history -> Prop) : (forall r, Q (f r) [Event q r]) -> runs (let! r := call q in ret (f r)) Q.
Proof. intros Hq h. exists [Event q (answer h q)]. split; [done|apply Hq]. Qed.

(** What a write took, as the code reads it. *)
Definition took (bs : bytes) (r : reply) : result Z :=
  match r with RCount n => if (0 <? n) || (bool_decide (bs = []) && (n =? 0)) then Done (Z.min n (zlen bs)) else Error EIO | _ => Error (errno_of r) end.

Definition accepted (bs : bytes) (r : reply) : bytes := match took bs r with Done n => take (Z.to_nat n) bs | Error _ => [] end.

Definition out_event (fd : Z) (ev : event) : bytes :=
  match ev_q ev with QWrite x bs => if x =? fd then accepted bs (ev_r ev) else [] | _ => [] end.
Definition in_event (fd : Z) (ev : event) : bytes :=
  match ev_q ev with QRead x n => if x =? fd then match delivered n (ev_r ev) with Done bs => bs | Error _ => [] end else [] | _ => [] end.

(** The bytes a descriptor took, and gave. *)
Definition out (fd : Z) (l : history) : bytes := mjoin (out_event fd <$> l).
Definition inn (fd : Z) (l : history) : bytes := mjoin (in_event fd <$> l).

(** A write it would not take. *)
Definition refuses (fd : Z) (ev : event) : Prop :=
  exists bs e, ev_q ev = QWrite fd bs /\ took bs (ev_r ev) = Error e.
Definition refused (fd : Z) (l : history) : Prop := Exists (refuses fd) l.

Lemma out_app fd l1 l2 : out fd (l1 ++ l2) = out fd l1 ++ out fd l2.
Proof. unfold out. by rewrite fmap_app, join_app. Qed.
Lemma inn_app fd l1 l2 : inn fd (l1 ++ l2) = inn fd l1 ++ inn fd l2.
Proof. unfold inn. by rewrite fmap_app, join_app. Qed.
Lemma refused_app fd l1 l2 : refused fd l1 \/ refused fd l2 -> refused fd (l1 ++ l2).
Proof. intros. by apply Exists_app. Qed.

(** Writes on one descriptor. *)
Definition writes_on (fd : Z) (l : history) : Prop := Forall (fun ev => exists bs, ev_q ev = QWrite fd bs) l.

Lemma writes_out fd x l : writes_on fd l -> x <> fd -> out x l = [].
Proof.
  intros Hw Hx. unfold out. induction Hw as [|ev l (bs & E) _ IH]; [done|].
  change (out_event x ev ++ mjoin (out_event x <$> l) = []). rewrite IH, app_nil_r. unfold out_event. rewrite E.
  destruct (Z.eqb_spec fd x); [congruence|done].
Qed.
Lemma writes_inn fd x l : writes_on fd l -> inn x l = [].
Proof.
  intros Hw. unfold inn. induction Hw as [|ev l (bs & E) _ IH]; [done|].
  change (in_event x ev ++ mjoin (in_event x <$> l) = []). rewrite IH, app_nil_r. unfold in_event. by rewrite E.
Qed.

Lemma runs_write fd bs (Q : result Z -> history -> Prop) : (forall r, Q (took bs r) [Event (QWrite fd bs) r]) -> runs (sys_write fd bs) Q.
Proof. apply runs_reply. Qed.

Lemma out_write fd bs r : out fd [Event (QWrite fd bs) r] = accepted bs r.
Proof. unfold out. cbn. unfold out_event. cbn. by rewrite Z.eqb_refl, app_nil_r. Qed.

(** The whole of [s], or a part of it and a refusal. *)
Definition wrote (fd : Z) (s : bytes) (r : result unit) (k : history) : Prop :=
  writes_on fd k /\
  match r with Done _ => out fd k = s | Error _ => refused fd k /\ exists s', s = out fd k ++ s' end.

Lemma write_loop_runs fuel : forall fd s, (length s < fuel)%nat -> runs (write_loop fuel fd s) (wrote fd s).
Proof.
  induction fuel as [|fuel IH]; intros fd s Hf; [lia|]. cbn [write_loop]. destruct s as [|b s]; [apply runs_ret; split; [constructor|done]|].
  set (bs := b :: s) in *. apply (runs_bind _ _ (fun r k => exists rep, k = [Event (QWrite fd bs) rep] /\ r = took bs rep)).
  { apply runs_write. intros rep. by exists rep. }
  intros r k (rep & -> & ->). assert (writes_on fd [Event (QWrite fd bs) rep]) as Hw by (constructor; [by exists bs|done]).
  destruct (took bs rep) as [n|e] eqn:Et.
  - assert (1 <= Z.min n (zlen bs)) as Hn.
    { unfold took in Et. destruct rep; try done. revert Et. rewrite bool_decide_false by done. cbn [andb]. rewrite orb_false_r.
      destruct (Z.ltb_spec 0 n0); [intros [= <-]|done]. unfold bs. rewrite zlen_cons. pose proof (zlen_nonneg s). lia. }
    assert (n = Z.min n (zlen bs)) as En.
    { unfold took in Et. destruct rep; try done. destruct (_ || _); [injection Et as <-|done]. lia. }
    assert (accepted bs rep = take (Z.to_nat n) bs) as Ea by (unfold accepted; by rewrite Et).
    eapply runs_weaken; [apply IH; rewrite length_drop; unfold zlen in *; lia|].
    intros r k [Hk Hr]. split; [by apply Forall_app|]. rewrite out_app, out_write, Ea. destruct r as [|e].
    + by rewrite Hr, take_drop.
    + destruct Hr as [Hre (s' & E)]. split; [apply refused_app; by right|]. exists s'. by rewrite <- app_assoc, <- E, take_drop.
  - apply runs_ret. cbn [app]. split; [done|]. rewrite out_write. unfold accepted. rewrite Et. split; [|by exists bs].
    apply Exists_cons_hd. by exists bs, e.
Qed.

Lemma write_all_runs fd s : runs (write_all fd s) (wrote fd s).
Proof. apply write_loop_runs. lia. Qed.

Lemma say_runs text : runs (say text) (fun _ k => writes_on STDERR k).
Proof. unfold say. eapply runs_bind; [apply (runs_call _ (fun _ k => writes_on STDERR k)); intros r; constructor; [by exists text|done]|]. intros ? k Hk. apply runs_ret. by rewrite app_nil_r. Qed.

End Traffic.

(** ** A relay *)

(** What the frames of a session show: they stop at the message that ends it. *)
Definition last_message (m : msg) : bool := match m with MDetached _ | MIncompatible _ => true | _ => false end.
Fixpoint frames_shown (ms : list msg) : bytes :=
  match ms with
  | [] => []
  | MFrame a :: ms => a ++ frames_shown ms
  | m :: ms => if last_message m then [] else frames_shown ms
  end.

(** What the client says: sizes and what is typed. *)
Definition from_client (m : msg) : Prop := match m with MInput _ | MResize _ _ => True | _ => False end.
Definition typed (ms : list msg) : bytes := mjoin ((fun m => match m with MInput i => i | _ => [] end) <$> ms).
Definition encodings (ms : list msg) : bytes := mjoin (encode <$> ms).

(** All of it, or a part of it and a refusal. *)
Definition faithful (refusal : Prop) (got want : bytes) : Prop := got = want \/ refusal /\ exists rest, want = got ++ rest.

Lemma faithful_mono (R R' : Prop) got want : (R -> R') -> faithful R got want -> faithful R' got want.
Proof. intros Hr [->|[H E]]; [by left|right; auto]. Qed.

Lemma frames_app ms1 ms2 : existsb last_message ms1 = false -> frames_shown (ms1 ++ ms2) = frames_shown ms1 ++ frames_shown ms2.
Proof.
  induction ms1 as [|m ms1 IH]; intros He; [done|]. cbn in He. apply orb_false_iff in He as [Hm He].
  cbn [app frames_shown]. rewrite Hm, (IH He). destruct m; try done. by rewrite app_assoc.
Qed.

Lemma typed_app ms1 ms2 : typed (ms1 ++ ms2) = typed ms1 ++ typed ms2.
Proof. unfold typed. by rewrite fmap_app, join_app. Qed.
Lemma encodings_app ms1 ms2 : encodings (ms1 ++ ms2) = encodings ms1 ++ encodings ms2.
Proof. unfold encodings. by rewrite fmap_app, join_app. Qed.

Section Relay.
Context `{System} (turns : nat) (grow : Z -> Z -> Z) (shrink : Z -> Z) (sock : Z) (Hsock : 2 < sock).

(** Requests that carry nothing. *)
Definition idle_event (ev : event) : Prop :=
  match ev_q ev with QWrite fd _ => fd = STDERR | QRead _ _ => False | _ => True end.
Definition idle (k : history) : Prop := Forall idle_event k.

Lemma idle_out fd k : idle k -> fd <> STDERR -> out fd k = [].
Proof.
  intros Hk Hf. unfold out. induction Hk as [|ev l E _ IH]; [done|].
  change (out_event fd ev ++ mjoin (out_event fd <$> l) = []). rewrite IH, app_nil_r. unfold out_event, idle_event in *.
  destruct (ev_q ev); try done. destruct (Z.eqb_spec fd0 fd); [congruence|done].
Qed.
Lemma idle_inn fd k : idle k -> inn fd k = [].
Proof.
  intros Hk. unfold inn. induction Hk as [|ev l E _ IH]; [done|].
  change (in_event fd ev ++ mjoin (in_event fd <$> l) = []). rewrite IH, app_nil_r. unfold in_event, idle_event in *. by destruct (ev_q ev).
Qed.
Lemma writes_idle k : writes_on STDERR k -> idle k.
Proof. intros Hk. eapply list.Forall_impl; [exact Hk|]. intros ev (bs & E). unfold idle_event. by rewrite E. Qed.

Lemma complain_runs what : runs (complain what) (fun _ k => idle k).
Proof. eapply runs_weaken; [apply say_runs|]. intros ? k. apply writes_idle. Qed.

(** What was said to the daemon during [k]. *)
Definition carries (stop : bool) (k : history) : Prop :=
  exists ms, Forall from_client ms /\ typed ms = inn STDIN k /\
    if stop then faithful (refused sock k) (out sock k) (encodings ms) else out sock k = encodings ms.

(** The decoder and the terminal, when the daemon has sent [hd]. *)
Definition in_step (c : client) (hd sh : bytes) : Prop :=
  exists ms, decoder_ok (c_dec c) /\ parse hd = (ms, view (c_dec c)) /\ existsb last_message ms = false /\ sh = frames_shown ms.

Definition shown_right (refusal : Prop) (hd sh : bytes) : Prop := faithful refusal sh (frames_shown (parse hd).1).

Definition relays (c : client) (r : client * bool) (k : history) : Prop :=
  c_sock r.1 = sock /\ carries r.2 k /\
  forall hd sh, in_step c hd sh -> failed (c_dec c) = false ->
    if r.2 then shown_right (refused STDOUT k) (hd ++ inn sock k) (sh ++ out STDOUT k)
    else in_step r.1 (hd ++ inn sock k) (sh ++ out STDOUT k) /\ failed (c_dec r.1) = false.

Lemma in_step_right c hd sh R : in_step c hd sh -> shown_right R hd sh.
Proof. intros (ms & _ & E & _ & ->). left. by rewrite E. Qed.

Lemma carries_idle stop k : idle k -> carries stop k.
Proof.
  intros Hk. exists []. rewrite !idle_inn, idle_out by (try done; unfold STDERR; lia). split_and!; [constructor|done|]. destruct stop; [by left|done].
Qed.

(** Nothing said, nothing heard. *)
Lemma relays_idle c c' stop k : c_sock c' = sock -> idle k -> c_dec c' = c_dec c -> relays c (c', stop) k.
Proof.
  intros Hc Hk Ed. split_and!; [done|by apply carries_idle|]. intros hd sh Hj Hf. rewrite idle_inn, idle_out, !app_nil_r by done. cbn [fst snd].
  destruct stop; [by eapply in_step_right|]. unfold in_step. by rewrite Ed.
Qed.

(** The same, from what was sent and shown before. *)
Definition relayed (hd sh : bytes) (r : client * bool) (k : history) : Prop :=
  c_sock r.1 = sock /\ carries r.2 k /\
  if r.2 then shown_right (refused STDOUT k) (hd ++ inn sock k) (sh ++ out STDOUT k)
  else in_step r.1 (hd ++ inn sock k) (sh ++ out STDOUT k) /\ failed (c_dec r.1) = false.

Lemma relayed_app hd sh r k1 k2 : carries false k1 -> relayed (hd ++ inn sock k1) (sh ++ out STDOUT k1) r k2 -> relayed hd sh r (k1 ++ k2).
Proof.
  destruct r as [c' stop]. intros (ms1 & F1 & T1 & O1) (Hc & (ms2 & F2 & T2 & O2) & J). cbn [fst snd] in *. split_and!; [done| |].
  - exists (ms1 ++ ms2). rewrite typed_app, encodings_app, inn_app, out_app, T1, T2, O1. split_and!; [by apply Forall_app|done|]. cbn [snd].
    destruct stop; [|by rewrite O2]. destruct O2 as [->|[Hr [rest ->]]]; [by left|right]. split; [apply refused_app; by right|].
    exists rest. by rewrite app_assoc.
  - cbn [fst snd]. rewrite inn_app, out_app, !app_assoc. destruct stop; [|done]. destruct J as [->|[Hr Hp]]; [by left|right].
    split; [apply refused_app; by right|done].
Qed.

(** A part of a turn, then the rest if the session goes on. *)
Lemma relayed_bind hd sh (m : io (client * bool)) (f : client * bool -> io (client * bool)) :
  runs m (relayed hd sh) -> (forall c', runs (f (c', true)) (fun r k' => k' = [] /\ r = (c', true))) ->
  (forall c' hd sh, c_sock c' = sock -> in_step c' hd sh -> failed (c_dec c') = false -> runs (f (c', false)) (relayed hd sh)) ->
  runs (bind m f) (relayed hd sh).
Proof.
  intros Hm Ht Hf. eapply runs_bind; [exact Hm|]. intros [c' stop] k (Hc & Hk & Hj). destruct stop; cbn [fst snd] in *.
  - eapply runs_weaken; [apply Ht|]. intros r k' [-> ->]. rewrite app_nil_r. by split_and!.
  - destruct Hj as [Hj Hd]. eapply runs_weaken; [by apply (Hf c' _ _ Hc Hj Hd)|]. intros r k2 H2.
    by apply (relayed_app hd sh r k k2).
Qed.

Lemma relays_relayed c hd sh m : in_step c hd sh -> failed (c_dec c) = false -> runs m (relays c) -> runs m (relayed hd sh).
Proof. intros Hj Hf Hm. eapply runs_weaken; [exact Hm|]. intros r k (H1 & H2 & H3). split_and!; [done|done|by apply H3]. Qed.

(** One message said, after [k0] that brought what it carries. *)
Lemma relays_said c c' stop k0 k k1 m r : c_sock c' = sock -> from_client m ->
  out sock k0 = [] -> out STDOUT k0 = [] -> inn sock k0 = [] -> inn STDIN k0 = typed [m] ->
  wrote sock (encode m) r k -> (stop = false -> r = Done tt) -> idle k1 -> c_dec c' = c_dec c ->
  relays c (c', stop) (k0 ++ k ++ k1).
Proof.
  intros Hc Hm O0 P0 I0 T0 [Hk Hr] Hs H1 Ed. assert (sock <> STDERR /\ STDOUT <> STDERR /\ STDOUT <> sock) as (N1 & N2 & N3) by (unfold STDERR, STDOUT; lia).
  split_and!; [done| |].
  - exists [m]. rewrite !inn_app, !out_app, T0, O0, (writes_inn sock STDIN k Hk), idle_inn, (idle_out sock k1), !app_nil_r by done.
    split_and!; [by constructor|done|]. unfold encodings. cbn [app mjoin fmap list_fmap list_join]. rewrite app_nil_r. destruct r as [[]|e].
    + destruct stop; [by left|done].
    + destruct stop; [|by specialize (Hs eq_refl)]. right. split; [|apply Hr]. apply refused_app. right. apply refused_app. left. apply Hr.
  - intros hd sh Hj Hd. rewrite !inn_app, !out_app, P0, I0, (writes_inn sock sock k Hk), (writes_out sock STDOUT k Hk N3), idle_inn, (idle_out STDOUT k1) by done.
    cbn [app fst snd]. rewrite !app_nil_r. destruct stop; [by eapply in_step_right|]. unfold in_step. by rewrite Ed.
Qed.

Lemma broken_runs c what e : runs (broken c what e) (fun r k => idle k /\ r = (with_rc c 1, true)).
Proof. unfold broken. eapply runs_bind; [apply complain_runs|]. intros ? k Hk. apply runs_ret. by rewrite app_nil_r. Qed.

Lemma idle_call q : idle_event (Event q ROk) -> forall r, idle [Event q r].
Proof. intros Hq r. constructor; [exact Hq|constructor]. Qed.

Lemma term_size_runs fd : runs (term_size fd) (fun _ k => idle k).
Proof. apply runs_reply. intros r. by apply idle_call. Qed.

(** A message for the daemon, and what is said when it does not go. *)
Lemma send_runs c c' k0 m what : c_sock c = sock -> c_sock c' = sock -> from_client m ->
  out sock k0 = [] -> out STDOUT k0 = [] -> inn sock k0 = [] -> inn STDIN k0 = typed [m] -> c_dec c' = c_dec c ->
  runs (let! r := write_all sock (encode m) in match r with Done _ => ret (c', false) | Error e => broken c what e end)
       (fun r k => relays c r (k0 ++ k)).
Proof.
  intros Hc Hc' Hm O0 P0 I0 T0 Ed. eapply runs_bind; [apply write_all_runs|]. intros [[]|e] k Hk.
  - apply runs_ret. apply (relays_said c c' false k0 k [] m (Done tt)); try done. constructor.
  - eapply runs_weaken; [apply broken_runs|]. intros r k1 [H1 ->]. by apply (relays_said c (with_rc c 1) true k0 k k1 m (Error e)).
Qed.

Lemma relay_size_runs c : c_sock c = sock -> runs (relay_size c) (relays c).
Proof.
  intros Hc. unfold relay_size. rewrite Hc.
  eapply runs_bind; [apply (runs_call _ (fun _ k => idle k)); intros r; by apply idle_call|]. intros r k Hk.
  destruct (match r with RCount n => n =? 0 | _ => true end); [apply runs_ret; rewrite app_nil_r; by apply relays_idle|].
  eapply runs_bind; [apply term_size_runs|]. intros sz k1 Hk1. assert (idle (k ++ k1)) as Hi by by apply Forall_app.
  eapply runs_weaken; [apply (send_runs c c (k ++ k1) (MResize (to_u16 (w sz)) (to_u16 (h sz)))); try done|].
  - apply idle_out; [done|unfold STDERR; lia].
  - by apply idle_out.
  - by apply idle_inn.
  - by apply idle_inn.
  - intros r1 k2. by rewrite app_assoc.
Qed.

(** A read on [fd]. *)
Lemma read_runs fd n : runs (sys_read fd n) (fun r k => exists rep, k = [Event (QRead fd n) rep] /\ r = delivered n rep).
Proof. apply runs_reply. intros r. by exists r. Qed.

Lemma inn_read fd n rep : inn fd [Event (QRead fd n) rep] = match delivered n rep with Done bs => bs | Error _ => [] end.
Proof. unfold inn. change (in_event fd (Event (QRead fd n) rep) ++ [] = match delivered n rep with Done bs => bs | Error _ => [] end).
  rewrite app_nil_r. unfold in_event. cbn [ev_q ev_r]. by rewrite Z.eqb_refl. Qed.
Lemma inn_other fd x n rep : x <> fd -> inn x [Event (QRead fd n) rep] = [].
Proof. intros Hx. unfold inn. change (in_event x (Event (QRead fd n) rep) ++ [] = []). rewrite app_nil_r. unfold in_event. cbn [ev_q ev_r].
  destruct (Z.eqb_spec fd x); [congruence|done]. Qed.
Lemma out_read fd x n rep : out x [Event (QRead fd n) rep] = [].
Proof. done. Qed.

Lemma relay_input_runs c : c_sock c = sock -> runs (relay_input c) (relays c).
Proof.
  intros Hc. unfold relay_input. rewrite Hc. eapply runs_bind; [apply read_runs|]. intros r k (rep & -> & ->).
  pose proof (inn_read STDIN kReadBytes rep) as Ei. pose proof (inn_other STDIN sock kReadBytes rep ltac:(unfold STDIN; lia)) as Es.
  assert (forall stop, delivered kReadBytes rep = Done [] \/ (exists e, delivered kReadBytes rep = Error e) -> relays c (c, stop) [Event (QRead STDIN kReadBytes) rep]) as Hnone.
  { intros stop Hd. assert (inn STDIN [Event (QRead STDIN kReadBytes) rep] = []) as E0 by (rewrite Ei; by destruct Hd as [->|[e ->]]).
    split_and!; [done|exists []; rewrite E0; split_and!; [constructor|done|destruct stop; [by left|done]]|].
    intros hd sh Hj Hf. rewrite Es, out_read, !app_nil_r. destruct stop; [by eapply in_step_right|done]. }
  destruct (delivered kReadBytes rep) as [[|b bs]|e] eqn:Ed; [apply runs_ret; rewrite app_nil_r; apply Hnone; by left| |apply runs_ret; rewrite app_nil_r; apply Hnone; right; by exists e].
  eapply runs_weaken; [apply (send_runs c (Client sock (c_dec c) (c_rc c) (SessionTrace (desktop_shown (c_trace c)) true)) [Event (QRead STDIN kReadBytes) rep] (MInput (b :: bs)) (str "envoi de l'entree au demon impossible")); try done|done].
  rewrite Ei. unfold typed. cbn. by rewrite app_nil_r.
Qed.

(** *** The messages of the daemon *)

(** The decoder in the middle of its messages: [hd] sent, [sh] shown so far. *)
Definition midway (d : decoder) (hd sh : bytes) : Prop :=
  exists ms, decoder_ok d /\ parse hd = (let '(ms', o) := parse_view (view d) in (ms ++ ms', o)) /\
    existsb last_message ms = false /\ sh = frames_shown ms.

(** What the messages do to the terminal. *)
Definition tells (d : decoder) (r : client * bool) (k : history) : Prop :=
  c_sock r.1 = sock /\ out sock k = [] /\ inn sock k = [] /\ inn STDIN k = [] /\
  forall hd sh, midway d hd sh ->
    if r.2 then shown_right (refused STDOUT k) hd (sh ++ out STDOUT k) else in_step r.1 hd (sh ++ out STDOUT k).

Lemma next_parse d : decoder_ok d ->
  let '(om, d') := next shrink d in
  decoder_ok d' /\
  match om with
  | None => parse_view (view d) = ([], view d')
  | Some m => exists r, view d' = Some r /\ (length r < length (unread d))%nat /\
                parse_view (view d) = let '(ms, o) := parse r in (m :: ms, o)
  end.
Proof.
  intros Hd. unfold next. destruct (failed d) eqn:Hf; [split; [done|]; unfold view; by rewrite Hf|].
  pose proof (next_loop_parse shrink (S (length (buf d))) d Hd Hf ltac:(pose proof (length_unread d); lia)) as Hn.
  destruct (next_loop shrink _ d) as [[m|] d']; destruct Hn as [Hd' Hp]; (split; [done|]).
  - destruct Hp as (r & Hv & Hl & Hp). exists r. split_and!; try done. unfold view. by rewrite Hf.
  - unfold view at 1. by rewrite Hf.
Qed.

(** A message passed over, or shown. *)
Lemma midway_next d d' hd sh m a r : decoder_ok d' -> last_message m = false -> frames_shown [m] = a ->
  view d' = Some r -> parse_view (view d) = (let '(ms, o) := parse r in (m :: ms, o)) -> midway d hd sh -> midway d' hd (sh ++ a).
Proof.
  intros Hd Hm Ha Hv Hp (ms & _ & E & He & ->). exists (ms ++ [m]). rewrite Hp in E. rewrite Hv. cbn [parse_view].
  destruct (parse r) as [ms' o]. rewrite E, <- app_assoc. split_and!; try done.
  - rewrite existsb_app, He. cbn. by rewrite Hm.
  - by rewrite frames_app, Ha.
Qed.

(** A message that ends the session, or cannot be shown whole. *)
Lemma midway_last d hd sh m ms o : parse_view (view d) = (m :: ms, o) -> last_message m = true -> midway d hd sh ->
  frames_shown (parse hd).1 = sh.
Proof. intros Hp Hm (ms0 & _ & E & He & ->). rewrite E, Hp. cbn [fst]. rewrite frames_app by done. destruct m; try done; cbn; by rewrite app_nil_r. Qed.

Lemma midway_frame d hd sh a ms o : parse_view (view d) = (MFrame a :: ms, o) -> midway d hd sh ->
  frames_shown (parse hd).1 = sh ++ a ++ frames_shown ms.
Proof. intros Hp (ms0 & _ & E & He & ->). rewrite E, Hp. cbn [fst]. by rewrite frames_app. Qed.

Lemma tells_quiet d c (stop : bool) k : c_sock c = sock -> idle k ->
  (forall hd sh, midway d hd sh -> if stop then shown_right (refused STDOUT k) hd sh else in_step c hd sh) -> tells d (c, stop) k.
Proof.
  intros Hc Hk Hj. assert (STDOUT <> STDERR /\ sock <> STDERR) as [N1 N2] by (unfold STDOUT, STDERR; lia).
  split_and!; [done|by apply idle_out|by apply idle_inn|by apply idle_inn|]. intros hd sh Hm. rewrite idle_out, app_nil_r by done. by apply Hj.
Qed.

Lemma messages_runs fuel : forall c, c_sock c = sock -> decoder_ok (c_dec c) -> (length (unread (c_dec c)) < fuel)%nat ->
  runs (relay_messages shrink fuel c) (tells (c_dec c)).
Proof.
  induction fuel as [|fuel IH]; intros c Hc Hd Hf; [lia|]. cbn [relay_messages]. pose proof (next_parse (c_dec c) Hd) as Hn.
  destruct (next shrink (c_dec c)) as [[m|] d']; destruct Hn as [Hd' Hp].
  2:{ apply runs_ret. apply tells_quiet; [done|constructor|]. intros hd sh (ms & _ & E & He & ->). exists ms. rewrite Hp, app_nil_r in E. done. }
  destruct Hp as (rest & Hv & Hl & Hp). assert (length (unread d') < fuel)%nat as Hf' by (destruct (view_unread _ _ Hv) as [_ ->]; lia).
  assert (frames_shown [m] = [] -> last_message m = false ->
    runs (relay_messages shrink fuel (Client (c_sock c) d' (c_rc c) (c_trace c))) (tells (c_dec c))) as Hpass.
  { intros Ha Hm. eapply runs_weaken; [apply IH; [exact Hc|exact Hd'|exact Hf']|]. intros r k (T1 & T2 & T3 & T4 & T5). split_and!; try done.
    intros hd sh Hj. apply T5. pose proof (midway_next _ d' hd sh m [] rest Hd' Hm Ha Hv Hp Hj) as Hj'. by rewrite app_nil_r in Hj'. }
  assert (forall c' k, c_sock c' = sock -> last_message m = true -> idle k -> tells (c_dec c) (c', true) k) as Hlast.
  { intros c' k Hc' Hm Hk. apply tells_quiet; [done|done|]. intros hd sh Hj. left. destruct (parse rest) as [ms o].
    by rewrite (midway_last _ hd sh _ ms o Hp Hm Hj). }
  assert (forall c' what, c_sock c' = sock -> last_message m = true -> runs (let! _ := complain what in ret (c', true)) (tells (c_dec c))) as Hend.
  { intros c' what Hc' Hm. eapply runs_bind; [apply complain_runs|]. intros ? k Hk. apply runs_ret. rewrite app_nil_r. by apply Hlast. }
  destruct m as [hl| |reason|reason|i|zc zr|ansi]; try (by apply Hpass).
  - by apply Hend.
  - case_bool_decide; [apply runs_ret; apply Hlast; [exact Hc|done|constructor]|by apply Hend].
  - eapply runs_bind; [apply write_all_runs|]. intros r k [Hk Hr].
    assert (STDOUT <> sock) as N by (unfold STDOUT; lia). destruct r as [[]|e].
    + eapply runs_weaken; [apply IH; [exact Hc|exact Hd'|exact Hf']|]. intros r k2 (T1 & T2 & T3 & T4 & T5). cbn [c_dec] in T5.
      split_and!; [done|by rewrite out_app, (writes_out STDOUT sock k), T2|by rewrite inn_app, (writes_inn STDOUT sock k), T3|by rewrite inn_app, (writes_inn STDOUT STDIN k), T4|].
      intros hd sh Hj. pose proof (midway_next _ d' hd sh (MFrame ansi) ansi rest Hd' eq_refl ltac:(cbn; by rewrite app_nil_r) Hv Hp Hj) as Hj'.
      specialize (T5 _ _ Hj'). rewrite out_app, Hr, app_assoc. destruct r.2; [|done].
      destruct T5 as [->|[Hx Hy]]; [by left|right]. split; [apply refused_app; by right|done].
    + destruct Hr as [Hre (s' & Ea)]. eapply runs_weaken; [apply broken_runs|]. intros r k2 [Hk2 ->].
      assert (STDOUT <> STDERR /\ sock <> STDERR) as [N1 N2] by (unfold STDOUT, STDERR; lia).
      split_and!; [done|by rewrite out_app, (writes_out STDOUT sock k), idle_out|by rewrite inn_app, (writes_inn STDOUT sock k), idle_inn|by rewrite inn_app, (writes_inn STDOUT STDIN k), idle_inn|].
      intros hd sh Hj. cbn [snd]. right. split; [apply refused_app; by left|]. rewrite out_app, (idle_out STDOUT k2), app_nil_r by done.
      destruct (parse rest) as [ms o]. rewrite (midway_frame _ hd sh ansi ms o Hp Hj). exists (s' ++ frames_shown ms).
      rewrite Ea at 1. by rewrite <- !app_assoc.
Qed.

(** *** The turns *)

Lemma in_step_midway c hd sh bs : zlen bs <= 1024 * 1024 -> in_step c hd sh -> failed (c_dec c) = false ->
  let d := Proto.feed grow shrink (c_dec c) bs in decoder_ok d /\ midway d (hd ++ bs) sh.
Proof.
  intros Hb (ms & Hd & E & He & ->) Hf. unfold view in E. rewrite Hf in E. pose proof (parse_left _ _ _ E) as Hi. apply incomplete_short in Hi.
  destruct (feed_view grow shrink (c_dec c) bs Hd) as [Hd' Hv]; [intros _; unfold kMaxBufferBytes; lia|]. split; [done|].
  unfold view in Hv at 2. rewrite Hf in Hv. cbn [fmap option_fmap option_map] in Hv. exists ms. split_and!; try done.
  rewrite parse_app, E, Hv. done.
Qed.

Lemma relay_daemon_runs c hd sh : c_sock c = sock -> in_step c hd sh -> failed (c_dec c) = false ->
  runs (relay_daemon grow shrink c) (relayed hd sh).
Proof.
  intros Hc Hj Hf. unfold relay_daemon. rewrite Hc. eapply runs_bind; [apply read_runs|]. intros r k (rep & -> & ->).
  set (ev := Event (QRead sock kReadBytes) rep). pose proof (inn_read sock kReadBytes rep) as Ei. fold ev in Ei.
  assert (STDIN <> sock /\ STDOUT <> STDERR) as [N1 N2] by (unfold STDIN, STDOUT, STDERR; lia).
  pose proof (inn_other sock STDIN kReadBytes rep ltac:(done)) as Es. fold ev in Es.
  assert (out STDOUT [ev] = []) as Eo by done.
  assert (forall stop k, out sock k = [] -> inn STDIN k = [] -> carries stop ([ev] ++ k)) as Hcar.
  { intros stop k Ho Hn. exists []. rewrite inn_app, out_app, Es, Hn, Ho. split_and!; [constructor|done|destruct stop; [by left|done]]. }
  assert (forall c' k, c_sock c' = sock -> idle k -> inn sock [ev] = [] -> relayed hd sh (c', true) ([ev] ++ k)) as Hlost.
  { intros c' k Hc' Hk E0. split_and!; [done|apply Hcar; [apply idle_out; [done|unfold STDERR; lia]|by apply idle_inn]|].
    cbn [snd]. rewrite inn_app, out_app, E0, (idle_inn sock k Hk), Eo, (idle_out STDOUT k Hk N2), !app_nil_r. by eapply in_step_right. }
  assert (forall what, runs (let! _ := complain what in ret (with_rc c 1, true)) (fun r k => idle k /\ r = (with_rc c 1, true))) as Hsay.
  { intros what. eapply runs_bind; [apply complain_runs|]. intros ? k Hk. apply runs_ret. by rewrite app_nil_r. }
  destruct (delivered kReadBytes rep) as [[|b bs]|e] eqn:Ed.
  - eapply runs_weaken; [apply Hsay|]. intros r k [Hk ->]. by apply Hlost.
  - assert (zlen (b :: bs) <= 1024 * 1024) as Hb.
    { destruct rep; try done. cbn in Ed. injection Ed as Ed. rewrite <- Ed. unfold zlen. rewrite length_take. unfold kReadBytes. lia. }
    destruct (in_step_midway c hd sh (b :: bs) Hb Hj Hf) as [Hd Hm]. set (d := Proto.feed grow shrink (c_dec c) (b :: bs)) in *.
    eapply runs_bind; [apply messages_runs; [done|exact Hd|cbn [c_dec]; pose proof (length_unread d); lia]|].
    intros [c' stop] k (T1 & T2 & T3 & T4 & T5). cbn [c_dec fst snd] in *. specialize (T5 _ _ Hm).
    destruct stop; cbn [negb andb].
    + apply runs_ret. rewrite app_nil_r. split_and!; [done|by apply Hcar|]. cbn [snd]. rewrite inn_app, out_app, Ei, T3, Eo, app_nil_r, app_nil_l.
      eapply faithful_mono; [|exact T5]. intros Hx. apply refused_app. by right.
    + destruct (failed (c_dec c')) eqn:Ef.
      * eapply runs_bind; [apply complain_runs|]. intros ? k2 Hk2. apply runs_ret. rewrite app_nil_r.
        assert (sock <> STDERR) as N3 by (unfold STDERR; lia).
        split_and!; [done|apply Hcar; [by rewrite out_app, T2, (idle_out sock k2 Hk2 N3)|by rewrite inn_app, T4, (idle_inn STDIN k2 Hk2)]|].
        cbn [snd]. rewrite !inn_app, !out_app, Ei, T3, Eo, (idle_inn sock k2 Hk2), (idle_out STDOUT k2 Hk2 N2), !app_nil_r, app_nil_l.
        eapply in_step_right. exact T5.
      * apply runs_ret. rewrite app_nil_r. split_and!; [done|by apply Hcar|]. cbn [fst snd].
        by rewrite inn_app, out_app, Ei, T3, Eo, app_nil_r, app_nil_l.
  - eapply runs_weaken; [apply broken_runs|]. intros r k [Hk ->]. by apply Hlost.
Qed.

Lemma relayed_after hd sh r k1 k2 : idle k1 -> relayed hd sh r k2 -> relayed hd sh r (k1 ++ k2).
Proof.
  intros Hk H2. assert (sock <> STDERR /\ STDOUT <> STDERR) as [N1 N2] by (unfold STDERR, STDOUT; lia).
  apply relayed_app; [by apply carries_idle|]. by rewrite idle_inn, (idle_out STDOUT), !app_nil_r.
Qed.

Lemma relayed_still hd sh c : c_sock c = sock -> in_step c hd sh -> failed (c_dec c) = false -> relayed hd sh (c, false) [].
Proof. intros Hc Hj Hf. split_and!; [done|apply carries_idle; constructor|]. cbn [snd fst]. by rewrite !app_nil_r. Qed.

Lemma stopped c' : runs (ret (c', true)) (fun (r : client * bool) (k' : history) => k' = [] /\ r = (c', true)).
Proof. by apply runs_ret. Qed.

Lemma turn_runs c hd sh : c_sock c = sock -> in_step c hd sh -> failed (c_dec c) = false -> runs (turn grow shrink c) (relayed hd sh).
Proof.
  intros Hc Hj Hf. unfold turn. apply relayed_bind; [by apply (relays_relayed c), relay_size_runs|apply stopped|].
  clear c Hc hd sh Hj Hf. intros c hd sh Hc Hj Hf. cbn iota.
  eapply runs_bind; [apply (runs_call _ (fun _ k => idle k)); intros r; by apply idle_call|]. intros r k Hk.
  assert (forall r, runs (if errno_of r =? EINTR then ret (c, false) else broken c (str "poll() a echoue") (errno_of r)) (relayed hd sh)) as Herr.
  { intros r0. case_match; [apply runs_ret; by apply relayed_still|]. eapply runs_weaken; [apply broken_runs|]. intros r1 k1 [Hk1 ->].
    split_and!; [done|by apply carries_idle|]. cbn [snd]. assert (STDOUT <> STDERR) as N by (unfold STDOUT, STDERR; lia).
    rewrite idle_inn, idle_out, !app_nil_r by done. by eapply in_step_right. }
  assert (runs (match r with
    | RPair in_ rsock =>
        let! (c, stop) := if negb (Z.land in_ POLLIN =? 0) then relay_input c else ret (c, false) in
        if stop then ret (c, true)
        else if negb (Z.land rsock (Z.lor POLLIN POLLHUP) =? 0) then relay_daemon grow shrink c else ret (c, false)
    | r => if errno_of r =? EINTR then ret (c, false) else broken c (str "poll() a echoue") (errno_of r)
    end) (relayed hd sh)) as Hall.
  { destruct r as [| | | | | |in_ rsock|]; try apply Herr. apply relayed_bind; [|apply stopped|].
    - case_match; [by apply (relays_relayed c), relay_input_runs|]. apply runs_ret. by apply relayed_still.
    - clear -Hsock. intros c hd sh Hc Hj Hf. cbn iota. case_match; [by apply relay_daemon_runs|]. apply runs_ret. by apply relayed_still. }
  eapply runs_weaken; [exact Hall|]. intros r1 k1. by apply relayed_after.
Qed.

Lemma relay_runs fuel : forall c hd sh, c_sock c = sock -> in_step c hd sh -> failed (c_dec c) = false ->
  runs (relay grow shrink fuel c) (fun c' k => exists stop, relayed hd sh (c', stop) k).
Proof.
  induction fuel as [|fuel IH]; intros c hd sh Hc Hj Hf; [apply runs_ret; exists false; by apply relayed_still|]. cbn [relay].
  eapply runs_bind; [by apply turn_runs|]. intros [c' stop] k Hk. destruct stop.
  - apply runs_ret. exists true. by rewrite app_nil_r.
  - destruct Hk as (Hc' & Hk & Hj' & Hf'). cbn [fst snd] in *. eapply runs_weaken; [by apply IH|]. intros c2 k2 [stop H2].
    exists stop. by apply relayed_app.
Qed.

(** ** A whole session *)

(** Nothing of what is typed, shown or exchanged with the daemon. *)
Definition apart (k : history) : Prop := out STDOUT k = [] /\ out sock k = [] /\ inn sock k = [] /\ inn STDIN k = [].

Lemma apart_app k1 k2 : apart k1 -> apart k2 -> apart (k1 ++ k2).
Proof. intros (A1 & A2 & A3 & A4) (B1 & B2 & B3 & B4). unfold apart. by rewrite !out_app, !inn_app, A1, A2, A3, A4, B1, B2, B3, B4. Qed.

Lemma apart_idle k : idle k -> apart k.
Proof.
  intros Hk. assert (sock <> STDERR /\ STDOUT <> STDERR) as [N1 N2] by (unfold STDERR, STDOUT; lia).
  unfold apart. by rewrite !idle_inn, !idle_out.
Qed.

Lemma apart_writes k : writes_on STDIN k -> apart k.
Proof.
  intros Hk. assert (sock <> STDIN /\ STDOUT <> STDIN) as [N1 N2] by (unfold STDIN, STDOUT; lia).
  unfold apart. by rewrite !(writes_out STDIN _ k Hk), !(writes_inn STDIN _ k Hk).
Qed.

Lemma attempt_runs q : idle_event (Event q ROk) -> runs (attempt q) (fun _ k => idle k).
Proof. intros Hq. apply runs_reply. intros r. by apply idle_call. Qed.

Lemma guard_enter_runs : runs (guard_enter STDIN) (fun _ k => apart k).
Proof.
  unfold guard_enter. eapply runs_bind; [by apply attempt_runs|]. intros r k Hk. destruct r; [|apply runs_ret; rewrite app_nil_r; by apply apart_idle].
  eapply runs_bind; [by apply attempt_runs|]. intros r k1 Hk1. destruct r; [|apply runs_ret; rewrite app_nil_r; by apply apart_idle, Forall_app].
  eapply runs_bind; [apply write_all_runs|]. intros r k2 [Hk2 _]. apply runs_ret. rewrite app_nil_r.
  apply apart_app; [by apply apart_idle|]. apply apart_app; [by apply apart_idle|by apply apart_writes].
Qed.

Lemma guard_leave_runs armed : runs (guard_leave STDIN armed) (fun _ k => apart k).
Proof.
  unfold guard_leave. destruct armed; [|apply runs_ret; apply apart_idle; constructor]. cbn [negb].
  eapply runs_bind; [apply write_all_runs|]. intros r k [Hk _]. eapply runs_bind; [apply (runs_call _ (fun _ k => idle k)); intros r1; by apply idle_call|].
  intros r1 k1 Hk1. apply runs_ret. rewrite app_nil_r. apply apart_app; [by apply apart_writes|by apply apart_idle].
Qed.


End Relay.

(** ** A session *)

Section Demo.

(** A daemon that shows one frame and detaches; two keys are typed before. *)
#[local] Instance demo_system : System := {|
  answer := fun h q =>
    match q with
    | QResized => RCount 0
    | QWinsizeOf _ => RPair 80 24
    | QPoll _ _ => if bool_decide (Exists (fun ev => ev_q ev = QRead 0 kReadBytes) h) then RPair 0 1 else RPair 1 0
    | QRead 0 _ => RBytes (str "ls")
    | QRead _ _ => RBytes (encode (MFrame (str "bureau")) ++ encode (MDetached kDetachReasonUpdate))
    | QWrite _ bs => RCount (zlen bs)
    | _ => ROk
    end;
  strerror := fun e => str "erreur " ++ to_string e;
  home_of_user := Some (str "/home");
  shell_of_user := Some (str "/bin/sh");
  environ := [];
  localdate := fun _ => None;
|}.

Definition demo_session : (Z * session_trace) * history := session 5 (fun _ n => n) (fun c => c) 5 [].

Lemma demo_restarts : demo_session.1 = (kClientRestartRequested, SessionTrace true true).
Proof. by vm_compute. Qed.


End Demo.
