(* ===== verification/ClientTerminal.v ===== *)
(** * The terminal of the user, given back

    Whatever ends a session, the terminal is restored by the last requests of the
    client; and, read by the emulator of this same program, what is written then undoes
    what was set up, whatever was shown in between and wherever it was cut. *)

From S2P Require Import Prelude StdString Syscalls GuestEnv Cell Proto Client ClientProps.
From S2P Require VtParser VtModes Screen Scrollback Emulator Frames.

Section Back.
Context `{System} (turns : nat) (grow : Z -> Z -> Z) (shrink : Z -> Z).

(** The restoring bytes, whole or up to a refusal, then the old settings. *)
Definition gives_back (k : history) : Prop :=
  exists k1 r, k = k1 ++ [Event (QTcRestore STDIN) r] /\ writes_on STDIN k1 /\
    faithful (refused STDIN k1) (out STDIN k1) tty_restore_sequence.

Definition took_terminal (k : history) : Prop := In (Event (QTcRaw STDIN) ROk) k.

Lemma restore_runs s : s = tty_restore_sequence ->
  runs (let! _ := write_all STDIN s in let! _ := call (QTcRestore STDIN) in ret tt) (fun _ k => gives_back k).
Proof.
  intros ->. eapply runs_bind; [apply write_all_runs|]. intros r k [Hk Hr].
  eapply runs_bind; [apply (runs_call _ (fun _ k => exists r, k = [Event (QTcRestore STDIN) r])); intros r1; by exists r1|].
  intros ? k1 [r1 ->]. apply runs_ret. rewrite app_nil_r. exists k, r1. split_and!; try done.
  destruct r as [u|e]; [left; exact Hr|right; exact Hr].
Qed.

(** Requests that do not take the terminal. *)
Definition plain_request (q : request) : Prop := match q with QTcRaw _ => False | _ => True end.
Definition plain (k : history) : Prop := Forall (fun ev => plain_request (ev_q ev)) k.

Lemma plain_takes_nothing k : plain k -> ~ took_terminal k.
Proof. intros Hk Hin. apply (proj1 (List.Forall_forall _ _) Hk) in Hin. exact Hin. Qed.

Lemma plain_call q : plain_request q -> runs (call q) (fun _ k => plain k).
Proof. intros Hq. apply runs_call. intros r. constructor; [exact Hq|constructor]. Qed.

Lemma plain_then {B C} (m : io B) (f : B -> io C) : runs m (fun _ k => plain k) -> (forall b, runs (f b) (fun _ k => plain k)) -> runs (bind m f) (fun _ k => plain k).
Proof. intros Hm Hf. eapply runs_bind; [exact Hm|]. intros b k Hk. eapply runs_weaken; [apply Hf|]. intros c k1 Hk1. by apply Forall_app. Qed.

Lemma plain_ret {B} (b : B) : runs (ret b) (fun _ k => plain k).
Proof. apply runs_ret. constructor. Qed.

Create HintDb plain.
Hint Resolve plain_ret : plain.
Hint Extern 1 (runs (call _) _) => (apply plain_call; exact I) : plain.
Ltac plainly := repeat first [by eauto with plain | apply plain_then; [|intros ?] | case_match].

Lemma plain_write_loop fuel : forall fd s, runs (write_loop fuel fd s) (fun _ k => plain k).
Proof. induction fuel as [|fuel IH]; intros fd s; cbn [write_loop]; [apply plain_ret|]. unfold sys_write. destruct s; plainly. Qed.
Lemma plain_write fd s : runs (write_all fd s) (fun _ k => plain k).
Proof. apply plain_write_loop. Qed.
Lemma plain_size fd : runs (term_size fd) (fun _ k => plain k).
Proof. unfold term_size. plainly. Qed.
Lemma plain_complain what : runs (complain what) (fun _ k => plain k).
Proof. unfold complain, say. plainly. Qed.
Hint Resolve plain_write plain_size plain_complain : plain.

Lemma plain_messages fuel : forall c, runs (relay_messages shrink fuel c) (fun _ k => plain k).
Proof. induction fuel as [|fuel IH]; intros c; cbn [relay_messages]; [apply plain_ret|]. unfold broken. plainly. Qed.
Hint Resolve plain_messages : plain.

Lemma plain_turn c : runs (turn grow shrink c) (fun _ k => plain k).
Proof. unfold turn, relay_size, relay_input, relay_daemon, sys_read, broken. plainly. Qed.
Hint Resolve plain_turn : plain.

Lemma plain_relay fuel : forall c, runs (relay grow shrink fuel c) (fun _ k => plain k).
Proof. induction fuel as [|fuel IH]; intros c; cbn [relay]; [apply plain_ret|]. plainly. Qed.

Lemma enter_runs : runs (guard_enter STDIN) (fun armed k => took_terminal k -> armed = true).
Proof.
  unfold guard_enter, attempt. eapply runs_bind; [apply (runs_reply (QTcGet STDIN) _ (fun _ k => plain k)); intros r; constructor; [done|constructor]|].
  intros r k Hk. destruct r; [|apply runs_ret; rewrite app_nil_r; intros Ht; by apply (plain_takes_nothing k Hk) in Ht].
  eapply runs_bind; [apply (runs_reply (QTcRaw STDIN) _ (fun b k => b = match k with [Event _ ROk] => Done tt | [Event _ r] => Error (errno_of r) | _ => b end /\ exists r, k = [Event (QTcRaw STDIN) r]))|].
  { intros r. split; [by destruct r|by exists r]. }
  intros r k1 [Er [rep ->]]. destruct r as [u|e].
  - eapply runs_bind; [apply plain_write|]. intros r k2 _. by apply runs_ret.
  - apply runs_ret. rewrite app_nil_r. intros Ht. unfold took_terminal in Ht. apply in_app_iff in Ht as [Ht|[Ht|[]]]; [by apply (plain_takes_nothing k Hk) in Ht|].
    injection Ht as ->. done.
Qed.

(** The last requests of a session that took the terminal, and of the handler. *)
Lemma session_gives_back sock h :
  (exists k, (session turns grow shrink sock h).2 = h ++ k /\
    (took_terminal k -> exists k1 k2 r, k = k1 ++ k2 ++ [Event (QClose sock) r] /\ gives_back k2)) /\
  (exists k, (crash_restore STDIN h).2 = h ++ k /\ gives_back k).
Proof.
  split; revert h.
  - change (runs (session turns grow shrink sock) (fun _ k => took_terminal k -> exists k1 k2 r, k = k1 ++ k2 ++ [Event (QClose sock) r] /\ gives_back k2)).
    unfold session. eapply runs_bind; [apply enter_runs|]. intros armed k0 H0.
    eapply runs_bind; [apply plain_size|]. intros sz k1 H1. eapply runs_bind; [apply plain_write|]. intros r k2 H2.
    eapply runs_bind; [instantiate (1 := fun _ k => plain k); destruct r; [apply plain_relay|apply plain_ret]|]. intros c k3 H3.
    eapply runs_bind; [instantiate (1 := fun _ k => if armed then gives_back k else k = [])|].
    { unfold guard_leave. destruct armed; cbn [negb]; [by apply restore_runs|by apply runs_ret]. }
    intros ? k4 H4. eapply runs_bind; [instantiate (1 := fun _ k => exists r, k = [Event (QClose sock) r])|].
    { unfold sys_close. eapply runs_bind; [apply (runs_call _ (fun _ k => exists r, k = [Event (QClose sock) r])); intros r1; by exists r1|].
      intros ? k Hk. apply runs_ret. by rewrite app_nil_r. }
    intros ? k5 [r5 ->]. apply runs_ret. rewrite app_nil_r. intros Ht. destruct armed.
    + exists (k0 ++ k1 ++ k2 ++ k3), k4, r5. split; [by rewrite <- !app_assoc|done].
    + exfalso. subst k4. unfold took_terminal in Ht. rewrite !in_app_iff in Ht.
      destruct Ht as [Ht|[Ht|[Ht|[Ht|[[]|[Ht|[]]]]]]]; [by specialize (H0 Ht)|by apply (plain_takes_nothing k1 H1) in Ht|by apply (plain_takes_nothing k2 H2) in Ht|by apply (plain_takes_nothing k3 H3) in Ht|done].
  - change (runs (crash_restore STDIN) (fun _ k => gives_back k)). unfold crash_restore. by apply restore_runs.
Qed.

End Back.

(** ** What the terminal makes of it *)

Section Sane.
Import VtParser VtModes Screen Emulator.
Context (amb : bool).

Definition sound (pt : parser * emu) : Prop := parser_ok pt.1 /\ flags_ok pt.2 /\ geometry_ok (e_screen pt.2).

(** Between two sequences, with these modes. *)
Definition resting (m : modes) (pt : parser * emu) : Prop := sound pt /\ idle pt.1 /\ e_modes pt.2 = m.

Lemma sound_feed pt s : sound pt -> bytes_ok s -> sound (emu_feed amb pt s).
Proof.
  intros (Hp & Hf & Hg) Hs. unfold emu_feed. destruct (feed_keeps_ok pt.1 s Hp Hs) as [Hp' _]. destruct (feed pt.1 s) as [p' es].
  split; [exact Hp'|by apply events_keep].
Qed.

Lemma sound_new capacity : sound (parser_init, emu_new capacity).
Proof.
  split; [apply parser_init_ok|]. split; [done|]. cbn. destruct (geometry_new 80 24) as (? & ? & ? & ? & ? & ? & ? & ? & _).
  unfold geometry_ok. split_and!; try done. apply Scrollback.scrollback_new_ok.
Qed.

(** A private mode set or reset, wherever the stream was. *)
Lemma private_fed pt n (on : bool) (f := if on then 104 else 108) :
  sound pt -> 0 <= n <= 65535 -> bytes_ok (print_csi (Some 63) [Param n false] [] f) ->
  exists m, resting (set_mode m n on) (emu_feed amb pt (print_csi (Some 63) [Param n false] [] f)) /\ (idle pt.1 -> m = e_modes pt.2).
Proof.
  intros Hs Hn Hb. pose proof (sound_feed pt _ Hs Hb) as Hs'. destruct Hs as (Hp & Hf & Hg). destruct pt as [p t]. cbn [fst snd] in *.
  assert (csi_wf (Some 63) [Param n false] [] f) as Hw.
  { unfold csi_wf, params_wf, param_ok. cbn. unfold kMaxParams, kMaxIntermediates, f. split_and!; try done; try lia; [|by destruct on]. apply list.Forall_singleton. cbn. unfold kMaxParamValue. lia. }
  destruct (feed_csi p (Some 63) [Param n false] [] f Hp Hw) as (a & sn & mn & Hr). unfold resting, emu_feed in *. cbn [fst snd] in *.
  rewrite Hr in *. cbn [app] in *.
  exists (e_modes (emu_events amb t (step p 27).2)). split_and!; try done.
  - cbn [snd]. unfold emu_events. rewrite fold_left_app. cbn [fold_left emu_event app].
    set (t0 := fold_left _ _ t). assert (geometry_ok (e_screen t0)) as Hg0 by (by apply (events_keep amb _ t)).
    unfold emu_csi. replace (reply_for_csi _ [63] f _ _ _) with (@nil Z) by (by destruct on). cbn [negb bool_decide].
    destruct (sync_modes_ok amb t0 (set_mode (e_modes t0) n on) Hg0) as (_ & _ & E). by destruct on.
  - intros [Es En]. destruct p as [st ps i o ac nd lo hi]. cbn in Es, En. by subst.
Qed.

(** What the restoring sequence makes of any modes. *)
Definition restored (m : modes) : modes :=
  set_mode (set_mode (set_mode (set_mode (set_mode (set_mode (set_mode m 25 true) 7 true) 1004 false) 2004 false) 1006 false) 1002 false) 1049 false.

Lemma restore_fed pt : sound pt -> exists m, resting (restored m) (emu_feed amb pt tty_restore_sequence) /\ (idle pt.1 -> m = e_modes pt.2).
Proof.
  intros Hs.
  destruct (private_fed pt 25 true Hs ltac:(lia) ltac:(apply (bool_decide_unpack _); by vm_compute)) as (m & R0 & Hm).
  exists m. split; [|exact Hm]. clear Hm Hs.
  assert (forall m pt n (on : bool), resting m pt -> 0 <= n <= 65535 -> bytes_ok (print_csi (Some 63) [Param n false] [] (if on then 104 else 108)) ->
    resting (set_mode m n on) (emu_feed amb pt (print_csi (Some 63) [Param n false] [] (if on then 104 else 108)))) as Hnext.
  { intros m0 pt0 n on (Hs & Hi & <-) Hn Hb. destruct (private_fed pt0 n on Hs Hn Hb) as (m1 & Hr & E). by rewrite <- (E Hi). }
  unfold tty_restore_sequence, restored. rewrite !Frames.emu_feed_app.
  change (csi_private (str "25") (str "h")) with (print_csi (Some 63) [Param 25 false] [] 104).
  apply (Hnext _ _ 1049 false); [|lia|apply (bool_decide_unpack _); by vm_compute].
  apply (Hnext _ _ 1002 false); [|lia|apply (bool_decide_unpack _); by vm_compute].
  apply (Hnext _ _ 1006 false); [|lia|apply (bool_decide_unpack _); by vm_compute].
  apply (Hnext _ _ 2004 false); [|lia|apply (bool_decide_unpack _); by vm_compute].
  apply (Hnext _ _ 1004 false); [|lia|apply (bool_decide_unpack _); by vm_compute].
  by apply (Hnext _ _ 7 true); [|lia|apply (bool_decide_unpack _); by vm_compute].
Qed.

(** What is written last undoes what was set up. *)
Lemma restoring_is_sane capacity bs : bytes_ok bs ->
  let pt := emu_feed amb (parser_init, emu_new capacity) (tty_setup_sequence ++ bs ++ tty_restore_sequence) in
  let m := e_modes pt.2 in
  idle pt.1 /\ cursor_visible m = true /\ VtModes.autowrap m = true /\ mouse_drag m = false /\ mouse_sgr m = false /\
  bracketed_paste m = false /\ m_alt_screen m = false /\ alt (e_screen pt.2) = false /\ Screen.autowrap (e_screen pt.2) = true /\
  kCrashRestoreLiteral = tty_restore_sequence.
Proof.
  intros Hb. cbv zeta. rewrite app_assoc, Frames.emu_feed_app. set (pt := emu_feed amb _ (tty_setup_sequence ++ bs)).
  assert (sound pt) as Hs.
  { apply sound_feed; [apply sound_new|]. apply Forall_app. split; [|done]. apply (bool_decide_unpack _). by vm_compute. }
  destruct (restore_fed pt Hs) as (m & ((_ & (Fa & Fl) & _) & Hi & E) & _). rewrite Fa, Fl, E.
  split_and!; try done; by destruct m.
Qed.

End Sane.

(** C9: the terminal is given back, and sane.  However a session ends -- greeting refused,
    detached, cut, broken, or out of turns --, if the terminal was taken, the last things
    the client asks are to write on it what restores it, as far as it is let, to put its
    settings back, and to close the socket: nothing is written there afterwards.  The
    handler of a fatal signal does the same, with the same bytes.  And a terminal like
    the ones of this program that has received, from its start, the setting up, then any
    bytes whatever -- frames cut in the middle of a sequence or of a character, a
    restoring already begun -- and then the whole restoring sequence is between two
    sequences, shows its cursor and wraps its lines, reports no drag and no paste, speaks
    no extended mouse protocol, and is on its main page. *)
Theorem terminal_is_given_back `{System} (turns : nat) (grow : Z -> Z -> Z) (shrink : Z -> Z) sock h :
  (exists k, (session turns grow shrink sock h).2 = h ++ k /\
    (took_terminal k -> exists k1 k2 r, k = k1 ++ k2 ++ [Event (QClose sock) r] /\ gives_back k2)) /\
  (exists k, (crash_restore STDIN h).2 = h ++ k /\ gives_back k) /\ kCrashRestoreLiteral = tty_restore_sequence /\
  forall amb capacity bs, bytes_ok bs ->
    let pt := Emulator.emu_feed amb (VtParser.parser_init, Emulator.emu_new capacity) (tty_setup_sequence ++ bs ++ tty_restore_sequence) in
    let m := Emulator.e_modes pt.2 in
    VtParser.idle pt.1 /\ VtModes.cursor_visible m = true /\ VtModes.autowrap m = true /\ VtModes.mouse_drag m = false /\
    VtModes.mouse_sgr m = false /\ VtModes.bracketed_paste m = false /\ VtModes.m_alt_screen m = false /\
    Screen.alt (Emulator.e_screen pt.2) = false /\ Screen.autowrap (Emulator.e_screen pt.2) = true.
Proof.
  destruct (session_gives_back turns grow shrink sock h) as [H1 H2]. split_and!; [exact H1|exact H2|by vm_compute|].
  intros amb capacity bs Hb. destruct (restoring_is_sane amb capacity bs Hb) as (?&?&?&?&?&?&?&?&?&_). by split_and!.
Qed.

(** ** Witnesses *)

Section Demo.

(** A system that answers nothing but the terminal. *)
#[local] Instance demo_system : System := {|
  answer := fun h q => match q with QTcGet _ | QTcRaw _ => ROk | QWrite _ bs => RCount (zlen bs) | _ => RErr 5 end;
  strerror := fun e => str "erreur " ++ to_string e;
  home_of_user := None; shell_of_user := None; environ := []; localdate := fun _ => None;
|}.

Lemma terminal_is_given_back_witness :
  took_terminal (session 3 (fun _ n => n) (fun c => c) 5 []).2 /\
  let pt := Emulator.emu_feed false (VtParser.parser_init, Emulator.emu_new 100) (tty_setup_sequence ++ [104; 195; 27; 91; 51] ++ tty_restore_sequence) in
  VtModes.m_alt_screen (Emulator.e_modes pt.2) = false.
Proof.
  split; [vm_compute; tauto|]. intros pt.
  assert (bytes_ok [104; 195; 27; 91; 51]) as Hb by (apply (bool_decide_unpack _); by vm_compute).
  apply (proj2 (proj2 (proj2 (terminal_is_given_back 3 (fun _ n => n) (fun c => c) 5 []))) false 100%nat _ Hb).
Defined.

End Demo.
